(* ===== verification/_CoqProject ===== *)
-Q . S2P
Prelude.v
GoStrings.v
GoStrconv.v
Base64.v
BmcTypes.v
InventoryTypes.v
Float64.v
Build.v
Inventory.v
Api.v
BmcApi.v
Template.v
KubeClient.v
WorkflowJob.v
Reconciler.v
Controller.v
GoNet.v
GoNetip.v
Dhcp.v
DhcpConv.v
DhcpHandler.v
DhcpServer.v
Attributes.v
ServerNames.v
Server.v
Service.v
Agent.v
Backends.v
DhcpStore.v
GoPath.v
StaticRoute.v
Tootles.v
IpxeScript.v
BootChain.v
GoHttp.v
HttpCommon.v
ReverseProxy.v
Iso.v
IsoServe.v
IpxeBinary.v
Syslog.v
SyslogRun.v
System.v
Rufio.v
BmcJobs.v
BmcSystem.v
MachineCtl.v
BmcClient.v
JsonLog.v
ContainerdFiles.v
Containerd.v
DockerRt.v
KubeRt.v
Runtimes.v
AgentCmd.v
Transports.v
Discovery.v
Flags.v
SmeeConfig.v
Command.v
Startup.v
Secondstar.v
UiPages.v
UiTypes.v
UiKube.v
UiLists.v
UiSearch.v
UiAuth.v
UiCrd.v
UiRoutes.v
UiSession.v
Demo.v
DemoNet.v
Witnesses.v
WitnessesNet.v
WitnessesIso.v
WitnessesBmc.v
WitnessesRt.v
WitnessesUi.v
WitnessesCmd.v
