(* ===== verification/Prelude.v ===== *)
(** * Tinkerbell: a verification development

    Tinkerbell provisions bare metal machines. A machine that is switched on asks
    for an address and something to boot, and Smee answers: DHCP from the machine's
    Hardware object, boot files and scripts over TFTP and HTTP, patched ISO images,
    a sink for its system log. A user creates a Workflow, which names a Template and
    a Hardware; the workflow controller renders the template into tasks and actions
    and prepares the machine's boot; agents on the machines ask the workflow service
    for actions over gRPC, run them in containers and report how they ended. Rufio
    carries out power and boot commands on the machine's baseboard management
    controller (BMC), watches its power state and collects its inventory. Tootles
    serves a machine its own metadata, Secondstar its serial console over SSH, and
    the UI shows the objects to a user with a token. One command, cmd/tinkerbell,
    starts them all in one process behind one HTTP server. These parts share no
    memory: they meet in Kubernetes objects, which the Kubernetes backend reads and
    writes (a file backend may take its place for Smee). The development models the
    Go code of these parts and proves what makes them correct, each alone and, where
    they meet, together.

    ** Files

    Shared.
    - [Prelude] (this file): errors, machine integers and time, slices searched by
      a key, automation. [GoStrings], [GoStrconv], [Base64], [GoPath], [GoNet],
      [GoNetip], [GoHttp]: what the code uses of [strings], [strconv], [fmt],
      [encoding/base64], [path], [net], [net/netip], [net/url] and the headers of
      [net/http]. [Float64]: the rounding of float64 arithmetic.
    - [BmcTypes], [InventoryTypes], [Api], [BmcApi]: the objects of api/v1alpha1/bmc
      and api/v1alpha1/tinkerbell with their condition methods.
    - [HttpCommon]: pkg/http and pkg/xff: routes and muxes, middleware, the address
      behind trusted proxies. [Flags]: pkg/flag. [Build]: pkg/build.

    The workflow controller (tink/controller/internal/workflow).
    - [Template]: types.go, template_validator.go, template_funcs.go (rendering and
      formatPartition), lists.go, convert.go.
    - [KubeClient]: the controller's view of the cluster, a class [KubeClient W];
      [logged] records the writes made through a client, [Mem_client] is a concrete
      in-memory cluster.
    - [WorkflowJob]: hardware.go and job.go: toggling netboot with retries on
      conflicts, and the life of a boot job.
    - [Reconciler]: pre.go, post.go and reconciler.go. [Controller]: its theorems.

    The workflow service and the agent.
    - [Attributes]: the agent's attributes and both conversions
      (pkg/data/attributes.go, tink/agent/internal/transport/grpc/attributes.go,
      tink/server/internal/grpc/proto.go). [Discovery]: internal/attribute, where
      they come from.
    - [ServerNames]: tink/server/internal/grpc/kube.go. [Server]: grpc.go, auto.go,
      discovery.go, enrollment.go, hardware.go of the same directory, over a class
      [Backend]. [Service]: its theorems.
    - [Agent]: tink/agent/agent.go (main loop, options), the gRPC transport and
      internal/pkg/conv. [Transports]: the file and NATS transports. [AgentCmd]:
      cmd/agent and [ConfigureAndRun].
    - [JsonLog], [ContainerdFiles], [Containerd], [DockerRt], [KubeRt]: the three
      container runtimes (internal/runtime). [Runtimes]: the three compared.
    - [System]: agents, service and controller on one workflow object.

    The backends (pkg/backend).
    - [Backends]: kube/ (index.go, hardware.go, workflows.go, patch.go, error.go,
      rulesets.go, secondstar.go), file/file.go and noop/noop.go, as instances of the
      interfaces their clients use, with the promise of a hardware lookup as a class
      [HardwareLookup] that both keep.

    Smee (smee/internal).
    - [Dhcp]: dhcp/dhcp.go and format.go: what a client is and which file it boots.
      [DhcpConv]: conv.go and data.go, and hardware/hardware.go: from a Hardware to a
      reservation. [DhcpHandler]: the reservation and proxy handlers. [DhcpServer]:
      the loop of the server, and dhcp/otel. [DhcpStore]: the handler over a backend.
    - [IpxeScript]: ipxe/script, and the script path of smee.go. [BootChain]: DHCP,
      the script server and a backend together. [IpxeBinary]: ipxe/binary, the TFTP
      and HTTP servers of boot files.
    - [ReverseProxy]: iso/internal, the proxy. [Iso]: iso/iso.go and ipam.go.
      [IsoServe]: a request for an image from end to end.
    - [Syslog]: syslog/message.go, and what becomes of one datagram. [SyslogRun]:
      receiver.go, its goroutines.
    - [SmeeConfig]: smee.go, the configuration and what is started.

    Tootles. [StaticRoute]: frontend/ec2/internal/staticroute. [Tootles]:
      backend/backend.go, frontend/ec2, frontend/hack, ginutil/router.go.

    Rufio (rufio/internal/controller).
    - [Rufio]: job.go, task.go, kube.go and the secrets of machine.go, over a class
      [RufioClient]. [BmcJobs]: what one reconciliation does. [BmcSystem]: both
      reconcilers, a Job and a BMC together.
    - [Inventory]: the conversion and ordering of inventory.go. [MachineCtl]:
      machine.go and the refresh of inventory.go. [BmcClient]: client.go.

    Secondstar. [Secondstar]: the sessions of the SSH server and the shared consoles.

    The UI (ui/internal/http). [UiPages]: pagination.go. [UiTypes], [UiKube],
      [UiLists], [UiSearch], [UiCrd]: the data of the pages. [UiAuth]: auth.go, login
      and cookies. [UiRoutes]: the handlers and ui.go. [UiSession]: what a request
      may touch.

    The command (cmd/tinkerbell). [Command]: the configuration made of the flags and
      the HTTP server of all services. [Startup]: the public address, the custom
      resources, the backend and the order in which the services start.

    [Demo], [DemoNet]: a concrete installation. [Witnesses], [WitnessesNet],
    [WitnessesIso], [WitnessesBmc], [WitnessesRt], [WitnessesUi],
    [WitnessesCmd]: every theorem of the manifest that has hypotheses, applied to it.

    ** How the code is modelled

    A handler or reconciler is a function of a world [W] that returns its results
    and the next world. Everything outside the program is a class of operations on
    that world: API server, clock, identifiers, container runtimes, BMC, operating
    system ([KubeClient], [Backend], [KubeStore], [ServerEnv], [AgentEnv],
    [AgentCmdEnv], [ContainerdClient], [DockerClient], [KubeJobs], [HostOs],
    [RufioClient], [InventoryClient], [UiKube], [CrdApi], [ApiHealth], [CmdEnv]),
    packet, URL and HTTP libraries ([DhcpLib], [PacketView], [GoUrl], [UrlStruct],
    [IsoHttp], [ProxyEnv]), files and transfers ([FileServer]), YAML and JSON
    coders, tokens, times of syslog ([HardwareYaml], [TokenEnv], [SyslogTime]),
    mergo, safecast and bmclib ([Mergo], [Safecast], [BmcLib]). Nothing is assumed of
    an operation unless a theorem says so; documented behaviour that a theorem needs
    is a class of laws ([DhcpLaws], [MergoLaws], [SafecastLaws], [RetryLaw],
    [KubeLists]) with an instance in the witnesses. Any other writer may act between
    two calls. The Go pointer to the workflow that the controller mutates is threaded
    as a value beside the world. A panic is the result [None], or an outcome of its
    own where it is recovered ([http_outcome]). [int64] arithmetic that can overflow
    wraps ([wrap64]), instants and durations are integers of nanoseconds, bytes of
    addresses are integers with the predicate [octet]. float64 values are dyadic
    rationals with 53-bit rounding and no bound on the exponent, which the values
    that occur stay far from. A Go map is a [gmap]; where the order of [range] can
    matter it is an argument ([order] of [Reconcile]). Go errors keep their tree, so
    that errors.As, errors.Is and status.Code can be computed; of an error built with
    [%v] only the text is kept. Logging, metrics, tracing and the journal are left
    out, but for the attributes of DHCP packets.

    Goroutines that share memory are step functions on events, one event per
    operation on what is shared: [System.step], [Secondstar.sstep],
    [SyslogRun.rstep], [Transports.tstep]; the theorems hold in every state that a
    sequence of events reaches.

    Loops over slices are structural recursions. Loops with a bound carry it as fuel
    equal to that bound: [setAllowPXE_loop] (four attempts), [execute_loop] (the
    retries of an action), [retry_Do] and [follow_redirects] (ten
    redirects); all return before the fuel runs out, or as the code does when it
    does, which [setAllowPXE_writes], [iteration_protocol] and [iso_served] include.
    [kube_Execute] and [wait_api] have bounds that a deadline makes enough, which is
    [kube_returns] and [wait_api_ends].
    The agent's endless loop is [Run n], the first [n] turns. [rounds] and [brounds]
    are schedules of the system, not code.

    ** What is proved

    - The whole. [System.workflow_in_order]: whatever the interleaving of requests,
      reports and controller patches, actions run in order across tasks and agents,
      and SUCCESS means all succeeded. [System.workflow_completes]: cooperating
      agents bring a workflow to its end. [System.empty_last_task_never_done]: the
      case in which nothing does. [BmcSystem.job_commands_in_order] and
      [BmcSystem.job_completes]: the same for the commands of a BMC job. Each step of
      these systems is a whole handler call or reconciliation on current data; stale
      caches and lost writes are covered by the statements on single handlers only.
    - The controller. [Controller.Reconcile_patches] bounds every patch of every
      reconciliation; the other theorems of [Controller] and [WorkflowJob] give its
      branches: hand-over between agents, preparation, deadline, references,
      disabled and settled workflows, boot jobs and netboot toggling.
    - Templates. [Template]: the validator is its specification, rendering is exact
      up to 256 KiB, a rendered workflow starts pending with distinct identifiers.
    - The service. [Service]: what is served and to whom, what a report changes, what
      discovery, annotation and enrollment write. [ServerNames]: generated names are
      DNS labels. [Attributes]: nothing sent by an agent is lost.
    - The agent. [Agent]: the protocol of one turn, durations, environment, options.
      [Containerd.containerd_lifecycle], [DockerRt.docker_lifecycle],
      [KubeRt.kube_lifecycle]: an execution creates at most one container, succeeds
      exactly when it ended with status 0, and cleans up. [KubeRt.kube_returns]: it
      ends. [Runtimes]: the process that is run is the same. [JsonLog.log_complete]:
      no line of a log is lost. [AgentCmd]: what the agent is made of.
    - Booting. [DhcpStore]: the reservation handler refines the table of reservations
      of any backend, and no address is given twice. [DhcpHandler]: the content of
      the answers, and who may netboot. [DhcpServer]: no datagram stops the server.
      [DhcpConv.reservation_sound]: reservations are well formed.
      [Command.netboot_chain]: with one configuration of the command, the script
      address of a DHCP answer leads to that machine's script. [IpxeBinary]: where the
      files that are served come from, patches and trace identifiers.
      [IsoServe.iso_served]: a machine receives the image of the source, patched for
      it, and the source what the client may say. [Syslog.syslog_pool]: reused buffers
      do not leak. [SyslogRun.receiver_complete], [SyslogRun.receiver_stops]: whatever
      the interleaving, no message is shared, everything received is logged, and the
      receiver ends.
    - The backends. [Backends.backends_agree]: both backends find the same Hardware.
    - Metadata. [Tootles.ec2_answer]: a machine gets its own data.
      [StaticRoute.Build_listings], [Tootles.ec2_navigable]: the listings.
    - Rufio. [BmcJobs], [MachineCtl]: the writes and commands of one reconciliation;
      when inventory is collected and written. [Inventory.inventory_canonical]: the
      order in which a BMC lists components does not matter. [BmcClient]: settings.
    - Consoles. [Secondstar.console_isolation], [Secondstar.session_counts],
      [Secondstar.shutdown_one]: sessions of different machines do not mix, the
      counters are those of the sessions, and an ended console is given back.
    - The UI. [UiSession.session_confined], [UiAuth.login_gate],
      [UiAuth.login_roundtrip]: only the token of the request is used, and only one
      that was checked. [UiRoutes.workflow_pages_complete]: the pages show everything
      once.
    - The command. [Command.tls_exposure]: what plain HTTP answers.
      [HttpCommon.xff_spoof_resistant]: the address of a client cannot be forged.
      [Startup.services_prepared]: what is ready when the services start.
      [Build.Version_idempotent]: versions.

    ** What is not modelled

    Generated code: the HTML of the UI's pages, deep copies, gRPC and protobuf stubs.
    The v1alpha2 types, which no controller uses. The embedded etcd and API server,
    and the servers of gRPC, SSH and the controller managers, which are calls into
    libraries with options that set a field. The registration of the command's flags
    (tables of names), loggers, metrics, traces and the journal. Opening sockets.
    Of the Kubernetes backend NewBackend, loadConfig and DynamicRead; of Secondstar
    the ipmitool process. [toYaml], [fromYaml] and [netmaskToPrefixLength] of the
    template functions are part of the template engine's environment. pkg/rand of
    the agent, which nothing calls. *)
From Stdlib Require Export Ascii.
From stdpp Require Export base list strings gmap fin_maps pretty sorting.
From Stdlib Require Export ZArith Lia.

(** ** Errors

    A Go [error] is a value whose message is printed and whose identity is
    inspected with [errors.As] and [errors.Is] through wrapping and joining. *)

(** The [metav1.StatusReason] of a Kubernetes API error, as far as
    [apierrors.IsNotFound] and its siblings tell them apart. *)
Inductive StatusReason :=
| StatusReasonNotFound
| StatusReasonConflict
| StatusReasonAlreadyExists
| StatusReasonOther.

(** The gRPC codes the program uses. *)
Inductive code :=
| OK
| Unknown
| InvalidArgument
| NotFound
| FailedPrecondition
| Internal
| Unavailable.

(** [context.Canceled] and [context.DeadlineExceeded]. *)
Inductive ctxErr := Canceled | DeadlineExceeded.

Inductive error :=
| ErrNew (msg : string)
| ErrCtx (k : ctxErr)
| ErrStatus (r : StatusReason) (msg : string)
| ErrGrpc (c : code) (msg : string)
| ErrWrap (pre : string) (e : error)
| ErrJoin (e1 e2 : error)
| ErrPermanent (e : error)
| ErrNoWorkflow
| ErrNoActions (msg : string) (inner : error)
| ErrFoundMultiple (msg : string)
| ErrNotFound (msg : string).

#[export] Instance StatusReason_eq_dec : EqDecision StatusReason.
Proof. solve_decision. Defined.
#[export] Instance code_eq_dec : EqDecision code.
Proof. solve_decision. Defined.
#[export] Instance ctxErr_eq_dec : EqDecision ctxErr.
Proof. solve_decision. Defined.
#[export] Instance error_eq_dec : EqDecision error.
Proof. solve_decision. Defined.


Definition code_name (c : code) : string :=
  match c with
  | OK => "OK" | Unknown => "Unknown" | InvalidArgument => "InvalidArgument"
  | NotFound => "NotFound" | FailedPrecondition => "FailedPrecondition"
  | Internal => "Internal" | Unavailable => "Unavailable"
  end.

(** [err.Error()]. *)
Fixpoint error_msg (e : error) : string :=
  match e with
  | ErrNew m | ErrStatus _ m | ErrFoundMultiple m | ErrNotFound m => m
  | ErrCtx Canceled => "context canceled"
  | ErrCtx DeadlineExceeded => "context deadline exceeded"
  | ErrGrpc c m => "rpc error: code = " +:+ code_name c +:+ " desc = " +:+ m
  | ErrWrap pre e => pre +:+ error_msg e
  | ErrJoin e1 e2 => error_msg e1 +:+ String (ascii_of_nat 10) (error_msg e2)
  | ErrPermanent e => error_msg e
  | ErrNoWorkflow => "No workflow found"
  | ErrNoActions m e => m +:+ ": " +:+ error_msg e
  end.

(** [errors.As] for the API status error (the backend's own not-found error is
    one too): the first one in a depth-first walk
    of the wrapping tree. *)
Fixpoint status_reason (e : error) : option StatusReason :=
  match e with
  | ErrStatus r _ => Some r
  | ErrNotFound _ => Some StatusReasonNotFound
  | ErrWrap _ e | ErrPermanent e | ErrNoActions _ e => status_reason e
  | ErrJoin e1 e2 =>
      match status_reason e1 with Some r => Some r | None => status_reason e2 end
  | _ => None
  end.

Definition IsNotFound (e : error) : bool :=
  bool_decide (status_reason e = Some StatusReasonNotFound).
Definition IsConflict (e : error) : bool :=
  bool_decide (status_reason e = Some StatusReasonConflict).
Definition IsAlreadyExists (e : error) : bool :=
  bool_decide (status_reason e = Some StatusReasonAlreadyExists).

(** [status.Code(err)]: [OK] for a nil error, [Unknown] when no gRPC status is
    found in the tree. *)
Fixpoint grpc_code (e : error) : option code :=
  match e with
  | ErrGrpc c _ => Some c
  | ErrWrap _ e | ErrPermanent e | ErrNoActions _ e => grpc_code e
  | ErrJoin e1 e2 =>
      match grpc_code e1 with Some c => Some c | None => grpc_code e2 end
  | _ => None
  end.

Definition status_Code (e : option error) : code :=
  match e with
  | None => OK
  | Some e => default Unknown (grpc_code e)
  end.

(** [errors.Is(err, k)] for the two context errors. *)
Fixpoint is_ctx (k : ctxErr) (e : error) : bool :=
  match e with
  | ErrCtx k' => bool_decide (k = k')
  | ErrWrap _ e | ErrPermanent e | ErrNoActions _ e => is_ctx k e
  | ErrJoin e1 e2 => is_ctx k e1 || is_ctx k e2
  | _ => false
  end.

(** [errors.Join(a, b)]: nil operands are discarded. *)
Definition errors_Join (a b : option error) : option error :=
  match a, b with
  | Some e1, Some e2 => Some (ErrJoin e1 e2)
  | Some e, None | None, Some e => Some e
  | None, None => None
  end.

(** The result of a fallible call: [inl err] or [inr value]. *)
Abbreviation res A := (error + A)%type.

(** ** Machine integers and time

    [int64] values are integers of [Z] in range; [wrap64] is the wrap-around of
    Go's [+], [-] and [*] on them. An instant is the number of nanoseconds
    since the Unix epoch, a [time.Duration] an [int64] number of nanoseconds. *)

Definition min_int64 : Z := (- 2 ^ 63)%Z.
Definition max_int64 : Z := (2 ^ 63 - 1)%Z.
Definition wrap64 (z : Z) : Z := ((z + 2 ^ 63) mod 2 ^ 64 - 2 ^ 63)%Z.
Definition int64 (z : Z) : Prop := (min_int64 ≤ z ≤ max_int64)%Z.

Definition time_Second : Z := 1000000000%Z.
Definition time_Minute : Z := (60 * time_Second)%Z.
Definition time_Hour : Z := (60 * time_Minute)%Z.

(** The zero [time.Time], January 1, year 1 UTC. *)
Definition time_zero : Z := (- 62135596800 * time_Second)%Z.

(** [t.Sub(u)] saturates at the bounds of [time.Duration]. *)
Definition time_Sub (t u : Z) : Z := (max_int64 `min` (min_int64 `max` (t - u)))%Z.

(** [d.Abs()] sends the minimal duration to the maximal one. *)
Definition duration_Abs (d : Z) : Z :=
  if decide (0 ≤ d)%Z then d
  else if decide (d = min_int64) then max_int64 else (- d)%Z.

Lemma wrap64_id z : int64 z → wrap64 z = z.
Proof.
  unfold int64, wrap64, min_int64, max_int64. intros ?.
  rewrite Z.mod_small; lia.
Qed.

Lemma wrap64_int64 z : int64 (wrap64 z).
Proof.
  unfold int64, wrap64, min_int64, max_int64.
  pose proof (Z.mod_pos_bound (z + 2 ^ 63) (2 ^ 64) ltac:(lia)). lia.
Qed.

Lemma time_Sub_exact t u : int64 (t - u) → time_Sub t u = (t - u)%Z.
Proof. unfold int64, time_Sub. lia. Qed.

Lemma duration_Abs_nonneg d : int64 d → (0 ≤ duration_Abs d ≤ max_int64)%Z.
Proof. unfold int64, duration_Abs, min_int64, max_int64. repeat case_decide; lia. Qed.

(** ** Lists keyed by a type

    Conditions are kept in a slice searched by their type; the Go loops stop at
    the first element whose type matches. *)

Section keyed.
Context {C T : Type} `{EqDecision T} (key : C → T).

Definition find_key (t : T) (l : list C) : option (nat * C) :=
  list_find (λ c, key c = t) l.

(** Replace the first element of type [t] by [f] of it, or append [f new]. *)
Definition upsert (t : T) (f : C → C) (new : C) (l : list C) : list C :=
  match find_key t l with
  | Some (i, c) => <[i := f c]> l
  | None => l ++ [f new]
  end.

Lemma find_key_cons t c l :
  find_key t (c :: l) =
    if decide (key c = t) then Some (0, c) else prod_map S id <$> find_key t l.
Proof. reflexivity. Qed.

Lemma upsert_cons t f new c l :
  upsert t f new (c :: l) =
    if decide (key c = t) then f c :: l else c :: upsert t f new l.
Proof.
  unfold upsert. rewrite find_key_cons. case_decide; [done|].
  destruct (find_key t l) as [[i c']|]; done.
Qed.

(** The condition found after an update is the new one... *)
Lemma find_upsert_eq t f new l :
  key (f new) = t → (∀ c, key c = t → key (f c) = t) →
  ∃ c, snd <$> find_key t (upsert t f new l) = Some (f c)
       ∧ (find_key t l = None → c = new)
       ∧ (∀ i c', find_key t l = Some (i, c') → c = c').
Proof.
  intros Hnew Hf. induction l as [|a l IH].
  - exists new. unfold upsert; simpl. unfold find_key; simpl.
    rewrite decide_True by done. done.
  - rewrite upsert_cons, find_key_cons. case_decide as Ha.
    + exists a. rewrite find_key_cons, decide_True by auto.
      split_and!; [done|done|by intros; simplify_eq].
    + rewrite find_key_cons, decide_False by done.
      destruct IH as (c & Hc & H1 & H2). exists c. split_and!.
      * destruct (find_key t (upsert t f new l)) as [[i c']|]; simpl in *; congruence.
      * destruct (find_key t l) as [[i c']|]; [done|auto].
      * destruct (find_key t l) as [[i c']|]; simpl; [|done].
        intros ?? [= <- <-]. eauto.
Qed.

(** ... and conditions of every other type are untouched. *)
Lemma find_upsert_ne t t' f new l :
  t ≠ t' → key (f new) = t → (∀ c, key c = t → key (f c) = t) →
  snd <$> find_key t' (upsert t f new l) = snd <$> find_key t' l.
Proof.
  intros Hne Hnew Hf. induction l as [|a l IH].
  - unfold upsert; simpl. unfold find_key; simpl. rewrite decide_False; [done|congruence].
  - rewrite upsert_cons, !find_key_cons. case_decide as Ha.
    + rewrite find_key_cons, !decide_False by (try rewrite Hf; congruence). done.
    + rewrite find_key_cons. case_decide; [done|].
      destruct (find_key t' (upsert t f new l)) as [[]|],
        (find_key t' l) as [[]|]; simpl in *; congruence.
Qed.

(** One element per type is an invariant. *)
Lemma upsert_keys t f new l :
  key (f new) = t → (∀ c, key c = t → key (f c) = t) →
  key <$> upsert t f new l =
    if decide (t ∈ key <$> l) then key <$> l else (key <$> l) ++ [t].
Proof.
  intros Hnew Hf. induction l as [|a l IH].
  - unfold upsert; csimpl. by rewrite Hnew.
  - rewrite upsert_cons. destruct (decide (key a = t)) as [Ha|Ha].
    + rewrite decide_True by (subst; set_solver). csimpl. rewrite Hf by done. congruence.
    + csimpl. rewrite IH. repeat case_decide; set_solver.
Qed.

Lemma upsert_NoDup t f new l :
  key (f new) = t → (∀ c, key c = t → key (f c) = t) →
  NoDup (key <$> l) → NoDup (key <$> upsert t f new l).
Proof.
  intros Hnew Hf Hl. rewrite upsert_keys by done. case_decide; [done|].
  apply NoDup_app. split_and!; [done|set_solver|apply NoDup_singleton].
Qed.

(** [HasCondition]: the status of the first element of type [t] is [s]. *)
Definition has_key {S : Type} `{EqDecision S} (status : C → S) (l : list C) (t : T) (s : S) : bool :=
  match find_key t l with
  | Some (_, c) => bool_decide (status c = s)
  | None => false
  end.

Lemma has_upsert {S : Type} `{EqDecision S} (status : C → S) t v f new l t' s :
  key new = t → (∀ c, key (f c) = key c ∧ status (f c) = v) →
  has_key status (upsert t f new l) t' s =
    if decide (t' = t) then bool_decide (v = s) else has_key status l t' s.
Proof.
  intros Hnew Hf. unfold has_key.
  assert (key (f new) = t) as Hn by (by rewrite (proj1 (Hf new))).
  assert (∀ c, key c = t → key (f c) = t) as Hk by (intros c <-; apply Hf).
  case_decide as Ht.
  - subst t'. destruct (find_upsert_eq t f new l Hn Hk) as (c & Hc & _).
    destruct (find_key _ _) as [[i c']|]; simplify_eq/=. by rewrite (proj2 (Hf c)).
  - pose proof (find_upsert_ne t t' f new l ltac:(done) Hn Hk) as E.
    destruct (find_key t' (upsert _ _ _ _)) as [[]|], (find_key t' l) as [[]|]; by simplify_eq/=.
Qed.
End keyed.

(** A filter that keeps everything. *)
Lemma filter_all {A} (P : A → Prop) `{∀ x, Decision (P x)} (l : list A) : Forall P l → filter P l = l.
Proof. induction 1 as [|x l Hx _ IH]; [done|]. by rewrite filter_cons_True, IH. Qed.

(** ** Recording

    A call that also appends to a record. An environment is recorded by giving
    its calls as such, and a program is then run on the recorded environment. *)
Definition recorded {W E A} (ev : A → list E) (f : W → A * W) (wl : W * list E) : A * (W * list E) :=
  let '(a, w) := f wl.1 in (a, (w, wl.2 ++ ev a)).

Lemma recorded_inv {W E A} (ev : A → list E) (f : W → A * W) wl a wl' :
  recorded ev f wl = (a, wl') → f wl.1 = (a, wl'.1) ∧ wl'.2 = wl.2 ++ ev a.
Proof. unfold recorded. destruct (f wl.1). by intros [= <- <-]. Qed.

(** ** Automation *)

Create HintDb tink.

(** Decides a closed proposition by computation. *)
Ltac by_decide := apply (bool_decide_unpack _); vm_compute; exact I.

(** Split every [match] and [if] of the goal, dropping impossible cases. *)
Ltac go_case :=
  repeat first [ case_match | case_decide | case_bool_decide ]; simplify_eq/=.
Ltac go_cases := repeat (go_case; try done).
