(* ===== verification/GoStrings.v ===== *)
(** * The Go string functions the program uses

    A Go string is a sequence of bytes, modelled by [string] (a list of 8-bit
    [ascii]). The functions of the packages [strings] and [regexp] that classify
    characters are modelled on the ASCII range. *)
From S2P Require Import Prelude.

Abbreviation bytes_of := String.list_ascii_of_string.
Abbreviation of_bytes := String.string_of_list_ascii.

(** [len(s)]. *)
Abbreviation strlen := String.length.

Definition ascii_between (lo hi c : ascii) : bool :=
  (nat_of_ascii lo <=? nat_of_ascii c) && (nat_of_ascii c <=? nat_of_ascii hi).

Definition is_digit (c : ascii) : bool := ascii_between "0"%char "9"%char c.
Definition is_lower (c : ascii) : bool := ascii_between "a"%char "z"%char c.
Definition is_upper (c : ascii) : bool := ascii_between "A"%char "Z"%char c.
Definition is_alnum (c : ascii) : bool := is_digit c || is_lower c || is_upper c.
Definition is_hyphen (c : ascii) : bool := bool_decide (c = "-"%char).

(** [unicode.ToLower] on ASCII. *)
Definition lower_char (c : ascii) : ascii :=
  if is_upper c then ascii_of_nat (nat_of_ascii c + 32) else c.

Definition ToLower (s : string) : string := of_bytes (lower_char <$> bytes_of s).

(** [strings.HasPrefix]. *)
Definition HasPrefix (s p : string) : bool := String.prefix p s.

(** [strings.Contains]. *)
Fixpoint Contains (s sub : string) : bool :=
  String.prefix sub s ||
  match s with
  | EmptyString => false
  | String _ s' => Contains s' sub
  end.

(** [strings.Cut(s, sep)] for a one-byte separator: before, after, found. *)
Fixpoint Cut (s : string) (sep : ascii) : string * string * bool :=
  match s with
  | EmptyString => (EmptyString, EmptyString, false)
  | String c s' =>
      if decide (c = sep) then (EmptyString, s', true)
      else let '(a, b, f) := Cut s' sep in (String c a, b, f)
  end.

(** [strings.Split(s, sep)] for a one-byte separator: the parts between the separators. *)
Fixpoint split_on (sep : ascii) (l cur : list ascii) : list (list ascii) :=
  match l with
  | [] => [cur]
  | c :: l' => if decide (c = sep) then cur :: split_on sep l' [] else split_on sep l' (cur ++ [c])
  end.
Definition Split (s : string) (sep : ascii) : list string := of_bytes <$> split_on sep (bytes_of s) [].

(** [strings.SplitN(s, sep, 2)] for a one-byte separator. *)
Definition SplitN2 (s : string) (sep : ascii) : list string :=
  let '(a, b, found) := Cut s sep in if (found : bool) then [a; b] else [s].

Fixpoint drop_while {A} (p : A → bool) (l : list A) : list A :=
  match l with
  | [] => []
  | x :: l' => if p x then drop_while p l' else l
  end.

(** Strip the elements satisfying [p] at both ends. *)
Definition trim_list {A} (p : A → bool) (l : list A) : list A :=
  reverse (drop_while p (reverse (drop_while p l))).

Definition TrimSpace (s : string) : string := of_bytes (trim_list Ascii.is_space (bytes_of s)).

(** [strings.Join]. *)
Fixpoint Join (l : list string) (sep : string) : string :=
  match l with
  | [] => ""
  | [s] => s
  | s :: l' => s +:+ sep +:+ Join l' sep
  end.

(** [strconv.Itoa] and the verb [%d]. *)
Definition Itoa (z : Z) : string := pretty z.

(** [fmt.Sprint] of a bool. *)
Definition bool_str (b : bool) : string := if b then "true" else "false".

(** ** Lemmas *)

Lemma bytes_of_of_bytes l : bytes_of (of_bytes l) = l.
Proof. apply String.list_ascii_of_string_of_list_ascii. Qed.

Lemma of_bytes_bytes_of s : of_bytes (bytes_of s) = s.
Proof. apply String.string_of_list_ascii_of_string. Qed.

Lemma string_app_cons c s t : String c s +:+ t = String c (s +:+ t).
Proof. reflexivity. Qed.

Lemma bytes_of_app s t : bytes_of (s +:+ t) = bytes_of s ++ bytes_of t.
Proof. induction s as [|c s IH]; [done|]. rewrite string_app_cons; simpl. by rewrite IH. Qed.

Lemma strlen_bytes s : strlen s = length (bytes_of s).
Proof. induction s as [|c s IH]; simpl; [done|by rewrite IH]. Qed.

Lemma bytes_of_inj s t : bytes_of s = bytes_of t → s = t.
Proof. intros H. by rewrite <-(of_bytes_bytes_of s), H, of_bytes_bytes_of. Qed.

Lemma string_app_assoc s t u : s +:+ (t +:+ u) = (s +:+ t) +:+ u.
Proof. apply bytes_of_inj. by rewrite !bytes_of_app, (assoc (++)). Qed.

Lemma string_app_nil_r s : s +:+ "" = s.
Proof. apply bytes_of_inj. rewrite bytes_of_app. apply app_nil_r. Qed.

Create Rewrite HintDb strings.
#[export] Hint Rewrite bytes_of_of_bytes of_bytes_bytes_of bytes_of_app : strings.

Lemma string_app_inj_l s t u : s +:+ t = s +:+ u → t = u.
Proof.
  intros E%(f_equal bytes_of). rewrite !bytes_of_app in E.
  by apply app_inv_head, bytes_of_inj in E.
Qed.

Lemma strlen_app s t : strlen (s +:+ t) = strlen s + strlen t.
Proof. rewrite !strlen_bytes, bytes_of_app, length_app. done. Qed.

(** Decimal numerals are never empty and determine their number. *)
Lemma pretty_N_go_length x s : strlen s ≤ strlen (pretty_N_go x s).
Proof.
  revert s. induction (N.lt_wf_0 x) as [x _ IH]; intros s.
  assert (x = 0 ∨ 0 < x)%N as [->|?] by lia; [by rewrite pretty_N_go_0|].
  rewrite pretty_N_go_step by done.
  etrans; [|apply IH, N.div_lt; lia]. simpl. lia.
Qed.

Lemma pretty_N_nonempty (x : N) : strlen (pretty x) ≠ 0.
Proof.
  unfold pretty, pretty_N. case_decide; [done|]. rewrite pretty_N_go_step by lia.
  pose proof (pretty_N_go_length (x `div` 10) (String (pretty_N_char (x `mod` 10)) "")).
  simpl in *. lia.
Qed.

Lemma Itoa_nonempty z : strlen (Itoa z) ≠ 0.
Proof.
  unfold Itoa. destruct z as [|p|p]; [done|apply (pretty_N_nonempty (Npos p))|].
  change (pretty (Zneg p)) with ("-" +:+ pretty (Npos p)). by rewrite strlen_app.
Qed.

Lemma Itoa_inj x y : Itoa x = Itoa y → x = y.
Proof. apply pretty_Z_inj. Qed.

(** Cutting a string at a separator its first part does not hold gives the two
    parts back. *)
Lemma Cut_app s t sep :
  sep ∉ bytes_of s → Cut (s +:+ String sep t) sep = (s, t, true).
Proof.
  induction s as [|c s IH]; intros Hs.
  - simpl. by rewrite decide_True.
  - rewrite string_app_cons; simpl in *. rewrite decide_False by set_solver.
    rewrite IH by set_solver. done.
Qed.

Lemma Cut_None s sep :
  sep ∉ bytes_of s → Cut s sep = (s, "", false).
Proof.
  induction s as [|c s IH]; intros Hs; [done|].
  simpl in *. rewrite decide_False by set_solver. by rewrite IH by set_solver.
Qed.

(** What [Cut] returns always recomposes to its argument. *)
Lemma Cut_spec s sep a b f :
  Cut s sep = (a, b, f) →
  sep ∉ bytes_of a ∧ s = (if f then a +:+ String sep b else a).
Proof.
  revert a b f. induction s as [|c s IH]; intros a b f; simpl.
  - intros [= <- <- <-]. set_solver.
  - case_decide as Hc; [intros [= <- <- <-]; subst; set_solver|].
    destruct (Cut s sep) as [[a' b'] f'] eqn:E. intros [= <- <- <-].
    destruct (IH _ _ _ eq_refl) as [Ha ->]. split; [set_solver|].
    destruct f'; [by rewrite string_app_cons|done].
Qed.

Section trim.
Context {A : Type} (p : A → bool).

Lemma drop_while_head l x l' : drop_while p l = x :: l' → p x = false.
Proof. induction l as [|y l IH]; simpl; [done|]. destruct (p y) eqn:?; naive_solver. Qed.

Lemma drop_while_suffix l : ∃ k, l = k ++ drop_while p l ∧ Forall (λ x, p x = true) k.
Proof.
  induction l as [|y l (k & Hk & Hp)]; simpl; [by exists []|].
  destruct (p y) eqn:Hy.
  - exists (y :: k). split; [by rewrite Hk at 1|by constructor].
  - by exists [].
Qed.

Lemma drop_while_false l : (∀ x, head l = Some x → p x = false) → drop_while p l = l.
Proof. destruct l as [|y l]; simpl; [done|]. intros H. by rewrite (H y). Qed.

Lemma drop_while_last l x : last (drop_while p l) = Some x → last l = Some x.
Proof.
  destruct (drop_while_suffix l) as (k & Hk & _). intros H.
  rewrite Hk, last_app, H. done.
Qed.

(** The ends of a trimmed list do not satisfy [p]. *)
Lemma trim_list_ends l :
  (∀ x, head (trim_list p l) = Some x → p x = false)
  ∧ (∀ x, last (trim_list p l) = Some x → p x = false).
Proof.
  unfold trim_list. split; intros x.
  - rewrite head_reverse. intros H%drop_while_last. rewrite last_reverse in H.
    destruct (drop_while p l) as [|y l'] eqn:E; [done|]. simplify_eq/=.
    by eapply drop_while_head.
  - rewrite last_reverse. destruct (drop_while p (reverse _)) as [|y l'] eqn:E; [done|].
    intros [= <-]. by eapply drop_while_head.
Qed.

Lemma trim_list_nil l : trim_list p l = [] ↔ Forall (λ x, p x = true) l.
Proof.
  unfold trim_list. split.
  - intros H%(f_equal reverse). rewrite reverse_involutive in H; simpl in H. destruct (drop_while_suffix (reverse (drop_while p l))) as (k & Hk & Hp).
    rewrite H, app_nil_r in Hk. destruct (drop_while_suffix l) as (k' & Hk' & Hp').
    rewrite Hk', Forall_app. split; [done|].
    rewrite <-(reverse_involutive (drop_while p l)), Hk. by apply Forall_reverse.
  - intros H. assert (drop_while p l = []) as ->; [|done].
    induction H as [|x l Hx _ IH]; simpl; [done|]. by rewrite Hx.
Qed.
End trim.

(** ** The order of strings

    [s <= t] compares the bytes from the left. *)

Fixpoint str_leb (s t : string) : bool :=
  match s, t with
  | EmptyString, _ => true
  | _, EmptyString => false
  | String a s', String b t' =>
      if decide (nat_of_ascii a < nat_of_ascii b) then true
      else if decide (nat_of_ascii b < nat_of_ascii a) then false
      else str_leb s' t'
  end.

Definition str_le (s t : string) : Prop := str_leb s t = true.

#[export] Instance str_le_dec s t : Decision (str_le s t).
Proof. unfold str_le. apply _. Defined.

#[export] Instance str_le_total : Total str_le.
Proof.
  unfold str_le. intros s. induction s as [|a s IH]; intros [|b t]; simpl; [by left..|by right|].
  destruct (IH t); repeat case_decide; auto; lia.
Qed.

#[export] Instance str_le_trans : Transitive str_le.
Proof.
  unfold str_le. intros s. induction s as [|a s IH]; intros [|b t] [|c u]; simpl; [done..|].
  repeat case_decide; intros; try done; try lia. by eapply IH.
Qed.

#[export] Instance str_le_antisymm : AntiSymm (=) str_le.
Proof.
  unfold str_le. intros s. induction s as [|a s IH]; intros [|b t]; simpl; [done..|].
  repeat case_decide; intros; try done; try lia. f_equal; [|by apply IH].
  rewrite <-(ascii_nat_embedding a), <-(ascii_nat_embedding b). f_equal. lia.
Qed.

(** [s < t]. *)
Definition str_ltb (s t : string) : bool := negb (str_leb t s).
