(* ===== verification/GoStrconv.v ===== *)
(** * Numbers as text

    What the code uses of the package strconv on decimal numbers. *)
From S2P Require Import Prelude GoStrings.

(** ** Atoi

    The value and whether there was an error: a value out of range is clamped, a
    text that is no number gives zero. *)
Definition max_uint64 : Z := (2 ^ 64 - 1)%Z.

Inductive NumError := ErrSyntax | ErrRange.

Fixpoint parse_uint (l : list ascii) (n : Z) : Z * option NumError :=
  match l with
  | [] => (n, None)
  | c :: l' =>
      if is_digit c then
        if decide (max_uint64 / 10 + 1 ≤ n)%Z then (max_uint64, Some ErrRange)
        else
          let n1 := (n * 10 + (Z.of_nat (nat_of_ascii c) - 48))%Z in
          if decide (max_uint64 < n1)%Z then (max_uint64, Some ErrRange) else parse_uint l' n1
      else (0%Z, Some ErrSyntax)
  end.

Definition ParseUint (l : list ascii) : Z * option NumError :=
  match l with [] => (0%Z, Some ErrSyntax) | _ => parse_uint l 0 end.

Definition Atoi (s : string) : Z * bool :=
  let '(neg, digits) :=
    match bytes_of s with
    | "-"%char :: l => (true, l)
    | "+"%char :: l => (false, l)
    | l => (false, l)
    end in
  match ParseUint digits with
  | (_, Some ErrSyntax) => (0%Z, true)
  | (un, e) =>
      if negb neg && bool_decide (2 ^ 63 ≤ un)%Z then (max_int64, true)
      else if neg && bool_decide (2 ^ 63 < un)%Z then (min_int64, true)
      else ((if neg then - un else un)%Z, bool_decide (e ≠ None))
  end.

#[export] Instance NumError_eq_dec : EqDecision NumError.
Proof. solve_decision. Defined.

Example Atoi_ex :
  Atoi "42" = (42%Z, false) ∧ Atoi "-7" = ((-7)%Z, false) ∧ Atoi "x" = (0%Z, true) ∧ Atoi "" = (0%Z, true) ∧
  Atoi "9223372036854775808" = (max_int64, true) ∧ Atoi "99999999999999999999999x" = (max_int64, true) ∧ Atoi "1x" = (0%Z, true).
Proof. vm_compute. done. Qed.

(** ** Reading what was written *)

Lemma pretty_char_digit (d : N) :
  (d < 10)%N → is_digit (pretty_N_char d) = true ∧ (Z.of_nat (nat_of_ascii (pretty_N_char d)) - 48 = Z.of_N d)%Z.
Proof.
  intros Hd. assert (d ∈ N.of_nat <$> seq 0 10) as Hin.
  { apply list_elem_of_fmap. exists (N.to_nat d). split; [lia|]. apply elem_of_seq. lia. }
  assert (Forall (λ d, is_digit (pretty_N_char d) = true ∧ (Z.of_nat (nat_of_ascii (pretty_N_char d)) - 48 = Z.of_N d)%Z) (N.of_nat <$> seq 0 10)) as HF by by_decide.
  by apply (proj1 (Forall_forall _ _) HF).
Qed.

Lemma parse_uint_pretty (x : N) s :
  (0 < x)%N → (Z.of_N x ≤ max_uint64)%Z → parse_uint (bytes_of (pretty_N_go x s)) 0 = parse_uint (bytes_of s) (Z.of_N x).
Proof.
  revert s. induction (N.lt_wf_0 x) as [x _ IH]. intros s Hx Hm. rewrite pretty_N_go_step by done.
  destruct (pretty_char_digit (x mod 10)) as [Hd Hv]; [by apply N.mod_lt|].
  assert (Z.of_N (x mod 10) = Z.of_N x mod 10 ∧ Z.of_N (x / 10) = Z.of_N x / 10)%Z as [Em Ed] by (split; [apply N2Z.inj_mod|apply N2Z.inj_div]).
  unfold max_uint64 in *.
  assert (parse_uint (bytes_of (String (pretty_N_char (x mod 10)) s)) (Z.of_N (x / 10)) = parse_uint (bytes_of s) (Z.of_N x)) as Hstep.
  { cbn [bytes_of parse_uint]. change (bytes_of (String ?c s)) with (c :: bytes_of s). cbn [parse_uint]. rewrite Hd.
    rewrite decide_False by (unfold max_uint64; rewrite Ed; Z.to_euclidean_division_equations; lia).
    replace (Z.of_N (x / 10) * 10 + _)%Z with (Z.of_N x) by (rewrite Hv, Em, Ed; pose proof (Z.div_mod (Z.of_N x) 10); lia).
    rewrite decide_False by (unfold max_uint64; lia). done. }
  destruct (decide (x / 10 = 0)%N) as [E|E].
  - rewrite E in *. rewrite pretty_N_go_0. exact Hstep.
  - rewrite IH; [exact Hstep|apply N.div_lt; lia|by apply N.neq_0_lt_0|rewrite Ed; Z.to_euclidean_division_equations; lia].
Qed.

(** What [strconv.Itoa] writes, [strconv.Atoi] reads. *)
Lemma Atoi_Itoa z : (0 < z ≤ max_int64)%Z → Atoi (Itoa z) = (z, false).
Proof.
  unfold max_int64. intros Hz. destruct z as [|p|p]; try lia.
  assert (Itoa (Zpos p) = pretty_N_go (Npos p) "") as E by done.
  pose proof (parse_uint_pretty (Npos p) "" ltac:(lia) ltac:(unfold max_uint64; lia)) as HP. rewrite <- E in HP. change (parse_uint (bytes_of (Itoa (Zpos p))) 0 = (Zpos p, None)) in HP.
  unfold Atoi. destruct (bytes_of (Itoa (Zpos p))) as [|c l] eqn:El.
  { pose proof (Itoa_nonempty (Zpos p)) as Hn. rewrite strlen_bytes, El in Hn. done. }
  assert (is_digit c = true) as Hc. { cbn [parse_uint] in HP. by destruct (is_digit c). }
  assert (match c :: l with "-"%char :: l => (true, l) | "+"%char :: l => (false, l) | l => (false, l) end = (false, c :: l)) as ->.
  { destruct c as [[] [] [] [] [] [] [] []]; done. }
  cbn [ParseUint]. rewrite HP. cbn [negb andb]. rewrite bool_decide_eq_false_2 by lia. done.
Qed.

(** A number is written in digits. *)
Lemma Itoa_digits z : (0 ≤ z)%Z → Forall (λ c, is_digit c = true) (bytes_of (Itoa z)).
Proof.
  intros Hz. unfold Itoa. destruct z as [|p|p]; [by constructor| |lia]. change (pretty (Zpos p)) with (pretty_N_go (Npos p) "").
  assert (∀ x s, Forall (λ c, is_digit c = true) (bytes_of s) → Forall (λ c, is_digit c = true) (bytes_of (pretty_N_go x s))) as HG; [|by apply HG; constructor].
  intros x. induction (N.lt_wf_0 x) as [x _ IH]. intros s Hs. assert (x = 0 ∨ 0 < x)%N as [->|Hx] by lia; [by rewrite pretty_N_go_0|].
  rewrite pretty_N_go_step by done. apply IH; [apply N.div_lt; lia|]. change (bytes_of (String ?c s)) with (c :: bytes_of s).
  constructor; [|done]. by apply pretty_char_digit, N.mod_lt.
Qed.
