(* ===== verification/Base64.v ===== *)
(** * Base64

    What the code uses of encoding/base64: [StdEncoding] both ways and the
    decoding of [RawURLEncoding]. *)
From S2P Require Import Prelude GoStrings.
Local Open Scope Z_scope.

Definition byte_val (c : ascii) : Z := Z.of_nat (nat_of_ascii c).
Definition byte_of (z : Z) : ascii := ascii_of_nat (Z.to_nat z).
Definition is_byte (z : Z) : Prop := 0 ≤ z < 256.

(** The alphabet; the URL alphabet differs in its last two letters. *)
Definition enc_char (url : bool) (v : Z) : ascii :=
  if decide (v < 26) then byte_of (65 + v)
  else if decide (v < 52) then byte_of (97 + (v - 26))
  else if decide (v < 62) then byte_of (48 + (v - 52))
  else if decide (v = 62) then (if url then "-"%char else "+"%char)
  else (if url then "_"%char else "/"%char).

Definition dec_char (url : bool) (c : ascii) : option Z :=
  if is_upper c then Some (byte_val c - 65)
  else if is_lower c then Some (byte_val c - 97 + 26)
  else if is_digit c then Some (byte_val c - 48 + 52)
  else if decide (c = if url then "-"%char else "+"%char) then Some 62
  else if decide (c = if url then "_"%char else "/"%char) then Some 63
  else None.

Definition pad_char : ascii := "="%char.

Fixpoint encode64 (l : list ascii) : list ascii :=
  let e := enc_char false in
  match l with
  | a :: b :: c :: r =>
      let '(x, y, z) := (byte_val a, byte_val b, byte_val c) in
      e (x / 4) :: e (x mod 4 * 16 + y / 16) :: e (y mod 16 * 4 + z / 64) :: e (z mod 64) :: encode64 r
  | [a; b] =>
      let '(x, y) := (byte_val a, byte_val b) in
      [e (x / 4); e (x mod 4 * 16 + y / 16); e (y mod 16 * 4); pad_char]
  | [a] => let x := byte_val a in [e (x / 4); e (x mod 4 * 16); pad_char; pad_char]
  | [] => []
  end.

Definition dec1 (s0 s1 : Z) : ascii := byte_of (s0 * 4 + s1 / 16).
Definition dec2 (s1 s2 : Z) : ascii := byte_of (s1 mod 16 * 16 + s2 / 4).
Definition dec3 (s2 s3 : Z) : ascii := byte_of (s2 mod 4 * 64 + s3).

(** Four letters at a time; a last group of two or three letters is padded, or not
    when [padded] is false. *)
Fixpoint decode64 (padded url : bool) (l : list ascii) : option (list ascii) :=
  let d := dec_char url in
  match l with
  | [] => Some []
  | a :: b :: c :: x :: r =>
      s0 ← d a; s1 ← d b;
      if padded && bool_decide (c = pad_char) then
        if bool_decide (x = pad_char) && bool_decide (r = []) then Some [dec1 s0 s1] else None
      else
        s2 ← d c;
        if padded && bool_decide (x = pad_char) then
          if bool_decide (r = []) then Some [dec1 s0 s1; dec2 s1 s2] else None
        else s3 ← d x; rest ← decode64 padded url r; Some (dec1 s0 s1 :: dec2 s1 s2 :: dec3 s2 s3 :: rest)
  | [a; b; c] => if padded then None else s0 ← d a; s1 ← d b; s2 ← d c; Some [dec1 s0 s1; dec2 s1 s2]
  | [a; b] => if padded then None else s0 ← d a; s1 ← d b; Some [dec1 s0 s1]
  | [a] => None
  end.

(** Line breaks are skipped wherever they are. *)
Definition is_newline (c : ascii) : bool := bool_decide (c = ascii_of_nat 10 ∨ c = ascii_of_nat 13).
Definition decode_string (padded url : bool) (s : string) : option string :=
  of_bytes <$> decode64 padded url (filter (λ c, is_newline c = false) (bytes_of s)).

Definition StdEncoding_EncodeToString (s : string) : string := of_bytes (encode64 (bytes_of s)).
Definition StdEncoding_DecodeString : string → option string := decode_string true false.
Definition RawURLEncoding_DecodeString : string → option string := decode_string false true.

Example base64_ex :
  StdEncoding_EncodeToString "https://10.0.0.1:6443" = "aHR0cHM6Ly8xMC4wLjAuMTo2NDQz" ∧ StdEncoding_EncodeToString "a" = "YQ==" ∧
  StdEncoding_DecodeString "YQ==" = Some "a" ∧ StdEncoding_DecodeString "YQ" = None ∧ RawURLEncoding_DecodeString "YQ" = Some "a" ∧
  StdEncoding_DecodeString "YQ=x" = None ∧ StdEncoding_DecodeString "YWI=" = Some "ab" ∧ RawURLEncoding_DecodeString "_-8" = Some (of_bytes [byte_of 255; byte_of 239]).
Proof. vm_compute. done. Qed.

(** ** Decoding what was encoded *)

Lemma byte_val_range c : is_byte (byte_val c).
Proof. unfold is_byte, byte_val. pose proof (nat_ascii_bounded c). lia. Qed.

Lemma byte_of_val c : byte_of (byte_val c) = c.
Proof. unfold byte_of, byte_val. rewrite Nat2Z.id. apply ascii_nat_embedding. Qed.

Lemma enc_char_facts v :
  0 ≤ v < 64 → dec_char false (enc_char false v) = Some v ∧ enc_char false v ≠ pad_char ∧ is_newline (enc_char false v) = false.
Proof.
  intros Hv. assert (Forall (λ n : nat, dec_char false (enc_char false (Z.of_nat n)) = Some (Z.of_nat n) ∧
    enc_char false (Z.of_nat n) ≠ pad_char ∧ is_newline (enc_char false (Z.of_nat n)) = false) (seq 0 64)) as HF by by_decide.
  rewrite Forall_forall in HF. specialize (HF (Z.to_nat v)). rewrite Z2Nat.id in HF by lia. apply HF, elem_of_seq. lia.
Qed.

(** The sextets of three bytes give the bytes back. *)
Lemma sextets x y z :
  is_byte x → is_byte y → is_byte z →
  (0 ≤ x / 4 < 64 ∧ 0 ≤ x mod 4 * 16 + y / 16 < 64 ∧ 0 ≤ y mod 16 * 4 + z / 64 < 64 ∧ 0 ≤ z mod 64 < 64) ∧
  x / 4 * 4 + (x mod 4 * 16 + y / 16) / 16 = x ∧
  (x mod 4 * 16 + y / 16) mod 16 * 16 + (y mod 16 * 4 + z / 64) / 4 = y ∧
  (y mod 16 * 4 + z / 64) mod 4 * 64 + z mod 64 = z.
Proof. unfold is_byte. intros. split_and!; Z.to_euclidean_division_equations; lia. Qed.

(** Induction by groups of three. *)
Lemma groups_ind {A} (P : list A → Prop) :
  P [] → (∀ a, P [a]) → (∀ a b, P [a; b]) → (∀ a b c l, P l → P (a :: b :: c :: l)) → ∀ l, P l.
Proof.
  intros H0 H1 H2 H3. fix IH 1. intros [|a [|b [|c l]]]; [done|apply H1|apply H2|apply H3, IH].
Qed.

Lemma encode_clean l : Forall (λ c, is_newline c = false) (encode64 l).
Proof.
  induction l as [|a|a b|a b c l IH] using groups_ind; cbn [encode64]; [by constructor|..].
  - destruct (sextets (byte_val a) 0 0 (byte_val_range a) ltac:(done) ltac:(done)) as [(B1 & B2 & _) _]. rewrite Z.add_0_r in B2.
    repeat constructor; by apply enc_char_facts.
  - destruct (sextets (byte_val a) (byte_val b) 0 (byte_val_range a) (byte_val_range b) ltac:(done)) as [(B1 & B2 & B3 & _) _].
    rewrite Z.add_0_r in B3. repeat constructor; by apply enc_char_facts.
  - destruct (sextets (byte_val a) (byte_val b) (byte_val c) (byte_val_range a) (byte_val_range b) (byte_val_range c)) as [(B1 & B2 & B3 & B4) _].
    repeat (constructor; [by apply enc_char_facts|]). done.
Qed.

Lemma decode_encode l : decode64 true false (encode64 l) = Some l.
Proof.
  induction l as [|a|a b|a b c l IH] using groups_ind; cbn [encode64]; [done|..]; cbn [decode64].
  - destruct (sextets (byte_val a) 0 0 (byte_val_range a) ltac:(done) ltac:(done)) as [(B1 & B2 & _) (E1 & _)]. rewrite Z.add_0_r in B2, E1.
    rewrite (proj1 (enc_char_facts _ B1)), (proj1 (enc_char_facts _ B2)). simpl. unfold dec1. by rewrite E1, byte_of_val.
  - destruct (sextets (byte_val a) (byte_val b) 0 (byte_val_range a) (byte_val_range b) ltac:(done)) as [(B1 & B2 & B3 & _) (E1 & E2 & _)].
    rewrite Z.add_0_r in B3, E2. destruct (enc_char_facts _ B3) as (D3 & P3 & _).
    rewrite (proj1 (enc_char_facts _ B1)), (proj1 (enc_char_facts _ B2)), D3. simpl. rewrite bool_decide_eq_false_2 by done.
    unfold dec1, dec2. by rewrite E1, E2, !byte_of_val.
  - destruct (sextets (byte_val a) (byte_val b) (byte_val c) (byte_val_range a) (byte_val_range b) (byte_val_range c))
      as [(B1 & B2 & B3 & B4) (E1 & E2 & E3)].
    destruct (enc_char_facts _ B3) as (D3 & P3 & _). destruct (enc_char_facts _ B4) as (D4 & P4 & _).
    rewrite (proj1 (enc_char_facts _ B1)), (proj1 (enc_char_facts _ B2)), D3, D4. simpl. rewrite !bool_decide_eq_false_2 by done.
    rewrite IH. simpl. unfold dec1, dec2, dec3. by rewrite E1, E2, E3, !byte_of_val.
Qed.

Lemma StdEncoding_roundtrip s : StdEncoding_DecodeString (StdEncoding_EncodeToString s) = Some s.
Proof.
  unfold StdEncoding_DecodeString, decode_string, StdEncoding_EncodeToString. rewrite bytes_of_of_bytes.
  rewrite filter_all by apply encode_clean. rewrite decode_encode. simpl. by rewrite of_bytes_bytes_of.
Qed.

(** Only the empty text is encoded as the empty text. *)
Lemma StdEncoding_empty s : StdEncoding_EncodeToString s = "" → s = "".
Proof.
  intros E. pose proof (StdEncoding_roundtrip s) as R. rewrite E in R. vm_compute in R. by simplify_eq.
Qed.
