(* ===== verification/BmcTypes.v ===== *)
(** * The v1alpha1 API of bmc.tinkerbell.org: actions *)
From S2P Require Import Prelude.

Definition PowerOn : string := "on".
Definition PowerHardOff : string := "off".
Definition PowerSoftOff : string := "soft".
Definition PowerCycle : string := "cycle".
Definition PowerReset : string := "reset".
Definition PowerStatus : string := "status".

Definition PXE : string := "pxe".
Definition BootDevice_Disk : string := "disk".
Definition BootDevice_BIOS : string := "bios".
Definition CDROM : string := "cdrom".
Definition Safe : string := "safe".

Definition VirtualMediaCD : string := "CD".

Record OneTimeBootDeviceAction := mkOneTimeBootDeviceAction {
  otb_Devices : list string;
  otb_EFIBoot : bool;
}.

Record VirtualMediaAction := mkVirtualMediaAction {
  vma_MediaURL : string;
  vma_Kind : string;
}.

Record BootDeviceConfig := mkBootDeviceConfig {
  bdc_Device : string;
  bdc_Persistent : bool;
  bdc_EFIBoot : bool;
}.

(** [bmc.Action]: the operations a job's task asks of a machine. *)
Record bmc_Action := mkbmc_Action {
  ba_PowerAction : option string;
  ba_OneTimeBootDeviceAction : option OneTimeBootDeviceAction;
  ba_BootDevice : option BootDeviceConfig;
  ba_VirtualMediaAction : option VirtualMediaAction;
}.

Definition zero_bmc_Action : bmc_Action := mkbmc_Action None None None None.

#[export] Instance OneTimeBootDeviceAction_eq_dec : EqDecision OneTimeBootDeviceAction.
Proof. solve_decision. Defined.
#[export] Instance VirtualMediaAction_eq_dec : EqDecision VirtualMediaAction.
Proof. solve_decision. Defined.
#[export] Instance BootDeviceConfig_eq_dec : EqDecision BootDeviceConfig.
Proof. solve_decision. Defined.
#[export] Instance bmc_Action_eq_dec : EqDecision bmc_Action.
Proof. solve_decision. Defined.
