(* ===== verification/InventoryTypes.v ===== *)
(** * Hardware inventory types

    The status of a Hardware (api/v1alpha1/tinkerbell/hardware.go): the attributes
    of the machine as a collector reports them. Integers are of the widths of the
    source (uint32, int64, int32), instants are nanoseconds, a pointer is an
    [option]. The names carry the prefix [inv_], the attributes an agent reports
    (Attributes.v) having the same ones. *)
From S2P Require Import Prelude GoStrings.

Record inv_ComponentStatus := mkinv_ComponentStatus {
  cst_Health : string;
  cst_State : string;
  cst_PostCode : option Z;
  cst_PostCodeStatus : string;
}.

#[export] Instance inv_ComponentStatus_eq_dec : EqDecision inv_ComponentStatus.
Proof. solve_decision. Defined.

Record inv_CPUSocket := mkinv_CPUSocket {
  sock_Slot : string;
  sock_Vendor : string;
  sock_Model : string;
  sock_Cores : Z;
  sock_Threads : Z;
  sock_ClockSpeedMHz : Z;
  sock_SerialNumber : string;
  sock_Capabilities : list string;
  sock_FirmwareVersion : string;
}.

#[export] Instance inv_CPUSocket_eq_dec : EqDecision inv_CPUSocket.
Proof. solve_decision. Defined.

Record inv_CPU := mkinv_CPU {
  cpu_TotalCores : Z;
  cpu_TotalThreads : Z;
  cpu_Sockets : list inv_CPUSocket;
}.

#[export] Instance inv_CPU_eq_dec : EqDecision inv_CPU.
Proof. solve_decision. Defined.

Record inv_MemoryModule := mkinv_MemoryModule {
  mmod_Slot : string;
  mmod_Vendor : string;
  mmod_Model : string;
  mmod_SerialNumber : string;
  mmod_PartNumber : string;
  mmod_SizeBytes : Z;
  mmod_SpeedMHz : Z;
  mmod_FormFactor : string;
  mmod_FirmwareVersion : string;
}.

#[export] Instance inv_MemoryModule_eq_dec : EqDecision inv_MemoryModule.
Proof. solve_decision. Defined.

Record inv_Memory := mkinv_Memory {
  mem_TotalBytes : Z;
  mem_UsableBytes : Z;
  mem_Modules : list inv_MemoryModule;
}.

#[export] Instance inv_Memory_eq_dec : EqDecision inv_Memory.
Proof. solve_decision. Defined.

Record inv_BlockDevice := mkinv_BlockDevice {
  blk_Name : string;
  blk_ControllerType : string;
  blk_DriveType : string;
  blk_Vendor : string;
  blk_Model : string;
  blk_SerialNumber : string;
  blk_WWN : string;
  blk_SizeBytes : Z;
  blk_PhysicalBlockSizeBytes : Z;
  blk_SmartStatus : string;
  blk_FirmwareVersion : string;
  blk_Status : option inv_ComponentStatus;
}.

#[export] Instance inv_BlockDevice_eq_dec : EqDecision inv_BlockDevice.
Proof. solve_decision. Defined.

Record inv_NetworkPort := mkinv_NetworkPort {
  port_PortID : string;
  port_MAC : string;
  port_SpeedMbps : Z;
  port_MTU : Z;
  port_LinkStatus : string;
  port_EnabledCapabilities : list string;
}.

#[export] Instance inv_NetworkPort_eq_dec : EqDecision inv_NetworkPort.
Proof. solve_decision. Defined.

Record inv_NetworkInterface := mkinv_NetworkInterface {
  nic_Name : string;
  nic_Vendor : string;
  nic_Model : string;
  nic_SerialNumber : string;
  nic_FirmwareVersion : string;
  nic_Ports : list inv_NetworkPort;
}.

#[export] Instance inv_NetworkInterface_eq_dec : EqDecision inv_NetworkInterface.
Proof. solve_decision. Defined.

Record inv_GPUDevice := mkinv_GPUDevice {
  gpu_Vendor : string;
  gpu_Model : string;
  gpu_SerialNumber : string;
  gpu_Description : string;
  gpu_Class : string;
  gpu_Driver : string;
  gpu_FirmwareVersion : string;
  gpu_Status : option inv_ComponentStatus;
}.

#[export] Instance inv_GPUDevice_eq_dec : EqDecision inv_GPUDevice.
Proof. solve_decision. Defined.

Record inv_PCIDevice := mkinv_PCIDevice {
  pci_Vendor : string;
  pci_Model : string;
  pci_Class : string;
  pci_Driver : string;
}.

#[export] Instance inv_PCIDevice_eq_dec : EqDecision inv_PCIDevice.
Proof. solve_decision. Defined.

Record inv_Chassis := mkinv_Chassis {
  chs_Vendor : string;
  chs_Model : string;
  chs_SerialNumber : string;
}.

#[export] Instance inv_Chassis_eq_dec : EqDecision inv_Chassis.
Proof. solve_decision. Defined.

Record inv_Baseboard := mkinv_Baseboard {
  bb_Vendor : string;
  bb_Model : string;
  bb_SerialNumber : string;
  bb_Description : string;
  bb_FirmwareVersion : string;
  bb_Status : option inv_ComponentStatus;
}.

#[export] Instance inv_Baseboard_eq_dec : EqDecision inv_Baseboard.
Proof. solve_decision. Defined.

Record inv_BIOS := mkinv_BIOS {
  bios_Vendor : string;
  bios_Model : string;
  bios_SerialNumber : string;
  bios_FirmwareVersion : string;
  bios_ReleaseDate : string;
  bios_Status : option inv_ComponentStatus;
}.

#[export] Instance inv_BIOS_eq_dec : EqDecision inv_BIOS.
Proof. solve_decision. Defined.

Record inv_Product := mkinv_Product {
  prod_Name : string;
  prod_Vendor : string;
  prod_Model : string;
  prod_SerialNumber : string;
  prod_Status : option inv_ComponentStatus;
}.

#[export] Instance inv_Product_eq_dec : EqDecision inv_Product.
Proof. solve_decision. Defined.

Record inv_BMC := mkinv_BMC {
  bmcc_Vendor : string;
  bmcc_Model : string;
  bmcc_SerialNumber : string;
  bmcc_FirmwareVersion : string;
  bmcc_NIC : option inv_NetworkInterface;
  bmcc_Status : option inv_ComponentStatus;
}.

#[export] Instance inv_BMC_eq_dec : EqDecision inv_BMC.
Proof. solve_decision. Defined.

Record inv_PSU := mkinv_PSU {
  psu_Vendor : string;
  psu_Model : string;
  psu_SerialNumber : string;
  psu_Description : string;
  psu_FirmwareVersion : string;
  psu_PowerCapacityWatts : Z;
  psu_Status : option inv_ComponentStatus;
}.

#[export] Instance inv_PSU_eq_dec : EqDecision inv_PSU.
Proof. solve_decision. Defined.

Record inv_TPM := mkinv_TPM {
  tpm_Vendor : string;
  tpm_Model : string;
  tpm_SerialNumber : string;
  tpm_InterfaceType : string;
  tpm_FirmwareVersion : string;
  tpm_Status : option inv_ComponentStatus;
}.

#[export] Instance inv_TPM_eq_dec : EqDecision inv_TPM.
Proof. solve_decision. Defined.

Record inv_StorageController := mkinv_StorageController {
  sctl_Vendor : string;
  sctl_Model : string;
  sctl_SerialNumber : string;
  sctl_Description : string;
  sctl_FirmwareVersion : string;
  sctl_Status : option inv_ComponentStatus;
}.

#[export] Instance inv_StorageController_eq_dec : EqDecision inv_StorageController.
Proof. solve_decision. Defined.

Record inv_Attributes := mkinv_Attributes {
  ia_LastUpdated : option Z;
  ia_CollectionMethod : string;
  ia_CPU : option inv_CPU;
  ia_Memory : option inv_Memory;
  ia_BlockDevices : list inv_BlockDevice;
  ia_NetworkInterfaces : list inv_NetworkInterface;
  ia_GPUDevices : list inv_GPUDevice;
  ia_PCIDevices : list inv_PCIDevice;
  ia_Chassis : option inv_Chassis;
  ia_Baseboard : option inv_Baseboard;
  ia_BIOS : option inv_BIOS;
  ia_Product : option inv_Product;
  ia_BMC : option inv_BMC;
  ia_PSUs : list inv_PSU;
  ia_TPMs : list inv_TPM;
  ia_StorageControllers : list inv_StorageController;
}.

#[export] Instance inv_Attributes_eq_dec : EqDecision inv_Attributes.
Proof. solve_decision. Defined.

Record HardwareAttributes := mkHardwareAttributes {
  ha_OutOfBand : option inv_Attributes;
}.

#[export] Instance HardwareAttributes_eq_dec : EqDecision HardwareAttributes.
Proof. solve_decision. Defined.

Record HardwareStatus := mkHardwareStatus {
  hst_State : string;
  hst_Attributes : option HardwareAttributes;
}.

#[export] Instance HardwareStatus_eq_dec : EqDecision HardwareStatus.
Proof. solve_decision. Defined.

Definition zero_HardwareStatus : HardwareStatus := mkHardwareStatus "" None.

(** A zero value but for the time and the method. *)
Definition bare_Attributes (lastUpdated : option Z) (method : string) : inv_Attributes :=
  mkinv_Attributes lastUpdated method None None [] [] [] [] None None None None None [] [] [].

Definition set_LastUpdated (t : option Z) (a : inv_Attributes) : inv_Attributes :=
  mkinv_Attributes t (ia_CollectionMethod a) (ia_CPU a) (ia_Memory a) (ia_BlockDevices a) (ia_NetworkInterfaces a)
    (ia_GPUDevices a) (ia_PCIDevices a) (ia_Chassis a) (ia_Baseboard a) (ia_BIOS a) (ia_Product a) (ia_BMC a)
    (ia_PSUs a) (ia_TPMs a) (ia_StorageControllers a).

Definition set_CollectionMethod (m : string) (a : inv_Attributes) : inv_Attributes :=
  mkinv_Attributes (ia_LastUpdated a) m (ia_CPU a) (ia_Memory a) (ia_BlockDevices a) (ia_NetworkInterfaces a)
    (ia_GPUDevices a) (ia_PCIDevices a) (ia_Chassis a) (ia_Baseboard a) (ia_BIOS a) (ia_Product a) (ia_BMC a)
    (ia_PSUs a) (ia_TPMs a) (ia_StorageControllers a).
