(* ===== verification/Float64.v ===== *)
(** * Floating point

    The arithmetic of float64 on the numbers the program computes with: a number
    [mant * 2 ^ expo], and rounding to the 53 bits of the significand, to the
    nearest and at a tie to the even one (IEEE 754, as the language
    specification requires). The bounds of the exponent are left out: no number
    of the program comes near them. *)
From S2P Require Import Prelude.
Local Open Scope Z_scope.

Record float64 := mkfloat64 { mant : Z; expo : Z }.

(** [a / b] to the nearest integer, to the even one at a tie. *)
Definition div_even (a b : Z) : Z :=
  let q := a / b in
  let r := a mod b in
  if decide (2 * r < b) then q
  else if decide (b < 2 * r) then q + 1
  else if Z.even q then q else q + 1.

Definition round64 (x : float64) : float64 :=
  let d := Z.log2 (Z.abs (mant x)) - 52 in
  if decide (d ≤ 0) then x else mkfloat64 (div_even (mant x) (2 ^ d)) (expo x + d).

(** [float64(z)], [x * y] and [x - y]. *)
Definition float_of_int (z : Z) : float64 := round64 (mkfloat64 z 0).
Definition float_mul (x y : float64) : float64 := round64 (mkfloat64 (mant x * mant y) (expo x + expo y)).
Definition float_sub (x y : float64) : float64 :=
  let e := Z.min (expo x) (expo y) in
  round64 (mkfloat64 (mant x * 2 ^ (expo x - e) - mant y * 2 ^ (expo y - e)) e).

(** [x / 2 ^ k], which is exact. *)
Definition float_shift (x : float64) (k : Z) : float64 := mkfloat64 (mant x) (expo x - k).

(** [x / y] for [y] not zero: the quotient with 53 bits. [l] is the exponent of its
    leading bit. *)
Definition quot_log (a b : Z) : Z :=
  let l := Z.log2 a - Z.log2 b in
  if decide (a * 2 ^ Z.max 0 (- l) < b * 2 ^ Z.max 0 l) then l - 1 else l.
Definition float_div (x y : float64) : float64 :=
  if decide (mant x = 0) then mkfloat64 0 0
  else
    let a := Z.abs (mant x) in
    let b := Z.abs (mant y) in
    let e := 52 - quot_log a b in
    mkfloat64 (Z.sgn (mant x) * Z.sgn (mant y) * div_even (a * 2 ^ Z.max 0 e) (b * 2 ^ Z.max 0 (- e))) (expo x - expo y - e).

(** [math.Ceil], of a number in the range of the integers. *)
Definition float_ceil (x : float64) : Z :=
  if decide (0 ≤ expo x) then mant x * 2 ^ expo x else - ((- mant x) / 2 ^ (- expo x)).

(** [int64(x)]: the fraction is dropped. *)
Definition float_trunc (x : float64) : Z :=
  if decide (0 ≤ expo x) then mant x * 2 ^ expo x else Z.quot (mant x) (2 ^ (- expo x)).

(** The constant 0.1: of the numbers with 53 bits the nearest to it. *)
Definition float_tenth : float64 := mkfloat64 3602879701896397 (-55).

Lemma float_tenth_nearest : 4 * Z.abs (10 * mant float_tenth - 2 ^ 55) < 10 ∧ 2 ^ 52 ≤ 2 * mant float_tenth < 2 ^ 53.
Proof. done. Qed.

(** ** Rounding *)

Lemma div_even_nearest a b : 0 < b → 2 * Z.abs (div_even a b * b - a) ≤ b.
Proof.
  intros Hb. pose proof (Z.div_mod a b ltac:(lia)) as E. pose proof (Z.mod_pos_bound a b Hb).
  unfold div_even. repeat case_decide; [|..|destruct (Z.even _)]; lia.
Qed.

(** The value of [x] in units of [2 ^ k], for [k] at most its exponent. *)
Definition scaled (k : Z) (x : float64) : Z := mant x * 2 ^ (expo x - k).

Lemma scaled_shift k j x : k ≤ j → j ≤ expo x → scaled k x = scaled j x * 2 ^ (j - k).
Proof.
  intros. unfold scaled. rewrite <-Z.mul_assoc, <-Z.pow_add_r by lia. do 2 f_equal. lia.
Qed.

Lemma scaled_le k j x y : k ≤ j → j ≤ expo x → j ≤ expo y → scaled k x ≤ scaled k y ↔ scaled j x ≤ scaled j y.
Proof.
  intros. rewrite (scaled_shift k j x), (scaled_shift k j y) by lia.
  pose proof (Z.pow_pos_nonneg 2 (j - k) ltac:(lia) ltac:(lia)). nia.
Qed.

(** A number of 53 bits, or a power of two. *)
Definition representable (y : float64) : Prop := Z.abs (mant y) ≤ 2 ^ 53.

(** Rounding moves a number to the grid of its 53 bits. *)
Lemma round64_grid k x :
  k ≤ expo x →
  expo x ≤ expo (round64 x) ∧
  (round64 x = x ∧ representable x ∨
   ∃ g c, 0 < g ∧ scaled k (round64 x) = c * 2 ^ g ∧ 2 * Z.abs (scaled k (round64 x) - scaled k x) ≤ 2 ^ g ∧
     2 ^ (52 + g) ≤ Z.abs (scaled k x) ∧ g = expo (round64 x) - k).
Proof.
  intros Hk. unfold round64. case_decide as Hd.
  - split; [lia|]. left. split; [done|]. unfold representable.
    destruct (decide (mant x = 0)) as [->|]; [done|].
    pose proof (Z.log2_spec (Z.abs (mant x)) ltac:(lia)) as [_ H].
    apply Z.lt_le_incl. eapply Z.lt_le_trans; [exact H|]. apply Z.pow_le_mono_r; lia.
  - set (d := Z.log2 (Z.abs (mant x)) - 52) in *. simpl. split; [lia|]. right.
    assert (0 < d) as Hd' by lia. pose proof (Z.pow_pos_nonneg 2 d ltac:(lia) ltac:(lia)) as Hp.
    pose proof (Z.pow_pos_nonneg 2 (expo x - k) ltac:(lia) ltac:(lia)) as Hq.
    assert (2 ^ (expo x + d - k) = 2 ^ d * 2 ^ (expo x - k)) as Eg.
    { rewrite <-Z.pow_add_r by lia. f_equal. lia. }
    exists (expo x + d - k), (div_even (mant x) (2 ^ d)). unfold scaled. simpl.
    split; [lia|]. split; [done|]. pose proof (div_even_nearest (mant x) (2 ^ d) Hp) as Hn. rewrite Eg. split; [nia|].
    split; [|done]. assert (mant x ≠ 0) as Hm by (intros E; subst d; rewrite E in Hd'; done).
    pose proof (Z.log2_spec (Z.abs (mant x)) ltac:(lia)) as [H _].
    replace (Z.log2 (Z.abs (mant x))) with (52 + d) in H by lia.
    replace (52 + (expo x + d - k)) with ((52 + d) + (expo x - k)) by lia.
    rewrite Z.pow_add_r, Z.abs_mul, (Z.abs_eq (2 ^ _)) by lia. nia.
Qed.

(** On the grid nothing lies between a number and a bound of 53 bits. *)
Lemma grid_le g X Y Q c :
  0 < g → Q = c * 2 ^ g → 2 * Z.abs (Q - X) ≤ 2 ^ g → 2 ^ (52 + g) ≤ Z.abs X →
  (∃ b, Y = b * 2 ^ g) ∨ Z.abs Y ≤ 2 ^ (52 + g) → X ≤ Y → Q ≤ Y.
Proof.
  intros Hg HQ Hn HX HY Hle. pose proof (Z.pow_pos_nonneg 2 g ltac:(lia) ltac:(lia)) as Hp.
  assert (∀ b, X ≤ b * 2 ^ g → Q ≤ b * 2 ^ g) as Hgrid.
  { intros b Hb. rewrite HQ. apply Z.mul_le_mono_nonneg_r; [lia|]. apply Z.nlt_ge. intros Hc.
    assert (b * 2 ^ g + 2 ^ g ≤ c * 2 ^ g) by nia. lia. }
  destruct HY as [[b ->]|HY]; [by apply Hgrid|].
  assert (2 ^ (52 + g) = 2 ^ 52 * 2 ^ g) as E52 by (rewrite Z.pow_add_r; lia).
  destruct (decide (0 ≤ X)).
  - assert (Y = 2 ^ 52 * 2 ^ g) as -> by lia. apply Hgrid. lia.
  - assert (Q ≤ - 2 ^ 52 * 2 ^ g) by (apply Hgrid; lia). lia.
Qed.

(** A bound of 53 bits is in the grid of a number, or below all of its numbers. *)
Lemma representable_grid k g y :
  0 < g → k ≤ expo y → representable y → (∃ b, scaled k y = b * 2 ^ g) ∨ Z.abs (scaled k y) ≤ 2 ^ (52 + g).
Proof.
  unfold representable, scaled. intros Hg Hk Hy. destruct (decide (g ≤ expo y - k)).
  - left. exists (mant y * 2 ^ (expo y - k - g)). rewrite <-Z.mul_assoc, <-Z.pow_add_r by lia. do 2 f_equal. lia.
  - right. assert (2 ^ (expo y - k) ≤ 2 ^ (g - 1)) as H1 by (apply Z.pow_le_mono_r; lia).
    assert (2 ^ (52 + g) = 2 ^ 53 * 2 ^ (g - 1)) as -> by (rewrite <-Z.pow_add_r by lia; f_equal; lia).
    rewrite Z.abs_mul, (Z.abs_eq (2 ^ _)) by lia. nia.
Qed.

(** Rounding does not cross a number of 53 bits. *)
Lemma round64_le k x y :
  k ≤ expo x → k ≤ expo y → representable y → scaled k x ≤ scaled k y → scaled k (round64 x) ≤ scaled k y.
Proof.
  intros Hx Hy Hr Hle. destruct (round64_grid k x Hx) as [_ [[-> _]|(g & c & Hg & HQ & Hn & HX & _)]]; [done|].
  eapply grid_le; eauto using representable_grid.
Qed.

Lemma round64_ge k x y :
  k ≤ expo x → k ≤ expo y → representable y → scaled k y ≤ scaled k x → scaled k y ≤ scaled k (round64 x).
Proof.
  intros Hx Hy Hr Hle. destruct (round64_grid k x Hx) as [_ [[-> _]|(g & c & Hg & HQ & Hn & HX & _)]]; [done|].
  assert (- scaled k (round64 x) ≤ - scaled k y); [|lia].
  apply (grid_le g (- scaled k x) _ _ (- c)); [done|lia|lia|by rewrite Z.abs_opp| |lia].
  destruct (representable_grid k g y Hg Hy Hr) as [[b Hb]|]; [left; exists (- b)|right]; lia.
Qed.

(** The relative error of rounding. *)
Lemma round64_error k x : k ≤ expo x → 2 ^ 53 * Z.abs (scaled k (round64 x) - scaled k x) ≤ Z.abs (scaled k x).
Proof.
  intros Hx. destruct (round64_grid k x Hx) as [_ [[-> _]|(g & c & Hg & HQ & Hn & HX & _)]]; [lia|].
  assert (2 ^ (52 + g) = 2 ^ 52 * 2 ^ g) as E by (rewrite Z.pow_add_r; lia). lia.
Qed.

Lemma round64_expo x : expo x ≤ expo (round64 x).
Proof. by destruct (round64_grid (expo x) x). Qed.

Lemma round64_exact x : Z.abs (mant x) < 2 ^ 53 → round64 x = x.
Proof.
  intros H. unfold round64. rewrite decide_True; [done|]. destruct (decide (mant x = 0)) as [->|]; [done|].
  assert (Z.log2 (Z.abs (mant x)) < 53); [|lia]. apply Z.log2_lt_pow2; lia.
Qed.

Lemma round64_representable x : representable (round64 x).
Proof.
  unfold round64. case_decide as Hd.
  - unfold representable. destruct (decide (mant x = 0)) as [->|]; [done|].
    pose proof (Z.log2_spec (Z.abs (mant x)) ltac:(lia)) as [_ H].
    apply Z.lt_le_incl. eapply Z.lt_le_trans; [exact H|]. apply Z.pow_le_mono_r; lia.
  - unfold representable. simpl. set (d := Z.log2 (Z.abs (mant x)) - 52) in *.
    pose proof (Z.pow_pos_nonneg 2 d ltac:(lia) ltac:(lia)) as Hp.
    pose proof (div_even_nearest (mant x) (2 ^ d) Hp) as Hn.
    assert (Z.abs (mant x) < 2 ^ 53 * 2 ^ d) as Hm.
    { rewrite <-Z.pow_add_r by lia. apply Z.log2_lt_cancel. rewrite Z.log2_pow2 by lia. lia. }
    assert (2 * Z.abs (div_even (mant x) (2 ^ d)) * 2 ^ d < 2 * 2 ^ 53 * 2 ^ d + 2 * 2 ^ d) by lia. nia.
Qed.

(** Truncation does not grow a number. *)
Lemma float_trunc_abs k x : k ≤ expo x → k ≤ 0 → Z.abs (float_trunc x) * 2 ^ (- k) ≤ Z.abs (scaled k x).
Proof.
  intros Hk Hk0. unfold float_trunc, scaled. case_decide.
  - rewrite !Z.abs_mul, !(Z.abs_eq (2 ^ _)), <-Z.mul_assoc, <-Z.pow_add_r by lia.
    by replace (expo x - k) with (expo x + - k) by lia.
  - assert (Z.abs (Z.quot (mant x) (2 ^ (- expo x))) * 2 ^ (- expo x) ≤ Z.abs (mant x)) as H1.
    { pose proof (Z.pow_pos_nonneg 2 (- expo x) ltac:(lia) ltac:(lia)).
      rewrite <-(Z.abs_eq (2 ^ (- expo x))) at 2 by lia. rewrite <-Z.abs_mul.
      rewrite Z.mul_comm. pose proof (Z.mul_quot_ge (mant x) (2 ^ - expo x)). pose proof (Z.mul_quot_le (mant x) (2 ^ - expo x)). lia. }
    rewrite Z.abs_mul, (Z.abs_eq (2 ^ _)) by lia.
    replace (- k) with (- expo x + (expo x - k)) by lia. rewrite Z.pow_add_r by lia.
    pose proof (Z.pow_pos_nonneg 2 (expo x - k) ltac:(lia) ltac:(lia)). nia.
Qed.

(** ** Division of whole numbers *)

Lemma quot_log_spec a b :
  0 < a → 0 < b → b * 2 ^ Z.max 0 (quot_log a b) ≤ a * 2 ^ Z.max 0 (- quot_log a b).
Proof.
  intros Ha Hb. unfold quot_log. set (l := Z.log2 a - Z.log2 b).
  pose proof (Z.log2_spec a Ha) as [Ha1 Ha2]. pose proof (Z.log2_spec b Hb) as [Hb1 Hb2].
  pose proof (Z.log2_nonneg a). pose proof (Z.log2_nonneg b).
  case_decide as Hd; [|lia]. rewrite Z.pow_succ_r in Ha2, Hb2 by lia.
  destruct (decide (1 ≤ l)) as [Hl|Hl].
  - replace (Z.max 0 (l - 1)) with (l - 1) by lia. replace (Z.max 0 (- (l - 1))) with 0 by lia. rewrite Z.pow_0_r, Z.mul_1_r.
    assert (2 ^ Z.log2 a = 2 * 2 ^ Z.log2 b * 2 ^ (l - 1)) as E.
    { rewrite <-Z.pow_succ_r, <-Z.pow_add_r by lia. f_equal. lia. }
    pose proof (Z.pow_pos_nonneg 2 (l - 1) ltac:(lia) ltac:(lia)). nia.
  - replace (Z.max 0 (l - 1)) with 0 by lia. replace (Z.max 0 (- (l - 1))) with (1 - l) by lia. rewrite Z.pow_0_r, Z.mul_1_r.
    assert (2 * 2 ^ Z.log2 b = 2 ^ Z.log2 a * 2 ^ (1 - l)) as E.
    { rewrite <-Z.pow_succ_r, <-Z.pow_add_r by lia. f_equal. lia. }
    pose proof (Z.pow_pos_nonneg 2 (1 - l) ltac:(lia) ltac:(lia)). nia.
Qed.

(** The quotient of two numbers below the precision keeps its ceiling. *)
Lemma ceil_unique n d c : 0 < d → (c - 1) * d < n ≤ c * d → - ((- n) / d) = c.
Proof. intros Hd Hc. assert ((- n) / d = - c); [|lia]. symmetry. apply (Z.div_unique_pos _ _ _ (c * d - n)); lia. Qed.

Lemma float_ceil_div n m k c :
  0 < n < 2 ^ 52 → 0 < m ≤ 2 ^ 53 → 0 ≤ k → (k = 0 ∨ n < m * 2 ^ k) → (c - 1) * (m * 2 ^ k) < n ≤ c * (m * 2 ^ k) →
  float_ceil (float_div (mkfloat64 n 0) (mkfloat64 m k)) = c.
Proof.
  intros Hn Hm Hk Hsmall Hc. unfold float_div. simpl. rewrite decide_False by lia. rewrite !Z.abs_eq, !Z.sgn_pos, Z.mul_1_l by lia.
  pose proof (quot_log_spec n m ltac:(lia) ltac:(lia)) as Hl. set (l := quot_log n m) in *. set (e := 52 - l).
  assert (m < 2 ^ e ∧ 0 ≤ e) as [He He0].
  { destruct (decide (0 ≤ l)).
    - replace (Z.max 0 l) with l in Hl by lia. replace (Z.max 0 (- l)) with 0 in Hl by lia. rewrite Z.pow_0_r, Z.mul_1_r in Hl.
      assert (l < 52). { apply Z.nle_gt. intros H52. pose proof (Z.pow_le_mono_r 2 52 l ltac:(lia) H52). nia. }
      split; [|unfold e; lia]. apply (Z.mul_lt_mono_pos_r (2 ^ l)); [apply Z.pow_pos_nonneg; lia|].
      rewrite <-Z.pow_add_r by (unfold e; lia). replace (e + l) with 52 by (unfold e; lia). lia.
    - replace (Z.max 0 l) with 0 in Hl by lia. replace (Z.max 0 (- l)) with (- l) in Hl by lia. rewrite Z.pow_0_r, Z.mul_1_r in Hl.
      split; [|unfold e; lia]. eapply Z.le_lt_trans; [exact Hl|].
      replace e with (52 + - l) by (unfold e; lia). rewrite Z.pow_add_r by lia. pose proof (Z.pow_pos_nonneg 2 (- l) ltac:(lia) ltac:(lia)). nia. }
  replace (Z.max 0 e) with e by lia. replace (Z.max 0 (- e)) with 0 by lia. rewrite Z.pow_0_r, Z.mul_1_r.
  pose proof (div_even_nearest (n * 2 ^ e) m ltac:(lia)) as Hr. set (q := div_even (n * 2 ^ e) m) in *.
  pose proof (Z.pow_pos_nonneg 2 e ltac:(lia) ltac:(lia)) as Hpe. pose proof (Z.pow_pos_nonneg 2 k ltac:(lia) ltac:(lia)) as Hpk.
  assert (2 ^ (e + k) = 2 ^ e * 2 ^ k) as Ek by (apply Z.pow_add_r; lia).
  assert ((c - 1) * 2 ^ (e + k) < q ≤ c * 2 ^ (e + k)) as Hq.
  { rewrite Ek. split.
    - destruct Hsmall as [->|Hs].
      + rewrite Z.pow_0_r, !Z.mul_1_r in *. apply (Z.mul_lt_mono_pos_r m); [lia|]. nia.
      + assert (c = 1) as -> by nia. rewrite Z.sub_diag, Z.mul_0_l. nia.
    - apply Z.lt_succ_r, (Z.mul_lt_mono_pos_r m); [lia|]. nia. }
  unfold float_ceil. simpl. case_decide.
  - replace (0 - k - e) with 0 by lia. replace (e + k) with 0 in Hq by lia. rewrite Z.pow_0_r in *. lia.
  - replace (- (0 - k - e)) with (e + k) by lia. apply ceil_unique; [rewrite Ek; nia|done].
Qed.

(** The number of pages: [int(math.Ceil(float64(n) / float64(d)))]. *)
Theorem float_ceil_exact n d :
  0 ≤ n < 2 ^ 52 → 0 < d → float_ceil (float_div (float_of_int n) (float_of_int d)) = - ((- n) / d).
Proof.
  intros Hn Hd. assert (float_of_int n = mkfloat64 n 0) as -> by (apply round64_exact; simpl; lia).
  destruct (decide (n = 0)) as [->|Hn0]; [by destruct d|].
  set (c := - ((- n) / d)). assert ((c - 1) * d < n ≤ c * d) as Hc.
  { unfold c. pose proof (Z.div_mod (- n) d ltac:(lia)). pose proof (Z.mod_pos_bound (- n) d Hd). nia. }
  destruct (decide (d < 2 ^ 53)) as [Hs|Hs].
  - assert (float_of_int d = mkfloat64 d 0) as -> by (apply round64_exact; simpl; lia).
    apply float_ceil_div; [lia..|by left|]. by rewrite Z.pow_0_r, Z.mul_1_r.
  - pose proof (round64_ge 0 (mkfloat64 d 0) (mkfloat64 (2 ^ 53) 0)) as Hge. pose proof (round64_expo (mkfloat64 d 0)) as Hex.
    pose proof (round64_representable (mkfloat64 d 0)) as Hrep. fold (float_of_int d) in *. unfold scaled, representable in *. simpl in *.
    destruct (float_of_int d) as [m k]. simpl in *. rewrite Z.sub_0_r in *.
    specialize (Hge ltac:(lia) ltac:(lia) ltac:(lia) ltac:(lia)). pose proof (Z.pow_pos_nonneg 2 k ltac:(lia) ltac:(lia)).
    rewrite Z.sub_0_r, Z.pow_0_r, Z.mul_1_r in Hge. assert (n < m * 2 ^ k) by lia. assert (0 < m) by nia. assert (c = 1) as -> by nia.
    apply float_ceil_div; [lia|lia|lia|by right|lia].
Qed.
