(* ===== verification/Build.v ===== *)
(** * The version of a build

    pkg/build/build.go: the revision of a build, from the version of its module.
    [debug.ReadBuildInfo] is a parameter. The regular expressions are sequences of
    pieces; in each of them a piece of digits is followed by a piece that does not
    begin with one, so the longest match is the only one. *)
From S2P Require Import Prelude GoStrings.

(** ** Patterns *)

(** A text; a group of one or more digits, of a number of digits, of hexadecimal digits. *)
Inductive piece := PLit (s : string) | PDigits | PDigitsN (n : nat) | PHex (n : nat).

(** [[a-f0-9]]. *)
Definition is_hex (c : ascii) : bool := ascii_between "a"%char "f"%char c || is_digit c.

(** The longest beginning of digits, and the rest. *)
Fixpoint span_digits (l : list ascii) : list ascii * list ascii :=
  match l with
  | c :: l' => if is_digit c then let '(a, b) := span_digits l' in (c :: a, b) else ([], l)
  | [] => ([], [])
  end.

Definition take_class (p : ascii → bool) (n : nat) (l : list ascii) : option (list ascii * list ascii) :=
  if decide (length (take n l) = n ∧ forallb p (take n l) = true) then Some (take n l, drop n l) else None.

(** [FindStringSubmatch] of an expression between [^] and [(?:\+dirty)?$]: its groups. *)
Fixpoint submatch (ps : list piece) (l : list ascii) : option (list (list ascii)) :=
  match ps with
  | [] => if decide (l = [] ∨ l = bytes_of "+dirty") then Some [] else None
  | PLit s :: ps => if decide (take (strlen s) l = bytes_of s) then submatch ps (drop (strlen s) l) else None
  | PDigits :: ps =>
      match span_digits l with
      | ([], _) => None
      | (a, b) => g ← submatch ps b; Some (a :: g)
      end
  | PDigitsN n :: ps => '(a, b) ← take_class is_digit n l; g ← submatch ps b; Some (a :: g)
  | PHex n :: ps => '(a, b) ← take_class is_hex n l; g ← submatch ps b; Some (a :: g)
  end.

Definition noBasePattern : list piece := [PLit "v"; PDigits; PLit ".0.0-"; PDigitsN 8; PDigitsN 6; PLit "-"; PHex 12].
Definition preReleasePattern : list piece :=
  [PLit "v"; PDigits; PLit "."; PDigits; PLit "."; PDigits; PLit "-pre.0."; PDigitsN 8; PDigitsN 6; PLit "-"; PHex 12].
Definition releasePattern : list piece :=
  [PLit "v"; PDigits; PLit "."; PDigits; PLit "."; PDigits; PLit "-0."; PDigitsN 8; PDigitsN 6; PLit "-"; PHex 12].

(** ** build.go *)

Inductive formType := noBaseForm | preReleaseForm | releaseForm.

Record pseudoVersion := mkpseudoVersion { pv_BaseVersion : string; pv_CommitHash : string; pv_IsDirty : bool }.

Definition pseudoVersion_String (pv : pseudoVersion) : string :=
  let base := pv_BaseVersion pv +:+ "-" +:+ pv_CommitHash pv in
  if pv_IsDirty pv then base +:+ "+dirty" else base.

(** The group of an index, counted from 1. *)
Definition group (matches : list (list ascii)) (i : nat) : string := of_bytes (default [] (matches !! (i - 1))).

Definition BaseVersion (form : formType) (m : list (list ascii)) : string :=
  match form with
  | noBaseForm => "v" +:+ group m 1 +:+ ".0.0"
  | preReleaseForm => "v" +:+ group m 1 +:+ "." +:+ group m 2 +:+ "." +:+ group m 3 +:+ "-pre"
  | releaseForm => "v" +:+ group m 1 +:+ "." +:+ group m 2 +:+ "." +:+ group m 3
  end.

Definition version_patterns : list (formType * list piece) :=
  [(noBaseForm, noBasePattern); (preReleaseForm, preReleasePattern); (releaseForm, releasePattern)].

Definition has_suffix (l s : list ascii) : bool := bool_decide (drop (length l - length s) l = s ∧ length s ≤ length l).

Fixpoint parse_forms (fs : list (formType * list piece)) (versionString : string) : option pseudoVersion :=
  match fs with
  | [] => None
  | (form, re) :: fs =>
      match submatch re (bytes_of versionString) with
      | None => parse_forms fs versionString
      | Some matches =>
          Some {|
            pv_BaseVersion := BaseVersion form matches;
            pv_CommitHash := of_bytes (take 8 (default [] (last matches)));
            pv_IsDirty := has_suffix (bytes_of versionString) (bytes_of "+dirty");
          |}
      end
  end.

Definition parse_version (versionString : string) : option pseudoVersion := parse_forms version_patterns versionString.

Definition Version (raw : string) : string :=
  match parse_version raw with Some v => pseudoVersion_String v | None => raw end.

Definition GitRevision (ReadBuildInfo : option string) : string :=
  match ReadBuildInfo with None => "unknown" | Some v => Version v end.

(** ** Properties *)

Definition digits (l : list ascii) : Prop := forallb is_digit l = true.

Lemma span_digits_app l r : digits l → (∀ c, head r = Some c → is_digit c = false) → span_digits (l ++ r) = (l, r).
Proof.
  intros Hl Hr. induction l as [|c l IH]; simpl.
  - destruct r as [|c r]; [done|]. simpl. by rewrite (Hr c).
  - apply andb_true_iff in Hl as [-> Hl]. by rewrite IH.
Qed.

Lemma take_class_app p n l r : length l = n → forallb p l = true → take_class p n (l ++ r) = Some (l, r).
Proof. intros <- Hp. unfold take_class. by rewrite take_app_length, drop_app_length, decide_True. Qed.

Lemma submatch_digitsN n ps l r :
  length l = n → digits l → submatch (PDigitsN n :: ps) (l ++ r) = (g ← submatch ps r; Some (l :: g)).
Proof. intros ??. simpl. by rewrite take_class_app. Qed.

Lemma submatch_hex n ps l r :
  length l = n → forallb is_hex l = true → submatch (PHex n :: ps) (l ++ r) = (g ← submatch ps r; Some (l :: g)).
Proof. intros ??. simpl. by rewrite take_class_app. Qed.

Lemma submatch_lit s ps l : submatch (PLit s :: ps) (bytes_of s ++ l) = submatch ps l.
Proof. simpl. by rewrite strlen_bytes, take_app_length, drop_app_length, decide_True. Qed.

Lemma submatch_digits ps l r :
  l ≠ [] → digits l → (∀ c, head r = Some c → is_digit c = false) →
  submatch (PDigits :: ps) (l ++ r) = (g ← submatch ps r; Some (l :: g)).
Proof. intros Hn Hl Hr. simpl. rewrite span_digits_app by done. by destruct l. Qed.

(** What follows the base: the time, the hash and the mark of a build that is not clean. *)
Definition stamp (time hash : list ascii) (dirty : bool) : list ascii :=
  time ++ bytes_of "-" ++ hash ++ (if dirty then bytes_of "+dirty" else []).

Lemma submatch_stamp time hash dirty :
  length time = 14 → digits time → length hash = 12 → forallb is_hex hash = true →
  submatch [PDigitsN 8; PDigitsN 6; PLit "-"; PHex 12] (stamp time hash dirty) = Some [take 8 time; drop 8 time; hash].
Proof.
  intros Ht Hd Hh Hx. unfold stamp. rewrite <- (take_drop 8 time) at 1. rewrite <- (assoc_L (++)).
  assert (forallb is_digit (take 8 time) = true ∧ forallb is_digit (drop 8 time) = true) as [H1 H2].
  { unfold digits in Hd. rewrite <- (take_drop 8 time), forallb_app in Hd. by apply andb_true_iff in Hd. }
  rewrite submatch_digitsN by (rewrite ?length_take; done || lia). rewrite submatch_digitsN by (rewrite ?length_drop; done || lia).
  rewrite submatch_lit, submatch_hex by done. by destruct dirty.
Qed.

Lemma last_app_stamp l (time hash : list ascii) : last (l ++ [take 8 time; drop 8 time; hash]) = Some hash.
Proof. by rewrite last_app. Qed.

Lemma has_suffix_stamp l time hash dirty :
  length hash = 12 → forallb is_hex hash = true → has_suffix (l ++ stamp time hash dirty) (bytes_of "+dirty") = dirty.
Proof.
  intros Hl Hx. unfold has_suffix, stamp. destruct dirty.
  - rewrite !(assoc_L (++)). apply bool_decide_eq_true. rewrite (length_app _ (bytes_of "+dirty")), Nat.add_sub, drop_app_length.
    split; [done|]. lia.
  - rewrite app_nil_r. apply bool_decide_eq_false. intros [E _]. rewrite !(assoc_L (++)) in E.
    rewrite (length_app _ hash), Hl in E. rewrite drop_app_ge in E by (simpl; lia).
    assert ("+"%char ∈ hash) as Hin. { rewrite <- (take_drop (length (((l ++ time) ++ bytes_of "-")) + 12 - length (bytes_of "+dirty") - length ((l ++ time) ++ bytes_of "-")) hash), E. rewrite elem_of_app. right. by left. }
    rewrite forallb_forall in Hx. apply list_elem_of_In in Hin. by apply Hx in Hin.
Qed.

(** *** Which pattern matches *)

Definition count (c : ascii) (l : list ascii) : nat := length (filter (.= c) l).

Lemma count_char_app c l k : count c (l ++ k) = count c l + count c k.
Proof. unfold count. by rewrite filter_app, length_app. Qed.

Lemma count_class (p : ascii → bool) c l : p c = false → forallb p l = true → count c l = 0.
Proof.
  intros Hc. unfold count. induction l as [|a l IH]; [done|]. simpl. intros [Ha Hl]%andb_true_iff. rewrite filter_cons.
  rewrite decide_False by congruence. by apply IH.
Qed.

Lemma forallb_hex l : digits l → forallb is_hex l = true.
Proof. unfold digits. rewrite !forallb_forall. intros Hl c Hc. unfold is_hex. rewrite (Hl c Hc). apply orb_true_r. Qed.

Lemma span_digits_spec l a b : span_digits l = (a, b) → l = a ++ b ∧ digits a.
Proof.
  revert a b. induction l as [|c l IH]; simpl; intros a b E; [by simplify_eq|]. destruct (is_digit c) eqn:Ec; [|by simplify_eq].
  destruct (span_digits l) as [a' b'] eqn:Es. simplify_eq. destruct (IH _ _ eq_refl) as [-> Ha]. split; [done|].
  unfold digits in *. simpl. by rewrite Ec.
Qed.

Lemma take_class_spec p n l a b : take_class p n l = Some (a, b) → l = a ++ b ∧ forallb p a = true.
Proof. unfold take_class. case_decide as H; [|done]. intros [= <- <-]. split; [by rewrite take_drop|apply H]. Qed.

(** A character that is no part of a group occurs in a text that matches as often as in
    the pattern; the groups are hexadecimal. *)
Definition piece_count (c : ascii) (p : piece) : nat := match p with PLit s => count c (bytes_of s) | _ => 0 end.

Lemma submatch_count c ps l g :
  is_hex c = false → count c (bytes_of "+dirty") = 0 → submatch ps l = Some g →
  count c l = sum_list (piece_count c <$> ps) ∧ Forall (λ x, forallb is_hex x = true) g.
Proof.
  intros Hc Hd. revert l g. induction ps as [|p ps IH]; intros l g E; cbn [submatch] in E.
  - case_decide as Hl; [|done]. simplify_eq. by destruct Hl as [-> | ->].
  - destruct p as [s| |n|n]; cbn [fmap list_fmap sum_list sum_list_with piece_count].
    + case_decide as Hl; [|done]. apply IH in E as [E HF]. split; [|done].
      rewrite <- (take_drop (strlen s) l), Hl, count_char_app, E. done.
    + destruct (span_digits l) as [a b] eqn:Es. apply span_digits_spec in Es as [-> Ha]. apply forallb_hex in Ha.
      destruct a as [|a0 a]; [done|]. apply bind_Some in E as (g' & Eg & [= <-]). apply IH in Eg as [Eg HF]. split; [|by constructor].
      by rewrite count_char_app, (count_class is_hex), Eg.
    + apply bind_Some in E as ([a b] & Ea & E). apply take_class_spec in Ea as [-> Ha%forallb_hex].
      apply bind_Some in E as (g' & Eg & [= <-]). apply IH in Eg as [Eg HF]. split; [|by constructor]. by rewrite count_char_app, (count_class is_hex), Eg.
    + apply bind_Some in E as ([a b] & Ea & E). apply take_class_spec in Ea as [-> Ha].
      apply bind_Some in E as (g' & Eg & [= <-]). apply IH in Eg as [Eg HF]. split; [|by constructor]. by rewrite count_char_app, (count_class is_hex), Eg.
Qed.

Definition pattern_of (form : formType) : list piece :=
  match form with noBaseForm => noBasePattern | preReleaseForm => preReleasePattern | releaseForm => releasePattern end.

(** The dots of the three forms differ, so at most one matches. *)
Lemma parse_version_form form s g :
  submatch (pattern_of form) (bytes_of s) = Some g →
  parse_version s = Some (mkpseudoVersion (BaseVersion form g) (of_bytes (take 8 (default [] (last g)))) (has_suffix (bytes_of s) (bytes_of "+dirty"))).
Proof.
  intros E. destruct (submatch_count "." (pattern_of form) _ _ eq_refl eq_refl E) as [Hd _].
  assert (∀ form' g', submatch (pattern_of form') (bytes_of s) = Some g' → form' = form) as Hu.
  { intros form' g' E'. destruct (submatch_count "." _ _ _ eq_refl eq_refl E') as [Hd' _]. rewrite Hd in Hd'. by destruct form, form'. }
  unfold parse_version, version_patterns. cbn [parse_forms].
  destruct (submatch noBasePattern (bytes_of s)) as [g1|] eqn:E1; [pose proof (Hu noBaseForm g1 E1); subst form; unfold pattern_of in E; rewrite E1 in E; by injection E as ->|].
  destruct (submatch preReleasePattern (bytes_of s)) as [g2|] eqn:E2; [pose proof (Hu preReleaseForm g2 E2); subst form; unfold pattern_of in E; rewrite E2 in E; by injection E as ->|].
  destruct (submatch releasePattern (bytes_of s)) as [g3|] eqn:E3; [pose proof (Hu releaseForm g3 E3); subst form; unfold pattern_of in E; rewrite E3 in E; by injection E as ->|].
  destruct form; unfold pattern_of in E; congruence.
Qed.

Lemma parse_version_Some s v :
  parse_version s = Some v → ∃ form g, submatch (pattern_of form) (bytes_of s) = Some g ∧ pv_BaseVersion v = BaseVersion form g ∧
    pv_CommitHash v = of_bytes (take 8 (default [] (last g))).
Proof.
  unfold parse_version, version_patterns. cbn [parse_forms]. intros E.
  repeat case_match; simplify_eq; [exists noBaseForm|exists preReleaseForm|exists releaseForm]; by eexists.
Qed.

(** ** What is shown *)

(** A pseudo-version before its time, and what is shown of it. *)
Definition version_prefix (form : formType) (a b c : list ascii) : list ascii :=
  match form with
  | noBaseForm => bytes_of "v" ++ a ++ bytes_of ".0.0-"
  | preReleaseForm => bytes_of "v" ++ a ++ bytes_of "." ++ b ++ bytes_of "." ++ c ++ bytes_of "-pre.0."
  | releaseForm => bytes_of "v" ++ a ++ bytes_of "." ++ b ++ bytes_of "." ++ c ++ bytes_of "-0."
  end.
Definition version_groups (form : formType) (a b c : list ascii) : list (list ascii) :=
  match form with noBaseForm => [a] | _ => [a; b; c] end.

Lemma submatch_version form a b c time hash dirty :
  a ≠ [] → b ≠ [] → c ≠ [] → digits a → digits b → digits c →
  length time = 14 → digits time → length hash = 12 → forallb is_hex hash = true →
  submatch (pattern_of form) (version_prefix form a b c ++ stamp time hash dirty) =
    Some (version_groups form a b c ++ [take 8 time; drop 8 time; hash]).
Proof.
  intros Na Nb Nc Ha Hb Hc Ht Htd Hh Hx.
  destruct form; unfold pattern_of, noBasePattern, preReleasePattern, releasePattern, version_prefix, version_groups; rewrite <- !(assoc_L (++));
    rewrite submatch_lit; repeat (rewrite submatch_digits by (done || (intros ? [= <-]; done)); rewrite submatch_lit);
    by rewrite submatch_stamp.
Qed.

(** A pseudo-version is shown as its base and the first eight digits of its commit;
    the mark of a build that is not clean is kept. *)
Theorem Version_pseudo form a b c time hash dirty :
  a ≠ [] → b ≠ [] → c ≠ [] → digits a → digits b → digits c →
  length time = 14 → digits time → length hash = 12 → forallb is_hex hash = true →
  Version (of_bytes (version_prefix form a b c ++ stamp time hash dirty)) =
    BaseVersion form (version_groups form a b c) +:+ "-" +:+ of_bytes (take 8 hash) +:+ (if dirty then "+dirty" else "").
Proof.
  intros Na Nb Nc Ha Hb Hc Ht Htd Hh Hx. unfold Version.
  rewrite (parse_version_form form _ (version_groups form a b c ++ [take 8 time; drop 8 time; hash])).
  - rewrite bytes_of_of_bytes, last_app_stamp, has_suffix_stamp by done. unfold pseudoVersion_String. cbn [pv_BaseVersion pv_CommitHash pv_IsDirty].
    replace (BaseVersion form (version_groups form a b c ++ _)) with (BaseVersion form (version_groups form a b c)) by (by destruct form).
    destruct dirty; [by rewrite !string_app_assoc|]. by rewrite string_app_nil_r.
  - rewrite bytes_of_of_bytes. by apply submatch_version.
Qed.

(** The dots, hyphens and letters p of what is shown are those of no pattern. *)
Lemma shown_count ch form g v :
  is_hex ch = false → count ch (bytes_of "+dirty") = 0 → Forall (λ x, forallb is_hex x = true) g →
  pv_BaseVersion v = BaseVersion form g → pv_CommitHash v = of_bytes (take 8 (default [] (last g))) →
  count ch (bytes_of (pseudoVersion_String v)) = count ch (bytes_of (BaseVersion form [])) + count ch (bytes_of "-").
Proof.
  intros Hc Hd HF Eb Eh.
  assert (∀ i, count ch (bytes_of (group g i)) = 0) as Hg.
  { intros i. unfold group. rewrite bytes_of_of_bytes. destruct (g !! (i - 1)) as [x|] eqn:E; [|done]. apply (count_class is_hex); [done|].
    by eapply Forall_lookup_1 in HF. }
  assert (count ch (bytes_of (pv_CommitHash v)) = 0) as Hh.
  { rewrite Eh, bytes_of_of_bytes. apply (count_class is_hex); [done|]. destruct (last g) as [x|] eqn:E; [|done]. simpl.
    assert (forallb is_hex x = true) as Hx. { rewrite Forall_forall in HF. by apply HF, last_Some_elem_of. }
    rewrite <- (take_drop 8 x), forallb_app in Hx. by apply andb_true_iff in Hx as [? _]. }
  assert (count ch (bytes_of (pv_BaseVersion v)) = count ch (bytes_of (BaseVersion form []))) as Hb.
  { rewrite Eb. destruct form; unfold BaseVersion; rewrite !bytes_of_app, !count_char_app, !Hg; done. }
  unfold pseudoVersion_String. destruct (pv_IsDirty v); rewrite !bytes_of_app, !count_char_app, ?Hd, Hb, Hh; lia.
Qed.

(** What is shown is not a pseudo-version again: showing it twice changes nothing. *)
Theorem Version_idempotent raw : Version (Version raw) = Version raw.
Proof.
  unfold Version at 2 3. destruct (parse_version raw) as [v|] eqn:Ev; [|unfold Version; by rewrite Ev].
  destruct (parse_version_Some _ _ Ev) as (form & g & E & Eb & Eh).
  unfold Version. destruct (parse_version (pseudoVersion_String v)) as [v'|] eqn:Ev'; [exfalso|done].
  destruct (parse_version_Some _ _ Ev') as (form' & g' & E' & _).
  assert (∀ ch, is_hex ch = false → count ch (bytes_of "+dirty") = 0 →
            count ch (bytes_of (BaseVersion form [])) + count ch (bytes_of "-") = sum_list (piece_count ch <$> pattern_of form')) as Hc.
  { intros ch Hx Hd. destruct (submatch_count ch _ _ _ Hx Hd E) as [_ HF]. destruct (submatch_count ch _ _ _ Hx Hd E') as [<- _].
    symmetry. by apply (shown_count ch form g). }
  pose proof (Hc "." eq_refl eq_refl)%char as H1. pose proof (Hc "-" eq_refl eq_refl)%char as H2. pose proof (Hc "p" eq_refl eq_refl)%char as H3.
  by destruct form, form'.
Qed.

Example Version_release :
  Version "v0.18.2-0.20250115103045-3f2a9c1b7d4e+dirty" = "v0.18.2-3f2a9c1b+dirty" ∧ Version "v0.18.1" = "v0.18.1".
Proof. by vm_compute. Qed.
