(* ===== verification/Inventory.v ===== *)
(** * Rufio: hardware inventory

    rufio/internal/controller/inventory.go: the conversion of what a BMC reports
    to the attributes of a Hardware, the canonical order of its components, and
    the jitter of the refresh interval.

    The records [c_...] are the parts of bmc-toolbox/common's Device the code
    reads; a nil pointer is [None]. The text the verb [%+v] prints for a component
    is part of it ([..._content]): it shows fields that are not modelled, and
    the addresses behind nested pointers. *)
From stdpp Require Import sorting.
From S2P Require Import Prelude GoStrings InventoryTypes Float64.

(** ** What a BMC reports *)

Record c_Firmware := mkc_Firmware { cf_Installed : string }.

Record c_Status := mkc_Status {
  cs_Health : string;
  cs_State : string;
  cs_PostCode : Z;
  cs_PostCodeStatus : string;
}.

Record c_Common := mkc_Common {
  cc_Description : string;
  cc_Vendor : string;
  cc_Model : string;
  cc_Serial : string;
  cc_ProductName : string;
  cc_Firmware : option c_Firmware;
  cc_Status : option c_Status;
}.

Record c_CPU := mkc_CPU {
  ccpu_Common : c_Common;
  ccpu_ID : string;
  ccpu_Slot : string;
  ccpu_Cores : Z;
  ccpu_Threads : Z;
  ccpu_ClockSpeedHz : Z;
  ccpu_content : string;
}.

Record c_Memory := mkc_Memory {
  cmem_Common : c_Common;
  cmem_ID : string;
  cmem_Slot : string;
  cmem_PartNumber : string;
  cmem_SizeBytes : Z;
  cmem_ClockSpeedHz : Z;
  cmem_FormFactor : string;
  cmem_content : string;
}.

Record c_NICPort := mkc_NICPort {
  cport_ID : string;
  cport_PhysicalID : string;
  cport_MacAddress : string;
  cport_SpeedBits : Z;
  cport_MTUSize : Z;
  cport_LinkStatus : string;
  cport_content : string;
}.

Record c_NIC := mkc_NIC {
  cnic_Common : c_Common;
  cnic_ID : string;
  cnic_NICPorts : list (option c_NICPort);
  cnic_content : string;
}.

Record c_Drive := mkc_Drive {
  cdrive_Common : c_Common;
  cdrive_ID : string;
  cdrive_WWN : string;
  cdrive_CapacityBytes : Z;
  cdrive_Type : string;
  cdrive_SmartStatus : string;
  cdrive_content : string;
}.

Record c_StorageController := mkc_StorageController {
  csc_Common : c_Common;
  csc_ID : string;
  csc_content : string;
}.

Record c_PSU := mkc_PSU {
  cpsu_Common : c_Common;
  cpsu_ID : string;
  cpsu_PowerCapacityWatts : Z;
  cpsu_content : string;
}.

Record c_TPM := mkc_TPM {
  ctpm_Common : c_Common;
  ctpm_InterfaceType : string;
  ctpm_content : string;
}.

Record c_GPU := mkc_GPU {
  cgpu_Common : c_Common;
  cgpu_content : string;
}.

Record c_BMC := mkc_BMC {
  cbmc_Common : c_Common;
  cbmc_NIC : option c_NIC;
}.

Record c_Device := mkc_Device {
  dev_Common : c_Common;
  dev_BIOS : option c_Common;
  dev_BMC : option c_BMC;
  dev_Mainboard : option c_Common;
  dev_CPUs : list (option c_CPU);
  dev_Memory : list (option c_Memory);
  dev_NICs : list (option c_NIC);
  dev_Drives : list (option c_Drive);
  dev_StorageControllers : list (option c_StorageController);
  dev_PSUs : list (option c_PSU);
  dev_TPMs : list (option c_TPM);
  dev_GPUs : list (option c_GPU);
}.

(** [safecast.Convert[uint32]] and [Convert[int32]]: a value of the type and an
    error; a number in the range of the type is converted to itself. *)
Class Safecast := {
  Convert_uint32 : Z → Z * option error;
  Convert_int32 : Z → Z * option error;
}.

Class SafecastLaws `{Safecast} := {
  uint32_range z : (0 ≤ (Convert_uint32 z).1 < 2 ^ 32)%Z;
  uint32_id z : (0 ≤ z < 2 ^ 32)%Z → Convert_uint32 z = (z, None);
  int32_range z : (- 2 ^ 31 ≤ (Convert_int32 z).1 < 2 ^ 31)%Z;
  int32_id z : (- 2 ^ 31 ≤ z < 2 ^ 31)%Z → Convert_int32 z = (z, None);
}.

(** ** Sorting *)

(** [cmp.Or]: the first string that is not empty. *)
Definition cmp_Or (l : list string) : string := default "" (snd <$> list_find (λ s, s ≠ "") l).

Definition cpuKey (c : option c_CPU) : string :=
  match c with None => "" | Some c => cmp_Or [ccpu_ID c; ccpu_Slot c; cc_Serial (ccpu_Common c)] end.
Definition memoryKey (m : option c_Memory) : string :=
  match m with None => "" | Some m => cmp_Or [cmem_ID m; cmem_Slot m; cc_Serial (cmem_Common m)] end.
Definition nicKey (n : option c_NIC) : string :=
  match n with None => "" | Some n => cmp_Or [cnic_ID n; cc_Serial (cnic_Common n)] end.
Definition nicPortKey (p : option c_NICPort) : string :=
  match p with None => "" | Some p => cmp_Or [cport_PhysicalID p; cport_ID p; cport_MacAddress p] end.
Definition driveKey (d : option c_Drive) : string :=
  match d with None => "" | Some d => cmp_Or [cdrive_ID d; cc_Serial (cdrive_Common d); cdrive_WWN d] end.
Definition storageControllerKey (sc : option c_StorageController) : string :=
  match sc with None => "" | Some sc => cmp_Or [csc_ID sc; cc_Serial (csc_Common sc)] end.
Definition psuKey (p : option c_PSU) : string :=
  match p with None => "" | Some p => cmp_Or [cpsu_ID p; cc_Serial (cpsu_Common p)] end.
Definition tpmKey (t : option c_TPM) : string :=
  match t with None => "" | Some t => cc_Serial (ctpm_Common t) end.
Definition gpuKey (g : option c_GPU) : string :=
  match g with
  | None => ""
  | Some g => cmp_Or [cc_Serial (cgpu_Common g); cc_Model (cgpu_Common g); cc_ProductName (cgpu_Common g)]
  end.

(** What [%+v] prints for a possibly nil pointer. *)
Definition printed {A} (content : A → string) (x : option A) : string :=
  match x with None => "<nil>" | Some x => content x end.

Section Sort.
Context {A : Type} (key content : A → string).

(** The function [less] given to [sort.Slice]. *)
Definition component_less (x y : A) : bool :=
  if decide (key x ≠ key y) then str_ltb (key x) (key y) else str_ltb (content x) (content y).

Definition not_after (x y : A) : Prop := component_less y x = false.

#[export] Instance not_after_dec x y : Decision (not_after x y).
Proof. unfold not_after. apply _. Defined.

(** [sort.Slice] sorts by [less] and promises no order of elements that are
    equal in it; here it is a merge sort. *)
Definition sortByKeyThenContent (l : list A) : list A := merge_sort not_after l.

End Sort.

Definition sort_ports (n : c_NIC) : c_NIC :=
  mkc_NIC (cnic_Common n) (cnic_ID n) (sortByKeyThenContent nicPortKey (printed cport_content) (cnic_NICPorts n)) (cnic_content n).

Definition sortDevice (d : option c_Device) : option c_Device :=
  match d with
  | None => None
  | Some d =>
      Some (mkc_Device (dev_Common d) (dev_BIOS d)
        (match dev_BMC d with
         | Some b => Some (mkc_BMC (cbmc_Common b) (sort_ports <$> cbmc_NIC b))
         | None => None
         end)
        (dev_Mainboard d)
        (sortByKeyThenContent cpuKey (printed ccpu_content) (dev_CPUs d))
        (sortByKeyThenContent memoryKey (printed cmem_content) (dev_Memory d))
        ((fmap (M:=option) sort_ports) <$> sortByKeyThenContent nicKey (printed cnic_content) (dev_NICs d))
        (sortByKeyThenContent driveKey (printed cdrive_content) (dev_Drives d))
        (sortByKeyThenContent storageControllerKey (printed csc_content) (dev_StorageControllers d))
        (sortByKeyThenContent psuKey (printed cpsu_content) (dev_PSUs d))
        (sortByKeyThenContent tpmKey (printed ctpm_content) (dev_TPMs d))
        (sortByKeyThenContent gpuKey (printed cgpu_content) (dev_GPUs d)))
  end.

(** ** Conversion *)

Definition firmwareVersion (f : option c_Firmware) : string :=
  match f with None => "" | Some f => cf_Installed f end.

Definition statusFromCommon (s : option c_Status) : option inv_ComponentStatus :=
  match s with None => None | Some s => Some (mkinv_ComponentStatus (cs_Health s) (cs_State s) None "") end.

Section Convert.
Context `{Safecast}.

Definition to_uint32 (z : Z) : Z := (Convert_uint32 z).1.

Definition postStatusFromCommon (s : option c_Status) : option inv_ComponentStatus :=
  match s with
  | None => None
  | Some st =>
      if decide (cs_PostCodeStatus st ≠ "")
      then Some (mkinv_ComponentStatus (cs_Health st) (cs_State st) (Some (Convert_int32 (cs_PostCode st)).1)
                   (cs_PostCodeStatus st))
      else statusFromCommon s
  end.

Definition productFromCommon (c : c_Common) : option inv_Product :=
  let status := postStatusFromCommon (cc_Status c) in
  if decide (cc_Vendor c = "" ∧ cc_Model c = "" ∧ cc_ProductName c = "" ∧ cc_Serial c = "" ∧ status = None) then None
  else Some (mkinv_Product (cc_ProductName c) (cc_Vendor c) (cc_Model c) (cc_Serial c) status).

Definition biosFromCommon (b : option c_Common) : option inv_BIOS :=
  match b with
  | None => None
  | Some b => Some (mkinv_BIOS (cc_Vendor b) (cc_Model b) (cc_Serial b) (firmwareVersion (cc_Firmware b)) ""
                      (statusFromCommon (cc_Status b)))
  end.

Definition port_from (p : c_NICPort) : inv_NetworkPort :=
  mkinv_NetworkPort (cmp_Or [cport_PhysicalID p; cport_ID p]) (cport_MacAddress p)
    (to_uint32 (Z.quot (cport_SpeedBits p) 1000000)) (to_uint32 (cport_MTUSize p)) (cport_LinkStatus p) [].

Definition networkInterfaceFromCommon (n : option c_NIC) : option inv_NetworkInterface :=
  match n with
  | None => None
  | Some n =>
      let c := cnic_Common n in
      Some (mkinv_NetworkInterface "" (cc_Vendor c) (cc_Model c) (cc_Serial c) (firmwareVersion (cc_Firmware c))
              (omap (fmap (M:=option) port_from) (cnic_NICPorts n)))
  end.

Definition bmcFromCommon (b : option c_BMC) : option inv_BMC :=
  match b with
  | None => None
  | Some b =>
      let c := cbmc_Common b in
      Some (mkinv_BMC (cc_Vendor c) (cc_Model c) (cc_Serial c) (firmwareVersion (cc_Firmware c))
              (networkInterfaceFromCommon (cbmc_NIC b)) (statusFromCommon (cc_Status c)))
  end.

Definition baseboardFromMainboard (m : option c_Common) : option inv_Baseboard :=
  match m with
  | None => None
  | Some m => Some (mkinv_Baseboard (cc_Vendor m) (cc_Model m) (cc_Serial m) (cc_Description m)
                      (firmwareVersion (cc_Firmware m)) (statusFromCommon (cc_Status m)))
  end.

(** The bodies of the loops of [attributesFromDevice]. *)
Definition socket_from (c : c_CPU) : inv_CPUSocket :=
  let m := ccpu_Common c in
  mkinv_CPUSocket (ccpu_Slot c) (cc_Vendor m) (cc_Model m) (to_uint32 (ccpu_Cores c)) (to_uint32 (ccpu_Threads c))
    (to_uint32 (Z.quot (ccpu_ClockSpeedHz c) 1000000)) (cc_Serial m) [] (firmwareVersion (cc_Firmware m)).

Definition module_from (x : c_Memory) : inv_MemoryModule :=
  let m := cmem_Common x in
  mkinv_MemoryModule (cmem_Slot x) (cc_Vendor m) (cc_Model m) (cc_Serial m) (cmem_PartNumber x) (cmem_SizeBytes x)
    (to_uint32 (Z.quot (cmem_ClockSpeedHz x) 1000000)) (cmem_FormFactor x) (firmwareVersion (cc_Firmware m)).

Definition drive_from (d : c_Drive) : inv_BlockDevice :=
  let m := cdrive_Common d in
  mkinv_BlockDevice "" "" (cdrive_Type d) (cc_Vendor m) (cc_Model m) (cc_Serial m) (cdrive_WWN d) (cdrive_CapacityBytes d) 0
    (cdrive_SmartStatus d) (firmwareVersion (cc_Firmware m)) (statusFromCommon (cc_Status m)).

Definition controller_from (s : c_StorageController) : inv_StorageController :=
  let m := csc_Common s in
  mkinv_StorageController (cc_Vendor m) (cc_Model m) (cc_Serial m) (cc_Description m) (firmwareVersion (cc_Firmware m))
    (statusFromCommon (cc_Status m)).

Definition psu_from (p : c_PSU) : inv_PSU :=
  let m := cpsu_Common p in
  mkinv_PSU (cc_Vendor m) (cc_Model m) (cc_Serial m) (cc_Description m) (firmwareVersion (cc_Firmware m))
    (cpsu_PowerCapacityWatts p) (statusFromCommon (cc_Status m)).

Definition tpm_from (t : c_TPM) : inv_TPM :=
  let m := ctpm_Common t in
  mkinv_TPM (cc_Vendor m) (cc_Model m) (cc_Serial m) (ctpm_InterfaceType t) (firmwareVersion (cc_Firmware m))
    (statusFromCommon (cc_Status m)).

Definition gpu_from (g : c_GPU) : inv_GPUDevice :=
  let m := cgpu_Common g in
  mkinv_GPUDevice (cc_Vendor m) (cc_Model m) (cc_Serial m) (cc_Description m) "" "" (firmwareVersion (cc_Firmware m))
    (statusFromCommon (cc_Status m)).

(** The components of a slice that are not nil, converted. *)
Definition converted {A B} (f : A → B) (l : list (option A)) : list B := omap (fmap (M:=option) f) l.

Definition attributesFromDevice (device : option c_Device) (collectionMethod : string) (t : option Z)
    : option inv_Attributes :=
  match device with
  | None => None
  | Some d =>
      let sockets := converted socket_from (dev_CPUs d) in
      let modules := converted module_from (dev_Memory d) in
      Some (mkinv_Attributes t collectionMethod
        (if decide (sockets = []) then None else Some (mkinv_CPU 0 0 sockets))
        (if decide (modules = []) then None else Some (mkinv_Memory 0 0 modules))
        (converted drive_from (dev_Drives d))
        (omap networkInterfaceFromCommon (dev_NICs d))
        (converted gpu_from (dev_GPUs d))
        [] None
        (baseboardFromMainboard (dev_Mainboard d))
        (biosFromCommon (dev_BIOS d))
        (productFromCommon (dev_Common d))
        (bmcFromCommon (dev_BMC d))
        (converted psu_from (dev_PSUs d))
        (converted tpm_from (dev_TPMs d))
        (converted controller_from (dev_StorageControllers d)))
  end.

End Convert.

(** ** The refresh interval *)

Definition defaultInventoryRefreshInterval : Z := (24 * time_Hour)%Z.

(** [fnv.New32a]: the hash of the bytes of a string. *)
Definition fnv32a (s : string) : Z :=
  foldl (λ h c, (Z.lxor h (Z.of_nat (nat_of_ascii c)) * 16777619) mod 2 ^ 32)%Z 2166136261%Z (bytes_of s).

Definition inventoryJitter (namespace name : string) (interval : Z) : Z :=
  let maxJitter := float_mul (float_of_int interval) float_tenth in
  if decide (mant maxJitter ≤ 0)%Z then 0%Z
  else
    let frac := float_shift (float_of_int (fnv32a (namespace +:+ "/" +:+ name))) 32 in
    float_trunc (float_sub (float_mul (float_mul frac (float_of_int 2)) maxJitter) maxJitter).

(** ** The canonical order *)

Section Canonical.
Context {A : Type} (key content : A → string).

Lemma not_after_spec x y :
  not_after key content x y ↔ str_le (key x) (key y) ∧ (key x = key y → str_le (content x) (content y)).
Proof.
  unfold not_after, component_less, str_ltb, str_le. destruct (decide (key y ≠ key x)) as [E|E]; rewrite negb_false_iff.
  - naive_solver.
  - apply dec_stable in E. rewrite E. pose proof (str_le_total (key x) (key x)) as H. unfold str_le in H. naive_solver.
Qed.

#[local] Instance not_after_total : Total (not_after key content).
Proof.
  intros x y. rewrite !not_after_spec. destruct (decide (key x = key y)) as [E|E].
  - rewrite E. pose proof (str_le_total (key y) (key y)).
    destruct (str_le_total (content x) (content y)); naive_solver.
  - destruct (str_le_total (key x) (key y)); naive_solver.
Qed.

#[local] Instance not_after_trans : Transitive (not_after key content).
Proof.
  intros x y z. rewrite !not_after_spec. intros [K1 C1] [K2 C2]. split; [by trans (key y)|].
  intros E. assert (key x = key y) as E'.
  { apply (anti_symm str_le); [done|]. by rewrite E. }
  trans (content y); [auto|apply C2; congruence].
Qed.

Lemma sort_Permutation l : sortByKeyThenContent key content l ≡ₚ l.
Proof. apply merge_sort_Permutation. Qed.

Lemma sort_keys_sorted l : StronglySorted str_le (key <$> sortByKeyThenContent key content l).
Proof.
  eapply StronglySorted_fmap; [|by apply (StronglySorted_merge_sort (not_after key content))].
  intros x y. by intros [? _]%not_after_spec.
Qed.

End Canonical.

(** Two slices have the same components up to order and [R]. *)
Definition same_up_to {A} (R : relation A) (l l' : list A) : Prop := ∃ l0, l ≡ₚ l0 ∧ Forall2 R l0 l'.

(** The components of one key are the same. *)
Definition keyed {A} (R : relation A) (key : A → string) (l : list A) : Prop :=
  ∀ x y, x ∈ l → y ∈ l → key x = key y → R x y.

Lemma Forall2_elem_r {A B} (R : A → B → Prop) l k y : Forall2 R l k → y ∈ k → ∃ x, x ∈ l ∧ R x y.
Proof.
  intros H Hy. apply list_elem_of_lookup in Hy as [i Hi]. destruct (Forall2_lookup_r _ _ _ _ _ H Hi) as (x & Hx & HR).
  exists x. split; [by eapply list_elem_of_lookup_2|done].
Qed.

(** Slices with the same components are sorted to slices that agree at every
    index, whatever is printed for their components. *)
Lemma sort_canonical {A} (R : relation A) `{!Transitive R} (key content content' : A → string) l l' :
  (∀ x y, R x y → key x = key y) → keyed R key l → same_up_to R l l' →
  Forall2 R (sortByKeyThenContent key content l) (sortByKeyThenContent key content' l').
Proof.
  intros Hkey Hk (l0 & Hp & HF).
  assert (key <$> sortByKeyThenContent key content l = key <$> sortByKeyThenContent key content' l') as E.
  { apply (StronglySorted_unique str_le); [apply sort_keys_sorted..|]. rewrite !sort_Permutation, Hp.
    apply reflexive_eq. clear -HF Hkey. induction HF; csimpl; [done|]. f_equal; auto. }
  assert (∀ x y, x ∈ l → y ∈ l' → key x = key y → R x y) as HR.
  { intros x y Hx Hy Exy. destruct (Forall2_elem_r _ _ _ _ HF Hy) as (z & Hz & Hzy).
    trans z; [|done]. apply Hk; [done|by rewrite Hp|]. by rewrite Exy, (Hkey _ _ Hzy). }
  apply Forall2_same_length_lookup. split.
  { by rewrite <-(length_fmap key), E, length_fmap. }
  intros i x y Hx Hy. apply HR.
  - rewrite <-(sort_Permutation key content l). by eapply list_elem_of_lookup_2.
  - rewrite <-(sort_Permutation key content' l'). by eapply list_elem_of_lookup_2.
  - pose proof (f_equal (lookup i) E) as Ei. rewrite !list_lookup_fmap, Hx, Hy in Ei. by injection Ei.
Qed.

(** *** Components that differ only in what is printed for them *)

Definition erase_CPU (c : c_CPU) : c_CPU :=
  mkc_CPU (ccpu_Common c) (ccpu_ID c) (ccpu_Slot c) (ccpu_Cores c) (ccpu_Threads c) (ccpu_ClockSpeedHz c) "".
Definition erase_Memory (m : c_Memory) : c_Memory :=
  mkc_Memory (cmem_Common m) (cmem_ID m) (cmem_Slot m) (cmem_PartNumber m) (cmem_SizeBytes m) (cmem_ClockSpeedHz m)
    (cmem_FormFactor m) "".
Definition erase_NICPort (p : c_NICPort) : c_NICPort :=
  mkc_NICPort (cport_ID p) (cport_PhysicalID p) (cport_MacAddress p) (cport_SpeedBits p) (cport_MTUSize p)
    (cport_LinkStatus p) "".
Definition erase_Drive (d : c_Drive) : c_Drive :=
  mkc_Drive (cdrive_Common d) (cdrive_ID d) (cdrive_WWN d) (cdrive_CapacityBytes d) (cdrive_Type d) (cdrive_SmartStatus d) "".
Definition erase_StorageController (s : c_StorageController) : c_StorageController :=
  mkc_StorageController (csc_Common s) (csc_ID s) "".
Definition erase_PSU (p : c_PSU) : c_PSU := mkc_PSU (cpsu_Common p) (cpsu_ID p) (cpsu_PowerCapacityWatts p) "".
Definition erase_TPM (t : c_TPM) : c_TPM := mkc_TPM (ctpm_Common t) (ctpm_InterfaceType t) "".
Definition erase_GPU (g : c_GPU) : c_GPU := mkc_GPU (cgpu_Common g) "".

Definition same_by {A} (erase : A → A) (x y : option A) : Prop := erase <$> x = erase <$> y.

#[export] Instance same_by_trans {A} (erase : A → A) : Transitive (same_by erase).
Proof. unfold same_by. intros x y z. congruence. Qed.

Abbreviation same_port := (same_by erase_NICPort).

(** Network cards may also differ in the order of their ports, which are told
    apart by their keys. *)
Definition same_NIC1 (n n' : c_NIC) : Prop :=
  cnic_Common n = cnic_Common n' ∧ cnic_ID n = cnic_ID n' ∧
  keyed same_port nicPortKey (cnic_NICPorts n) ∧ same_up_to same_port (cnic_NICPorts n) (cnic_NICPorts n').

Definition same_NIC (n n' : option c_NIC) : Prop :=
  match n, n' with
  | Some n, Some n' => same_NIC1 n n'
  | None, None => True
  | _, _ => False
  end.

Lemma same_up_to_trans {A} (R : relation A) `{!Transitive R} l1 l2 l3 :
  same_up_to R l1 l2 → same_up_to R l2 l3 → same_up_to R l1 l3.
Proof.
  intros (l & Hp & HF) (l' & Hp' & HF').
  assert (∃ k, l ≡ₚ k ∧ Forall2 R k l') as (k & Hk & HFk).
  { clear Hp HF'. revert l HF. induction Hp' as [|x k2 k3 _ IH|x y k2|k2 k3 k4 _ IH1 _ IH2]; intros l HF.
    - exists l. split; [done|]. done.
    - apply Forall2_cons_inv_r in HF as (a & k & Ha & HF & ->). destruct (IH _ HF) as (k' & E & HF').
      exists (a :: k'). split; [by rewrite E|by constructor].
    - apply Forall2_cons_inv_r in HF as (a & k & Ha & HF & ->). apply Forall2_cons_inv_r in HF as (b & k' & Hb & HF & ->).
      exists (b :: a :: k'). split; [apply Permutation_swap|by repeat constructor].
    - destruct (IH1 _ HF) as (k & E & HFk). destruct (IH2 _ HFk) as (k' & E' & HFk'). exists k'. split; [by trans k|done]. }
  exists k. split; [by rewrite Hp|]. by trans l'.
Qed.

#[export] Instance same_NIC_trans : Transitive same_NIC.
Proof.
  intros [n1|] [n2|] [n3|]; simpl; try done. unfold same_NIC1.
  intros (E1 & E2 & K & S) (E1' & E2' & K' & S'). split_and!; [congruence..|done|].
  by eapply same_up_to_trans; [apply _|..].
Qed.

(** *** Devices *)

(** The same components in both, in any order, told apart by their keys. *)
Definition same_components {A} (R : relation A) (key : A → string) (l l' : list A) : Prop :=
  keyed R key l ∧ same_up_to R l l'.

Definition same_BMC (b b' : option c_BMC) : Prop :=
  match b, b' with
  | Some b, Some b' => cbmc_Common b = cbmc_Common b' ∧ same_NIC (cbmc_NIC b) (cbmc_NIC b')
  | None, None => True
  | _, _ => False
  end.

Record same_device (d d' : c_Device) : Prop := {
  sd_Common : dev_Common d = dev_Common d';
  sd_BIOS : dev_BIOS d = dev_BIOS d';
  sd_BMC : same_BMC (dev_BMC d) (dev_BMC d');
  sd_Mainboard : dev_Mainboard d = dev_Mainboard d';
  sd_CPUs : same_components (same_by erase_CPU) cpuKey (dev_CPUs d) (dev_CPUs d');
  sd_Memory : same_components (same_by erase_Memory) memoryKey (dev_Memory d) (dev_Memory d');
  sd_NICs : same_components same_NIC nicKey (dev_NICs d) (dev_NICs d');
  sd_Drives : same_components (same_by erase_Drive) driveKey (dev_Drives d) (dev_Drives d');
  sd_Controllers : same_components (same_by erase_StorageController) storageControllerKey
    (dev_StorageControllers d) (dev_StorageControllers d');
  sd_PSUs : same_components (same_by erase_PSU) psuKey (dev_PSUs d) (dev_PSUs d');
  sd_TPMs : same_components (same_by erase_TPM) tpmKey (dev_TPMs d) (dev_TPMs d');
  sd_GPUs : same_components (same_by erase_GPU) gpuKey (dev_GPUs d) (dev_GPUs d');
}.

Lemma sort_same {A} (R : relation A) `{!Transitive R} key content l l' :
  (∀ x y, R x y → key x = key y) → same_components R key l l' →
  Forall2 R (sortByKeyThenContent key content l) (sortByKeyThenContent key content l').
Proof. intros Hk [? ?]. by apply sort_canonical. Qed.

Lemma omap_same {A B} (R : relation A) (f : A → option B) l l' :
  (∀ x y, R x y → f x = f y) → Forall2 R l l' → omap f l = omap f l'.
Proof. intros Hf. induction 1 as [|x y l l' HR _ IH]; csimpl; [done|]. by rewrite (Hf _ _ HR), IH. Qed.

Lemma list_omap_fmap {A B C} (f : B → option C) (g : A → B) (l : list A) : omap f (g <$> l) = omap (f ∘ g) l.
Proof. induction l as [|x l IH]; csimpl; [done|]. by rewrite IH. Qed.

Lemma sort_converted {A B} (erase : A → A) (f : A → B) key content l l' :
  (∀ x y, same_by erase x y → key x = key y) → (∀ x y, erase x = erase y → f x = f y) →
  same_components (same_by erase) key l l' →
  converted f (sortByKeyThenContent key content l) = converted f (sortByKeyThenContent key content l').
Proof.
  intros Hk Hf Hs. apply (omap_same (same_by erase)); [|by apply sort_same; [apply _|..]].
  intros [x|] [y|]; unfold same_by; simpl; try done. intros [= E]. f_equal. auto.
Qed.

(** A key and a conversion read no printed text. *)
Ltac reads_fields :=
  solve [ intros [[]|] [[]|] E; cbv in E; try discriminate E; inversion E; subst; reflexivity
        | intros [] [] E; cbv in E; inversion E; subst; reflexivity ].

Section Devices.
Context `{Safecast}.

Lemma sort_ports_same n n' :
  same_NIC n n' → networkInterfaceFromCommon (sort_ports <$> n) = networkInterfaceFromCommon (sort_ports <$> n').
Proof.
  destruct n as [n|], n' as [n'|]; simpl; try done. intros (E1 & E2 & K & S). rewrite E1. do 2 f_equal.
  apply (sort_converted erase_NICPort port_from nicPortKey (printed cport_content)); [reads_fields..|]. by split.
Qed.

(** The order in which a BMC lists its components, and what is printed for
    them, do not matter: two reports of the same components, told apart by their
    keys, are converted to the same attributes. *)
Lemma inventory_canonical d d' collectionMethod t :
  same_device d d' →
  attributesFromDevice (sortDevice (Some d)) collectionMethod t = attributesFromDevice (sortDevice (Some d')) collectionMethod t.
Proof.
  intros S. cbn [sortDevice attributesFromDevice dev_Common dev_BIOS dev_BMC dev_Mainboard dev_CPUs dev_Memory dev_NICs
    dev_Drives dev_StorageControllers dev_PSUs dev_TPMs dev_GPUs].
  rewrite (sd_Common _ _ S), (sd_BIOS _ _ S), (sd_Mainboard _ _ S).
  rewrite (sort_converted erase_CPU socket_from cpuKey _ _ _ ltac:(reads_fields) ltac:(reads_fields) (sd_CPUs _ _ S)).
  rewrite (sort_converted erase_Memory module_from memoryKey _ _ _ ltac:(reads_fields) ltac:(reads_fields) (sd_Memory _ _ S)).
  rewrite (sort_converted erase_Drive drive_from driveKey _ _ _ ltac:(reads_fields) ltac:(reads_fields) (sd_Drives _ _ S)).
  rewrite (sort_converted erase_StorageController controller_from storageControllerKey _ _ _ ltac:(reads_fields) ltac:(reads_fields) (sd_Controllers _ _ S)).
  rewrite (sort_converted erase_PSU psu_from psuKey _ _ _ ltac:(reads_fields) ltac:(reads_fields) (sd_PSUs _ _ S)).
  rewrite (sort_converted erase_TPM tpm_from tpmKey _ _ _ ltac:(reads_fields) ltac:(reads_fields) (sd_TPMs _ _ S)).
  rewrite (sort_converted erase_GPU gpu_from gpuKey _ _ _ ltac:(reads_fields) ltac:(reads_fields) (sd_GPUs _ _ S)).
  assert (bmcFromCommon (match dev_BMC d with Some b => Some (mkc_BMC (cbmc_Common b) (sort_ports <$> cbmc_NIC b)) | None => None end)
    = bmcFromCommon (match dev_BMC d' with Some b => Some (mkc_BMC (cbmc_Common b) (sort_ports <$> cbmc_NIC b)) | None => None end)) as ->.
  { pose proof (sd_BMC _ _ S) as B. destruct (dev_BMC d) as [b|], (dev_BMC d') as [b'|]; simpl in *; try done.
    destruct B as [-> B]. by rewrite (sort_ports_same _ _ B). }
  do 2 f_equal. rewrite !list_omap_fmap. apply (omap_same same_NIC).
  - intros x y. apply sort_ports_same.
  - apply sort_same; [apply _| |apply (sd_NICs _ _ S)]. intros [x|] [y|]; simpl; try done. by intros (-> & -> & _).
Qed.

End Devices.

(** ** The jitter *)

Lemma fnv32a_range s : (0 ≤ fnv32a s < 2 ^ 32)%Z.
Proof.
  unfold fnv32a. assert (0 ≤ 2166136261 < 2 ^ 32)%Z as H by lia. revert H.
  generalize 2166136261%Z. induction (bytes_of s) as [|c l IH]; intros h Hh; simpl; [done|].
  apply IH. apply Z.mod_pos_bound. lia.
Qed.

Local Open Scope Z_scope.

(** Scaling a positive number by at most two and taking it away once, rounding
    at each step, stays within it. *)
Lemma spread_bounds k f M :
  k ≤ expo f + expo M → k ≤ expo M → 0 < mant M → representable M →
  0 ≤ mant f → expo f ≤ 0 → mant f ≤ 2 * 2 ^ (- expo f) →
  Z.abs (scaled k (float_sub (float_mul f M) M)) ≤ scaled k M ∧ k ≤ expo (float_sub (float_mul f M) M).
Proof.
  intros Hk1 Hk Hm Hr Hf0 He Hf. set (x := mkfloat64 (mant f * mant M) (expo f + expo M)).
  assert (k ≤ expo (float_mul f M)) as Hke by (etrans; [exact Hk1|exact (round64_expo x)]).
  assert (0 < 2 ^ (expo M - k)) as Hp by (apply Z.pow_pos_nonneg; lia).
  assert (0 ≤ scaled k (float_mul f M)) as H0.
  { apply (round64_ge k x (mkfloat64 0 k)); [done|simpl; lia|done|]. unfold scaled, x. simpl.
    pose proof (Z.pow_nonneg 2 (expo f + expo M - k)). nia. }
  assert (scaled k (float_mul f M) ≤ 2 * scaled k M) as H2.
  { assert (2 * scaled k M = scaled k (mkfloat64 (mant M) (expo M + 1))) as E.
    { unfold scaled. simpl. replace (expo M + 1 - k) with (1 + (expo M - k)) by lia. rewrite Z.pow_add_r by lia. lia. }
    rewrite E. apply (round64_le k x); [done|simpl; lia|exact Hr|]. rewrite <-E. unfold scaled, x. simpl.
    assert (mant f * 2 ^ (expo f + expo M - k) ≤ 2 * 2 ^ (expo M - k)); [|nia].
    replace (expo M - k) with (- expo f + (expo f + expo M - k)) by lia.
    rewrite (Z.pow_add_r 2 (- expo f)) by lia. pose proof (Z.pow_pos_nonneg 2 (expo f + expo M - k) ltac:(lia) ltac:(lia)). nia. }
  set (p := float_mul f M) in *. set (e := Z.min (expo p) (expo M)).
  set (y := mkfloat64 (mant p * 2 ^ (expo p - e) - mant M * 2 ^ (expo M - e)) e).
  assert (k ≤ e) as Hkee by (unfold e; lia).
  assert (scaled k y = scaled k p - scaled k M) as Ey.
  { rewrite (scaled_shift k e p), (scaled_shift k e M) by (unfold e; lia). unfold scaled, y. simpl. lia. }
  change (float_sub p M) with (round64 y). split; [|etrans; [exact Hkee|exact (round64_expo y)]].
  assert (scaled k (round64 y) ≤ scaled k M) by (apply round64_le; [done..|lia]).
  assert (- scaled k M ≤ scaled k (round64 y)); [|lia].
  replace (- scaled k M) with (scaled k (mkfloat64 (- mant M) (expo M))) by (unfold scaled; simpl; lia).
  apply round64_ge; [done|done| |unfold scaled in *; simpl in *; lia].
  unfold representable in *. simpl. lia.
Qed.

Lemma scaled_sign k x : k ≤ expo x → (scaled k x ≤ 0 ↔ mant x ≤ 0).
Proof. intros. unfold scaled. pose proof (Z.pow_pos_nonneg 2 (expo x - k) ltac:(lia) ltac:(lia)). nia. Qed.

Lemma round64_nonpos x : mant x ≤ 0 → mant (round64 x) ≤ 0.
Proof.
  intros Hx. apply (scaled_sign (expo x)); [apply round64_expo|].
  apply (round64_le (expo x) x (mkfloat64 0 (expo x))); [done|simpl; lia|done|]. by apply scaled_sign.
Qed.

(** A tenth of a positive interval, as it is rounded. *)
Lemma tenth_bound interval :
  0 < interval →
  let M := float_mul (float_of_int interval) float_tenth in
  -55 ≤ expo M ∧ 10 * scaled (-87) M * 2 ^ 51 ≤ interval * (2 ^ 51 + 1) * 2 ^ 87.
Proof.
  intros Hi M. set (I := float_of_int interval). set (x := mkfloat64 (mant I * mant float_tenth) (expo I + expo float_tenth)).
  assert (0 ≤ expo I) as HeI by exact (round64_expo (mkfloat64 interval 0)).
  assert (-55 ≤ expo M) as HeM.
  { pose proof (round64_expo x) as H. change (expo I - 55 ≤ expo M) in H. lia. }
  split; [done|]. pose proof (round64_error (-87) x ltac:(simpl; lia)) as HM. change (round64 x) with M in HM.
  pose proof (round64_error 0 (mkfloat64 interval 0) ltac:(simpl; lia)) as HI. change (round64 (mkfloat64 interval 0)) with I in HI.
  assert (scaled (-87) x = scaled 0 I * (3602879701896397 * 2 ^ 32)) as Ex.
  { unfold scaled, x. simpl mant. simpl expo. replace (expo I + -55 - -87) with (expo I - 0 + 32) by lia.
    rewrite Z.pow_add_r by lia. lia. }
  assert (scaled 0 (mkfloat64 interval 0) = interval) as Ei by (unfold scaled; simpl; lia).
  rewrite Ex in HM. rewrite Ei in HI. lia.
Qed.

(** The jitter is within a tenth of the refresh interval, up to the rounding
    of floating point: it exceeds the tenth by less than a part in [2 ^ 51], and
    for intervals below [2 ^ 51] nanoseconds (26 days) not at all. An interval
    that is not positive has none. *)
Lemma inventoryJitter_spec namespace name interval :
  let j := inventoryJitter namespace name interval in
  (interval ≤ 0 → j = 0) ∧
  (0 < interval → 10 * Z.abs j * 2 ^ 51 ≤ interval * (2 ^ 51 + 1)) ∧
  (0 < interval < 2 ^ 51 → 10 * Z.abs j ≤ interval).
Proof.
  intros j. assert (0 < interval → 10 * Z.abs j * 2 ^ 51 ≤ interval * (2 ^ 51 + 1)) as Hb.
  { intros Hi. destruct (tenth_bound interval Hi) as [He Hm]. unfold j, inventoryJitter. case_decide as Hd; [lia|].
    set (M := float_mul (float_of_int interval) float_tenth) in *. set (h := fnv32a (namespace +:+ "/" +:+ name)).
    pose proof (fnv32a_range (namespace +:+ "/" +:+ name)) as Hh. fold h in Hh.
    assert (float_mul (float_shift (float_of_int h) 32) (float_of_int 2) = mkfloat64 (h * 2) (-32)) as ->.
    { unfold float_of_int. rewrite (round64_exact (mkfloat64 h 0)) by (simpl; lia). change (round64 (mkfloat64 2 0)) with (mkfloat64 2 0). apply (round64_exact (mkfloat64 (h * 2) (-32))). simpl; lia. }
    destruct (spread_bounds (-87) (mkfloat64 (h * 2) (-32)) M) as [Hs Hse];
      [simpl; lia|lia|lia|apply round64_representable|simpl; lia..|].
    pose proof (float_trunc_abs (-87) _ Hse ltac:(lia)) as Ht. change (- -87) with 87 in Ht. lia. }
  split; [|split; [exact Hb|lia]]. intros Hi. unfold j, inventoryJitter. rewrite decide_True; [done|].
  apply round64_nonpos. simpl. assert (mant (float_of_int interval) ≤ 0) by (by apply round64_nonpos). lia.
Qed.
