(* ===== verification/Api.v ===== *)
(** * The v1alpha1 API of tinkerbell.org

    The Kubernetes objects the controllers, the server and the agent exchange:
    [Workflow], [Template], [Hardware] and [WorkflowRuleSet]
    (api/v1alpha1/tinkerbell), with the condition methods of [WorkflowStatus].
    A Go pointer is an [option]; a Go map is a [gmap] ([nil] and the empty map
    are both the empty [gmap]); an enumeration Go keeps as a string type stays a
    [string] with its constants named. *)
From S2P Require Import Prelude GoStrings BmcTypes InventoryTypes.

(** ** Object metadata *)

Record OwnerReference := mkOwnerReference {
  or_APIVersion : string;
  or_Kind : string;
  or_Name : string;
  or_UID : string;
  or_Controller : option bool;
}.

(** [metav1.TypeMeta] and the fields of [metav1.ObjectMeta] the program reads
    or sets. *)
Record ObjectMeta := mkObjectMeta {
  om_APIVersion : string;
  om_Kind : string;
  om_Name : string;
  om_Namespace : string;
  om_UID : string;
  om_Labels : gmap string string;
  om_Annotations : gmap string string;
  om_OwnerReferences : list OwnerReference;
  om_DeletionTimestamp : option Z;
}.

(** ** Workflow *)

Abbreviation WorkflowState := string (only parsing).
Definition WorkflowStatePreparing : WorkflowState := "PREPARING".
Definition WorkflowStatePending : WorkflowState := "PENDING".
Definition WorkflowStateRunning : WorkflowState := "RUNNING".
Definition WorkflowStatePost : WorkflowState := "POST".
Definition WorkflowStateSuccess : WorkflowState := "SUCCESS".
Definition WorkflowStateFailed : WorkflowState := "FAILED".
Definition WorkflowStateTimeout : WorkflowState := "TIMEOUT".

Abbreviation WorkflowConditionType := string (only parsing).
Definition BootJobFailed : WorkflowConditionType := "BootJobFailed".
Definition BootJobComplete : WorkflowConditionType := "BootJobComplete".
Definition BootJobRunning : WorkflowConditionType := "BootJobRunning".
Definition BootJobSetupFailed : WorkflowConditionType := "BootJobSetupFailed".
Definition BootJobSetupComplete : WorkflowConditionType := "BootJobSetupComplete".
Definition ToggleAllowNetbootTrue : WorkflowConditionType := "AllowNetbootTrue".
Definition ToggleAllowNetbootFalse : WorkflowConditionType := "AllowNetbootFalse".
Definition TemplateRenderedSuccess : WorkflowConditionType := "TemplateRenderedSuccess".

Definition TemplateRenderingSuccessful : string := "successful".
Definition TemplateRenderingFailed : string := "failed".

Definition BootModeNetboot : string := "netboot".
Definition BootModeISO : string := "iso".
Definition BootModeIsoboot : string := "isoboot".
Definition BootModeCustomboot : string := "customboot".

(** [metav1.ConditionStatus]. *)
Definition metav1_ConditionTrue : string := "True".
Definition metav1_ConditionFalse : string := "False".

Record CustombootConfig := mkCustombootConfig {
  cb_PreparingActions : list bmc_Action;
  cb_PostActions : list bmc_Action;
}.

Record BootOptions := mkBootOptions {
  bo_ToggleAllowNetboot : bool;
  bo_ISOURL : string;
  bo_BootMode : string;
  bo_CustombootConfig : CustombootConfig;
}.

Definition BootOptions_IsZero (b : BootOptions) : bool :=
  bool_decide (bo_ISOURL b = "") && negb (bo_ToggleAllowNetboot b) && bool_decide (bo_BootMode b = "").

Definition CustombootConfig_IsZero (c : CustombootConfig) : bool :=
  bool_decide (cb_PreparingActions c = []) && bool_decide (cb_PostActions c = []).

Record WorkflowSpec := mkWorkflowSpec {
  spec_Disabled : option bool;
  spec_TemplateRef : string;
  spec_HardwareRef : string;
  spec_HardwareMap : gmap string string;
  spec_BootOptions : BootOptions;
}.

Record AllowNetbootStatus := mkAllowNetbootStatus {
  an_ToggledTrue : bool;
  an_ToggledFalse : bool;
}.

Record JobStatus := mkJobStatus {
  js_UID : string;
  js_Complete : bool;
  js_ExistingJobDeleted : bool;
}.

Record BootOptionsStatus := mkBootOptionsStatus {
  bs_AllowNetboot : AllowNetbootStatus;
  bs_Jobs : gmap string JobStatus;
}.

Record CurrentState := mkCurrentState {
  cs_AgentID : string;
  cs_TaskID : string;
  cs_ActionID : string;
  cs_State : WorkflowState;
  cs_ActionName : string;
  cs_TaskName : string;
}.

Record WorkflowCondition := mkWorkflowCondition {
  wc_Type : WorkflowConditionType;
  wc_Status : string;
  wc_Reason : string;
  wc_Message : string;
  wc_Time : option Z;
}.

Record ActionNamespaces := mkActionNamespaces {
  ns_Network : string;
  ns_PID : string;
}.

Record Action := mkAction {
  act_ID : string;
  act_Name : string;
  act_Image : string;
  act_Timeout : Z;
  act_Command : list string;
  act_Volumes : list string;
  act_Pid : string;
  act_Namespaces : option ActionNamespaces;
  act_Environment : gmap string string;
  act_State : WorkflowState;
  act_ExecutionStart : option Z;
  act_ExecutionStop : option Z;
  act_ExecutionDuration : string;
  act_Message : string;
}.

Record Task := mkTask {
  task_ID : string;
  task_Name : string;
  task_AgentID : string;
  task_Actions : list Action;
  task_Volumes : list string;
  task_Environment : gmap string string;
}.

Record WorkflowStatus := mkWorkflowStatus {
  st_AgentID : string;
  st_State : WorkflowState;
  st_BootOptions : BootOptionsStatus;
  st_TemplateRendering : string;
  st_GlobalTimeout : Z;
  st_GlobalExecutionStop : option Z;
  st_CurrentState : option CurrentState;
  st_Tasks : list Task;
  st_Conditions : list WorkflowCondition;
}.

Record Workflow := mkWorkflow {
  wf_Meta : ObjectMeta;
  wf_Spec : WorkflowSpec;
  wf_Status : WorkflowStatus;
}.

Definition wf_Name (w : Workflow) : string := om_Name (wf_Meta w).
Definition wf_Namespace (w : Workflow) : string := om_Namespace (wf_Meta w).

(** ** Template *)

Record Template := mkTemplate {
  tpl_Meta : ObjectMeta;
  tpl_Data : option string;
}.

(** ** Hardware *)

Record PXELINUX := mkPXELINUX { px_Config : string }.

Record RPI := mkRPI {
  rpi_ConfigTxt : string;
  rpi_FirmwarePath : string;
  rpi_SerialNum : string;
}.

Record IPXE := mkIPXE {
  ipxe_URL : string;
  ipxe_Contents : string;
  ipxe_Binary : string;
}.

Record OSIE := mkOSIE {
  osie_BaseURL : string;
  osie_Kernel : string;
  osie_Initrd : string;
  osie_KernelParams : list string;
}.

Record Netboot := mkNetboot {
  nb_AllowPXE : option bool;
  nb_AllowWorkflow : option bool;
  nb_IPXE : option IPXE;
  nb_OSIE : option OSIE;
  nb_PXELINUX : option PXELINUX;
  nb_RPI : option RPI;
}.

Record Isoboot := mkIsoboot { iso_SourceISO : string }.

Record IP := mkIP {
  ip_Address : string;
  ip_Netmask : string;
  ip_Gateway : string;
  ip_Family : Z;
}.

Record ClasslessStaticRoute := mkClasslessStaticRoute {
  csr_DestinationDescriptor : string;
  csr_Router : string;
}.

Record DHCP := mkDHCP {
  dhcp_MAC : string;
  dhcp_Hostname : string;
  dhcp_DomainName : string;
  dhcp_LeaseTime : Z;
  dhcp_NameServers : list string;
  dhcp_TimeServers : list string;
  dhcp_Arch : string;
  dhcp_UEFI : bool;
  dhcp_IfaceName : string;
  dhcp_IP : option IP;
  dhcp_VLANID : string;
  dhcp_ClasslessStaticRoutes : list ClasslessStaticRoute;
  dhcp_TFTPServerName : string;
  dhcp_BootFileName : string;
}.

Record Interface := mkInterface {
  if_Netboot : option Netboot;
  if_Isoboot : option Isoboot;
  if_DHCP : option DHCP;
  if_DisableDHCP : bool;
}.

Record Reference := mkReference {
  ref_Namespace : string;
  ref_Name : string;
  ref_Group : string;
  ref_Version : string;
  ref_Resource : string;
}.

Record MetadataManufacturer := mkMetadataManufacturer { mm_ID : string; mm_Slug : string }.

Record MetadataInstanceOperatingSystem := mkMetadataInstanceOperatingSystem {
  mos_Slug : string;
  mos_Distro : string;
  mos_Version : string;
  mos_ImageTag : string;
  mos_OsSlug : string;
}.

Record MetadataInstanceIP := mkMetadataInstanceIP {
  mip_Address : string;
  mip_Netmask : string;
  mip_Gateway : string;
  mip_Family : Z;
  mip_Public : bool;
  mip_Management : bool;
}.

Record MetadataInstanceStorageDiskPartition := mkMetadataInstanceStorageDiskPartition {
  mp_Label : string;
  mp_Number : Z;
  mp_Size : Z;
  mp_Start : Z;
  mp_TypeGUID : string;
}.

Record MetadataInstanceStorageDisk := mkMetadataInstanceStorageDisk {
  md_Device : string;
  md_WipeTable : bool;
  md_Partitions : list (option MetadataInstanceStorageDiskPartition);
}.

Record MetadataInstanceStorageRAID := mkMetadataInstanceStorageRAID {
  mr_Name : string;
  mr_Level : string;
  mr_Devices : list string;
  mr_Spare : Z;
}.

Record MetadataInstanceStorageFile := mkMetadataInstanceStorageFile {
  mf_Path : string;
  mf_Contents : string;
  mf_Mode : Z;
  mf_UID : Z;
  mf_GID : Z;
}.

Record MetadataInstanceStorageMountFilesystemOptions := mkMetadataInstanceStorageMountFilesystemOptions {
  mfo_Force : bool;
  mfo_Options : list string;
}.

Record MetadataInstanceStorageMount := mkMetadataInstanceStorageMount {
  mmt_Device : string;
  mmt_Format : string;
  mmt_Files : list (option MetadataInstanceStorageFile);
  mmt_Create : option MetadataInstanceStorageMountFilesystemOptions;
  mmt_Point : string;
}.

Record MetadataInstanceStorageFilesystem := mkMetadataInstanceStorageFilesystem {
  mfs_Mount : option MetadataInstanceStorageMount;
}.

Record MetadataInstanceStorage := mkMetadataInstanceStorage {
  ms_Disks : list (option MetadataInstanceStorageDisk);
  ms_Raid : list (option MetadataInstanceStorageRAID);
  ms_Filesystems : list (option MetadataInstanceStorageFilesystem);
}.

Record MetadataInstance := mkMetadataInstance {
  mi_ID : string;
  mi_State : string;
  mi_Hostname : string;
  mi_AllowPxe : bool;
  mi_Rescue : bool;
  mi_OperatingSystem : option MetadataInstanceOperatingSystem;
  mi_AlwaysPxe : bool;
  mi_IpxeScriptURL : string;
  mi_Ips : list (option MetadataInstanceIP);
  mi_Userdata : string;
  mi_CryptedRootPassword : string;
  mi_Tags : list string;
  mi_Storage : option MetadataInstanceStorage;
  mi_SSHKeys : list string;
  mi_NetworkReady : bool;
}.

Record MetadataCustom := mkMetadataCustom {
  mc_PreinstalledOperatingSystemVersion : option MetadataInstanceOperatingSystem;
  mc_PrivateSubnets : list string;
}.

Record MetadataFacility := mkMetadataFacility {
  mfc_PlanSlug : string;
  mfc_PlanVersionSlug : string;
  mfc_FacilityCode : string;
}.

Record HardwareMetadata := mkHardwareMetadata {
  hm_State : string;
  hm_BondingMode : Z;
  hm_Manufacturer : option MetadataManufacturer;
  hm_Instance : option MetadataInstance;
  hm_Custom : option MetadataCustom;
  hm_Facility : option MetadataFacility;
}.

Record Disk := mkDisk { disk_Device : string }.

Record AutoCapabilities := mkAutoCapabilities { auto_EnrollmentEnabled : bool }.

(** The spec of a Hardware. [hs_BMCRef] is the name of the referenced Machine;
    the [Resources] quantities of a third-party type are left out, no modelled
    operation reads them. *)
Record HardwareSpec := mkHardwareSpec {
  hs_AgentID : string;
  hs_Auto : AutoCapabilities;
  hs_BMCRef : option string;
  hs_Interfaces : list Interface;
  hs_References : gmap string Reference;
  hs_Metadata : option HardwareMetadata;
  hs_TinkVersion : Z;
  hs_Disks : list Disk;
  hs_UserData : option string;
  hs_VendorData : option string;
}.

Record Hardware := mkHardware {
  hw_Meta : ObjectMeta;
  hw_Spec : HardwareSpec;
  hw_Status : HardwareStatus;
}.

(** ** Selectors of a backend (pkg/data/data.go) *)

Record HardwareFilter := mkHardwareFilter {
  hf_InNamespace : string;
  hf_ByName : string;
  hf_ByAgentID : string;
  hf_ByMACAddress : string;
  hf_ByIPAddress : string;
  hf_ByInstanceID : string;
}.

Record WorkflowFilter := mkWorkflowFilter { wfl_InNamespace : string; wfl_ByAgentID : string }.

Definition hw_Name (h : Hardware) : string := om_Name (hw_Meta h).
Definition hw_Namespace (h : Hardware) : string := om_Namespace (hw_Meta h).

(** ** WorkflowRuleSet *)

Record TemplateConfig := mkTemplateConfig {
  tc_AgentValue : string;
  tc_KVs : gmap string string;
  tc_Ref : string;
}.

Record WorkflowRuleSetWorkflow := mkWorkflowRuleSetWorkflow {
  rw_Disabled : option bool;
  rw_Namespace : string;
  rw_AddAttributes : bool;
  rw_Template : TemplateConfig;
}.

Record WorkflowRuleSetSpec := mkWorkflowRuleSetSpec {
  rs_Rules : list string;
  rs_Workflow : WorkflowRuleSetWorkflow;
}.

Record WorkflowRuleSet := mkWorkflowRuleSet {
  wrs_Meta : ObjectMeta;
  wrs_Spec : WorkflowRuleSetSpec;
}.

(** ** Decidable equality

    [equality.Semantic.DeepEqual] on statuses is Leibniz equality of the model. *)

#[export] Instance AllowNetbootStatus_eq_dec : EqDecision AllowNetbootStatus.
Proof. solve_decision. Defined.
#[export] Instance JobStatus_eq_dec : EqDecision JobStatus.
Proof. solve_decision. Defined.
#[export] Instance BootOptionsStatus_eq_dec : EqDecision BootOptionsStatus.
Proof. solve_decision. Defined.
#[export] Instance CurrentState_eq_dec : EqDecision CurrentState.
Proof. solve_decision. Defined.
#[export] Instance WorkflowCondition_eq_dec : EqDecision WorkflowCondition.
Proof. solve_decision. Defined.
#[export] Instance ActionNamespaces_eq_dec : EqDecision ActionNamespaces.
Proof. solve_decision. Defined.
#[export] Instance Action_eq_dec : EqDecision Action.
Proof. solve_decision. Defined.
#[export] Instance Task_eq_dec : EqDecision Task.
Proof. solve_decision. Defined.
#[export] Instance WorkflowStatus_eq_dec : EqDecision WorkflowStatus.
Proof. solve_decision. Defined.

(** ** Zero values *)

Definition zero_ObjectMeta : ObjectMeta := mkObjectMeta "" "" "" "" "" ∅ ∅ [] None.
Definition zero_JobStatus : JobStatus := mkJobStatus "" false false.
Definition zero_BootOptionsStatus : BootOptionsStatus :=
  mkBootOptionsStatus (mkAllowNetbootStatus false false) ∅.
Definition zero_WorkflowStatus : WorkflowStatus :=
  mkWorkflowStatus "" "" zero_BootOptionsStatus "" 0 None None [] [].
Definition zero_CustombootConfig : CustombootConfig := mkCustombootConfig [] [].
Definition zero_BootOptions : BootOptions := mkBootOptions false "" "" zero_CustombootConfig.
Definition zero_WorkflowSpec : WorkflowSpec := mkWorkflowSpec None "" "" ∅ zero_BootOptions.
Definition zero_Workflow : Workflow := mkWorkflow zero_ObjectMeta zero_WorkflowSpec zero_WorkflowStatus.
Definition zero_HardwareMetadata : HardwareMetadata := mkHardwareMetadata "" 0 None None None None.
Definition zero_HardwareSpec : HardwareSpec :=
  mkHardwareSpec "" (mkAutoCapabilities false) None [] ∅ None 0 [] None None.
Definition zero_Hardware : Hardware := mkHardware zero_ObjectMeta zero_HardwareSpec zero_HardwareStatus.
Definition zero_DHCP : DHCP := mkDHCP "" "" "" 0 [] [] "" false "" None "" [] "" "".
Definition zero_Netboot : Netboot := mkNetboot None None None None None None.

(** ** Field updates *)

Definition set_AgentID (v : string) (s : WorkflowStatus) : WorkflowStatus :=
  mkWorkflowStatus v (st_State s) (st_BootOptions s) (st_TemplateRendering s) (st_GlobalTimeout s)
    (st_GlobalExecutionStop s) (st_CurrentState s) (st_Tasks s) (st_Conditions s).
Definition set_State (v : WorkflowState) (s : WorkflowStatus) : WorkflowStatus :=
  mkWorkflowStatus (st_AgentID s) v (st_BootOptions s) (st_TemplateRendering s) (st_GlobalTimeout s)
    (st_GlobalExecutionStop s) (st_CurrentState s) (st_Tasks s) (st_Conditions s).
Definition set_BootOptions (v : BootOptionsStatus) (s : WorkflowStatus) : WorkflowStatus :=
  mkWorkflowStatus (st_AgentID s) (st_State s) v (st_TemplateRendering s) (st_GlobalTimeout s)
    (st_GlobalExecutionStop s) (st_CurrentState s) (st_Tasks s) (st_Conditions s).
Definition set_TemplateRendering (v : string) (s : WorkflowStatus) : WorkflowStatus :=
  mkWorkflowStatus (st_AgentID s) (st_State s) (st_BootOptions s) v (st_GlobalTimeout s)
    (st_GlobalExecutionStop s) (st_CurrentState s) (st_Tasks s) (st_Conditions s).
Definition set_GlobalExecutionStop (v : option Z) (s : WorkflowStatus) : WorkflowStatus :=
  mkWorkflowStatus (st_AgentID s) (st_State s) (st_BootOptions s) (st_TemplateRendering s) (st_GlobalTimeout s)
    v (st_CurrentState s) (st_Tasks s) (st_Conditions s).
Definition set_CurrentState (v : option CurrentState) (s : WorkflowStatus) : WorkflowStatus :=
  mkWorkflowStatus (st_AgentID s) (st_State s) (st_BootOptions s) (st_TemplateRendering s) (st_GlobalTimeout s)
    (st_GlobalExecutionStop s) v (st_Tasks s) (st_Conditions s).
Definition set_Tasks (v : list Task) (s : WorkflowStatus) : WorkflowStatus :=
  mkWorkflowStatus (st_AgentID s) (st_State s) (st_BootOptions s) (st_TemplateRendering s) (st_GlobalTimeout s)
    (st_GlobalExecutionStop s) (st_CurrentState s) v (st_Conditions s).
Definition set_Conditions (v : list WorkflowCondition) (s : WorkflowStatus) : WorkflowStatus :=
  mkWorkflowStatus (st_AgentID s) (st_State s) (st_BootOptions s) (st_TemplateRendering s) (st_GlobalTimeout s)
    (st_GlobalExecutionStop s) (st_CurrentState s) (st_Tasks s) v.

Definition set_Jobs (v : gmap string JobStatus) (s : WorkflowStatus) : WorkflowStatus :=
  set_BootOptions (mkBootOptionsStatus (bs_AllowNetboot (st_BootOptions s)) v) s.
Definition set_AllowNetboot (v : AllowNetbootStatus) (s : WorkflowStatus) : WorkflowStatus :=
  set_BootOptions (mkBootOptionsStatus v (bs_Jobs (st_BootOptions s))) s.

Definition st_Jobs (s : WorkflowStatus) : gmap string JobStatus := bs_Jobs (st_BootOptions s).
Definition st_AllowNetboot (s : WorkflowStatus) : AllowNetbootStatus := bs_AllowNetboot (st_BootOptions s).

(** [w.Status = f w.Status]. *)
Definition upd_Status (f : WorkflowStatus → WorkflowStatus) (w : Workflow) : Workflow :=
  mkWorkflow (wf_Meta w) (wf_Spec w) (f (wf_Status w)).

(** [Jobs[name]] reads the zero value when the key is absent. *)
Definition job_status (s : WorkflowStatus) (name : string) : JobStatus :=
  default zero_JobStatus (st_Jobs s !! name).

Definition set_job_status (name : string) (j : JobStatus) (s : WorkflowStatus) : WorkflowStatus :=
  set_Jobs (<[name := j]> (st_Jobs s)) s.

(** ** Conditions of a workflow *)

Definition HasCondition (wct : WorkflowConditionType) (cs : string) (w : WorkflowStatus) : bool :=
  match find_key wc_Type wct (st_Conditions w) with
  | Some (_, c) => bool_decide (wc_Status c = cs)
  | None => false
  end.

Definition SetCondition (wc : WorkflowCondition) (w : WorkflowStatus) : WorkflowStatus :=
  match find_key wc_Type (wc_Type wc) (st_Conditions w) with
  | Some (index, _) => set_Conditions (<[index := wc]> (st_Conditions w)) w
  | None => set_Conditions (st_Conditions w ++ [wc]) w
  end.

Definition SetConditionIfDifferent (wc : WorkflowCondition) (w : WorkflowStatus) : WorkflowStatus :=
  match find_key wc_Type (wc_Type wc) (st_Conditions w) with
  | Some (index, c) =>
      if decide (wc_Status c = wc_Status wc ∧ wc_Reason c = wc_Reason wc ∧ wc_Message c = wc_Message wc)
      then w
      else set_Conditions (<[index := wc]> (st_Conditions w)) w
  | None => set_Conditions (st_Conditions w ++ [wc]) w
  end.

(** ** Lemmas on conditions *)

Lemma SetCondition_eq wc w :
  SetCondition wc w = set_Conditions (upsert wc_Type (wc_Type wc) (λ _, wc) wc (st_Conditions w)) w.
Proof. unfold SetCondition, upsert. by destruct (find_key _ _ _) as [[i c]|]. Qed.

Lemma set_Conditions_id w : set_Conditions (st_Conditions w) w = w.
Proof. by destruct w. Qed.

(** [SetConditionIfDifferent] touches the conditions only. *)
Lemma SetConditionIfDifferent_frame wc w :
  ∃ cs, SetConditionIfDifferent wc w = set_Conditions cs w.
Proof.
  unfold SetConditionIfDifferent. destruct (find_key _ _ _) as [[i c]|]; [|eauto].
  case_decide; [exists (st_Conditions w); by rewrite set_Conditions_id|eauto].
Qed.

(** Unless the stored condition agrees on everything but its time, the two
    setters coincide. *)
Lemma SetConditionIfDifferent_eq wc w :
  SetConditionIfDifferent wc w =
    match find_key wc_Type (wc_Type wc) (st_Conditions w) with
    | Some (_, c) =>
        if decide (wc_Status c = wc_Status wc ∧ wc_Reason c = wc_Reason wc ∧ wc_Message c = wc_Message wc)
        then w else SetCondition wc w
    | None => SetCondition wc w
    end.
Proof.
  unfold SetConditionIfDifferent, SetCondition.
  by destruct (find_key _ _ _) as [[i c]|].
Qed.

Lemma find_SetCondition_eq wc w :
  snd <$> find_key wc_Type (wc_Type wc) (st_Conditions (SetCondition wc w)) = Some wc.
Proof.
  rewrite SetCondition_eq. simpl.
  destruct (find_upsert_eq wc_Type (wc_Type wc) (λ _, wc) wc (st_Conditions w)) as (c & Hc & _); auto.
Qed.

Lemma find_SetCondition_ne wc w t :
  t ≠ wc_Type wc →
  snd <$> find_key wc_Type t (st_Conditions (SetCondition wc w)) = snd <$> find_key wc_Type t (st_Conditions w).
Proof. intros Hne. rewrite SetCondition_eq. simpl. by apply find_upsert_ne. Qed.

Lemma HasCondition_find t s w :
  HasCondition t s w =
    match snd <$> find_key wc_Type t (st_Conditions w) with
    | Some c => bool_decide (wc_Status c = s)
    | None => false
    end.
Proof. unfold HasCondition. by destruct (find_key _ _ _) as [[i c]|]. Qed.

Definition conditions_wf (w : WorkflowStatus) : Prop := NoDup (wc_Type <$> st_Conditions w).

Lemma SetCondition_wf wc w : conditions_wf w → conditions_wf (SetCondition wc w).
Proof. unfold conditions_wf. rewrite SetCondition_eq. simpl. apply upsert_NoDup; auto. Qed.

Lemma SetConditionIfDifferent_wf wc w : conditions_wf w → conditions_wf (SetConditionIfDifferent wc w).
Proof.
  intros H. rewrite SetConditionIfDifferent_eq.
  destruct (find_key _ _ _) as [[i c]|]; [case_decide|]; auto using SetCondition_wf.
Qed.

#[export] Hint Resolve SetCondition_wf SetConditionIfDifferent_wf : tink.
