(* ===== verification/BmcApi.v ===== *)
(** * The v1alpha1 API of bmc.tinkerbell.org: Machine, Job and Task

    The objects Rufio reconciles (api/v1alpha1/bmc) and their condition methods.
    A condition option ([WithJobConditionMessage] and its siblings) is a function
    on the condition, applied after the status is set. *)
From S2P Require Import Prelude GoStrings BmcTypes Api.

(** ** Connections *)

Definition On : string := "on".
Definition Off : string := "off".
Definition PowerUnknown : string := "unknown".

Definition Contactable : string := "Contactable".
Definition ConditionTrue : string := "True".
Definition ConditionFalse : string := "False".

Record SecretReference := mkSecretReference { sr_Name : string; sr_Namespace : string }.

Record RedfishOptions := mkRedfishOptions {
  rf_Port : Z;
  rf_UseBasicAuth : bool;
  rf_SystemName : string;
}.

Record IPMITOOLOptions := mkIPMITOOLOptions {
  ipmi_Port : Z;
  ipmi_CipherSuite : string;
}.

Record IntelAMTOptions := mkIntelAMTOptions {
  amt_Port : Z;
  amt_HostScheme : string;
}.

Record RequestOpts := mkRequestOpts {
  rq_HTTPContentType : string;
  rq_HTTPMethod : string;
  rq_StaticHeaders : gmap string (list string);
  rq_TimestampFormat : string;
  rq_TimestampHeader : string;
}.

Record SignatureOpts := mkSignatureOpts {
  sg_HeaderName : string;
  sg_AppendAlgoToHeaderDisabled : bool;
  sg_IncludedPayloadHeaders : list string;
}.

Record HMACOpts := mkHMACOpts {
  hmac_PrefixSigDisabled : bool;
  hmac_Secrets : gmap string (list SecretReference);
}.

Record ExperimentalOpts := mkExperimentalOpts {
  exp_CustomRequestPayload : string;
  exp_DotPath : string;
}.

Record RPCOptions := mkRPCOptions {
  rpc_ConsumerURL : string;
  rpc_LogNotificationsDisabled : bool;
  rpc_Request : option RequestOpts;
  rpc_Signature : option SignatureOpts;
  rpc_HMAC : option HMACOpts;
  rpc_Experimental : option ExperimentalOpts;
}.

Record HomeAssistantOptions := mkHomeAssistantOptions {
  ha_SwitchEntityID : string;
  ha_PowerOperationDelaySeconds : Z;
}.

Record ProviderOptions := mkProviderOptions {
  po_PreferredOrder : list string;
  po_IntelAMT : option IntelAMTOptions;
  po_IPMITOOL : option IPMITOOLOptions;
  po_Redfish : option RedfishOptions;
  po_RPC : option RPCOptions;
  po_HomeAssistant : option HomeAssistantOptions;
}.

Record Connection := mkConnection {
  conn_Host : string;
  conn_Port : Z;
  conn_AuthSecretRef : SecretReference;
  conn_InsecureTLS : bool;
  conn_ProviderOptions : option ProviderOptions;
}.

(** ** Machine *)

Record MachineCondition := mkMachineCondition {
  mcond_Type : string;
  mcond_Status : string;
  mcond_LastUpdateTime : Z;
  mcond_Message : string;
}.

Record MachineStatus := mkMachineStatus {
  mst_Power : string;
  mst_Conditions : list MachineCondition;
}.

Record Machine := mkMachine {
  m_Meta : ObjectMeta;
  m_Connection : Connection;
  m_Status : MachineStatus;
}.

(** ** Job *)

Definition JobCompleted : string := "Completed".
Definition JobFailed : string := "Failed".
Definition JobRunning : string := "Running".

Record MachineRef := mkMachineRef { mref_Name : string; mref_Namespace : string }.

Record JobCondition := mkJobCondition {
  jc_Type : string;
  jc_Status : string;
  jc_Message : string;
}.

Record JobSpec := mkJobSpec {
  jspec_MachineRef : MachineRef;
  jspec_Tasks : list bmc_Action;
}.

(** [bmc.JobStatus]. *)
Record bmc_JobStatus := mkbmc_JobStatus {
  jst_Conditions : list JobCondition;
  jst_StartTime : option Z;
  jst_CompletionTime : option Z;
}.

Record Job := mkJob {
  job_Meta : ObjectMeta;
  job_Spec : JobSpec;
  job_Status : bmc_JobStatus;
}.

(** ** Task *)

Definition TaskCompleted : string := "Completed".
Definition TaskFailed : string := "Failed".

Record TaskCondition := mkTaskCondition {
  tcond_Type : string;
  tcond_Status : string;
  tcond_Message : string;
}.

Record TaskSpec := mkTaskSpec {
  tspec_Task : bmc_Action;
  tspec_Connection : Connection;
}.

Record TaskStatus := mkTaskStatus {
  tst_Conditions : list TaskCondition;
  tst_StartTime : option Z;
  tst_CompletionTime : option Z;
}.

(** [bmc.Task]. *)
Record bmc_Task := mkbmc_Task {
  bt_Meta : ObjectMeta;
  bt_Spec : TaskSpec;
  bt_Status : TaskStatus;
}.

Definition zero_SecretReference : SecretReference := mkSecretReference "" "".
Definition zero_Connection : Connection := mkConnection "" 0 zero_SecretReference false None.
Definition zero_bmc_JobStatus : bmc_JobStatus := mkbmc_JobStatus [] None None.
Definition zero_TaskStatus : TaskStatus := mkTaskStatus [] None None.

(** ** Methods *)

Definition apply_opts {C} (opts : list (C → C)) (c : C) : C := foldl (λ c f, f c) c opts.

Definition Job_SetCondition (cType status : string) (opts : list (JobCondition → JobCondition))
    (j : Job) : Job :=
  let conds := jst_Conditions (job_Status j) in
  let upd c := apply_opts opts (mkJobCondition (jc_Type c) status (jc_Message c)) in
  mkJob (job_Meta j) (job_Spec j)
    (mkbmc_JobStatus (upsert jc_Type cType upd (mkJobCondition cType "" "") conds)
       (jst_StartTime (job_Status j)) (jst_CompletionTime (job_Status j))).

Definition WithJobConditionMessage (m : string) (c : JobCondition) : JobCondition :=
  mkJobCondition (jc_Type c) (jc_Status c) m.

Definition Job_HasCondition (j : Job) (cType cStatus : string) : bool :=
  match find_key jc_Type cType (jst_Conditions (job_Status j)) with
  | Some (_, c) => bool_decide (jc_Status c = cStatus)
  | None => false
  end.

Definition FormatTaskName (job : Job) (n : nat) : string :=
  om_Name (job_Meta job) +:+ "-task-" +:+ Itoa (Z.of_nat n).

Definition Task_SetCondition (cType status : string) (opts : list (TaskCondition → TaskCondition))
    (t : bmc_Task) : bmc_Task :=
  let conds := tst_Conditions (bt_Status t) in
  let upd c := apply_opts opts (mkTaskCondition (tcond_Type c) status (tcond_Message c)) in
  mkbmc_Task (bt_Meta t) (bt_Spec t)
    (mkTaskStatus (upsert tcond_Type cType upd (mkTaskCondition cType "" "") conds)
       (tst_StartTime (bt_Status t)) (tst_CompletionTime (bt_Status t))).

Definition WithTaskConditionMessage (m : string) (c : TaskCondition) : TaskCondition :=
  mkTaskCondition (tcond_Type c) (tcond_Status c) m.

Definition Task_HasCondition (t : bmc_Task) (cType cStatus : string) : bool :=
  match find_key tcond_Type cType (tst_Conditions (bt_Status t)) with
  | Some (_, c) => bool_decide (tcond_Status c = cStatus)
  | None => false
  end.

(** The update time moves only when the status changes; [now] is [metav1.Now()]. *)
Definition Machine_SetCondition (now : Z) (cType status : string)
    (opts : list (MachineCondition → MachineCondition)) (bm : Machine) : Machine :=
  let conds := mst_Conditions (m_Status bm) in
  let upd c :=
    apply_opts opts
      (if decide (mcond_Status c = status) then c
       else mkMachineCondition (mcond_Type c) status now (mcond_Message c)) in
  mkMachine (m_Meta bm) (m_Connection bm)
    (mkMachineStatus (mst_Power (m_Status bm))
       (upsert mcond_Type cType upd (mkMachineCondition cType "" time_zero "") conds)).

Definition WithMachineConditionMessage (m : string) (c : MachineCondition) : MachineCondition :=
  mkMachineCondition (mcond_Type c) (mcond_Status c) (mcond_LastUpdateTime c) m.

(** ** Lemmas *)

(** Options that keep a condition's type and status, as the message options do. *)
Definition keeps {C} (ty st : C → string) (f : C → C) : Prop :=
  ∀ c, ty (f c) = ty c ∧ st (f c) = st c.

Lemma apply_opts_keeps {C} (ty st : C → string) opts c :
  Forall (keeps ty st) opts → ty (apply_opts opts c) = ty c ∧ st (apply_opts opts c) = st c.
Proof.
  revert c. induction opts as [|f opts IH]; intros c H; [done|].
  apply Forall_cons in H as [Hf H]. unfold apply_opts in *. simpl.
  destruct (Hf c) as [<- <-]. by apply IH.
Qed.

Lemma WithJobConditionMessage_keeps m : keeps jc_Type jc_Status (WithJobConditionMessage m).
Proof. done. Qed.
Lemma WithTaskConditionMessage_keeps m : keeps tcond_Type tcond_Status (WithTaskConditionMessage m).
Proof. done. Qed.
Lemma WithMachineConditionMessage_keeps m :
  keeps mcond_Type mcond_Status (WithMachineConditionMessage m).
Proof. done. Qed.
#[export] Hint Resolve WithJobConditionMessage_keeps WithTaskConditionMessage_keeps
  WithMachineConditionMessage_keeps Forall_nil_2 Forall_cons_2 : tink.

(** Setting a condition makes it hold with that status and leaves every other
    type as it was. *)
Lemma Job_HasCondition_set cType status opts j t s :
  Forall (keeps jc_Type jc_Status) opts →
  Job_HasCondition (Job_SetCondition cType status opts j) t s =
    if decide (t = cType) then bool_decide (status = s) else Job_HasCondition j t s.
Proof.
  intros Ho. apply (has_upsert jc_Type jc_Status); [done|].
  intros c. by apply (apply_opts_keeps jc_Type jc_Status opts (mkJobCondition _ status _)).
Qed.

Lemma Task_HasCondition_set cType status opts t ty s :
  Forall (keeps tcond_Type tcond_Status) opts →
  Task_HasCondition (Task_SetCondition cType status opts t) ty s =
    if decide (ty = cType) then bool_decide (status = s) else Task_HasCondition t ty s.
Proof.
  intros Ho. apply (has_upsert tcond_Type tcond_Status); [done|].
  intros c. by apply (apply_opts_keeps tcond_Type tcond_Status opts (mkTaskCondition _ status _)).
Qed.

Definition Machine_HasCondition (bm : Machine) (ty s : string) : bool :=
  has_key mcond_Type mcond_Status (mst_Conditions (m_Status bm)) ty s.

Lemma Machine_HasCondition_set now cType status opts bm ty s :
  Forall (keeps mcond_Type mcond_Status) opts →
  Machine_HasCondition (Machine_SetCondition now cType status opts bm) ty s =
    if decide (ty = cType) then bool_decide (status = s) else Machine_HasCondition bm ty s.
Proof.
  intros Ho. apply (has_upsert mcond_Type mcond_Status); [done|]. intros c.
  destruct (apply_opts_keeps mcond_Type mcond_Status opts
    (if decide (mcond_Status c = status) then c
     else mkMachineCondition (mcond_Type c) status now (mcond_Message c)) Ho) as [-> ->].
  by case_decide.
Qed.
