(* ===== verification/Template.v ===== *)
(** * Workflow templates

    tink/controller/internal/workflow: the template's own types (types.go), its
    validation (template_validator.go), the size-limited rendering and the
    helper functions (template_funcs.go), the reference rules (lists.go) and the
    conversion of a rendered template to a workflow status (convert.go).

    The template engine, the YAML decoder, the image reference parser, the rule
    matcher and the JSON encoder are parameters, collected in [TemplateEnv]. *)
From S2P Require Import Prelude GoStrings BmcTypes Api.

(** ** types.go *)

Record tpl_Action := mktpl_Action {
  ya_Name : string;
  ya_Image : string;
  ya_Timeout : Z;
  ya_Command : list string;
  ya_OnTimeout : list string;
  ya_OnFailure : list string;
  ya_Volumes : list string;
  ya_Environment : gmap string string;
  ya_Pid : string;
  ya_Namespaces : ActionNamespaces;
}.

Record tpl_Task := mktpl_Task {
  yt_Name : string;
  yt_WorkerAddr : string;
  yt_Actions : list tpl_Action;
  yt_Volumes : list string;
  yt_Environment : gmap string string;
}.

Record tpl_Workflow := mktpl_Workflow {
  yw_Version : string;
  yw_Name : string;
  yw_ID : string;
  yw_GlobalTimeout : Z;
  yw_Tasks : list tpl_Task;
}.

(** ** Data offered to a template *)

Record templateHardwareData := mktemplateHardwareData {
  th_Disks : list string;
  th_Interfaces : list Interface;
  th_UserData : string;
  th_Metadata : HardwareMetadata;
  th_VendorData : string;
}.

(** [pointerToValue]: the zero value for a nil pointer. *)
Definition pointerToValue {V} (zero : V) (ptr : option V) : V :=
  match ptr with
  | None => zero
  | Some v => v
  end.

Definition toTemplateHardwareData (hardware : Hardware) : templateHardwareData :=
  let spec := hw_Spec hardware in
  {| th_Disks := disk_Device <$> hs_Disks spec;
     th_Interfaces := hs_Interfaces spec;
     th_UserData := pointerToValue "" (hs_UserData spec);
     th_Metadata := pointerToValue zero_HardwareMetadata (hs_Metadata spec);
     th_VendorData := pointerToValue "" (hs_VendorData spec) |}.

(** ** lists.go: the event a reference rule is matched against *)

Record source := mksource { src_Name : string; src_Namespace : string }.

Record evaluationData := mkevaluationData {
  ed_Source : source;
  ed_Reference : Reference;
}.

(** What the code calls and does not define. [json] are decoded JSON values. *)
Class TemplateEnv := {
  json : Type;
  tmpl : Type;
  data_value : Type;
  (** [template.New(name).Option(..).Funcs(..).Parse(text)] *)
  tmpl_Parse : string → string → res tmpl;
  (** [t.Execute(w, data)]: the chunks it writes, in order, and the error it
      ends with when every write succeeds. *)
  tmpl_Execute : tmpl → data_value → list string * option error;
  (** [yaml.Unmarshal] into a [Workflow] *)
  yaml_Unmarshal : string → res tpl_Workflow;
  (** [reference.ParseNormalizedNamed] *)
  ParseNormalizedNamed : string → option error;
  (** quamina: [AddPattern(name, rule)] and [MatchesForEvent] on the rules
      added, whose matches are the pattern names *)
  AddPattern : string → option error;
  MatchesForEvent : list string → string → res (list string);
  json_Marshal_evaluationData : evaluationData → res string;
  (** how the values placed in the data map become template data *)
  data_string : string → data_value;
  data_map : gmap string data_value → data_value;
  data_hardware : templateHardwareData → data_value;
  data_json : json → data_value;
  data_templateData : HardwareSpec → data_value;
  (** [json.Marshal] then [json.Unmarshal] into a map *)
  structToMap : Hardware → res json;
  json_empty : json;
  (** the nil map *)
  json_nil : json;
}.

Section template.
Context `{TE : TemplateEnv}.

(** ** template_funcs.go *)

Definition maxRenderBytes : nat := N.to_nat (256 * 1024).

Record limitedWriter := mklimitedWriter { lw_buf : string; lw_limit : nat }.

Definition limitedWriter_Write (w : limitedWriter) (p : string) : limitedWriter * option error :=
  if decide (lw_limit w < strlen (lw_buf w) + strlen p)
  then (w, Some (ErrNew ("rendered template exceeds " +:+ Itoa (Z.of_nat (lw_limit w)) +:+ " bytes")))
  else (mklimitedWriter (lw_buf w +:+ p) (lw_limit w), None).

(** Execution stops at the first failing write. *)
Fixpoint write_chunks (w : limitedWriter) (chunks : list string) : limitedWriter * option error :=
  match chunks with
  | [] => (w, None)
  | c :: chunks' =>
      match limitedWriter_Write w c with
      | (w', None) => write_chunks w' chunks'
      | (w', Some e) => (w', Some e)
      end
  end.

Definition renderTemplate (name tmplStr : string) (data : data_value) : res string :=
  match tmpl_Parse name tmplStr with
  | inl err => inl err
  | inr t =>
      let (chunks, end_err) := tmpl_Execute t data in
      match write_chunks (mklimitedWriter "" maxRenderBytes) chunks with
      | (_, Some err) => inl err
      | (w, None) => match end_err with Some err => inl err | None => inr (lw_buf w) end
      end
  end.

Definition last_byte_is_digit (dev : string) : bool :=
  match last (bytes_of dev) with
  | Some c => is_digit c
  | None => false
  end.

Definition formatPartition (dev : string) (partition : Z) : string :=
  if HasPrefix dev "/dev/disk/" then dev +:+ "-part" +:+ Itoa partition
  else if last_byte_is_digit dev then dev +:+ "p" +:+ Itoa partition
  else dev +:+ Itoa partition.

(** ** template_validator.go *)

Definition hasValidLength (name : string) : bool :=
  bool_decide (0 < strlen name) && bool_decide (strlen name < 200).

Definition errInvalidLength (name : string) : error :=
  ErrNew ("name cannot be empty or have more than 200 characters: " +:+ name).

Definition validateImageName (name : string) : option error := ParseNormalizedNamed name.

(** The inner loop, with the names seen so far. *)
Fixpoint validate_actions (actionNameMap : gset string) (actions : list tpl_Action) : option error :=
  match actions with
  | [] => None
  | action :: rest =>
      if negb (hasValidLength (ya_Name action)) then Some (errInvalidLength (ya_Name action))
      else match validateImageName (ya_Image action) with
      | Some err => Some (ErrNew ("invalid action image (" +:+ ya_Image action +:+ "): " +:+ error_msg err))
      | None =>
          if decide (ya_Name action ∈ actionNameMap)
          then Some (ErrNew ("two actions in a task cannot have same name: " +:+ ya_Name action))
          else validate_actions ({[ ya_Name action ]} ∪ actionNameMap) rest
      end
  end.

Fixpoint validate_tasks (taskNameMap : gset string) (tasks : list tpl_Task) : option error :=
  match tasks with
  | [] => None
  | task :: rest =>
      if negb (hasValidLength (yt_Name task)) then Some (errInvalidLength (yt_Name task))
      else if decide (yt_Name task ∈ taskNameMap)
      then Some (ErrNew ("two tasks in a template cannot have same name (" +:+ yt_Name task +:+ ")"))
      else match validate_actions ∅ (yt_Actions task) with
      | Some err => Some err
      | None => validate_tasks ({[ yt_Name task ]} ∪ taskNameMap) rest
      end
  end.

Definition validate (wf : tpl_Workflow) : option error :=
  if negb (hasValidLength (yw_Name wf)) then Some (errInvalidLength (yw_Name wf))
  else match yw_Tasks wf with
  | [] => Some (ErrNew "template must have at least one task defined")
  | tasks => validate_tasks ∅ tasks
  end.

Definition parse (yamlContent : string) : res tpl_Workflow :=
  match yaml_Unmarshal yamlContent with
  | inl err => inl (ErrWrap "parsing yaml data: err: " err)
  | inr workflow =>
      match validate workflow with
      | Some err => inl (ErrWrap "validating workflow template: " err)
      | None => inr workflow
      end
  end.

Definition renderTemplateHardware (templateID templateData : string) (hardware : data_value)
    : res tpl_Workflow :=
  match renderTemplate "workflow-template" templateData hardware with
  | inl err => inl (ErrWrap ("failed to parse template with ID " +:+ templateID +:+ ": err: ") err)
  | inr rendered =>
      match parse rendered with
      | inl err => inl err
      | inr wf =>
          if decide (Exists (λ task, yt_WorkerAddr task = "") (yw_Tasks wf))
          then inl (ErrNew "failed to render template, empty hardware address")
          else inr wf
      end
  end.

(** ** lists.go *)

(** [AddPattern] for every rule, stopping at the first failure. *)
Fixpoint add_patterns (rules : list string) : option error :=
  match rules with
  | [] => None
  | r :: rules' =>
      match AddPattern r with
      | Some err => Some (ErrWrap ("error adding matching pattern: " +:+ r +:+ " err: ") err)
      | None => add_patterns rules'
      end
  end.

Definition evaluate (rules : list string) (data : evaluationData) : res (bool * string) :=
  match add_patterns rules with
  | Some err => inl err
  | None =>
      match json_Marshal_evaluationData data with
      | inl err => inl (ErrWrap "error while marshalling data: " err)
      | inr jsonEvent =>
          match MatchesForEvent rules jsonEvent with
          | inl err => inl (ErrWrap "error while matching pattern: " err)
          | inr [] => inr (false, "")
          | inr matches => inr (true, Join matches ";")
          end
      end
  end.

(** ** convert.go

    [ulid.Make().String()] draws from a supply of identifiers, threaded as the
    state [W]. *)
Section convert.
Context {W : Type} (ulid_Make : W → string * W).

Definition convert_action (action : tpl_Action) (w : W) : Action * W :=
  let '(id, w) := ulid_Make w in
  ({| act_ID := id;
      act_Name := ya_Name action;
      act_Image := ya_Image action;
      act_Timeout := ya_Timeout action;
      act_Command := ya_Command action;
      act_Volumes := ya_Volumes action;
      act_Pid := ya_Pid action;
      act_Namespaces :=
        if decide (ns_Network (ya_Namespaces action) ≠ "" ∨ ns_PID (ya_Namespaces action) ≠ "")
        then Some (mkActionNamespaces (ns_Network (ya_Namespaces action)) (ns_PID (ya_Namespaces action)))
        else None;
      act_Environment := ya_Environment action;
      act_State := WorkflowStatePending;
      act_ExecutionStart := None;
      act_ExecutionStop := None;
      act_ExecutionDuration := "";
      act_Message := "" |}, w).

Fixpoint convert_actions (actions : list tpl_Action) (w : W) : list Action * W :=
  match actions with
  | [] => ([], w)
  | action :: rest =>
      let '(a, w) := convert_action action w in
      let '(l, w) := convert_actions rest w in
      (a :: l, w)
  end.

Definition convert_task (task : tpl_Task) (w : W) : Task * W :=
  let '(actions, w) := convert_actions (yt_Actions task) w in
  let '(id, w) := ulid_Make w in
  ({| task_ID := id;
      task_Name := yt_Name task;
      task_AgentID := yt_WorkerAddr task;
      task_Actions := actions;
      task_Volumes := yt_Volumes task;
      task_Environment := yt_Environment task |}, w).

(** The loop over tasks, with the agent ID chosen so far. *)
Fixpoint convert_tasks (agentID : string) (tasks : list tpl_Task) (w : W) : list Task * string * W :=
  match tasks with
  | [] => ([], agentID, w)
  | task :: rest =>
      let '(t, w) := convert_task task w in
      let agentID := if decide (agentID = "") then yt_WorkerAddr task else agentID in
      let '(l, agentID, w) := convert_tasks agentID rest w in
      (t :: l, agentID, w)
  end.

Definition YAMLToStatus (wf : tpl_Workflow) (w : W) : WorkflowStatus * W :=
  let '(tasks, agentID, w) := convert_tasks "" (yw_Tasks wf) w in
  ({| st_AgentID := agentID;
      st_State := "";
      st_BootOptions := zero_BootOptionsStatus;
      st_TemplateRendering := "";
      st_GlobalTimeout := yw_GlobalTimeout wf;
      st_GlobalExecutionStop := None;
      st_CurrentState := None;
      st_Tasks := tasks;
      st_Conditions := [] |}, w).

(** The first [n] identifiers the supply hands out. *)
Fixpoint draw (n : nat) (w : W) : list string * W :=
  match n with
  | O => ([], w)
  | S n => let '(id, w) := ulid_Make w in let '(l, w) := draw n w in (id :: l, w)
  end.
End convert.
End template.

(** ** Rendering *)

(** The concatenation of the chunks of an execution. *)
Definition concat_chunks (chunks : list string) : string := foldr String.append "" chunks.

Lemma write_chunks_fits w chunks :
  strlen (lw_buf w) + strlen (concat_chunks chunks) ≤ lw_limit w →
  write_chunks w chunks = (mklimitedWriter (lw_buf w +:+ concat_chunks chunks) (lw_limit w), None).
Proof.
  revert w. induction chunks as [|c chunks IH]; intros [buf limit] H; simpl in *.
  - by rewrite string_app_nil_r.
  - rewrite strlen_app in H. unfold limitedWriter_Write; simpl.
    rewrite decide_False by lia. rewrite IH; simpl.
    + by rewrite string_app_assoc.
    + rewrite strlen_app. lia.
Qed.

Lemma write_chunks_overflows w chunks :
  strlen (lw_buf w) ≤ lw_limit w →
  lw_limit w < strlen (lw_buf w) + strlen (concat_chunks chunks) →
  ∃ w', write_chunks w chunks =
    (w', Some (ErrNew ("rendered template exceeds " +:+ Itoa (Z.of_nat (lw_limit w)) +:+ " bytes"))).
Proof.
  revert w. induction chunks as [|c chunks IH]; intros [buf limit] Hb H; simpl in *; [lia|].
  rewrite strlen_app in H. unfold limitedWriter_Write; simpl.
  case_decide; [by eexists|]. apply (IH (mklimitedWriter _ _)); simpl; rewrite strlen_app; lia.
Qed.

(** ** Validation *)

Section validation.
Context `{TE : TemplateEnv}.

Definition valid_action (a : tpl_Action) : Prop :=
  0 < strlen (ya_Name a) < 200 ∧ ParseNormalizedNamed (ya_Image a) = None.

Definition valid_task (t : tpl_Task) : Prop :=
  0 < strlen (yt_Name t) < 200 ∧ Forall valid_action (yt_Actions t) ∧ NoDup (ya_Name <$> yt_Actions t).

Definition valid_workflow (wf : tpl_Workflow) : Prop :=
  0 < strlen (yw_Name wf) < 200 ∧ yw_Tasks wf ≠ [] ∧
  Forall valid_task (yw_Tasks wf) ∧ NoDup (yt_Name <$> yw_Tasks wf).

Lemma hasValidLength_spec name : hasValidLength name = true ↔ 0 < strlen name < 200.
Proof. unfold hasValidLength. rewrite andb_true_iff, !bool_decide_eq_true. done. Qed.

Lemma validate_actions_spec seen actions :
  validate_actions seen actions = None ↔
    Forall valid_action actions ∧ NoDup (ya_Name <$> actions)
    ∧ (∀ a, a ∈ actions → ya_Name a ∉ seen).
Proof.
  revert seen. induction actions as [|a actions IH]; intros seen; cbn [validate_actions].
  { split; [intros _|done]. split_and!; [constructor|constructor|set_solver]. }
  rewrite Forall_cons, fmap_cons, NoDup_cons. unfold valid_action at 1, validateImageName.
  destruct (hasValidLength (ya_Name a)) eqn:Hl; cbn [negb]; last first.
  { split; [done|]. intros [[[?%hasValidLength_spec _] _] _]. congruence. }
  apply hasValidLength_spec in Hl as [Hl1 Hl2].
  destruct (ParseNormalizedNamed (ya_Image a)); [naive_solver|].
  case_decide as Hs; [split; [done|]; intros (_ & _ & H); exfalso; eapply (H a); set_solver|].
  rewrite IH. split.
  - intros (Hv & Hn & Hd). split_and!; try done.
    + intros (b & E & Hb)%list_elem_of_fmap. apply (Hd b Hb). set_solver.
    + intros b [->|Hb]%elem_of_cons; [done|]. specialize (Hd b Hb). set_solver.
  - intros ([_ Hv] & [Hna Hn] & Hd). split_and!; [done..|].
    intros b Hb. specialize (Hd b ltac:(set_solver)).
    assert (ya_Name b ≠ ya_Name a); [|set_solver].
    intros E. apply Hna. rewrite <-E. apply list_elem_of_fmap. eauto.
Qed.

Lemma validate_tasks_spec seen tasks :
  validate_tasks seen tasks = None ↔
    Forall valid_task tasks ∧ NoDup (yt_Name <$> tasks) ∧ (∀ t, t ∈ tasks → yt_Name t ∉ seen).
Proof.
  revert seen. induction tasks as [|a tasks IH]; intros seen; cbn [validate_tasks].
  { split; [intros _|done]. split_and!; [constructor|constructor|set_solver]. }
  rewrite Forall_cons, fmap_cons, NoDup_cons. unfold valid_task at 1.
  destruct (hasValidLength (yt_Name a)) eqn:Hl; cbn [negb]; last first.
  { split; [done|]. intros [[[?%hasValidLength_spec _] _] _]. congruence. }
  apply hasValidLength_spec in Hl as [Hl1 Hl2].
  case_decide as Hs; [split; [done|]; intros (_ & _ & H); exfalso; eapply (H a); set_solver|].
  destruct (validate_actions ∅ (yt_Actions a)) eqn:Ha.
  { split; [done|]. intros [[(_ & ? & ?) _] _].
    assert (validate_actions ∅ (yt_Actions a) = None); [|congruence].
    apply validate_actions_spec. set_solver. }
  apply validate_actions_spec in Ha as (Hav & Han & _). rewrite IH. split.
  - intros (Hv & Hn & Hd). split_and!; try done.
    + intros (b & E & Hb)%list_elem_of_fmap. apply (Hd b Hb). set_solver.
    + intros b [->|Hb]%elem_of_cons; [done|]. specialize (Hd b Hb). set_solver.
  - intros ([_ Hv] & [Hna Hn] & Hd). split_and!; [done..|].
    intros b Hb. specialize (Hd b ltac:(set_solver)).
    assert (yt_Name b ≠ yt_Name a); [|set_solver].
    intros E. apply Hna. rewrite <-E. apply list_elem_of_fmap. eauto.
Qed.

Lemma validate_ok wf : validate wf = None ↔ valid_workflow wf.
Proof.
  unfold validate, valid_workflow.
  destruct (hasValidLength (yw_Name wf)) eqn:Hl; cbn [negb]; last first.
  { split; [done|]. intros [?%hasValidLength_spec _]. congruence. }
  apply hasValidLength_spec in Hl.
  destruct (yw_Tasks wf) as [|t ts] eqn:Ht; [naive_solver|]. rewrite <-Ht.
  rewrite validate_tasks_spec. rewrite Ht. naive_solver set_solver.
Qed.

(** A template accepted by [renderTemplateHardware] is valid and assigns a
    worker to each task. *)
Lemma renderTemplateHardware_valid id text data wf :
  renderTemplateHardware id text data = inr wf →
  validate wf = None ∧ Forall (λ t, yt_WorkerAddr t ≠ "") (yw_Tasks wf).
Proof.
  unfold renderTemplateHardware, parse.
  destruct (renderTemplate _ _ _) as [|rendered]; [done|].
  destruct (yaml_Unmarshal rendered) as [|wf']; [done|].
  destruct (validate wf') eqn:Hv; [done|].
  case_decide as Hw; [done|]. intros [= <-]. split; [done|].
  by apply not_Exists_Forall in Hw; [|solve_decision].
Qed.
End validation.

(** ** Conversion *)

(** Every identifier of a task list, in the order they are drawn. *)
Definition ids_of_tasks (ts : list Task) : list string :=
  t ← ts; (act_ID <$> task_Actions t) ++ [task_ID t].

Section conversion.
Context {W : Type} (mk : W → string * W).

Lemma draw_app n m w :
  draw mk (n + m) w =
    let '(l1, w1) := draw mk n w in let '(l2, w2) := draw mk m w1 in (l1 ++ l2, w2).
Proof.
  revert w. induction n as [|n IH]; intros w; simpl.
  - by destruct (draw mk m w).
  - destruct (mk w) as [id w1]. rewrite IH.
    destruct (draw mk n w1) as [l1 w2]. by destruct (draw mk m w2).
Qed.

Lemma convert_actions_ids actions w :
  draw mk (length actions) w =
    let '(l, w') := convert_actions mk actions w in (act_ID <$> l, w').
Proof.
  revert w. induction actions as [|a actions IH]; intros w; simpl; [done|].
  unfold convert_action. destruct (mk w) as [id w1]. rewrite IH.
  by destruct (convert_actions mk actions w1).
Qed.

Definition n_ids (tasks : list tpl_Task) : nat :=
  sum_list ((λ t, length (yt_Actions t) + 1) <$> tasks).

Lemma convert_tasks_ids agentID tasks w :
  draw mk (n_ids tasks) w =
    let '(l, _, w') := convert_tasks mk agentID tasks w in (ids_of_tasks l, w').
Proof.
  revert agentID w. induction tasks as [|t tasks IH]; intros agentID w; [done|].
  unfold n_ids; csimpl. rewrite !draw_app, convert_actions_ids. unfold convert_task.
  destruct (convert_actions mk (yt_Actions t) w) as [l1 w1]; simpl.
  destruct (mk w1) as [id w2]. fold (n_ids tasks).
  rewrite (IH (if decide (agentID = "") then yt_WorkerAddr t else agentID)).
  by destruct (convert_tasks mk _ tasks w2) as [[l2 ag] w3].
Qed.

(** The part of a converted task the template determines. *)
Definition same_action (y : tpl_Action) (a : Action) : Prop :=
  act_Name a = ya_Name y ∧ act_Image a = ya_Image y ∧ act_Timeout a = ya_Timeout y ∧
  act_Command a = ya_Command y ∧ act_Volumes a = ya_Volumes y ∧ act_Environment a = ya_Environment y ∧
  act_State a = WorkflowStatePending.

Definition same_task (y : tpl_Task) (t : Task) : Prop :=
  task_Name t = yt_Name y ∧ task_AgentID t = yt_WorkerAddr y ∧ task_Volumes t = yt_Volumes y ∧
  task_Environment t = yt_Environment y ∧ Forall2 same_action (yt_Actions y) (task_Actions t).

Lemma convert_actions_same actions w : Forall2 same_action actions (convert_actions mk actions w).1.
Proof.
  revert w. induction actions as [|a actions IH]; intros w; simpl; [constructor|].
  unfold convert_action. destruct (mk w) as [id w1]. specialize (IH w1).
  destruct (convert_actions mk actions w1) as [l w2]; simpl in *. by constructor.
Qed.

Lemma convert_tasks_same agentID tasks w :
  Forall2 same_task tasks (convert_tasks mk agentID tasks w).1.1.
Proof.
  revert agentID w. induction tasks as [|t tasks IH]; intros agentID w; simpl; [constructor|].
  unfold convert_task. pose proof (convert_actions_same (yt_Actions t) w) as Ha.
  destruct (convert_actions mk (yt_Actions t) w) as [l1 w1]. destruct (mk w1) as [id w2].
  set (ag := if decide _ then _ else _). specialize (IH ag w2).
  destruct (convert_tasks mk ag tasks w2) as [[l2 ag'] w3]; simpl in *. by constructor.
Qed.

Lemma convert_tasks_agentID agentID tasks w :
  (convert_tasks mk agentID tasks w).1.2 =
    if decide (agentID = "")
    then default "" (head (filter (λ a, a ≠ "") (yt_WorkerAddr <$> tasks)))
    else agentID.
Proof.
  revert agentID w. induction tasks as [|t tasks IH]; intros agentID w; [simpl; by case_decide|].
  simpl. destruct (convert_task mk t w) as [t' w1].
  set (ag := if decide _ then _ else _). specialize (IH ag w1).
  destruct (convert_tasks mk ag tasks w1) as [[l2 ag'] w3]; simpl in *. rewrite IH.
  unfold ag. rewrite filter_cons.
  destruct (decide (agentID = "")) as [->|]; [|by rewrite decide_False].
  destruct (decide (yt_WorkerAddr t = "")) as [->|].
  - by rewrite decide_False by tauto.
  - by rewrite decide_True.
Qed.
End conversion.

(** ** Main results *)

(** Rendering is exact or refused. When the engine parses the template and
    its execution ends without an error of its own, [renderTemplate] returns
    exactly the concatenation of what the engine wrote if that is at most
    256 KiB, and otherwise the size error, whatever the chunking. *)
Theorem renderTemplate_exact `{TE : TemplateEnv} name text data t chunks :
  tmpl_Parse name text = inr t →
  tmpl_Execute t data = (chunks, None) →
  renderTemplate name text data =
    if decide (strlen (concat_chunks chunks) ≤ maxRenderBytes)
    then inr (concat_chunks chunks)
    else inl (ErrNew "rendered template exceeds 262144 bytes").
Proof.
  intros Hp He. unfold renderTemplate. rewrite Hp, He. case_decide as Hl.
  - rewrite write_chunks_fits by (simpl; lia). done.
  - destruct (write_chunks_overflows (mklimitedWriter "" maxRenderBytes) chunks) as [w ->];
      [simpl; lia..|]. done.
Qed.

(** [validate] accepts exactly the well-formed templates: a name of 1 to
    199 bytes on the workflow, each task and each action, at least one task,
    parseable images, and no two tasks, nor two actions of a task, sharing a
    name. *)
Theorem validate_spec `{TE : TemplateEnv} wf : validate wf = None ↔ valid_workflow wf.
Proof. apply validate_ok. Qed.

(** C36: the status made from a rendered template. Its tasks and actions are the
    template's, in order, every action PENDING; all identifiers differ when the
    supply never repeats one; and the workflow is first bound to the agent of
    its first task, which is not empty. *)
Theorem YAMLToStatus_initial `{TE : TemplateEnv} {W} (mk : W → string * W) id text data wf w :
  renderTemplateHardware id text data = inr wf →
  (∀ n, NoDup (draw mk n w).1) →
  let st := (YAMLToStatus mk wf w).1 in
  Forall2 same_task (yw_Tasks wf) (st_Tasks st) ∧
  NoDup (ids_of_tasks (st_Tasks st)) ∧
  (∃ t ts, st_Tasks st = t :: ts ∧ st_AgentID st = task_AgentID t ∧ st_AgentID st ≠ "").
Proof.
  intros [Hv Hw]%renderTemplateHardware_valid Hids.
  apply validate_ok in Hv as (_ & Hne & _). unfold YAMLToStatus.
  specialize (Hids (n_ids (yw_Tasks wf))). rewrite (convert_tasks_ids mk "") in Hids.
  pose proof (convert_tasks_same mk "" (yw_Tasks wf) w) as Hs.
  pose proof (convert_tasks_agentID mk "" (yw_Tasks wf) w) as Ha.
  destruct (convert_tasks mk "" (yw_Tasks wf) w) as [[ts ag] w']; cbn [fst snd st_Tasks st_AgentID] in *.
  split_and!; [done..|]. destruct Hs as [|y t ys ts (_ & Hag & _) _]; [done|].
  exists t, ts. apply Forall_cons in Hw as [Hw _].
  rewrite decide_True, fmap_cons, filter_cons, decide_True in Ha by done.
  simpl in Ha. split_and!; congruence.
Qed.

(** A partition device never equals the disk it is on, and distinct
    partition numbers name distinct devices. *)
Theorem formatPartition_inj dev p q :
  formatPartition dev p ≠ dev ∧ (formatPartition dev p = formatPartition dev q → p = q).
Proof.
  assert (∀ suf, strlen suf ≠ 0 → dev +:+ suf ≠ dev) as Hne.
  { intros suf Hs E%(f_equal strlen). rewrite strlen_app in E. lia. }
  pose proof (Itoa_nonempty p). unfold formatPartition. repeat case_match; split.
  all: first [ apply Hne; rewrite ?strlen_app; simpl; lia
             | intros E; do 2 (apply string_app_inj_l in E || idtac); by apply Itoa_inj ].
Qed.
