(* ===== verification/KubeClient.v ===== *)
(** * The Kubernetes client of the workflow controller

    The controller-runtime client, the dynamic client, the clock, the backoff
    sleep and the ULID source are the environment of the controller. [KubeClient W]
    collects the operations the code calls, each a function of a world [W] that
    returns a result and the next world. Nothing is assumed of them: other
    writers may act between any two calls.

    [logged] turns a client into one that also records the writes asked of it,
    so that a theorem can speak about every write a reconciliation makes.
    [Mem] is an in-memory cluster, the concrete client of the witnesses. *)
From S2P Require Import Prelude GoStrings BmcTypes Api BmcApi Template.

Class KubeClient `{TE : TemplateEnv} (W : Type) := {
  kc_GetWorkflow (name ns : string) : W → res Workflow * W;
  (** [cc.Status().Patch(ctx, updated, MergeFrom(original))] *)
  kc_PatchWorkflowStatus (original updated : Workflow) : W → option error * W;
  kc_GetTemplate (name ns : string) : W → res Template * W;
  kc_GetHardware (name ns : string) : W → res Hardware * W;
  kc_UpdateHardware (h : Hardware) : W → option error * W;
  kc_GetJob (name ns : string) : W → res Job * W;
  kc_CreateJob (j : Job) : W → option error * W;
  kc_DeleteJob (name ns : string) : W → option error * W;
  (** [DeleteAllOf(&bmc.Task{}, MatchingLabels{"owner-name": owner}, InNamespace(ns))] *)
  kc_DeleteTasksOf (owner ns : string) : W → option error * W;
  (** a nil map is [None] *)
  kc_DynamicRead (ref : Reference) : W → option json * option error * W;
  kc_Now : W → Z * W;
  (** [time.Sleep(backoff.NextBackOff())] *)
  kc_Sleep : W → W;
  kc_Ulid : W → string * W;
}.

(** ** Recording writes *)

Inductive write :=
| WPatchStatus (original updated : Workflow)
| WUpdateHardware (h : Hardware)
| WCreateJob (j : Job)
| WDeleteJob (name ns : string)
| WDeleteTasksOf (owner ns : string).

(** A write and what the client answered. *)
Abbreviation entry := (write * option error)%type.

Section logged.
Context `{TE : TemplateEnv} {W : Type} (KC : KubeClient W).

Definition lread {A} (f : W → A * W) (wl : W * list entry) : A * (W * list entry) :=
  let '(a, w) := f wl.1 in (a, (w, wl.2)).

Definition lwrite (e : write) (f : W → option error * W) (wl : W * list entry)
    : option error * (W * list entry) :=
  let '(a, w) := f wl.1 in (a, (w, wl.2 ++ [(e, a)])).

Definition logged : KubeClient (W * list entry) := {|
  kc_GetWorkflow name ns := lread (kc_GetWorkflow name ns);
  kc_PatchWorkflowStatus o u := lwrite (WPatchStatus o u) (kc_PatchWorkflowStatus o u);
  kc_GetTemplate name ns := lread (kc_GetTemplate name ns);
  kc_GetHardware name ns := lread (kc_GetHardware name ns);
  kc_UpdateHardware h := lwrite (WUpdateHardware h) (kc_UpdateHardware h);
  kc_GetJob name ns := lread (kc_GetJob name ns);
  kc_CreateJob j := lwrite (WCreateJob j) (kc_CreateJob j);
  kc_DeleteJob name ns := lwrite (WDeleteJob name ns) (kc_DeleteJob name ns);
  kc_DeleteTasksOf o ns := lwrite (WDeleteTasksOf o ns) (kc_DeleteTasksOf o ns);
  kc_DynamicRead r := lread (kc_DynamicRead r);
  kc_Now := lread kc_Now;
  kc_Sleep wl := (kc_Sleep wl.1, wl.2);
  kc_Ulid := lread kc_Ulid;
|}.

Lemma lread_inv {A} (f : W → A * W) wl a wl' :
  lread f wl = (a, wl') → f wl.1 = (a, wl'.1) ∧ wl'.2 = wl.2.
Proof. unfold lread. destruct (f wl.1). by intros [= <- <-]. Qed.

Lemma lwrite_inv e f wl a wl' :
  lwrite e f wl = (a, wl') → f wl.1 = (a, wl'.1) ∧ wl'.2 = wl.2 ++ [(e, a)].
Proof. unfold lwrite. destruct (f wl.1). by intros [= <- <-]. Qed.
End logged.

(** ** An in-memory cluster *)

Record Mem := mkMem {
  mem_workflows : gmap (string * string) Workflow;
  mem_templates : gmap (string * string) Template;
  mem_hardware : gmap (string * string) Hardware;
  mem_jobs : gmap (string * string) Job;
  mem_tasks : gmap (string * string) bmc_Task;
  (** the next instant, identifier and UID *)
  mem_clock : Z;
  mem_ids : nat;
  (** hardware updates to refuse with a conflict *)
  mem_conflicts : nat;
}.

Definition not_found : error := ErrStatus StatusReasonNotFound "not found".
Definition conflict : error := ErrStatus StatusReasonConflict "conflict".
Definition already_exists : error := ErrStatus StatusReasonAlreadyExists "already exists".

Definition mem_get {A} (m : Mem → gmap (string * string) A) (name ns : string) (w : Mem) : res A * Mem :=
  (match m w !! (ns, name) with Some a => inr a | None => inl not_found end, w).

Definition with_workflows (v : gmap (string * string) Workflow) (w : Mem) : Mem :=
  mkMem v (mem_templates w) (mem_hardware w) (mem_jobs w) (mem_tasks w) (mem_clock w) (mem_ids w) (mem_conflicts w).
Definition with_hardware (v : gmap (string * string) Hardware) (n : nat) (w : Mem) : Mem :=
  mkMem (mem_workflows w) (mem_templates w) v (mem_jobs w) (mem_tasks w) (mem_clock w) (mem_ids w) n.
Definition with_jobs (v : gmap (string * string) Job) (w : Mem) : Mem :=
  mkMem (mem_workflows w) (mem_templates w) (mem_hardware w) v (mem_tasks w) (mem_clock w) (mem_ids w) (mem_conflicts w).
Definition with_tasks (v : gmap (string * string) bmc_Task) (w : Mem) : Mem :=
  mkMem (mem_workflows w) (mem_templates w) (mem_hardware w) (mem_jobs w) v (mem_clock w) (mem_ids w) (mem_conflicts w).
Definition tick (w : Mem) : Mem :=
  mkMem (mem_workflows w) (mem_templates w) (mem_hardware w) (mem_jobs w) (mem_tasks w)
    (mem_clock w + time_Second) (mem_ids w) (mem_conflicts w).
Definition next_id (w : Mem) : Mem :=
  mkMem (mem_workflows w) (mem_templates w) (mem_hardware w) (mem_jobs w) (mem_tasks w)
    (mem_clock w) (S (mem_ids w)) (mem_conflicts w).

Definition job_key (j : Job) : string * string := (om_Namespace (job_Meta j), om_Name (job_Meta j)).

Definition set_UID (uid : string) (m : ObjectMeta) : ObjectMeta :=
  mkObjectMeta (om_APIVersion m) (om_Kind m) (om_Name m) (om_Namespace m) uid (om_Labels m)
    (om_Annotations m) (om_OwnerReferences m) (om_DeletionTimestamp m).

Section mem.
Context `{TE : TemplateEnv}.

Definition Mem_client : KubeClient Mem := {|
  kc_GetWorkflow := mem_get mem_workflows;
  kc_PatchWorkflowStatus o u w :=
    match mem_workflows w !! (wf_Namespace o, wf_Name o) with
    | None => (Some not_found, w)
    | Some cur =>
        (None, with_workflows
           (<[(wf_Namespace o, wf_Name o) := mkWorkflow (wf_Meta cur) (wf_Spec cur) (wf_Status u)]>
              (mem_workflows w)) w)
    end;
  kc_GetTemplate := mem_get mem_templates;
  kc_GetHardware := mem_get mem_hardware;
  kc_UpdateHardware h w :=
    match mem_conflicts w with
    | S n => (Some conflict, with_hardware (mem_hardware w) n w)
    | O => (None, with_hardware (<[(hw_Namespace h, hw_Name h) := h]> (mem_hardware w)) O w)
    end;
  kc_GetJob := mem_get mem_jobs;
  kc_CreateJob j w :=
    match mem_jobs w !! job_key j with
    | Some _ => (Some already_exists, w)
    | None =>
        let j' := mkJob (set_UID ("uid-" +:+ Itoa (Z.of_nat (mem_ids w))) (job_Meta j)) (job_Spec j) (job_Status j) in
        (None, next_id (with_jobs (<[job_key j := j']> (mem_jobs w)) w))
    end;
  kc_DeleteJob name ns w :=
    match mem_jobs w !! (ns, name) with
    | None => (Some not_found, w)
    | Some _ => (None, with_jobs (delete (ns, name) (mem_jobs w)) w)
    end;
  kc_DeleteTasksOf owner ns w :=
    (None, with_tasks (filter (λ kt, ¬ (kt.1.1 = ns ∧ om_Labels (bt_Meta kt.2) !! "owner-name" = Some owner))
                         (mem_tasks w)) w);
  kc_DynamicRead r w := (None, Some not_found, w);
  kc_Now w := (mem_clock w, tick w);
  kc_Sleep w := tick w;
  kc_Ulid w := ("id-" +:+ Itoa (Z.of_nat (mem_ids w)), next_id w);
|}.
End mem.
