(* ===== verification/WorkflowJob.v ===== *)
(** * Hardware toggling and boot jobs of the workflow controller

    tink/controller/internal/workflow: hardware.go and job.go. The Go type
    [state] holds a client and a pointer to the workflow being reconciled; here
    the workflow is threaded beside the world [W], so each method of [state]
    returns its results, the workflow as it left it and the next world. *)
From S2P Require Import Prelude GoStrings BmcTypes InventoryTypes Api BmcApi Template KubeClient.

(** [reconcile.Result]. *)
Record Result := mkResult { Requeue : bool; RequeueAfter : Z }.
Definition zero_Result : Result := mkResult false 0.
Definition requeue : Result := mkResult true 0.

(** [reasonError] of reconciler.go. *)
Definition reasonError : string := "Error".

Definition jobNameNetboot : string := "netboot".
Definition jobNameISOMount : string := "iso-mount".
Definition jobNameISOEject : string := "iso-eject".
Definition jobNameCustombootPreparing : string := "customboot-preparing".
Definition jobNameCustombootPost : string := "customboot-post".

(** [fmt.Sprintf("%s-%s", prefix, workflow.GetName())]. *)
Definition jobName (prefix : string) (w : Workflow) : string := prefix +:+ "-" +:+ wf_Name w.

(** The verb [%q] on a name without special characters. *)
Definition quote (s : string) : string := String (ascii_of_nat 34) (s +:+ String (ascii_of_nat 34) "").

Section job.
Context `{KC : KubeClient W}.

(** A condition stamped with [metav1.Now()]. *)
Definition stamped (ty status reason msg : string) (w : W) : WorkflowCondition * W :=
  let '(now, w) := kc_Now w in (mkWorkflowCondition ty status reason msg (Some now), w).

Definition SetCondition_now (ty status reason msg : string) (wf : Workflow) (w : W) : Workflow * W :=
  let '(c, w) := stamped ty status reason msg w in (upd_Status (SetCondition c) wf, w).

Definition SetConditionIfDifferent_now (ty status reason msg : string) (wf : Workflow) (w : W)
    : Workflow * W :=
  let '(c, w) := stamped ty status reason msg w in (upd_Status (SetConditionIfDifferent c) wf, w).

(** ** hardware.go *)

Definition set_AllowPXE (b : bool) (nb : Netboot) : Netboot :=
  mkNetboot (Some b) (nb_AllowWorkflow nb) (nb_IPXE nb) (nb_OSIE nb) (nb_PXELINUX nb) (nb_RPI nb).

Definition set_iface_AllowPXE (b : bool) (i : Interface) : Interface :=
  mkInterface
    (Some (match if_Netboot i with
           | Some nb => set_AllowPXE b nb
           | None => mkNetboot (Some b) None None None None None
           end))
    (if_Isoboot i) (if_DHCP i) (if_DisableDHCP i).

Definition set_Interfaces (l : list Interface) (h : Hardware) : Hardware :=
  let s := hw_Spec h in
  mkHardware (hw_Meta h)
    (mkHardwareSpec (hs_AgentID s) (hs_Auto s) (hs_BMCRef s) l (hs_References s) (hs_Metadata s)
       (hs_TinkVersion s) (hs_Disks s) (hs_UserData s) (hs_VendorData s)) (hw_Status h).

Definition allow_pxe (b : bool) (h : Hardware) : Hardware :=
  set_Interfaces (set_iface_AllowPXE b <$> hs_Interfaces (hw_Spec h)) h.

Definition hardware_not_found (w : Workflow) (err : error) : error :=
  ErrWrap ("hardware not found: name=" +:+ spec_HardwareRef (wf_Spec w) +:+ "; namespace="
           +:+ wf_Namespace w +:+ ", error: ") err.

(** The loop of [setAllowPXE]: [fuel] attempts are left, [attempt] is the
    current one, [h] the hardware when it need not be fetched. *)
Fixpoint setAllowPXE_loop (fuel attempt maxRetries : nat) (wf : Workflow) (h : option Hardware)
    (allowPXE : bool) (w : W) : option error * W :=
  match fuel with
  | O => (None, w)
  | S fuel =>
      let '(got, w) :=
        match h with
        | Some h => (inr h, w)
        | None => kc_GetHardware (spec_HardwareRef (wf_Spec wf)) (wf_Namespace wf) w
        end in
      match got with
      | inl err => (Some (hardware_not_found wf err), w)
      | inr h =>
          match kc_UpdateHardware (allow_pxe allowPXE h) w with
          | (None, w) => (None, w)
          | (Some err, w) =>
              if IsConflict err then
                if decide (maxRetries ≤ attempt)
                then (Some (ErrWrap ("error updating allow pxe after " +:+ Itoa (Z.of_nat attempt)
                                     +:+ " retries: ") err), w)
                else setAllowPXE_loop fuel (S attempt) maxRetries wf None allowPXE (kc_Sleep w)
              else (Some (ErrWrap "error updating allow pxe: " err), w)
          end
      end
  end.

Definition setAllowPXE (wf : Workflow) (h : option Hardware) (allowPXE : bool) (w : W) : option error * W :=
  setAllowPXE_loop 4 1 4 wf h allowPXE w.

Definition hardwareFrom (wf : Workflow) (w : W) : res Hardware * W :=
  match kc_GetHardware (spec_HardwareRef (wf_Spec wf)) (wf_Namespace wf) w with
  | (inl err, w) => (inl (hardware_not_found wf err), w)
  | (inr h, w) => (inr h, w)
  end.

Definition toggleHardware (allowPXE : bool) (wf : Workflow) (w : W) : option error * Workflow * W :=
  match hardwareFrom wf w with
  | (inl err, w) =>
      let '(wf, w) :=
        SetConditionIfDifferent_now ToggleAllowNetbootTrue metav1_ConditionFalse reasonError
          ("error getting hardware: " +:+ error_msg err) wf w in
      (Some err, wf, w)
  | (inr hw, w) =>
      let an := st_AllowNetboot (wf_Status wf) in
      if allowPXE then
        if an_ToggledTrue an then (None, wf, w)
        else
          match setAllowPXE wf (Some hw) allowPXE w with
          | (Some err, w) =>
              let '(wf, w) :=
                SetConditionIfDifferent_now ToggleAllowNetbootTrue metav1_ConditionFalse reasonError
                  ("error setting allowPXE to " +:+ bool_str allowPXE +:+ ": " +:+ error_msg err) wf w in
              (Some err, wf, w)
          | (None, w) =>
              let wf := upd_Status (set_AllowNetboot (mkAllowNetbootStatus true (an_ToggledFalse an))) wf in
              let '(wf, w) :=
                SetCondition_now ToggleAllowNetbootTrue metav1_ConditionTrue "Complete"
                  ("set allowPXE to " +:+ bool_str allowPXE) wf w in
              (None, wf, w)
          end
      else
        if an_ToggledFalse an then (None, wf, w)
        else
          match setAllowPXE wf (Some hw) allowPXE w with
          | (Some err, w) =>
              let '(wf, w) :=
                SetConditionIfDifferent_now ToggleAllowNetbootFalse metav1_ConditionFalse reasonError
                  ("error setting allowPXE to " +:+ bool_str allowPXE +:+ ": " +:+ error_msg err) wf w in
              (Some err, wf, w)
          | (None, w) =>
              let wf := upd_Status (set_AllowNetboot (mkAllowNetbootStatus (an_ToggledTrue an) true)) wf in
              let '(wf, w) :=
                SetCondition_now ToggleAllowNetbootFalse metav1_ConditionTrue "Complete"
                  ("set allowPXE to " +:+ bool_str allowPXE) wf w in
              (None, wf, w)
          end
  end.

(** ** job.go *)

(** [client.IgnoreNotFound]. *)
Definition IgnoreNotFound (e : option error) : option error :=
  match e with
  | Some err => if IsNotFound err then None else Some err
  | None => None
  end.

Definition deleteExisting (name : string) (wf : Workflow) (w : W)
    : Result * option error * Workflow * W :=
  let '(e, w) := kc_DeleteTasksOf name (wf_Namespace wf) w in
  match IgnoreNotFound e with
  | Some err =>
      (zero_Result, Some (ErrWrap "error deleting tasks.bmc.tinkerbell.org objects: " err), wf, w)
  | None =>
      let '(e, w) := kc_DeleteJob name (wf_Namespace wf) w in
      match IgnoreNotFound e with
      | Some err =>
          (zero_Result, Some (ErrWrap "error deleting job.bmc.tinkerbell.org object: " err), wf, w)
      | None => (requeue, None, upd_Status (set_job_status name (mkJobStatus "" false true)) wf, w)
      end
  end.

Definition create (name : string) (hw : Hardware) (bmcName ns : string) (tasks : list bmc_Action)
    (ownerRef : list OwnerReference) (w : W) : option error * W :=
  let auto := {[ "tink-controller-auto-created" := "true" ]} : gmap string string in
  match kc_CreateJob
          (mkJob (mkObjectMeta "" "" name ns "" auto auto ownerRef None)
             (mkJobSpec (mkMachineRef bmcName ns) tasks) zero_bmc_JobStatus) w with
  | (Some err, w) =>
      (Some (ErrWrap "error creating job.bmc.tinkerbell.org object for netbooting machine: " err), w)
  | (None, w) => (None, w)
  end.

Definition createJob (actions : list bmc_Action) (name : string) (wf : Workflow) (w : W)
    : Result * option error * Workflow * W :=
  match kc_GetJob name (wf_Namespace wf) w with
  | (inr rj, w) =>
      match om_DeletionTimestamp (job_Meta rj) with
      | Some _ => (requeue, None, wf, w)
      | None =>
          let j := job_status (wf_Status wf) name in
          let j := mkJobStatus (om_UID (job_Meta rj)) (js_Complete j) (js_ExistingJobDeleted j) in
          (requeue, None, upd_Status (set_job_status name j) wf, w)
      end
  | (inl _, w) =>
      match hardwareFrom wf w with
      | (inl err, w) => (zero_Result, Some (ErrWrap "error getting hardware: " err), wf, w)
      | (inr hw, w) =>
          match hs_BMCRef (hw_Spec hw) with
          | None =>
              (zero_Result, Some (ErrNew ("hardware " +:+ quote (hw_Name hw) +:+ " does not have a BMC")), wf, w)
          | Some bmcName =>
              let m := wf_Meta wf in
              let ownerRef :=
                [mkOwnerReference (om_APIVersion m) (om_Kind m) (om_Name m) (om_UID m) (Some true)] in
              match create name hw bmcName (wf_Namespace wf) actions ownerRef w with
              | (Some err, w) => (zero_Result, Some (ErrWrap "error creating job: " err), wf, w)
              | (None, w) => (requeue, None, wf, w)
              end
          end
      end
  end.

Inductive trackedState := trackedStateComplete | trackedStateRunning | trackedStateError | trackedStateFailed.

Definition trackRunningJob (name : string) (wf : Workflow) (w : W)
    : Result * trackedState * option error * Workflow * W :=
  match kc_GetJob name (wf_Namespace wf) w with
  | (inl err, w) => (zero_Result, trackedStateError, Some (ErrWrap "error getting job: " err), wf, w)
  | (inr rj, w) =>
      if Job_HasCondition rj JobFailed ConditionTrue
      then (zero_Result, trackedStateFailed, Some (ErrNew "job failed"), wf, w)
      else if Job_HasCondition rj JobCompleted ConditionTrue
      then
        let j := job_status (wf_Status wf) name in
        (zero_Result, trackedStateComplete, None,
         upd_Status (set_job_status name (mkJobStatus (js_UID j) true (js_ExistingJobDeleted j))) wf, w)
      else (requeue, trackedStateRunning, None, wf, kc_Sleep w)
  end.

(** [j, found := Jobs[name]; found && !j.ExistingJobDeleted]. *)
Definition needs_cleanup (wf : Workflow) (name : string) : bool :=
  match st_Jobs (wf_Status wf) !! name with
  | Some j => negb (js_ExistingJobDeleted j)
  | None => false
  end.

Definition handleJob (actions : list bmc_Action) (name : string) (wf : Workflow) (w : W)
    : Result * option error * Workflow * W :=
  (* 1. clean up existing job if it wasn't already deleted *)
  if needs_cleanup wf name then deleteExisting name wf w
  (* 2. create a new job *)
  else if decide (js_UID (job_status (wf_Status wf) name) = "") then
    match actions with
    | [] => (zero_Result, None, wf, w)
    | _ =>
        let '(result, e, wf, w) := createJob actions name wf w in
        match e with
        | Some err =>
            let '(wf, w) :=
              SetCondition_now BootJobSetupFailed metav1_ConditionTrue reasonError
                ("error creating job: " +:+ error_msg err) wf w in
            (result, Some err, wf, w)
        | None =>
            let '(wf, w) :=
              SetCondition_now BootJobSetupComplete metav1_ConditionTrue "Created" "job created" wf w in
            (result, None, wf, w)
        end
    end
  (* 3. track status *)
  else if negb (js_Complete (job_status (wf_Status wf) name)) then
    let '(r, tState, e, wf, w) := trackRunningJob name wf w in
    match e with
    | Some err =>
        let '(wf, w) :=
          SetCondition_now BootJobFailed metav1_ConditionTrue reasonError (error_msg err) wf w in
        (r, Some err, wf, w)
    | None =>
        match tState with
        | trackedStateComplete =>
            let '(wf, w) :=
              SetCondition_now BootJobComplete metav1_ConditionTrue "Complete" "job completed" wf w in
            (r, None, wf, w)
        | _ => (r, None, wf, w)
        end
    end
  else (requeue, None, wf, w).
End job.

(** ** What the methods leave alone

    The methods of this file change the boot options and the conditions of the
    status, and nothing else of the workflow. *)

Definition boot_frame (wf wf' : Workflow) : Prop :=
  ∃ bo cs, wf' = upd_Status (λ s, set_Conditions cs (set_BootOptions bo s)) wf.

#[export] Instance boot_frame_preorder : PreOrder boot_frame.
Proof.
  split.
  - intros [m s [a b c d e f g h i]]. by exists c, i.
  - intros wf1 wf2 wf3 (bo & cs & ->) (bo' & cs' & ->). by exists bo', cs'.
Qed.

(** A workflow and its framed version agree on all fields but two. *)
Lemma boot_frame_fields wf wf' :
  boot_frame wf wf' →
  wf_Meta wf' = wf_Meta wf ∧ wf_Spec wf' = wf_Spec wf ∧
  st_State (wf_Status wf') = st_State (wf_Status wf) ∧
  st_CurrentState (wf_Status wf') = st_CurrentState (wf_Status wf) ∧
  st_Tasks (wf_Status wf') = st_Tasks (wf_Status wf) ∧
  st_AgentID (wf_Status wf') = st_AgentID (wf_Status wf) ∧
  st_GlobalExecutionStop (wf_Status wf') = st_GlobalExecutionStop (wf_Status wf).
Proof. intros (bo & cs & ->). done. Qed.

Lemma boot_frame_SetCondition c wf : boot_frame wf (upd_Status (SetCondition c) wf).
Proof.
  destruct wf as [m s st]. unfold upd_Status; simpl. rewrite SetCondition_eq.
  by exists (st_BootOptions st), (upsert wc_Type (wc_Type c) (λ _, c) c (st_Conditions st)).
Qed.

Lemma boot_frame_SetConditionIfDifferent c wf : boot_frame wf (upd_Status (SetConditionIfDifferent c) wf).
Proof.
  destruct wf as [m s st]. unfold upd_Status; simpl.
  destruct (SetConditionIfDifferent_frame c st) as [cs ->]. by exists (st_BootOptions st), cs.
Qed.

Lemma boot_frame_set_BootOptions bo wf : boot_frame wf (upd_Status (set_BootOptions bo) wf).
Proof. by exists bo, (st_Conditions (wf_Status wf)). Qed.

Lemma boot_frame_set_job_status name j wf : boot_frame wf (upd_Status (set_job_status name j) wf).
Proof. apply boot_frame_set_BootOptions. Qed.

Lemma boot_frame_set_AllowNetboot v wf : boot_frame wf (upd_Status (set_AllowNetboot v) wf).
Proof. apply boot_frame_set_BootOptions. Qed.

#[export] Hint Resolve boot_frame_SetCondition boot_frame_SetConditionIfDifferent
  boot_frame_set_job_status boot_frame_set_AllowNetboot : tink.
#[export] Hint Extern 0 (boot_frame ?x ?x) => reflexivity : tink.

(** Conditions do not touch the job table. *)
Lemma st_Jobs_SetCondition c st : st_Jobs (SetCondition c st) = st_Jobs st.
Proof. by rewrite SetCondition_eq. Qed.

Lemma st_Jobs_set_job_status name j st : st_Jobs (set_job_status name j st) = <[name := j]> (st_Jobs st).
Proof. done. Qed.

Lemma job_status_SetCondition c st name : job_status (SetCondition c st) name = job_status st name.
Proof. unfold job_status. by rewrite st_Jobs_SetCondition. Qed.

Lemma job_status_set name j st : job_status (set_job_status name j st) name = j.
Proof. unfold job_status. rewrite st_Jobs_set_job_status, lookup_insert_eq. done. Qed.

Create Rewrite HintDb tink_rw.
#[export] Hint Rewrite st_Jobs_SetCondition st_Jobs_set_job_status job_status_SetCondition
  job_status_set : tink_rw.

(** Open the innermost call of the goal or of a hypothesis. *)
Ltac open_let :=
  match goal with
  | |- context [let '(_, _) := ?x in _] => destruct x eqn:?
  | H : context [let '(_, _) := ?x in _] |- _ => destruct x eqn:?
  end.

Section frames.
Context `{KC : KubeClient W}.

Lemma SetCondition_now_frame ty st r m wf w wf' w' :
  SetCondition_now ty st r m wf w = (wf', w') → ∃ c, wf' = upd_Status (SetCondition c) wf ∧ wc_Type c = ty.
Proof. unfold SetCondition_now, stamped. destruct (kc_Now w). intros [= <- <-]. eauto. Qed.

Lemma SetCondition_now_job_status ty st r m wf w wf' w' name :
  SetCondition_now ty st r m wf w = (wf', w') →
  job_status (wf_Status wf') name = job_status (wf_Status wf) name.
Proof. intros (c & -> & _)%SetCondition_now_frame. simpl. apply job_status_SetCondition. Qed.

Lemma createJob_not_complete actions name wf w r e wf' w' :
  createJob actions name wf w = (r, e, wf', w') →
  js_Complete (job_status (wf_Status wf') name) = js_Complete (job_status (wf_Status wf) name).
Proof. unfold createJob. intros. repeat case_match; simplify_eq; simpl; rewrite ?job_status_set; done. Qed.

Lemma SetConditionIfDifferent_now_frame ty st r m wf w wf' w' :
  SetConditionIfDifferent_now ty st r m wf w = (wf', w') → boot_frame wf wf'.
Proof.
  unfold SetConditionIfDifferent_now, stamped. destruct (kc_Now w). intros [= <- <-]. auto with tink.
Qed.

Lemma toggleHardware_frame b wf w e wf' w' :
  toggleHardware b wf w = (e, wf', w') → boot_frame wf wf'.
Proof.
  unfold toggleHardware. destruct (hardwareFrom wf w) as [[err|hw] w1].
  - destruct (SetConditionIfDifferent_now _ _ _ _ _ _) eqn:E. intros [= <- <- <-].
    by eapply SetConditionIfDifferent_now_frame.
  - destruct b; (case_match; [by intros [= <- <- <-]|]);
      destruct (setAllowPXE _ _ _ _) as [[err|] w2].
    all: match goal with
         | |- context [let '(_, _) := ?x in _] => destruct x as [wf2 w3] eqn:E
         end; intros [= <- <- <-].
    all: first [ by eapply SetConditionIfDifferent_now_frame
               | apply SetCondition_now_frame in E as (c & -> & _) ].
    all: etrans; [apply boot_frame_set_AllowNetboot|apply boot_frame_SetCondition].
Qed.

Lemma deleteExisting_frame name wf w r e wf' w' :
  deleteExisting name wf w = (r, e, wf', w') → boot_frame wf wf'.
Proof. unfold deleteExisting. repeat open_let. repeat case_match; intros; simplify_eq; auto with tink. Qed.

Lemma createJob_frame actions name wf w r e wf' w' :
  createJob actions name wf w = (r, e, wf', w') → boot_frame wf wf'.
Proof. unfold createJob. intros. repeat case_match; simplify_eq; auto with tink. Qed.

Lemma trackRunningJob_frame name wf w r t e wf' w' :
  trackRunningJob name wf w = (r, t, e, wf', w') → boot_frame wf wf'.
Proof. unfold trackRunningJob. intros. repeat case_match; simplify_eq; auto with tink. Qed.

Lemma handleJob_frame actions name wf w r e wf' w' :
  handleJob actions name wf w = (r, e, wf', w') → boot_frame wf wf'.
Proof.
  unfold handleJob. destruct (needs_cleanup wf name); [apply deleteExisting_frame|].
  case_decide.
  { destruct actions as [|a actions]; [by (intros; simplify_eq)|].
    destruct (createJob _ _ _ _) as [[[r1 e1] wf1] w1] eqn:E; apply createJob_frame in E.
    destruct e1; destruct (SetCondition_now _ _ _ _ _ _) as [wf2 w2] eqn:E2; intros [= <- <- <- <-];
      apply SetCondition_now_frame in E2 as (c & -> & _); (etrans; [done|auto with tink]). }
  destruct (negb _); [|by (intros; simplify_eq)].
  destruct (trackRunningJob _ _ _) as [[[[r1 t1] e1] wf1] w1] eqn:E; apply trackRunningJob_frame in E.
  destruct e1 as [err|]; [|destruct t1; try (by intros [= <- <- <- <-])].
  all: destruct (SetCondition_now _ _ _ _ _ _) as [wf2 w2] eqn:E2; intros [= <- <- <- <-].
  all: apply SetCondition_now_frame in E2 as (c & -> & _); (etrans; [done|auto with tink]).
Qed.

(** Running a job leaves the netboot toggles alone... *)
Lemma SetCondition_now_AllowNetboot ty st r m wf w wf' w' :
  SetCondition_now ty st r m wf w = (wf', w') →
  st_AllowNetboot (wf_Status wf') = st_AllowNetboot (wf_Status wf).
Proof. intros (c & -> & _)%SetCondition_now_frame. simpl. by rewrite SetCondition_eq. Qed.

Lemma handleJob_AllowNetboot actions name wf w r e wf' w' :
  handleJob actions name wf w = (r, e, wf', w') →
  st_AllowNetboot (wf_Status wf') = st_AllowNetboot (wf_Status wf).
Proof.
  unfold handleJob, deleteExisting, createJob, trackRunningJob. intros H.
  repeat (case_match || case_decide || open_let); simplify_eq; try done;
    match goal with E : SetCondition_now _ _ _ _ _ _ = _ |- _ => by apply SetCondition_now_AllowNetboot in E end.
Qed.

(** ... which [toggleHardware] sets when it succeeds. *)
Lemma toggleHardware_toggled b wf w wf' w' :
  toggleHardware b wf w = (None, wf', w') →
  (if b then an_ToggledTrue else an_ToggledFalse) (st_AllowNetboot (wf_Status wf')) = true.
Proof.
  unfold toggleHardware. intros H. repeat (case_match || case_decide || open_let); simplify_eq; try done;
    match goal with E : SetCondition_now _ _ _ _ _ _ = _ |- _ => by rewrite (SetCondition_now_AllowNetboot _ _ _ _ _ _ _ _ E) end.
Qed.
End frames.

(** ** What the methods write

    Statements on the client [logged KC], for an arbitrary client [KC]. *)

Section writes.
Context `{TE : TemplateEnv} {W : Type} (KC : KubeClient W).
Existing Instance logged.

Definition iface_AllowPXE (i : Interface) : option bool := nb ← if_Netboot i; nb_AllowPXE nb.

Definition all_AllowPXE (b : bool) (h : Hardware) : Prop :=
  Forall (λ i, iface_AllowPXE i = Some b) (hs_Interfaces (hw_Spec h)).

Lemma allow_pxe_all b h : all_AllowPXE b (allow_pxe b h).
Proof.
  unfold all_AllowPXE, allow_pxe; simpl. apply Forall_fmap, Forall_true. intros i.
  unfold iface_AllowPXE; simpl. by destruct (if_Netboot i).
Qed.

(** An update of the hardware that sets [b] on every interface and was refused
    with a conflict. *)
Definition conflicted (b : bool) (e : entry) : Prop :=
  ∃ h err, e = (WUpdateHardware h, Some err) ∧ all_AllowPXE b h ∧ IsConflict err = true.

Definition pxe_log (b : bool) (e : option error) (es : list entry) : Prop :=
  match e with
  | None => ∃ cs h, es = cs ++ [(WUpdateHardware h, None)] ∧ all_AllowPXE b h ∧ Forall (conflicted b) cs
  | Some _ =>
      Forall (conflicted b) es ∨
      ∃ cs h err, es = cs ++ [(WUpdateHardware h, Some err)] ∧ all_AllowPXE b h ∧ Forall (conflicted b) cs
  end.

Lemma pxe_log_cons b e c es : conflicted b c → pxe_log b e es → pxe_log b e (c :: es).
Proof.
  intros Hc. destruct e as [err|]; simpl.
  - intros [H|(cs & h & er & -> & Hh & H)]; [left; by constructor|].
    right. exists (c :: cs), h, er. split_and!; [done..|by constructor].
  - intros (cs & h & -> & Hh & H). exists (c :: cs), h. split_and!; [done..|by constructor].
Qed.

Lemma setAllowPXE_loop_log fuel attempt max wf h b wl e wl' :
  fuel ≠ 0 → attempt + fuel = S max →
  setAllowPXE_loop fuel attempt max wf h b wl = (e, wl') →
  ∃ es, wl'.2 = wl.2 ++ es ∧ length es ≤ fuel ∧ pxe_log b e es.
Proof.
  revert attempt h wl. induction fuel as [|fuel IH]; intros attempt h wl Hf Ha; [done|]. simpl.
  set (got := match h with Some _ => _ | None => _ end).
  assert (∃ r wl1, got = (r, wl1) ∧ wl1.2 = wl.2) as (r & wl1 & -> & E1).
  { destruct h as [h|]; [by exists (inr h), wl|].
    destruct (lread _ _) as [r wl1] eqn:E; apply lread_inv in E as [_ E]. eauto. }
  destruct r as [err|hw].
  { intros [= <- <-]. exists []. rewrite app_nil_r. split_and!; [done|simpl; lia|left; constructor]. }
  destruct (lwrite _ _ _) as [r wl2] eqn:E; apply lwrite_inv in E as [_ E2].
  destruct r as [err|]; [|intros [= <- <-]; eexists; rewrite E2, E1; split_and!;
    [done|simpl; lia|exists [], (allow_pxe b hw); auto using allow_pxe_all]].
  destruct (IsConflict err) eqn:Hc; last first.
  { intros [= <- <-]. eexists. rewrite E2, E1. split_and!; [done|simpl; lia|].
    right. exists [], (allow_pxe b hw), err. auto using allow_pxe_all. }
  assert (conflicted b (WUpdateHardware (allow_pxe b hw), Some err)) as Hcf
    by (eexists _, _; auto using allow_pxe_all).
  case_decide.
  { intros [= <- <-]. eexists. rewrite E2, E1. split_and!; [done|simpl; lia|].
    left. by constructor. }
  intros Hrec. apply IH in Hrec as (es & El & Hl & Hp); [|lia..]. simpl in El.
  eexists (_ :: es). rewrite El, E2, E1, <-(assoc (++)). split_and!; [done|simpl; lia|].
  by apply pxe_log_cons.
Qed.

(** The status has an entry for the job that is not marked as cleaned up. *)
Definition uncleaned (wf : Workflow) (name : string) : Prop :=
  ∃ j, st_Jobs (wf_Status wf) !! name = Some j ∧ js_ExistingJobDeleted j = false.

Lemma needs_cleanup_spec wf name : needs_cleanup wf name = true ↔ uncleaned wf name.
Proof.
  unfold needs_cleanup, uncleaned. destruct (st_Jobs (wf_Status wf) !! name) as [j|]; [|naive_solver].
  rewrite negb_true_iff. naive_solver.
Qed.

(** The only writes of [handleJob], with the condition under which each is
    made. *)
Definition job_write_ok (actions : list bmc_Action) (name : string) (wf : Workflow) (e : entry) : Prop :=
  match e.1 with
  | WDeleteTasksOf owner ns => uncleaned wf name ∧ owner = name ∧ ns = wf_Namespace wf
  | WDeleteJob n ns => uncleaned wf name ∧ n = name ∧ ns = wf_Namespace wf
  | WCreateJob j =>
      ¬ uncleaned wf name ∧ js_UID (job_status (wf_Status wf) name) = "" ∧ actions ≠ [] ∧
      job_key j = (wf_Namespace wf, name) ∧ jspec_Tasks (job_Spec j) = actions ∧
      (or_UID <$> om_OwnerReferences (job_Meta j)) = [om_UID (wf_Meta wf)]
  | _ => False
  end.

Lemma deleteExisting_log actions name wf wl r e wf' wl' :
  uncleaned wf name →
  deleteExisting name wf wl = (r, e, wf', wl') →
  ∃ es, wl'.2 = wl.2 ++ es ∧ Forall (job_write_ok actions name wf) es.
Proof.
  intros Hn. unfold deleteExisting. simpl.
  destruct (lwrite _ _ wl) as [r1 wl1] eqn:E1; apply lwrite_inv in E1 as [_ E1].
  destruct (IgnoreNotFound r1).
  { intros [= <- <- <- <-]. eexists. split; [done|]. repeat constructor; done. }
  destruct (lwrite _ _ wl1) as [r2 wl2] eqn:E2; apply lwrite_inv in E2 as [_ E2].
  destruct (IgnoreNotFound r2); intros [= <- <- <- <-]; eexists; rewrite E2, E1, <-(assoc (++));
    (split; [done|]); repeat constructor; done.
Qed.

Lemma createJob_log actions name wf wl r e wf' wl' :
  ¬ uncleaned wf name → js_UID (job_status (wf_Status wf) name) = "" → actions ≠ [] →
  createJob actions name wf wl = (r, e, wf', wl') →
  ∃ es, wl'.2 = wl.2 ++ es ∧ Forall (job_write_ok actions name wf) es.
Proof.
  intros Hn Hu Ha. unfold createJob. simpl.
  destruct (lread _ wl) as [got wl1] eqn:E1; apply lread_inv in E1 as [_ E1].
  assert (wl1.2 = wl.2 ++ []) as E1' by (by rewrite app_nil_r).
  destruct got as [err|rj]; [|case_match; intros [= <- <- <- <-]; exists []; (split; [done|by apply Forall_nil])].
  unfold hardwareFrom; simpl.
  destruct (lread _ wl1) as [got wl2] eqn:E2; apply lread_inv in E2 as [_ E2]. rewrite E1' in E2.
  destruct got as [err'|hw]; [intros [= <- <- <- <-]; exists []; (split; [done|by apply Forall_nil])|].
  destruct (hs_BMCRef (hw_Spec hw)); [|intros [= <- <- <- <-]; exists []; (split; [done|by apply Forall_nil])].
  unfold create; simpl.
  destruct (lwrite _ _ wl2) as [r1 wl3] eqn:E3; apply lwrite_inv in E3 as [_ E3].
  destruct r1; intros [= <- <- <- <-]; eexists; rewrite E3, E2, app_nil_r;
    (split; [done|]); repeat constructor; done.
Qed.

Lemma SetCondition_now_log ty st r m wf wl wf' wl' :
  SetCondition_now ty st r m wf wl = (wf', wl') → wl'.2 = wl.2.
Proof.
  unfold SetCondition_now, stamped. simpl.
  destruct (lread _ _) as [now wl1] eqn:E; apply lread_inv in E as [_ E]. by intros [= _ <-].
Qed.

Lemma trackRunningJob_log name wf wl r t e wf' wl' :
  trackRunningJob name wf wl = (r, t, e, wf', wl') → wl'.2 = wl.2.
Proof.
  unfold trackRunningJob. simpl.
  destruct (lread _ _) as [got wl1] eqn:E; apply lread_inv in E as [_ E].
  destruct got; [by intros [= <- <- <- <- <-]|].
  repeat case_match; by intros [= <- <- <- <- <-].
Qed.
Lemma handleJob_log actions name wf wl r e wf' wl' :
  handleJob actions name wf wl = (r, e, wf', wl') →
  ∃ es, wl'.2 = wl.2 ++ es ∧ Forall (job_write_ok actions name wf) es.
Proof.
  unfold handleJob.
  destruct (needs_cleanup wf name) eqn:Hn.
  { apply needs_cleanup_spec in Hn. intros E. by eapply deleteExisting_log in E. }
  assert (¬ uncleaned wf name) as Hu0 by (rewrite <-needs_cleanup_spec; by rewrite Hn).
  case_decide as Hu.
  { destruct actions as [|a actions]; [intros [= <- <- <- <-]; exists []; by rewrite app_nil_r|].
    destruct (createJob _ _ _ _) as [[[r1 e1] wf1] wl1] eqn:E.
    apply createJob_log in E as (es & El & Hes); [|done..].
    destruct e1; destruct (SetCondition_now _ _ _ _ _ _) as [wf2 wl2] eqn:E2; intros [= <- <- <- <-];
      apply SetCondition_now_log in E2; simpl in *; exists es; split; congruence. }
  destruct (negb _); [|intros [= <- <- <- <-]; exists []; by rewrite app_nil_r].
  destruct (trackRunningJob _ _ _) as [[[[r1 t1] e1] wf1] wl1] eqn:E.
  apply trackRunningJob_log in E.
  destruct e1; [|destruct t1]; try (intros [= <- <- <- <-]; exists []; by rewrite app_nil_r).
  all: destruct (SetCondition_now _ _ _ _ _ _) as [wf2 wl2] eqn:E2; intros [= <- <- <- <-].
  all: apply SetCondition_now_log in E2; simpl in *; exists []; rewrite app_nil_r; split; [congruence|done].
Qed.
End writes.

(** ** Main results *)

Section results.
Context `{TE : TemplateEnv} {W : Type} (KC : KubeClient W).
Existing Instance logged.

(** Toggling netboot writes the hardware at most four times. Each write sets
    [AllowPXE] to the wanted value on every interface; all but the last were
    refused with a conflict; and [setAllowPXE] returns no error exactly when the
    last one was accepted. *)
Theorem setAllowPXE_writes wf h b w l :
  ∃ e w' es,
    setAllowPXE wf h b (w, l) = (e, (w', l ++ es)) ∧ length es ≤ 4 ∧ pxe_log b e es.
Proof.
  unfold setAllowPXE. destruct (setAllowPXE_loop _ _ _ _ _ _ (w, l)) as [e [w' l']] eqn:E.
  apply setAllowPXE_loop_log in E as (es & Hl & Hn & Hp); [|lia..]. simpl in Hl. subst. eauto 10.
Qed.

(** The only writes of [handleJob]. A job, with its tasks, is deleted only
    when the status has an entry for it not yet marked as cleaned up; a job is
    created only when it is not, no UID is recorded and there are actions, and
    then with the workflow's namespace, the given name, exactly the given
    actions, and the workflow as owner. *)
Theorem handleJob_writes actions name wf w l :
  ∃ r e wf' w' es,
    handleJob actions name wf (w, l) = (r, e, wf', (w', l ++ es)) ∧
    Forall (job_write_ok actions name wf) es.
Proof.
  destruct (handleJob actions name wf (w, l)) as [[[r e] wf'] [w' l']] eqn:E.
  apply (handleJob_log KC) in E as (es & El & H). simpl in El. subst. eauto 10.
Qed.

(** The first job a workflow records is thrown away. When no entry exists
    for a job that is already in the cluster, [handleJob] records its UID
    without marking it cleaned up; the next call, whatever happened in between,
    first deletes the job's tasks, and then, unless that failed, the very job
    whose UID was recorded. *)
Theorem handleJob_first_job_deleted actions name wf w rj w1 :
  st_Jobs (wf_Status wf) !! name = None → actions ≠ [] →
  kc_GetJob name (wf_Namespace wf) w = (inr rj, w1) →
  om_DeletionTimestamp (job_Meta rj) = None →
  ∃ r wf' w',
    handleJob (KC := KC) actions name wf w = (r, None, wf', w') ∧
    js_UID (job_status (wf_Status wf') name) = om_UID (job_Meta rj) ∧
    ∀ actions' w2, ∃ r' e' wf'' w'' t,
      handleJob actions' name wf' (w2, []) = (r', e', wf'', (w'', (WDeleteTasksOf name (wf_Namespace wf), t.1)
        :: match IgnoreNotFound t.1 with
           | Some _ => []
           | None => [(WDeleteJob name (wf_Namespace wf), t.2)]
           end)).
Proof.
  intros Hj Ha Hg Hd. unfold handleJob at 1. unfold needs_cleanup, job_status. rewrite Hj. simpl.
  destruct actions as [|a actions]; [done|]. unfold createJob. rewrite Hg, Hd. simpl.
  unfold job_status. rewrite Hj. simpl.
  destruct (SetCondition_now _ _ _ _ _ _) as [wf' w'] eqn:E.
  apply SetCondition_now_frame in E as (c & -> & _). eexists _, _, _. split; [done|]. simpl.
  split; [by rewrite st_Jobs_SetCondition, st_Jobs_set_job_status, lookup_insert_eq|].
  intros actions' w2. unfold handleJob, needs_cleanup. simpl.
  rewrite st_Jobs_SetCondition, st_Jobs_set_job_status, lookup_insert_eq. simpl.
  unfold deleteExisting. simpl. change (wf_Namespace (upd_Status _ (upd_Status _ wf))) with (wf_Namespace wf).
  unfold lwrite; simpl.
  destruct (kc_DeleteTasksOf name (wf_Namespace wf) w2) as [r1 w3]. simpl.
  destruct (IgnoreNotFound r1) eqn:Ei; [eexists _, _, _, _, (r1, None); simpl; by rewrite Ei|].
  destruct (kc_DeleteJob name (wf_Namespace wf) w3) as [r2 w4]. simpl.
  destruct (IgnoreNotFound r2) eqn:Ei2; eexists _, _, _, _, (r1, r2); simpl; by rewrite Ei.
Qed.

(** A boot job counts as complete only on the job's own word: the flag goes
    from false to true only when the job read from the cluster has the
    condition Completed, does not have Failed, and had a recorded UID. *)
Theorem handleJob_complete actions name wf w r e wf' w' :
  handleJob (KC := KC) actions name wf w = (r, e, wf', w') →
  js_Complete (job_status (wf_Status wf) name) = false →
  js_Complete (job_status (wf_Status wf') name) = true →
  ∃ rj w1,
    kc_GetJob name (wf_Namespace wf) w = (inr rj, w1) ∧
    Job_HasCondition rj JobCompleted ConditionTrue = true ∧
    Job_HasCondition rj JobFailed ConditionTrue = false ∧
    js_UID (job_status (wf_Status wf) name) ≠ "" ∧ e = None.
Proof.
  unfold handleJob. intros E Hf Ht.
  destruct (needs_cleanup wf name).
  { revert E. unfold deleteExisting. repeat open_let. repeat case_match; intros; simplify_eq.
    all: simpl in Ht; rewrite ?job_status_set in Ht; simpl in Ht; congruence. }
  case_decide.
  { destruct actions as [|a actions]; [simplify_eq; congruence|]. exfalso.
    destruct (createJob _ _ _ _) as [[[r1 e1] wf1] w1] eqn:Ec; apply createJob_not_complete in Ec.
    destruct e1; destruct (SetCondition_now _ _ _ _ _ _) as [wf2 w2] eqn:E2; simplify_eq;
      apply (SetCondition_now_job_status _ _ _ _ _ _ _ _ name) in E2; congruence. }
  rewrite Hf in E. simpl in E. unfold trackRunningJob in E.
  destruct (kc_GetJob name (wf_Namespace wf) w) as [[err|rj] w1].
  { destruct (SetCondition_now _ _ _ _ _ _) as [wf2 w2] eqn:E2; simplify_eq.
    apply (SetCondition_now_job_status _ _ _ _ _ _ _ _ name) in E2; congruence. }
  destruct (Job_HasCondition rj JobFailed ConditionTrue) eqn:Hfa.
  { destruct (SetCondition_now _ _ _ _ _ _) as [wf2 w2] eqn:E2; simplify_eq.
    apply (SetCondition_now_job_status _ _ _ _ _ _ _ _ name) in E2; congruence. }
  destruct (Job_HasCondition rj JobCompleted ConditionTrue) eqn:Hco; [|simplify_eq; congruence].
  destruct (SetCondition_now _ _ _ _ _ _) as [wf2 w2] eqn:E2; simplify_eq. eauto 10.
Qed.
End results.
