(* ===== verification/Reconciler.v ===== *)
(** * The workflow controller

    tink/controller/internal/workflow: pre.go, post.go and reconciler.go. One
    call of [Reconcile] reads the workflow, dispatches on its state and patches
    the status when it changed. *)
From S2P Require Import Prelude GoStrings BmcTypes Api BmcApi Template KubeClient WorkflowJob.

Section reconciler.
Context `{KC : KubeClient W}.

(** ** pre.go *)

Definition power_action (a : string) : bmc_Action := mkbmc_Action (Some a) None None None.
Definition one_time_boot (device : string) (efiBoot : bool) : bmc_Action :=
  mkbmc_Action None (Some (mkOneTimeBootDeviceAction [device] efiBoot)) None None.
Definition virtual_media (url : string) : bmc_Action :=
  mkbmc_Action None None None (Some (mkVirtualMediaAction url VirtualMediaCD)).

(** The closure [efiBoot]: some interface boots with UEFI. *)
Definition efiBoot (hw : Hardware) : bool :=
  existsb (λ i, match if_DHCP i with Some d => dhcp_UEFI d | None => false end)
    (hs_Interfaces (hw_Spec hw)).

Definition netboot_actions (hw : Hardware) : list bmc_Action :=
  [power_action PowerHardOff; one_time_boot PXE (efiBoot hw); power_action PowerOn].

Definition iso_actions (wf : Workflow) (hw : Hardware) : list bmc_Action :=
  [power_action PowerHardOff; virtual_media "";
   virtual_media (bo_ISOURL (spec_BootOptions (wf_Spec wf)));
   one_time_boot CDROM (efiBoot hw); power_action PowerOn].

Definition templateString (tmplStr : string) (data : HardwareSpec) : res string :=
  renderTemplate "action" tmplStr (data_templateData data).

Fixpoint templateActions (actions : list bmc_Action) (hw : Hardware) : res (list bmc_Action) :=
  match actions with
  | [] => inr []
  | action :: rest =>
      let one :=
        match ba_VirtualMediaAction action with
        | None => inr action
        | Some vm =>
            match templateString (vma_MediaURL vm) (hw_Spec hw) with
            | inl err => inl (ErrWrap "failed to template VirtualMediaAction.MediaURL: " err)
            | inr templated =>
                inr (mkbmc_Action (ba_PowerAction action) (ba_OneTimeBootDeviceAction action)
                       (ba_BootDevice action) (Some (mkVirtualMediaAction templated (vma_Kind vm))))
            end
        end in
      match one with
      | inl err => inl err
      | inr a =>
          match templateActions rest hw with
          | inl err => inl err
          | inr l => inr (a :: l)
          end
      end
  end.

(** The condition of the three boot modes: the job's status is not settled. *)
Definition job_unsettled (wf : Workflow) (name : string) : bool :=
  let j := job_status (wf_Status wf) name in
  negb (js_ExistingJobDeleted j) || bool_decide (js_UID j = "") || negb (js_Complete j).

Definition fail_state (wf : Workflow) : Workflow := upd_Status (set_State WorkflowStateFailed) wf.

(** The end of each boot mode of [prepareWorkflow]: run the job and move to
    PENDING when it completed. *)
Definition prepare_job (actions : list bmc_Action) (name : string) (wf : Workflow) (w : W)
    : Result * option error * Workflow * W :=
  let '(r, e, wf, w) := handleJob actions name wf w in
  match e with
  | Some err => (r, Some err, fail_state wf, w)
  | None =>
      let wf :=
        if js_Complete (job_status (wf_Status wf) name)
           && bool_decide (st_State (wf_Status wf) = WorkflowStatePreparing)
        then upd_Status (set_State WorkflowStatePending) wf else wf in
      (r, None, wf, w)
  end.

(** A failure of [hardwareFrom] or of the templating of actions: the condition
    [ty] is recorded and the workflow fails. *)
Definition prepare_failed (ty what : string) (err : error) (wf : Workflow) (w : W)
    : Result * option error * Workflow * W :=
  let '(wf, w) :=
    SetConditionIfDifferent_now ty metav1_ConditionFalse reasonError (what +:+ error_msg err) wf w in
  (zero_Result, Some (ErrWrap what err), fail_state wf, w).

(** Step 2 of [prepareWorkflow], the switch on the boot mode. *)
Definition prepare_boot (wf : Workflow) (w : W) : Result * option error * Workflow * W :=
  let mode := bo_BootMode (spec_BootOptions (wf_Spec wf)) in
  if decide (mode = BootModeNetboot) then
    let name := jobName jobNameNetboot wf in
    if job_unsettled wf name then
      match hardwareFrom wf w with
      | (inl err, w) => prepare_failed BootJobSetupFailed "failed to get hardware: " err wf w
      | (inr hw, w) => prepare_job (netboot_actions hw) name wf w
      end
    else (zero_Result, None, wf, w)
  else if decide (mode = BootModeISO ∨ mode = BootModeIsoboot) then
    let name := jobName jobNameISOMount wf in
    if job_unsettled wf name then
      if decide (bo_ISOURL (spec_BootOptions (wf_Spec wf)) = "")
      then (zero_Result, Some (ErrNew "iso url must be a valid url"), fail_state wf, w)
      else
        match hardwareFrom wf w with
        | (inl err, w) => prepare_failed BootJobSetupComplete "failed to get hardware: " err wf w
        | (inr hw, w) => prepare_job (iso_actions wf hw) name wf w
        end
    else (zero_Result, None, wf, w)
  else if decide (mode = BootModeCustomboot) then
    let name := jobName jobNameCustombootPreparing wf in
    if job_unsettled wf name then
      match hardwareFrom wf w with
      | (inl err, w) => prepare_failed BootJobSetupFailed "failed to get hardware: " err wf w
      | (inr hw, w) =>
          match templateActions
                  (cb_PreparingActions (bo_CustombootConfig (spec_BootOptions (wf_Spec wf)))) hw with
          | inl err => prepare_failed BootJobSetupFailed "failed to template actions: " err wf w
          | inr actions => prepare_job actions name wf w
          end
      end
    else (zero_Result, None, wf, w)
  else (zero_Result, None, upd_Status (set_State WorkflowStatePending) wf, w).

Definition prepareWorkflow (wf : Workflow) (w : W) : Result * option error * Workflow * W :=
  if bo_ToggleAllowNetboot (spec_BootOptions (wf_Spec wf))
     && negb (an_ToggledTrue (st_AllowNetboot (wf_Status wf)))
  then
    match toggleHardware true wf w with
    | (Some err, wf, w) => (zero_Result, Some err, fail_state wf, w)
    | (None, wf, w) => prepare_boot wf w
    end
  else prepare_boot wf w.

(** ** post.go *)

(** Take the overall state from the last reported one. *)
Definition take_current_state (wf : Workflow) : Workflow :=
  match st_CurrentState (wf_Status wf) with
  | Some cs => upd_Status (set_State (cs_State cs)) wf
  | None => wf
  end.

Definition post_boot (wf : Workflow) (w : W) : Result * option error * Workflow * W :=
  let bo := spec_BootOptions (wf_Spec wf) in
  let mode := bo_BootMode bo in
  if decide (mode = BootModeISO ∨ mode = BootModeIsoboot) then
    let name := jobName jobNameISOEject wf in
    if job_unsettled wf name then
      if decide (bo_ISOURL bo = "")
      then (zero_Result, Some (ErrNew "iso url must be a valid url"), fail_state wf, w)
      else
        let '(r, e, wf, w) := handleJob [virtual_media ""] name wf w in
        match e with
        | Some err => (r, Some err, fail_state wf, w)
        | None =>
            let wf := if js_Complete (job_status (wf_Status wf) name) then take_current_state wf else wf in
            (r, None, wf, w)
        end
    else (zero_Result, None, take_current_state wf, w)
  else if decide (mode = BootModeCustomboot) then
    let name := jobName jobNameCustombootPost wf in
    if job_unsettled wf name then
      match hardwareFrom wf w with
      | (inl err, w) =>
          (zero_Result, Some (ErrWrap "failed to get hardware: " err), fail_state wf, w)
      | (inr hw, w) =>
          match templateActions (cb_PostActions (bo_CustombootConfig bo)) hw with
          | inl err =>
              (zero_Result, Some (ErrWrap "failed to template post actions: " err), fail_state wf, w)
          | inr actions =>
              let '(r, e, wf, w) := handleJob actions name wf w in
              match e with
              | Some err => (r, Some err, fail_state wf, w)
              | None =>
                  let wf :=
                    if js_Complete (job_status (wf_Status wf) name)
                       || bool_decide (cb_PostActions (bo_CustombootConfig bo) = [])
                    then take_current_state wf else wf in
                  (r, None, wf, w)
              end
          end
      end
    else (zero_Result, None, take_current_state wf, w)
  else (zero_Result, None, take_current_state wf, w).

Definition postActions (wf : Workflow) (w : W) : Result * option error * Workflow * W :=
  if bo_ToggleAllowNetboot (spec_BootOptions (wf_Spec wf))
     && negb (an_ToggledFalse (st_AllowNetboot (wf_Status wf)))
  then
    match toggleHardware false wf w with
    | (Some err, wf, w) => (zero_Result, Some err, fail_state wf, w)
    | (None, wf, w) => post_boot wf w
    end
  else post_boot wf w.

(** ** reconciler.go *)

Record ReferenceRules := mkReferenceRules { Allowlist : list string; Denylist : list string }.

(** The rules of [NewReconciler]: deny all by default. *)
Definition default_ReferenceRules : ReferenceRules :=
  let q := String (ascii_of_nat 34) "" in
  mkReferenceRules []
    ["{" +:+ q +:+ "reference" +:+ q +:+ ": {" +:+ q +:+ "name" +:+ q +:+ ": [{" +:+ q +:+ "wildcard"
     +:+ q +:+ ": " +:+ q +:+ "*" +:+ q +:+ "}]}}"].

Definition WithAllowReferenceRules (allowlist : list string) (r : ReferenceRules) : ReferenceRules :=
  mkReferenceRules allowlist (Denylist r).
Definition WithDenyReferenceRules (denylist : list string) (r : ReferenceRules) : ReferenceRules :=
  mkReferenceRules (Allowlist r) denylist.

Definition NewReconciler (opts : list (ReferenceRules → ReferenceRules)) : ReferenceRules :=
  foldl (λ r opt, opt r) default_ReferenceRules opts.

(** The condition of a failed rendering. *)
Definition render_failed (msg : string) (wf : Workflow) (w : W) : Workflow * W :=
  SetConditionIfDifferent_now TemplateRenderedSuccess metav1_ConditionFalse reasonError msg
    (upd_Status (set_TemplateRendering TemplateRenderingFailed) wf) w.

(** One iteration of the loop over the references of a hardware. *)
Definition process_reference (rules : ReferenceRules) (hardware : Hardware)
    (refName : string) (rf : Reference) (references : gmap string json) (refErr : option error) (w : W)
    : gmap string json * option error * W :=
  let ed := mkevaluationData (mksource (hw_Name hardware) (hw_Namespace hardware)) rf in
  match evaluate (Denylist rules) ed with
  | inl err => (references, errors_Join refErr (Some err), w)
  | inr (denied, _) =>
      match evaluate (Allowlist rules) ed with
      | inl err => (references, errors_Join refErr (Some err), w)
      | inr (allowed, _) =>
          if denied && negb allowed
          then (references, errors_Join refErr (Some (ErrNew "reference denied")), w)
          else
            let '(v, err, w) := kc_DynamicRead rf w in
            match v, err with
            | Some v, _ => (<[refName := v]> references, refErr, w)
            | None, None => (<[refName := json_nil]> references, refErr, w)
            | None, Some err => (references, errors_Join refErr (Some err), w)
            end
      end
  end.

(** The loop, over the references in the order [range] visits them. *)
Fixpoint process_references (rules : ReferenceRules) (hardware : Hardware)
    (refs : list (string * Reference)) (references : gmap string json) (refErr : option error) (w : W)
    : gmap string json * option error * W :=
  match refs with
  | [] => (references, refErr, w)
  | (refName, rf) :: rest =>
      let '(references, refErr, w) :=
        process_reference rules hardware refName rf references refErr w in
      process_references rules hardware rest references refErr w
  end.

(** The data map handed to the template. *)
Definition template_data (stored : Workflow) (hardware : Hardware) (references : gmap string json)
    : gmap string data_value :=
  <["references" := data_map (data_json <$> references)]>
  (<["Hardware" := data_hardware (toTemplateHardwareData hardware)]>
   (<["hardware" := data_json (match structToMap hardware with inr v => v | inl _ => json_empty end)]>
    (data_string <$> spec_HardwareMap (wf_Spec stored)))).

(** The part of [processWorkflow] that follows the two lookups. [range] visits
    the entries of a Go map in an unspecified order; [order] gives that order. *)
Definition render_status (rules : ReferenceRules)
    (order : gmap string Reference → list (string * Reference))
    (hardware : Hardware) (tpl : Template) (stored : Workflow) (w : W) : option error * Workflow * W :=
  let '(references, refErr, w) :=
    process_references rules hardware (order (hs_References (hw_Spec hardware))) ∅ None w in
  match renderTemplateHardware (wf_Name stored) (pointerToValue "" (tpl_Data tpl))
          (data_map (template_data stored hardware references)) with
  | inl err =>
      let '(stored, w) :=
        render_failed ("error rendering template: "
                       +:+ match errors_Join refErr (Some err) with Some e => error_msg e | None => "" end)
          stored w in
      (Some err, stored, w)
  | inr tinkWf =>
      let '(st, w) := YAMLToStatus kc_Ulid tinkWf w in
      let stored := upd_Status (λ _, set_TemplateRendering TemplateRenderingSuccessful st) stored in
      let '(stored, w) :=
        SetCondition_now TemplateRenderedSuccess metav1_ConditionTrue "Complete"
          "template rendered successfully" stored w in
      (None, stored, w)
  end.

Definition processWorkflow (rules : ReferenceRules)
    (order : gmap string Reference → list (string * Reference))
    (stored : Workflow) (w : W) : option error * Workflow * W :=
  let ns := wf_Namespace stored in
  let tref := spec_TemplateRef (wf_Spec stored) in
  let href := spec_HardwareRef (wf_Spec stored) in
  match kc_GetTemplate tref ns w with
  | (inl err, w) =>
      if IsNotFound err then
        let '(stored, w) := render_failed "template not found" stored w in
        (Some (ErrNew ("no template found: name=" +:+ tref +:+ "; namespace=" +:+ ns)), stored, w)
      else
        let '(stored, w) := render_failed (error_msg err) stored w in
        (Some err, stored, w)
  | (inr tpl, w) =>
      match kc_GetHardware href ns w with
      | (inr hardware, w) => render_status rules order hardware tpl stored w
      | (inl err, w) =>
          if negb (IsNotFound err) then
            let '(stored, w) := render_failed ("error getting hardware: " +:+ error_msg err) stored w in
            (Some err, stored, w)
          else if decide (href = "") then render_status rules order zero_Hardware tpl stored w
          else
            let '(stored, w) := render_failed ("hardware not found: " +:+ error_msg err) stored w in
            (Some (ErrNew ("hardware not found: name=" +:+ href +:+ "; namespace=" +:+ ns)), stored, w)
      end
  end.

Definition processNewWorkflow (rules : ReferenceRules)
    (order : gmap string Reference → list (string * Reference))
    (stored : Workflow) (w : W) : Result * option error * Workflow * W :=
  match processWorkflow rules order stored w with
  | (Some err, stored, w) => (zero_Result, Some err, stored, w)
  | (None, stored, w) =>
      let bo := spec_BootOptions (wf_Spec stored) in
      if bo_ToggleAllowNetboot bo || bool_decide (bo_BootMode bo ≠ "")
      then (requeue, None, upd_Status (set_State WorkflowStatePreparing) stored, w)
      else (zero_Result, None, upd_Status (set_State WorkflowStatePending) stored, w)
  end.

(** The status is patched only when it changed. *)
Definition mergePatchStatus (original updated : Workflow) (w : W) : option error * W :=
  if decide (wf_Status updated = wf_Status original) then (None, w)
  else
    match kc_PatchWorkflowStatus original updated w with
    | (Some err, w) =>
        (Some (ErrWrap ("error patching status of workflow: " +:+ wf_Name updated +:+ ", error: ") err), w)
    | (None, w) => (None, w)
    end.

Definition firstAction (wf : Workflow) : option Action :=
  match st_Tasks (wf_Status wf) with
  | [] => None
  | t :: _ => head (task_Actions t)
  end.

Definition updateAgentIDIfNeeded (wf : Workflow) : bool * Workflow :=
  let st := wf_Status wf in
  match st_CurrentState st with
  | None => (false, wf)
  | Some cs =>
      match list_find (λ t, task_ID t = cs_TaskID cs) (st_Tasks st) with
      | None => (false, wf)
      | Some (currentTaskIndex, currentTask) =>
          if decide (length (st_Tasks st) ≤ currentTaskIndex + 1) then (false, wf)
          else if negb (forallb (λ a, bool_decide (act_State a = WorkflowStateSuccess)) (task_Actions currentTask))
          then (false, wf)
          else
            match st_Tasks st !! S currentTaskIndex with
            | None => (false, wf)
            | Some nextTask =>
                match task_Actions nextTask with
                | [] => (false, wf)
                | a :: _ =>
                    if decide (act_State a ≠ WorkflowStatePending) then (false, wf)
                    else if decide (st_AgentID st = task_AgentID nextTask) then (false, wf)
                    else (true, upd_Status (set_AgentID (task_AgentID nextTask)) wf)
                end
            end
      end
  end.

(** [now.Add(time.Duration(GlobalTimeout) * time.Second).Add(skew)]: the
    multiplication wraps at 64 bits. *)
Definition execution_stop (now start timeout : Z) : Z :=
  let skew := if decide (start < now)%Z then duration_Abs (time_Sub now start) else 0%Z in
  (now + wrap64 (timeout * time_Second) + skew)%Z.

(** The case WorkflowStateRunning. *)
Definition reconcile_running (stored wflow : Workflow) (w : W) : Result * option error * W :=
  let '(expired, w) :=
    match st_GlobalExecutionStop (wf_Status wflow) with
    | Some stop => let '(now, w) := kc_Now w in (bool_decide (stop < now)%Z, w)
    | None => (false, w)
    end in
  if expired then
    let wflow := upd_Status (set_State WorkflowStateTimeout) wflow in
    let '(e, w) := mergePatchStatus stored wflow w in (zero_Result, e, w)
  else
    let '(_, wflow) := updateAgentIDIfNeeded wflow in
    match st_GlobalExecutionStop (wf_Status wflow), firstAction wflow, st_CurrentState (wf_Status wflow) with
    | None, Some first, Some cs =>
        if decide (act_ID first = cs_ActionID cs) then
          match act_ExecutionStart first with
          | None => (zero_Result, None, w)
          | Some start =>
              let '(now, w) := kc_Now w in
              let stop := execution_stop now start (st_GlobalTimeout (wf_Status wflow)) in
              let wflow := upd_Status (set_GlobalExecutionStop (Some stop)) wflow in
              let '(now', w) := kc_Now w in
              let '(e, w) := mergePatchStatus stored wflow w in
              (mkResult false (time_Sub stop now'), e, w)
          end
        else let '(e, w) := mergePatchStatus stored wflow w in (zero_Result, e, w)
    | _, _, _ => let '(e, w) := mergePatchStatus stored wflow w in (zero_Result, e, w)
    end.

Definition STATE_PENDING : WorkflowState := "STATE_PENDING".

(** The switch of [Reconcile] on the state of the workflow read. *)
Definition reconcile_state (rules : ReferenceRules)
    (order : gmap string Reference → list (string * Reference))
    (stored : Workflow) (w : W) : Result * option error * W :=
  let state := st_State (wf_Status stored) in
  if decide (state = "") then
    let '(resp, err, wflow, w) := processNewWorkflow rules order stored w in
    if pointerToValue false (spec_Disabled (wf_Spec wflow)) then
      let wflow2 := upd_Status (set_AgentID (st_AgentID (wf_Status wflow))) stored in
      let '(e, w) := mergePatchStatus stored wflow2 w in (zero_Result, e, w)
    else
      let '(e, w) := mergePatchStatus stored wflow w in (resp, errors_Join err e, w)
  else if decide (state = WorkflowStatePreparing) then
    let '(resp, err, wflow, w) := prepareWorkflow stored w in
    let '(e, w) := mergePatchStatus stored wflow w in (resp, errors_Join err e, w)
  else if decide (state = WorkflowStateRunning) then reconcile_running stored stored w
  else if decide (state = WorkflowStatePost) then
    let '(resp, err, wflow, w) := postActions stored w in
    let '(e, w) := mergePatchStatus stored wflow w in (resp, errors_Join err e, w)
  else if decide (state = WorkflowStatePending ∨ state = WorkflowStateTimeout
                  ∨ state = WorkflowStateFailed ∨ state = WorkflowStateSuccess)
  then (zero_Result, None, w)
  else if decide (state = STATE_PENDING) then
    let '(err, wflow, w) := processWorkflow rules order stored w in
    let '(e, w) := mergePatchStatus stored wflow w in (zero_Result, errors_Join err e, w)
  else (zero_Result, None, w).

Definition Reconcile (rules : ReferenceRules)
    (order : gmap string Reference → list (string * Reference))
    (name ns : string) (w : W) : Result * option error * W :=
  match kc_GetWorkflow name ns w with
  | (inl err, w) => if IsNotFound err then (zero_Result, None, w) else (zero_Result, Some err, w)
  | (inr stored, w) =>
      match om_DeletionTimestamp (wf_Meta stored) with
      | Some _ => (zero_Result, None, w)
      | None => reconcile_state rules order stored w
      end
  end.
End reconciler.

(** ** Lemmas: the status changes of preparation and post actions *)

Section changes.
Context `{KC : KubeClient W}.

(** [wf'] is [wf] up to boot options, conditions, and a state in [P]. *)
Definition moved (P : WorkflowState → Prop) (wf wf' : Workflow) : Prop :=
  ∃ wf1 s, boot_frame wf wf1 ∧ P s ∧ wf' = upd_Status (set_State s) wf1.

Lemma upd_State_id wf : upd_Status (set_State (st_State (wf_Status wf))) wf = wf.
Proof. by destruct wf as [m s []]. Qed.

Lemma moved_frame P wf wf' : boot_frame wf wf' → P (st_State (wf_Status wf)) → moved P wf wf'.
Proof.
  intros Hf HP. exists wf', (st_State (wf_Status wf')). rewrite upd_State_id.
  destruct (boot_frame_fields _ _ Hf) as (_ & _ & -> & _). done.
Qed.

Lemma moved_state (P : WorkflowState → Prop) wf s wf' :
  boot_frame wf wf' → P s → moved P wf (upd_Status (set_State s) wf').
Proof. intros. by exists wf', s. Qed.

Lemma moved_trans (P Q : WorkflowState → Prop) wf1 wf2 wf3 :
  boot_frame wf1 wf2 → moved P wf2 wf3 → (∀ s, P s → Q s) → moved Q wf1 wf3.
Proof. intros H (wf & s & H' & Hs & ->) HPQ. exists wf, s. split_and!; [by etrans|auto|done]. Qed.

Lemma prepare_failed_moved (P : WorkflowState → Prop) ty what err wf w r e wf' w' :
  P WorkflowStateFailed → prepare_failed ty what err wf w = (r, e, wf', w') → moved P wf wf'.
Proof.
  intros HP. unfold prepare_failed.
  destruct (SetConditionIfDifferent_now _ _ _ _ _ _) as [wf1 w1] eqn:E. intros [= <- <- <- <-].
  apply moved_state; [by eapply SetConditionIfDifferent_now_frame|done].
Qed.

(** States a preparing workflow can be left in. *)
Definition prepare_states (s0 s : WorkflowState) : Prop :=
  s = s0 ∨ s = WorkflowStatePending ∨ s = WorkflowStateFailed.

Lemma prepare_job_moved actions name wf w r e wf' w' :
  prepare_job actions name wf w = (r, e, wf', w') →
  moved (prepare_states (st_State (wf_Status wf))) wf wf'.
Proof.
  unfold prepare_job. destruct (handleJob _ _ _ _) as [[[r1 e1] wf1] w1] eqn:E.
  apply handleJob_frame in E.
  destruct e1; [|case_match]; intros [= <- <- <- <-].
  - apply moved_state; unfold prepare_states; auto.
  - apply moved_state; unfold prepare_states; auto.
  - apply moved_frame; unfold prepare_states; auto.
Qed.

Lemma prepare_boot_moved wf w r e wf' w' :
  prepare_boot wf w = (r, e, wf', w') → moved (prepare_states (st_State (wf_Status wf))) wf wf'.
Proof.
  assert (prepare_states (st_State (wf_Status wf)) WorkflowStateFailed) as HF by (unfold prepare_states; auto).
  assert (prepare_states (st_State (wf_Status wf)) WorkflowStatePending) as HP by (unfold prepare_states; auto).
  assert (moved (prepare_states (st_State (wf_Status wf))) wf wf) as Hid
    by (apply moved_frame; [reflexivity|unfold prepare_states; auto]).
  unfold prepare_boot.
  repeat case_decide; repeat case_match; intros; simplify_eq;
    eauto using prepare_failed_moved, prepare_job_moved.
  - apply moved_state; [reflexivity|done].
  - apply moved_state; [reflexivity|done].
Qed.

Lemma prepareWorkflow_moved wf w r e wf' w' :
  prepareWorkflow wf w = (r, e, wf', w') → moved (prepare_states (st_State (wf_Status wf))) wf wf'.
Proof.
  unfold prepareWorkflow. case_match; [|apply prepare_boot_moved].
  destruct (toggleHardware _ _ _) as [[[err|] wf1] w1] eqn:E; apply toggleHardware_frame in E.
  - intros [= <- <- <- <-]. apply moved_state; [done|unfold prepare_states; auto].
  - intros H0%prepare_boot_moved. eapply moved_trans; [done..|].
    destruct (boot_frame_fields _ _ E) as (_ & _ & -> & _). auto.
Qed.

(** States a workflow can be left in by its post actions. *)
Definition post_states (s0 : WorkflowState) (cs : option CurrentState) (s : WorkflowState) : Prop :=
  s = s0 ∨ s = WorkflowStateFailed ∨ cs_State <$> cs = Some s.

Lemma take_current_state_moved wf wf1 :
  boot_frame wf wf1 →
  moved (post_states (st_State (wf_Status wf)) (st_CurrentState (wf_Status wf))) wf (take_current_state wf1).
Proof.
  intros Hf. unfold take_current_state.
  destruct (boot_frame_fields _ _ Hf) as (_ & _ & _ & -> & _).
  destruct (st_CurrentState (wf_Status wf)) as [cs|].
  - apply moved_state; [done|unfold post_states; auto].
  - apply moved_frame; [done|unfold post_states; auto].
Qed.

Lemma post_boot_moved wf w r e wf' w' :
  post_boot wf w = (r, e, wf', w') →
  moved (post_states (st_State (wf_Status wf)) (st_CurrentState (wf_Status wf))) wf wf'.
Proof.
  set (P := post_states _ _).
  assert (∀ wf1, boot_frame wf wf1 → moved P wf (fail_state wf1)) as HF
    by (intros; apply moved_state; unfold P, post_states; auto).
  assert (∀ wf1, boot_frame wf wf1 → moved P wf wf1) as Hid
    by (intros; apply moved_frame; unfold P, post_states; auto).
  assert (∀ wf1, boot_frame wf wf1 → moved P wf (take_current_state wf1)) as HT
    by (apply take_current_state_moved).
  unfold post_boot. intros H. repeat (case_match || case_decide); simplify_eq; auto with tink.
  all: match goal with E : handleJob _ _ _ _ = _ |- _ => apply handleJob_frame in E end; auto.
Qed.

Lemma postActions_moved wf w r e wf' w' :
  postActions wf w = (r, e, wf', w') →
  moved (post_states (st_State (wf_Status wf)) (st_CurrentState (wf_Status wf))) wf wf'.
Proof.
  unfold postActions. case_match; [|apply post_boot_moved].
  destruct (toggleHardware _ _ _) as [[[err|] wf1] w1] eqn:E; apply toggleHardware_frame in E.
  - intros [= <- <- <- <-]. apply moved_state; [done|unfold post_states; auto].
  - intros H1%post_boot_moved. eapply moved_trans; [done..|].
    destruct (boot_frame_fields _ _ E) as (_ & _ & -> & -> & _). auto.
Qed.
End changes.
