(* ===== verification/Controller.v ===== *)
(** * Correctness of the workflow controller

    Statements about whole reconciliations: which writes [Reconcile] makes, how
    the state of a workflow may move, when a workflow times out, which
    references a template may read. They hold for every client. *)
From S2P Require Import Prelude GoStrings BmcTypes Api BmcApi Template KubeClient WorkflowJob Reconciler.

(** ** The writes of a reconciliation *)

Section log.
Context `{TE : TemplateEnv} {W : Type} (KC : KubeClient W).
Existing Instance logged.

Definition not_patch (e : entry) : Prop :=
  match e.1 with WPatchStatus _ _ => False | _ => True end.

(** [wl'] extends the log of [wl] by entries that are not status patches. *)
Definition quiet (wl wl' : W * list entry) : Prop :=
  ∃ es, wl'.2 = wl.2 ++ es ∧ Forall not_patch es.

#[export] Instance quiet_preorder : PreOrder quiet.
Proof.
  split.
  - intros wl. exists []. by rewrite app_nil_r.
  - intros wl1 wl2 wl3 (es & H1 & F1) (es' & H2 & F2). exists (es ++ es').
    rewrite H2, H1, (assoc (++)). split; [done|by apply Forall_app].
Qed.

(** [wl'] has the log of [wl]: only reads in between. *)
Definition silent (wl wl' : W * list entry) : Prop := wl'.2 = wl.2.

#[export] Instance silent_preorder : PreOrder silent.
Proof. split; unfold silent; [done|congruence]. Qed.

Lemma silent_read {A} (f : W → A * W) wl a wl' : lread f wl = (a, wl') → silent wl wl'.
Proof. by intros [_ H]%lread_inv. Qed.

Lemma quiet_eq (wl wl' : W * list entry) : wl'.2 = wl.2 → quiet wl wl'.
Proof. intros H. exists []. by rewrite app_nil_r. Qed.

Lemma quiet_read {A} (f : W → A * W) wl a wl' : lread f wl = (a, wl') → quiet wl wl'.
Proof. intros [_ H]%lread_inv. by apply quiet_eq. Qed.

Lemma hardwareFrom_quiet wf wl a wl' : hardwareFrom wf wl = (a, wl') → quiet wl wl'.
Proof.
  unfold hardwareFrom; simpl. destruct (lread _ _) as [[|] wl1] eqn:E; intros [= <- <-];
    by eapply quiet_read.
Qed.

Lemma setAllowPXE_quiet wf h b wl e wl' : setAllowPXE wf h b wl = (e, wl') → quiet wl wl'.
Proof.
  unfold setAllowPXE. intros (es & El & _ & H)%(setAllowPXE_loop_log KC); [|lia..].
  exists es. split; [done|].
  assert (∀ cs, Forall (conflicted b) cs → Forall not_patch cs) as Hc
    by (intros cs HF; eapply Forall_impl; [exact HF|]; by intros ? (? & ? & -> & _)).
  destruct e as [err|]; [destruct H as [H|(cs & h' & er & -> & _ & H)]|destruct H as (cs & h' & -> & _ & H)].
  - auto.
  - apply Forall_app. split; [auto|by repeat constructor].
  - apply Forall_app. split; [auto|by repeat constructor].
Qed.

Lemma SetConditionIfDifferent_now_silent ty st r m wf wl wf' wl' :
  SetConditionIfDifferent_now ty st r m wf wl = (wf', wl') → silent wl wl'.
Proof.
  unfold SetConditionIfDifferent_now, stamped. simpl.
  destruct (lread _ _) as [now wl1] eqn:E. intros [= _ <-]. by eapply silent_read.
Qed.

Lemma SetCondition_now_silent ty st r m wf wl wf' wl' :
  SetCondition_now ty st r m wf wl = (wf', wl') → silent wl wl'.
Proof. by intros H%SetCondition_now_log. Qed.

Lemma SetConditionIfDifferent_now_quiet ty st r m wf wl wf' wl' :
  SetConditionIfDifferent_now ty st r m wf wl = (wf', wl') → quiet wl wl'.
Proof. intros H%SetConditionIfDifferent_now_silent. by apply quiet_eq. Qed.

Lemma SetCondition_now_quiet ty st r m wf wl wf' wl' :
  SetCondition_now ty st r m wf wl = (wf', wl') → quiet wl wl'.
Proof. intros H%SetCondition_now_log. by apply quiet_eq. Qed.

Lemma toggleHardware_quiet b wf wl e wf' wl' : toggleHardware b wf wl = (e, wf', wl') → quiet wl wl'.
Proof.
  unfold toggleHardware. destruct (hardwareFrom wf wl) as [got wl1] eqn:E.
  apply hardwareFrom_quiet in E. intros H. etrans; [done|]. clear E.
  destruct got as [err|hw].
  { open_let. simplify_eq. by eapply SetConditionIfDifferent_now_quiet. }
  destruct b; (case_match; [simplify_eq; reflexivity|]);
    destruct (setAllowPXE _ _ _ _) as [[err|] wl2] eqn:E; apply setAllowPXE_quiet in E;
    (etrans; [done|]); open_let; simplify_eq;
    eauto using SetConditionIfDifferent_now_quiet, SetCondition_now_quiet.
Qed.

Lemma handleJob_quiet actions name wf wl r e wf' wl' :
  handleJob actions name wf wl = (r, e, wf', wl') → quiet wl wl'.
Proof.
  intros (es & El & H)%(handleJob_log KC). exists es. split; [done|].
  eapply Forall_impl; [done|]. unfold not_patch, job_write_ok. intros [[] ?]; naive_solver.
Qed.

Lemma prepare_failed_quiet ty what err wf wl r e wf' wl' :
  prepare_failed ty what err wf wl = (r, e, wf', wl') → quiet wl wl'.
Proof. unfold prepare_failed. open_let. intros; simplify_eq. by eapply SetConditionIfDifferent_now_quiet. Qed.

Lemma prepare_job_quiet actions name wf wl r e wf' wl' :
  prepare_job actions name wf wl = (r, e, wf', wl') → quiet wl wl'.
Proof.
  unfold prepare_job. destruct (handleJob _ _ _ _) as [[[r1 e1] wf1] wl1] eqn:E.
  apply handleJob_quiet in E. by destruct e1; intros [= <- <- <- <-].
Qed.

Lemma prepareWorkflow_quiet wf wl r e wf' wl' :
  prepareWorkflow wf wl = (r, e, wf', wl') → quiet wl wl'.
Proof.
  assert (∀ wf wl r e wf' wl', prepare_boot wf wl = (r, e, wf', wl') → quiet wl wl') as Hb.
  { clear. intros wf wl r e wf' wl'. unfold prepare_boot.
    destruct (hardwareFrom wf wl) as [got wl1] eqn:E. apply hardwareFrom_quiet in E. intros H.
    repeat (case_match || case_decide); simplify_eq; try reflexivity; (etrans; [done|]);
      eauto using prepare_failed_quiet, prepare_job_quiet. }
  unfold prepareWorkflow. case_match; [|eauto].
  destruct (toggleHardware _ _ _) as [[[err|] wf1] wl1] eqn:E; apply toggleHardware_quiet in E;
    intros; simplify_eq; [done|]. etrans; eauto.
Qed.

Lemma postActions_quiet wf wl r e wf' wl' :
  postActions wf wl = (r, e, wf', wl') → quiet wl wl'.
Proof.
  assert (∀ wf wl r e wf' wl', post_boot wf wl = (r, e, wf', wl') → quiet wl wl') as Hb.
  { clear. intros wf wl r e wf' wl'. unfold post_boot.
    destruct (hardwareFrom wf wl) as [got wl1] eqn:E. apply hardwareFrom_quiet in E. intros H.
    repeat (case_match || case_decide); simplify_eq; try reflexivity; try done;
      repeat match goal with
             | E : handleJob _ _ _ _ = _ |- _ => apply handleJob_quiet in E
             end; done || (etrans; done). }
  unfold postActions. case_match; [|eauto].
  destruct (toggleHardware _ _ _) as [[[err|] wf1] wl1] eqn:E; apply toggleHardware_quiet in E;
    intros; simplify_eq; [done|]. etrans; eauto.
Qed.

Lemma process_references_silent rules hw refs references refErr wl a b wl' :
  process_references rules hw refs references refErr wl = (a, b, wl') → silent wl wl'.
Proof.
  revert references refErr wl. induction refs as [|[name rf] refs IH]; intros references refErr wl;
    simpl; [by intros; simplify_eq|].
  destruct (process_reference _ _ _ _ _ _ _) as [[r1 e1] wl1] eqn:E. intros H%IH.
  etrans; [|done]. clear H IH. revert E. unfold process_reference. simpl.
  destruct (lread _ _) as [[v err] wl2] eqn:E2. apply silent_read in E2.
  repeat case_match; intros; simplify_eq; done || reflexivity.
Qed.

Lemma convert_silent wf (wl : W * list entry) st wl' : YAMLToStatus kc_Ulid wf wl = (st, wl') → silent wl wl'.
Proof.
  assert (∀ l (wl : W * list entry) a wl', convert_actions kc_Ulid l wl = (a, wl') → silent wl wl') as Ha.
  { clear. induction l as [|y l IH]; intros wl a wl'; simpl; [by intros; simplify_eq|].
    unfold convert_action; simpl. destruct (lread _ _) as [id wl1] eqn:E; apply silent_read in E.
    destruct (convert_actions _ _ _) as [l2 wl2] eqn:E2. intros; simplify_eq. etrans; eauto. }
  assert (∀ l ag (wl : W * list entry) a b wl', convert_tasks kc_Ulid ag l wl = (a, b, wl') → silent wl wl') as Ht.
  { clear wf st wl wl'. induction l as [|y l IH]; intros ag wl a b wl'; [by intros; simplify_eq/=|].
    cbn [convert_tasks]. unfold convert_task.
    destruct (convert_actions _ _ _) as [l1 wl1] eqn:E1; apply Ha in E1. simpl.
    destruct (lread _ _) as [id wl2] eqn:E; apply silent_read in E.
    destruct (convert_tasks _ _ _ _) as [[l2 ag2] wl3] eqn:E2. intros; simplify_eq.
    etrans; [done|]. etrans; eauto. }
  unfold YAMLToStatus. destruct (convert_tasks _ _ _ _) as [[l2 ag2] wl3] eqn:E. intros; simplify_eq. eauto.
Qed.

Lemma processWorkflow_silent rules order wf wl e wf' wl' :
  processWorkflow rules order wf wl = (e, wf', wl') → silent wl wl'.
Proof.
  assert (∀ hw tpl wl e wf' wl', render_status rules order hw tpl wf wl = (e, wf', wl') → silent wl wl') as Hr.
  { clear. intros hw tpl wl e wf' wl'. unfold render_status.
    destruct (process_references _ _ _ _ _ _) as [[r1 e1] wl1] eqn:E; apply process_references_silent in E.
    intros H. etrans; [done|]. clear E. destruct (renderTemplateHardware _ _ _).
    - unfold render_failed in H. repeat open_let. simplify_eq. by eapply SetConditionIfDifferent_now_silent.
    - destruct (YAMLToStatus _ _ _) as [st wl2] eqn:E2; apply convert_silent in E2. open_let. simplify_eq.
      etrans; [done|]. by eapply SetCondition_now_silent. }
  unfold processWorkflow. simpl.
  destruct (lread (kc_GetTemplate _ _) wl) as [got wl1] eqn:E; apply silent_read in E. intros H.
  etrans; [done|]. clear E. unfold render_failed in H.
  destruct got as [err|tpl].
  { case_match; repeat open_let; simplify_eq; by eapply SetConditionIfDifferent_now_silent. }
  destruct (lread (kc_GetHardware _ _) wl1) as [got wl2] eqn:E; apply silent_read in E.
  etrans; [done|]. clear E. destruct got as [err|hw]; [|eauto].
  repeat (case_match || case_decide); simplify_eq; eauto using SetConditionIfDifferent_now_silent.
Qed.

(** [mergePatchStatus] makes at most one write, the patch it is named after. *)
Lemma mergePatchStatus_log o u wl e wl' :
  mergePatchStatus o u wl = (e, wl') →
  (wf_Status u = wf_Status o ∧ wl'.2 = wl.2) ∨
  (wf_Status u ≠ wf_Status o ∧ ∃ r, wl'.2 = wl.2 ++ [(WPatchStatus o u, r)]).
Proof.
  unfold mergePatchStatus. case_decide; [intros [= <- <-]; auto|]. simpl.
  destruct (lwrite _ _ _) as [r wl1] eqn:E; apply lwrite_inv in E as [_ E].
  destruct r; intros [= <- <-]; eauto.
Qed.
End log.

(** ** Status patches *)

(** The controller leaves the work itself alone: the tasks and the progress the
    agents reported. *)
Definition same_work (o u : WorkflowStatus) : Prop :=
  st_Tasks u = st_Tasks o ∧ st_CurrentState u = st_CurrentState o.

(** The moves of the overall state the controller may make. *)
Definition allowed (o u : WorkflowStatus) : Prop :=
  (st_State o = "" ∧ (st_State u = "" ∨ st_State u = WorkflowStatePreparing ∨ st_State u = WorkflowStatePending)) ∨
  (st_State o = WorkflowStatePreparing ∧ prepare_states WorkflowStatePreparing (st_State u) ∧ same_work o u) ∨
  (st_State o = WorkflowStateRunning ∧
     (st_State u = WorkflowStateRunning ∨ st_State u = WorkflowStateTimeout) ∧ same_work o u) ∨
  (st_State o = WorkflowStatePost ∧ post_states WorkflowStatePost (st_CurrentState o) (st_State u) ∧ same_work o u) ∨
  (st_State o = STATE_PENDING ∧ (st_State u = STATE_PENDING ∨ st_State u = "")).

Lemma allowed_running o u :
  st_State o = WorkflowStateRunning →
  st_State u = WorkflowStateRunning ∨ st_State u = WorkflowStateTimeout →
  same_work o u → allowed o u.
Proof. intros. right; right; left. done. Qed.

(** [u] differs from [o] in its status only, by an allowed move. *)
Definition good_patch (o u : Workflow) : Prop :=
  wf_Meta u = wf_Meta o ∧ wf_Spec u = wf_Spec o ∧ allowed (wf_Status o) (wf_Status u).

Section patches.
Context `{TE : TemplateEnv} {W : Type} (KC : KubeClient W).
Existing Instance logged.

(** The log grew by writes of other kinds, then at most one patch of [o], which
    is good and changes the status. *)
Definition patched (o : Workflow) (wl wl' : W * list entry) : Prop :=
  ∃ es, wl'.2 = wl.2 ++ es ∧
    (Forall not_patch es ∨
     ∃ es' u r, es = es' ++ [(WPatchStatus o u, r)] ∧ Forall not_patch es' ∧
       wf_Status u ≠ wf_Status o ∧ good_patch o u).

Lemma patched_quiet o wl wl' : quiet wl wl' → patched o wl wl'.
Proof. intros (es & H & F). exists es. auto. Qed.

Lemma patched_merge o u wl wl1 e wl' :
  quiet wl wl1 → good_patch o u → mergePatchStatus o u wl1 = (e, wl') → patched o wl wl'.
Proof.
  intros Hq Hg [[_ E]|[Hne [r E]]]%mergePatchStatus_log.
  - apply patched_quiet. etrans; [done|by apply quiet_eq].
  - destruct Hq as (es & H & F). exists (es ++ [(WPatchStatus o u, r)]).
    rewrite E, H, (assoc (++)). split; [done|]. right. exists es, u, r. done.
Qed.

Lemma moved_good P wf wf' :
  moved P wf wf' →
  wf_Meta wf' = wf_Meta wf ∧ wf_Spec wf' = wf_Spec wf ∧ P (st_State (wf_Status wf')) ∧
  same_work (wf_Status wf) (wf_Status wf').
Proof.
  intros (wf1 & s & Hf & HP & ->).
  destruct (boot_frame_fields _ _ Hf) as (H1 & H2 & _ & H3 & H4 & _). done.
Qed.

(** What [processWorkflow] keeps: metadata, spec and, on failure, the state. *)
Lemma processWorkflow_state rules order wf (wl : W * list entry) e wf' wl' :
  processWorkflow rules order wf wl = (e, wf', wl') →
  wf_Meta wf' = wf_Meta wf ∧ wf_Spec wf' = wf_Spec wf ∧
  st_State (wf_Status wf') = match e with Some _ => st_State (wf_Status wf) | None => "" end.
Proof.
  assert (∀ msg (wl : W * list entry) wf' wl', render_failed msg wf wl = (wf', wl') →
    wf_Meta wf' = wf_Meta wf ∧ wf_Spec wf' = wf_Spec wf ∧ st_State (wf_Status wf') = st_State (wf_Status wf)) as Hf.
  { clear. intros msg wl wf' wl' H%SetConditionIfDifferent_now_frame.
    apply boot_frame_fields in H as (-> & -> & -> & _). done. }
  assert (∀ hw tpl (wl : W * list entry) e wf' wl', render_status rules order hw tpl wf wl = (e, wf', wl') →
    wf_Meta wf' = wf_Meta wf ∧ wf_Spec wf' = wf_Spec wf ∧
    st_State (wf_Status wf') = match e with Some _ => st_State (wf_Status wf) | None => "" end) as Hr.
  { intros hw tpl wl0 e0 wf0 wl0' H. unfold render_status in H. repeat open_let.
    destruct (renderTemplateHardware _ _ _); repeat open_let; simplify_eq; [eauto|].
    match goal with E : YAMLToStatus _ _ _ = _ |- _ => unfold YAMLToStatus in E end.
    repeat open_let. simplify_eq.
    match goal with E : SetCondition_now _ _ _ _ _ _ = _ |- _ =>
      apply SetCondition_now_frame in E as (c & -> & _) end.
    unfold upd_Status. by rewrite SetCondition_eq. }
  unfold processWorkflow. intros H. repeat (case_match || case_decide || open_let); simplify_eq; try (by eauto).
  all: by apply Hr in H.
Qed.

(** Rebinding the workflow changes at most its agent ID. *)
Lemma updateAgentIDIfNeeded_frame wf :
  ∃ b a, updateAgentIDIfNeeded wf = (b, upd_Status (set_AgentID a) wf).
Proof.
  assert (wf = upd_Status (set_AgentID (st_AgentID (wf_Status wf))) wf) as Hid by (by destruct wf as [m s []]).
  unfold updateAgentIDIfNeeded. repeat (case_match || case_decide); eauto using f_equal.
  all: exists false, (st_AgentID (wf_Status wf)); by rewrite <-Hid.
Qed.

Lemma reconcile_running_patched wf (wl : W * list entry) r e wl' :
  st_State (wf_Status wf) = WorkflowStateRunning →
  reconcile_running wf wf wl = (r, e, wl') → patched wf wl wl'.
Proof.
  intros Hs. unfold reconcile_running.
  set (chk := match st_GlobalExecutionStop _ with Some _ => _ | None => _ end).
  assert (∃ b wl1, chk = (b, wl1) ∧ quiet wl wl1) as (b & wl1 & -> & Hq).
  { unfold chk. destruct (st_GlobalExecutionStop _); [|by exists false, wl]. simpl.
    destruct (lread _ _) as [now wl1] eqn:E; apply quiet_read in E. eauto. }
  destruct b.
  { destruct (mergePatchStatus _ _ _) as [e1 wl2] eqn:E. intros [= <- <- <-].
    eapply patched_merge; [done| |done]. split_and!; [done..|].
    apply allowed_running; [done|by right|done]. }
  destruct (updateAgentIDIfNeeded_frame wf) as (b2 & a & ->).
  assert (∀ wl2 stop e wl',
    quiet wl1 wl2 →
    mergePatchStatus wf (upd_Status (set_GlobalExecutionStop stop) (upd_Status (set_AgentID a) wf)) wl2 = (e, wl') →
    patched wf wl wl') as Hm.
  { intros wl2 stop e' wl3 Hq2 E. eapply patched_merge; [by etrans| |done]. split_and!; [done..|].
    apply allowed_running; [done|by left|done]. }
  assert (∀ e wl', mergePatchStatus wf (upd_Status (set_AgentID a) wf) wl1 = (e, wl') → patched wf wl wl') as Hm'.
  { intros e' wl3 E. apply (Hm wl1 (st_GlobalExecutionStop (wf_Status wf)) e' wl3); [done|].
    rewrite <-E. by destruct wf as [m s []]. }
  intros H. repeat (case_match || case_decide || open_let); simplify_eq; try (by eapply Hm').
  { repeat match goal with E : kc_Now _ = _ |- _ => apply quiet_read in E end.
    eapply Hm; [|done]. by etrans. }
  by apply patched_quiet.
Qed.

Lemma reconcile_state_patched rules order wf (wl : W * list entry) r e wl' :
  reconcile_state rules order wf wl = (r, e, wl') → patched wf wl wl'.
Proof.
  unfold reconcile_state. case_decide as H0.
  { destruct (processNewWorkflow _ _ _ _) as [[[r1 e1] wf1] wl1] eqn:E.
    assert (quiet wl wl1 ∧ good_patch wf wf1) as [Hq Hg].
    { revert E. unfold processNewWorkflow.
      destruct (processWorkflow _ _ _ _) as [[e2 wf2] wl2] eqn:E2.
      pose proof (quiet_eq _ _ (processWorkflow_silent KC _ _ _ _ _ _ _ E2)) as Hq.
      apply processWorkflow_state in E2 as (H1 & H2 & H3).
      destruct e2; [|case_match]; intros [= <- <- <- <-]; (split; [done|]);
        (split_and!; [done..|]); left; (split; [done|]); simpl; rewrite ?H3; auto. }
    case_match.
    - destruct (mergePatchStatus _ _ _) as [e2 wl2] eqn:E2. intros [= <- <- <-].
      eapply patched_merge; [done| |done]. split_and!; [done..|]. left. simpl. auto.
    - destruct (mergePatchStatus _ _ _) as [e2 wl2] eqn:E2. intros [= <- <- <-].
      by eapply patched_merge. }
  case_decide as H1.
  { destruct (prepareWorkflow _ _) as [[[r1 e1] wf1] wl1] eqn:E.
    destruct (mergePatchStatus _ _ _) as [e2 wl2] eqn:E2. intros [= <- <- <-].
    eapply patched_merge; [by eapply prepareWorkflow_quiet| |done].
    apply prepareWorkflow_moved, moved_good in E as (Hm & Hs & Hp & Hw). split_and!; [done..|].
    right; left. by rewrite H1 in Hp. }
  case_decide as H2; [by apply reconcile_running_patched|].
  case_decide as H3.
  { destruct (postActions _ _) as [[[r1 e1] wf1] wl1] eqn:E.
    destruct (mergePatchStatus _ _ _) as [e2 wl2] eqn:E2. intros [= <- <- <-].
    eapply patched_merge; [by eapply postActions_quiet| |done].
    apply postActions_moved, moved_good in E as (Hm & Hs & Hp & Hw). split_and!; [done..|].
    right; right; right; left. by rewrite H3 in Hp. }
  case_decide; [intros [= <- <- <-]; by apply patched_quiet|].
  case_decide as H5; [|intros [= <- <- <-]; by apply patched_quiet].
  destruct (processWorkflow _ _ _ _) as [[e1 wf1] wl1] eqn:E.
  destruct (mergePatchStatus _ _ _) as [e2 wl2] eqn:E2. intros [= <- <- <-].
  eapply patched_merge; [eapply quiet_eq; by eapply processWorkflow_silent| |done].
  apply processWorkflow_state in E as (Hm & Hs & Hst). split_and!; [done..|].
  right; right; right; right. split; [done|]. destruct e1; rewrite Hst; auto.
Qed.
End patches.

(** ** Main results *)

Section results.
Context `{TE : TemplateEnv} {W : Type} (KC : KubeClient W).
Existing Instance logged.

(** C9: the state machine of the controller. A reconciliation writes the status
    of the workflow it read, of no other, at most once and as its last write,
    only when it differs from what was read. The new status keeps metadata and
    spec, makes one of the allowed moves of the overall state, and, once the
    template is rendered, never touches the tasks or the progress reported by
    the agents. *)
Theorem Reconcile_patches rules order name ns w l :
  ∃ r e w' es,
    Reconcile rules order name ns (w, l) = (r, e, (w', l ++ es)) ∧
    (Forall not_patch es ∨
     ∃ es' o u res w1, es = es' ++ [(WPatchStatus o u, res)] ∧ Forall not_patch es' ∧
       kc_GetWorkflow name ns w = (inr o, w1) ∧ wf_Status u ≠ wf_Status o ∧ good_patch o u).
Proof.
  destruct (Reconcile rules order name ns (w, l)) as [[r e] [w' l']] eqn:E.
  enough (quiet (w, l) (w', l') ∨
    ∃ o w1, kc_GetWorkflow name ns w = (inr o, w1) ∧ patched o (w, l) (w', l')) as H.
  { destruct H as [(es & Hl & F)|(o & w1 & Hg & es & Hl & H)]; simpl in Hl; subst.
    - eauto 10.
    - exists r, e, w', es. split; [done|]. destruct H as [H|(es' & u & res & -> & H)]; [auto|].
      right. exists es', o, u, res, w1. naive_solver. }
  revert E. unfold Reconcile. simpl.
  destruct (lread _ _) as [got wl1] eqn:E; apply lread_inv in E as [Hg El].
  destruct got as [err|o]; [case_match; intros [= <- <- <-]; left; by apply quiet_eq|].
  case_match; [intros [= <- <- <-]; left; by apply quiet_eq|].
  intros Hr. right. exists o, wl1.1. split; [done|].
  assert (quiet (w, l) wl1) as Hq by (by apply quiet_eq).
  enough (patched o wl1 (w', l')) as (es & Hes & Hp)
    by (exists es; by rewrite <-El).
  clear El Hg Hq. by eapply reconcile_state_patched.
Qed.

(** ** Handing a workflow to the next agent *)

(** [t'] is the task that follows the one the agents last reported on, whose
    actions all succeeded; its first action is pending and its agent is not the
    one the workflow is bound to. *)
Definition handoff (st : WorkflowStatus) (t' : Task) : Prop :=
  ∃ cs i t a,
    st_CurrentState st = Some cs ∧
    list_find (λ t, task_ID t = cs_TaskID cs) (st_Tasks st) = Some (i, t) ∧
    Forall (λ x, act_State x = WorkflowStateSuccess) (task_Actions t) ∧
    st_Tasks st !! S i = Some t' ∧ head (task_Actions t') = Some a ∧
    act_State a = WorkflowStatePending ∧ st_AgentID st ≠ task_AgentID t'.

Lemma forallb_success l :
  forallb (λ a, bool_decide (act_State a = WorkflowStateSuccess)) l = true ↔
    Forall (λ x, act_State x = WorkflowStateSuccess) l.
Proof.
  induction l as [|a l IH]; simpl; [by split|].
  by rewrite andb_true_iff, IH, bool_decide_eq_true, Forall_cons.
Qed.

Lemma updateAgentIDIfNeeded_cases wf :
  (∃ t', handoff (wf_Status wf) t' ∧
     updateAgentIDIfNeeded wf = (true, upd_Status (set_AgentID (task_AgentID t')) wf)) ∨
  ((∀ t', ¬ handoff (wf_Status wf) t') ∧ updateAgentIDIfNeeded wf = (false, wf)).
Proof.
  unfold updateAgentIDIfNeeded.
  destruct (st_CurrentState _) as [cs|] eqn:Ec; [|right; split; [|done]; intros t' (cs & ? & ? & ? & ? & _); congruence].
  destruct (list_find _ _) as [[i t]|] eqn:Hf; last first.
  { right. split; [|done]. intros t' (cs' & i & t & a & Hc & H' & _). rewrite Ec in Hc.
    injection Hc as <-. by rewrite Hf in H'. }
  assert (∀ t', handoff (wf_Status wf) t' → ∃ a, Forall (λ x, act_State x = WorkflowStateSuccess) (task_Actions t) ∧
    st_Tasks (wf_Status wf) !! S i = Some t' ∧ head (task_Actions t') = Some a ∧
    act_State a = WorkflowStatePending ∧ st_AgentID (wf_Status wf) ≠ task_AgentID t') as Hh.
  { intros t' (cs' & i' & t2 & a & Hc & H' & H). rewrite Ec in Hc. injection Hc as <-.
    rewrite Hf in H'. injection H' as <- <-. eauto. }
  case_decide as Hlen.
  { right. split; [|done]. intros t' (a & _ & H%lookup_lt_Some & _)%Hh. lia. }
  destruct (forallb _ _) eqn:Hs; simpl; last first.
  { right. split; [|done]. intros t' (a & H%forallb_success & _)%Hh. congruence. }
  apply forallb_success in Hs.
  destruct (st_Tasks (wf_Status wf) !! S i) as [t'|] eqn:Hn; last first.
  { right. split; [|done]. intros t' (a & _ & H & _)%Hh. congruence. }
  destruct (task_Actions t') as [|a l] eqn:Ea.
  { right. split; [|done]. intros u (a & _ & H & H' & _)%Hh. simplify_eq. by rewrite Ea in H'. }
  case_decide as Hp; [|case_decide as Hg].
  - right. split; [|done]. intros u (a' & _ & H & H' & H2 & _)%Hh. simplify_eq. by rewrite Ea in H'; simplify_eq/=.
  - right. split; [|done]. intros u (a' & _ & H & H' & _ & H2)%Hh. by simplify_eq.
  - left. exists t'. split; [|done]. exists cs, i, t, a. rewrite Ea. by split_and!.
Qed.

(** The workflow is rebound to another agent exactly when it is due: the
    task last reported on succeeded and the next one is pending and belongs to
    another agent. Then only the agent ID changes, to that agent; otherwise
    nothing does. *)
Theorem updateAgentIDIfNeeded_spec wf :
  (∃ t', handoff (wf_Status wf) t' ∧
     updateAgentIDIfNeeded wf = (true, upd_Status (set_AgentID (task_AgentID t')) wf)) ∨
  ((∀ t', ¬ handoff (wf_Status wf) t') ∧ updateAgentIDIfNeeded wf = (false, wf)).
Proof. apply updateAgentIDIfNeeded_cases. Qed.

(** Finished and not yet started work is left alone. For a workflow that is
    being deleted, or PENDING, SUCCESS, FAILED or TIMEOUT, a reconciliation does
    nothing at all after reading it, and asks for no requeue. *)
Theorem Reconcile_noop rules order name ns w o w1 :
  kc_GetWorkflow name ns w = (inr o, w1) →
  om_DeletionTimestamp (wf_Meta o) ≠ None ∨
    st_State (wf_Status o) ∈ [WorkflowStatePending; WorkflowStateSuccess; WorkflowStateFailed; WorkflowStateTimeout] →
  Reconcile (KC := KC) rules order name ns w = (zero_Result, None, w1).
Proof.
  intros Hg H. unfold Reconcile. rewrite Hg.
  destruct (om_DeletionTimestamp _); [done|]. destruct H as [H|H]; [done|].
  unfold reconcile_state. rewrite !elem_of_cons, elem_of_nil in H.
  destruct H as [H|[H|[H|[H|[]]]]]; rewrite H; repeat (case_decide; try done); naive_solver.
Qed.

(** A disabled workflow is only bound to its agent. Reconciling a new
    workflow whose spec is disabled writes nothing, or exactly one patch that
    changes the agent ID and nothing else; in particular no task is set. *)
Theorem Reconcile_disabled rules order name ns w l o w1 :
  kc_GetWorkflow name ns w = (inr o, w1) →
  om_DeletionTimestamp (wf_Meta o) = None →
  st_State (wf_Status o) = "" → spec_Disabled (wf_Spec o) = Some true →
  ∃ e w' es, Reconcile rules order name ns (w, l) = (zero_Result, e, (w', l ++ es)) ∧
    (es = [] ∨ ∃ a res, es = [(WPatchStatus o (upd_Status (set_AgentID a) o), res)]).
Proof.
  intros Hg Hd Hs Hdis. unfold Reconcile. simpl. unfold lread at 1; simpl. rewrite Hg, Hd.
  unfold reconcile_state. rewrite decide_True by done.
  destruct (processNewWorkflow _ _ _ _) as [[[r1 e1] wf1] wl1] eqn:E.
  assert (silent (w1, l) wl1 ∧ wf_Spec wf1 = wf_Spec o) as [El Hsp].
  { revert E. unfold processNewWorkflow.
    destruct (processWorkflow _ _ _ _) as [[e2 wf2] wl2] eqn:E2.
    pose proof (processWorkflow_silent KC _ _ _ _ _ _ _ E2) as Hq.
    apply processWorkflow_state in E2 as (_ & H2 & _).
    destruct e2; [|case_match]; by intros [= <- <- <- <-]. }
  unfold silent in El; simpl in El. rewrite Hsp, Hdis. simpl.
  destruct (mergePatchStatus _ _ _) as [e2 [w2 l2]] eqn:E2.
  apply mergePatchStatus_log in E2 as [[_ E2]|[_ [res E2]]]; simpl in *; subst l2; rewrite El.
  - eexists _, _, []. rewrite app_nil_r. auto.
  - eexists _, _, [_]. eauto 10.
Qed.

(** Timeouts. A RUNNING workflow whose stop time has passed is patched to
    TIMEOUT, with no other write, and is done; one whose stop time has not
    passed is never moved to TIMEOUT. *)
Theorem Reconcile_timeout rules order name ns w l o w1 stop now w2 :
  kc_GetWorkflow name ns w = (inr o, w1) →
  om_DeletionTimestamp (wf_Meta o) = None →
  st_State (wf_Status o) = WorkflowStateRunning →
  st_GlobalExecutionStop (wf_Status o) = Some stop →
  kc_Now w1 = (now, w2) →
  ∃ e w' es, Reconcile rules order name ns (w, l) = (zero_Result, e, (w', l ++ es)) ∧
    if decide (stop < now)%Z
    then ∃ r, es = [(WPatchStatus o (upd_Status (set_State WorkflowStateTimeout) o), r)]
    else Forall (λ en, ∃ u, en.1 = WPatchStatus o u ∧ st_State (wf_Status u) = WorkflowStateRunning) es.
Proof.
  intros Hg Hd Hs Hstop Hnow. unfold Reconcile. simpl. unfold lread at 1; simpl. rewrite Hg, Hd.
  unfold reconcile_state. rewrite Hs. do 2 (rewrite decide_False by done). rewrite decide_True by done.
  unfold reconcile_running. rewrite Hstop. simpl. unfold lread; simpl. rewrite Hnow.
  destruct (decide (stop < now)%Z) as [Hlt|Hge].
  - rewrite bool_decide_eq_true_2 by done.
    destruct (mergePatchStatus _ _ _) as [e2 [w3 l3]] eqn:E2.
    apply mergePatchStatus_log in E2 as [[E2 _]|[_ [res E2]]]; simpl in *.
    + exfalso. apply (f_equal st_State) in E2. simpl in E2. rewrite Hs in E2. done.
    + subst l3. eauto 10.
  - rewrite bool_decide_eq_false_2 by done.
    destruct (updateAgentIDIfNeeded_frame o) as (b & a & ->). simpl. rewrite Hstop.
    destruct (mergePatchStatus _ _ _) as [e2 [w3 l3]] eqn:E2.
    apply mergePatchStatus_log in E2 as [[_ E2]|[_ [res E2]]]; simpl in *; subst l3.
    + eexists _, _, []. by rewrite app_nil_r.
    + eexists _, _, _. split; [done|]. apply Forall_singleton. eauto.
Qed.

(** When the global timeout is not armed. A RUNNING workflow without a stop
    time is given none when its current action is not the first one, or when the
    first one has no start time: it cannot time out then. An agent reports the
    start time of an action only when the action is over, so a workflow stuck in
    its first action, or whose second action is served before the controller
    sees the first one reported, escapes the global timeout. *)
Theorem Reconcile_timeout_missed rules order name ns w l o w1 first cs :
  kc_GetWorkflow name ns w = (inr o, w1) →
  om_DeletionTimestamp (wf_Meta o) = None →
  st_State (wf_Status o) = WorkflowStateRunning →
  st_GlobalExecutionStop (wf_Status o) = None →
  firstAction o = Some first → st_CurrentState (wf_Status o) = Some cs →
  act_ID first ≠ cs_ActionID cs ∨ act_ExecutionStart first = None →
  ∃ e w' es, Reconcile rules order name ns (w, l) = (zero_Result, e, (w', l ++ es)) ∧
    Forall (λ en, ∃ u, en.1 = WPatchStatus o u ∧ st_GlobalExecutionStop (wf_Status u) = None ∧
                       st_State (wf_Status u) = WorkflowStateRunning) es.
Proof.
  intros Hg Hd Hs Hstop Hfirst Hcs Hne. unfold Reconcile. simpl. unfold lread at 1; simpl. rewrite Hg, Hd.
  unfold reconcile_state. rewrite Hs. do 2 (rewrite decide_False by done). rewrite decide_True by done.
  unfold reconcile_running. rewrite Hstop. simpl.
  destruct (updateAgentIDIfNeeded_frame o) as (b & a & ->).
  simpl. rewrite Hstop, Hcs. change (firstAction (upd_Status (set_AgentID a) o)) with (firstAction o).
  rewrite Hfirst. destruct (decide (act_ID first = cs_ActionID cs)) as [He|He].
  { destruct Hne as [?|Hst]; [done|]. rewrite Hst. eexists _, _, []. by rewrite app_nil_r. }
  destruct (mergePatchStatus _ _ _) as [e2 [w3 l3]] eqn:E2.
  apply mergePatchStatus_log in E2 as [[_ E2]|[_ [res E2]]]; simpl in *; subst l3.
  - eexists _, _, []. by rewrite app_nil_r.
  - eexists _, _, _. split; [done|]. apply Forall_singleton. eauto.
Qed.

(** A customboot workflow without preparing actions never leaves PREPARING.
    When it has no entry for its preparing job and netboot need not be toggled,
    reconciling it changes nothing and asks for no requeue. *)
Theorem Reconcile_customboot_stuck rules order name ns w l o w1 hw w2 :
  kc_GetWorkflow name ns w = (inr o, w1) →
  om_DeletionTimestamp (wf_Meta o) = None →
  st_State (wf_Status o) = WorkflowStatePreparing →
  let bo := spec_BootOptions (wf_Spec o) in
  bo_ToggleAllowNetboot bo = false → bo_BootMode bo = BootModeCustomboot →
  cb_PreparingActions (bo_CustombootConfig bo) = [] →
  st_Jobs (wf_Status o) !! jobName jobNameCustombootPreparing o = None →
  kc_GetHardware (spec_HardwareRef (wf_Spec o)) (wf_Namespace o) w1 = (inr hw, w2) →
  Reconcile rules order name ns (w, l) = (zero_Result, None, (w2, l)).
Proof.
  intros Hg Hd Hs bo Ht Hm Ha Hj Hh. unfold Reconcile. simpl. unfold lread at 1; simpl. rewrite Hg, Hd.
  unfold reconcile_state. rewrite Hs. rewrite decide_False by done. rewrite decide_True by done.
  unfold prepareWorkflow. fold bo. rewrite Ht. simpl. unfold prepare_boot. fold bo. rewrite Hm.
  rewrite decide_False by done. rewrite decide_False by (intros [?|?]; done). rewrite decide_True by done.
  unfold job_unsettled, job_status. rewrite Hj. simpl. unfold hardwareFrom; simpl. unfold lread; simpl.
  rewrite Hh, Ha. simpl. unfold prepare_job, handleJob, needs_cleanup, job_status. rewrite Hj. simpl.
  unfold job_status. rewrite Hj. simpl. unfold mergePatchStatus. rewrite decide_True by done. done.
Qed.

(** The job a boot mode must run before its workflow is offered to agents. *)
Definition boot_job (wf : Workflow) : option string :=
  let mode := bo_BootMode (spec_BootOptions (wf_Spec wf)) in
  if decide (mode = BootModeNetboot) then Some (jobName jobNameNetboot wf)
  else if decide (mode = BootModeISO ∨ mode = BootModeIsoboot) then Some (jobName jobNameISOMount wf)
  else if decide (mode = BootModeCustomboot) then Some (jobName jobNameCustombootPreparing wf)
  else None.

Lemma prepare_job_pending actions name wf w r e wf' w' :
  st_State (wf_Status wf) = WorkflowStatePreparing →
  prepare_job (KC := KC) actions name wf w = (r, e, wf', w') →
  st_State (wf_Status wf') = WorkflowStatePending →
  e = None ∧ js_Complete (job_status (wf_Status wf') name) = true ∧
  st_AllowNetboot (wf_Status wf') = st_AllowNetboot (wf_Status wf).
Proof.
  intros Hs. unfold prepare_job. destruct (handleJob _ _ _ _) as [[[r1 e1] wf1] w1] eqn:E.
  pose proof (handleJob_AllowNetboot _ _ _ _ _ _ _ _ E) as Ha.
  apply handleJob_frame, boot_frame_fields in E as (_ & _ & E & _).
  destruct e1; [by intros [= <- <- <- <-]|].
  destruct (js_Complete _) eqn:Hc; simpl; intros [= <- <- <- <-] Hp;
    [|by rewrite E, Hs in Hp].
  case_bool_decide; [done|by rewrite E, Hs in Hp].
Qed.

(** A workflow is offered to agents only when its machine was prepared.
    [prepareWorkflow] takes a PREPARING workflow to PENDING only without an
    error, with the netboot toggle done if the workflow asks for it, and with
    the job of its boot mode recorded as complete, if the mode has one. *)
Theorem prepareWorkflow_pending wf w r e wf' w' :
  st_State (wf_Status wf) = WorkflowStatePreparing →
  prepareWorkflow (KC := KC) wf w = (r, e, wf', w') →
  st_State (wf_Status wf') = WorkflowStatePending →
  e = None ∧
  (bo_ToggleAllowNetboot (spec_BootOptions (wf_Spec wf)) = true →
     an_ToggledTrue (st_AllowNetboot (wf_Status wf')) = true) ∧
  (∀ name, boot_job wf = Some name → js_Complete (job_status (wf_Status wf') name) = true).
Proof.
  intros Hs.
  assert (∀ wf1 w, st_State (wf_Status wf1) = WorkflowStatePreparing →
    prepare_boot wf1 w = (r, e, wf', w') → st_State (wf_Status wf') = WorkflowStatePending →
    e = None ∧ st_AllowNetboot (wf_Status wf') = st_AllowNetboot (wf_Status wf1) ∧
    (∀ name, boot_job wf1 = Some name → js_Complete (job_status (wf_Status wf') name) = true)) as Hb.
  { clear. intros wf w Hs. unfold prepare_boot, boot_job, prepare_failed. intros H Hp.
    repeat (case_match || case_decide || open_let); simplify_eq; try done;
      try (by rewrite Hs in Hp);
      match goal with E : prepare_job _ _ _ _ = _ |- _ =>
        apply prepare_job_pending in E as (? & ? & ?); [|done..]; split_and!; [done..|by intros; simplify_eq] end. }
  unfold prepareWorkflow. destruct (bo_ToggleAllowNetboot _) eqn:Ht; simpl.
  - destruct (an_ToggledTrue _) eqn:Hd; simpl.
    + intros H Hp. apply Hb in H as (-> & -> & H); done.
    + destruct (toggleHardware _ _ _) as [[[err|] wf1] w1] eqn:E; [by intros [= <- <- <- <-]|].
      pose proof (toggleHardware_toggled _ _ _ _ _ E) as Htt.
      apply toggleHardware_frame in E. intros H Hp.
      destruct (boot_frame_fields _ _ E) as (Hm & Hsp & Hst & _).
      apply Hb in H as (-> & -> & H); [|by rewrite Hst|done]. split_and!; [done..|].
      unfold boot_job, jobName, wf_Name in *. by rewrite Hm, Hsp in H.
  - intros H Hp. apply Hb in H as (-> & _ & H); done.
Qed.

(** ** References *)

(** The event of a reference of [hw], and what the rules say of it. *)
Definition reference_event (hw : Hardware) (rf : Reference) : evaluationData :=
  mkevaluationData (mksource (hw_Name hw) (hw_Namespace hw)) rf.

Definition permitted (rules : ReferenceRules) (hw : Hardware) (rf : Reference) : Prop :=
  ∃ denied d allowed a,
    evaluate (Denylist rules) (reference_event hw rf) = inr (denied, d) ∧
    evaluate (Allowlist rules) (reference_event hw rf) = inr (allowed, a) ∧
    (denied = false ∨ allowed = true).

Lemma process_reference_inv rules hw n rf m e w m' e' w' :
  process_reference (KC := KC) rules hw n rf m e w = (m', e', w') →
  (m' = m ∧ e' ≠ None) ∨
  (permitted rules hw rf ∧ e' = e ∧
   ∃ v err, kc_DynamicRead rf w = (v, err, w') ∧ m' = <[n := default json_nil v]> m).
Proof.
  unfold process_reference. fold (reference_event hw rf).
  assert (∀ err, errors_Join e (Some err) ≠ None) as Hj by (by destruct e).
  destruct (evaluate (Denylist rules) _) as [err|[dn d]] eqn:Ed; [intros [= <- <- <-]; auto|].
  destruct (evaluate (Allowlist rules) _) as [err|[al a]] eqn:Ea; [intros [= <- <- <-]; auto|].
  destruct (dn && negb al) eqn:Hda; [intros [= <- <- <-]; auto|].
  assert (permitted rules hw rf) as Hp
    by (exists dn, d, al, a; split_and!; [done..|destruct dn, al; auto]).
  destruct (kc_DynamicRead rf w) as [[[v|] err] w1]; [|destruct err]; intros [= <- <- <-]; eauto 10.
Qed.

(** References are read under the rules only. A template sees the value of a
    reference only if the denylist does not match it or the allowlist does, and
    that value is what reading this very object returned; when some reference is
    left out, an error is reported. *)
Theorem process_references_permitted rules hw refs w m e w' :
  process_references (KC := KC) rules hw refs ∅ None w = (m, e, w') →
  (∀ n v, m !! n = Some v → ∃ rf w1 r err w2, (n, rf) ∈ refs ∧ permitted rules hw rf ∧
     kc_DynamicRead rf w1 = (r, err, w2) ∧ v = default json_nil r) ∧
  (e = None → ∀ n rf, (n, rf) ∈ refs → permitted rules hw rf ∧ is_Some (m !! n)).
Proof.
  set (P := λ m : gmap string json, ∀ n v, m !! n = Some v →
    ∃ rf w1 r err w2, (n, rf) ∈ refs ∧ permitted rules hw rf ∧
      kc_DynamicRead rf w1 = (r, err, w2) ∧ v = default json_nil r).
  assert (∀ refs' m0 e0 w, refs' ⊆ refs → P m0 →
    process_references (KC := KC) rules hw refs' m0 e0 w = (m, e, w') →
    P m ∧ (∀ n, is_Some (m0 !! n) → is_Some (m !! n)) ∧
    (e = None → e0 = None ∧ ∀ n rf, (n, rf) ∈ refs' → permitted rules hw rf ∧ is_Some (m !! n))) as Hloop.
  { clear w. induction refs' as [|[n rf] refs' IH]; intros m0 e0 w Hsub HP; simpl.
    { intros [= -> -> ->]. split_and!; [done..|]. intros ->. split; [done|]. by intros ?? ?%elem_of_nil. }
    destruct (process_reference _ _ _ _ _ _ _) as [[m1 e1] w1] eqn:E. intros H.
    apply process_reference_inv in E as [[-> He]|(Hp & -> & v & err & Hr & ->)].
    - apply IH in H as (H1 & H2 & H3); [|set_solver|done]. split_and!; [done..|].
      intros [-> _]%H3. done.
    - apply IH in H as (H1 & H2 & H3); [|set_solver|].
      + split_and!; [done| |].
        * intros k Hk. apply H2. destruct (decide (k = n)) as [->|];
            [rewrite lookup_insert_eq|rewrite lookup_insert_ne by done]; done.
        * intros [-> He]%H3. split; [done|]. intros k rf' [[= -> ->]|Hin]%elem_of_cons; [|by apply He].
          split; [done|]. apply H2. by rewrite lookup_insert_eq.
      + intros k x [[<- <-]|[_ Hx]]%lookup_insert_Some; [|by apply HP].
        exists rf, w, v, err, w1. set_solver. }
  intros H. apply Hloop in H as (H1 & _ & H2); [|done|by intros ?? ?%lookup_empty_Some].
  split; [done|]. intros [_ He]%H2. done.
Qed.

(** Without configuration no reference is ever read. When the default
    denylist is an accepted rule that matches the event of each reference, and
    no rules match nothing, a reconciler built without options reads no object
    for any reference, offers none to the template, and reports an error as
    soon as there is one. *)
Theorem default_rules_deny hw refs w :
  add_patterns (Denylist default_ReferenceRules) = None →
  (∀ ev, MatchesForEvent [] ev = inr []) →
  (∀ rf, ∃ ev x xs, json_Marshal_evaluationData (reference_event hw rf) = inr ev ∧
     MatchesForEvent (Denylist default_ReferenceRules) ev = inr (x :: xs)) →
  ∃ e, process_references (KC := KC) (NewReconciler []) hw refs ∅ None w = (∅, e, w) ∧
       (e = None ↔ refs = []).
Proof.
  intros Ha Hnil Hall.
  assert (∀ n rf m e w, process_reference (KC := KC) (NewReconciler []) hw n rf m e w =
    (m, errors_Join e (Some (ErrNew "reference denied")), w)) as Hone.
  { intros n rf m e w0. unfold process_reference. fold (reference_event hw rf).
    destruct (Hall rf) as (ev & x & xs & Hm & Hx). unfold evaluate.
    change (Denylist (NewReconciler [])) with (Denylist default_ReferenceRules).
    change (Allowlist (NewReconciler [])) with (@nil string).
    rewrite Ha, Hm, Hx. cbn [add_patterns]. rewrite Hnil. done. }
  assert (∀ e, ∃ e', process_references (KC := KC) (NewReconciler []) hw refs ∅ e w = (∅, e', w) ∧
    (e' = None ↔ refs = [] ∧ e = None)) as Hl.
  { induction refs as [|[n rf] refs IH]; intros e; simpl; [exists e; naive_solver|].
    rewrite Hone. destruct (IH (errors_Join e (Some (ErrNew "reference denied")))) as (e' & -> & He).
    exists e'. split; [done|]. rewrite He. split; [intros [_ ?]; by destruct e|by intros [? _]]. }
  destruct (Hl None) as (e & -> & He). exists e. naive_solver.
Qed.

(** ** The global timeout *)

(** The stop time does not overflow for a sane timeout. For a timeout in
    seconds whose nanoseconds fit an int64, the stop time lies exactly the
    timeout after now when the action has not started before now, and otherwise
    later by the (saturated) age of the action, so never before now. *)
Theorem execution_stop_bounds now start timeout :
  (0 ≤ timeout ≤ 9223372036)%Z →
  (execution_stop now start timeout =
     now + timeout * time_Second + Z.max 0 (Z.min max_int64 (now - start)))%Z.
Proof.
  intros H. unfold execution_stop. rewrite wrap64_id by (unfold int64, min_int64, max_int64, time_Second; lia).
  unfold time_Sub, duration_Abs, max_int64, min_int64. repeat case_decide; lia.
Qed.

(** One second more wraps around: the stop time of a workflow whose global
    timeout is 9223372037 seconds lies in the past. *)
Theorem execution_stop_wraps now : (execution_stop now now 9223372037 < now)%Z.
Proof.
  unfold execution_stop. rewrite decide_False by lia.
  replace (wrap64 _) with (-9223372036709551616)%Z by reflexivity. lia.
Qed.
End results.
