(* ===== verification/GoNet.v ===== *)
(** * The Go package net: hardware addresses

    [net.ParseMAC] and [HardwareAddr.String] on byte strings. *)
From S2P Require Import Prelude GoStrings.

Definition hex_val (c : ascii) : option Z :=
  if is_digit c then Some (Z.of_nat (nat_of_ascii c) - 48)%Z
  else if ascii_between "a"%char "f"%char c then Some (Z.of_nat (nat_of_ascii c) - 87)%Z
  else if ascii_between "A"%char "F"%char c then Some (Z.of_nat (nat_of_ascii c) - 55)%Z
  else None.

(** [xtoi2(s, e)]: the byte written in two hexadecimal digits at the start of
    [s], which must end there or go on with [e]. *)
Definition xtoi2 (s : list ascii) (e : ascii) : option Z :=
  match s with
  | a :: b :: rest =>
      if match rest with c :: _ => bool_decide (c ≠ e) | [] => false end then None
      else h ← hex_val a; l ← hex_val b; Some (16 * h + l)%Z
  | _ => None
  end.

(** [n] octets, three bytes apart. *)
Fixpoint parse_octets (n : nat) (s : list ascii) (sep : ascii) : option (list Z) :=
  match n with
  | O => Some []
  | S n => o ← xtoi2 s sep; os ← parse_octets n (drop 3 s) sep; Some (o :: os)
  end.

(** [n] pairs of octets, five bytes apart. *)
Fixpoint parse_pairs (n : nat) (s : list ascii) (sep : ascii) : option (list Z) :=
  match n with
  | O => Some []
  | S n =>
      o1 ← xtoi2 (take 2 s) "000"%char;
      o2 ← xtoi2 (drop 2 s) sep;
      os ← parse_pairs n (drop 5 s) sep;
      Some (o1 :: o2 :: os)
  end.

Definition mac_len_ok (n : nat) : bool := bool_decide (n = 6 ∨ n = 8 ∨ n = 20).

Definition ParseMAC (str : string) : option (list Z) :=
  let s := bytes_of str in
  let len := length s in
  if decide (len < 14) then None
  else
    match s !! 2, s !! 4 with
    | Some s2, Some s4 =>
        if decide (s2 = ":"%char ∨ s2 = "-"%char) then
          if decide ((len + 1) mod 3 ≠ 0) then None
          else
            let n := (len + 1) / 3 in
            if mac_len_ok n then parse_octets n s s2 else None
        else if decide (s4 = "."%char) then
          if decide ((len + 1) mod 5 ≠ 0) then None
          else
            let n := 2 * (len + 1) / 5 in
            if mac_len_ok n then parse_pairs (n / 2) s s4 else None
        else None
    | _, _ => None
    end.

Definition hex_digit (z : Z) : ascii :=
  ascii_of_nat (Z.to_nat (if decide (z < 10)%Z then z + 48 else z + 87)%Z).

Definition octet_bytes (o : Z) : list ascii := [hex_digit (o / 16); hex_digit (o mod 16)].

(** Octets in hexadecimal, separated. *)
Fixpoint sep_bytes (sep : ascii) (os : list Z) : list ascii :=
  match os with
  | [] => []
  | [o] => octet_bytes o
  | o :: os' => octet_bytes o ++ sep :: sep_bytes sep os'
  end.

(** [HardwareAddr.String()]. *)
Definition HardwareAddr_String (os : list Z) : string := of_bytes (sep_bytes ":"%char os).

(** ** Round trip *)

Definition octet (o : Z) : Prop := (0 ≤ o < 256)%Z.

Lemma hex_val_digit z : (0 ≤ z < 16)%Z → hex_val (hex_digit z) = Some z.
Proof.
  intros H. assert (∃ n, n < 16 ∧ z = Z.of_nat n) as (n & Hn & ->) by (exists (Z.to_nat z); lia).
  do 16 (destruct n as [|n]; [done|]). lia.
Qed.

Lemma xtoi2_octet o rest sep :
  octet o → head rest = None ∨ head rest = Some sep → xtoi2 (octet_bytes o ++ rest) sep = Some o.
Proof.
  intros Ho Hr. unfold octet_bytes, xtoi2. simpl.
  assert (match rest with c :: _ => bool_decide (c ≠ sep) | [] => false end = false) as ->
    by (destruct rest; [done|]; destruct Hr; simplify_eq/=; by rewrite bool_decide_eq_false_2 by tauto).
  unfold octet in Ho. rewrite !hex_val_digit by (pose proof (Z.mod_pos_bound o 16 ltac:(lia)); pose proof (Z.div_lt_upper_bound o 16 16); pose proof (Z.div_pos o 16); lia).
  simpl. f_equal. pose proof (Z.div_mod o 16). lia.
Qed.

Lemma sep_bytes_length sep os : os ≠ [] → length (sep_bytes sep os) + 1 = 3 * length os.
Proof.
  induction os as [|o [|o' os] IH]; [done..|]. intros _.
  change (sep_bytes sep (o :: o' :: os)) with (octet_bytes o ++ sep :: sep_bytes sep (o' :: os)).
  rewrite length_app. specialize (IH ltac:(done)). simpl in *. lia.
Qed.

Lemma parse_octets_sep sep os : Forall octet os → parse_octets (length os) (sep_bytes sep os) sep = Some os.
Proof.
  induction 1 as [|o [|o' os] Ho _ IH]; [done| |].
  - cbn [length parse_octets sep_bytes]. rewrite <-(app_nil_r (octet_bytes o)). by rewrite xtoi2_octet by auto.
  - change (parse_octets (length (o :: o' :: os)) (sep_bytes sep (o :: o' :: os)) sep) with
      (x ← xtoi2 (octet_bytes o ++ sep :: sep_bytes sep (o' :: os)) sep;
       xs ← parse_octets (length (o' :: os)) (sep_bytes sep (o' :: os)) sep; Some (x :: xs)).
    by rewrite xtoi2_octet, IH by auto.
Qed.

(** The octets of a hardware address, separated by colons or by hyphens, are
    parsed back. *)
Lemma ParseMAC_sep sep os :
  sep = ":"%char ∨ sep = "-"%char → Forall octet os → length os = 6 ∨ length os = 8 ∨ length os = 20 →
  ParseMAC (of_bytes (sep_bytes sep os)) = Some os.
Proof.
  intros Hsep Ho Hl. unfold ParseMAC. rewrite bytes_of_of_bytes.
  assert (os ≠ []) as Hne by (intros ->; simpl in Hl; lia).
  pose proof (sep_bytes_length sep os Hne) as Hlen. rewrite Hlen.
  rewrite decide_False by lia.
  pose proof (parse_octets_sep sep os Ho) as Hp.
  destruct os as [|o1 [|o2 [|o3 os]]]; [simpl in Hl; lia..|].
  assert (sep_bytes sep (o1 :: o2 :: o3 :: os) !! 2 = Some sep) as -> by done.
  assert (sep_bytes sep (o1 :: o2 :: o3 :: os) !! 4 = Some (hex_digit (o2 mod 16))) as -> by done.
  rewrite decide_True by auto. rewrite (Nat.mul_comm 3), Nat.Div0.mod_mul, decide_False by tauto.
  rewrite Nat.div_mul by done. unfold mac_len_ok. by rewrite bool_decide_eq_true_2.
Qed.

(** The text of a hardware address of 6, 8 or 20 octets is parsed back to the
    same octets. *)
Lemma ParseMAC_String os :
  Forall octet os → length os = 6 ∨ length os = 8 ∨ length os = 20 →
  ParseMAC (HardwareAddr_String os) = Some os.
Proof. apply ParseMAC_sep. by left. Qed.
