(* ===== verification/GoNetip.v ===== *)
(** * The Go packages net and net/netip: Internet addresses

    A [net.IP] or [net.IPMask] is a list of octets, empty for the nil slice; an
    address of the package [netip] is one of its three kinds. The parsers and
    printers follow the Go library; of the text of a parse error the part that
    quotes the position is left out. *)
From S2P Require Import Prelude GoStrings GoNet.

Definition dquote (s : string) : string := String (ascii_of_nat 34) (s +:+ String (ascii_of_nat 34) "").

(** ** Values *)

Inductive Addr :=
| AddrNone                                  (** the zero [netip.Addr] *)
| Addr4 (ip : list Z)
| Addr6 (ip : list Z) (zone : string).

#[export] Instance Addr_eq_dec : EqDecision Addr.
Proof. solve_decision. Defined.

Record AddrPort := mkAddrPort { ap_Addr : Addr; ap_Port : Z }.

(** A value of the Go type: four or sixteen octets. *)
Definition Addr_wf (a : Addr) : Prop :=
  match a with
  | AddrNone => True
  | Addr4 ip => length ip = 4 ∧ Forall octet ip
  | Addr6 ip _ => length ip = 16 ∧ Forall octet ip
  end.

Definition v4InV6Prefix : list Z := [0; 0; 0; 0; 0; 0; 0; 0; 0; 0; 255; 255]%Z.

Definition Is4 (a : Addr) : bool := match a with Addr4 _ => true | _ => false end.
Definition Is6 (a : Addr) : bool := match a with Addr6 _ _ => true | _ => false end.
Definition Is4In6 (a : Addr) : bool :=
  match a with Addr6 ip _ => bool_decide (take 12 ip = v4InV6Prefix) | _ => false end.
Definition IsValid (a : Addr) : bool := negb (bool_decide (a = AddrNone)).
Definition Addr_Zone (a : Addr) : string := match a with Addr6 _ z => z | _ => "" end.
Definition BitLen (a : Addr) : Z := match a with AddrNone => 0 | Addr4 _ => 32 | Addr6 _ _ => 128 end%Z.
Definition Addr_IsUnspecified (a : Addr) : bool :=
  match a with
  | AddrNone => false
  | Addr4 ip => bool_decide (ip = replicate 4 0%Z)
  | Addr6 ip z => bool_decide (ip = replicate 16 0%Z ∧ z = "")
  end.
Definition AsSlice (a : Addr) : list Z :=
  match a with AddrNone => [] | Addr4 ip => ip | Addr6 ip _ => ip end.
Definition As16 (a : Addr) : list Z :=
  match a with AddrNone => replicate 16 0%Z | Addr4 ip => v4InV6Prefix ++ ip | Addr6 ip _ => ip end.
Definition WithZone (a : Addr) (z : string) : Addr :=
  match a with Addr6 ip _ => Addr6 ip z | _ => a end.

(** [ip.To4()], nil when the address is none. *)
Definition To4 (ip : list Z) : list Z :=
  if decide (length ip = 4) then ip
  else if decide (length ip = 16 ∧ take 12 ip = v4InV6Prefix) then drop 12 ip else [].

(** [ip.Equal(other)]. *)
Definition IP_Equal (a b : list Z) : bool :=
  if decide (length a = length b) then bool_decide (a = b)
  else if decide (length a = 4 ∧ length b = 16) then bool_decide (take 12 b = v4InV6Prefix ∧ a = drop 12 b)
  else if decide (length a = 16 ∧ length b = 4) then bool_decide (take 12 a = v4InV6Prefix ∧ drop 12 a = b)
  else false.

Definition IPv4zero : list Z := v4InV6Prefix ++ [0; 0; 0; 0]%Z.
Definition IPv6zero : list Z := replicate 16 0%Z.
Definition IPv4bcast : list Z := v4InV6Prefix ++ [255; 255; 255; 255]%Z.

Definition IP_IsUnspecified (ip : list Z) : bool := IP_Equal ip IPv4zero || IP_Equal ip IPv6zero.

(** ** Parsing *)

(** [parseIPv4Fields]: the current octet [val] with [digLen] digits, and the
    fields read so far. *)
Fixpoint parse_v4 (s : list ascii) (val : Z) (digLen : nat) (fields : list Z) : string + list Z :=
  match s with
  | [] =>
      if decide (length fields < 3) then inl "IPv4 address too short" else inr (fields ++ [val])
  | c :: s' =>
      if is_digit c then
        if decide (digLen = 1 ∧ val = 0%Z) then inl "IPv4 field has octet with leading zero"
        else
          let val' := (val * 10 + (Z.of_nat (nat_of_ascii c) - 48))%Z in
          if decide (255 < val')%Z then inl "IPv4 field has value >255" else parse_v4 s' val' (S digLen) fields
      else if decide (c = "."%char) then
        if decide (digLen = 0 ∨ s' = []) then inl "IPv4 field must have at least one digit"
        else if decide (length fields = 3) then inl "IPv4 address too long"
        else parse_v4 s' 0 0 (fields ++ [val])
      else inl "unexpected character"
  end.

Definition parseIPv4Fields (s : list ascii) : string + list Z := parse_v4 s 0 0 [].

(** The hexadecimal digits at the start of [s]: their value, their number and
    the rest; [None] when there are more than four. *)
Fixpoint hex_group (s : list ascii) (off : nat) (acc : Z) : option (Z * nat * list ascii) :=
  match s with
  | c :: s' =>
      match hex_val c with
      | Some d => if decide (3 < off) then None else hex_group s' (S off) (acc * 16 + d)
      | None => Some (acc, off, s)
      end
  | [] => Some (acc, off, [])
  end.

(** The loop of [parseIPv6]: the rest of the text, the octets read and the
    position of the ellipsis. The fuel is the number of groups there is room
    for. *)
Fixpoint parse_v6_loop (fuel : nat) (s : list ascii) (ip : list Z) (ellipsis : option nat)
    : string + (list ascii * list Z * option nat) :=
  match fuel with
  | O => inr (s, ip, ellipsis)
  | S fuel =>
      match hex_group s 0 0 with
      | None => inl "each group must have 4 or less digits"
      | Some (acc, off, rest) =>
          if decide (off = 0) then inl "each colon-separated field must have at least one digit"
          else if decide (head rest = Some "."%char) then
            if decide (ellipsis = None ∧ length ip ≠ 12)
            then inl "embedded IPv4 address must replace the final 2 fields of the address"
            else if decide (16 < length ip + 4)
            then inl "too many hex fields to fit an embedded IPv4 at the end of the address"
            else
              match parseIPv4Fields s with
              | inl e => inl e
              | inr v4 => inr ([], ip ++ v4, ellipsis)
              end
          else
            let ip' := ip ++ [acc / 256; acc mod 256]%Z in
            match rest with
            | [] => inr ([], ip', ellipsis)
            | c :: rest' =>
                if decide (c ≠ ":"%char) then inl "unexpected character, want colon"
                else
                  match rest' with
                  | [] => inl "colon must be followed by more characters"
                  | d :: rest'' =>
                      if decide (d = ":"%char) then
                        match ellipsis with
                        | Some _ => inl "multiple :: in address"
                        | None =>
                            match rest'' with
                            | [] => inr ([], ip', Some (length ip'))
                            | _ => parse_v6_loop fuel rest'' ip' (Some (length ip'))
                            end
                        end
                      else parse_v6_loop fuel rest' ip' ellipsis
                  end
            end
      end
  end.

Definition parseIPv6 (str : string) : string + Addr :=
  let '(addr, zone, found) := Cut str "%"%char in
  if (found : bool) && bool_decide (zone = "") then inl "zone must be a non-empty string"
  else
    let s := bytes_of addr in
    let lead := bool_decide (take 2 s = [":"%char; ":"%char]) in
    if lead && bool_decide (length s = 2) then inr (Addr6 (replicate 16 0%Z) zone)
    else
      match parse_v6_loop 8 (if lead then drop 2 s else s) [] (if lead then Some 0 else None) with
      | inl e => inl e
      | inr (rest, ip, ellipsis) =>
          if decide (rest ≠ []) then inl "trailing garbage after address"
          else if decide (length ip < 16) then
            match ellipsis with
            | None => inl "address string too short"
            | Some e => inr (Addr6 (take e ip ++ replicate (16 - length ip) 0%Z ++ drop e ip) zone)
            end
          else if decide (ellipsis ≠ None) then inl "the :: must expand to at least one field of zeros"
          else inr (Addr6 ip zone)
      end.

Definition addr_error (s msg : string) : error := ErrNew ("ParseAddr(" +:+ dquote s +:+ "): " +:+ msg).

(** [netip.ParseAddr]: the first of the characters [.], [:] and [%] decides. *)
Definition ParseAddr (s : string) : res Addr :=
  match list_find (λ c, c = "."%char ∨ c = ":"%char ∨ c = "%"%char) (bytes_of s) with
  | None => inl (addr_error s "unable to parse IP")
  | Some (_, c) =>
      if decide (c = "."%char) then
        match parseIPv4Fields (bytes_of s) with
        | inl m => inl (addr_error s m)
        | inr ip => inr (Addr4 ip)
        end
      else if decide (c = ":"%char) then
        match parseIPv6 s with inl m => inl (addr_error s m) | inr a => inr a end
      else inl (addr_error s "missing IPv6 address")
  end.

(** [net.ParseIP]: sixteen octets, or nil. *)
Definition ParseIP (s : string) : list Z :=
  match ParseAddr s with
  | inr a => if decide (Addr_Zone a = "") then As16 a else []
  | inl _ => []
  end.

(** [dtoi] on a whole string: decimal digits of a number below [0xFFFFFF]. *)
Fixpoint dtoi_go (s : list ascii) (n : Z) : option Z :=
  match s with
  | [] => Some n
  | c :: s' =>
      if is_digit c then
        let n' := (n * 10 + (Z.of_nat (nat_of_ascii c) - 48))%Z in
        if decide (16777215 ≤ n')%Z then None else dtoi_go s' n'
      else None
  end.

Definition dtoi (s : string) : option Z := if decide (s = "") then None else dtoi_go (bytes_of s) 0.

(** The mask of [ones] leading bits on [len] octets. *)
Definition mask_octet (ones : Z) : Z := (255 - (2 ^ (8 - (0 `max` (8 `min` ones))) - 1))%Z.

Fixpoint CIDRMask (ones : Z) (len : nat) : list Z :=
  match len with
  | O => []
  | S len => mask_octet ones :: CIDRMask (ones - 8) len
  end.

Definition IP_Mask (ip mask : list Z) : list Z :=
  let mask := if decide (length mask = 16 ∧ length ip = 4 ∧ take 12 mask = replicate 12 255%Z) then drop 12 mask else mask in
  let ip := if decide (length mask = 4 ∧ length ip = 16 ∧ take 12 ip = v4InV6Prefix) then drop 12 ip else ip in
  if decide (length ip = length mask) then zip_with Z.land ip mask else [].

Record IPNet := mkIPNet { ipn_IP : list Z; ipn_Mask : list Z }.

Definition cidr_error (s : string) : error := ErrNew ("invalid CIDR address: " +:+ s).

(** [net.ParseCIDR]. *)
Definition ParseCIDR (s : string) : res (list Z * IPNet) :=
  let '(addr, mask, found) := Cut s "/"%char in
  if negb found then inl (cidr_error s)
  else
    match ParseAddr addr with
    | inl _ => inl (cidr_error s)
    | inr a =>
        if decide (Addr_Zone a ≠ "") then inl (cidr_error s)
        else
          match dtoi mask with
          | None => inl (cidr_error s)
          | Some n =>
              if decide (BitLen a < n)%Z then inl (cidr_error s)
              else
                let m := CIDRMask n (Z.to_nat (BitLen a / 8)) in
                inr (As16 a, mkIPNet (IP_Mask (As16 a) m) m)
          end
    end.

(** ** Printing *)

Definition v4_string (ip : list Z) : string := Join (Itoa <$> ip) ".".

(** The groups of an IPv6 address. *)
Fixpoint v6_groups (ip : list Z) : list Z :=
  match ip with
  | a :: b :: ip' => (256 * a + b)%Z :: v6_groups ip'
  | _ => []
  end.

Definition zero_run (l : list Z) : nat := length l - length (drop_while (λ x, bool_decide (x = 0%Z)) l).

(** The first longest run of at least two zero groups, as its bounds. *)
Fixpoint longest_zeros (l : list Z) (i : nat) (best : option (nat * nat)) : option (nat * nat) :=
  match l with
  | [] => best
  | _ :: l' =>
      let n := zero_run l in
      let cur := match best with Some (a, b) => b - a | None => 0 end in
      longest_zeros l' (S i) (if decide (2 ≤ n ∧ cur < n) then Some (i, i + n) else best)
  end.

(** [strconv.AppendUint(b, x, 16)] of a group. *)
Definition group_string (x : Z) : string :=
  let d k := hex_digit ((x / 16 ^ k) mod 16)%Z in
  of_bytes (if decide (x < 16)%Z then [d 0%Z] else if decide (x < 256)%Z then [d 1%Z; d 0%Z]
    else if decide (x < 4096)%Z then [d 2%Z; d 1%Z; d 0%Z] else [d 3%Z; d 2%Z; d 1%Z; d 0%Z]).

Definition v6_string (ip : list Z) : string :=
  let g := v6_groups ip in
  match longest_zeros g 0 None with
  | None => Join (group_string <$> g) ":"
  | Some (a, b) => Join (group_string <$> take a g) ":" +:+ "::" +:+ Join (group_string <$> drop b g) ":"
  end.

Definition zone_string (z : string) : string := if decide (z = "") then "" else "%" +:+ z.

(** [netip.Addr.String()]. *)
Definition Addr_String (a : Addr) : string :=
  match a with
  | AddrNone => "invalid IP"
  | Addr4 ip => v4_string ip
  | Addr6 ip z =>
      if Is4In6 a then "::ffff:" +:+ v4_string (drop 12 ip) +:+ zone_string z
      else v6_string ip +:+ zone_string z
  end.

(** [netip.AddrPort.String()]: an IPv6 address is put in brackets. *)
Definition AddrPort_String (p : AddrPort) : string :=
  match ap_Addr p with
  | AddrNone => "invalid AddrPort"
  | Addr4 ip => v4_string ip +:+ ":" +:+ Itoa (ap_Port p)
  | Addr6 _ _ => "[" +:+ Addr_String (ap_Addr p) +:+ "]:" +:+ Itoa (ap_Port p)
  end.

(** [net.IP.String()]. *)
Definition IP_String (ip : list Z) : string :=
  if decide (ip = []) then "<nil>"
  else if decide (length (To4 ip) = 4) then v4_string (To4 ip)
  else if decide (length ip = 16) then v6_string ip
  else "?" +:+ of_bytes (ip ≫= octet_bytes).

(** ** Well-formed results *)

Lemma parse_v4_wf s val digLen fields ip :
  octet val → Forall octet fields → length fields ≤ 3 →
  parse_v4 s val digLen fields = inr ip → length ip = 4 ∧ Forall octet ip.
Proof.
  revert val digLen fields. induction s as [|c s IH]; intros val digLen fields Hv Hf Hl; simpl.
  - case_decide; [done|]. intros [= <-]. rewrite length_app; simpl. split; [lia|].
    apply Forall_app; auto.
  - destruct (is_digit c) eqn:Hc.
    + repeat case_decide; [done..|]. intros H'. eapply IH in H'; [done| |done..].
      unfold octet in *. unfold is_digit, ascii_between in Hc. apply andb_true_iff in Hc as [H1 H2].
      apply Nat.leb_le in H1, H2. change (nat_of_ascii "0") with 48 in H1. lia.
    + repeat case_decide; try done. intros H'. eapply IH in H'; [done|done| |].
      * apply Forall_app; auto.
      * rewrite length_app; simpl. lia.
Qed.

Lemma parseIPv4Fields_wf s ip : parseIPv4Fields s = inr ip → length ip = 4 ∧ Forall octet ip.
Proof. apply parse_v4_wf; [done..|simpl; lia]. Qed.

Lemma hex_val_range c d : hex_val c = Some d → (0 ≤ d < 16)%Z.
Proof.
  unfold hex_val, is_digit, ascii_between. intros H.
  repeat (case_match; simplify_eq); rewrite ?andb_true_iff, ?Nat.leb_le in *;
    unfold nat_of_ascii in *; simpl in *; lia.
Qed.

Lemma hex_group_range s off acc v n rest :
  hex_group s off acc = Some (v, n, rest) → (0 ≤ acc < 16 ^ Z.of_nat off)%Z → off ≤ 4 → (0 ≤ v < 65536)%Z.
Proof.
  revert off acc. induction s as [|c s IH]; intros off acc; simpl.
  - intros [= <- <- <-] H Ho. split; [lia|]. eapply Z.lt_le_trans; [apply H|].
    change 65536%Z with (16 ^ Z.of_nat 4)%Z. apply Z.pow_le_mono_r; lia.
  - destruct (hex_val c) as [d|] eqn:Hd.
    + case_decide; [done|]. intros E Hacc Ho. eapply IH; [exact E| |lia].
      apply hex_val_range in Hd. rewrite Nat2Z.inj_succ, Z.pow_succ_r by lia. lia.
    + intros [= <- <- <-] H Ho. split; [lia|]. eapply Z.lt_le_trans; [apply H|].
      change 65536%Z with (16 ^ Z.of_nat 4)%Z. apply Z.pow_le_mono_r; lia.
Qed.

Lemma octets_of_group v : (0 ≤ v < 65536)%Z → Forall octet [v / 256; v mod 256]%Z.
Proof.
  intros H. repeat constructor; unfold octet.
  - apply Z.div_pos; lia.
  - apply Z.div_lt_upper_bound; lia.
  - apply Z.mod_pos_bound; lia.
  - apply Z.mod_pos_bound; lia.
Qed.

Lemma parse_v6_loop_wf fuel s ip e rest ip' e' :
  parse_v6_loop fuel s ip e = inr (rest, ip', e') →
  Forall octet ip → length ip + 2 * fuel = 16 → (∀ n, e = Some n → n ≤ length ip) →
  Forall octet ip' ∧ length ip' ≤ 16 ∧ (∀ n, e' = Some n → n ≤ length ip').
Proof.
  revert s ip e. induction fuel as [|fuel IH]; intros s ip e; cbn [parse_v6_loop].
  - intros [= <- <- <-] Hip Hl He. split_and!; [done|lia|done].
  - destruct (hex_group s 0 0) as [[[v n] r]|] eqn:Hg; [|done]. intros H Hip Hl He.
    assert (Forall octet (ip ++ [v / 256; v mod 256]%Z)) as Hip'
      by (apply Forall_app; split; [done|]; eapply octets_of_group, hex_group_range; [done|simpl; lia|lia]).
    assert (length (ip ++ [v / 256; v mod 256]%Z) = length ip + 2) as Hl' by (by rewrite length_app).
    repeat case_decide; try done.
    + destruct (parseIPv4Fields s) as [|v4] eqn:H4; [done|]. injection H as <- <- <-.
      apply parseIPv4Fields_wf in H4 as [H41 H42]. rewrite length_app, Forall_app.
      split_and!; [done|done|lia|]. intros k Hk%He. lia.
    + destruct r as [|c [|d r]]; [|by case_decide|].
      * injection H as <- <- <-. split_and!; [done|lia|]. intros k Hk%He. lia.
      * repeat case_decide; try done; [|eapply IH; [exact H|done|lia|]; intros k Hk%He; lia].
        destruct e; [done|]. destruct r as [|d' r].
        -- injection H as <- <- <-. split_and!; [done|lia|]. by intros k [= <-].
        -- eapply IH; [exact H|done|lia|]. by intros k [= <-].
Qed.

Lemma parseIPv6_wf s a : parseIPv6 s = inr a → Addr_wf a.
Proof.
  unfold parseIPv6. destruct (Cut s "%"%char) as [[addr zone] found].
  destruct (_ && _); [done|].
  destruct (_ && _); [by intros [= <-]; split; [|repeat constructor]|].
  destruct (parse_v6_loop _ _ _ _) as [|[[rest ip] e]] eqn:E; [done|].
  apply parse_v6_loop_wf in E as (Hip & Hl & He); [|done|done|intros k Hk; case_match; simplify_eq/=; lia].
  repeat case_decide; try done.
  - destruct e as [k|]; [|done]. intros [= <-]. specialize (He k eq_refl). split.
    + rewrite !length_app, length_take, length_drop, length_replicate. lia.
    + rewrite !Forall_app. split_and!; [by apply Forall_take|by apply Forall_replicate|by apply Forall_drop].
  - intros [= <-]. split; [lia|done].
Qed.

(** Whatever [ParseAddr] returns has four or sixteen octets. *)
Lemma ParseAddr_wf s a : ParseAddr s = inr a → Addr_wf a.
Proof.
  unfold ParseAddr. destruct (list_find _ _) as [[i c]|]; [|done]. repeat case_decide; [| |done].
  - destruct (parseIPv4Fields _) eqn:E; [done|]. intros [= <-]. by apply parseIPv4Fields_wf in E.
  - destruct (parseIPv6 s) eqn:E; [done|]. intros [= <-]. by eapply parseIPv6_wf.
Qed.

Lemma As16_wf a : Addr_wf a → length (As16 a) = 16 ∧ Forall octet (As16 a).
Proof.
  destruct a as [|ip|ip z]; simpl; [by split; [|repeat constructor]| |done].
  intros [Hl Ho]. split; [simpl; lia|]. rewrite !Forall_cons. by repeat split.
Qed.

Lemma ParseIP_wf s : ParseIP s = [] ∨ length (ParseIP s) = 16 ∧ Forall octet (ParseIP s).
Proof.
  unfold ParseIP. destruct (ParseAddr s) as [|a] eqn:E; [by left|]. case_decide; [|by left].
  right. by eapply As16_wf, ParseAddr_wf.
Qed.

(** ** IPv4 round trip *)

Definition dec_digit (d : Z) : ascii := ascii_of_nat (Z.to_nat (48 + d)).

Lemma dec_digit_val d : (0 ≤ d < 10)%Z → is_digit (dec_digit d) = true ∧ Z.of_nat (nat_of_ascii (dec_digit d)) = (48 + d)%Z.
Proof.
  intros H. assert (∃ n, n < 10 ∧ d = Z.of_nat n) as (n & Hn & ->) by (exists (Z.to_nat d); lia).
  do 10 (destruct n as [|n]; [done|]). lia.
Qed.

Definition octet_digits (o : Z) : list Z :=
  if decide (o < 10)%Z then [o] else if decide (o < 100)%Z then [o / 10; o mod 10]%Z
  else [o / 100; o / 10 mod 10; o mod 10]%Z.

Lemma Itoa_octet o : octet o → bytes_of (Itoa o) = dec_digit <$> octet_digits o.
Proof.
  intros Ho.
  assert (forallb (λ n, bool_decide (bytes_of (Itoa (Z.of_nat n)) = dec_digit <$> octet_digits (Z.of_nat n))) (seq 0 256) = true)
    as H by (vm_compute; reflexivity).
  rewrite forallb_forall in H. specialize (H (Z.to_nat o)). rewrite Z2Nat.id in H by apply Ho.
  unfold octet in Ho. eapply bool_decide_eq_true_1, H, in_seq. lia.
Qed.

Lemma octet_digits_spec o :
  octet o → Forall (λ d, 0 ≤ d < 10)%Z (octet_digits o) ∧ foldl (λ v d, v * 10 + d)%Z 0%Z (octet_digits o) = o.
Proof.
  unfold octet, octet_digits. intros Ho. repeat case_decide; rewrite !Forall_cons; simpl.
  - split_and!; try done; lia.
  - pose proof (Z.div_mod o 10). pose proof (Z.mod_pos_bound o 10). split_and!; try done; try lia; nia.
  - pose proof (Z.div_mod o 10). pose proof (Z.mod_pos_bound o 10).
    pose proof (Z.div_mod (o / 10) 10). pose proof (Z.mod_pos_bound (o / 10) 10).
    assert (o / 100 = o / 10 / 10)%Z as -> by (by rewrite Z.div_div).
    split_and!; try done; try lia; nia.
Qed.

Lemma parse_v4_digits ds v n fields s :
  Forall (λ d, 0 ≤ d < 10)%Z ds → (0 ≤ v)%Z →
  (n = 0 ∧ v = 0%Z ∧ (∀ d ds', ds = d :: ds' → ds' ≠ [] → d ≠ 0%Z) ∨ 0 < n ∧ v ≠ 0%Z ∨ 0 < n ∧ ds = []) →
  (foldl (λ v d, v * 10 + d) v ds ≤ 255)%Z →
  parse_v4 ((dec_digit <$> ds) ++ s) v n fields =
    parse_v4 s (foldl (λ v d, v * 10 + d)%Z v ds) (length ds + n) fields.
Proof.
  intros Hds. revert v n. induction Hds as [|d ds Hd Hds IH]; intros v n Hv Hn Hle; [done|].
  assert (∀ l (x : Z), Forall (λ d, 0 ≤ d < 10)%Z l → (0 ≤ x)%Z → (x ≤ foldl (λ v d, v * 10 + d)%Z x l)%Z) as Hmono.
  { intros l. induction l as [|y l IHl]; intros x Hl Hx; simpl; [lia|]. apply Forall_cons in Hl as [Hy Hl].
    specialize (IHl (x * 10 + y)%Z Hl ltac:(lia)). lia. }
  destruct (dec_digit_val d Hd) as [H1 H2]. csimpl. cbn [parse_v4]. rewrite H1, H2.
  rewrite decide_False by (intros [-> ->]; destruct Hn as [(? & _)|[[_ ?]|[_ ?]]]; done).
  replace (v * 10 + (48 + d - 48))%Z with (v * 10 + d)%Z by lia. simpl in Hle.
  pose proof (Hmono ds (v * 10 + d)%Z Hds ltac:(lia)). rewrite decide_False by lia.
  rewrite IH; [f_equal; lia|lia| |done]. right.
  destruct ds as [|d' ds]; [right; split; [lia|done]|]. left. split; [lia|].
  destruct Hn as [(-> & -> & Hz)|[[? ?]|[? ?]]]; [|lia|done]. specialize (Hz d (d' :: ds) eq_refl ltac:(done)). lia.
Qed.

Lemma octet_digits_lead o d ds : octet o → octet_digits o = d :: ds → ds ≠ [] → d ≠ 0%Z.
Proof.
  unfold octet, octet_digits. intros Ho E Hne. repeat case_decide; injection E as <- <-; [done|..].
  - pose proof (Z.div_mod o 10). pose proof (Z.mod_pos_bound o 10). lia.
  - pose proof (Z.div_mod o 100). pose proof (Z.mod_pos_bound o 100). lia.
Qed.

(** The decimal digits of an octet are read back. *)
Lemma parse_v4_octet o fields s :
  octet o → parse_v4 (bytes_of (Itoa o) ++ s) 0 0 fields = parse_v4 s o (strlen (Itoa o)) fields.
Proof.
  intros Ho. destruct (octet_digits_spec o Ho) as [Hd Hv]. rewrite strlen_bytes, (Itoa_octet o Ho), length_fmap.
  rewrite parse_v4_digits; [by rewrite Hv, Nat.add_0_r|done|lia| |rewrite Hv; unfold octet in Ho; lia].
  left. split_and!; [done..|]. intros d ds E. by eapply octet_digits_lead.
Qed.

Lemma Itoa_octet_digits o : octet o → Forall (λ c, is_digit c = true) (bytes_of (Itoa o)).
Proof.
  intros Ho. rewrite (Itoa_octet o Ho). apply Forall_fmap. eapply Forall_impl; [apply (octet_digits_spec o Ho)|].
  intros d Hd. by apply dec_digit_val.
Qed.

Lemma parse_v4_dot o s fields :
  length fields < 3 → s ≠ [] →
  parse_v4 ("."%char :: s) o (strlen (Itoa o)) fields = parse_v4 s 0 0 (fields ++ [o]).
Proof.
  intros Hf Hs. cbn [parse_v4]. change (is_digit ".") with false. cbn [decide].
  rewrite decide_True by done. rewrite decide_False by (intros [H|H]; [by apply Itoa_nonempty in H|done]).
  by rewrite decide_False by lia.
Qed.

Lemma v4_string_bytes a b c d :
  bytes_of (v4_string [a; b; c; d]) =
    bytes_of (Itoa a) ++ "."%char :: bytes_of (Itoa b) ++ "."%char :: bytes_of (Itoa c) ++ "."%char :: bytes_of (Itoa d).
Proof. unfold v4_string. simpl. by rewrite !bytes_of_app. Qed.

Lemma Itoa_bytes_ne o s : bytes_of (Itoa o) ++ s ≠ [].
Proof.
  intros [H _]%app_eq_nil. apply (Itoa_nonempty o). by rewrite strlen_bytes, H.
Qed.

Lemma parseIPv4Fields_string ip :
  length ip = 4 → Forall octet ip → parseIPv4Fields (bytes_of (v4_string ip)) = inr ip.
Proof.
  intros Hl Ho. destruct ip as [|a [|b [|c [|d [|]]]]]; try done.
  rewrite !Forall_cons in Ho. destruct Ho as (Ha & Hb & Hc & Hd & _).
  unfold parseIPv4Fields. rewrite v4_string_bytes.
  rewrite parse_v4_octet, parse_v4_dot, parse_v4_octet, parse_v4_dot, parse_v4_octet, parse_v4_dot
    by (done || simpl; lia || apply Itoa_bytes_ne || (rewrite <-(app_nil_r (bytes_of _)); apply Itoa_bytes_ne)).
  rewrite <-(app_nil_r (bytes_of (Itoa d))), parse_v4_octet by done. done.
Qed.

(** The text of an IPv4 address is parsed back to it. *)
Lemma ParseAddr_v4_string ip :
  length ip = 4 → Forall octet ip → ParseAddr (v4_string ip) = inr (Addr4 ip).
Proof.
  intros Hl Ho. unfold ParseAddr. rewrite parseIPv4Fields_string by done.
  assert (∃ i, list_find (λ c, c = "."%char ∨ c = ":"%char ∨ c = "%"%char) (bytes_of (v4_string ip)) = Some (i, "."%char)) as [i ->];
    [|by rewrite decide_True].
  destruct ip as [|a [|b [|c [|d [|]]]]]; try done. rewrite !Forall_cons in Ho. destruct Ho as (Ha & _).
  rewrite v4_string_bytes. exists (length (bytes_of (Itoa a))). apply list_find_Some. split_and!.
  - by rewrite lookup_app_r, Nat.sub_diag by lia.
  - auto.
  - intros j y Hy Hj. rewrite lookup_app_l in Hy by done.
    pose proof (Itoa_octet_digits a Ha) as Hd. rewrite Forall_lookup in Hd. specialize (Hd _ _ Hy).
    intros [-> |[-> | ->]]; done.
Qed.

Lemma ParseIP_v4_string ip :
  length ip = 4 → Forall octet ip → ParseIP (v4_string ip) = v4InV6Prefix ++ ip.
Proof. intros. unfold ParseIP. by rewrite ParseAddr_v4_string. Qed.
