(* ===== verification/Dhcp.v ===== *)
(** * DHCP packets and netboot clients

    smee/internal/dhcp: what the server learns of a client from its packet and
    which boot file and next server it answers (dhcp.go), and the formats of a
    hardware address (format.go).

    The packet library insomniacslk/dhcp is the class [DhcpLib]; [DHCPv4] is the
    part of its packet type the program reads or writes, with the options by
    their code. The package net/url is the class [GoUrl]. *)
From S2P Require Import Prelude GoStrings GoNet GoNetip.

(** ** Bytes and strings *)

Definition str_of_octets (l : list Z) : string := of_bytes ((λ b, ascii_of_nat (Z.to_nat b)) <$> l).
Definition octets_of_str (s : string) : list Z := (λ c, Z.of_nat (nat_of_ascii c)) <$> bytes_of s.

(** ** The libraries *)

Record DHCPv4 := mkDHCPv4 {
  pk_OpCode : Z;
  pk_TransactionID : list Z;
  pk_YourIPAddr : list Z;
  pk_ServerIPAddr : list Z;
  pk_GatewayIPAddr : list Z;
  pk_ClientHWAddr : list Z;
  pk_ServerHostName : string;
  pk_BootFileName : string;
  pk_Options : gmap Z (list Z);
}.

Definition OpcodeBootRequest : Z := 1.
Definition OpcodeBootReply : Z := 2.
Definition MessageTypeDiscover : Z := 1.
Definition MessageTypeOffer : Z := 2.
Definition MessageTypeRequest : Z := 3.
Definition MessageTypeAck : Z := 5.
Definition MessageTypeRelease : Z := 7.
Definition ServerPort : Z := 67.

Definition OptionSubnetMask : Z := 1.
Definition OptionRouter : Z := 3.
Definition OptionDomainNameServer : Z := 6.
Definition OptionLogServer : Z := 7.
Definition OptionHostName : Z := 12.
Definition OptionDomainName : Z := 15.
Definition OptionBroadcastAddress : Z := 28.
Definition OptionNTPServers : Z := 42.
Definition OptionVendorSpecificInformation : Z := 43.
Definition OptionIPAddressLeaseTime : Z := 51.
Definition OptionDHCPMessageType : Z := 53.
Definition OptionServerIdentifier : Z := 54.
Definition OptionClassIdentifier : Z := 60.
Definition OptionTFTPServerName : Z := 66.
Definition OptionBootfileName : Z := 67.
Definition OptionUserClassInformation : Z := 77.
Definition OptionClientSystemArchitectureType : Z := 93.
Definition OptionClientNetworkInterfaceIdentifier : Z := 94.
Definition OptionClientMachineIdentifier : Z := 97.
Definition OptionDNSDomainSearchList : Z := 119.
Definition OptionClasslessStaticRoute : Z := 121.

Record Route := mkRoute { rt_Dest : IPNet; rt_Router : list Z }.

(** The values the program gives to options, which the library encodes. *)
Inductive OptionValue :=
| OVBytes (b : list Z)
| OVMessageType (t : Z)
| OVLeaseTime (seconds : Z)
| OVIP (ip : list Z)
| OVIPs (ips : list (list Z))
| OVMask (mask : list Z)
| OVLabels (l : list string)
| OVRoutes (l : list Route).

Class DhcpLib := {
  (** [pkt.MessageType()] and [pkt.ClientArch()], read from options 53 and 93 *)
  MessageType : DHCPv4 → Z;
  ClientArch : DHCPv4 → list Z;
  (** [iana.Arch.String()] *)
  Arch_String : Z → string;
  MessageType_String : Z → string;
  (** [Option.Value.ToBytes()] and [Options.ToBytes()] *)
  value_ToBytes : OptionValue → list Z;
  Options_ToBytes : gmap Z (list Z) → list Z;
  (** [NewReplyFromRequest(pkt)] without modifiers *)
  NewReply : DHCPv4 → DHCPv4;
}.

Class GoUrl := {
  URL : Type;
  url_Parse : string → res URL;
  url_ParseRequestURI : string → res URL;
  (** [url.URL{Scheme: s, Host: h}] *)
  url_make (s h : string) : URL;
  URL_String : URL → string;
  URL_Hostname : URL → string;
  URL_JoinPath : URL → list string → URL;
}.

(** ** Packets *)

Definition set_Options (o : gmap Z (list Z)) (p : DHCPv4) : DHCPv4 :=
  mkDHCPv4 (pk_OpCode p) (pk_TransactionID p) (pk_YourIPAddr p) (pk_ServerIPAddr p) (pk_GatewayIPAddr p)
    (pk_ClientHWAddr p) (pk_ServerHostName p) (pk_BootFileName p) o.
Definition set_YourIPAddr (ip : list Z) (p : DHCPv4) : DHCPv4 :=
  mkDHCPv4 (pk_OpCode p) (pk_TransactionID p) ip (pk_ServerIPAddr p) (pk_GatewayIPAddr p)
    (pk_ClientHWAddr p) (pk_ServerHostName p) (pk_BootFileName p) (pk_Options p).
Definition set_ServerIPAddr (ip : list Z) (p : DHCPv4) : DHCPv4 :=
  mkDHCPv4 (pk_OpCode p) (pk_TransactionID p) (pk_YourIPAddr p) ip (pk_GatewayIPAddr p)
    (pk_ClientHWAddr p) (pk_ServerHostName p) (pk_BootFileName p) (pk_Options p).
Definition set_ServerHostName (s : string) (p : DHCPv4) : DHCPv4 :=
  mkDHCPv4 (pk_OpCode p) (pk_TransactionID p) (pk_YourIPAddr p) (pk_ServerIPAddr p) (pk_GatewayIPAddr p)
    (pk_ClientHWAddr p) s (pk_BootFileName p) (pk_Options p).
Definition set_BootFileName (s : string) (p : DHCPv4) : DHCPv4 :=
  mkDHCPv4 (pk_OpCode p) (pk_TransactionID p) (pk_YourIPAddr p) (pk_ServerIPAddr p) (pk_GatewayIPAddr p)
    (pk_ClientHWAddr p) (pk_ServerHostName p) s (pk_Options p).

(** [pkt.Options.Get(code)], [None] for nil; [Has]; [pkt.GetOneOption(code)]. *)
Definition Options_Get (code : Z) (p : DHCPv4) : option (list Z) := pk_Options p !! code.
Definition Options_Has (code : Z) (p : DHCPv4) : bool := bool_decide (is_Some (pk_Options p !! code)).
Definition GetOneOption (code : Z) (p : DHCPv4) : list Z := default [] (pk_Options p !! code).

(** [pkt.UpdateOption(opt)]. *)
Definition UpdateOption `{DhcpLib} (code : Z) (v : OptionValue) (p : DHCPv4) : DHCPv4 :=
  set_Options (<[code := value_ToBytes v]> (pk_Options p)) p.

(** ** Constants *)

Definition PXEClient : string := "PXEClient".
Definition HTTPClient : string := "HTTPClient".
Definition UC_IPXE : string := "iPXE".
Definition UC_Tinkerbell : string := "Tinkerbell".

Definition MacAddrFormatColon : string := "colon".
Definition MacAddrFormatDot : string := "dot".
Definition MacAddrFormatDash : string := "dash".
Definition MacAddrFormatNoDelimiter : string := "no-delimiter".
Definition MacAddrFormatEmpty : string := "empty".

Definition IPXEBinaryIPXEEFI : string := "ipxe.efi".
Definition IPXEBinarySNPARM64 : string := "snp-arm64.efi".
Definition IPXEBinaryUndionlyKPXE : string := "undionly.kpxe".

(** The architectures by their number in the IANA registry. *)
Definition INTEL_X86PC : Z := 0.
Definition NEC_PC98 : Z := 1.
Definition EFI_ITANIUM : Z := 2.
Definition DEC_ALPHA : Z := 3.
Definition ARC_X86 : Z := 4.
Definition INTEL_LEAN_CLIENT : Z := 5.
Definition EFI_IA32 : Z := 6.
Definition EFI_X86_64 : Z := 7.
Definition EFI_XSCALE : Z := 8.
Definition EFI_BC : Z := 9.
Definition EFI_ARM32 : Z := 10.
Definition EFI_ARM64 : Z := 11.
Definition EFI_X86_HTTP : Z := 15.
Definition EFI_X86_64_HTTP : Z := 16.
Definition EFI_ARM32_HTTP : Z := 18.
Definition EFI_ARM64_HTTP : Z := 19.
Definition INTEL_X86PC_HTTP : Z := 20.

Definition ArchToBootFile : gmap Z string := list_to_map [
  (INTEL_X86PC, IPXEBinaryUndionlyKPXE);
  (NEC_PC98, IPXEBinaryUndionlyKPXE);
  (EFI_ITANIUM, IPXEBinaryUndionlyKPXE);
  (DEC_ALPHA, IPXEBinaryUndionlyKPXE);
  (ARC_X86, IPXEBinaryUndionlyKPXE);
  (INTEL_LEAN_CLIENT, IPXEBinaryUndionlyKPXE);
  (EFI_IA32, IPXEBinaryIPXEEFI);
  (EFI_X86_64, IPXEBinaryIPXEEFI);
  (EFI_XSCALE, IPXEBinaryIPXEEFI);
  (EFI_BC, IPXEBinaryIPXEEFI);
  (EFI_ARM32, IPXEBinarySNPARM64);
  (EFI_ARM64, IPXEBinarySNPARM64);
  (EFI_X86_HTTP, IPXEBinaryIPXEEFI);
  (EFI_X86_64_HTTP, IPXEBinaryIPXEEFI);
  (EFI_ARM32_HTTP, IPXEBinarySNPARM64);
  (EFI_ARM64_HTTP, IPXEBinarySNPARM64);
  (INTEL_X86PC_HTTP, IPXEBinaryUndionlyKPXE);
  (41%Z, IPXEBinarySNPARM64)].

(** ** format.go *)

(** The loop of [dashNotation] from index [i]. *)
Fixpoint dash_go (i : nat) (a : list Z) : list ascii :=
  match a with
  | [] => []
  | b :: a' => (if decide (0 < i) then ["-"%char] else []) ++ octet_bytes b ++ dash_go (S i) a'
  end.

Definition dashNotation (a : list Z) : string := if decide (a = []) then "" else of_bytes (dash_go 0 a).

(** The loop of [dotNotation] from index [i]. *)
Fixpoint dot_go (i : nat) (a : list Z) : list ascii :=
  match a with
  | [] => []
  | b :: a' => (if decide (0 < i ∧ i mod 2 = 0) then ["."%char] else []) ++ octet_bytes b ++ dot_go (S i) a'
  end.

Definition dotNotation (a : list Z) : string := if decide (a = []) then "" else of_bytes (dot_go 0 a).

Definition noDelimiter (a : list Z) : string := if decide (a = []) then "" else of_bytes (a ≫= octet_bytes).

Definition macAddrFormat (mac : list Z) (f : string) : string :=
  if decide (f = MacAddrFormatColon) then HardwareAddr_String mac
  else if decide (f = MacAddrFormatDot) then dotNotation mac
  else if decide (f = MacAddrFormatDash) then dashNotation mac
  else if decide (f = MacAddrFormatNoDelimiter) then noDelimiter mac
  else if decide (f = MacAddrFormatEmpty) then ""
  else HardwareAddr_String mac.

(** ** Clients *)

Definition raspberry_prefixes : list (list Z) :=
  [[184; 39; 235]; [220; 166; 50]; [228; 95; 1]; [40; 205; 193]; [216; 58; 221]]%Z.

Definition isRaspberryPI (mac : list Z) : bool :=
  existsb (λ p, bool_decide (take (length p) mac = p)) raspberry_prefixes.

Definition wrapNonNil (err : option error) (format : string) : option error :=
  match err with
  | None => Some (ErrNew format)
  | Some e => Some (ErrWrap (error_msg e +:+ ": ") (ErrNew format))
  end.

Section Clients.
Context `{DhcpLib}.

Definition Arch (d : DHCPv4) : Z :=
  if isRaspberryPI (pk_ClientHWAddr d) then 41
  else
    match list_find (λ a, Contains (Arch_String a) "unknown" = false) (ClientArch d) with
    | Some (_, a) => a
    | None => 255
    end.

Definition IsNetbootClient (pkt : DHCPv4) : option error :=
  let err := None in
  let err :=
    if decide (MessageType pkt ≠ MessageTypeDiscover ∧ MessageType pkt ≠ MessageTypeRequest)
    then wrapNonNil err "message type must be either Discover or Request" else err in
  let err := if Options_Has OptionClassIdentifier pkt then err else wrapNonNil err "option 60 not set" in
  let opt60 := str_of_octets (GetOneOption OptionClassIdentifier pkt) in
  let err :=
    if negb (HasPrefix opt60 PXEClient) && negb (HasPrefix opt60 HTTPClient)
    then wrapNonNil err "option 60 not PXEClient or HTTPClient" else err in
  let err :=
    if Options_Has OptionClientSystemArchitectureType pkt then err else wrapNonNil err "option 93 not set" in
  let err :=
    if Options_Has OptionClientNetworkInterfaceIdentifier pkt then err else wrapNonNil err "option 94 not set" in
  let guid := GetOneOption OptionClientMachineIdentifier pkt in
  if decide (length guid = 0) then err
  else if decide (length guid = 17) then
    if decide (head guid ≠ Some 0%Z) then wrapNonNil err "option 97 does not start with 0" else err
  else wrapNonNil err "option 97 has invalid length (must be 0 or 17)".

Record Info := mkInfo {
  info_Pkt : option DHCPv4;
  info_Arch : Z;
  info_Mac : list Z;
  info_UserClass : string;
  info_ClientType : string;
  info_IsNetbootClient : option error;
  info_IPXEBinary : string;
  info_MacAddrFormat : string;
  info_ArchMappingOverride : gmap Z string;
}.

Definition zero_Info : Info := mkInfo None 0 [] "" "" None "" "" ∅.

Definition WithMacAddrFormat (f : string) (i : Info) : Info :=
  mkInfo (info_Pkt i) (info_Arch i) (info_Mac i) (info_UserClass i) (info_ClientType i) (info_IsNetbootClient i)
    (info_IPXEBinary i) f (info_ArchMappingOverride i).

Definition WithArchMappingOverride (m : gmap Z string) (i : Info) : Info :=
  mkInfo (info_Pkt i) (info_Arch i) (info_Mac i) (info_UserClass i) (info_ClientType i) (info_IsNetbootClient i)
    (info_IPXEBinary i) (info_MacAddrFormat i) m.

Definition WithIPXEBinary (b : string) (i : Info) : Info :=
  mkInfo (info_Pkt i) (info_Arch i) (info_Mac i) (info_UserClass i) (info_ClientType i) (info_IsNetbootClient i)
    b (info_MacAddrFormat i) (info_ArchMappingOverride i).

Definition UserClassFrom (i : Info) : string :=
  match info_Pkt i with
  | Some p => match Options_Get OptionUserClassInformation p with Some v => str_of_octets v | None => "" end
  | None => ""
  end.

Definition ClientTypeFrom (i : Info) : string :=
  match info_Pkt i with
  | Some p =>
      match Options_Get OptionClassIdentifier p with
      | Some v => if HasPrefix (str_of_octets v) HTTPClient then HTTPClient else PXEClient
      | None => ""
      end
  | None => ""
  end.

(** [maps.Copy(dst, src)]: the override wins. *)
Definition IPXEBinaryFrom (i : Info) : string :=
  default "" ((info_ArchMappingOverride i ∪ ArchToBootFile) !! info_Arch i).

Definition NewInfo (pkt : option DHCPv4) (opts : list (Info → Info)) : Info :=
  let i := foldl (λ i opt, opt i) (mkInfo pkt 0 [] "" "" None "" "" ∅) opts in
  match pkt with
  | None => i
  | Some p =>
      let i := mkInfo (info_Pkt i) (Arch p) (pk_ClientHWAddr p) (UserClassFrom i) (ClientTypeFrom i)
                 (IsNetbootClient p) (info_IPXEBinary i) (info_MacAddrFormat i) (info_ArchMappingOverride i) in
      if decide (info_IPXEBinary i = "") then WithIPXEBinary (IPXEBinaryFrom i) i else i
  end.

Definition AddRPIOpt43 (i : Info) (opts : gmap Z (list Z)) : list Z :=
  Options_ToBytes
    (if isRaspberryPI (info_Mac i) then
       <[10%Z := [0; 80; 88; 69]%Z]>
         (<[9%Z := [0; 0; 17]%Z ++ octets_of_str "Raspberry Pi Boot"]> opts)
     else opts).

End Clients.

Section Boot.
Context `{GoUrl}.

(** The elements of the path to the binary of a client. *)
Definition binary_path (i : Info) : list string :=
  (if decide (info_Mac i = []) then [] else [macAddrFormat (info_Mac i) (info_MacAddrFormat i)]) ++ [info_IPXEBinary i].

Definition Bootfile (i : Info) (customUC : string) (ipxeScript ipxeHTTPBinServer : option URL) (ipxeTFTPBinServer : AddrPort)
    : string :=
  let bootfile := "/no-ipxe-script-defined" in
  if decide (info_UserClass i = UC_Tinkerbell ∨ customUC ≠ "" ∧ info_UserClass i = customUC) then
    match ipxeScript with Some u => URL_String u | None => bootfile end
  else if decide (info_ClientType i = HTTPClient) then
    match ipxeHTTPBinServer with
    | Some u => URL_String (URL_JoinPath u (binary_path i))
    | None => bootfile
    end
  else if decide (info_UserClass i = UC_IPXE) then
    URL_String (URL_JoinPath (url_make "tftp" (AddrPort_String ipxeTFTPBinServer)) (binary_path i))
  else if decide (info_IPXEBinary i ≠ "") then info_IPXEBinary i else bootfile.

(** A nil address is the empty list. *)
Definition NextServer (i : Info) (ipxeHTTPBinServer : option URL) (ipxeTFTPBinServer : AddrPort) (publicIP : Addr) : list Z :=
  let nextServer :=
    if decide (info_ClientType i = HTTPClient) then
      match ipxeHTTPBinServer with Some u => ParseIP (URL_Hostname u) | None => [] end
    else AsSlice (ap_Addr ipxeTFTPBinServer) in
  if bool_decide (nextServer = []) || IP_IsUnspecified nextServer
  then if IsValid publicIP && negb (Addr_IsUnspecified publicIP) then AsSlice publicIP else nextServer
  else nextServer.

End Boot.

(** ** Formats *)

Lemma dash_go_sep i os : 0 < i → os ≠ [] → dash_go i os = "-"%char :: sep_bytes "-"%char os.
Proof.
  revert i. induction os as [|o os IH]; intros i Hi Hne; [done|]. cbn [dash_go]. rewrite decide_True by done.
  destruct os as [|o' os]; [done|]. rewrite IH by (done || lia). done.
Qed.

Lemma dashNotation_sep os : dashNotation os = of_bytes (sep_bytes "-"%char os).
Proof.
  unfold dashNotation. destruct os as [|o os]; [done|]. rewrite decide_False by done. cbn [dash_go].
  rewrite decide_False by lia. destruct os as [|o' os]; [done|]. by rewrite dash_go_sep by (done || lia).
Qed.

(** Pairs of octets, separated by dots. *)
Fixpoint dot_pairs (os : list Z) : list ascii :=
  match os with
  | a :: b :: os' =>
      octet_bytes a ++ octet_bytes b ++ (if decide (os' = []) then [] else "."%char :: dot_pairs os')
  | [a] => octet_bytes a
  | [] => []
  end.

Lemma dot_go_pairs n os i :
  length os ≤ n → i mod 2 = 0 → dot_go i os = (if decide (0 < i ∧ os ≠ []) then ["."%char] else []) ++ dot_pairs os.
Proof.
  revert os i. induction n as [|n IH]; intros os i Hn Hi.
  - destruct os; [|simpl in Hn; lia]. simpl. by case_decide; [naive_solver|].
  - destruct os as [|a os]; [simpl; by case_decide; [naive_solver|]|].
    assert (S i mod 2 = 1) as Hodd.
    { pose proof (Nat.div_mod_eq i 2) as E. rewrite Hi in E.
      replace (S i) with (1 + (i / 2) * 2) by lia. by rewrite Nat.Div0.mod_add. }
    cbn [dot_go]. destruct os as [|b os].
    + cbn [dot_go dot_pairs]. rewrite app_nil_r. repeat case_decide; naive_solver.
    + cbn [dot_go dot_pairs]. rewrite (decide_False (P := 0 < S i ∧ _)) by (rewrite Hodd; lia).
      assert (S (S i) mod 2 = 0) as Heven.
      { replace (S (S i)) with (i + 1 * 2) by lia. by rewrite Nat.Div0.mod_add. }
      rewrite IH by (done || simpl in *; lia).
      destruct (decide (0 < i ∧ i mod 2 = 0)), (decide (0 < i ∧ a :: b :: os ≠ [])); try naive_solver;
        destruct (decide (0 < S (S i) ∧ os ≠ [])) as [[_ Hne]|Hne], (decide (os = [])); subst; try done; exfalso; naive_solver lia.
Qed.

Lemma parse_pairs_dot n os : Forall octet os → length os = 2 * n → parse_pairs n (dot_pairs os) "."%char = Some os.
Proof.
  revert os. induction n as [|n IH]; intros os Ho Hl; [by destruct os|].
  destruct os as [|a [|b os]]; [simpl in Hl; lia..|]. rewrite !Forall_cons in Ho. destruct Ho as (Ha & Hb & Ho).
  cbn [parse_pairs dot_pairs]. set (rest := if decide (os = []) then [] else "."%char :: dot_pairs os).
  assert (xtoi2 (take 2 (octet_bytes a ++ octet_bytes b ++ rest)) "000" = Some a) as ->
    by (exact (xtoi2_octet a [] "000" Ha (or_introl eq_refl))).
  assert (xtoi2 (drop 2 (octet_bytes a ++ octet_bytes b ++ rest)) "." = Some b) as ->.
  { apply (xtoi2_octet b rest "."); [done|]. subst rest. case_decide; [by left|by right]. }
  assert (drop 5 (octet_bytes a ++ octet_bytes b ++ rest) = dot_pairs os) as ->
    by (subst rest; destruct (decide (os = [])); by subst).
  rewrite IH by (done || simpl in Hl; lia). done.
Qed.

Lemma dot_pairs_length n os : length os = 2 * n → 0 < n → length (dot_pairs os) + 1 = 5 * n.
Proof.
  revert os. induction n as [|n IH]; intros os Hl Hn; [lia|].
  destruct os as [|a [|b os]]; [simpl in Hl; lia..|]. cbn [dot_pairs]. rewrite !length_app. simpl in Hl.
  destruct (decide (os = [])) as [->|Hne]; [simpl in *; lia|].
  assert (0 < n) by (destruct os; [done|]; simpl in *; lia). specialize (IH os ltac:(lia) ltac:(done)). simpl. lia.
Qed.

Lemma ParseMAC_dot os :
  Forall octet os → length os = 6 ∨ length os = 8 ∨ length os = 20 → ParseMAC (dotNotation os) = Some os.
Proof.
  intros Ho Hl. unfold dotNotation. rewrite decide_False by (intros ->; simpl in Hl; lia).
  rewrite (dot_go_pairs (length os)) by done. rewrite decide_False by lia. cbn [app].
  assert (∃ n, length os = 2 * n ∧ (n = 3 ∨ n = 4 ∨ n = 10)) as (n & Hn & Hn')
    by (destruct Hl as [-> |[-> | ->]]; [exists 3|exists 4|exists 10]; lia).
  unfold ParseMAC. rewrite bytes_of_of_bytes, (dot_pairs_length n) by lia.
  pose proof (dot_pairs_length n os Hn ltac:(lia)) as Hlen. rewrite decide_False by lia.
  pose proof (parse_pairs_dot n os Ho Hn) as Hp.
  destruct os as [|a [|b [|c [|d os]]]]; [simpl in Hl; lia..|].
  assert (dot_pairs (a :: b :: c :: d :: os) !! 2 = Some (hex_digit (b / 16))) as -> by done.
  assert (dot_pairs (a :: b :: c :: d :: os) !! 4 = Some "."%char) as -> by done.
  rewrite !Forall_cons in Ho. destruct Ho as (_ & Hb & _).
  assert (hex_val (hex_digit (b / 16)) = Some (b / 16)%Z) as Hx.
  { apply hex_val_digit. unfold octet in Hb. split; [apply Z.div_pos; lia|apply Z.div_lt_upper_bound; lia]. }
  rewrite decide_False by (intros [E|E]; by rewrite E in Hx). rewrite decide_True by done.
  rewrite (Nat.mul_comm 5), Nat.Div0.mod_mul, decide_False by tauto.
  replace (2 * (n * 5)) with ((2 * n) * 5) by lia. rewrite Nat.div_mul by done.
  rewrite (Nat.mul_comm 2), Nat.div_mul by done. unfold mac_len_ok.
  rewrite bool_decide_eq_true_2 by lia. done.
Qed.

Lemma octets_concat_inj os os' :
  Forall octet os → Forall octet os' → (os ≫= octet_bytes) = (os' ≫= octet_bytes) → os = os'.
Proof.
  intros Ho. revert os'. induction Ho as [|a os Ha Ho IH]; intros os' Ho' E; destruct Ho' as [|b os' Hb Ho']; try done.
  csimpl in E. injection E as E1 E2 E3. f_equal; [|by apply IH].
  pose proof (xtoi2_octet a [] "0"%char Ha (or_introl eq_refl)) as Xa.
  pose proof (xtoi2_octet b [] "0"%char Hb (or_introl eq_refl)) as Xb.
  unfold octet_bytes in Xa. rewrite E1, E2 in Xa. unfold octet_bytes in Xb. congruence.
Qed.

(** The hardware address put in a boot URL identifies the machine. In every
    format but the empty one two addresses of the same text are equal, and
    unless the delimiters are dropped the text is parsed back to the address. *)
Theorem macAddrFormat_identifies f mac mac' :
  f ≠ MacAddrFormatEmpty → Forall octet mac → Forall octet mac' →
  length mac = 6 ∨ length mac = 8 ∨ length mac = 20 → length mac' = 6 ∨ length mac' = 8 ∨ length mac' = 20 →
  (f ≠ MacAddrFormatNoDelimiter → ParseMAC (macAddrFormat mac f) = Some mac) ∧
  (macAddrFormat mac f = macAddrFormat mac' f → mac = mac').
Proof.
  intros Hf Ho Ho' Hl Hl'.
  assert (∀ m, Forall octet m → length m = 6 ∨ length m = 8 ∨ length m = 20 → f ≠ MacAddrFormatNoDelimiter →
    ParseMAC (macAddrFormat m f) = Some m) as Hp.
  { intros m Hm Hlm Hnd. unfold macAddrFormat. repeat case_decide; try done.
    - by apply ParseMAC_String.
    - by apply ParseMAC_dot.
    - rewrite dashNotation_sep. apply ParseMAC_sep; auto.
    - by apply ParseMAC_String. }
  split; [by apply Hp|]. intros E. destruct (decide (f = MacAddrFormatNoDelimiter)) as [->|Hnd].
  - unfold macAddrFormat in E. simpl in E. unfold noDelimiter in E.
    rewrite !decide_False in E by (by intros ->; simpl in *; lia).
    apply (f_equal bytes_of) in E. rewrite !bytes_of_of_bytes in E. by apply octets_concat_inj.
  - pose proof (Hp mac Ho Hl Hnd) as H1. rewrite E, (Hp mac' Ho' Hl' Hnd) in H1. congruence.
Qed.
