(* ===== verification/DhcpConv.v ===== *)
(** * Reservations

    smee/internal/dhcp/data.go and conv.go: the data a DHCP answer is made of and
    its conversion from a Hardware object; smee/internal/hardware: the lookup
    of the same data for the scripts and files served to a booting machine.
    Tracing is not modelled, but the attributes it records are. *)
From S2P Require Import Prelude GoStrings GoNet GoNetip BmcTypes Api Dhcp.

(** ** data.go *)

Record smee_DHCP := mksmee_DHCP {
  sd_MACAddress : list Z;
  sd_IPAddress : Addr;
  sd_SubnetMask : list Z;
  sd_DefaultGateway : Addr;
  sd_NameServers : list (list Z);
  sd_Hostname : string;
  sd_DomainName : string;
  sd_BroadcastAddress : Addr;
  sd_NTPServers : list (list Z);
  sd_VLANID : string;
  sd_LeaseTime : Z;
  sd_TFTPServerName : string;
  sd_BootFileName : string;
  sd_Arch : string;
  sd_DomainSearch : list string;
  sd_ClasslessStaticRoutes : list Route;
  sd_Disabled : bool;
}.

Record smee_PXELINUX := mksmee_PXELINUX { spx_Config : string }.

Record smee_RPI := mksmee_RPI {
  srpi_SerialNum : string;
  srpi_FirmwarePath : string;
  srpi_ConfigTxt : string;
}.

Section Conv.
Context `{GoUrl}.

Record smee_OSIE := mksmee_OSIE {
  so_BaseURL : option URL;
  so_Kernel : string;
  so_Initrd : string;
  so_KernelParams : list string;
}.

Record smee_Netboot := mksmee_Netboot {
  sn_AllowNetboot : bool;
  sn_IPXEScriptURL : option URL;
  sn_IPXEScript : string;
  sn_IPXEBinary : string;
  sn_Console : string;
  sn_Facility : string;
  sn_OSIE : smee_OSIE;
  sn_PXELINUX : smee_PXELINUX;
  sn_RPI : smee_RPI;
}.

Record smee_Isoboot := mksmee_Isoboot { si_SourceISO : URL }.

Record smee_Hardware := mksmee_Hardware {
  sh_AgentID : string;
  sh_DHCP : option smee_DHCP;
  sh_Netboot : option smee_Netboot;
  sh_Isoboot : option smee_Isoboot;
}.

Definition zero_Hardware : smee_Hardware := mksmee_Hardware "" None None None.

(** An opentelemetry attribute: its key and its value. *)
Inductive KeyValue := KVString (k v : string) | KVInt64 (k : string) (v : Z) | KVBool (k : string) (v : bool).

Definition addr_attr (a : Addr) : string := if decide (a = AddrNone) then "" else Addr_String a.

(** [IPMask.String()] of a mask is hexadecimal, without separators. *)
Definition IPNet_String (n : IPNet) : string :=
  let ones := length (filter (λ b, b = true) (ipn_Mask n ≫= (λ o, (λ k, Z.testbit o k) <$> [7; 6; 5; 4; 3; 2; 1; 0]%Z))) in
  if decide (ipn_Mask n = CIDRMask (Z.of_nat ones) (length (ipn_Mask n)))
  then IP_String (ipn_IP n) +:+ "/" +:+ Itoa (Z.of_nat ones)
  else IP_String (ipn_IP n) +:+ "/" +:+ of_bytes (ipn_Mask n ≫= octet_bytes).

Definition DHCP_EncodeToAttributes (d : smee_DHCP) : list KeyValue := [
  KVString "DHCP.MACAddress" (HardwareAddr_String (sd_MACAddress d));
  KVString "DHCP.IPAddress" (addr_attr (sd_IPAddress d));
  KVString "DHCP.SubnetMask" (if decide (sd_SubnetMask d = []) then "" else IP_String (sd_SubnetMask d));
  KVString "DHCP.DefaultGateway" (addr_attr (sd_DefaultGateway d));
  KVString "DHCP.NameServers" (Join (IP_String <$> sd_NameServers d) ",");
  KVString "DHCP.Hostname" (sd_Hostname d);
  KVString "DHCP.DomainName" (sd_DomainName d);
  KVString "DHCP.BroadcastAddress" (addr_attr (sd_BroadcastAddress d));
  KVString "DHCP.NTPServers" (Join (IP_String <$> sd_NTPServers d) ",");
  KVInt64 "DHCP.LeaseTime" (sd_LeaseTime d);
  KVString "DHCP.DomainSearch" (Join (sd_DomainSearch d) ",");
  KVString "DHCP.ClasslessStaticRoutes"
    (Join ((λ r, IPNet_String (rt_Dest r) +:+ "->" +:+ IP_String (rt_Router r)) <$> sd_ClasslessStaticRoutes d) ",")].

Definition Netboot_EncodeToAttributes (n : smee_Netboot) : list KeyValue :=
  KVBool "Netboot.AllowNetboot" (sn_AllowNetboot n)
  :: (match sn_IPXEScriptURL n with Some u => [KVString "Netboot.IPXEScriptURL" (URL_String u)] | None => [] end)
  ++ (if decide (sn_IPXEBinary n ≠ "") then [KVString "Netboot.IPXEBinary" (sn_IPXEBinary n)] else []).

(** ** conv.go *)

(** The address and the mask of [toDHCPData]. *)
Definition reserved_address (ip : option IP) : res (Addr * list Z) :=
  match ip with
  | None => inr (AddrNone, [])
  | Some ip =>
      match ParseAddr (ip_Address ip) with
      | inl e => inl e
      | inr a =>
          if Is4 a || Is4In6 a then
            let sm := ParseIP (ip_Netmask ip) in
            if decide (sm = []) then inl (ErrNew "no netmask")
            else if decide (To4 sm = []) then inl (ErrNew "netmask must be an IPv4 address")
            else inr (a, To4 sm)
          else if decide (ip_Netmask ip ≠ "") then inl (ErrNew "netmask is not applicable for IPv6 addresses")
          else inr (a, [])
      end
  end.

Definition reserved_gateway (ip : option IP) : res Addr :=
  match ip with
  | Some ip => if decide (ip_Gateway ip = "") then inr AddrNone else ParseAddr (ip_Gateway ip)
  | None => inr AddrNone
  end.

(** [^b] of a byte. *)
Definition byte_not (b : Z) : Z := (255 - b)%Z.

(** The broadcast address: the host bits set. *)
Definition broadcast_of (ip : Addr) (mask : list Z) : Addr :=
  match ip with
  | Addr4 ip4 => if decide (mask = []) then AddrNone else Addr4 (zip_with (λ i m, Z.lor i (byte_not m)) ip4 mask)
  | _ => AddrNone
  end.

Definition parse_ips (l : list string) : list (list Z) := filter (λ ip, ip ≠ []) (ParseIP <$> l).

Definition default_lease_time : Z := 604800.

(** [safecast.Convert[uint32]]: an error outside the range of the type. *)
Definition safecast_uint32 (z : Z) : option Z := if decide (0 ≤ z < 2 ^ 32)%Z then Some z else None.

Definition convert_route (r : ClasslessStaticRoute) : res Route :=
  match ParseCIDR (csr_DestinationDescriptor r) with
  | inl e => inl e
  | inr (_, dest) =>
      let router := ParseIP (csr_Router r) in
      if decide (router = []) then inl (ErrNew ("failed to parse router IP " +:+ dquote (csr_Router r)))
      else inr (mkRoute dest router)
  end.

Fixpoint convert_routes (l : list ClasslessStaticRoute) : res (list Route) :=
  match l with
  | [] => inr []
  | r :: l' =>
      match convert_route r with
      | inl e => inl e
      | inr x => match convert_routes l' with inl e => inl e | inr xs => inr (x :: xs) end
      end
  end.

Definition mac_error (s : string) : error := ErrNew ("address " +:+ s +:+ ": invalid MAC address").

Definition toDHCPData (h : option DHCP) : res smee_DHCP :=
  match h with
  | None => inl (ErrNew "no DHCP data")
  | Some h =>
      match (if decide (dhcp_MAC h ≠ "") then ParseMAC (dhcp_MAC h) else Some []) with
      | None => inl (mac_error (dhcp_MAC h))
      | Some mac =>
          match reserved_address (dhcp_IP h) with
          | inl e => inl e
          | inr (ip, mask) =>
              match reserved_gateway (dhcp_IP h) with
              | inl e => inl e
              | inr gateway =>
                  match convert_routes (dhcp_ClasslessStaticRoutes h) with
                  | inl e => inl e
                  | inr routes =>
                      inr (mksmee_DHCP mac ip mask gateway
                             (parse_ips (dhcp_NameServers h))
                             (dhcp_Hostname h) (dhcp_DomainName h)
                             (broadcast_of ip mask)
                             (parse_ips (dhcp_TimeServers h))
                             (dhcp_VLANID h)
                             (default default_lease_time (safecast_uint32 (dhcp_LeaseTime h)))
                             (dhcp_TFTPServerName h) (dhcp_BootFileName h) (dhcp_Arch h)
                             (if decide (dhcp_DomainName h = "") then [] else [dhcp_DomainName h])
                             routes false)
                  end
              end
          end
      end
  end.

Definition toNetbootData (i : option Netboot) (facility : string) : res smee_Netboot :=
  match i with
  | None => inl (ErrNew "no netboot data")
  | Some i =>
      match
        (match nb_IPXE i with
         | Some x => if decide (ipxe_URL x ≠ "")
             then match url_ParseRequestURI (ipxe_URL x) with inl e => inl e | inr u => inr (Some u) end
             else inr None
         | None => inr None
         end : res (option URL))
      with
      | inl e => inl e
      | inr scriptURL =>
          inr (mksmee_Netboot
                 (default false (nb_AllowPXE i))
                 scriptURL
                 (match nb_IPXE i with Some x => ipxe_Contents x | None => "" end)
                 (match nb_IPXE i with Some x => ipxe_Binary x | None => "" end)
                 "" facility
                 (match nb_OSIE i with
                  | Some o => mksmee_OSIE (match url_Parse (osie_BaseURL o) with inr b => Some b | inl _ => None end)
                                (osie_Kernel o) (osie_Initrd o) (osie_KernelParams o)
                  | None => mksmee_OSIE None "" "" []
                  end)
                 (mksmee_PXELINUX (match nb_PXELINUX i with Some p => px_Config p | None => "" end))
                 (match nb_RPI i with
                  | Some r => mksmee_RPI (rpi_SerialNum r) (rpi_FirmwarePath r) (rpi_ConfigTxt r)
                  | None => mksmee_RPI "" "" ""
                  end))
      end
  end.

Definition set_Disabled (b : bool) (d : smee_DHCP) : smee_DHCP :=
  mksmee_DHCP (sd_MACAddress d) (sd_IPAddress d) (sd_SubnetMask d) (sd_DefaultGateway d) (sd_NameServers d)
    (sd_Hostname d) (sd_DomainName d) (sd_BroadcastAddress d) (sd_NTPServers d) (sd_VLANID d) (sd_LeaseTime d)
    (sd_TFTPServerName d) (sd_BootFileName d) (sd_Arch d) (sd_DomainSearch d) (sd_ClasslessStaticRoutes d) b.

Definition facility_of (m : option HardwareMetadata) : string :=
  match m with
  | Some m => match hm_Facility m with Some f => mfc_FacilityCode f | None => "" end
  | None => ""
  end.

Definition transform (i : Interface) (m : option HardwareMetadata) : res (smee_DHCP * smee_Netboot) :=
  match toDHCPData (if_DHCP i) with
  | inl e => inl (ErrWrap "failed to convert hardware to DHCP data: " e)
  | inr d =>
      match toNetbootData (if_Netboot i) (facility_of m) with
      | inl e => inl (ErrWrap "failed to convert hardware to netboot data: " e)
      | inr n => inr (set_Disabled (if_DisableDHCP i) d, n)
      end
  end.

Definition zero_Interface : Interface := mkInterface None None None false.

(** What [ConvertByMac] and [ConvertByIP] do with the interface they found. *)
Definition convert_interface (i : Interface) (hw : Hardware) : res smee_Hardware :=
  match transform i (hs_Metadata (hw_Spec hw)) with
  | inl e => inl e
  | inr (d, n) =>
      let result := mksmee_Hardware (hs_AgentID (hw_Spec hw)) (Some d) (Some n) in
      match if_Isoboot i with
      | Some iso =>
          if decide (iso_SourceISO iso ≠ "") then
            match url_Parse (iso_SourceISO iso) with
            | inl e => inl (ErrWrap ("failed to parse source ISO as a URL " +:+ dquote (iso_SourceISO iso) +:+ ": ") e)
            | inr u => inr (result (Some (mksmee_Isoboot u)))
            end
          else inr (result None)
      | None => inr (result None)
      end
  end.

Definition has_mac (mac : string) (i : Interface) : Prop :=
  match if_DHCP i with Some d => dhcp_MAC d = mac | None => False end.

#[export] Instance has_mac_dec mac i : Decision (has_mac mac i).
Proof. unfold has_mac. destruct (if_DHCP i); apply _. Defined.

Definition has_ip (ip : string) (i : Interface) : Prop :=
  match if_DHCP i with
  | Some d => match dhcp_IP d with Some x => ip_Address x = ip | None => False end
  | None => False
  end.

#[export] Instance has_ip_dec ip i : Decision (has_ip ip i).
Proof. unfold has_ip. destruct (if_DHCP i) as [d|]; [destruct (dhcp_IP d)|]; apply _. Defined.

Definition ConvertByMac (mac : list Z) (hw : option Hardware) : res smee_Hardware :=
  match hw with
  | None => inl (ErrNew "hardware is nil")
  | Some hw =>
      let i := match list_find (has_mac (HardwareAddr_String mac)) (hs_Interfaces (hw_Spec hw)) with
               | Some (_, i) => i | None => zero_Interface end in
      convert_interface i hw
  end.

Definition ConvertByIP (ip : list Z) (hw : option Hardware) : res smee_Hardware :=
  match hw with
  | None => inl (ErrNew "hardware is nil")
  | Some hw =>
      let i := match list_find (has_ip (IP_String ip)) (hs_Interfaces (hw_Spec hw)) with
               | Some (_, i) => i | None => zero_Interface end in
      convert_interface i hw
  end.

(** ** smee/internal/hardware *)

Record HardwareInfo := mkHardwareInfo {
  hi_AllowNetboot : bool;
  hi_Console : string;
  hi_MACAddress : list Z;
  hi_Arch : string;
  hi_VLANID : string;
  hi_AgentID : string;
  hi_Facility : string;
  hi_IPXEScript : string;
  hi_IPXEScriptURL : option URL;
  hi_OSIE : smee_OSIE;
  hi_PXELINUX : smee_PXELINUX;
  hi_RPI : smee_RPI;
}.

Definition info_of (hw : smee_Hardware) : res HardwareInfo :=
  match sh_DHCP hw with
  | None => inl (ErrNew "no dhcp data")
  | Some d =>
      match sh_Netboot hw with
      | None => inl (ErrNew "no netboot data")
      | Some n =>
          inr (mkHardwareInfo (sn_AllowNetboot n) "" (sd_MACAddress d) (sd_Arch d) (sd_VLANID d) (sh_AgentID hw)
                 (sn_Facility n) (sn_IPXEScript n) (sn_IPXEScriptURL n) (sn_OSIE n) (sn_PXELINUX n) (sn_RPI n))
      end
  end.

End Conv.

(** The interface [BackendReader] of the DHCP handlers and of the file servers. *)
Class BackendReader (W : Type) := {
  FilterHardware : HardwareFilter → W → res Hardware * W;
}.

Section Lookup.
Context `{GoUrl} {W : Type} `{BackendReader W}.

Definition by_mac (mac : list Z) : HardwareFilter := mkHardwareFilter "" "" "" (HardwareAddr_String mac) "" "".
Definition by_ip (ip : list Z) : HardwareFilter := mkHardwareFilter "" "" "" "" (IP_String ip) "".

Definition GetByMac (mac : list Z) (w : W) : res HardwareInfo * W :=
  let '(r, w) := FilterHardware (by_mac mac) w in
  match r with
  | inl e => (inl e, w)
  | inr spec =>
      match ConvertByMac mac (Some spec) with
      | inl e => (inl (ErrWrap "failed to convert hardware data: " e), w)
      | inr hw => (info_of hw, w)
      end
  end.

Definition GetByIP (ip : list Z) (w : W) : res HardwareInfo * W :=
  let '(r, w) := FilterHardware (by_ip ip) w in
  match r with
  | inl e => (inl e, w)
  | inr spec =>
      match ConvertByIP ip (Some spec) with
      | inl e => (inl (ErrWrap "failed to convert hardware data: " e), w)
      | inr hw => (info_of hw, w)
      end
  end.

End Lookup.

(** ** What a reservation holds *)

(** The invariant of a converted reservation. *)
Record reservation_wf (d : smee_DHCP) : Prop := {
  rw_ip : Addr_wf (sd_IPAddress d);
  rw_gateway : Addr_wf (sd_DefaultGateway d);
  rw_mask : if Is4 (sd_IPAddress d) || Is4In6 (sd_IPAddress d)
            then length (sd_SubnetMask d) = 4 ∧ Forall octet (sd_SubnetMask d) else sd_SubnetMask d = [];
  rw_broadcast : sd_BroadcastAddress d = broadcast_of (sd_IPAddress d) (sd_SubnetMask d) ∧ Addr_wf (sd_BroadcastAddress d);
  rw_servers : Forall (λ ip, length ip = 16 ∧ Forall octet ip) (sd_NameServers d ++ sd_NTPServers d);
  rw_lease : (0 ≤ sd_LeaseTime d < 2 ^ 32)%Z;
  rw_routes : Forall (λ r, length (rt_Router r) = 16 ∧ Forall octet (rt_Router r)) (sd_ClasslessStaticRoutes d);
  rw_search : sd_DomainSearch d = if decide (sd_DomainName d = "") then [] else [sd_DomainName d];
}.

Lemma ParseIP_octets s : ParseIP s ≠ [] → length (ParseIP s) = 16 ∧ Forall octet (ParseIP s).
Proof. destruct (ParseIP_wf s) as [->|?]; [done|auto]. Qed.

Lemma To4_octets ip :
  length ip = 16 → Forall octet ip → To4 ip ≠ [] → length (To4 ip) = 4 ∧ Forall octet (To4 ip).
Proof.
  unfold To4. intros Hl Ho Hne. rewrite decide_False by lia. rewrite decide_False in Hne by lia.
  case_decide; [|done]. rewrite length_drop. split; [lia|by apply Forall_drop].
Qed.

Lemma reserved_address_wf ip a m :
  reserved_address ip = inr (a, m) →
  Addr_wf a ∧ if Is4 a || Is4In6 a then length m = 4 ∧ Forall octet m else m = [].
Proof.
  unfold reserved_address. destruct ip as [ip|]; [|by intros [= <- <-]].
  destruct (ParseAddr (ip_Address ip)) as [|a'] eqn:E; [done|]. apply ParseAddr_wf in E.
  destruct (Is4 a' || Is4In6 a') eqn:H4.
  - case_decide as Hn; [done|]. case_decide as H0; [done|]. intros [= <- <-]. rewrite H4. split; [done|].
    destruct (ParseIP_octets (ip_Netmask ip) Hn) as [Hl Ho]. by apply To4_octets.
  - case_decide; [done|]. intros [= <- <-]. by rewrite H4.
Qed.

Lemma parse_ips_wf l : Forall (λ ip, length ip = 16 ∧ Forall octet ip) (parse_ips l).
Proof.
  apply Forall_forall. intros ip [Hne Hin]%list_elem_of_filter. apply list_elem_of_fmap in Hin as (s & -> & _).
  by apply ParseIP_octets.
Qed.

Lemma convert_routes_wf l rs :
  convert_routes l = inr rs → Forall (λ r, length (rt_Router r) = 16 ∧ Forall octet (rt_Router r)) rs.
Proof.
  revert rs. induction l as [|r l IH]; intros rs; simpl; [by intros [= <-]|].
  destruct (convert_route r) as [|x] eqn:E; [done|]. destruct (convert_routes l) as [|xs]; [done|].
  intros [= <-]. constructor; [|by apply IH]. unfold convert_route in E.
  destruct (ParseCIDR _) as [|[? dest]]; [done|]. case_decide; [done|]. injection E as <-. by apply ParseIP_octets.
Qed.

Lemma byte_not_octet b : octet b → octet (byte_not b).
Proof. unfold octet, byte_not. lia. Qed.

Lemma lor_octet a b : octet a → octet b → octet (Z.lor a b).
Proof.
  unfold octet. intros Ha Hb. split; [apply Z.lor_nonneg; lia|].
  destruct (decide (Z.lor a b = 0)%Z) as [->|]; [lia|].
  change 256%Z with (2 ^ 8)%Z. apply Z.log2_lt_pow2; [pose proof (proj2 (Z.lor_nonneg a b)); lia|].
  rewrite Z.log2_lor by lia. apply Z.max_lub_lt.
  - destruct (decide (a = 0)%Z) as [->|]; [done|]. apply Z.log2_lt_pow2; lia.
  - destruct (decide (b = 0)%Z) as [->|]; [done|]. apply Z.log2_lt_pow2; lia.
Qed.

Lemma broadcast_wf a m :
  Addr_wf a → (if Is4 a || Is4In6 a then length m = 4 ∧ Forall octet m else m = []) → Addr_wf (broadcast_of a m).
Proof.
  destruct a as [|ip|]; simpl; [done| |done]. intros [Hl Ho] [Hlm Hom]. rewrite decide_False by (by intros ->).
  split; [rewrite length_zip_with; lia|].
  apply Forall_lookup. intros i x Hx. apply lookup_zip_with_Some in Hx as (y & z & -> & Hy & Hz).
  rewrite Forall_lookup in Ho, Hom. apply lor_octet; [eauto|]. apply byte_not_octet. eauto.
Qed.

Lemma toDHCPData_wf h d : toDHCPData h = inr d → reservation_wf d.
Proof.
  unfold toDHCPData. destruct h as [h|]; [|done]. case_match; [|done].
  destruct (reserved_address (dhcp_IP h)) as [|[a m]] eqn:Ea; [done|]. apply reserved_address_wf in Ea as [Ha Hmk].
  destruct (reserved_gateway (dhcp_IP h)) as [|g] eqn:Eg; [done|].
  destruct (convert_routes _) as [|rs] eqn:Er; [done|]. intros [= <-]. split; simpl; try done.
  - unfold reserved_gateway in Eg. destruct (dhcp_IP h) as [ip|]; [|by injection Eg as <-].
    case_decide; [by injection Eg as <-|by eapply ParseAddr_wf].
  - split; [done|by apply broadcast_wf].
  - apply Forall_app. split; apply parse_ips_wf.
  - unfold safecast_uint32. by destruct (decide (0 ≤ dhcp_LeaseTime h < 2 ^ 32)%Z).
  - by eapply convert_routes_wf.
Qed.

(** Bits of an octet and of its complement. *)
Lemma byte_not_testbit m k : octet m → (0 ≤ k < 8)%Z → Z.testbit (byte_not m) k = negb (Z.testbit m k).
Proof.
  intros Hm Hk. unfold byte_not. replace (255 - m)%Z with (Z.lnot m mod 2 ^ 8)%Z.
  - by rewrite Z.mod_pow2_bits_low, Z.lnot_spec by lia.
  - unfold Z.lnot. unfold octet in Hm. symmetry. apply (Z.mod_unique_pos _ _ (-1)); lia.
Qed.

Lemma octet_testbit_high m k : octet m → (8 ≤ k)%Z → Z.testbit m k = false.
Proof.
  intros Hm Hk. unfold octet in Hm. rewrite <-(Z.mod_small m (2 ^ 8)) by lia. by apply Z.mod_pow2_bits_high.
Qed.

(** An octet of the broadcast address is in the network and has all host bits. *)
Lemma broadcast_octet i m :
  octet i → octet m →
  Z.land (Z.lor i (byte_not m)) m = Z.land i m ∧ Z.lor (Z.lor i (byte_not m)) m = 255%Z.
Proof.
  intros Hi Hm. pose proof (byte_not_octet m Hm) as Hn. split; apply Z.bits_inj'; intros k Hk.
  - rewrite !Z.land_spec, Z.lor_spec. destruct (decide (k < 8)%Z) as [Hlt|].
    + rewrite byte_not_testbit by (done || lia). by destruct (Z.testbit i k), (Z.testbit m k).
    + rewrite (octet_testbit_high m) by (done || lia). by rewrite !andb_false_r.
  - rewrite !Z.lor_spec. destruct (decide (k < 8)%Z) as [Hlt|].
    + rewrite byte_not_testbit by (done || lia).
      assert (Z.testbit 255 k = true) as -> by (change 255%Z with (Z.ones 8); apply Z.ones_spec_low; lia).
      by destruct (Z.testbit i k), (Z.testbit m k).
    + rewrite (octet_testbit_high 255), (octet_testbit_high i), (octet_testbit_high m), (octet_testbit_high (byte_not m)) by (done || lia || (unfold octet; lia)). done.
Qed.

(** C34: whatever Hardware a reservation is converted from, it is well formed: its
    addresses have their four or sixteen octets, an IPv4 address comes with a
    mask of four octets and any other with none, the lease time fits 32 bits,
    servers and routers that do not parse are left out or refused; and when the
    address is IPv4 the broadcast address is in its network, with every host bit
    set. *)
Theorem reservation_sound h d :
  toDHCPData h = inr d →
  reservation_wf d ∧
  ∀ ip, sd_IPAddress d = Addr4 ip →
    ∃ b, sd_BroadcastAddress d = Addr4 b ∧ length b = 4 ∧
      zip_with Z.land b (sd_SubnetMask d) = zip_with Z.land ip (sd_SubnetMask d) ∧
      zip_with Z.lor b (sd_SubnetMask d) = replicate 4 255%Z.
Proof.
  intros Hd. pose proof (toDHCPData_wf h d Hd) as R. split; [done|]. intros ip Eip.
  destruct R as [Hip _ Hm [Hb _] _ _ _ _]. rewrite Eip in *. simpl in Hm, Hb, Hip.
  destruct Hm as [Hlm Hom], Hip as [Hli Hoi]. rewrite decide_False in Hb by (by intros E; rewrite E in Hlm).
  eexists. split; [done|].
  destruct ip as [|i1 [|i2 [|i3 [|i4 [|]]]]]; try done. destruct (sd_SubnetMask d) as [|m1 [|m2 [|m3 [|m4 [|]]]]]; try done.
  rewrite !Forall_cons in Hoi, Hom. destruct Hoi as (? & ? & ? & ? & _), Hom as (? & ? & ? & ? & _).
  destruct (broadcast_octet i1 m1) as [E1 F1], (broadcast_octet i2 m2) as [E2 F2],
    (broadcast_octet i3 m3) as [E3 F3], (broadcast_octet i4 m4) as [E4 F4]; try done.
  simpl. by rewrite E1, E2, E3, E4, F1, F2, F3, F4.
Qed.

(** A reservation is the one of the machine that asked. For a hardware
    address of 6, 8 or 20 octets the conversion succeeds only with an interface
    of the Hardware whose MAC is that address, and then the reservation carries
    it, the switch of that interface and the agent ID of the Hardware. *)
Theorem ConvertByMac_owner `{GoUrl} mac hw r :
  Forall octet mac → length mac = 6 ∨ length mac = 8 ∨ length mac = 20 →
  ConvertByMac mac (Some hw) = inr r →
  ∃ i d n, i ∈ hs_Interfaces (hw_Spec hw) ∧ has_mac (HardwareAddr_String mac) i ∧
    sh_DHCP r = Some d ∧ sh_Netboot r = Some n ∧ sd_MACAddress d = mac ∧ sd_Disabled d = if_DisableDHCP i ∧
    sh_AgentID r = hs_AgentID (hw_Spec hw).
Proof.
  intros Ho Hl. unfold ConvertByMac.
  destruct (list_find _ _) as [[k i]|] eqn:Ef; [|done].
  apply list_find_Some in Ef as (Hi & Hm & _). unfold convert_interface, transform.
  destruct (toDHCPData (if_DHCP i)) as [|d] eqn:Ed; [done|]. destruct (toNetbootData _ _) as [|n]; [done|].
  intros E. exists i, (set_Disabled (if_DisableDHCP i) d), n.
  assert (sd_MACAddress d = mac) as Hmac.
  { unfold has_mac in Hm. destruct (if_DHCP i) as [h|]; [|done]. simpl in Ed. rewrite Hm in Ed.
    rewrite decide_True in Ed; [rewrite ParseMAC_String in Ed by done; by repeat case_match; simplify_eq/=|].
    intros E0. pose proof (ParseMAC_String mac Ho Hl) as Hp. by rewrite E0 in Hp. }
  split_and!; [by eapply list_elem_of_lookup_2|done|..|].
  all: destruct (if_Isoboot i) as [iso|]; [case_decide; [destruct (url_Parse _)|]|]; simplify_eq/=; done.
Qed.

(** A conversion that succeeds has both parts. *)
Lemma ConvertByMac_parts `{GoUrl} mac hw r : ConvertByMac mac hw = inr r → ∃ d n, sh_DHCP r = Some d ∧ sh_Netboot r = Some n.
Proof.
  unfold ConvertByMac, convert_interface. destruct hw as [hw|]; [|done].
  destruct (transform _ _) as [|[d n]]; [done|]. intros E. exists d, n.
  repeat (case_match; simplify_eq/=; try done).
Qed.
