(* ===== verification/DhcpHandler.v ===== *)
(** * Answering DHCP

    smee/internal/dhcp/handler: the handler of host reservations (reservation)
    and the proxy handler, which adds boot information to the answers of
    another server (proxy); smee/internal/dhcp/server: the peer of a packet and
    its dispatch to the handlers, one packet at a time (the loop is in
    [DhcpServer]).

    A handler reads the backend and either writes one packet to the connection
    or none: its [outcome]. Logs and spans are not modelled; the span a packet
    is handled in enters through [TraceContext]. *)
From S2P Require Import Prelude GoStrings GoNet GoNetip BmcTypes Api Dhcp DhcpConv.

(** ** Packets and connections *)

Record UDPAddr := mkUDPAddr { udp_IP : list Z; udp_Port : Z }.

(** A [net.Addr]: a possibly nil [*net.UDPAddr], or another type. *)
Inductive net_Addr := NetUDP (a : option UDPAddr) | NetOther.

Record Metadata := mkMetadata { md_IfName : string; md_IfIndex : Z }.

Record Packet := mkPacket {
  p_Peer : net_Addr;
  p_Pkt : option DHCPv4;
  p_Md : option Metadata;
}.

Inductive outcome :=
| Ignored (why : string)
| Panicked
| Sent (reply : DHCPv4) (ifIndex : Z) (dst : UDPAddr).

(** The span a packet is handled in: [otel.TraceparentStringFromContext], and the
    span context behind [trace.SpanContextFromContext]. *)
Record TraceContext := mkTraceContext {
  tc_Traceparent : string;
  tc_TraceID : list Z;
  tc_SpanID : list Z;
  tc_Sampled : bool;
}.

Definition TraceparentFromContext (ctx : TraceContext) : list Z :=
  [0%Z] ++ tc_TraceID ctx ++ tc_SpanID ctx ++ [if tc_Sampled ctx then 1%Z else 0%Z].

(** [replyDestination], the same in both handlers. *)
Definition replyDestination (directPeer : UDPAddr) (giaddr : list Z) : UDPAddr :=
  if negb (IP_IsUnspecified giaddr) && bool_decide (giaddr ≠ []) then mkUDPAddr giaddr ServerPort else directPeer.

(** The checks both handlers start with: the packet and its peer. *)
Definition packet_checks (conn : bool) (p : Packet) : string + (DHCPv4 * UDPAddr) :=
  match p_Pkt p with
  | None => inl "incoming packet is nil"
  | Some pkt =>
      match p_Peer p with
      | NetOther => inl "peer is not a UDP connection"
      | NetUDP None => inl "peer is nil"
      | NetUDP (Some peer) => if conn then inr (pkt, peer) else inl "connection is nil"
      end
  end.

Definition if_index (p : Packet) : Z := match p_Md p with Some m => md_IfIndex m | None => 0%Z end.

Section Handlers.
Context `{DhcpLib} `{GoUrl}.

(** The netboot configuration, the same record in both packages. *)
Record NetbootConfig := mkNetbootConfig {
  nc_IPXEBinServerTFTP : AddrPort;
  nc_IPXEBinServerHTTP : option URL;
  nc_IPXEScriptURL : option (DHCPv4 → option URL);
  nc_Enabled : bool;
  nc_UserClass : string;
  nc_InjectMacAddrFormat : string;
  nc_IPXEArchMapping : gmap Z string;
}.

Record ReservationHandler := mkReservationHandler {
  rh_IPAddr : Addr;
  rh_Netboot : NetbootConfig;
  rh_OTELEnabled : bool;
  rh_SyslogAddr : Addr;
}.

Record ProxyHandler := mkProxyHandler {
  ph_IPAddr : Addr;
  ph_Netboot : NetbootConfig;
  ph_AutoProxyEnabled : bool;
}.

(** ** Modifiers of the library *)

Definition Modifier : Type := DHCPv4 → DHCPv4.

Definition WithOption (code : Z) (v : OptionValue) : Modifier := UpdateOption code v.
Definition WithMessageType (t : Z) : Modifier := WithOption OptionDHCPMessageType (OVMessageType t).
Definition WithGeneric (code : Z) (b : list Z) : Modifier := WithOption code (OVBytes b).
Definition WithServerIP (ip : list Z) : Modifier := set_ServerIPAddr ip.
Definition WithYourIP (ip : list Z) : Modifier := set_YourIPAddr ip.

(** [NewReplyFromRequest(pkt, mods...)]. *)
Definition NewReplyFromRequest (pkt : DHCPv4) (mods : list Modifier) : DHCPv4 :=
  foldl (λ p m, m p) (NewReply pkt) mods.

(** ** reservation/option.go *)

Definition when {A} (b : bool) (l : list A) : list A := if b then l else [].

Definition setDHCPOpts (h : ReservationHandler) (d : smee_DHCP) : list Modifier :=
  [WithOption OptionIPAddressLeaseTime (OVLeaseTime (sd_LeaseTime d)); WithYourIP (AsSlice (sd_IPAddress d))]
  ++ when (bool_decide (sd_NameServers d ≠ [])) [WithOption OptionDomainNameServer (OVIPs (sd_NameServers d))]
  ++ when (bool_decide (sd_DomainSearch d ≠ [])) [WithOption OptionDNSDomainSearchList (OVLabels (sd_DomainSearch d))]
  ++ when (bool_decide (sd_NTPServers d ≠ [])) [WithOption OptionNTPServers (OVIPs (sd_NTPServers d))]
  ++ when (bool_decide (sd_BroadcastAddress d ≠ AddrNone)) [WithGeneric OptionBroadcastAddress (AsSlice (sd_BroadcastAddress d))]
  ++ when (bool_decide (sd_DomainName d ≠ "")) [WithGeneric OptionDomainName (octets_of_str (sd_DomainName d))]
  ++ when (bool_decide (sd_Hostname d ≠ "")) [WithGeneric OptionHostName (octets_of_str (sd_Hostname d))]
  ++ when (bool_decide (sd_SubnetMask d ≠ [])) [WithOption OptionSubnetMask (OVMask (sd_SubnetMask d))]
  ++ when (bool_decide (sd_DefaultGateway d ≠ AddrNone)) [WithOption OptionRouter (OVIPs [AsSlice (sd_DefaultGateway d)])]
  ++ when (bool_decide (rh_SyslogAddr h ≠ AddrNone)) [WithGeneric OptionLogServer (AsSlice (rh_SyslogAddr h))]
  ++ when (bool_decide (sd_ClasslessStaticRoutes d ≠ [])) [WithOption OptionClasslessStaticRoute (OVRoutes (sd_ClasslessStaticRoutes d))]
  ++ when (bool_decide (sd_TFTPServerName d ≠ "")) [WithGeneric OptionTFTPServerName (octets_of_str (sd_TFTPServerName d))]
  ++ when (bool_decide (sd_BootFileName d ≠ ""))
       [WithGeneric OptionBootfileName (octets_of_str (sd_BootFileName d)); set_BootFileName (sd_BootFileName d)].

Definition bootfileAndNextServer (h : ReservationHandler) (ctx : TraceContext) (pkt : DHCPv4) (customUC : string)
    (tftp : AddrPort) (ipxe iscript : option URL) (i : Info) (ipxeBinaryOverride : string) : string * list Z :=
  let i :=
    match info_Pkt i with
    | None => NewInfo (Some pkt) [WithMacAddrFormat (nc_InjectMacAddrFormat (rh_Netboot h)); WithIPXEBinary ipxeBinaryOverride;
                WithArchMappingOverride (nc_IPXEArchMapping (rh_Netboot h))]
    | Some _ => i
    end in
  let i :=
    if rh_OTELEnabled h && bool_decide (tc_Traceparent ctx ≠ "")
    then WithIPXEBinary (info_IPXEBinary i +:+ "-" +:+ tc_Traceparent ctx) i else i in
  (Bootfile i customUC iscript ipxe tftp, NextServer i ipxe tftp (rh_IPAddr h)).

(** The client of a netboot answer, as the reservation handler sees it. *)
Definition netboot_info (h : ReservationHandler) (m : DHCPv4) (n : smee_Netboot) : Info :=
  NewInfo (Some m) [WithMacAddrFormat (nc_InjectMacAddrFormat (rh_Netboot h)); WithIPXEBinary (sn_IPXEBinary n);
    WithArchMappingOverride (nc_IPXEArchMapping (rh_Netboot h))].

Definition script_url (h : ReservationHandler) (m : DHCPv4) (n : smee_Netboot) : option URL :=
  match sn_IPXEScriptURL n with
  | Some u => Some u
  | None => match nc_IPXEScriptURL (rh_Netboot h) with Some f => f m | None => None end
  end.

Definition setNetworkBootOpts (h : ReservationHandler) (ctx : TraceContext) (m : DHCPv4) (n : smee_Netboot) : Modifier :=
  λ d,
    let d :=
      match Options_Get OptionClassIdentifier m with
      | Some v => if HasPrefix (str_of_octets v) HTTPClient
                  then UpdateOption OptionClassIdentifier (OVBytes (octets_of_str HTTPClient)) d else d
      | None => d
      end in
    let d := set_ServerIPAddr (v4InV6Prefix ++ [0; 0; 0; 0]%Z) (set_BootFileName "/netboot-not-allowed" d) in
    if sn_AllowNetboot n then
      let i := netboot_info h m n in
      if decide (info_IPXEBinary i = "") then d
      else
        let '(bootfile, nextServer) :=
          bootfileAndNextServer h ctx m (nc_UserClass (rh_Netboot h)) (nc_IPXEBinServerTFTP (rh_Netboot h))
            (nc_IPXEBinServerHTTP (rh_Netboot h)) (script_url h m n) i (sn_IPXEBinary n) in
        let d := set_ServerIPAddr nextServer (set_BootFileName bootfile d) in
        let pxe := <[6%Z := [8%Z]]> (<[69%Z := TraceparentFromContext ctx]> ∅) in
        UpdateOption OptionVendorSpecificInformation (OVBytes (AddRPIOpt43 i pxe)) d
    else d.

(** ** reservation/handler.go *)

Definition updateMsg (h : ReservationHandler) (ctx : TraceContext) (pkt : DHCPv4) (d : smee_DHCP) (n : smee_Netboot)
    (msgType : Z) : DHCPv4 :=
  let mods :=
    [WithMessageType msgType; WithGeneric OptionServerIdentifier (AsSlice (rh_IPAddr h));
     WithServerIP (AsSlice (rh_IPAddr h))] ++ setDHCPOpts h d in
  let mods :=
    if nc_Enabled (rh_Netboot h) && bool_decide (IsNetbootClient pkt = None)
       && bool_decide (sd_TFTPServerName d = "") && bool_decide (sd_BootFileName d = "")
    then mods ++ [setNetworkBootOpts h ctx pkt n] else mods in
  NewReplyFromRequest pkt mods.

Definition err_NotFound (e : error) : bool := match e with ErrNotFound _ => true | _ => false end.

Context {W : Type} `{BackendReader W}.

(** A conversion that succeeds has both parts (the last case is never taken). *)
Definition readBackend (mac : list Z) (w : W) : res (smee_DHCP * smee_Netboot) * W :=
  let '(r, w) := FilterHardware (by_mac mac) w in
  match r with
  | inl e => (inl e, w)
  | inr spec =>
      match ConvertByMac mac (Some spec) with
      | inl e => (inl (ErrWrap "failed to convert hardware data: " e), w)
      | inr hw =>
          match sh_DHCP hw, sh_Netboot hw with
          | Some d, Some n => (inr (d, n), w)
          | _, _ => (inl (ErrNew "unreachable"), w)
          end
      end
  end.

(** The two cases of the switch that build a reply. *)
Definition offer_or_ack (h : ReservationHandler) (ctx : TraceContext) (pkt : DHCPv4) (reply : Z) (w : W)
    : (string + DHCPv4) * W :=
  let '(r, w) := readBackend (pk_ClientHWAddr pkt) w in
  match r with
  | inl e => (inl (if err_NotFound e then "no reservation found" else error_msg e), w)
  | inr (d, n) =>
      if sd_Disabled d then (inl "disabled DHCP response", w)
      else (inr (updateMsg h ctx pkt d n reply), w)
  end.

Definition reservation_Handle (h : ReservationHandler) (ctx : TraceContext) (conn : bool) (p : Packet) (w : W)
    : outcome * W :=
  match packet_checks conn p with
  | inl why => (Ignored why, w)
  | inr (pkt, peer) =>
      let mt := MessageType pkt in
      let '(r, w) :=
        if decide (mt = MessageTypeDiscover) then offer_or_ack h ctx pkt MessageTypeOffer w
        else if decide (mt = MessageTypeRequest) then offer_or_ack h ctx pkt MessageTypeAck w
        else if decide (mt = MessageTypeRelease) then (inl "received release, no response required", w)
        else (inl "received unknown message type", w) in
      match r with
      | inl why => (Ignored why, w)
      | inr reply => (Sent reply (if_index p) (replyDestination peer (pk_GatewayIPAddr pkt)), w)
      end
  end.

(** ** proxy/proxy.go *)

Definition setMessageType (reply : DHCPv4) (reqMsg : Z) : error + DHCPv4 :=
  if decide (reqMsg = MessageTypeDiscover) then inr (UpdateOption OptionDHCPMessageType (OVMessageType MessageTypeOffer) reply)
  else if decide (reqMsg = MessageTypeRequest) then inr (UpdateOption OptionDHCPMessageType (OVMessageType MessageTypeAck) reply)
  else inl (ErrNew ("Ignoring packet: message type " +:+ MessageType_String reqMsg
                    +:+ ": details proxyDHCP only responds to Discover or Request message types")).

(** The hardware record of a client, or the reason to ignore it: with automatic
    proxying failures are replaced by defaults. *)
Definition proxy_hardware (h : ProxyHandler) (mac : list Z) (w : W) : (string + smee_Hardware) * W :=
  let '(r, w) := FilterHardware (by_mac mac) w in
  match r with
  | inl e => if ph_AutoProxyEnabled h then (inr zero_Hardware, w) else (inl (error_msg e), w)
  | inr spec =>
      match ConvertByMac mac (Some spec) with
      | inl e => if ph_AutoProxyEnabled h then (inr zero_Hardware, w) else (inl (error_msg e), w)
      | inr hw => (inr hw, w)
      end
  end.

(** The headers and options of the answer before its boot file. *)
Definition proxy_reply (h : ProxyHandler) (pkt reply : DHCPv4) (i : Info) : DHCPv4 :=
  let ns := NextServer i (nc_IPXEBinServerHTTP (ph_Netboot h)) (nc_IPXEBinServerTFTP (ph_Netboot h)) (ph_IPAddr h) in
  let reply := UpdateOption OptionClientMachineIdentifier (OVBytes (GetOneOption OptionClientMachineIdentifier pkt)) reply in
  let reply := UpdateOption OptionVendorSpecificInformation (OVBytes (AddRPIOpt43 i {[6%Z := [8%Z]]})) reply in
  let reply := UpdateOption OptionClassIdentifier (OVBytes (octets_of_str (ClientTypeFrom i))) reply in
  let reply := UpdateOption OptionServerIdentifier (OVIP ns) reply in
  set_ServerHostName (IP_String ns) (set_ServerIPAddr ns reply).

Definition proxy_Handle (h : ProxyHandler) (conn : bool) (dp : Packet) (w : W) : outcome * W :=
  match packet_checks conn dp with
  | inl why => (Ignored why, w)
  | inr (pkt, peer) =>
      let reply := NewReplyFromRequest pkt [] in
      if decide (pk_OpCode pkt ≠ OpcodeBootRequest) then (Ignored "Ignoring packet: OpCode not BootRequest", w)
      else
        match setMessageType reply (MessageType pkt) with
        | inl e => (Ignored (error_msg e), w)
        | inr reply =>
            let i := NewInfo (Some pkt) [WithMacAddrFormat (nc_InjectMacAddrFormat (ph_Netboot h));
                       WithArchMappingOverride (nc_IPXEArchMapping (ph_Netboot h))] in
            if negb (nc_Enabled (ph_Netboot h)) then (Ignored "Ignoring packet: netboot is not enabled", w)
            else
              match info_IsNetbootClient i with
              | Some e => (Ignored ("Ignoring packet: not from a PXE enabled client: " +:+ error_msg e), w)
              | None =>
                  if decide (info_IPXEBinary i = "")
                  then (Ignored "Ignoring packet: no iPXE binary was able to be determined", w)
                  else
                    let reply := proxy_reply h pkt reply i in
                    let '(r, w) := proxy_hardware h (pk_ClientHWAddr pkt) w in
                    match r with
                    | inl why => (Ignored why, w)
                    | inr hw =>
                        let i :=
                          match sh_Netboot hw with
                          | Some n => if decide (sn_IPXEBinary n ≠ "") then WithIPXEBinary (sn_IPXEBinary n) i else i
                          | None => i
                          end in
                        match nc_IPXEScriptURL (ph_Netboot h) with
                        | None => (Panicked, w)
                        | Some script =>
                            let bootfile :=
                              Bootfile i "" (script pkt) (nc_IPXEBinServerHTTP (ph_Netboot h)) (nc_IPXEBinServerTFTP (ph_Netboot h)) in
                            let bootfile :=
                              match sh_Netboot hw with
                              | Some n => if sn_AllowNetboot n then bootfile
                                  else "/" +:+ HardwareAddr_String (pk_ClientHWAddr pkt) +:+ "/netboot-not-allowed"
                              | None => bootfile
                              end in
                            (Sent (set_BootFileName bootfile reply) (if_index dp) (replyDestination peer (pk_GatewayIPAddr pkt)), w)
                        end
                    end
              end
        end
  end.

(** ** server/dhcp.go *)

(** The peer handed to the handlers: the broadcast address when the client had
    none. *)
Definition serve_peer (upeer : UDPAddr) : UDPAddr :=
  if bool_decide (udp_IP upeer = []) || IP_Equal (To4 (udp_IP upeer)) IPv4zero
  then mkUDPAddr IPv4bcast (udp_Port upeer) else upeer.

(** One turn of the loop of [Serve] after a packet was read: every handler gets
    the packet. They run concurrently; each reads the backend once and writes
    one packet, so that the order they are run in here is one of the possible
    ones. *)
Definition serve_packet (handlers : list (Packet → W → outcome * W)) (m : DHCPv4) (peer : net_Addr) (md : Metadata) (w : W)
    : list outcome * W :=
  match peer with
  | NetUDP (Some upeer) =>
      foldl (λ '(os, w) handle,
               let '(o, w) := handle (mkPacket (NetUDP (Some (serve_peer upeer))) (Some m) (Some md)) w in (os ++ [o], w))
        ([], w) handlers
  | _ => ([], w)
  end.

End Handlers.

(** ** The library's documented behaviour *)

Class DhcpLaws `{DhcpLib} := {
  (** The type of a message is what its option 53 encodes. *)
  law_type p t : pk_Options p !! OptionDHCPMessageType = Some (value_ToBytes (OVMessageType t)) →
    (0 ≤ t < 256)%Z → MessageType p = t;
  (** A reply keeps the transaction, the client and the relay of its request. *)
  law_xid p : pk_TransactionID (NewReply p) = pk_TransactionID p;
  law_chaddr p : pk_ClientHWAddr (NewReply p) = pk_ClientHWAddr p;
  law_giaddr p : pk_GatewayIPAddr (NewReply p) = pk_GatewayIPAddr p;
  law_opcode p : pk_OpCode p = OpcodeBootRequest → pk_OpCode (NewReply p) = OpcodeBootReply;
  (** A new reply offers no address and names no file. *)
  law_yiaddr p : IP_IsUnspecified (pk_YourIPAddr (NewReply p)) = true;
  law_file p : pk_BootFileName (NewReply p) = "";
}.

(** ** What a reply carries *)

Section Replies.
Context `{DhcpLib} `{GoUrl}.

(** The options of a reservation, with their values. *)
Definition reservation_options (h : ReservationHandler) (d : smee_DHCP) : list (Z * OptionValue) :=
  [(OptionIPAddressLeaseTime, OVLeaseTime (sd_LeaseTime d))]
  ++ when (bool_decide (sd_NameServers d ≠ [])) [(OptionDomainNameServer, OVIPs (sd_NameServers d))]
  ++ when (bool_decide (sd_DomainSearch d ≠ [])) [(OptionDNSDomainSearchList, OVLabels (sd_DomainSearch d))]
  ++ when (bool_decide (sd_NTPServers d ≠ [])) [(OptionNTPServers, OVIPs (sd_NTPServers d))]
  ++ when (bool_decide (sd_BroadcastAddress d ≠ AddrNone)) [(OptionBroadcastAddress, OVBytes (AsSlice (sd_BroadcastAddress d)))]
  ++ when (bool_decide (sd_DomainName d ≠ "")) [(OptionDomainName, OVBytes (octets_of_str (sd_DomainName d)))]
  ++ when (bool_decide (sd_Hostname d ≠ "")) [(OptionHostName, OVBytes (octets_of_str (sd_Hostname d)))]
  ++ when (bool_decide (sd_SubnetMask d ≠ [])) [(OptionSubnetMask, OVMask (sd_SubnetMask d))]
  ++ when (bool_decide (sd_DefaultGateway d ≠ AddrNone)) [(OptionRouter, OVIPs [AsSlice (sd_DefaultGateway d)])]
  ++ when (bool_decide (rh_SyslogAddr h ≠ AddrNone)) [(OptionLogServer, OVBytes (AsSlice (rh_SyslogAddr h)))]
  ++ when (bool_decide (sd_ClasslessStaticRoutes d ≠ [])) [(OptionClasslessStaticRoute, OVRoutes (sd_ClasslessStaticRoutes d))]
  ++ when (bool_decide (sd_TFTPServerName d ≠ "")) [(OptionTFTPServerName, OVBytes (octets_of_str (sd_TFTPServerName d)))]
  ++ when (bool_decide (sd_BootFileName d ≠ "")) [(OptionBootfileName, OVBytes (octets_of_str (sd_BootFileName d)))].

Definition set_opts (l : list (Z * OptionValue)) (o : gmap Z (list Z)) : gmap Z (list Z) :=
  foldl (λ o '(c, v), <[c := value_ToBytes v]> o) o l.

Lemma set_opts_app l k o : set_opts (l ++ k) o = set_opts k (set_opts l o).
Proof. apply foldl_app. Qed.

Lemma set_opts_other l o c : c ∉ l.*1 → set_opts l o !! c = o !! c.
Proof.
  revert o. induction l as [|[c' v] l IH]; intros o Hc; [done|]. csimpl in *.
  rewrite IH by set_solver. apply lookup_insert_ne. set_solver.
Qed.

Lemma set_opts_in l o c v : NoDup l.*1 → (c, v) ∈ l → set_opts l o !! c = Some (value_ToBytes v).
Proof.
  revert o. induction l as [|[c' v'] l IH]; intros o Hnd Hin; [set_solver|]. csimpl in *.
  apply NoDup_cons in Hnd as [Hni Hnd]. apply elem_of_cons in Hin as [[= -> ->]|Hin]; [|by apply IH].
  rewrite set_opts_other by done. apply lookup_insert_eq.
Qed.

Definition reservation_codes : list Z :=
  [OptionIPAddressLeaseTime; OptionDomainNameServer; OptionDNSDomainSearchList; OptionNTPServers; OptionBroadcastAddress;
   OptionDomainName; OptionHostName; OptionSubnetMask; OptionRouter; OptionLogServer; OptionClasslessStaticRoute;
   OptionTFTPServerName; OptionBootfileName].

Lemma when_sublist (b : bool) (c : Z) (v : OptionValue) l k :
  l.*1 `sublist_of` k → (when b [(c, v)] ++ l).*1 `sublist_of` c :: k.
Proof. intros Hs. destruct b; csimpl; by constructor. Qed.

Lemma reservation_options_codes h d : (reservation_options h d).*1 `sublist_of` reservation_codes.
Proof.
  unfold reservation_options, reservation_codes. simpl. constructor.
  do 11 apply when_sublist. rewrite <-(app_nil_r (when _ [(OptionBootfileName, _)])). apply when_sublist. done.
Qed.

Lemma reservation_options_NoDup h d : NoDup (reservation_options h d).*1.
Proof.
  eapply sublist_NoDup; [|apply reservation_options_codes].
  apply (bool_decide_eq_true_1 (NoDup reservation_codes)). vm_compute. reflexivity.
Qed.

Lemma not_reservation_code h d c : bool_decide (c ∈ reservation_codes) = false → c ∉ (reservation_options h d).*1.
Proof.
  intros Hc%bool_decide_eq_false Hin. apply Hc. eapply elem_of_submseteq; [exact Hin|].
  apply sublist_submseteq, reservation_options_codes.
Qed.

Definition apply_mods (mods : list Modifier) (p : DHCPv4) : DHCPv4 := foldl (λ p m, m p) p mods.

Lemma apply_mods_app l k p : apply_mods (l ++ k) p = apply_mods k (apply_mods l p).
Proof. apply foldl_app. Qed.

Lemma apply_when_option (b : bool) c v p :
  apply_mods (when b [WithOption c v]) p = set_Options (set_opts (when b [(c, v)]) (pk_Options p)) p.
Proof. destruct b; [done|]. by destruct p. Qed.

Lemma set_Options_twice o o' p : set_Options o (set_Options o' p) = set_Options o p.
Proof. done. Qed.

(** The modifiers of a reservation set the address, the options and the file
    name. *)
Lemma setDHCPOpts_apply h d p :
  apply_mods (setDHCPOpts h d) p =
    let file := if decide (sd_BootFileName d ≠ "") then sd_BootFileName d else pk_BootFileName p in
    set_BootFileName file (set_YourIPAddr (AsSlice (sd_IPAddress d))
      (set_Options (set_opts (reservation_options h d) (pk_Options p)) p)).
Proof.
  unfold setDHCPOpts, reservation_options. rewrite !set_opts_app, !apply_mods_app.
  unfold WithGeneric. rewrite !apply_when_option. cbv zeta.
  destruct (decide (sd_BootFileName d ≠ "")) as [Hb|Hb].
  - rewrite !(bool_decide_eq_true_2 (sd_BootFileName d ≠ "")) by done. by destruct p.
  - rewrite !(bool_decide_eq_false_2 (sd_BootFileName d ≠ "")) by done. by destruct p.
Qed.

(** The reply without netboot options. *)
Definition plain_reply (h : ReservationHandler) (pkt : DHCPv4) (d : smee_DHCP) (t : Z) : DHCPv4 :=
  set_BootFileName (if decide (sd_BootFileName d ≠ "") then sd_BootFileName d else pk_BootFileName (NewReply pkt))
    (set_YourIPAddr (AsSlice (sd_IPAddress d)) (set_ServerIPAddr (AsSlice (rh_IPAddr h))
      (set_Options (set_opts ([(OptionDHCPMessageType, OVMessageType t); (OptionServerIdentifier, OVBytes (AsSlice (rh_IPAddr h)))]
         ++ reservation_options h d) (pk_Options (NewReply pkt))) (NewReply pkt)))).

Definition netboot_applies (h : ReservationHandler) (pkt : DHCPv4) (d : smee_DHCP) : Prop :=
  nc_Enabled (rh_Netboot h) = true ∧ IsNetbootClient pkt = None ∧ sd_TFTPServerName d = "" ∧ sd_BootFileName d = "".

#[export] Instance netboot_applies_dec h pkt d : Decision (netboot_applies h pkt d).
Proof. apply _. Defined.

Lemma updateMsg_eq h ctx pkt d n t :
  updateMsg h ctx pkt d n t =
    if decide (netboot_applies h pkt d) then setNetworkBootOpts h ctx pkt n (plain_reply h pkt d t) else plain_reply h pkt d t.
Proof.
  unfold updateMsg, NewReplyFromRequest.
  set (mods := [WithMessageType t; WithGeneric OptionServerIdentifier (AsSlice (rh_IPAddr h));
    WithServerIP (AsSlice (rh_IPAddr h))] ++ setDHCPOpts h d).
  assert (apply_mods mods (NewReply pkt) = plain_reply h pkt d t) as E.
  { unfold mods. rewrite apply_mods_app, setDHCPOpts_apply. unfold plain_reply. rewrite set_opts_app. by destruct (NewReply pkt). }
  destruct (decide (netboot_applies h pkt d)) as [(H1 & H2 & H3 & H4)|Hn].
  - rewrite H1, !bool_decide_eq_true_2 by done. cbn [andb].
    rewrite foldl_app. change (foldl _ (NewReply pkt) mods) with (apply_mods mods (NewReply pkt)). by rewrite E.
  - destruct (_ && _) eqn:Hb; [|done]. exfalso. apply Hn. rewrite !andb_true_iff, !bool_decide_eq_true in Hb.
    unfold netboot_applies. naive_solver.
Qed.

(** The netboot modifier touches the file, the next server and the options 43
    and 60 only. *)
Lemma setNetworkBootOpts_frame h ctx m n d :
  let d' := setNetworkBootOpts h ctx m n d in
  pk_OpCode d' = pk_OpCode d ∧ pk_TransactionID d' = pk_TransactionID d ∧ pk_YourIPAddr d' = pk_YourIPAddr d ∧
  pk_GatewayIPAddr d' = pk_GatewayIPAddr d ∧ pk_ClientHWAddr d' = pk_ClientHWAddr d ∧
  pk_ServerHostName d' = pk_ServerHostName d ∧
  ∀ c, c ≠ OptionVendorSpecificInformation → c ≠ OptionClassIdentifier → pk_Options d' !! c = pk_Options d !! c.
Proof.
  cbv zeta. unfold setNetworkBootOpts.
  set (d0 := match Options_Get _ m with Some _ => _ | None => _ end).
  assert (pk_OpCode d0 = pk_OpCode d ∧ pk_TransactionID d0 = pk_TransactionID d ∧ pk_YourIPAddr d0 = pk_YourIPAddr d ∧
    pk_GatewayIPAddr d0 = pk_GatewayIPAddr d ∧ pk_ClientHWAddr d0 = pk_ClientHWAddr d ∧
    pk_ServerHostName d0 = pk_ServerHostName d ∧
    ∀ c, c ≠ OptionVendorSpecificInformation → c ≠ OptionClassIdentifier → pk_Options d0 !! c = pk_Options d !! c) as Hd0.
  { unfold d0. repeat case_match; split_and!; try done. intros c _ Hc. simpl. by apply lookup_insert_ne. }
  destruct (sn_AllowNetboot n); [|done]. case_decide; [done|].
  destruct (bootfileAndNextServer _ _ _ _ _ _ _ _ _) as [bf ns]. destruct Hd0 as (? & ? & ? & ? & ? & ? & Hd0).
  split_and!; try done. intros c Hc1 Hc2. simpl. rewrite lookup_insert_ne by done. by apply Hd0.
Qed.

Context `{!DhcpLaws}.

(** The reply to a client with reservation [d]: its headers and options. *)
Lemma updateMsg_spec h ctx pkt d n t :
  (0 ≤ t < 256)%Z →
  let reply := updateMsg h ctx pkt d n t in
  pk_TransactionID reply = pk_TransactionID pkt ∧ pk_ClientHWAddr reply = pk_ClientHWAddr pkt ∧
  pk_YourIPAddr reply = AsSlice (sd_IPAddress d) ∧ MessageType reply = t ∧
  pk_Options reply !! OptionServerIdentifier = Some (value_ToBytes (OVBytes (AsSlice (rh_IPAddr h)))) ∧
  ∀ c v, (c, v) ∈ reservation_options h d → pk_Options reply !! c = Some (value_ToBytes v).
Proof.
  intros Ht. cbv zeta. set (l := [(OptionDHCPMessageType, OVMessageType t); (OptionServerIdentifier, OVBytes (AsSlice (rh_IPAddr h)))]
    ++ reservation_options h d).
  assert (∀ c, c ∈ l.*1 → pk_Options (updateMsg h ctx pkt d n t) !! c = set_opts l (pk_Options (NewReply pkt)) !! c) as Hopt.
  { intros c Hc. rewrite updateMsg_eq. case_decide; [|done].
    pose proof (setNetworkBootOpts_frame h ctx pkt n (plain_reply h pkt d t)) as (_ & _ & _ & _ & _ & _ & Hf).
    assert (c = OptionDHCPMessageType ∨ c = OptionServerIdentifier ∨ c ∈ (reservation_options h d).*1) as [->|[->|Hin]]
      by (unfold l in Hc; rewrite fmap_app, elem_of_app in Hc; destruct Hc as [Hc|Hc]; [set_solver|auto]); [by apply Hf..|].
    apply Hf; intros ->; revert Hin; by apply not_reservation_code. }
  assert (NoDup l.*1) as Hnd.
  { apply NoDup_cons. split; [|apply NoDup_cons; split; [|apply reservation_options_NoDup]].
    - apply not_elem_of_cons. split; [done|]. by apply not_reservation_code.
    - by apply not_reservation_code. }
  assert (∀ c v, (c, v) ∈ l → pk_Options (updateMsg h ctx pkt d n t) !! c = Some (value_ToBytes v)) as Hl.
  { intros c v Hin. rewrite Hopt by (apply list_elem_of_fmap; by exists (c, v)). by apply set_opts_in. }
  assert (pk_TransactionID (updateMsg h ctx pkt d n t) = pk_TransactionID (NewReply pkt) ∧
    pk_ClientHWAddr (updateMsg h ctx pkt d n t) = pk_ClientHWAddr (NewReply pkt) ∧
    pk_YourIPAddr (updateMsg h ctx pkt d n t) = AsSlice (sd_IPAddress d)) as (E1 & E2 & E3).
  { rewrite updateMsg_eq. case_decide; [|done].
    pose proof (setNetworkBootOpts_frame h ctx pkt n (plain_reply h pkt d t)) as (_ & -> & -> & _ & -> & _). done. }
  rewrite E1, E2, law_xid, law_chaddr. split_and!; [done..| | |].
  - apply law_type; [|done]. apply Hl. unfold l. set_solver.
  - apply Hl. unfold l. set_solver.
  - intros c v Hin. apply Hl, elem_of_app. by right.
Qed.

(** The boot file and the next server of a reply, on every branch. *)
Lemma updateMsg_boot h ctx pkt d n t :
  let reply := updateMsg h ctx pkt d n t in
  if decide (netboot_applies h pkt d) then
    if sn_AllowNetboot n && bool_decide (info_IPXEBinary (netboot_info h pkt n) ≠ "") then
      (pk_BootFileName reply, pk_ServerIPAddr reply) =
        bootfileAndNextServer h ctx pkt (nc_UserClass (rh_Netboot h)) (nc_IPXEBinServerTFTP (rh_Netboot h))
          (nc_IPXEBinServerHTTP (rh_Netboot h)) (script_url h pkt n) (netboot_info h pkt n) (sn_IPXEBinary n)
    else pk_BootFileName reply = "/netboot-not-allowed" ∧ IP_IsUnspecified (pk_ServerIPAddr reply) = true
  else pk_BootFileName reply = sd_BootFileName d ∧ pk_ServerIPAddr reply = AsSlice (rh_IPAddr h).
Proof.
  cbv zeta. rewrite updateMsg_eq. destruct (decide (netboot_applies h pkt d)) as [Ha|Hn].
  - unfold setNetworkBootOpts. destruct (sn_AllowNetboot n); cbn [andb]; [|done].
    destruct (decide (info_IPXEBinary (netboot_info h pkt n) = "")) as [E|E].
    + by rewrite bool_decide_eq_false_2 by tauto.
    + rewrite bool_decide_eq_true_2 by done. by destruct (bootfileAndNextServer _ _ _ _ _ _ _ _ _).
  - unfold plain_reply. cbn. rewrite law_file. split; [|done]. case_decide as Hb; [done|].
    by destruct (decide (sd_BootFileName d = "")) as [->|].
Qed.

End Replies.

Section Theorems.
Context `{DhcpLib} `{!DhcpLaws} `{GoUrl} {W : Type} `{BackendReader W}.

(** The message type a request is answered with. *)
Definition answer_type (t : Z) : option Z :=
  if decide (t = MessageTypeDiscover) then Some MessageTypeOffer
  else if decide (t = MessageTypeRequest) then Some MessageTypeAck else None.

(** A client with a reservation that is not disabled. *)
Definition reserved (pkt : DHCPv4) (w : W) (d : smee_DHCP) (n : smee_Netboot) (w' : W) : Prop :=
  ∃ hw r, FilterHardware (by_mac (pk_ClientHWAddr pkt)) w = (inr hw, w') ∧
    ConvertByMac (pk_ClientHWAddr pkt) (Some hw) = inr r ∧
    sh_DHCP r = Some d ∧ sh_Netboot r = Some n ∧ sd_Disabled d = false.

Lemma offer_or_ack_spec h ctx pkt t w reply w' :
  offer_or_ack h ctx pkt t w = (inr reply, w') ↔
  ∃ d n, reserved pkt w d n w' ∧ reply = updateMsg h ctx pkt d n t.
Proof.
  unfold offer_or_ack, readBackend, reserved. destruct (FilterHardware _ w) as [[e|hw] w1]; [naive_solver|].
  destruct (ConvertByMac _ (Some hw)) as [e|r] eqn:Ec; [split; [done|]; intros (d' & n' & (hw' & r' & E1 & E2 & _) & _); injection E1 as <- <-; by rewrite Ec in E2|].
  destruct (ConvertByMac_parts _ _ _ Ec) as (d & n & Hd & Hn). rewrite Hd, Hn.
  destruct (sd_Disabled d) eqn:Hdis; [split; [done|]; intros (d' & n' & (hw' & r' & E1 & E2 & E3 & E4 & E5) & _); congruence|].
  split.
  - intros [= <- <-]. exists d, n. split; [|done]. by exists hw, r.
  - intros (d' & n' & (hw' & r' & E1 & E2 & E3 & E4 & _) & ->). simplify_eq. congruence.
Qed.

(** A packet that came through a relay names it; the answer goes to the server
    port of the relay. *)
Definition relayed (pkt : DHCPv4) : Prop := pk_GatewayIPAddr pkt ≠ [] ∧ IP_IsUnspecified (pk_GatewayIPAddr pkt) = false.

Lemma replyDestination_spec peer pkt dst :
  dst = replyDestination peer (pk_GatewayIPAddr pkt) ↔
  (relayed pkt ∧ dst = mkUDPAddr (pk_GatewayIPAddr pkt) 67) ∨ (¬ relayed pkt ∧ dst = peer).
Proof.
  unfold replyDestination, relayed. destruct (IP_IsUnspecified _); simpl; [naive_solver|].
  case_bool_decide; naive_solver.
Qed.


(** A client may be netbooted: the conditions of the PXE specification. *)
Definition netboot_client (pkt : DHCPv4) : Prop :=
  (MessageType pkt = MessageTypeDiscover ∨ MessageType pkt = MessageTypeRequest) ∧
  (∃ v, pk_Options pkt !! OptionClassIdentifier = Some v ∧
    (HasPrefix (str_of_octets v) PXEClient = true ∨ HasPrefix (str_of_octets v) HTTPClient = true)) ∧
  is_Some (pk_Options pkt !! OptionClientSystemArchitectureType) ∧
  is_Some (pk_Options pkt !! OptionClientNetworkInterfaceIdentifier) ∧
  (GetOneOption OptionClientMachineIdentifier pkt = [] ∨
   ∃ g, GetOneOption OptionClientMachineIdentifier pkt = 0%Z :: g ∧ length g = 16).

Lemma wrapNonNil_Some e f : wrapNonNil e f ≠ None.
Proof. by destruct e. Qed.

Lemma guard_None {P : Prop} `{!Decision P} (e : option error) f :
  (if decide P then wrapNonNil e f else e) = None ↔ ¬ P ∧ e = None.
Proof. case_decide; [|tauto]. split; [intros E; by apply wrapNonNil_Some in E|tauto]. Qed.

Lemma guard_bool_None (b : bool) (e : option error) f : (if b then wrapNonNil e f else e) = None ↔ b = false ∧ e = None.
Proof. destruct b; [|tauto]. split; [intros E; by apply wrapNonNil_Some in E|intros [? _]; done]. Qed.

Lemma guard_bool_None' (b : bool) (e : option error) f : (if b then e else wrapNonNil e f) = None ↔ b = true ∧ e = None.
Proof. destruct b; [tauto|]. split; [intros E; by apply wrapNonNil_Some in E|intros [? _]; done]. Qed.

Lemma IsNetbootClient_spec pkt : IsNetbootClient pkt = None ↔ netboot_client pkt.
Proof.
  unfold IsNetbootClient, netboot_client.
  assert (∀ e, (if decide (length (GetOneOption OptionClientMachineIdentifier pkt) = 0) then e
     else if decide (length (GetOneOption OptionClientMachineIdentifier pkt) = 17) then
       if decide (head (GetOneOption OptionClientMachineIdentifier pkt) ≠ Some 0%Z)
       then wrapNonNil e "option 97 does not start with 0" else e
     else wrapNonNil e "option 97 has invalid length (must be 0 or 17)") = None ↔
     e = None ∧ (GetOneOption OptionClientMachineIdentifier pkt = [] ∨
       ∃ g, GetOneOption OptionClientMachineIdentifier pkt = 0%Z :: g ∧ length g = 16)) as Hguid.
  { intros e. destruct (GetOneOption OptionClientMachineIdentifier pkt) as [|b g]; simpl; [tauto|].
    destruct (decide (S (length g) = 17)) as [H17|H17].
    - rewrite guard_None. simpl. split; [intros [Hb ->]; split; [done|]; right; exists g; split; [|lia]; destruct (decide (b = 0%Z)); [congruence|]; naive_solver|].
      intros [-> [?|(g' & [= -> ->] & _)]]; naive_solver.
    - split; [intros E; by apply wrapNonNil_Some in E|]. intros [_ [?|(g' & [= -> ->] & ?)]]; [done|lia]. }
  rewrite Hguid, !guard_bool_None', guard_bool_None, guard_bool_None', guard_None, andb_false_iff, !negb_false_iff.
  unfold Options_Has, GetOneOption. rewrite !bool_decide_eq_true.
  split.
  - intros ((? & ? & Hp & [v Hv] & Hmt & _) & Hg). rewrite Hv in Hp. simpl in Hp.
    split_and!; [destruct (decide (MessageType pkt = MessageTypeDiscover)), (decide (MessageType pkt = MessageTypeRequest)); tauto|eauto|done..].
  - intros (Hmt & (v & Hv & Hp) & ? & ? & Hg). rewrite Hv. simpl. split_and!; first [done|by eauto|tauto].
Qed.

(** C22: netbooting is gated by the reservation. A client gets a boot file of the
    server only when netbooting is enabled, the packet satisfies the PXE
    conditions and the reservation names neither a TFTP server nor a file of its
    own; otherwise the answer names the file of the reservation, if any. When it
    does but the machine may not netboot, or no binary is known for it, the file
    is the refusal and the next server unspecified. A machine that runs the
    script of the server already (user class Tinkerbell, or the configured one)
    is given the script, never a binary again. *)
Theorem reservation_boot h ctx pkt d n t :
  let reply := updateMsg h ctx pkt d n t in
  let i := netboot_info h pkt n in
  let offers := nc_Enabled (rh_Netboot h) = true ∧ netboot_client pkt ∧ sd_TFTPServerName d = "" ∧ sd_BootFileName d = "" in
  let allowed := sn_AllowNetboot n = true ∧ info_IPXEBinary i ≠ "" in
  let tinkerbell := info_UserClass i = UC_Tinkerbell ∨
    nc_UserClass (rh_Netboot h) ≠ "" ∧ info_UserClass i = nc_UserClass (rh_Netboot h) in
  (¬ offers → pk_BootFileName reply = sd_BootFileName d ∧ pk_ServerIPAddr reply = AsSlice (rh_IPAddr h)) ∧
  (offers → ¬ allowed → pk_BootFileName reply = "/netboot-not-allowed" ∧ IP_IsUnspecified (pk_ServerIPAddr reply) = true) ∧
  (offers → allowed → tinkerbell →
     pk_BootFileName reply = match script_url h pkt n with Some u => URL_String u | None => "/no-ipxe-script-defined" end).
Proof.
  cbv zeta. pose proof (updateMsg_boot h ctx pkt d n t) as Hb. cbv zeta in Hb.
  assert (netboot_applies h pkt d ↔ (nc_Enabled (rh_Netboot h) = true ∧ netboot_client pkt ∧ sd_TFTPServerName d = "" ∧ sd_BootFileName d = "")) as Ha
    by (unfold netboot_applies; by rewrite IsNetbootClient_spec).
  rewrite <-Ha. split_and!.
  - intros Hn. by rewrite decide_False in Hb.
  - intros Ho Hna. rewrite decide_True in Hb by done.
    destruct (sn_AllowNetboot n); [|done]. rewrite bool_decide_eq_false_2 in Hb; [done|]. tauto.
  - intros Ho [Hal Hbin] Ht. rewrite decide_True in Hb by done. rewrite Hal, bool_decide_eq_true_2 in Hb by done.
    cbn [andb] in Hb. unfold bootfileAndNextServer in Hb. injection Hb as -> _.
    set (j := if rh_OTELEnabled h && _ then _ else _).
    assert (info_UserClass j = info_UserClass (netboot_info h pkt n)) as Hj.
    { unfold j. assert (is_Some (info_Pkt (netboot_info h pkt n))) as [q ->].
      { unfold netboot_info, NewInfo. simpl. case_decide; simpl; eauto. }
      by destruct (_ && _). }
    unfold Bootfile. by rewrite Hj, decide_True.
Qed.

(** C23: the proxy handler adds boot information and nothing else. It answers only
    boot requests of netboot clients, for which a binary is known, while
    netbooting is enabled, and only when the backend knows the machine or
    automatic proxying is on; its answer offers no address, carries the
    transaction of the request, and names the refusal, in a path of the
    machine's own, whenever its Hardware forbids netbooting. *)
Theorem proxy_reply_safe h conn dp w reply ix dst w' :
  proxy_Handle h conn dp w = (Sent reply ix dst, w') →
  ∃ pkt peer hw, packet_checks conn dp = inr (pkt, peer) ∧
    pk_OpCode pkt = OpcodeBootRequest ∧ nc_Enabled (ph_Netboot h) = true ∧ netboot_client pkt ∧
    proxy_hardware h (pk_ClientHWAddr pkt) w = (inr hw, w') ∧
    (hw = zero_Hardware → ph_AutoProxyEnabled h = true) ∧
    pk_OpCode reply = OpcodeBootReply ∧ pk_TransactionID reply = pk_TransactionID pkt ∧
    IP_IsUnspecified (pk_YourIPAddr reply) = true ∧ Some (MessageType reply) = answer_type (MessageType pkt) ∧
    (∀ n, sh_Netboot hw = Some n → sn_AllowNetboot n = false →
       pk_BootFileName reply = "/" +:+ HardwareAddr_String (pk_ClientHWAddr pkt) +:+ "/netboot-not-allowed").
Proof.
  unfold proxy_Handle. destruct (packet_checks conn dp) as [|[pkt peer]]; [done|]. case_decide as Hop; [done|].
  destruct (setMessageType _ _) as [|reply0] eqn:Hmt; [done|].
  destruct (nc_Enabled (ph_Netboot h)) eqn:Hen; [|done]. cbn [negb].
  set (i := NewInfo _ _). destruct (info_IsNetbootClient i) as [|] eqn:Hnb; [done|]. case_decide; [done|].
  destruct (proxy_hardware h _ w) as [[|hw] w1] eqn:Hhw; [done|].
  destruct (nc_IPXEScriptURL (ph_Netboot h)) as [script|]; [|done]. intros E. injection E as <- <- <- <-.
  assert (∃ t, answer_type (MessageType pkt) = Some t ∧ (0 ≤ t < 256)%Z ∧
    reply0 = UpdateOption OptionDHCPMessageType (OVMessageType t) (NewReply pkt)) as (t & Ht & Htr & ->).
  { unfold setMessageType, answer_type in *. repeat case_decide; simplify_eq; eexists; split_and!; done. }
  exists pkt, peer, hw. split_and!; try done.
  - apply IsNetbootClient_spec. revert Hnb. unfold i, NewInfo. done.
  - intros ->. unfold proxy_hardware in Hhw. destruct (FilterHardware _ w) as [[|spec] ?]; [by case_match|].
    destruct (ConvertByMac _ _) as [|r] eqn:Ec; [by case_match|]. injection Hhw as -> ->.
    by apply ConvertByMac_parts in Ec as (? & ? & ? & ?).
  - by apply law_opcode.
  - apply law_xid.
  - apply law_yiaddr.
  - rewrite Ht. f_equal. apply law_type; [|done]. cbn.
    rewrite !lookup_insert_ne by done. apply lookup_insert_eq.
  - intros n -> Hn. cbn. by rewrite Hn.
Qed.

End Theorems.
