(* ===== verification/DhcpServer.v ===== *)
(** * The DHCP server and the attributes of its packets

    smee/internal/dhcp/server/dhcp.go: the loop that reads datagrams, parses them
    and hands each packet to every handler; smee/internal/dhcp/otel/otel.go: the
    attributes the handlers record of a packet.

    The loop is a function of what its calls return: one [turn] per call of
    [ReadFrom]. The encoders read a packet through the methods of the packet library,
    the class [PacketView], over any type of packets. *)
From S2P Require Import Prelude GoStrings GoNet GoNetip Float64 Dhcp DhcpHandler.

(** ** server/dhcp.go *)

(** What [ReadFrom] returns: an error, or a datagram with its control message and its peer. *)
Record datagram4 := mkdatagram4 { d4_bytes : list Z; d4_IfIndex : option Z; d4_peer : net_Addr }.

(** One turn of the loop: what was read, and whether the context was done when an
    error is looked at. *)
Record turn := mkturn { tu_read : res datagram4; tu_done : bool }.

(** The loop is waiting for a datagram; it has returned; it has panicked. *)
Inductive serve_end := Listening | ServeReturned (err : option error) | ServePanicked.

Section Serve.
Context (FromBytes : list Z → res DHCPv4) (InterfaceByIndex : Z → res string).

(** The packet the handlers are given: nothing when the datagram is passed over,
    [inl] for the panic at a missing control message. *)
Definition packet_of (d : datagram4) : option (unit + Packet) :=
  match FromBytes (d4_bytes d) with
  | inl _ => None
  | inr m =>
      match d4_peer d with
      | NetUDP (Some upeer) =>
          Some match d4_IfIndex d with
               | None => inl ()
               | Some i =>
                   let ifName := match InterfaceByIndex i with inr n => n | inl _ => "" end in
                   inr (mkPacket (NetUDP (Some (serve_peer upeer))) (Some m) (Some (mkMetadata ifName i)))
               end
      | NetUDP None => Some (inl ())
      | NetOther => None
      end
  end.

(** The goroutines that are started: the handler and its packet. *)
Fixpoint serve_loop {H} (handlers : list H) (ts : list turn) : list (H * Packet) * serve_end :=
  match ts with
  | [] => ([], Listening)
  | t :: ts =>
      match tu_read t with
      | inl err => ([], ServeReturned (if tu_done t then None else Some err))
      | inr d =>
          match packet_of d with
          | None => serve_loop handlers ts
          | Some (inl _) => ([], ServePanicked)
          | Some (inr p) => let '(l, e) := serve_loop handlers ts in (((λ h, (h, p)) <$> handlers) ++ l, e)
          end
      end
  end.

Definition DHCP_Serve {H} (setControl : option error) (handlers : list H) (ts : list turn) : list (H * Packet) * serve_end :=
  match setControl with
  | Some err => ([], ServeReturned (Some err))
  | None => serve_loop handlers ts
  end.

(** The packets in what was read, when each has its control message. *)
Definition packets_of (ts : list turn) : list Packet :=
  ts ≫= λ t, match tu_read t with inr d => match packet_of d with Some (inr p) => [p] | _ => [] end | inl _ => [] end.

Definition well_read (t : turn) : Prop := ∃ d, tu_read t = inr d ∧ packet_of d ≠ Some (inl ()).

(** No datagram stops the server: as long as the connection can be read, every
    packet, and only they, goes to every handler once, in the order of their
    arrival; malformed ones are passed over. *)
Lemma serve_loop_dispatches {H} (handlers : list H) ts :
  Forall well_read ts →
  serve_loop handlers ts = (packets_of ts ≫= (λ p, (λ h, (h, p)) <$> handlers), Listening).
Proof.
  induction 1 as [|t ts (d & Ed & Hd) _ IH]; [done|]. simpl. rewrite Ed.
  destruct (packet_of d) as [[[]|p]|]; [done| |done]. rewrite IH. simpl. done.
Qed.

(** The server ends with the first read that fails: without an error when it was told to stop. *)
Lemma serve_loop_ends {H} (handlers : list H) ts err done ts' :
  Forall well_read ts →
  serve_loop handlers (ts ++ mkturn (inl err) done :: ts') =
    (packets_of ts ≫= (λ p, (λ h, (h, p)) <$> handlers), ServeReturned (if done then None else Some err)).
Proof.
  induction 1 as [|t ts (d & Ed & Hd) _ IH]; [done|]. simpl. rewrite Ed.
  destruct (packet_of d) as [[[]|p]|]; [done| |done]. rewrite IH. simpl. done.
Qed.

(** A packet handed out has a peer that can be answered: not the unspecified address. *)
Lemma packet_of_peer d p :
  packet_of d = Some (inr p) → ∃ m peer, p_Pkt p = Some m ∧ p_Peer p = NetUDP (Some peer) ∧ FromBytes (d4_bytes d) = inr m ∧
    udp_IP peer ≠ [] ∧ IP_Equal (To4 (udp_IP peer)) IPv4zero = false.
Proof.
  unfold packet_of. destruct (FromBytes (d4_bytes d)) as [|m] eqn:Em; [done|]. destruct (d4_peer d) as [[u|]|]; [|done..].
  destruct (d4_IfIndex d) as [i|]; [|done]. intros [= <-]. exists m, (serve_peer u). split_and!; [done..| |].
  - unfold serve_peer. case_bool_decide; simpl; [done|]. by destruct (IP_Equal _ _).
  - unfold serve_peer. case_bool_decide; simpl; [done|]. by destruct (IP_Equal (To4 (udp_IP u)) IPv4zero) eqn:E.
Qed.

End Serve.

(** ** otel/otel.go *)

(** The methods and fields of a packet the encoders read. An address that is nil is
    the empty list; [BroadcastAddress] and its siblings return nil when the option
    is missing or malformed, [DomainSearch] a nil pointer. *)
Class PacketView (P : Type) := {
  FlagsToString : P → string;
  TransactionID_String : P → string;
  YourIPAddr : P → list Z;
  ServerIPAddr : P → list Z;
  ClientHWAddr : P → list Z;
  BootFileName : P → string;
  SubnetMask : P → list Z;
  Router : P → list (list Z);
  DNS : P → list (list Z);
  HostName : P → string;
  DomainName : P → string;
  BroadcastAddress : P → list Z;
  NTPServers : P → list (list Z);
  (** [d.IPAddressLeaseTime(0)] *)
  IPAddressLeaseTime : P → Z;
  (** [d.MessageType()]; [MessageTypeNone] is 0 *)
  View_MessageType : P → Z;
  View_MessageType_String : Z → string;
  ServerIdentifier : P → list Z;
  ClassIdentifier : P → string;
  View_ClientArch : P → list Z;
  View_Arch_String : Z → string;
  View_GetOneOption : Z → P → list Z;
  (** the labels of [d.DomainSearch()] *)
  DomainSearch : P → option (list string);
}.

Inductive attr_value := AVString (s : string) | AVFloat64 (x : float64) | AVStringSlice (l : list string).

#[export] Instance float64_eq_dec : EqDecision float64.
Proof. solve_decision. Defined.
#[export] Instance attr_value_eq_dec : EqDecision attr_value.
Proof. solve_decision. Defined.

(** [attribute.KeyValue]. *)
Definition attr_KeyValue : Type := string * attr_value.

Record notFoundError := mknotFoundError { optName : string }.

(** [time.Duration.Seconds()]. *)
Definition Duration_Seconds (d : Z) : float64 :=
  let nsec := float_div (float_of_int (Z.rem d time_Second)) (float_of_int time_Second) in
  float_sub (float_of_int (Z.quot d time_Second)) (mkfloat64 (- mant nsec) (expo nsec)).

Section Encoders.
Context `{PacketView P}.

Definition keyNamespace : string := "DHCP".

Definition encoder : Type := option P → string → notFoundError + attr_KeyValue.

Definition EncodeFlags : encoder := λ d namespace,
  let key := keyNamespace +:+ "." +:+ namespace +:+ ".Header.flags" in
  match d with
  | Some d => inr (key, AVString (FlagsToString d))
  | None => inl (mknotFoundError key)
  end.

Definition EncodeTransactionID : encoder := λ d namespace,
  let key := keyNamespace +:+ "." +:+ namespace +:+ ".Header.transactionID" in
  match d with
  | Some d => inr (key, AVString (TransactionID_String d))
  | None => inl (mknotFoundError key)
  end.

Definition EncodeOpt1 : encoder := λ d namespace,
  let opt := "Opt1.SubnetMask" in
  let key := keyNamespace +:+ "." +:+ namespace +:+ "." +:+ opt in
  match d with
  | Some d => if decide (SubnetMask d ≠ []) then inr (key, AVString (IP_String (SubnetMask d))) else inl (mknotFoundError opt)
  | None => inl (mknotFoundError opt)
  end.

Definition EncodeOpt3 : encoder := λ d namespace,
  let key := keyNamespace +:+ "." +:+ namespace +:+ ".Opt3.DefaultGateway" in
  match d with
  | Some d =>
      let routers := IP_String <$> Router d in
      if decide (0 < length routers) then inr (key, AVString (Join routers ",")) else inl (mknotFoundError key)
  | None => inl (mknotFoundError key)
  end.

Definition EncodeOpt6 : encoder := λ d namespace,
  let key := keyNamespace +:+ "." +:+ namespace +:+ ".Opt6.NameServers" in
  match d with
  | Some d =>
      let ns := IP_String <$> DNS d in
      if decide (0 < length ns) then inr (key, AVString (Join ns ",")) else inl (mknotFoundError key)
  | None => inl (mknotFoundError key)
  end.

Definition EncodeOpt12 : encoder := λ d namespace,
  let key := keyNamespace +:+ "." +:+ namespace +:+ ".Opt12.Hostname" in
  match d with
  | Some d => if decide (HostName d ≠ "") then inr (key, AVString (HostName d)) else inl (mknotFoundError key)
  | None => inl (mknotFoundError key)
  end.

Definition EncodeOpt15 : encoder := λ d namespace,
  let key := keyNamespace +:+ "." +:+ namespace +:+ ".Opt15.DomainName" in
  match d with
  | Some d => if decide (DomainName d ≠ "") then inr (key, AVString (DomainName d)) else inl (mknotFoundError key)
  | None => inl (mknotFoundError key)
  end.

Definition EncodeOpt28 : encoder := λ d namespace,
  let key := keyNamespace +:+ "." +:+ namespace +:+ ".Opt28.BroadcastAddress" in
  match d with
  | Some d =>
      if decide (BroadcastAddress d ≠ []) then inr (key, AVString (IP_String (BroadcastAddress d))) else inl (mknotFoundError key)
  | None => inl (mknotFoundError key)
  end.

Definition EncodeOpt42 : encoder := λ d namespace,
  let key := keyNamespace +:+ "." +:+ namespace +:+ ".Opt42.NTPServers" in
  match d with
  | Some d =>
      let ntp := IP_String <$> NTPServers d in
      if decide (0 < length ntp) then inr (key, AVString (Join ntp ",")) else inl (mknotFoundError key)
  | None => inl (mknotFoundError key)
  end.

Definition EncodeOpt51 : encoder := λ d namespace,
  let key := keyNamespace +:+ "." +:+ namespace +:+ ".Opt51.LeaseTime" in
  match d with
  | Some d =>
      if decide (IPAddressLeaseTime d ≠ 0%Z) then inr (key, AVFloat64 (Duration_Seconds (IPAddressLeaseTime d)))
      else inl (mknotFoundError key)
  | None => inl (mknotFoundError key)
  end.

Definition EncodeOpt53 : encoder := λ d namespace,
  let key := keyNamespace +:+ "." +:+ namespace +:+ ".Opt53.MessageType" in
  match d with
  | Some d =>
      if decide (View_MessageType d ≠ 0%Z) then inr (key, AVString (View_MessageType_String (View_MessageType d)))
      else inl (mknotFoundError key)
  | None => inl (mknotFoundError key)
  end.

Definition EncodeOpt54 : encoder := λ d namespace,
  let key := keyNamespace +:+ "." +:+ namespace +:+ ".Opt54.ServerIdentifier" in
  match d with
  | Some d =>
      if decide (ServerIdentifier d ≠ []) then inr (key, AVString (IP_String (ServerIdentifier d))) else inl (mknotFoundError key)
  | None => inl (mknotFoundError key)
  end.

Definition EncodeOpt60 : encoder := λ d namespace,
  let key := keyNamespace +:+ "." +:+ namespace +:+ ".Opt60.ClassIdentifier" in
  match d with
  | Some d => if decide (ClassIdentifier d ≠ "") then inr (key, AVString (ClassIdentifier d)) else inl (mknotFoundError key)
  | None => inl (mknotFoundError key)
  end.

Definition EncodeOpt93 : encoder := λ d namespace,
  let key := keyNamespace +:+ "." +:+ namespace +:+ ".Opt93.ClientIdentifier" in
  match d with
  | Some d =>
      if decide (0 < length (View_ClientArch d)) then inr (key, AVStringSlice (View_Arch_String <$> View_ClientArch d))
      else inl (mknotFoundError key)
  | None => inl (mknotFoundError key)
  end.

(** The bytes of an option in decimal, as tcpdump shows them. *)
Definition dotted (l : list Z) : string := Join (Itoa <$> l) ".".

Definition EncodeOpt94 : encoder := λ d namespace,
  let key := keyNamespace +:+ "." +:+ namespace +:+ ".Opt94.ClientNetworkInterfaceIdentifier" in
  match d with
  | Some d =>
      let o := View_GetOneOption OptionClientNetworkInterfaceIdentifier d in
      if decide (0 < length o) then inr (key, AVString (dotted o)) else inl (mknotFoundError key)
  | None => inl (mknotFoundError key)
  end.

Definition EncodeOpt97 : encoder := λ d namespace,
  let key := keyNamespace +:+ "." +:+ namespace +:+ ".Opt97.ClientMachineIdentifier" in
  match d with
  | Some d =>
      let o := View_GetOneOption OptionClientMachineIdentifier d in
      if decide (0 < length o) then inr (key, AVString (dotted o)) else inl (mknotFoundError key)
  | None => inl (mknotFoundError key)
  end.

Definition EncodeOpt119 : encoder := λ d namespace,
  let key := keyNamespace +:+ "." +:+ namespace +:+ ".Opt119.DomainSearch" in
  match d with
  | Some d => match DomainSearch d with Some labels => inr (key, AVString (Join labels ",")) | None => inl (mknotFoundError key) end
  | None => inl (mknotFoundError key)
  end.

Definition EncodeYIADDR : encoder := λ d namespace,
  let key := keyNamespace +:+ "." +:+ namespace +:+ ".Header.yiaddr" in
  match d with
  | Some d => if decide (YourIPAddr d ≠ []) then inr (key, AVString (IP_String (YourIPAddr d))) else inl (mknotFoundError key)
  | None => inl (mknotFoundError key)
  end.

Definition EncodeSIADDR : encoder := λ d namespace,
  let key := keyNamespace +:+ "." +:+ namespace +:+ ".Header.siaddr" in
  match d with
  | Some d => if decide (ServerIPAddr d ≠ []) then inr (key, AVString (IP_String (ServerIPAddr d))) else inl (mknotFoundError key)
  | None => inl (mknotFoundError key)
  end.

Definition EncodeCHADDR : encoder := λ d namespace,
  let key := keyNamespace +:+ "." +:+ namespace +:+ ".Header.chaddr" in
  match d with
  | Some d =>
      if decide (ClientHWAddr d ≠ []) then inr (key, AVString (HardwareAddr_String (ClientHWAddr d))) else inl (mknotFoundError key)
  | None => inl (mknotFoundError key)
  end.

Definition EncodeFILE : encoder := λ d namespace,
  let key := keyNamespace +:+ "." +:+ namespace +:+ ".Header.file" in
  match d with
  | Some d => if decide (BootFileName d ≠ "") then inr (key, AVString (BootFileName d)) else inl (mknotFoundError key)
  | None => inl (mknotFoundError key)
  end.

Definition AllEncoders : list encoder := [
  EncodeFlags; EncodeTransactionID; EncodeYIADDR; EncodeSIADDR; EncodeCHADDR; EncodeFILE;
  EncodeOpt1; EncodeOpt3; EncodeOpt6; EncodeOpt12; EncodeOpt15; EncodeOpt28; EncodeOpt42; EncodeOpt51; EncodeOpt53;
  EncodeOpt54; EncodeOpt60; EncodeOpt93; EncodeOpt94; EncodeOpt97; EncodeOpt119].

(** An encoder that fails is logged and passed over. *)
Definition Encode (pkt : option P) (namespace : string) (encoders : list encoder) : list attr_KeyValue :=
  omap (λ elem, match elem pkt namespace with inr kv => Some kv | inl _ => None end) encoders.

(** The handlers' [encodeToAttributes]. *)
Definition encodeToAttributes (d : option P) (namespace : string) : list attr_KeyValue := Encode d namespace AllEncoders.

(** The keys the encoders use, after the namespace. *)
Definition trace_fields : list string := [
  "Header.flags"; "Header.transactionID"; "Header.yiaddr"; "Header.siaddr"; "Header.chaddr"; "Header.file";
  "Opt1.SubnetMask"; "Opt3.DefaultGateway"; "Opt6.NameServers"; "Opt12.Hostname"; "Opt15.DomainName"; "Opt28.BroadcastAddress";
  "Opt42.NTPServers"; "Opt51.LeaseTime"; "Opt53.MessageType"; "Opt54.ServerIdentifier"; "Opt60.ClassIdentifier";
  "Opt93.ClientIdentifier"; "Opt94.ClientNetworkInterfaceIdentifier"; "Opt97.ClientMachineIdentifier"; "Opt119.DomainSearch"].

Definition trace_key (namespace field : string) : string := "DHCP." +:+ namespace +:+ "." +:+ field.

(** An encoder for a field: it gives that field's key or nothing. *)
Definition encodes (e : encoder) (field : string) : Prop :=
  ∀ d namespace kv, e d namespace = inr kv → d ≠ None ∧ kv.1 = trace_key namespace field.

Lemma AllEncoders_encode : Forall2 encodes AllEncoders trace_fields.
Proof.
  unfold AllEncoders, trace_fields. repeat first [apply Forall2_nil_2|apply Forall2_cons_2]; intros [d|] namespace kv E; try done;
    unfold EncodeFlags, EncodeTransactionID, EncodeYIADDR, EncodeSIADDR, EncodeCHADDR, EncodeFILE, EncodeOpt1, EncodeOpt3, EncodeOpt6,
      EncodeOpt12, EncodeOpt15, EncodeOpt28, EncodeOpt42, EncodeOpt51, EncodeOpt53, EncodeOpt54, EncodeOpt60, EncodeOpt93, EncodeOpt94,
      EncodeOpt97, EncodeOpt119 in E; repeat case_match; simplify_eq; done.
Qed.

Lemma Encode_keys pkt namespace es fs :
  Forall2 encodes es fs → sublist (Encode pkt namespace es).*1 (trace_key namespace <$> fs).
Proof.
  unfold Encode. induction 1 as [|e f es fs He _ IH]; [done|]. simpl. destruct (e pkt namespace) as [err|kv] eqn:E; simpl.
  - by apply sublist_cons.
  - destruct (He _ _ _ E) as [_ ->]. by apply sublist_skip.
Qed.

Lemma Encode_cons pkt namespace e es kv : e pkt namespace = inr kv → Encode pkt namespace (e :: es) = kv :: Encode pkt namespace es.
Proof. intros E. unfold Encode. simpl. by rewrite E. Qed.

(** Of a packet at most one attribute is recorded for a field, in a fixed order,
    always its flags and transaction; of no packet nothing. *)
Theorem encodeToAttributes_keys d namespace :
  NoDup (encodeToAttributes d namespace).*1 ∧
  sublist (encodeToAttributes d namespace).*1 (trace_key namespace <$> trace_fields) ∧
  (d = None → encodeToAttributes d namespace = []) ∧
  (∀ p, d = Some p → ∃ rest, encodeToAttributes d namespace =
    (trace_key namespace "Header.flags", AVString (FlagsToString p)) ::
    (trace_key namespace "Header.transactionID", AVString (TransactionID_String p)) :: rest).
Proof.
  pose proof (Encode_keys d namespace _ _ AllEncoders_encode) as Hs. split; [|split; [exact Hs|split]].
  - eapply sublist_NoDup; [|exact Hs]. apply NoDup_fmap_2; [|compute_done].
    intros f1 f2. unfold trace_key. intros E. do 3 apply string_app_inj_l in E. done.
  - by intros ->.
  - intros p ->. exists (Encode (Some p) namespace (drop 2 AllEncoders)). unfold encodeToAttributes.
    change AllEncoders with (EncodeFlags :: EncodeTransactionID :: drop 2 AllEncoders) at 1.
    by rewrite (Encode_cons (Some p) namespace EncodeFlags _ _ eq_refl), (Encode_cons (Some p) namespace EncodeTransactionID _ _ eq_refl).
Qed.

End Encoders.
