(* ===== verification/Attributes.v ===== *)
(** * Attributes of an agent

    The attributes an agent reports about its machine (pkg/data/attributes.go),
    the protocol buffer messages that carry them (pkg/proto), the agent's
    conversion to messages (tink/agent/internal/transport/grpc/attributes.go)
    and the server's conversion back (tink/server/internal/grpc/proto.go).

    A pointer to a scalar or to a struct is an [option]. The slices of pointers
    are lists of structs: every element is the address of a literal, none is
    nil. The [uint32] counts are copied and never computed with. *)
From S2P Require Import Prelude.

(** ** pkg/data *)

Record data_Processor := mkdata_Processor {
  proc_ID : option Z;
  proc_Cores : option Z;
  proc_Threads : option Z;
  proc_Vendor : option string;
  proc_Model : option string;
  proc_Capabilities : list string;
}.

Record data_CPU := mkdata_CPU {
  cpu_TotalCores : option Z;
  cpu_TotalThreads : option Z;
  cpu_Processors : list data_Processor;
}.

Record data_Memory := mkdata_Memory {
  mem_Total : option string;
  mem_Usable : option string;
}.

Record data_Block := mkdata_Block {
  blk_Name : option string;
  blk_ControllerType : option string;
  blk_DriveType : option string;
  blk_Size : option string;
  blk_PhysicalBlockSize : option string;
  blk_Vendor : option string;
  blk_Model : option string;
  blk_WWN : option string;
  blk_SerialNumber : option string;
}.

Record data_Network := mkdata_Network {
  nic_Name : option string;
  nic_Mac : option string;
  nic_Speed : option string;
  nic_EnabledCapabilities : list string;
}.

Record data_PCI := mkdata_PCI {
  pci_Vendor : option string;
  pci_Product : option string;
  pci_Class : option string;
  pci_Driver : option string;
}.

Record data_GPU := mkdata_GPU {
  gpu_Vendor : option string;
  gpu_Product : option string;
  gpu_Class : option string;
  gpu_Driver : option string;
}.

Record data_Chassis := mkdata_Chassis {
  chs_Serial : option string;
  chs_Vendor : option string;
}.

Record data_BIOS := mkdata_BIOS {
  bios_Vendor : option string;
  bios_Version : option string;
  bios_ReleaseDate : option string;
}.

Record data_Baseboard := mkdata_Baseboard {
  bb_Vendor : option string;
  bb_Product : option string;
  bb_Version : option string;
  bb_SerialNumber : option string;
}.

Record data_Product := mkdata_Product {
  prod_Name : option string;
  prod_Vendor : option string;
  prod_SerialNumber : option string;
}.

Record AgentAttributes := mkAgentAttributes {
  attr_CPU : option data_CPU;
  attr_Memory : option data_Memory;
  attr_BlockDevices : list data_Block;
  attr_NetworkInterfaces : list data_Network;
  attr_PCIDevices : list data_PCI;
  attr_GPUDevices : list data_GPU;
  attr_Chassis : option data_Chassis;
  attr_BIOS : option data_BIOS;
  attr_Baseboard : option data_Baseboard;
  attr_Product : option data_Product;
}.

Definition NewAgentAttributes : AgentAttributes := {|
  attr_CPU := Some (mkdata_CPU None None []);
  attr_Memory := Some (mkdata_Memory None None);
  attr_BlockDevices := [];
  attr_NetworkInterfaces := [];
  attr_PCIDevices := [];
  attr_GPUDevices := [];
  attr_Chassis := Some (mkdata_Chassis None None);
  attr_BIOS := Some (mkdata_BIOS None None None);
  attr_Baseboard := Some (mkdata_Baseboard None None None None);
  attr_Product := Some (mkdata_Product None None None);
|}.

(** ** pkg/proto *)

Record pb_Processor := mkpb_Processor {
  pb_proc_Id : option Z;
  pb_proc_Cores : option Z;
  pb_proc_Threads : option Z;
  pb_proc_Vendor : option string;
  pb_proc_Model : option string;
  pb_proc_Capabilities : list string;
}.

Record pb_CPU := mkpb_CPU {
  pb_cpu_TotalCores : option Z;
  pb_cpu_TotalThreads : option Z;
  pb_cpu_Processors : list pb_Processor;
}.

Record pb_Memory := mkpb_Memory {
  pb_mem_Total : option string;
  pb_mem_Usable : option string;
}.

Record pb_Block := mkpb_Block {
  pb_blk_Name : option string;
  pb_blk_ControllerType : option string;
  pb_blk_DriveType : option string;
  pb_blk_Size : option string;
  pb_blk_PhysicalBlockSize : option string;
  pb_blk_Vendor : option string;
  pb_blk_Model : option string;
  pb_blk_Wwn : option string;
  pb_blk_SerialNumber : option string;
}.

Record pb_Network := mkpb_Network {
  pb_nic_Name : option string;
  pb_nic_Mac : option string;
  pb_nic_Speed : option string;
  pb_nic_EnabledCapabilities : list string;
}.

Record pb_PCI := mkpb_PCI {
  pb_pci_Vendor : option string;
  pb_pci_Product : option string;
  pb_pci_Class : option string;
  pb_pci_Driver : option string;
}.

Record pb_GPU := mkpb_GPU {
  pb_gpu_Vendor : option string;
  pb_gpu_Product : option string;
  pb_gpu_Class : option string;
  pb_gpu_Driver : option string;
}.

Record pb_Chassis := mkpb_Chassis {
  pb_chs_Serial : option string;
  pb_chs_Vendor : option string;
}.

Record pb_BIOS := mkpb_BIOS {
  pb_bios_Vendor : option string;
  pb_bios_Version : option string;
  pb_bios_ReleaseDate : option string;
}.

Record pb_Baseboard := mkpb_Baseboard {
  pb_bb_Vendor : option string;
  pb_bb_Product : option string;
  pb_bb_Version : option string;
  pb_bb_SerialNumber : option string;
}.

Record pb_Product := mkpb_Product {
  pb_prod_Name : option string;
  pb_prod_Vendor : option string;
  pb_prod_SerialNumber : option string;
}.

Record pb_AgentAttributes := mkpb_AgentAttributes {
  pb_attr_Cpu : option pb_CPU;
  pb_attr_Memory : option pb_Memory;
  pb_attr_Block : list pb_Block;
  pb_attr_Network : list pb_Network;
  pb_attr_Pci : list pb_PCI;
  pb_attr_Gpu : list pb_GPU;
  pb_attr_Chassis : option pb_Chassis;
  pb_attr_Bios : option pb_BIOS;
  pb_attr_Baseboard : option pb_Baseboard;
  pb_attr_Product : option pb_Product;
}.

(** ** The server: proto.go

    [convert] fills a fresh [NewAgentAttributes]: a part missing from the message
    stays the empty struct. *)

Definition processor_from_proto (p : pb_Processor) : data_Processor :=
  mkdata_Processor (pb_proc_Id p) (pb_proc_Cores p) (pb_proc_Threads p) (pb_proc_Vendor p)
    (pb_proc_Model p) (pb_proc_Capabilities p).
Definition cpu_from_proto (p : pb_CPU) : data_CPU :=
  mkdata_CPU (pb_cpu_TotalCores p) (pb_cpu_TotalThreads p) (processor_from_proto <$> pb_cpu_Processors p).
Definition memory_from_proto (p : pb_Memory) : data_Memory :=
  mkdata_Memory (pb_mem_Total p) (pb_mem_Usable p).
Definition block_from_proto (p : pb_Block) : data_Block :=
  mkdata_Block (pb_blk_Name p) (pb_blk_ControllerType p) (pb_blk_DriveType p) (pb_blk_Size p)
    (pb_blk_PhysicalBlockSize p) (pb_blk_Vendor p) (pb_blk_Model p) (pb_blk_Wwn p)
    (pb_blk_SerialNumber p).
Definition network_from_proto (p : pb_Network) : data_Network :=
  mkdata_Network (pb_nic_Name p) (pb_nic_Mac p) (pb_nic_Speed p) (pb_nic_EnabledCapabilities p).
Definition pci_from_proto (p : pb_PCI) : data_PCI :=
  mkdata_PCI (pb_pci_Vendor p) (pb_pci_Product p) (pb_pci_Class p) (pb_pci_Driver p).
Definition gpu_from_proto (p : pb_GPU) : data_GPU :=
  mkdata_GPU (pb_gpu_Vendor p) (pb_gpu_Product p) (pb_gpu_Class p) (pb_gpu_Driver p).
Definition chassis_from_proto (p : pb_Chassis) : data_Chassis :=
  mkdata_Chassis (pb_chs_Serial p) (pb_chs_Vendor p).
Definition bios_from_proto (p : pb_BIOS) : data_BIOS :=
  mkdata_BIOS (pb_bios_Vendor p) (pb_bios_Version p) (pb_bios_ReleaseDate p).
Definition baseboard_from_proto (p : pb_Baseboard) : data_Baseboard :=
  mkdata_Baseboard (pb_bb_Vendor p) (pb_bb_Product p) (pb_bb_Version p) (pb_bb_SerialNumber p).
Definition product_from_proto (p : pb_Product) : data_Product :=
  mkdata_Product (pb_prod_Name p) (pb_prod_Vendor p) (pb_prod_SerialNumber p).

Definition convert (pAttr : option pb_AgentAttributes) : option AgentAttributes :=
  match pAttr with
  | None => None
  | Some p =>
      let dAttr := NewAgentAttributes in
      Some {|
        attr_CPU := match pb_attr_Cpu p with Some x => Some (cpu_from_proto x) | None => attr_CPU dAttr end;
        attr_Memory := match pb_attr_Memory p with Some x => Some (memory_from_proto x) | None => attr_Memory dAttr end;
        attr_BlockDevices := attr_BlockDevices dAttr ++ (block_from_proto <$> pb_attr_Block p);
        attr_NetworkInterfaces := attr_NetworkInterfaces dAttr ++ (network_from_proto <$> pb_attr_Network p);
        attr_PCIDevices := attr_PCIDevices dAttr ++ (pci_from_proto <$> pb_attr_Pci p);
        attr_GPUDevices := attr_GPUDevices dAttr ++ (gpu_from_proto <$> pb_attr_Gpu p);
        attr_Chassis := match pb_attr_Chassis p with Some x => Some (chassis_from_proto x) | None => attr_Chassis dAttr end;
        attr_BIOS := match pb_attr_Bios p with Some x => Some (bios_from_proto x) | None => attr_BIOS dAttr end;
        attr_Baseboard := match pb_attr_Baseboard p with Some x => Some (baseboard_from_proto x) | None => attr_Baseboard dAttr end;
        attr_Product := match pb_attr_Product p with Some x => Some (product_from_proto x) | None => attr_Product dAttr end;
      |}
  end.

(** ** The agent: attributes.go *)

Definition processor_to_proto (a : data_Processor) : pb_Processor :=
  mkpb_Processor (proc_ID a) (proc_Cores a) (proc_Threads a) (proc_Vendor a) (proc_Model a)
    (proc_Capabilities a).
Definition cpu_to_proto (a : data_CPU) : pb_CPU :=
  mkpb_CPU (cpu_TotalCores a) (cpu_TotalThreads a) (processor_to_proto <$> cpu_Processors a).
Definition memory_to_proto (a : data_Memory) : pb_Memory :=
  mkpb_Memory (mem_Total a) (mem_Usable a).
Definition block_to_proto (a : data_Block) : pb_Block :=
  mkpb_Block (blk_Name a) (blk_ControllerType a) (blk_DriveType a) (blk_Size a) (blk_PhysicalBlockSize a)
    (blk_Vendor a) (blk_Model a) (blk_WWN a) (blk_SerialNumber a).
Definition network_to_proto (a : data_Network) : pb_Network :=
  mkpb_Network (nic_Name a) (nic_Mac a) (nic_Speed a) (nic_EnabledCapabilities a).
Definition pci_to_proto (a : data_PCI) : pb_PCI :=
  mkpb_PCI (pci_Vendor a) (pci_Product a) (pci_Class a) (pci_Driver a).
Definition gpu_to_proto (a : data_GPU) : pb_GPU :=
  mkpb_GPU (gpu_Vendor a) (gpu_Product a) (gpu_Class a) (gpu_Driver a).
Definition chassis_to_proto (a : data_Chassis) : pb_Chassis :=
  mkpb_Chassis (chs_Serial a) (chs_Vendor a).
Definition bios_to_proto (a : data_BIOS) : pb_BIOS :=
  mkpb_BIOS (bios_Vendor a) (bios_Version a) (bios_ReleaseDate a).
Definition baseboard_to_proto (a : data_Baseboard) : pb_Baseboard :=
  mkpb_Baseboard (bb_Vendor a) (bb_Product a) (bb_Version a) (bb_SerialNumber a).
Definition product_to_proto (a : data_Product) : pb_Product :=
  mkpb_Product (prod_Name a) (prod_Vendor a) (prod_SerialNumber a).

Definition ToProto (a : option AgentAttributes) : option pb_AgentAttributes :=
  match a with
  | None => None
  | Some a => Some {|
      pb_attr_Cpu := cpu_to_proto <$> attr_CPU a;
      pb_attr_Memory := memory_to_proto <$> attr_Memory a;
      pb_attr_Block := block_to_proto <$> attr_BlockDevices a;
      pb_attr_Network := network_to_proto <$> attr_NetworkInterfaces a;
      pb_attr_Pci := pci_to_proto <$> attr_PCIDevices a;
      pb_attr_Gpu := gpu_to_proto <$> attr_GPUDevices a;
      pb_attr_Chassis := chassis_to_proto <$> attr_Chassis a;
      pb_attr_Bios := bios_to_proto <$> attr_BIOS a;
      pb_attr_Baseboard := baseboard_to_proto <$> attr_Baseboard a;
      pb_attr_Product := product_to_proto <$> attr_Product a;
    |}
  end.

(** ** Round trip *)

Lemma fmap_cancel {A B} (f : A → B) (g : B → A) (l : list A) :
  (∀ x, g (f x) = x) → g <$> (f <$> l) = l.
Proof. intros H. induction l as [|x l IH]; csimpl; [done|]. by rewrite H, IH. Qed.

Lemma processor_roundtrip x : processor_from_proto (processor_to_proto x) = x.
Proof. by destruct x. Qed.

Lemma cpu_roundtrip x : cpu_from_proto (cpu_to_proto x) = x.
Proof.
  destruct x. unfold cpu_from_proto, cpu_to_proto; simpl. by rewrite fmap_cancel by apply processor_roundtrip.
Qed.

(** A missing part of the attributes reads as the empty struct. *)
Definition fill (a : AgentAttributes) : AgentAttributes := {|
  attr_CPU := match attr_CPU a with Some x => Some x | None => attr_CPU NewAgentAttributes end;
  attr_Memory := match attr_Memory a with Some x => Some x | None => attr_Memory NewAgentAttributes end;
  attr_BlockDevices := attr_BlockDevices a;
  attr_NetworkInterfaces := attr_NetworkInterfaces a;
  attr_PCIDevices := attr_PCIDevices a;
  attr_GPUDevices := attr_GPUDevices a;
  attr_Chassis := match attr_Chassis a with Some x => Some x | None => attr_Chassis NewAgentAttributes end;
  attr_BIOS := match attr_BIOS a with Some x => Some x | None => attr_BIOS NewAgentAttributes end;
  attr_Baseboard := match attr_Baseboard a with Some x => Some x | None => attr_Baseboard NewAgentAttributes end;
  attr_Product := match attr_Product a with Some x => Some x | None => attr_Product NewAgentAttributes end;
|}.

(** Attributes survive the wire. What the server reads from a message the
    agent made is what the agent sent, a missing part read as the empty struct;
    nothing is sent for an agent without attributes, and nothing is read. *)
Theorem attributes_roundtrip a : convert (ToProto a) = fill <$> a.
Proof.
  destruct a as [a|]; [|done]. simpl. f_equal. unfold fill. f_equal.
  all: first [ apply fmap_cancel; by intros []
             | match goal with |- context [_ <$> ?o] => destruct o as [x|]; simpl; [|done] end;
               rewrite ?cpu_roundtrip; by destruct x ].
Qed.
