(* ===== verification/ServerNames.v ===== *)
(** * Object names made from agent IDs

    tink/server/internal/grpc/kube.go. The regular expressions of the source
    only tell apart ASCII letters, digits and hyphens, so they are written as
    tests on bytes; a multi-byte character becomes several hyphens where the
    source makes one, which the removal of repeated hyphens makes equal. *)
From S2P Require Import Prelude GoStrings.

Definition errEmptyName : error := ErrNew "name cannot be empty".
Definition errMaxLenExceeded : error := ErrNew "name exceeds maximum length of 63 characters".
Definition errInvalidStartEnd : error := ErrNew "name cannot start or end with hyphen".
Definition errConsecutiveHyphens : error := ErrNew "name contains consecutive hyphens".
Definition errInvalidChars : error := ErrNew "name contains invalid characters".

(** A test on the first or last byte: false when there is none. *)
Definition test (p : ascii → bool) (c : option ascii) : bool :=
  match c with Some c => p c | None => false end.

(** [--] matches. *)
Fixpoint double_hyphen (l : list ascii) : bool :=
  match l with
  | [] => false
  | c :: l' => (is_hyphen c && test is_hyphen (head l')) || double_hyphen l'
  end.

Definition is_label_char (c : ascii) : bool := is_lower c || is_digit c || is_hyphen c.

Definition isValid (name : string) : option error :=
  let l := bytes_of name in
  if decide (strlen name = 0) then Some errEmptyName
  else if decide (63 < strlen name) then Some errMaxLenExceeded
  else if test is_hyphen (head l) || test is_hyphen (last l) then Some errInvalidStartEnd
  else if double_hyphen l then Some errConsecutiveHyphens
  else if existsb (λ c, negb (is_label_char c)) l then Some errInvalidChars
  else None.

(** Ensure the ends are alphanumeric. *)
Definition fix_ends (l : list ascii) : list ascii :=
  if decide (length l = 1) then
    if test is_alnum (head l) then l
    else
      let l := if test is_alnum (head l) then l else "e"%char :: l in
      if test is_alnum (last l) then l else l ++ ["e"%char]
  else
    let l := if test is_alnum (head l) then l else "e"%char :: l in
    if test is_alnum (last l) then l else l ++ ["e"%char].

(** [[^a-zA-Z0-9-]] becomes a hyphen. *)
Definition hyphenate (c : ascii) : ascii := if is_alnum c || is_hyphen c then c else "-"%char.

(** [-+] becomes one hyphen. *)
Fixpoint squeeze (l : list ascii) : list ascii :=
  match l with
  | [] => []
  | c :: l' => if is_hyphen c && test is_hyphen (head l') then squeeze l' else c :: squeeze l'
  end.

Definition makeValidName (name pfx : string) : res string :=
  if decide (strlen (TrimSpace name) = 0) then inl errEmptyName
  else
    let result := TrimSpace name in
    let result := if decide (pfx ≠ "") then pfx +:+ result else result in
    let l := fix_ends (bytes_of result) in
    let l := hyphenate <$> l in
    let l := squeeze l in
    let l := trim_list is_hyphen l in
    let l := lower_char <$> l in
    let l := if decide (63 < length l) then take 63 l else l in
    let result := of_bytes l in
    match isValid result with
    | Some err => inl err
    | None => inr result
    end.

(** ** Characters *)

(** A decidable statement about one byte is checked on all 256. *)
Definition all_ascii (p : ascii → bool) : bool :=
  forallb (λ n, p (ascii_of_nat n)) (seq 0 256).

Lemma all_ascii_spec p : all_ascii p = true → ∀ c, p c = true.
Proof.
  intros H c. rewrite <-(ascii_nat_embedding c). unfold all_ascii in H. rewrite forallb_forall in H.
  apply H, in_seq. pose proof (nat_ascii_bounded c). lia.
Qed.

Ltac by_ascii := apply all_ascii_spec; vm_compute; reflexivity.

Lemma alnum_not_hyphen c : is_alnum c = true → is_hyphen c = false.
Proof.
  assert (implb (is_alnum c) (negb (is_hyphen c)) = true) as H
    by (revert c; by_ascii).
  intros Hc. rewrite Hc in H. by destruct (is_hyphen c).
Qed.

Lemma label_char c : is_label_char (lower_char (hyphenate c)) = true.
Proof. revert c; by_ascii. Qed.

Lemma lower_hyphen c : is_hyphen (lower_char c) = is_hyphen c.
Proof. apply eqb_true_iff. revert c; by_ascii. Qed.

Lemma hyphenate_alnum c : is_alnum c = true → hyphenate c = c.
Proof. unfold hyphenate. by intros ->. Qed.

Lemma label_char_fixed c : is_label_char c = true → hyphenate c = c ∧ lower_char c = c.
Proof.
  assert (implb (is_label_char c) (bool_decide (hyphenate c = c) && bool_decide (lower_char c = c)) = true) as H
    by (revert c; by_ascii).
  intros Hc. rewrite Hc in H. simpl in H.
  apply andb_true_iff in H as [H1%bool_decide_eq_true H2%bool_decide_eq_true]. done.
Qed.

Lemma label_char_alnum c : is_label_char c = true → is_hyphen c = false → is_alnum c = true.
Proof.
  assert (implb (is_label_char c) (is_hyphen c || is_alnum c) = true) as H by (revert c; by_ascii).
  intros Hc Hh. rewrite Hc, Hh in H. done.
Qed.

Lemma label_char_not_space c : is_label_char c = true → Ascii.is_space c = false.
Proof.
  assert (implb (is_label_char c) (negb (Ascii.is_space c)) = true) as H by (revert c; by_ascii).
  intros Hc. rewrite Hc in H. by destruct (Ascii.is_space c).
Qed.

Lemma label_elem l c : Forall (λ c, is_label_char c = true) l → c ∈ l → is_label_char c = true.
Proof. rewrite Forall_forall. auto. Qed.

(** ** Hyphens *)

Lemma squeeze_head l : head (squeeze l) = head l.
Proof.
  induction l as [|c l IH]; [done|]. cbn [squeeze].
  destruct (is_hyphen c && test is_hyphen (head l)) eqn:H; [|done]. rewrite IH.
  destruct l as [|c' l]; [by rewrite andb_false_r in H|]. simpl in *.
  apply andb_true_iff in H as [->%bool_decide_eq_true ->%bool_decide_eq_true]. done.
Qed.

Lemma squeeze_last l : last (squeeze l) = last l.
Proof.
  induction l as [|c [|c' l'] IH]; [done| |]; [simpl; by rewrite andb_false_r|].
  change (squeeze (c :: c' :: l')) with
    (if is_hyphen c && is_hyphen c' then squeeze (c' :: l') else c :: squeeze (c' :: l')).
  rewrite !last_cons in *. destruct (_ && _); rewrite ?last_cons, IH; by destruct (last l').
Qed.

Lemma squeeze_no_double l : double_hyphen (squeeze l) = false.
Proof.
  induction l as [|c l IH]; [done|]. simpl.
  destruct (is_hyphen c && test is_hyphen (head l)) eqn:H; [done|].
  simpl. by rewrite squeeze_head, H, IH.
Qed.

Lemma squeeze_id l : double_hyphen l = false → squeeze l = l.
Proof.
  induction l as [|c l IH]; [done|]. simpl. rewrite orb_false_iff. intros [-> H]. by rewrite IH.
Qed.

Lemma squeeze_subset l c : c ∈ squeeze l → c ∈ l.
Proof. induction l as [|c' l IH]; simpl; [done|]. case_match; set_solver. Qed.

Lemma double_hyphen_take n l : double_hyphen (take n l) = true → double_hyphen l = true.
Proof.
  revert n. induction l as [|c l IH]; intros [|n]; simpl; [done..|].
  rewrite !orb_true_iff. intros [H|H]; [left|right; eauto].
  destruct l, n; by simpl in *; rewrite ?andb_false_r in H.
Qed.

Lemma double_hyphen_lower l : double_hyphen (lower_char <$> l) = double_hyphen l.
Proof.
  induction l as [|c l IH]; [done|]. csimpl. rewrite IH, lower_hyphen.
  destruct l; csimpl; by rewrite ?lower_hyphen.
Qed.

Lemma trim_list_id {A} (p : A → bool) l :
  (∀ x, head l = Some x → p x = false) → (∀ x, last l = Some x → p x = false) → trim_list p l = l.
Proof.
  intros Hh Hl. unfold trim_list. rewrite (drop_while_false p l) by done.
  rewrite drop_while_false; [apply reverse_involutive|]. intros x. rewrite head_reverse. apply Hl.
Qed.

(** [fix_ends] makes both ends alphanumeric. *)
Lemma fix_ends_ends l : test is_alnum (head (fix_ends l)) = true ∧ test is_alnum (last (fix_ends l)) = true.
Proof.
  assert (∀ l, (∃ c l', l = c :: l' ∧ is_alnum c = true) →
    let r := if test is_alnum (last l) then l else l ++ ["e"%char] in
    test is_alnum (head r) = true ∧ test is_alnum (last r) = true) as He.
  { intros l0 (c & l' & -> & Hc). cbv zeta. destruct (test is_alnum (last (c :: l'))) eqn:E.
    - by rewrite E.
    - by rewrite last_snoc. }
  assert (∀ l, let r := if test is_alnum (head l) then l else "e"%char :: l in
    ∃ c l', r = c :: l' ∧ is_alnum c = true) as Hs.
  { intros [|c l0]; cbv zeta; simpl; [by eexists _, _|]. destruct (is_alnum c) eqn:?; by eexists _, _. }
  unfold fix_ends. case_decide as Hlen; [|apply He, Hs].
  destruct (test is_alnum (head l)) eqn:E; [|apply He; by eexists _, _].
  destruct l as [|c []]; done.
Qed.

Lemma fix_ends_id l :
  test is_alnum (head l) = true → test is_alnum (last l) = true → fix_ends l = l.
Proof. intros H1 H2. unfold fix_ends. rewrite H1, H2. by case_decide. Qed.

(** ** Valid names *)

(** A DNS-1123 label without consecutive hyphens. *)
Definition valid_label (s : string) : Prop :=
  let l := bytes_of s in
  1 ≤ strlen s ≤ 63 ∧ Forall (λ c, is_label_char c = true) l ∧
  test is_alnum (head l) = true ∧ test is_alnum (last l) = true ∧ double_hyphen l = false.

(** The name before truncation. *)
Definition full_name (name pfx : string) : list ascii :=
  lower_char <$> squeeze (hyphenate <$> fix_ends (bytes_of (pfx +:+ TrimSpace name))).

Lemma isValid_spec s : isValid s = None ↔ valid_label s.
Proof.
  unfold isValid, valid_label. set (l := bytes_of s).
  assert (existsb (λ c, negb (is_label_char c)) l = false ↔ Forall (λ c, is_label_char c = true) l) as He.
  { induction l as [|c l IH]; simpl; [done|]. by rewrite orb_false_iff, IH, Forall_cons, negb_false_iff. }
  assert (strlen s = length l) as Hlen by (apply strlen_bytes).
  assert (Forall (λ c, is_label_char c = true) l → ∀ c, c ∈ l → (is_alnum c = true ↔ is_hyphen c = false)) as Ha.
  { intros Hf c Hc. split; [apply alnum_not_hyphen|]. apply label_char_alnum. by eapply Forall_forall in Hf. }
  repeat case_decide; [split; [done|lia]..|].
  assert (∃ a z, head l = Some a ∧ last l = Some z ∧ a ∈ l ∧ z ∈ l) as (a & z & Eh & El & Hain & Hzin).
  { destruct l as [|a l'] eqn:E; [done|]. destruct (last (a :: l')) as [z|] eqn:Ez; [|by apply last_None in Ez].
    exists a, z. split_and!; [done..|set_solver|by apply last_Some_elem_of]. }
  rewrite Eh, El. simpl. destruct (existsb _ l).
  - assert (¬ Forall (λ c, is_label_char c = true) l) as Hn by (rewrite <-He; done).
    repeat case_match; naive_solver.
  - assert (Forall (λ c, is_label_char c = true) l) as Ee by (by apply He). specialize (Ha Ee). pose proof (Ha a Hain). pose proof (Ha z Hzin).
    destruct (is_hyphen a), (is_hyphen z), (double_hyphen l); simpl; split; intros; destruct_and?;
      try done; naive_solver lia.
Qed.

Lemma full_name_ends name pfx :
  test is_alnum (head (full_name name pfx)) = true ∧ test is_alnum (last (full_name name pfx)) = true.
Proof.
  unfold full_name. set (l := fix_ends _). destruct (fix_ends_ends (bytes_of (pfx +:+ TrimSpace name))) as [Hh Hl].
  fold l in Hh, Hl.
  assert (∀ c, is_alnum c = true → is_alnum (lower_char (hyphenate c)) = true) as Hk.
  { intros c Hc. apply label_char_alnum; [apply label_char|].
    by rewrite lower_hyphen, hyphenate_alnum, alnum_not_hyphen. }
  split.
  - destruct l as [|c l']; [done|]. cbn [head test] in Hh. specialize (Hk c Hh). clear -Hk.
    pose proof (squeeze_head (hyphenate <$> c :: l')) as E.
    destruct (squeeze _) as [|c' s']; simplify_eq/=. done.
  - pose proof (squeeze_last (hyphenate <$> l)) as E. rewrite !fmap_last in *.
    rewrite E. destruct (last l); simpl in *; [auto|done].
Qed.

Lemma full_name_chars name pfx : Forall (λ c, is_label_char c = true) (full_name name pfx).
Proof.
  unfold full_name. apply Forall_fmap, Forall_forall. intros c Hc%squeeze_subset.
  apply list_elem_of_fmap in Hc as (c' & -> & _). apply label_char.
Qed.

Lemma makeValidName_eq name pfx :
  makeValidName name pfx =
    if decide (TrimSpace name = "") then inl errEmptyName
    else
      let cut := take 63 (full_name name pfx) in
      if test is_hyphen (last cut) then inl errInvalidStartEnd else inr (of_bytes cut).
Proof.
  unfold makeValidName.
  assert (strlen (TrimSpace name) = 0 ↔ TrimSpace name = "") as Hlen by (destruct (TrimSpace name); simpl; split; done || lia).
  destruct (decide (TrimSpace name = "")) as [Hb|Hb]; [by rewrite decide_True by tauto|].
  rewrite decide_False by tauto.
  assert ((if decide (pfx ≠ "") then pfx +:+ TrimSpace name else TrimSpace name) = pfx +:+ TrimSpace name) as ->
    by (case_decide as Hp; [done|by rewrite Hp]).
  set (l := squeeze _). destruct (full_name_ends name pfx) as [Hh Hl].
  assert (full_name name pfx = lower_char <$> l) as Ef by done.
  assert (trim_list is_hyphen l = l) as ->.
  { rewrite Ef in Hh, Hl. rewrite fmap_last in Hl.
    apply trim_list_id; intros c Hc; apply (f_equal (fmap lower_char)) in Hc.
    - destruct l; simplify_eq/=. rewrite <-lower_hyphen. by apply alnum_not_hyphen; rewrite <-Hc || rewrite Hc.
    - rewrite Hc in Hl. simpl in Hl. rewrite <-lower_hyphen. by apply alnum_not_hyphen. }
  rewrite <-Ef. cbv zeta.
  assert ((if decide (63 < length (full_name name pfx)) then take 63 (full_name name pfx) else full_name name pfx)
    = take 63 (full_name name pfx)) as -> by (case_decide; [done|by rewrite take_ge by lia]).
  set (cut := take 63 _).
  assert (test is_alnum (head cut) = true ∧ cut ≠ []) as [Hch Hne]
    by (unfold cut; destruct (full_name name pfx); done).
  assert (Forall (λ c, is_label_char c = true) cut) as Hc by (apply Forall_take, full_name_chars).
  assert (double_hyphen cut = false) as Hd.
  { apply not_true_iff_false. intros H%double_hyphen_take. rewrite Ef, double_hyphen_lower in H.
    unfold l in H. by rewrite squeeze_no_double in H. }
  assert (length cut ≤ 63) as Hl63 by (unfold cut; rewrite length_take; lia).
  destruct (test is_hyphen (last cut)) eqn:Hlast.
  - unfold isValid. rewrite strlen_bytes, bytes_of_of_bytes. rewrite decide_False by (by destruct cut).
    rewrite decide_False by lia. by rewrite Hlast, orb_true_r.
  - destruct (isValid (of_bytes cut)) eqn:E; [|done]. exfalso.
    enough (isValid (of_bytes cut) = None) by congruence. apply isValid_spec.
    unfold valid_label. rewrite strlen_bytes, bytes_of_of_bytes. split_and!; try done.
    + destruct cut; simpl; [done|lia].
    + destruct (last cut) as [z|] eqn:Ez; [|by apply last_None in Ez]. simpl in *.
      apply label_char_alnum; [|done]. eapply label_elem; [exact Hc|]. by apply last_Some_elem_of.
Qed.

Lemma makeValidName_label name pfx r : makeValidName name pfx = inr r → valid_label r.
Proof.
  unfold makeValidName. case_decide; [done|].
  destruct (isValid _) eqn:E; [done|]. intros [= <-]. by apply isValid_spec.
Qed.

(** ** Main results *)

(** What [makeValidName] returns. It fails on a blank name. Otherwise the
    name, with its prefix, is completed, hyphenated and lowered, and cut to 63
    bytes; the only failure left is a cut that falls just after a hyphen. *)
Theorem makeValidName_spec name pfx :
  makeValidName name pfx =
    if decide (TrimSpace name = "") then inl errEmptyName
    else
      let cut := take 63 (full_name name pfx) in
      if test is_hyphen (last cut) then inl errInvalidStartEnd else inr (of_bytes cut).
Proof. apply makeValidName_eq. Qed.

(** Every name the server gives to an object is a valid label: 1 to 63 of
    the bytes a-z, 0-9 and hyphen, with alphanumeric ends and no two hyphens in
    a row. *)
Theorem makeValidName_valid name pfx r : makeValidName name pfx = inr r → valid_label r.
Proof. apply makeValidName_label. Qed.

(** Valid names are kept: a valid label without prefix is returned as is. *)
Theorem makeValidName_fixed r : valid_label r → makeValidName r "" = inr r.
Proof.
  intros (Hlen & Hc & Hh & Hl & Hd).
  assert (trim_list Ascii.is_space (bytes_of r) = bytes_of r) as Ht.
  { apply trim_list_id; intros c Hx; apply label_char_not_space; (eapply label_elem; [exact Hc|]).
    - by apply head_Some_elem_of.
    - by apply last_Some_elem_of. }
  assert (TrimSpace r = r) as Hr by (unfold TrimSpace; by rewrite Ht, of_bytes_bytes_of).
  rewrite makeValidName_eq, Hr. rewrite decide_False by (intros ->; simpl in Hlen; lia).
  assert (full_name r "" = bytes_of r) as ->.
  { unfold full_name. rewrite Hr. change ("" +:+ r) with r. rewrite fix_ends_id by done.
    assert (∀ f, (∀ c, is_label_char c = true → f c = c) → f <$> bytes_of r = bytes_of r) as Hid.
    { intros f Hf. rewrite <-(list_fmap_id (bytes_of r)) at 2. apply list_fmap_ext.
      intros ? c Hx. apply Hf. eapply label_elem; [exact Hc|]. by eapply list_elem_of_lookup_2. }
    rewrite (Hid hyphenate) by (intros; by apply label_char_fixed). rewrite squeeze_id by done.
    apply Hid. intros; by apply label_char_fixed. }
  rewrite take_ge by (rewrite <-strlen_bytes; lia). cbv zeta.
  destruct (last (bytes_of r)) as [z|]; [|done]. simpl in *. by rewrite alnum_not_hyphen, of_bytes_bytes_of.
Qed.
