(* ===== verification/Server.v ===== *)
(** * The workflow service

    tink/server/internal/grpc: serving actions to agents and recording what they
    report (grpc.go), hardware lookup (hardware.go), auto discovery
    (discovery.go) and auto enrollment (enrollment.go).

    The storage behind the service is the class [Backend], the interfaces of
    grpc.go; [ServerEnv] holds the third-party code the handlers call. A handler
    runs in a world [W]; its result is [None] when it panics, and otherwise an
    error or a response. The journal and the logger are not modelled. *)
From S2P Require Import Prelude GoStrings GoNet BmcTypes InventoryTypes Api Attributes ServerNames.

(** ** Messages *)

Record ActionRequest := mkActionRequest {
  areq_AgentId : string;
  areq_AgentAttributes : option pb_AgentAttributes;
}.

Record pb_Namespaces := mkpb_Namespaces { pbns_Network : string; pbns_Pid : string }.

Record ActionResponse := mkActionResponse {
  ar_WorkflowId : string;
  ar_TaskId : string;
  ar_AgentId : string;
  ar_ActionId : string;
  ar_Name : string;
  ar_Image : string;
  ar_Timeout : Z;
  ar_Command : list string;
  ar_Volumes : list string;
  ar_Environment : list string;
  ar_Pid : string;
  ar_Namespaces : option pb_Namespaces;
}.

(** The enumeration is open: an unknown number is kept. *)
Inductive StateType :=
| ST_UNSPECIFIED | ST_PENDING | ST_RUNNING | ST_FAILED | ST_TIMEOUT | ST_SUCCESS
| ST_other (n : Z).

#[export] Instance StateType_eq_dec : EqDecision StateType.
Proof. solve_decision. Defined.

Definition StateType_String (s : StateType) : string :=
  match s with
  | ST_UNSPECIFIED => "UNSPECIFIED"
  | ST_PENDING => "PENDING"
  | ST_RUNNING => "RUNNING"
  | ST_FAILED => "FAILED"
  | ST_TIMEOUT => "TIMEOUT"
  | ST_SUCCESS => "SUCCESS"
  | ST_other n => Itoa n
  end.

Record ActionStatusRequest := mkActionStatusRequest {
  sr_WorkflowId : string;
  sr_AgentId : string;
  sr_TaskId : string;
  sr_ActionId : string;
  sr_ActionName : string;
  sr_ActionState : StateType;
  sr_ExecutionStart : option Z;
  sr_ExecutionStop : option Z;
  sr_ExecutionDuration : string;
  sr_Message : string;
}.

(** [ts.AsTime()]: the epoch for a nil timestamp. *)
Definition AsTime (ts : option Z) : Z := default 0%Z ts.

(** ** The environment *)

(** The backend interfaces of grpc.go, with the cancellation of the request's
    context. *)
Class Backend (W : Type) := {
  b_Done : W → bool * W;
  b_ListWorkflows : WorkflowFilter → W → res (list Workflow) * W;
  b_ReadWorkflow (name ns : string) : W → res Workflow * W;
  (** [UpdateWorkflow] with [StatusOnly] *)
  b_UpdateWorkflowStatus : Workflow → W → option error * W;
  b_ReadHardware (name ns : string) : W → res Hardware * W;
  b_FilterHardware : HardwareFilter → W → res Hardware * W;
  (** [UpdateHardware] with [PatchFrom] *)
  b_PatchHardware (hw original : Hardware) : W → option error * W;
  b_CreateHardware : Hardware → W → option error * W;
  b_ListWorkflowRuleSets : WorkflowFilter → W → res (list WorkflowRuleSet) * W;
  b_CreateWorkflow : Workflow → W → option error * W;
}.

(** [json.Marshal] on attributes; quamina's [AddPattern] and the number of
    matches [MatchesForEvent] finds among the added rules (a nil event is
    [None]); [backoff.Retry] with the handler's retry options. *)
Class ServerEnv (W : Type) := {
  marshal_attrs : AgentAttributes → res string;
  quamina_AddPattern : string → option error;
  quamina_matches : list string → option string → res nat;
  backoff_Retry {A} : (W → option (res A) * W) → W → option (res A) * W;
}.

(** The auto capabilities of a handler (auto.go). *)
Record AutoConfig := mkAutoConfig {
  auto_Enrollment : bool;
  auto_Discovery : bool;
  auto_Namespace : string;
  auto_DiscoveryEnrollment : bool;
}.

Definition no_auto (c : AutoConfig) : AutoConfig :=
  mkAutoConfig false false (auto_Namespace c) (auto_DiscoveryEnrollment c).

Definition AttributesAnnotation : string := "tinkerbell.org/agent-attributes".

Definition maxAnnotationSize : Z := (64 * 1024)%Z.

Definition ErrBackendRead : error := ErrNew "error reading from backend".
Definition ErrBackendWrite : error := ErrNew "error writing to backend".

(** ** Choosing the action to serve *)

Definition isFirstAction (t : Task) : bool :=
  match task_Actions t with
  | [] => false
  | a :: _ => bool_decide (act_State a = WorkflowStatePending)
  end.

Definition isTaskSuccessful (t : Task) : bool :=
  match last (task_Actions t) with
  | None => true
  | Some a => bool_decide (act_State a = WorkflowStateSuccess)
  end.

Definition resolveAction (task : Task) (currentState : option CurrentState) : res Action :=
  if isFirstAction task then
    match task_Actions task with
    | a :: _ => inr a
    | [] => inl (ErrNew "index out of range")
    end
  else
    match currentState with
    | Some cs =>
        if decide (cs_State cs = WorkflowStateRunning ∨ cs_State cs = WorkflowStatePending) then
          match list_find (λ a, act_ID a = cs_ActionID cs) (task_Actions task) with
          | Some (_, a) => inr a
          | None => inl (ErrGrpc NotFound "in-progress Action not found in task")
          end
        else if decide (cs_State cs ≠ WorkflowStateSuccess) then
          inl (ErrGrpc FailedPrecondition "current Action not in success state")
        else
          match list_find (λ a, act_ID a = cs_ActionID cs) (task_Actions task) with
          | Some (idx, _) =>
              match task_Actions task !! S idx with
              | Some a => inr a
              | None => inl (ErrGrpc NotFound "last Action in task")
              end
          | None => inl (ErrGrpc NotFound "no Action found")
          end
    | None => inl (ErrGrpc FailedPrecondition "no current state available")
    end.

(** The loop over the agent's workflows: the first one with tasks, if it may be
    served. [inr None] leaves the zero workflow. *)
Fixpoint find_workflow (wfs : list Workflow) : res (option Workflow) :=
  match wfs with
  | [] => inr None
  | w :: wfs' =>
      match st_Tasks (wf_Status w) with
      | [] => find_workflow wfs'
      | _ =>
          if decide (bo_BootMode (spec_BootOptions (wf_Spec w)) ≠ "" ∧
                     st_State (wf_Status w) = WorkflowStatePreparing)
          then inl (ErrGrpc FailedPrecondition "Workflow is in preparing state")
          else if decide (st_State (wf_Status w) ≠ WorkflowStatePending ∧
                          st_State (wf_Status w) ≠ WorkflowStateRunning)
          then inl (ErrGrpc FailedPrecondition "Workflow not in pending or running state")
          else inr (Some w)
      end
  end.

(** The first task that still has work, and whether the workflow is at its very
    first action. *)
Definition select_task (tasks : list Task) : bool * option Task :=
  match tasks with
  | [] => (false, None)
  | t :: _ =>
      if isFirstAction t then (true, Some t)
      else (false, snd <$> list_find (λ t, isTaskSuccessful t = false) tasks)
  end.

(** The action to serve to [agentID] and its task, after the task is chosen. *)
Definition select_action (agentID : string) (task : option Task) (cs : option CurrentState)
    : res (Task * Action) :=
  match task with
  | None => inl (ErrGrpc NotFound "no Tasks found")
  | Some task =>
      match task_Actions task with
      | [] => inl (ErrGrpc NotFound "no Actions found")
      | _ =>
          match resolveAction task cs with
          | inl err => inl err
          | inr action =>
              if decide (task_AgentID task ≠ agentID)
              then inl (ErrGrpc NotFound "Task not assigned to Agent")
              else inr (task, action)
          end
      end
  end.

Definition serving_state (agentID : string) (task : Task) (action : Action) : CurrentState :=
  mkCurrentState agentID (task_ID task) (act_ID action) (act_State action) (act_Name action) (task_Name task).

(** The environment of an action: the task's, overridden by the action's, as
    sorted [k=v] strings. *)
Definition environment (task : Task) (action : Action) : list string :=
  merge_sort String.le
    ((λ kv, kv.1 +:+ "=" +:+ kv.2) <$> map_to_list (act_Environment action ∪ task_Environment task)).

Definition response (agentID : string) (wf : Workflow) (task : Task) (action : Action) : ActionResponse := {|
  ar_WorkflowId := wf_Namespace wf +:+ "/" +:+ wf_Name wf;
  ar_TaskId := task_ID task;
  ar_AgentId := agentID;
  ar_ActionId := act_ID action;
  ar_Name := act_Name action;
  ar_Image := act_Image action;
  ar_Timeout := act_Timeout action;
  ar_Command := act_Command action;
  ar_Volumes := task_Volumes task ++ act_Volumes action;
  ar_Environment := environment task action;
  ar_Pid :=
    match act_Namespaces action with
    | Some ns => if decide (ns_PID ns ≠ "") then ns_PID ns else act_Pid action
    | None => act_Pid action
    end;
  ar_Namespaces := (λ ns, mkpb_Namespaces (ns_Network ns) (ns_PID ns)) <$> act_Namespaces action;
|}.

(** ** Reporting the status of an action *)

Definition set_report (req : ActionStatusRequest) (a : Action) : Action :=
  mkAction (act_ID a) (act_Name a) (act_Image a) (act_Timeout a) (act_Command a) (act_Volumes a) (act_Pid a)
    (act_Namespaces a) (act_Environment a) (StateType_String (sr_ActionState req))
    (Some (AsTime (sr_ExecutionStart req))) (Some (AsTime (sr_ExecutionStop req)))
    (sr_ExecutionDuration req) (sr_Message req).

Definition set_Actions (l : list Action) (t : Task) : Task :=
  mkTask (task_ID t) (task_Name t) (task_AgentID t) l (task_Volumes t) (task_Environment t).

(** The two nested loops: the indexes of the first action with the requested ID
    in a task of the requesting agent. *)
Definition reported (req : ActionStatusRequest) (t : Task) : option (nat * Action) :=
  if decide (task_AgentID t = sr_AgentId req)
  then list_find (λ a, act_ID a = sr_ActionId req) (task_Actions t) else None.

Fixpoint find_reported (req : ActionStatusRequest) (tasks : list Task) : option (nat * Task * nat * Action) :=
  match tasks with
  | [] => None
  | t :: tasks' =>
      match reported req t with
      | Some (ai, a) => Some (0, t, ai, a)
      | None =>
          match find_reported req tasks' with
          | Some (ti, t', ai, a) => Some (S ti, t', ai, a)
          | None => None
          end
      end
  end.

(** The body of the loops: the status written for the action found. *)
Definition report_status (req : ActionStatusRequest) (ti : nat) (task : Task) (ai : nat) (action : Action)
    (st : WorkflowStatus) : WorkflowStatus :=
  let action' := set_report req action in
  let tasks := <[ti := set_Actions (<[ai := action']> (task_Actions task)) task]> (st_Tasks st) in
  let st' := set_Tasks tasks st in
  let st' := if decide (sr_ActionState req ≠ ST_SUCCESS) then set_State (act_State action') st' else st' in
  let st' :=
    if decide (length (st_Tasks st) = ti + 1 ∧ length (task_Actions task) = ai + 1 ∧
               sr_ActionState req = ST_SUCCESS)
    then set_State WorkflowStatePost st' else st' in
  set_CurrentState
    (Some (mkCurrentState (sr_AgentId req) (sr_TaskId req) (sr_ActionId req) (act_State action')
             (sr_ActionName req) (task_Name task))) st'.

Section handlers.
Context `{BE : Backend W} {SE : ServerEnv W}.

Definition doReportActionStatus (req : ActionStatusRequest) (w : W) : option (res unit) * W :=
  if decide (sr_WorkflowId req = "") then (Some (inl (ErrGrpc InvalidArgument "invalid workflow id")), w)
  else if decide (sr_TaskId req = "") then (Some (inl (ErrGrpc InvalidArgument "invalid task name")), w)
  else if decide (sr_ActionId req = "") then (Some (inl (ErrGrpc InvalidArgument "invalid action name")), w)
  else
    let '(namespace, name, _) := Cut (sr_WorkflowId req) "/"%char in
    match b_ReadWorkflow name namespace w with
    | (inl err, w) =>
        (Some (inl (ErrJoin ErrBackendRead (ErrGrpc Internal ("error getting workflow: " +:+ error_msg err)))), w)
    | (inr wf, w) =>
        match find_reported req (st_Tasks (wf_Status wf)) with
        | None => (Some (inl (ErrGrpc NotFound "action not found")), w)
        | Some (ti, task, ai, action) =>
            match b_UpdateWorkflowStatus (upd_Status (report_status req ti task ai action) wf) w with
            | (Some err, w) =>
                (Some (inl (ErrGrpc Internal ("error writing report status: " +:+ error_msg err))), w)
            | (None, w) => (Some (inr tt), w)
            end
        end
    end.

Definition ReportActionStatus (req : ActionStatusRequest) : W → option (res unit) * W :=
  backoff_Retry (doReportActionStatus req).

(** ** Hardware *)

Fixpoint foundMultipleHardware (e : error) : bool :=
  match e with
  | ErrFoundMultiple _ => true
  | ErrWrap _ e | ErrPermanent e | ErrNoActions _ e => foundMultipleHardware e
  | ErrJoin e1 e2 => foundMultipleHardware e1 || foundMultipleHardware e2
  | _ => false
  end.

Fixpoint has_NotFound (e : error) : bool :=
  match e with
  | ErrNotFound _ => true
  | ErrWrap _ e | ErrPermanent e | ErrNoActions _ e => has_NotFound e
  | ErrJoin e1 e2 => has_NotFound e1 || has_NotFound e2
  | _ => false
  end.

Definition hardwareNotFound (e : error) : bool := has_NotFound e || IsNotFound e.

Definition by_agent (agentID ns : string) : HardwareFilter := mkHardwareFilter ns "" agentID "" "" "".

Definition hardware (auto : AutoConfig) (agentID : string) (w : W) : res Hardware * W :=
  match b_FilterHardware (by_agent agentID (auto_Namespace auto)) w with
  | (inr hw, w) => (inr hw, w)
  | (inl err, w) =>
      if foundMultipleHardware err
      then (inl (ErrWrap ("multiple hardware objects found for ID " +:+ agentID +:+ " in namespace "
                          +:+ auto_Namespace auto +:+ ": ") err), w)
      else (inl err, w)
  end.

Definition set_Annotation (k v : string) (hw : Hardware) : Hardware :=
  let m := hw_Meta hw in
  mkHardware
    (mkObjectMeta (om_APIVersion m) (om_Kind m) (om_Name m) (om_Namespace m) (om_UID m) (om_Labels m)
       (<[k := v]> (om_Annotations m)) (om_OwnerReferences m) (om_DeletionTimestamp m))
    (hw_Spec hw) (hw_Status hw).

Definition updateHardwareWithAttributes (hw : Hardware) (attrs : AgentAttributes) (w : W)
    : option error * W :=
  if decide (default "" (om_Annotations (hw_Meta hw) !! AttributesAnnotation) ≠ "") then (None, w)
  else
    match marshal_attrs attrs with
    | inl err => (Some (ErrWrap "error marshaling attributes for annotation: " err), w)
    | inr a =>
        if decide (maxAnnotationSize < Z.of_nat (strlen a))%Z
        then (Some (ErrNew ("agent attributes annotation exceeds 64KB limit ("
                            +:+ Itoa (Z.of_nat (strlen a)) +:+ " bytes)")), w)
        else
          match b_PatchHardware (set_Annotation AttributesAnnotation a hw) hw w with
          | (Some err, w) => (Some (ErrWrap "error updating Hardware with attributes annotation: " err), w)
          | (None, w) => (None, w)
          end
    end.

(** The error of the update is only logged. *)
Definition resolveAndAnnotateHardware (hwRef : option Hardware) (hardwareRef namespace : string)
    (attrs : option AgentAttributes) (w : W) : W :=
  match attrs with
  | None => w
  | Some attrs =>
      let '(hwRef, w) :=
        match hwRef with
        | Some hw => (Some hw, w)
        | None =>
            if decide (hardwareRef ≠ "") then
              match b_ReadHardware hardwareRef namespace w with
              | (inl _, w) => (None, w)
              | (inr hw, w) => (Some hw, w)
              end
            else (None, w)
        end in
      match hwRef with
      | None => w
      | Some hw => (updateHardwareWithAttributes hw attrs w).2
      end
  end.

(** ** Discovery *)

Definition discoveryPrefix : string := "discovery-".

Definition disk_wanted (d : data_Block) : bool := bool_decide (default "" (blk_Size d) ≠ "").

(** The disks: [*disk.Name] panics on a nil name. *)
Fixpoint discovered_disks (bs : list data_Block) : option (list Disk) :=
  match bs with
  | [] => Some []
  | d :: bs' =>
      if disk_wanted d then
        name ← blk_Name d; l ← discovered_disks bs'; Some (mkDisk ("/dev/" +:+ name) :: l)
      else discovered_disks bs'
  end.

(** The interfaces with a well-formed MAC address. *)
Definition discovered_interface (n : data_Network) : option Interface :=
  match nic_Mac n with
  | Some mac =>
      if decide (mac = "") then None
      else
        match ParseMAC mac with
        | None => None
        | Some _ =>
            Some (mkInterface None None
                    (Some (mkDHCP mac "" "" 0 [] [] "" false "" None "" [] "" "")) false)
        end
  | None => None
  end.

Definition updateHardware (hw : Hardware) (attrs : option AgentAttributes) : option Hardware :=
  match attrs with
  | None => Some hw
  | Some attrs =>
      disks ← discovered_disks (attr_BlockDevices attrs);
      let s := hw_Spec hw in
      Some (mkHardware (hw_Meta hw)
              (mkHardwareSpec (hs_AgentID s) (hs_Auto s) (hs_BMCRef s)
                 (hs_Interfaces s ++ omap discovered_interface (attr_NetworkInterfaces attrs))
                 (hs_References s) (hs_Metadata s) (hs_TinkVersion s) (hs_Disks s ++ disks)
                 (hs_UserData s) (hs_VendorData s)) (hw_Status hw))
  end.

Definition set_EnrollmentEnabled (b : bool) (hw : Hardware) : Hardware :=
  let s := hw_Spec hw in
  mkHardware (hw_Meta hw)
    (mkHardwareSpec (hs_AgentID s) (mkAutoCapabilities b) (hs_BMCRef s) (hs_Interfaces s) (hs_References s)
       (hs_Metadata s) (hs_TinkVersion s) (hs_Disks s) (hs_UserData s) (hs_VendorData s)) (hw_Status hw).

(** The object to create, before its disks and interfaces. *)
Definition discovered (auto : AutoConfig) (hwName agentID : string) (attrs : option AgentAttributes) : Hardware :=
  let hw :=
    mkHardware
      (mkObjectMeta "" "" hwName (auto_Namespace auto) ""
         {[ "tinkerbell.org/auto-discovered" := "true" ]} ∅ [] None)
      (mkHardwareSpec agentID (mkAutoCapabilities (auto_DiscoveryEnrollment auto)) None [] ∅ None 0 [] None None) zero_HardwareStatus in
  match attrs with
  | None => hw
  | Some attrs =>
      match marshal_attrs attrs with
      | inl _ => hw
      | inr a =>
          if decide (maxAnnotationSize < Z.of_nat (strlen a))%Z then hw
          else set_Annotation AttributesAnnotation a hw
      end
  end.

Definition Discover (auto : AutoConfig) (agentID : string) (attrs : option AgentAttributes) (w : W)
    : option (res Hardware) * W :=
  let ns := auto_Namespace auto in
  match makeValidName agentID discoveryPrefix with
  | inl err =>
      (Some (inl (ErrWrap ("failed to make discovery ID " +:+ agentID +:+ " a valid Kubernetes name: ") err)), w)
  | inr hwName =>
      match b_FilterHardware (by_agent agentID "") w with
      | (inr existing, w) => (Some (inr existing), w)
      | (inl err, w) =>
          if foundMultipleHardware err
          then (Some (inl (ErrWrap ("multiple hardware objects found for agent ID " +:+ agentID +:+ ": ") err)), w)
          else if negb (hardwareNotFound err)
          then (Some (inl (ErrWrap ("failed to check for existing hardware object " +:+ ns +:+ "/" +:+ hwName
                                    +:+ ": ") err)), w)
          else
            match updateHardware (discovered auto hwName agentID attrs) attrs with
            | None => (None, w)
            | Some hw =>
                match b_CreateHardware hw w with
                | (Some err, w) =>
                    (Some (inl (ErrWrap ("failed to create hardware object " +:+ ns +:+ "/" +:+ hwName
                                         +:+ ": ") err)), w)
                | (None, w) => (Some (inr (set_EnrollmentEnabled true hw)), w)
                end
            end
      end
  end.

(** ** Serving an action

    [doGetAction] calls [enroll], which calls [doGetAction] again with the auto
    capabilities off; that second call does not enroll. [doGetAction_with] is
    the body of [doGetAction] with [enroll] as an argument. *)

(** Serve from the workflows of the agent. *)
Definition serve (agentID : string) (attrs : option AgentAttributes) (hwRef : option Hardware)
    (wfs : list Workflow) (w : W) : option (res ActionResponse) * W :=
  match find_workflow wfs with
  | inl err => (Some (inl err), w)
  | inr None => (Some (inl (ErrGrpc NotFound "no Tasks found in Workflow")), w)
  | inr (Some wf) =>
      let '(first, task) := select_task (st_Tasks (wf_Status wf)) in
      let w :=
        if first
        then resolveAndAnnotateHardware hwRef (spec_HardwareRef (wf_Spec wf)) (wf_Namespace wf) attrs w
        else w in
      match select_action agentID task (st_CurrentState (wf_Status wf)) with
      | inl err => (Some (inl err), w)
      | inr (task, action) =>
          let wf := upd_Status (set_CurrentState (Some (serving_state agentID task action))) wf in
          match b_UpdateWorkflowStatus wf w with
          | (Some err, w) =>
              (Some (inl (ErrJoin ErrBackendWrite
                            (ErrGrpc Internal ("error writing current state: " +:+ error_msg err)))), w)
          | (None, w) => (Some (inr (response agentID wf task action)), w)
          end
      end
  end.

Definition doGetAction_with
    (enroll : string → option AgentAttributes → option Hardware → W → option (res ActionResponse) * W)
    (auto : AutoConfig) (req : ActionRequest) (w : W) : option (res ActionResponse) * W :=
  let '(done, w) := b_Done w in
  if (done : bool) then (Some (inl (ErrGrpc Unavailable "server shutting down")), w)
  else if decide (areq_AgentId req = "") then (Some (inl (ErrGrpc InvalidArgument "invalid Agent ID")), w)
  else
    let attrs := convert (areq_AgentAttributes req) in
    let '(found, w) :=
      if auto_Discovery auto then
        match Discover auto (areq_AgentId req) attrs w with
        | (None, w) => (None, w)
        | (Some (inl _), w) => (Some None, w)
        | (Some (inr hw), w) => (Some (Some hw), w)
        end
      else (Some None, w) in
    match found with
    | None => (None, w)
    | Some hwRef =>
        match b_ListWorkflows (mkWorkflowFilter "" (areq_AgentId req)) w with
        | (inl err, w) =>
            (Some (inl (ErrJoin ErrBackendRead (ErrGrpc Internal ("error getting workflows: " +:+ error_msg err)))), w)
        | (inr [], w) =>
            if auto_Enrollment auto then
              let '(hwRef, w) :=
                if auto_Discovery auto then (hwRef, w)
                else
                  match hardware auto (areq_AgentId req) w with
                  | (inr hw, w) => (Some hw, w)
                  | (inl _, w) => (hwRef, w)
                  end in
              enroll (areq_AgentId req) attrs hwRef w
            else (Some (inl (ErrGrpc NotFound "no Workflows found")), w)
        | (inr wfs, w) => serve (areq_AgentId req) attrs hwRef wfs w
        end
    end.

(** The call with auto capabilities off never reaches enrollment, whatever is
    passed for it. *)
Definition doGetAction_noauto (auto : AutoConfig) : ActionRequest → W → option (res ActionResponse) * W :=
  doGetAction_with (λ _ _ _ w, (None, w)) (no_auto auto).

Definition getActionNoAuto (auto : AutoConfig) (req : ActionRequest) : W → option (res ActionResponse) * W :=
  backoff_Retry (doGetAction_noauto auto req).

(** ** Enrollment *)

Definition workflowPrefix : string := "enrollment-".

Record match_t := mkmatch { m_wrs : option WorkflowRuleSet; numMatches : nat }.

Fixpoint add_rules (idx : nat) (rules : list string) : option error :=
  match rules with
  | [] => None
  | r :: rules' =>
      match quamina_AddPattern r with
      | Some err =>
          Some (ErrWrap ("error adding Workflow matching pattern: pattern-" +:+ Itoa (Z.of_nat idx) +:+ " err: ") err)
      | None => add_rules (S idx) rules'
      end
  end.

Definition findMatch (wr : WorkflowRuleSet) (attr : option AgentAttributes) (curMatches : nat)
    : res (option match_t) :=
  match add_rules 0 (rs_Rules (wrs_Spec wr)) with
  | Some err => inl err
  | None =>
      let event :=
        match attr with
        | None => inr None
        | Some a =>
            match marshal_attrs a with
            | inl err => inl (ErrWrap "error marshalling attributes to json: " err)
            | inr j => inr (Some j)
            end
        end in
      match event with
      | inl err => inl err
      | inr event =>
          match quamina_matches (rs_Rules (wrs_Spec wr)) event with
          | inl err => inl (ErrWrap "error matching pattern: " err)
          | inr n => if decide (curMatches < n) then inr (Some (mkmatch (Some wr) n)) else inr None
          end
      end
  end.

(** The loop over the rule sets; a rule set in error is skipped. *)
Fixpoint best_match (wrs : list WorkflowRuleSet) (attr : option AgentAttributes) (final : match_t) : match_t :=
  match wrs with
  | [] => final
  | wr :: wrs' =>
      let final :=
        match findMatch wr attr (numMatches final) with
        | inr (Some m) => m
        | _ => final
        end in
      best_match wrs' attr final
  end.

(** The workflow created for a match. [json.Marshal] of nil attributes is
    [null]. *)
Definition enrollment_workflow (name agentID : string) (attr : option AgentAttributes)
    (hw : option Hardware) (wr : WorkflowRuleSet) : Workflow :=
  let r := rs_Workflow (wrs_Spec wr) in
  let annotations :=
    if rw_AddAttributes r then
      match match attr with Some a => marshal_attrs a | None => inr "null" end with
      | inr a => {[ AttributesAnnotation := a ]}
      | inl _ => ∅
      end
    else ∅ in
  mkWorkflow
    (mkObjectMeta "" "" name (rw_Namespace r) "" {[ "tinkerbell.org/auto-enrollment" := "true" ]} annotations
       [mkOwnerReference (om_APIVersion (wrs_Meta wr)) (om_Kind (wrs_Meta wr)) (om_Name (wrs_Meta wr))
          (om_UID (wrs_Meta wr)) None] None)
    (mkWorkflowSpec (rw_Disabled r) (tc_Ref (rw_Template r))
       (match hw with Some h => hw_Name h | None => "" end)
       (tc_KVs (rw_Template r) ∪ {[ tc_AgentValue (rw_Template r) := agentID ]}) zero_BootOptions)
    zero_WorkflowStatus.

Definition enroll (auto : AutoConfig) (agentID : string) (attr : option AgentAttributes)
    (hw : option Hardware) (w : W) : option (res ActionResponse) * W :=
  if match hw with Some h => negb (auto_EnrollmentEnabled (hs_Auto (hw_Spec h))) | None => false end
  then (Some (inl (ErrGrpc FailedPrecondition "auto enrollment is disabled for this hardware")), w)
  else
    match b_ListWorkflowRuleSets (mkWorkflowFilter "" "") w with
    | (inl err, w) =>
        (Some (inl (ErrJoin ErrBackendRead
                      (ErrGrpc Internal ("error getting workflow rules: " +:+ error_msg err)))), w)
    | (inr wrs, w) =>
        match makeValidName agentID workflowPrefix with
        | inl err =>
            (Some (inl (ErrGrpc Internal ("error making agentID a valid Kubernetes name: " +:+ error_msg err))), w)
        | inr name =>
            match best_match wrs attr (mkmatch None 0) with
            | mkmatch (Some wr) (S _) =>
                match b_CreateWorkflow (enrollment_workflow name agentID attr hw wr) w with
                | (Some err, w) =>
                    if IsAlreadyExists err
                    then (Some (inl (ErrGrpc FailedPrecondition "existing workflow found")), w)
                    else (Some (inl (ErrJoin ErrBackendWrite
                                       (ErrGrpc Internal ("error creating enrollment workflow: " +:+ error_msg err)))), w)
                | (None, w) => getActionNoAuto auto (mkActionRequest agentID None) w
                end
            | _ =>
                (Some (inl (ErrGrpc NotFound ("no Workflow Rule Sets found or matched for Agent " +:+ agentID))), w)
            end
        end
    end.

Definition doGetAction (auto : AutoConfig) : ActionRequest → W → option (res ActionResponse) * W :=
  doGetAction_with (enroll auto) auto.

Definition GetAction (auto : AutoConfig) (req : ActionRequest) : W → option (res ActionResponse) * W :=
  backoff_Retry (doGetAction auto req).
End handlers.
