(* ===== verification/Service.v ===== *)
(** * Correctness of the workflow service

    What an agent is served, what a report changes, what discovery and
    enrollment write. Statements hold for every backend; those about retried
    calls assume of [backoff.Retry] only that a success it returns is a success
    of the operation. *)
From S2P Require Import Prelude GoStrings GoNet BmcTypes Api Attributes ServerNames Server.

(** ** Recording writes *)

Inductive swrite :=
| SUpdateStatus (wf : Workflow)
| SPatchHardware (hw original : Hardware)
| SCreateHardware (hw : Hardware)
| SCreateWorkflow (wf : Workflow).

Abbreviation sentry := (swrite * option error)%type.

Section logged.
Context {W : Type} (BE : Backend W).

Definition sread {A} (f : W → A * W) (wl : W * list sentry) : A * (W * list sentry) :=
  let '(a, w) := f wl.1 in (a, (w, wl.2)).

Definition swrite_log (e : swrite) (f : W → option error * W) (wl : W * list sentry)
    : option error * (W * list sentry) :=
  let '(a, w) := f wl.1 in (a, (w, wl.2 ++ [(e, a)])).

Definition slogged : Backend (W * list sentry) := {|
  b_Done := sread b_Done;
  b_ListWorkflows f := sread (b_ListWorkflows f);
  b_ReadWorkflow n ns := sread (b_ReadWorkflow n ns);
  b_UpdateWorkflowStatus wf := swrite_log (SUpdateStatus wf) (b_UpdateWorkflowStatus wf);
  b_ReadHardware n ns := sread (b_ReadHardware n ns);
  b_FilterHardware f := sread (b_FilterHardware f);
  b_PatchHardware h o := swrite_log (SPatchHardware h o) (b_PatchHardware h o);
  b_CreateHardware h := swrite_log (SCreateHardware h) (b_CreateHardware h);
  b_ListWorkflowRuleSets f := sread (b_ListWorkflowRuleSets f);
  b_CreateWorkflow wf := swrite_log (SCreateWorkflow wf) (b_CreateWorkflow wf);
|}.
End logged.

(** Follow an equation on a call through every [match] and [let] of its body. *)
Ltac open_matches :=
  repeat match goal with
         | H : (let '(_, _) := ?x in _) = _ |- _ => destruct x as [? ?] eqn:?
         | H : (match ?x with _ => _ end) = _ |- _ => destruct x eqn:?; try discriminate
         end.

(** ** Serving *)

(** What [backoff.Retry] promises: the result of a success is that of the
    operation's last run. *)
Definition retry_sound {W} (SE : ServerEnv W) : Prop :=
  ∀ A (op : W → option (res A) * W) w a w',
    backoff_Retry op w = (Some (inr a), w') → ∃ w0, op w0 = (Some (inr a), w').

Lemma find_workflow_Some wfs wf :
  find_workflow wfs = inr (Some wf) →
  wf ∈ wfs ∧ st_Tasks (wf_Status wf) ≠ [] ∧
  (st_State (wf_Status wf) = WorkflowStatePending ∨ st_State (wf_Status wf) = WorkflowStateRunning).
Proof.
  induction wfs as [|w wfs IH]; [done|]. cbn [find_workflow].
  destruct (st_Tasks (wf_Status w)) eqn:Et; [intros (? & ?)%IH; set_solver|].
  case_decide; [done|]. case_decide as Hs; [done|]. intros [= <-]. split_and!; [set_solver|congruence|].
  destruct (decide (st_State (wf_Status w) = WorkflowStatePending)); [auto|].
  destruct (decide (st_State (wf_Status w) = WorkflowStateRunning)); [auto|]. naive_solver.
Qed.

Lemma select_task_elem tasks b t : select_task tasks = (b, Some t) → t ∈ tasks.
Proof.
  unfold select_task. destruct tasks as [|t0 tasks]; [done|]. case_match; [intros [= <- <-]; set_solver|].
  destruct (list_find _ _) as [[i t']|] eqn:E; [|done]. simpl. intros [= <- <-].
  apply list_find_Some in E as (E & _). by eapply list_elem_of_lookup_2.
Qed.

Lemma resolveAction_elem t cs a : resolveAction t cs = inr a → a ∈ task_Actions t.
Proof.
  unfold resolveAction. destruct (isFirstAction t).
  { destruct (task_Actions t); [done|]. intros [= <-]. set_solver. }
  destruct cs as [cs|]; [|done]. repeat case_decide; try done.
  - destruct (list_find _ _) as [[i a']|] eqn:E; [|done]. intros [= <-].
    apply list_find_Some in E as (E & _). by eapply list_elem_of_lookup_2.
  - destruct (list_find _ _) as [[i a']|]; [|done].
    destruct (task_Actions t !! S i) eqn:E; [|done]. intros [= <-]. by eapply list_elem_of_lookup_2.
Qed.

Lemma select_action_inv agentID task cs t a :
  select_action agentID task cs = inr (t, a) →
  task = Some t ∧ a ∈ task_Actions t ∧ task_AgentID t = agentID ∧ resolveAction t cs = inr a.
Proof.
  unfold select_action. destruct task as [t'|]; [|done]. destruct (task_Actions t') eqn:Et; [done|].
  destruct (resolveAction t' cs) as [|a'] eqn:Er; [done|]. case_decide; [done|]. intros [= <- <-].
  split_and!; [done| |naive_solver|done]. by eapply resolveAction_elem.
Qed.

Section serving.
Context `{BE : Backend W} {SE : ServerEnv W}.

(** [r] is an action of a servable workflow the backend listed for [agentID],
    in a task of [agentID], and the backend accepted the status that records
    it as current. *)
Definition served (agentID : string) (r : ActionResponse) : Prop :=
  ∃ w1 wfs w2 wf task action w3 w4,
    b_ListWorkflows (mkWorkflowFilter "" agentID) w1 = (inr wfs, w2) ∧ wf ∈ wfs ∧
    (st_State (wf_Status wf) = WorkflowStatePending ∨ st_State (wf_Status wf) = WorkflowStateRunning) ∧
    task ∈ st_Tasks (wf_Status wf) ∧ task_AgentID task = agentID ∧ action ∈ task_Actions task ∧
    resolveAction task (st_CurrentState (wf_Status wf)) = inr action ∧
    b_UpdateWorkflowStatus
      (upd_Status (set_CurrentState (Some (serving_state agentID task action))) wf) w3 = (None, w4) ∧
    r = response agentID wf task action.

Lemma serve_served agentID attrs hwRef w1 wfs w2 w r w' :
  b_ListWorkflows (mkWorkflowFilter "" agentID) w1 = (inr wfs, w2) →
  serve agentID attrs hwRef wfs w = (Some (inr r), w') → served agentID r.
Proof.
  intros Hl. unfold serve. destruct (find_workflow wfs) as [|[wf|]] eqn:Ef; [done| |done].
  apply find_workflow_Some in Ef as (Hin & _ & Hs).
  destruct (select_task _) as [first task] eqn:Et. destruct (select_action _ _ _) as [|[t a]] eqn:Ea; [done|].
  destruct (b_UpdateWorkflowStatus _ _) as [[err|] w4] eqn:Eu; [done|]. intros [= <- <-].
  apply select_action_inv in Ea as (-> & Ha & Hag & Hr). apply select_task_elem in Et.
  unfold served. eauto 20.
Qed.

Lemma doGetAction_with_served en auto req w r w' :
  (∀ attrs hw w w', en (areq_AgentId req) attrs hw w = (Some (inr r), w') → auto_Enrollment auto = true →
     served (areq_AgentId req) r) →
  doGetAction_with en auto req w = (Some (inr r), w') → served (areq_AgentId req) r.
Proof.
  intros Hen. unfold doGetAction_with. intros H. open_matches; eauto using serve_served.
Qed.

(** A served enrollment was served by the call with auto capabilities off. *)
Lemma enroll_served auto agentID attrs hw w r w' :
  enroll auto agentID attrs hw w = (Some (inr r), w') →
  ∃ w0, getActionNoAuto auto (mkActionRequest agentID None) w0 = (Some (inr r), w').
Proof. unfold enroll. intros H. open_matches; eauto. Qed.

(** C3: an agent is only ever served its own work. Every action [GetAction]
    returns, also after discovery, enrollment and retries, comes from a PENDING
    or RUNNING workflow that the backend lists for the requesting agent, from a
    task assigned to that agent, and is the action [resolveAction] designates;
    the backend has accepted the status that records it as the current one, and
    the response describes exactly it. *)
Theorem GetAction_served auto req w r w' :
  retry_sound SE →
  GetAction auto req w = (Some (inr r), w') → served (areq_AgentId req) r.
Proof.
  intros HR H. unfold GetAction in H. apply HR in H as (w0 & H).
  revert H. apply doGetAction_with_served. intros attrs hw w1 w1' He _.
  apply enroll_served in He as (w2 & He). unfold getActionNoAuto in He. apply HR in He as (w3 & He).
  revert He. by apply (doGetAction_with_served _ _ (mkActionRequest (areq_AgentId req) None)).
Qed.
End serving.

(** ** Reporting *)

(** The action at position [j] of the task at position [i]. *)
Definition action_at (tasks : list Task) (i j : nat) : option Action :=
  t ← tasks !! i; task_Actions t !! j.

(** The report of [req] concerns the action at [ti], [ai]: the first one with
    the reported ID in a task of the reporting agent. *)
Definition concerns (req : ActionStatusRequest) (tasks : list Task) (ti ai : nat) (t : Task) (a : Action) : Prop :=
  tasks !! ti = Some t ∧ task_AgentID t = sr_AgentId req ∧
  list_find (λ a, act_ID a = sr_ActionId req) (task_Actions t) = Some (ai, a) ∧
  ∀ i t', i < ti → tasks !! i = Some t' → reported req t' = None.

Lemma find_reported_Some req tasks ti t ai a :
  find_reported req tasks = Some (ti, t, ai, a) → concerns req tasks ti ai t a.
Proof.
  revert ti. induction tasks as [|t0 tasks IH]; intros ti; simpl; [done|].
  destruct (reported req t0) as [[ai' a']|] eqn:E.
  - intros [= <- <- <- <-]. unfold reported in E. case_decide; [|done].
    split_and!; [done..|]. intros i t' Hi. lia.
  - destruct (find_reported req tasks) as [[[[ti' t'] ai'] a']|]; [|done]. intros [= <- <- <- <-].
    destruct (IH ti' eq_refl) as (H1 & H2 & H3 & H4). split_and!; [done..|].
    intros [|i] u Hi Hu; simplify_eq/=; [done|]. eapply H4; [|done]. lia.
Qed.

Lemma find_reported_None req tasks :
  find_reported req tasks = None → ∀ t, t ∈ tasks → reported req t = None.
Proof.
  induction tasks as [|t0 tasks IH]; simpl; [set_solver|].
  destruct (reported req t0) as [[]|] eqn:E; [done|].
  destruct (find_reported req tasks) as [[[[]]]|]; [done|]. intros _ t [->|Ht]%elem_of_cons; auto.
Qed.

Lemma concerns_find req tasks ti ai t a :
  concerns req tasks ti ai t a → find_reported req tasks = Some (ti, t, ai, a).
Proof.
  revert ti. induction tasks as [|t0 tasks IH]; intros ti (H1 & H2 & H3 & H4); [done|]. cbn [find_reported].
  destruct ti as [|ti]; simplify_eq/=.
  - unfold reported. by rewrite decide_True, H3.
  - rewrite (H4 0 t0) by (done || lia).
    rewrite (IH ti); [done|]. split_and!; [done..|]. intros i t' Hi Ht. eapply (H4 (S i)); [lia|done].
Qed.

Lemma report_status_tasks req ti t ai a st :
  st_Tasks (report_status req ti t ai a st) =
    <[ti := set_Actions (<[ai := set_report req a]> (task_Actions t)) t]> (st_Tasks st).
Proof. unfold report_status. by repeat case_decide. Qed.

Lemma report_status_CurrentState req ti t ai a st :
  st_CurrentState (report_status req ti t ai a st) =
    Some (mkCurrentState (sr_AgentId req) (sr_TaskId req) (sr_ActionId req)
            (StateType_String (sr_ActionState req)) (sr_ActionName req) (task_Name t)).
Proof. done. Qed.

Lemma report_status_State req ti t ai a st :
  st_State (report_status req ti t ai a st) =
    if decide (sr_ActionState req ≠ ST_SUCCESS) then StateType_String (sr_ActionState req)
    else if decide (length (st_Tasks st) = ti + 1 ∧ length (task_Actions t) = ai + 1)
    then WorkflowStatePost else st_State st.
Proof. unfold report_status. repeat case_decide; simpl; naive_solver. Qed.


Section reporting.
Context {W : Type} (BE : Backend W) {SE : ServerEnv (W * list sentry)}.
Existing Instance slogged.

(** A report is recorded exactly or refused. A report that names a workflow,
    a task and an action reads the workflow of that ID once; if it holds an
    action with the reported ID in a task of the reporting agent, exactly one
    status is written, the effect of the report on what was read, and the report
    succeeds if and only if that write does; otherwise nothing is written and an
    error is returned. *)
Theorem doReportActionStatus_writes req w l :
  ∃ r w' es,
    doReportActionStatus req (w, l) = (Some r, (w', l ++ es)) ∧
    ((es = [] ∧ ∃ e, r = inl e) ∨
     ∃ wf w1 ti t ai a ans,
       let '(ns, name, _) := Cut (sr_WorkflowId req) "/"%char in
       b_ReadWorkflow name ns w = (inr wf, w1) ∧
       concerns req (st_Tasks (wf_Status wf)) ti ai t a ∧
       es = [(SUpdateStatus (upd_Status (report_status req ti t ai a) wf), ans)] ∧
       (r = inr tt ↔ ans = None)).
Proof.
  assert (∀ e : error, ∃ r w' es, (Some (inl e : res unit), (w, l)) = (Some r, (w', l ++ es)) ∧ es = [] ∧ ∃ e, r = inl e) as Hnil.
  { intros e. eexists _, _, []. rewrite app_nil_r. eauto. }
  unfold doReportActionStatus.
  case_decide; [destruct (Hnil (ErrGrpc InvalidArgument "invalid workflow id")) as (r & w' & es & ? & H'); exists r, w', es; tauto|].
  case_decide; [destruct (Hnil (ErrGrpc InvalidArgument "invalid task name")) as (r & w' & es & ? & H'); exists r, w', es; tauto|].
  case_decide; [destruct (Hnil (ErrGrpc InvalidArgument "invalid action name")) as (r & w' & es & ? & H'); exists r, w', es; tauto|].
  destruct (Cut _ _) as [[ns name] f]. simpl. unfold sread; simpl.
  destruct (b_ReadWorkflow name ns w) as [[err|wf] w1] eqn:Er.
  { eexists _, _, []. rewrite app_nil_r. split; [done|]. eauto. }
  destruct (find_reported _ _) as [[[[ti t] ai] a]|] eqn:Ef; last first.
  { eexists _, _, []. rewrite app_nil_r. split; [done|]. eauto. }
  apply find_reported_Some in Ef. unfold swrite_log; simpl.
  destruct (b_UpdateWorkflowStatus _ _) as [ans w2].
  destruct ans; eexists _, _, [_]; (split; [done|]); right; eexists _, _, _, _, _, _, _; split_and!; try done.
Qed.
End reporting.

(** ** Hardware annotations and discovery *)

Section hardware_writes.
Context {W : Type} (BE : Backend W) {SE : ServerEnv (W * list sentry)}.
Existing Instance slogged.

(** Serving the first action writes the hardware at most once, and only to
    add the attributes annotation: the hardware had none, or an empty one, and
    the annotation is the encoded attributes, of at most 64 KiB. *)
Theorem resolveAndAnnotateHardware_writes hwRef href ns attrs w l :
  ∃ w' es, resolveAndAnnotateHardware hwRef href ns attrs (w, l) = (w', l ++ es) ∧
    (es = [] ∨ ∃ hw a at_ ans, attrs = Some at_ ∧ marshal_attrs at_ = inr a ∧
       (Z.of_nat (strlen a) ≤ 65536)%Z ∧
       default "" (om_Annotations (hw_Meta hw) !! AttributesAnnotation) = "" ∧
       es = [(SPatchHardware (set_Annotation AttributesAnnotation a hw) hw, ans)]).
Proof.
  unfold resolveAndAnnotateHardware. destruct attrs as [at_|]; [|exists w, []; rewrite app_nil_r; auto].
  set (look := match hwRef with Some _ => _ | None => _ end).
  assert (∃ o w1, look = (o, (w1, l))) as (o & w1 & ->).
  { unfold look. clear look. destruct hwRef as [hw|]; [eauto|]. case_decide; [|eauto]. simpl. unfold sread; simpl.
    destruct (b_ReadHardware _ _ _) as [[e|hw] w2]; [by exists None, w2|by exists (Some hw), w2]. }
  destruct o as [hw|]; [|exists w1, []; rewrite app_nil_r; auto].
  unfold updateHardwareWithAttributes. case_decide as Ha; [exists w1, []; rewrite app_nil_r; auto|].
  destruct (marshal_attrs at_) as [|a] eqn:Em; [exists w1, []; rewrite app_nil_r; auto|].
  case_decide as Hs; [exists w1, []; rewrite app_nil_r; auto|]. simpl. unfold swrite_log; simpl.
  destruct (b_PatchHardware _ _ _) as [ans w2].
  exists w2, [(SPatchHardware (set_Annotation AttributesAnnotation a hw) hw, ans)].
  split; [by destruct ans|]. right. exists hw, a, at_, ans. unfold maxAnnotationSize in Hs.
  split_and!; done || lia.
Qed.

Lemma discovered_disks_None bs :
  discovered_disks bs = None ↔ Exists (λ d, disk_wanted d = true ∧ blk_Name d = None) bs.
Proof.
  induction bs as [|d bs IH]; simpl; [by rewrite Exists_nil|]. rewrite Exists_cons.
  destruct (disk_wanted d) eqn:Hw; [|rewrite IH; naive_solver].
  destruct (blk_Name d) as [n|] eqn:Hn; simpl; [|naive_solver].
  destruct (discovered_disks bs); simpl; naive_solver.
Qed.

(** What discovery needs of the attributes: interfaces with the address of a
    network card as Go prints it, and named disks. *)
Definition well_formed_attributes (attrs : AgentAttributes) : Prop :=
  Forall (λ n, ∃ os, Forall octet os ∧ (length os = 6 ∨ length os = 8 ∨ length os = 20) ∧
    nic_Mac n = Some (HardwareAddr_String os)) (attr_NetworkInterfaces attrs) ∧
  Forall (λ d, disk_wanted d → is_Some (blk_Name d)) (attr_BlockDevices attrs).

Lemma discovered_disks_named bs :
  Forall (λ d, disk_wanted d → is_Some (blk_Name d)) bs →
  discovered_disks bs = Some ((λ d, mkDisk ("/dev/" +:+ default "" (blk_Name d))) <$> filter disk_wanted bs).
Proof.
  induction 1 as [|d bs Hd _ IH]; [done|]. cbn [discovered_disks]. rewrite filter_cons.
  destruct (disk_wanted d) eqn:Ew.
  - destruct (Hd ltac:(done)) as [name Hn]. rewrite IH, Hn, decide_True by done. csimpl. by rewrite Hn.
  - rewrite IH, decide_False; [done|naive_solver].
Qed.

Lemma HardwareAddr_String_nonempty os :
  Forall octet os → length os = 6 ∨ length os = 8 ∨ length os = 20 → HardwareAddr_String os ≠ "".
Proof.
  intros Ho Hl E. pose proof (ParseMAC_String os Ho Hl) as H. rewrite E in H. by vm_compute in H.
Qed.

(** Discovery keeps what the agent found. Of well-formed attributes every
    network card becomes an interface with its MAC address and every disk with a
    size a device, in their order, after what the Hardware had; nothing else of
    the Hardware changes, and nothing panics. *)
Theorem updateHardware_discovers hw attrs :
  well_formed_attributes attrs →
  ∃ hw', updateHardware hw (Some attrs) = Some hw' ∧ hw_Meta hw' = hw_Meta hw ∧
    hs_AgentID (hw_Spec hw') = hs_AgentID (hw_Spec hw) ∧ hs_Auto (hw_Spec hw') = hs_Auto (hw_Spec hw) ∧
    ((λ i, d ← if_DHCP i; Some (dhcp_MAC d)) <$> hs_Interfaces (hw_Spec hw')) =
      ((λ i, d ← if_DHCP i; Some (dhcp_MAC d)) <$> hs_Interfaces (hw_Spec hw)) ++
        (nic_Mac <$> attr_NetworkInterfaces attrs) ∧
    hs_Disks (hw_Spec hw') = hs_Disks (hw_Spec hw) ++
      ((λ d, mkDisk ("/dev/" +:+ default "" (blk_Name d))) <$> filter disk_wanted (attr_BlockDevices attrs)).
Proof.
  intros [Hn Hd]. unfold updateHardware. rewrite (discovered_disks_named _ Hd). csimpl.
  eexists. split; [done|]. simpl. split_and!; [done..| |done]. rewrite fmap_app. f_equal.
  induction Hn as [|n ns (os & Ho & Hl & Hm) _ IH]; [done|]. csimpl.
  assert (discovered_interface n =
    Some (mkInterface None None (Some (mkDHCP (HardwareAddr_String os) "" "" 0 [] [] "" false "" None "" [] "" "")) false)) as ->.
  { unfold discovered_interface. rewrite Hm, decide_False, ParseMAC_String by (done || by apply HardwareAddr_String_nonempty).
    done. }
  csimpl. by rewrite IH, Hm.
Qed.

(** Discovery creates at most one hardware object and changes none. It
    creates one only after the lookup by agent ID answered that there is none,
    and then with a valid name, in the configured namespace, bound to the agent
    and with the configured enrollment flag. It panics exactly when it gets
    there with attributes that hold a disk with a size and no name. *)
Theorem Discover_writes auto agentID attrs w l :
  ∃ r w' es, Discover auto agentID attrs (w, l) = (r, (w', l ++ es)) ∧
    (es ≠ [] ∨ r = None →
       ∃ err w1, b_FilterHardware (by_agent agentID "") w = (inl err, w1) ∧
         hardwareNotFound err = true ∧ foundMultipleHardware err = false) ∧
    (r = None → es = [] ∧ ∃ at_ d, attrs = Some at_ ∧ d ∈ attr_BlockDevices at_ ∧
       default "" (blk_Size d) ≠ "" ∧ blk_Name d = None) ∧
    (es = [] ∨ ∃ hw ans, es = [(SCreateHardware hw, ans)] ∧ valid_label (hw_Name hw) ∧
       hw_Namespace hw = auto_Namespace auto ∧ hs_AgentID (hw_Spec hw) = agentID ∧
       auto_EnrollmentEnabled (hs_Auto (hw_Spec hw)) = auto_DiscoveryEnrollment auto).
Proof.
  unfold Discover.
  destruct (makeValidName agentID discoveryPrefix) as [e|hwName] eqn:En.
  { eexists _, _, []. rewrite app_nil_r. split; [done|]. naive_solver. }
  simpl. unfold sread; simpl. destruct (b_FilterHardware _ w) as [[err|hw0] w1] eqn:Ef; last first.
  { eexists _, _, []. rewrite app_nil_r. split; [done|]. naive_solver. }
  destruct (foundMultipleHardware err) eqn:Em.
  { eexists _, _, []. rewrite app_nil_r. split; [done|]. naive_solver. }
  destruct (hardwareNotFound err) eqn:Enf; simpl; last first.
  { eexists _, _, []. rewrite app_nil_r. split; [done|]. naive_solver. }
  destruct (updateHardware _ attrs) as [hw|] eqn:Eu; last first.
  { eexists _, _, []. rewrite app_nil_r. split; [done|]. split; [naive_solver|]. split; [|by left].
    intros _. split; [done|]. unfold updateHardware in Eu. destruct attrs as [at_|]; [|done].
    destruct (discovered_disks _) eqn:Ed; [done|]. apply discovered_disks_None, Exists_exists in Ed as (d & Hd & Hw & Hn).
    exists at_, d. split_and!; [done..|by apply bool_decide_eq_true in Hw|done]. }
  assert (hw_Meta hw = hw_Meta (discovered auto hwName agentID attrs) ∧
    hs_AgentID (hw_Spec hw) = agentID ∧
    auto_EnrollmentEnabled (hs_Auto (hw_Spec hw)) = auto_DiscoveryEnrollment auto) as (Hmeta & Hid & Hen).
  { assert (hs_AgentID (hw_Spec (discovered auto hwName agentID attrs)) = agentID ∧
      auto_EnrollmentEnabled (hs_Auto (hw_Spec (discovered auto hwName agentID attrs)))
        = auto_DiscoveryEnrollment auto) as [H1 H2]
      by (unfold discovered; by repeat (case_match || case_decide)).
    unfold updateHardware in Eu. destruct attrs as [at_|]; [|by simplify_eq].
    destruct (discovered_disks _); simplify_eq/=. done. }
  assert (hw_Name hw = hwName ∧ hw_Namespace hw = auto_Namespace auto) as [Hname Hns].
  { unfold hw_Name, hw_Namespace. rewrite Hmeta. unfold discovered. by repeat (case_match || case_decide). }
  unfold swrite_log; simpl. destruct (b_CreateHardware hw w1) as [ans w2].
  destruct ans; eexists _, _, [_]; (split; [done|]); (split; [naive_solver|]); (split; [done|]);
    right; eexists _, _; split_and!; try done; rewrite Hname; by eapply makeValidName_label.
Qed.
End hardware_writes.

(** ** Enrollment *)

Section enrollment.
Context `{BE : Backend W} {SE : ServerEnv W}.

(** The number of rules of [wr] that match, 0 when it cannot be evaluated. *)
Definition score (attr : option AgentAttributes) (wr : WorkflowRuleSet) : nat :=
  match findMatch wr attr 0 with
  | inr (Some m) => numMatches m
  | _ => 0
  end.

Lemma findMatch_score wr attr cur final :
  numMatches final = cur →
  match findMatch wr attr cur with inr (Some m) => m | _ => final end =
    if decide (cur < score attr wr) then mkmatch (Some wr) (score attr wr) else final.
Proof.
  intros Hc. unfold score, findMatch. repeat case_match; simplify_eq; try (by rewrite decide_False by (simpl; lia)).
  all: repeat case_decide; simplify_eq/=; done || lia.
Qed.

(** Enrollment uses the best rule set. Among the rule sets that can be
    evaluated, the chosen one has the most matching rules, and is the first of
    the list with that many; none is chosen when no rule matches anywhere. *)
Theorem best_match_max wrs attr :
  let m := best_match wrs attr (mkmatch None 0) in
  (∀ wr, wr ∈ wrs → score attr wr ≤ numMatches m) ∧
  match m_wrs m with
  | None => numMatches m = 0
  | Some wr => 0 < numMatches m ∧ score attr wr = numMatches m ∧
      ∃ i, wrs !! i = Some wr ∧ ∀ j wr', j < i → wrs !! j = Some wr' → score attr wr' < numMatches m
  end.
Proof.
  assert (∀ m0, let m := best_match wrs attr m0 in
    numMatches m0 ≤ numMatches m ∧ (∀ wr, wr ∈ wrs → score attr wr ≤ numMatches m) ∧
    (m = m0 ∨ numMatches m0 < numMatches m ∧ ∃ wr i, m = mkmatch (Some wr) (score attr wr) ∧
       wrs !! i = Some wr ∧ ∀ j wr', j < i → wrs !! j = Some wr' → score attr wr' < score attr wr)) as H.
  { induction wrs as [|wr wrs IH]; intros m0; cbn [best_match].
    { split_and!; [done|set_solver|by left]. }
    rewrite (findMatch_score wr attr _ m0 eq_refl). case_decide as Hd.
    - specialize (IH (mkmatch (Some wr) (score attr wr))). cbv zeta in *.
      set (m := best_match wrs attr _) in *. simpl in IH. destruct IH as (H1 & H2 & H3). split_and!.
      + lia.
      + intros wr' [->|Hin]%elem_of_cons; [lia|auto].
      + right. split; [lia|]. destruct H3 as [->|(Hlt & wr' & i & -> & Hi & Hmin)].
        * exists wr, 0. split_and!; [done..|]. intros j; lia.
        * simpl in *. exists wr', (S i). split_and!; [done..|]. intros [|j] wr2 Hj Hw; simplify_eq/=; [lia|].
          eapply Hmin; [|done]. lia.
    - specialize (IH m0). cbv zeta in *. set (m := best_match wrs attr _) in *.
      destruct IH as (H1 & H2 & H3). split_and!; [done| |].
      + intros wr' [->|Hin]%elem_of_cons; [lia|auto].
      + destruct H3 as [->|(Hlt & wr' & i & -> & Hi & Hmin)]; [by left|]. right. split; [done|].
        exists wr', (S i). split_and!; [done..|]. simpl in *.
        intros [|j] wr2 Hj Hw; simplify_eq/=; [lia|]. eapply Hmin; [|done]. lia. }
  specialize (H (mkmatch None 0)). cbv zeta in *. set (m := best_match _ _ _) in *.
  destruct H as (_ & H2 & [->|(Hlt & wr & i & -> & Hi & Hmin)]); (split; [done|]); [done|].
  simpl in *. eauto.
Qed.

(** Hardware that does not allow enrollment is left alone: nothing is read
    or written, and the agent is told why. *)
Theorem enroll_disabled auto agentID attr hw w :
  auto_EnrollmentEnabled (hs_Auto (hw_Spec hw)) = false →
  enroll auto agentID attr (Some hw) w =
    (Some (inl (ErrGrpc FailedPrecondition "auto enrollment is disabled for this hardware")), w).
Proof. intros H. unfold enroll. by rewrite H. Qed.
End enrollment.
