(* ===== verification/Agent.v ===== *)
(** * The agent

    tink/agent: the read-execute-report loop (agent.go), the action and event
    types (internal/spec/spec.go), the gRPC transport (internal/transport/grpc)
    and the container names and environments (internal/pkg/conv). The
    transports, the container runtime, the clock and the backoff are the
    environment [AgentEnv]; the other transports and the runtimes have files of
    their own. *)
From S2P Require Import Prelude GoStrings GoNet BmcTypes Api Attributes ServerNames Server.

(** ** spec.go *)

Record Env := mkEnv { env_Key : string; env_Value : string }.

Record Namespaces := mkNamespaces { nsp_Network : string; nsp_PID : string }.

Record spec_Action := mkspec_Action {
  sa_AgentID : string;
  sa_TaskID : string;
  sa_WorkflowID : string;
  sa_ID : string;
  sa_Name : string;
  sa_Image : string;
  sa_Cmd : string;
  sa_Args : list string;
  sa_Env : list Env;
  sa_Volumes : list string;
  sa_Namespaces : Namespaces;
  sa_Retries : Z;
  sa_TimeoutSeconds : Z;
  sa_ExecutionStart : Z;
  sa_ExecutionStop : Z;
  sa_ExecutionDuration : string;
}.

Inductive State := StateSuccess | StateFailure | StateRunning | StateTimeout | StateUnknown.

Record Event := mkEvent { ev_Action : spec_Action; ev_Message : string; ev_State : State }.

(** [a] with its execution times. *)
Definition set_times (start stop : Z) (duration : string) (a : spec_Action) : spec_Action :=
  mkspec_Action (sa_AgentID a) (sa_TaskID a) (sa_WorkflowID a) (sa_ID a) (sa_Name a) (sa_Image a) (sa_Cmd a)
    (sa_Args a) (sa_Env a) (sa_Volumes a) (sa_Namespaces a) (sa_Retries a) (sa_TimeoutSeconds a)
    start stop duration.

(** ** conv.go *)

Definition container_char (c : ascii) : ascii :=
  if is_alnum c || bool_decide (c = "_"%char) || bool_decide (c = "."%char) || is_hyphen c then c else "_"%char.

Definition container_chars (s : string) : string := of_bytes (container_char <$> bytes_of s).

Definition ParseName (actionID name : string) : string :=
  "tinkerbell_" +:+ container_chars name +:+ "_" +:+ container_chars actionID.

Definition ParseEnv (envs : list Env) : list string :=
  (λ e, env_Key e +:+ "=" +:+ env_Value e) <$> envs.

(** ** transport/grpc: reading *)

(** One entry of the environment of a response. *)
Definition parse_env (v : string) : Env :=
  match SplitN2 v "="%char with
  | [k] => mkEnv k ""
  | [k; x] => mkEnv k x
  | _ => mkEnv "" ""
  end.

Definition action_of_response (r : ActionResponse) : spec_Action := {|
  sa_AgentID := ar_AgentId r;
  sa_TaskID := ar_TaskId r;
  sa_WorkflowID := ar_WorkflowId r;
  sa_ID := ar_ActionId r;
  sa_Name := ar_Name r;
  sa_Image := ar_Image r;
  sa_Cmd := "";
  sa_Args := ar_Command r;
  sa_Env := parse_env <$> ar_Environment r;
  sa_Volumes := ar_Volumes r;
  sa_Namespaces :=
    match ar_Namespaces r with
    | None => mkNamespaces "" (ar_Pid r)
    | Some ns => mkNamespaces (pbns_Network ns) (if decide (pbns_Pid ns ≠ "") then pbns_Pid ns else ar_Pid r)
    end;
  sa_Retries := 0;
  sa_TimeoutSeconds := ar_Timeout r;
  sa_ExecutionStart := time_zero;
  sa_ExecutionStop := time_zero;
  sa_ExecutionDuration := "";
|}.

(** [isPFVNoActionsAvailable]; the server attaches no violation details, so the
    code decides. *)
Definition isPFVNoActionsAvailable (err : error) : bool :=
  bool_decide (status_Code (Some err) = FailedPrecondition).

(** [doRead] on the server's answer. *)
Definition read_answer (answer : res ActionResponse) : res spec_Action :=
  match answer with
  | inl err =>
      if decide (status_Code (Some err) = NotFound) then inl ErrNoWorkflow
      else if isPFVNoActionsAvailable err then inl (ErrNoActions "no actions available" err)
      else inl (ErrWrap "error getting action: " err)
  | inr r => inr (action_of_response r)
  end.

Definition read_request (agentID : string) (attrs : option AgentAttributes) : ActionRequest :=
  mkActionRequest agentID (ToProto attrs).

(** ** transport/grpc: writing *)

Definition specToProto (s : State) : StateType :=
  match s with
  | StateRunning => ST_RUNNING
  | StateSuccess => ST_SUCCESS
  | StateFailure => ST_FAILED
  | StateTimeout => ST_TIMEOUT
  | StateUnknown => ST_UNSPECIFIED
  end.

Definition write_request (event : Event) : ActionStatusRequest :=
  let a := ev_Action event in {|
  sr_WorkflowId := sa_WorkflowID a;
  sr_AgentId := sa_AgentID a;
  sr_TaskId := sa_TaskID a;
  sr_ActionId := sa_ID a;
  sr_ActionName := sa_Name a;
  sr_ActionState := specToProto (ev_State event);
  sr_ExecutionStart := Some (sa_ExecutionStart a);
  sr_ExecutionStop := Some (sa_ExecutionStop a);
  sr_ExecutionDuration := sa_ExecutionDuration a;
  sr_Message := ev_Message event;
|}.

(** [doWrite] on the server's answer. The text of the request, which the source
    adds to the message of a retried error, is left out. *)
Definition write_answer (err : option error) : option error :=
  match status_Code err with
  | OK => None
  | NotFound | InvalidArgument | FailedPrecondition => ErrPermanent <$> err
  | _ => ErrWrap "error reporting action: " <$> err
  end.

(** ** Options *)

Definition GRPCTransportType : string := "grpc".
Definition FileTransportType : string := "file".
Definition NATSTransportType : string := "nats".
Definition DockerRuntimeType : string := "docker".
Definition ContainerdRuntimeType : string := "containerd".
Definition KubernetesRuntimeType : string := "kubernetes".

(** [TransportType.Set] and [RuntimeType.Set]: [None] is the error. *)
Definition TransportType_Set (s : string) : option string :=
  if decide (ToLower s ∈ [GRPCTransportType; NATSTransportType; FileTransportType]) then Some s else None.

Definition RuntimeType_Set (s : string) : option string :=
  if decide (ToLower s ∈ [DockerRuntimeType; ContainerdRuntimeType; KubernetesRuntimeType])
  then Some (ToLower s) else None.

(** The switches of [ConfigureAndRun]: which transport and runtime are built. *)
Definition transport_used (t : string) : string :=
  if decide (t = FileTransportType) then FileTransportType
  else if decide (t = NATSTransportType) then NATSTransportType
  else GRPCTransportType.

Definition runtime_used (r : string) : string :=
  if decide (r = KubernetesRuntimeType) then KubernetesRuntimeType
  else if decide (r = ContainerdRuntimeType) then ContainerdRuntimeType
  else DockerRuntimeType.

(** ** humanDuration *)

Definition time_Millisecond : Z := 1000000%Z.
Definition time_Microsecond : Z := 1000%Z.

(** The units in decreasing order, with their suffix. Go's [/] and [%] truncate. *)
Definition units : list (Z * string) :=
  [(time_Hour, "h"); (time_Minute, "m"); (time_Second, "s");
   (time_Millisecond, "ms"); (time_Microsecond, "us"); (1%Z, "ns")].

Fixpoint split_units (us : list (Z * string)) (nanos : Z) : list (Z * (Z * string)) :=
  match us with
  | [] => []
  | u :: us' => (Z.quot nanos u.1, u) :: split_units us' (Z.rem nanos u.1)
  end.

(** Append while positive and below the precision. *)
Fixpoint human_parts (qs : list (Z * (Z * string))) (precision : nat) (parts : list string) : list string :=
  match qs with
  | [] => parts
  | (q, (_, suffix)) :: qs' =>
      let parts :=
        if decide (0 < q)%Z then
          if decide (length parts < precision) then parts ++ [Itoa q +:+ suffix] else parts
        else parts in
      human_parts qs' precision parts
  end.

Definition humanDuration (d : Z) (precision : nat) : string :=
  Join (human_parts (split_units units d) precision []) "".

(** ** The loop *)

(** [isNoAction]: a type assertion on the error itself. *)
Definition isNoAction (err : error) : bool :=
  match err with ErrNoActions _ _ => true | _ => false end.

Class AgentEnv (W : Type) := {
  (** the [select] at the top of the loop, with the value waiting in the
      backoff channel: [true] when the context is done *)
  ae_Wait : option bool → W → bool * W;
  ae_Read : W → res spec_Action * W;
  ae_Write : Event → W → option error * W;
  ae_Execute : spec_Action → W → option error * W;
  ae_Now : W → Z * W;
  (** [backoff.Retry] without a limit *)
  ae_Retry : (W → option error * W) → W → option error * W;
}.

Section loop.
Context `{AE : AgentEnv W}.

(** The attempts left after [i - 1]: the state of the action. *)
Fixpoint execute_loop (fuel : nat) (i retries : Z) (action : spec_Action) (state : State) (w : W) : State * W :=
  match fuel with
  | O => (state, w)
  | S fuel =>
      if decide (i ≤ retries)%Z then
        match ae_Execute action w with
        | (Some err, w) =>
            if is_ctx DeadlineExceeded err then (StateTimeout, w)
            else if decide (i = retries) then (StateFailure, w)
            else execute_loop fuel (i + 1) retries action StateFailure w
        | (None, w) => (StateSuccess, w)
        end
      else (state, w)
  end.

Definition retries_of (action : spec_Action) : Z :=
  if decide (sa_Retries action = 0)%Z then 1%Z else sa_Retries action.

(** [retries] attempts are all the loop can make. *)
Definition execute (action : spec_Action) (w : W) : State * W :=
  let retries := retries_of action in
  execute_loop (Z.to_nat retries) 1 retries action StateSuccess w.

(** One turn of the loop: [None] returns, [Some b] goes on with [b] waiting in
    the backoff channel. *)
Definition iteration (pending : option bool) (w : W) : option (option bool) * W :=
  let '(done, w) := ae_Wait pending w in
  if (done : bool) then (None, w)
  else
    match ae_Read w with
    | (inl err, w) =>
        if is_ctx Canceled err then (None, w)
        else if isNoAction err then (Some (Some false), w)
        else (Some (Some true), w)
    | (inr action, w) =>
        match ae_Write (mkEvent action "running action" StateRunning) w with
        | (Some err, w) => if is_ctx Canceled err then (None, w) else (Some (Some true), w)
        | (None, w) =>
            let '(start, w) := ae_Now w in
            let started := set_times start (sa_ExecutionStop action) (sa_ExecutionDuration action) action in
            let '(state, w) := execute started w in
            let '(stop, w) := ae_Now w in
            let completed := set_times start stop (humanDuration (time_Sub stop start) 2) action in
            match ae_Retry (ae_Write (mkEvent completed "action completed" state)) w with
            | (Some err, w) => (None, w)
            | (None, w) => (Some None, w)
            end
        end
    end.

(** [n] turns of [Run]; [None] when it returned. *)
Fixpoint Run (n : nat) (pending : option bool) (w : W) : option (option bool) * W :=
  match n with
  | O => (Some pending, w)
  | S n =>
      match iteration pending w with
      | (None, w) => (None, w)
      | (Some pending, w) => Run n pending w
      end
  end.
End loop.

(** ** What a turn of the loop does *)

Inductive aentry :=
| AWrite (e : Event) (res : option error)
| AExec (a : spec_Action) (res : option error).

(** What the documentation of [backoff.Retry] promises: the operation runs
    until it succeeds, fails permanently, or the context ends the wait after a
    failure. *)
Inductive retry_runs {W} (op : W → option error * W) : W → option error → W → Prop :=
| retry_ok w w' : op w = (None, w') → retry_runs op w None w'
| retry_permanent w err w' : op w = (Some (ErrPermanent err), w') → retry_runs op w (Some err) w'
| retry_interrupted w err k w' : op w = (Some err, w') → retry_runs op w (Some (ErrCtx k)) w'
| retry_again w err w1 e w' :
    op w = (Some err, w1) → retry_runs op w1 e w' → retry_runs op w e w'.

Section protocol.
Context {W : Type} (AE : AgentEnv W).
Context (Retry : (W * list aentry → option error * (W * list aentry)) →
                 W * list aentry → option error * (W * list aentry)).
Hypothesis Retry_runs : ∀ op w e w', Retry op w = (e, w') → retry_runs op w e w'.

(** The environment that also records executions and reports. *)
Definition alogged : AgentEnv (W * list aentry) := {|
  ae_Wait p wl := let '(b, w) := ae_Wait p wl.1 in (b, (w, wl.2));
  ae_Read wl := let '(r, w) := ae_Read wl.1 in (r, (w, wl.2));
  ae_Write e wl := let '(r, w) := ae_Write e wl.1 in (r, (w, wl.2 ++ [AWrite e r]));
  ae_Execute a wl := let '(r, w) := ae_Execute a wl.1 in (r, (w, wl.2 ++ [AExec a r]));
  ae_Now wl := let '(t, w) := ae_Now wl.1 in (t, (w, wl.2));
  ae_Retry := Retry;
|}.
Existing Instance alogged.

(** The failure of an attempt that is followed by another one. *)
Definition retried (a : spec_Action) (e : aentry) : Prop :=
  ∃ err, e = AExec a (Some err) ∧ is_ctx DeadlineExceeded err = false.

Definition outcome (res : option error) : State :=
  match res with
  | None => StateSuccess
  | Some err => if is_ctx DeadlineExceeded err then StateTimeout else StateFailure
  end.

(** [es] are at most [n] attempts at [a], all but the last failed, whose last
    one gives [state]. *)
Definition attempts (a : spec_Action) (n : Z) (state : State) (es : list aentry) : Prop :=
  ∃ es' res, es = es' ++ [AExec a res] ∧ Forall (retried a) es' ∧
    (Z.of_nat (length es) ≤ n)%Z ∧ state = outcome res ∧
    (state = StateFailure → Z.of_nat (length es) = n).

(** [es] are reports of [e], at least one, all but the last refused. *)
Definition reports (e : Event) (ok : bool) (es : list aentry) : Prop :=
  ∃ es' res, es = es' ++ [AWrite e res] ∧ Forall (λ x, ∃ err, x = AWrite e (Some err)) es' ∧
    (ok = true ↔ res = None).

Lemma execute_loop_log fuel i retries a s wl s' wl' :
  (0 < i ≤ retries)%Z → (Z.of_nat fuel = retries - i + 1)%Z →
  execute_loop fuel i retries a s wl = (s', wl') →
  ∃ es, wl'.2 = wl.2 ++ es ∧ attempts a (retries - i + 1) s' es.
Proof.
  revert i s wl. induction fuel as [|fuel IH]; intros i s wl Hi Hf; [lia|]. cbn [execute_loop].
  rewrite decide_True by lia. simpl. destruct (ae_Execute a wl.1) as [[err|] w1].
  - destruct (is_ctx DeadlineExceeded err) eqn:Hd.
    { intros [= <- <-]. eexists. split; [done|]. exists [], (Some err). simpl. rewrite Hd.
      split_and!; [done..|lia|done|done]. }
    case_decide as He.
    { intros [= <- <-]. eexists. split; [done|]. exists [], (Some err). simpl. rewrite Hd.
      split_and!; [done..|lia|done|lia]. }
    intros H. apply IH in H as (es & El & es' & r & -> & Hr & Hn & Hs & Hlen); [|lia..]. simpl in *.
    exists (AExec a (Some err) :: es' ++ [AExec a r]). rewrite El, <-(assoc (++)). split; [done|].
    exists (AExec a (Some err) :: es'), r. split_and!; [done| |cbn [length]; lia|done|cbn [length]; naive_solver lia].
    constructor; [by eexists|done].
  - intros [= <- <-]. eexists. split; [done|]. exists [], None. split_and!; [done..|simpl; lia|done|done].
Qed.

Lemma retry_runs_log e wl r wl' :
  retry_runs (ae_Write e) wl r wl' →
  ∃ es, wl'.2 = wl.2 ++ es ∧ reports e (bool_decide (r = None)) es.
Proof.
  induction 1 as [wl wl' H|wl err wl' H|wl err k wl' H|wl err wl1 r wl' H _ (es & El & es' & res & -> & HF & Hr)];
    simpl in H; destruct (ae_Write e wl.1) as [ans w1]; simplify_eq/=.
  - eexists. split; [done|]. by exists [], None.
  - eexists. split; [done|]. by eexists [], (Some _).
  - eexists. split; [done|]. by eexists [], (Some _).
  - exists (AWrite e (Some err) :: es' ++ [AWrite e res]). rewrite El, <-(assoc (++)). split; [done|].
    exists (AWrite e (Some err) :: es'), res. split_and!; [done| |done..]. constructor; eauto.
Qed.

End protocol.

(** ** Durations *)

Definition total (qs : list (Z * (Z * string))) : Z := foldr (λ p acc, p.1 * p.2.1 + acc)%Z 0%Z qs.

Definition show_part (p : Z * (Z * string)) : string := Itoa p.1 +:+ p.2.2.

Lemma human_parts_take qs precision parts :
  human_parts qs precision parts =
    parts ++ (show_part <$> take (precision - length parts) (filter (λ p, (0 < p.1)%Z) qs)).
Proof.
  revert parts. induction qs as [|[q [u s]] qs IH]; intros parts; cbn [human_parts].
  { by rewrite filter_nil, take_nil, app_nil_r. }
  rewrite IH, filter_cons. cbn [fst]. destruct (decide (0 < q)%Z); [|done].
  case_decide as Hl.
  - rewrite length_app. simpl. replace (precision - length parts) with (S (precision - (length parts + 1))) by lia.
    by rewrite <-(assoc (++)).
  - by replace (precision - length parts) with 0 by lia.
Qed.

Lemma split_units_total us nanos :
  (∃ us', us = us' ++ [(1%Z, "ns")]) → total (split_units us nanos) = nanos.
Proof.
  intros [us' ->]. revert nanos. induction us' as [|u us' IH]; intros nanos; simpl.
  - rewrite Z.quot_1_r. lia.
  - fold (total (split_units (us' ++ [(1%Z, "ns")]) (Z.rem nanos u.1))). rewrite IH.
    rewrite (Z.quot_rem' nanos u.1) at 3. lia.
Qed.

(** Non-negative quotients, and a rest smaller than each unit passed. *)
Lemma split_units_bounds us nanos :
  (0 ≤ nanos)%Z → Forall (λ u, (0 < u.1)%Z) us → Forall (λ p, (0 ≤ p.1)%Z) (split_units us nanos).
Proof.
  revert nanos. induction us as [|u us IH]; intros nanos Hn; simpl; [constructor|].
  rewrite Forall_cons. intros [Hu Hus]. constructor; [by apply Z.quot_pos|].
  apply IH; [|done]. apply Z.rem_nonneg; lia.
Qed.

Lemma total_filter qs :
  Forall (λ p, (0 ≤ p.1)%Z) qs → total (filter (λ p, (0 < p.1)%Z) qs) = total qs.
Proof.
  induction 1 as [|p qs Hp _ IH]; [done|]. rewrite filter_cons.
  case_decide; cbn [total foldr]; fold (total qs); [|assert (p.1 = 0)%Z as -> by lia; lia].
  fold (total (filter (λ p, (0 < p.1)%Z) qs)). lia.
Qed.

Lemma split_units_rest us nanos i p :
  (0 ≤ nanos)%Z → Forall (λ u, (0 < u.1)%Z) us → (∃ us', us = us' ++ [(1%Z, "ns")]) →
  split_units us nanos !! i = Some p → (0 ≤ total (drop (S i) (split_units us nanos)) < p.2.1)%Z.
Proof.
  revert nanos i. induction us as [|u us IH]; intros nanos i Hn Hus Hns; [done|].
  apply Forall_cons in Hus as [Hu Hus].
  assert (0 ≤ Z.rem nanos u.1 < u.1)%Z as Hr by (apply Z.rem_bound_pos; lia).
  destruct us as [|u' us].
  { destruct i as [|i]; [|done]. intros [= <-]. simpl. lia. }
  assert (∃ us', u' :: us = us' ++ [(1%Z, "ns")]) as Hns'.
  { destruct Hns as [[|x us'] E]; simplify_eq/=. eauto. }
  destruct i as [|i]; intros H.
  - injection H as <-. change (0 ≤ total (split_units (u' :: us) (Z.rem nanos u.1)) < u.1)%Z.
    by rewrite split_units_total.
  - exact (IH (Z.rem nanos u.1) i (proj1 Hr) Hus Hns' H).
Qed.

Lemma filter_rest qs n p :
  Forall (λ p, (0 ≤ p.1)%Z) qs →
  (∀ i p, qs !! i = Some p → (0 ≤ total (drop (S i) qs) < p.2.1)%Z) →
  filter (λ p, (0 < p.1)%Z) qs !! n = Some p →
  (0 ≤ total (drop (S n) (filter (λ p, (0 < p.1)%Z) qs)) < p.2.1)%Z.
Proof.
  revert n. induction qs as [|q qs IH]; intros n Hp Hrest; [done|].
  apply Forall_cons in Hp as [_ Hp]. assert (∀ i p, qs !! i = Some p → (0 ≤ total (drop (S i) qs) < p.2.1)%Z) as Hrest'
    by (intros i x Hx; apply (Hrest (S i) x Hx)).
  rewrite filter_cons. case_decide; [|by apply IH]. destruct n as [|n]; [|by apply IH].
  intros [= <-]. cbn [drop]. change (drop 0 ?l) with l. rewrite total_filter by done.
  apply (Hrest 0 q eq_refl).
Qed.

Lemma total_app l1 l2 : total (l1 ++ l2) = (total l1 + total l2)%Z.
Proof. induction l1 as [|p l1 IH]; [done|]. simpl. fold (total (l1 ++ l2)). rewrite IH. fold (total l1). lia. Qed.

(** A printed duration loses less than its last unit. A non-negative
    duration is the exact sum of its positive parts, in decreasing units from
    hours to nanoseconds; [humanDuration] prints the first [precision] of them.
    Nothing is lost when there are no more, and otherwise less than one unit of
    the last part printed. *)
Theorem humanDuration_spec d precision :
  (0 ≤ d)%Z →
  let parts := filter (λ p, (0 < p.1)%Z) (split_units units d) in
  humanDuration d precision = Join (show_part <$> take precision parts) "" ∧ total parts = d ∧
  (length parts ≤ precision → total (take precision parts) = d) ∧
  (∀ n p, precision = S n → parts !! n = Some p → (0 ≤ d - total (take precision parts) < p.2.1)%Z).
Proof.
  intros Hd parts. assert (Forall (λ u, (0 < u.1)%Z) units) as Hu by (repeat constructor).
  assert (∃ us', units = us' ++ [(1%Z, "ns")]) as Hns by (by exists (take 5 units)).
  assert (Forall (λ p, (0 ≤ p.1)%Z) (split_units units d)) as Hpos by (by apply split_units_bounds).
  assert (total parts = d) as Ht by (unfold parts; rewrite total_filter by done; by apply split_units_total).
  split_and!; [|done|intros; by rewrite take_ge|].
  - unfold humanDuration. rewrite human_parts_take. simpl. by rewrite Nat.sub_0_r.
  - intros n p -> Hp. rewrite <-Ht at 1 2. rewrite <-(take_drop (S n) parts) at 1 3. rewrite total_app.
    assert (0 ≤ total (drop (S n) parts) < p.2.1)%Z; [|lia].
    apply filter_rest; [done| |done]. intros i x Hx. by apply split_units_rest.
Qed.

(** ** From the server to the container *)

Lemma parse_env_join k v : "="%char ∉ bytes_of k → parse_env (k +:+ "=" +:+ v) = mkEnv k v.
Proof. intros Hk. unfold parse_env, SplitN2. change ("=" +:+ v) with (String "="%char v). by rewrite Cut_app. Qed.

(** The environment reaches the container. When no variable name holds an
    equals sign, the agent's action has exactly the variables of the action and,
    for the names it does not set, those of its task. *)
Theorem environment_received agentID wf task action k v :
  let merged := act_Environment action ∪ task_Environment task in
  map_Forall (λ k _, "="%char ∉ bytes_of k) merged →
  mkEnv k v ∈ sa_Env (action_of_response (response agentID wf task action)) ↔ merged !! k = Some v.
Proof.
  intros merged Hk. simpl. unfold environment. fold merged. rewrite list_elem_of_fmap.
  setoid_rewrite merge_sort_Permutation. setoid_rewrite list_elem_of_fmap. split.
  - intros (s & He & [k' v'] & -> & Hin%elem_of_map_to_list). simpl in He.
    rewrite parse_env_join in He by (by eapply Hk). by simplify_eq.
  - intros Hm. exists (k +:+ "=" +:+ v). rewrite parse_env_join by (by eapply Hk). split; [done|].
    exists (k, v). by rewrite elem_of_map_to_list.
Qed.

(** The runtime asked for is the runtime used, in any case of letters; the
    transport asked for is used when it is written in lower case or is grpc. *)
Theorem Set_used s r :
  (RuntimeType_Set s = Some r → runtime_used r = ToLower s) ∧
  (TransportType_Set s = Some r → s = ToLower s ∨ ToLower s = GRPCTransportType → transport_used r = ToLower s).
Proof.
  split.
  - unfold RuntimeType_Set. case_decide as H; [|done]. intros [= <-]. unfold runtime_used.
    repeat case_decide; set_solver.
  - unfold TransportType_Set. case_decide as H; [|done]. intros [= <-] Hs. unfold transport_used.
    destruct Hs as [Hs|Hs]; [rewrite <-Hs in *; repeat case_decide; set_solver|].
    repeat case_decide; subst; done.
Qed.

(** An upper-case transport is accepted and then replaced by gRPC. *)
Theorem TransportType_Set_ignored :
  TransportType_Set "NATS" = Some "NATS" ∧ transport_used "NATS" = GRPCTransportType.
Proof. split; reflexivity. Qed.
