(* ===== verification/Backends.v ===== *)
(** * Backends

    pkg/backend: the hardware and workflow storage the services use. The
    Kubernetes backend (kube) is built on a client of the API server, the class
    [KubeStore]; the file backend (file) on a list of Hardware decoded from a
    watched file; noop refuses everything. The Kubernetes backend is an instance
    of the interfaces [Backend] of the workflow service and [BackendReader] of
    the DHCP server, the file backend of the latter. *)
From S2P Require Import Prelude GoStrings GoNetip BmcTypes Api BmcApi Attributes ServerNames Server Dhcp DhcpConv.

(** ** index.go *)

Definition MACAddrIndex : string := ".Spec.Interfaces.MAC".
Definition IPAddrIndex : string := ".Spec.Interfaces.DHCP.IP".
Definition NameIndex : string := ".metadata.name".
Definition WorkflowAgentIDIndex : string := ".status.agentID".
Definition HardwareAgentIDIndex : string := ".spec.agentID".
Definition InstanceIDIndex : string := ".Spec.Metadata.Instance.ID".

(** A [client.Object] or the [any] of an update option. *)
Inductive AnyObject :=
| AnyHardware (hw : Hardware)
| AnyWorkflow (wf : Workflow)
| AnyMachine (m : Machine)
| AnyOther (type : string).

Definition GetMACs (h : Hardware) : list string :=
  omap (λ i, match if_DHCP i with Some d => if decide (dhcp_MAC d = "") then None else Some (dhcp_MAC d) | None => None end)
    (hs_Interfaces (hw_Spec h)).

Definition GetIPs (h : Hardware) : list string :=
  omap (λ i, match if_DHCP i with
             | Some d => match dhcp_IP d with
                         | Some ip => if decide (ip_Address ip = "") then None else Some (ip_Address ip)
                         | None => None end
             | None => None
             end) (hs_Interfaces (hw_Spec h)).

Definition MACAddrs (obj : AnyObject) : list string := match obj with AnyHardware hw => GetMACs hw | _ => [] end.
Definition IPAddrs (obj : AnyObject) : list string := match obj with AnyHardware hw => GetIPs hw | _ => [] end.
Definition HardwareName (obj : AnyObject) : list string := match obj with AnyHardware hw => [hw_Name hw] | _ => [] end.
Definition MachineName (obj : AnyObject) : list string := match obj with AnyMachine m => [om_Name (m_Meta m)] | _ => [] end.

Definition WorkflowAgentID (obj : AnyObject) : list string :=
  match obj with
  | AnyWorkflow wf => if decide (st_AgentID (wf_Status wf) = "") then [] else [st_AgentID (wf_Status wf)]
  | _ => []
  end.

Definition HardwareAgentID (obj : AnyObject) : list string :=
  match obj with
  | AnyHardware hw => if decide (hs_AgentID (hw_Spec hw) = "") then [] else [hs_AgentID (hw_Spec hw)]
  | _ => []
  end.

Definition instance_id (hw : Hardware) : string :=
  match hs_Metadata (hw_Spec hw) with
  | Some m => match hm_Instance m with Some i => mi_ID i | None => "" end
  | None => ""
  end.

Definition InstanceID (obj : AnyObject) : list string :=
  match obj with
  | AnyHardware hw => if decide (instance_id hw = "") then [] else [instance_id hw]
  | _ => []
  end.

(** The registered indexes: the field and the function that extracts its values. *)
Record Index := mkIndex { ix_Field : string; ix_ExtractValue : AnyObject → list string }.

Definition Indexes : list Index := [
  mkIndex MACAddrIndex MACAddrs; mkIndex IPAddrIndex IPAddrs; mkIndex NameIndex HardwareName;
  mkIndex NameIndex MachineName; mkIndex WorkflowAgentIDIndex WorkflowAgentID;
  mkIndex HardwareAgentIDIndex HardwareAgentID; mkIndex InstanceIDIndex InstanceID].

(** ** The API client *)

Inductive ListOption := InNamespace (ns : string) | MatchingFields (field value : string).

Inductive Patch := MergeFrom (obj : AnyObject) | RawPatch (type : string) (data : string).

Record UpdateOptions := mkUpdateOptions {
  uo_StatusOnly : bool;
  uo_PatchFrom : option AnyObject;
  uo_RawPatch : option string;
  uo_RawPatchType : string;
}.

Class KubeStore (W : Type) := {
  ks_Done : W → bool * W;
  ks_CreateHardware : Hardware → W → option error * W;
  ks_GetHardware (name ns : string) : W → res Hardware * W;
  ks_ListHardware : list ListOption → W → res (list Hardware) * W;
  (** [Update] or [Patch], of the object or of its status *)
  ks_WriteHardware (status : bool) (p : option Patch) : Hardware → W → option error * W;
  ks_CreateWorkflow : Workflow → W → option error * W;
  ks_GetWorkflow (name ns : string) : W → res Workflow * W;
  ks_ListWorkflows : list ListOption → W → res (list Workflow) * W;
  ks_WriteWorkflow (status : bool) (p : option Patch) : Workflow → W → option error * W;
  ks_ListRuleSets : list ListOption → W → res (list WorkflowRuleSet) * W;
  ks_ListMachines : list ListOption → W → res (list Machine) * W;
  ks_GetSecret (name ns : string) : W → res (gmap string string) * W;
}.

(** ** patch.go *)

Definition validPatchTypes : list string :=
  ["application/json-patch+json"; "application/merge-patch+json"; "application/strategic-merge-patch+json";
   "application/apply-patch+yaml"].

Definition patchFromOpts (opts : UpdateOptions) : res (option Patch) :=
  match uo_PatchFrom opts with
  | Some (AnyOther t) => inl (ErrNew ("PatchFrom must be a client.Object, got " +:+ t))
  | Some obj => inr (Some (MergeFrom obj))
  | None =>
      match uo_RawPatch opts with
      | Some data =>
          if decide (uo_RawPatchType opts = "") then inl (ErrNew "RawPatchType must be set when RawPatch is provided")
          else if decide (uo_RawPatchType opts ∈ validPatchTypes) then inr (Some (RawPatch (uo_RawPatchType opts) data))
          else inl (ErrNew ("unsupported RawPatchType " +:+ dquote (uo_RawPatchType opts)))
      | None => inr None
      end
  end.

(** ** hardware.go *)

Definition all_namespaces (ns : string) : string := if decide (ns = "") then "all namespaces" else ns.

Definition desc_with (what value : string) : string :=
  if decide (value = "") then "" else " with " +:+ what +:+ " " +:+ dquote value.

Definition filterQueryDesc (opts : HardwareFilter) : string :=
  "in " +:+ all_namespaces (hf_InNamespace opts) +:+ desc_with "name" (hf_ByName opts)
    +:+ desc_with "agentID" (hf_ByAgentID opts) +:+ desc_with "MAC" (hf_ByMACAddress opts)
    +:+ desc_with "IP" (hf_ByIPAddress opts) +:+ desc_with "instanceID" (hf_ByInstanceID opts).

Definition list_option (o : ListOption) (v : string) : list ListOption := if decide (v = "") then [] else [o].

Definition hardwareListOptions (opts : HardwareFilter) : list ListOption :=
  list_option (InNamespace (hf_InNamespace opts)) (hf_InNamespace opts)
  ++ list_option (MatchingFields HardwareAgentIDIndex (hf_ByAgentID opts)) (hf_ByAgentID opts)
  ++ list_option (MatchingFields NameIndex (hf_ByName opts)) (hf_ByName opts)
  ++ list_option (MatchingFields IPAddrIndex (hf_ByIPAddress opts)) (hf_ByIPAddress opts)
  ++ list_option (MatchingFields MACAddrIndex (hf_ByMACAddress opts)) (hf_ByMACAddress opts)
  ++ list_option (MatchingFields InstanceIDIndex (hf_ByInstanceID opts)) (hf_ByInstanceID opts).

(** error.go *)
Definition hardwareNotFoundError (name ns : string) : error :=
  ErrNotFound ("hardware not found: " +:+ name +:+ ", namespace: " +:+ ns).

Definition foundMultipleHardwareError (id ns : string) (count : nat) : error :=
  ErrFoundMultiple ("found " +:+ Itoa (Z.of_nat count) +:+ " hardware objects for " +:+ id +:+ ", namespace: " +:+ ns).

Definition wrap_err (msg : string) (e : option error) : option error := ErrWrap msg <$> e.

Section Kube.
Context {W : Type} `{KubeStore W}.

Definition kube_CreateHardware (hw : Hardware) (w : W) : option error * W :=
  let '(e, w) := ks_CreateHardware hw w in
  (wrap_err ("failed to create hardware " +:+ hw_Namespace hw +:+ "/" +:+ hw_Name hw +:+ ": ") e, w).

Definition kube_ReadHardware (name ns : string) (w : W) : res Hardware * W :=
  match ks_GetHardware name ns w with
  | (inl e, w) => (inl (ErrWrap ("failed to get hardware " +:+ ns +:+ "/" +:+ name +:+ ": ") e), w)
  | (inr hw, w) => (inr hw, w)
  end.

Definition kube_FilterHardware (opts : HardwareFilter) (w : W) : res Hardware * W :=
  match ks_ListHardware (hardwareListOptions opts) w with
  | (inl e, w) => (inl (ErrWrap ("failed to list hardware " +:+ filterQueryDesc opts +:+ ": ") e), w)
  | (inr items, w) =>
      let nsDesc := all_namespaces (hf_InNamespace opts) in
      match items with
      | [] => (inl (hardwareNotFoundError (filterQueryDesc opts) nsDesc), w)
      | [hw] => (inr hw, w)
      | _ => (inl (foundMultipleHardwareError (filterQueryDesc opts) nsDesc (length items)), w)
      end
  end.

Definition kube_ListHardware (opts : HardwareFilter) (w : W) : res (list Hardware) * W :=
  ks_ListHardware (hardwareListOptions opts) w.

Definition kube_UpdateHardware (hw : Hardware) (opts : UpdateOptions) (w : W) : option error * W :=
  let id := hw_Namespace hw +:+ "/" +:+ hw_Name hw +:+ ": " in
  let status := if uo_StatusOnly opts then "status " else "" in
  match patchFromOpts opts with
  | inl e => (Some (ErrWrap ("invalid patch options for hardware " +:+ id) e), w)
  | inr (Some p) =>
      let '(e, w) := ks_WriteHardware (uo_StatusOnly opts) (Some p) hw w in
      (wrap_err ("failed to patch hardware " +:+ status +:+ id) e, w)
  | inr None =>
      let '(e, w) := ks_WriteHardware (uo_StatusOnly opts) None hw w in
      (wrap_err ("failed to update hardware " +:+ status +:+ id) e, w)
  end.

(** ** workflows.go *)

Definition kube_CreateWorkflow (wf : Workflow) (w : W) : option error * W :=
  let '(e, w) := ks_CreateWorkflow wf w in
  (wrap_err ("failed to create workflow " +:+ wf_Name wf +:+ ": ") e, w).

Definition kube_ReadWorkflow (name ns : string) (w : W) : res Workflow * W :=
  match ks_GetWorkflow name ns w with
  | (inl e, w) => (inl (ErrWrap ("failed to get workflow " +:+ ns +:+ "/" +:+ name +:+ ": ") e), w)
  | (inr wf, w) => (inr wf, w)
  end.

Definition workflowListOptions (opts : WorkflowFilter) : list ListOption :=
  list_option (InNamespace (wfl_InNamespace opts)) (wfl_InNamespace opts)
  ++ list_option (MatchingFields WorkflowAgentIDIndex (wfl_ByAgentID opts)) (wfl_ByAgentID opts).

Definition kube_ListWorkflows (opts : WorkflowFilter) (w : W) : res (list Workflow) * W :=
  match ks_ListWorkflows (workflowListOptions opts) w with
  | (inl e, w) => (inl (ErrWrap ("failed to list workflows in namespace " +:+ wfl_InNamespace opts +:+ ": ") e), w)
  | (inr l, w) => (inr l, w)
  end.

Definition kube_UpdateWorkflow (wf : Workflow) (opts : UpdateOptions) (w : W) : option error * W :=
  let id := wf_Name wf +:+ ": " in
  let status := if uo_StatusOnly opts then "status " else "" in
  match patchFromOpts opts with
  | inl e => (Some (ErrWrap ("invalid patch options for workflow " +:+ id) e), w)
  | inr (Some p) =>
      let '(e, w) := ks_WriteWorkflow (uo_StatusOnly opts) (Some p) wf w in
      (wrap_err ("failed to patch workflow " +:+ status +:+ id) e, w)
  | inr None =>
      let '(e, w) := ks_WriteWorkflow (uo_StatusOnly opts) None wf w in
      (wrap_err ("failed to update workflow " +:+ status +:+ id) e, w)
  end.

(** ** rulesets.go *)

Definition kube_ListWorkflowRuleSets (opts : WorkflowFilter) (w : W) : res (list WorkflowRuleSet) * W :=
  ks_ListRuleSets (list_option (InNamespace (wfl_InNamespace opts)) (wfl_InNamespace opts)) w.

(** ** secondstar.go *)

Record BMCMachine := mkBMCMachine {
  bm_Host : string;
  bm_User : string;
  bm_Pass : string;
  bm_Port : Z;
  bm_CipherSuite : string;
  bm_SSHPublicKeys : list string;
}.

Definition defaultIPMIPort : Z := 623.
Definition defaultIPMICipherSuite : string := "17".

Definition filterMachine (name : string) (w : W) : res Machine * W :=
  if decide (name = "") then (inl (ErrNew "BMC Machine name is required"), w)
  else
    match ks_ListMachines [MatchingFields NameIndex name] w with
    | (inl e, w) => (inl (ErrWrap ("failed listing bmc machine for (" +:+ name +:+ "): ") e), w)
    | (inr items, w) =>
        match items with
        | [] => (inl (ErrNew ("bmc machine not found: " +:+ name)), w)
        | [m] => (inr m, w)
        | _ => (inl (ErrNew ("got " +:+ Itoa (Z.of_nat (length items)) +:+ " bmc machine objects for name: "
                             +:+ name +:+ ", expected only 1")), w)
        end
    end.

Definition ReadAuthSecret (name ns : string) (w : W) : res (string * string) * W :=
  match ks_GetSecret name ns w with
  | (inl e, w) => (inl (ErrWrap ("failed to get secret " +:+ ns +:+ "/" +:+ name +:+ ": ") e), w)
  | (inr data, w) =>
      match data !! "username" with
      | None => (inl (ErrNew ("'username' required in Machine secret " +:+ ns +:+ "/" +:+ name)), w)
      | Some u =>
          match data !! "password" with
          | None => (inl (ErrNew ("'password' required in Machine secret " +:+ ns +:+ "/" +:+ name)), w)
          | Some p => (inr (u, p), w)
          end
      end
  end.

(** The result is [None] when the reference to the BMC is nil: the code
    dereferences it without a check. *)
Definition FilterBMCMachine (opts : HardwareFilter) (w : W) : option (res BMCMachine) * W :=
  match kube_FilterHardware opts w with
  | (inl e, w) => (Some (inl (ErrWrap "failed to filter hardware: " e)), w)
  | (inr hw, w) =>
      let keys :=
        match hs_Metadata (hw_Spec hw) with
        | Some m => match hm_Instance m with Some i => mi_SSHKeys i | None => [] end
        | None => []
        end in
      match hs_BMCRef (hw_Spec hw) with
      | None => (None, w)
      | Some name =>
          match filterMachine name w with
          | (inl e, w) => (Some (inl e), w)
          | (inr m, w) =>
              let conn := m_Connection m in
              let '(port, cipher) :=
                match conn_ProviderOptions conn with
                | Some po =>
                    match po_IPMITOOL po with
                    | Some i => (if decide (ipmi_Port i = 0%Z) then defaultIPMIPort else ipmi_Port i,
                                 if decide (ipmi_CipherSuite i = "") then defaultIPMICipherSuite else ipmi_CipherSuite i)
                    | None => (0%Z, "")
                    end
                | None => (0%Z, "")
                end in
              let ref := conn_AuthSecretRef conn in
              match ReadAuthSecret (sr_Name ref) (sr_Namespace ref) w with
              | (inl e, w) => (Some (inl e), w)
              | (inr (user, pass), w) => (Some (inr (mkBMCMachine (conn_Host conn) user pass port cipher keys)), w)
              end
          end
      end
  end.

#[export] Instance kube_Backend : Backend W := {
  b_Done := ks_Done;
  b_ListWorkflows := kube_ListWorkflows;
  b_ReadWorkflow := kube_ReadWorkflow;
  b_UpdateWorkflowStatus wf := kube_UpdateWorkflow wf (mkUpdateOptions true None None "");
  b_ReadHardware := kube_ReadHardware;
  b_FilterHardware := kube_FilterHardware;
  b_PatchHardware hw original := kube_UpdateHardware hw (mkUpdateOptions false (Some (AnyHardware original)) None "");
  b_CreateHardware := kube_CreateHardware;
  b_ListWorkflowRuleSets := kube_ListWorkflowRuleSets;
  b_CreateWorkflow := kube_CreateWorkflow;
}.

#[export] Instance kube_Reader : BackendReader W := { FilterHardware := kube_FilterHardware }.

End Kube.

(** ** The file backend *)

Section File.

(** [yaml.Unmarshal] of the file's data into a list of Hardware. *)
Class HardwareYaml := { unmarshal_Hardware : string → res (list Hardware) }.
Context `{HardwareYaml}.

(** The state of the watcher: the data last read. *)
Record Watcher := mkWatcher { w_data : string }.

(** What the watch loop of [Start] receives. *)
Inductive FileEvent :=
| FileEvent_Write (content : res string)   (** a write, and what reading the file then gives *)
| FileEvent_Other
| FileEvent_Error (e : error).

(** One turn of the loop of [Start]. *)
Definition Watcher_step (ev : FileEvent) (w : Watcher) : Watcher :=
  match ev with
  | FileEvent_Write (inr d) => mkWatcher d
  | _ => w
  end.

Definition hardwareHasMAC (hw : Hardware) (mac : string) : bool :=
  existsb (λ i, match if_DHCP i with Some d => bool_decide (ToLower (dhcp_MAC d) = ToLower mac) | None => false end)
    (hs_Interfaces (hw_Spec hw)).

Definition hardwareHasIP (hw : Hardware) (ip : string) : bool :=
  existsb (λ i, match if_DHCP i with
                | Some d => match dhcp_IP d with Some x => bool_decide (ip_Address x = ip) | None => false end
                | None => false
                end) (hs_Interfaces (hw_Spec hw)).

Definition matchHardware (hw : Hardware) (opts : HardwareFilter) : bool :=
  if decide (hf_InNamespace opts ≠ "" ∧ hw_Namespace hw ≠ hf_InNamespace opts) then false
  else if decide (hf_ByName opts ≠ "" ∧ hw_Name hw ≠ hf_ByName opts) then false
  else if decide (hf_ByAgentID opts ≠ "" ∧ hs_AgentID (hw_Spec hw) ≠ hf_ByAgentID opts) then false
  else if bool_decide (hf_ByMACAddress opts ≠ "") && negb (hardwareHasMAC hw (hf_ByMACAddress opts)) then false
  else if bool_decide (hf_ByIPAddress opts ≠ "") && negb (hardwareHasIP hw (hf_ByIPAddress opts)) then false
  else if decide (hf_ByInstanceID opts ≠ "" ∧ instance_id hw ≠ hf_ByInstanceID opts) then false
  else bool_decide (hf_ByName opts ≠ "" ∨ hf_ByAgentID opts ≠ "" ∨ hf_ByMACAddress opts ≠ "" ∨ hf_ByIPAddress opts ≠ ""
                    ∨ hf_ByInstanceID opts ≠ "").

Definition errFileFormat : string := "invalid file format".

Definition file_ReadHardware (name ns : string) (w : Watcher) : res Hardware :=
  match unmarshal_Hardware (w_data w) with
  | inl e => inl (ErrNew (errFileFormat +:+ ": " +:+ error_msg e))
  | inr l =>
      match list_find (λ hw, ¬ (ns ≠ "" ∧ hw_Namespace hw ≠ ns) ∧ hw_Name hw = name) l with
      | Some (_, hw) => inr hw
      | None => inl (ErrNotFound "no matching hardware found")
      end
  end.

Definition file_FilterHardware (opts : HardwareFilter) (w : Watcher) : res Hardware :=
  match unmarshal_Hardware (w_data w) with
  | inl e => inl (ErrNew (errFileFormat +:+ ": " +:+ error_msg e))
  | inr l =>
      match filter (λ hw, matchHardware hw opts = true) l with
      | [] => inl (ErrNotFound "no matching hardware found")
      | [hw] => inr hw
      | matches => inl (ErrFoundMultiple ("found " +:+ Itoa (Z.of_nat (length matches))
                          +:+ " hardware objects matching filter, expected 1"))
      end
  end.

Definition file_UpdateHardware (hw : Hardware) (opts : UpdateOptions) (w : Watcher) : option error :=
  Some (ErrNew "file backend does not support hardware updates").

#[export] Instance file_Reader : BackendReader Watcher := { FilterHardware opts w := (file_FilterHardware opts w, w) }.

End File.

(** ** The noop backend *)

Definition errAlways : error := ErrNew "noop backend always returns an error".
Definition noop_ReadHardware (name ns : string) : res Hardware := inl errAlways.
Definition noop_FilterHardware (opts : HardwareFilter) : res Hardware := inl errAlways.
Definition noop_UpdateHardware (hw : Hardware) (opts : UpdateOptions) : option error := Some errAlways.

(** ** The promise of a hardware lookup *)

Inductive Selector := SelName | SelAgentID | SelMAC | SelIP | SelInstanceID.

#[export] Instance Selector_eq_dec : EqDecision Selector.
Proof. solve_decision. Defined.

(** The filter with one selector, of value [v], in namespace [ns] (empty for all). *)
Definition filter_by (ns : string) (sel : Selector) (v : string) : HardwareFilter :=
  match sel with
  | SelName => mkHardwareFilter ns v "" "" "" ""
  | SelAgentID => mkHardwareFilter ns "" v "" "" ""
  | SelMAC => mkHardwareFilter ns "" "" v "" ""
  | SelIP => mkHardwareFilter ns "" "" "" v ""
  | SelInstanceID => mkHardwareFilter ns "" "" "" "" v
  end.

(** The values a Hardware has for a selector. *)
Definition selector_values (sel : Selector) (hw : Hardware) : list string :=
  match sel with
  | SelName => [hw_Name hw]
  | SelAgentID => [hs_AgentID (hw_Spec hw)]
  | SelMAC => GetMACs hw
  | SelIP => GetIPs hw
  | SelInstanceID => [instance_id hw]
  end.

Definition selects (ns : string) (sel : Selector) (v : string) (hw : Hardware) : Prop :=
  (ns = "" ∨ hw_Namespace hw = ns) ∧ v ∈ selector_values sel hw.

#[export] Instance selects_dec ns sel v hw : Decision (selects ns sel v hw).
Proof. apply _. Defined.

Definition select (ns : string) (sel : Selector) (v : string) (l : list Hardware) : list Hardware :=
  filter (selects ns sel v) l.

(** What a lookup returns for the Hardware that match: the only one, or an error
    that tells none from several. *)
Definition lookup_result (l : list Hardware) (r : res Hardware) : Prop :=
  match l with
  | [] => ∃ m, r = inl (ErrNotFound m)
  | [hw] => r = inr hw
  | _ => ∃ m, r = inl (ErrFoundMultiple m)
  end.

(** A hardware address is looked up in lower case. *)
Definition canonical (sel : Selector) (v : string) : Prop := sel = SelMAC → ToLower v = v.

(** The objects a backend holds, and the states in which it answers from them. *)
Class HardwareLookup (W : Type) `{BackendReader W} := {
  hl_objects : W → list Hardware;
  hl_ok : W → Prop;
  hl_filter ns sel v w : hl_ok w → v ≠ "" → canonical sel v →
    ∃ r, FilterHardware (filter_by ns sel v) w = (r, w) ∧ lookup_result (select ns sel v (hl_objects w)) r;
}.

(** *** Kubernetes *)

(** What the API promises of a list with one field selector: the objects of the
    namespace for which an index of that field has the value. *)
Definition indexed (f v : string) (hw : Hardware) : Prop :=
  Exists (λ ix, ix_Field ix = f ∧ v ∈ ix_ExtractValue ix (AnyHardware hw)) Indexes.

#[export] Instance indexed_dec f v hw : Decision (indexed f v hw).
Proof. apply _. Defined.

Class KubeLists (W : Type) `{KubeStore W} := {
  kl_objects : W → list Hardware;
  kl_ok : W → Prop;
  kl_list ns f v w : kl_ok w →
    ks_ListHardware (list_option (InNamespace ns) ns ++ [MatchingFields f v]) w =
      (inr (filter (λ hw, (ns = "" ∨ hw_Namespace hw = ns) ∧ indexed f v hw) (kl_objects w)), w);
}.

Definition selector_index (sel : Selector) : string :=
  match sel with
  | SelName => NameIndex | SelAgentID => HardwareAgentIDIndex | SelMAC => MACAddrIndex | SelIP => IPAddrIndex
  | SelInstanceID => InstanceIDIndex
  end.

Lemma hardwareListOptions_one ns sel v :
  v ≠ "" → hardwareListOptions (filter_by ns sel v) = list_option (InNamespace ns) ns ++ [MatchingFields (selector_index sel) v].
Proof.
  intros Hv. unfold hardwareListOptions.
  destruct sel; cbn [filter_by hf_InNamespace hf_ByName hf_ByAgentID hf_ByMACAddress hf_ByIPAddress hf_ByInstanceID selector_index];
    unfold list_option; rewrite (decide_False (P := v = "")) by done; by case_decide.
Qed.

Lemma indexed_selector sel v hw : v ≠ "" → indexed (selector_index sel) v hw ↔ v ∈ selector_values sel hw.
Proof.
  intros Hv. unfold indexed, Indexes. rewrite !Exists_cons, Exists_nil. cbn [ix_Field ix_ExtractValue].
  destruct sel; cbn [selector_index selector_values MACAddrs IPAddrs HardwareName MachineName WorkflowAgentID HardwareAgentID InstanceID].
  - split; [intros [[? _]|[[? _]|[[_ ?]|[[_ ?%elem_of_nil]|[[? _]|[[? _]|[[? _]|?]]]]]]]; done|tauto].
  - destruct (decide (hs_AgentID (hw_Spec hw) = "")) as [E|E]; [rewrite E, elem_of_nil|]; (split; [intros [[? _]|[[? _]|[[? _]|[[? _]|[[? _]|[[_ ?]|[[? _]|?]]]]]]]; done|]).
    + by intros ->%list_elem_of_singleton.
    + tauto.
  - split; [intros [[_ ?]|[[? _]|[[? _]|[[? _]|[[? _]|[[? _]|[[? _]|?]]]]]]]; done|tauto].
  - split; [intros [[? _]|[[_ ?]|[[? _]|[[? _]|[[? _]|[[? _]|[[? _]|?]]]]]]]; done|tauto].
  - destruct (decide (instance_id hw = "")) as [E|E]; [rewrite E, elem_of_nil|]; (split; [intros [[? _]|[[? _]|[[? _]|[[? _]|[[? _]|[[? _]|[[_ ?]|?]]]]]]]; done|]).
    + by intros ->%list_elem_of_singleton.
    + tauto.
Qed.

Section KubeLookup.
Context {W : Type} `{KubeLists W}.

Lemma kube_lookup ns sel v w :
  kl_ok w → v ≠ "" →
  ∃ r, kube_FilterHardware (filter_by ns sel v) w = (r, w) ∧ lookup_result (select ns sel v (kl_objects w)) r.
Proof.
  intros Hok Hv. unfold kube_FilterHardware. rewrite hardwareListOptions_one, kl_list by done.
  assert (filter (λ hw, (ns = "" ∨ hw_Namespace hw = ns) ∧ indexed (selector_index sel) v hw) (kl_objects w) =
    select ns sel v (kl_objects w)) as ->.
  { apply list_filter_iff. intros hw. unfold selects. by rewrite indexed_selector. }
  destruct (select ns sel v (kl_objects w)) as [|hw [|]]; eexists; (split; [done|]); simpl; eauto.
Qed.

#[export] Instance kube_HardwareLookup : HardwareLookup W := {
  hl_objects := kl_objects;
  hl_ok := kl_ok;
  hl_filter ns sel v w Hok Hv _ := kube_lookup ns sel v w Hok Hv;
}.

End KubeLookup.

(** *** File *)

Section FileLookup.
Context `{HardwareYaml}.

Definition lower_MACs (hw : Hardware) : Prop := Forall (λ m, ToLower m = m) (GetMACs hw).

Definition file_objects (w : Watcher) : list Hardware :=
  match unmarshal_Hardware (w_data w) with inr l => l | inl _ => [] end.

(** The file decodes, and its hardware addresses are in lower case. *)
Definition file_ok (w : Watcher) : Prop :=
  ∃ l, unmarshal_Hardware (w_data w) = inr l ∧ Forall lower_MACs l.

Lemma hardwareHasMAC_spec hw v :
  lower_MACs hw → v ≠ "" → ToLower v = v → hardwareHasMAC hw v = true ↔ v ∈ GetMACs hw.
Proof.
  unfold lower_MACs, hardwareHasMAC, GetMACs. intros Hl Hv Hlow. rewrite existsb_exists. rewrite Forall_forall in Hl.
  setoid_rewrite list_elem_of_omap in Hl. rewrite list_elem_of_omap. split.
  - intros (i & Hi%list_elem_of_In & Hb). destruct (if_DHCP i) as [d|] eqn:Ed; [|done].
    apply bool_decide_eq_true_1 in Hb. rewrite Hlow in Hb.
    assert (dhcp_MAC d ≠ "") as Hne by (intros E; rewrite E in Hb; by apply Hv).
    exists i. split; [done|]. rewrite Ed, decide_False by done. f_equal.
    rewrite <-Hb. symmetry. apply Hl. exists i. split; [done|]. by rewrite Ed, decide_False.
  - intros (i & Hi & E). exists i. split; [by apply list_elem_of_In|]. destruct (if_DHCP i) as [d|]; [|done].
    case_decide; simplify_eq. by apply bool_decide_eq_true_2.
Qed.

Lemma hardwareHasIP_spec hw v : v ≠ "" → hardwareHasIP hw v = true ↔ v ∈ GetIPs hw.
Proof.
  unfold hardwareHasIP, GetIPs. intros Hv. rewrite existsb_exists, list_elem_of_omap. split.
  - intros (i & Hi%list_elem_of_In & Hb). exists i. split; [done|]. destruct (if_DHCP i) as [d|]; [|done].
    destruct (dhcp_IP d) as [ip|]; [|done]. apply bool_decide_eq_true_1 in Hb. subst. by rewrite decide_False.
  - intros (i & Hi & E). exists i. split; [by apply list_elem_of_In|]. destruct (if_DHCP i) as [d|]; [|done].
    destruct (dhcp_IP d) as [ip|]; [|done]. case_decide; simplify_eq. by apply bool_decide_eq_true_2.
Qed.

Lemma matchHardware_one hw ns sel v :
  lower_MACs hw → v ≠ "" → canonical sel v → matchHardware hw (filter_by ns sel v) = true ↔ selects ns sel v hw.
Proof.
  intros Hl Hv Hc. unfold matchHardware, selects.
  destruct (decide (ns = "" ∨ hw_Namespace hw = ns)) as [Hns|Hns]; last first.
  { rewrite decide_True by (destruct sel; simpl; tauto). naive_solver. }
  rewrite decide_False by (destruct sel; simpl; tauto).
  destruct sel; simpl; rewrite ?(decide_False (P := "" ≠ "" ∧ _)) by tauto.
  - rewrite list_elem_of_singleton. destruct (decide (v ≠ "" ∧ hw_Name hw ≠ v)) as [[_ ?]|Hn]; [naive_solver|].
    rewrite bool_decide_eq_true. destruct (decide (hw_Name hw = v)); [|tauto]. naive_solver.
  - rewrite list_elem_of_singleton. destruct (decide (v ≠ "" ∧ hs_AgentID (hw_Spec hw) ≠ v)) as [[_ ?]|Hn]; [naive_solver|].
    rewrite bool_decide_eq_true. destruct (decide (hs_AgentID (hw_Spec hw) = v)); [|tauto]. naive_solver.
  - rewrite bool_decide_eq_true_2 by done. rewrite <-(hardwareHasMAC_spec hw v) by auto.
    destruct (hardwareHasMAC hw v); simpl; [|naive_solver]. rewrite bool_decide_eq_true. naive_solver.
  - rewrite bool_decide_eq_true_2 by done. rewrite <-(hardwareHasIP_spec hw v) by done.
    destruct (hardwareHasIP hw v); simpl; [|naive_solver]. rewrite bool_decide_eq_true. naive_solver.
  - rewrite list_elem_of_singleton. destruct (decide (v ≠ "" ∧ instance_id hw ≠ v)) as [[_ ?]|Hn]; [naive_solver|].
    rewrite bool_decide_eq_true. destruct (decide (instance_id hw = v)); [|tauto]. naive_solver.
Qed.

Lemma file_lookup ns sel v w :
  file_ok w → v ≠ "" → canonical sel v →
  ∃ r, (file_FilterHardware (filter_by ns sel v) w, w) = (r, w) ∧ lookup_result (select ns sel v (file_objects w)) r.
Proof.
  intros (l & Hw & Hl) Hv Hc. eexists. split; [done|]. unfold file_FilterHardware, file_objects. rewrite Hw.
  assert (filter (λ hw, matchHardware hw (filter_by ns sel v) = true) l = select ns sel v l) as ->.
  { unfold select. clear Hw. induction Hl as [|hw l Hhw Hl IH]; [done|]. rewrite !filter_cons.
    pose proof (matchHardware_one hw ns sel v Hhw Hv Hc). rewrite IH. repeat case_decide; tauto. }
  destruct (select ns sel v l) as [|hw [|]]; simpl; eauto.
Qed.

#[export] Instance file_HardwareLookup : HardwareLookup Watcher := {
  hl_objects := file_objects;
  hl_ok := file_ok;
  hl_filter := file_lookup;
}.

End FileLookup.

