(* ===== verification/DhcpStore.v ===== *)
(** * DHCP over a backend

    The reservation handler on any backend that keeps the promise of a hardware
    lookup ([HardwareLookup] of Backends.v): which machines are answered, with
    which address, and that no address is given to two machines. *)
From S2P Require Import Prelude GoStrings GoNet GoNetip BmcTypes Api Dhcp DhcpConv DhcpHandler Backends.

(** ** The specification *)

Section Spec.
Context `{GoUrl}.

(** The reservation of a hardware address among the Hardware of a backend. *)
Definition assigned (l : list Hardware) (mac : list Z) : option (smee_DHCP * smee_Netboot) :=
  match select "" SelMAC (HardwareAddr_String mac) l with
  | [hw] =>
      match ConvertByMac mac (Some hw) with
      | inr r =>
          match sh_DHCP r, sh_Netboot r with
          | Some d, Some n => if sd_Disabled d then None else Some (d, n)
          | _, _ => None
          end
      | inl _ => None
      end
  | _ => None
  end.

(** The text of a hardware address is in lower case and not empty. *)
Lemma hex_digit_lower z : (0 ≤ z < 16)%Z → lower_char (hex_digit z) = hex_digit z.
Proof.
  intros Hz. assert (∃ n, n < 16 ∧ z = Z.of_nat n) as (n & Hn & ->) by (exists (Z.to_nat z); lia).
  do 16 (destruct n as [|n]; [done|]). lia.
Qed.

Lemma octet_bytes_lower o : octet o → lower_char <$> octet_bytes o = octet_bytes o.
Proof.
  unfold octet. intros Ho. unfold octet_bytes. csimpl.
  rewrite !hex_digit_lower; [done|split; [apply Z.mod_pos_bound; lia|apply Z.mod_pos_bound; lia]|].
  split; [apply Z.div_pos; lia|apply Z.div_lt_upper_bound; lia].
Qed.

Lemma sep_bytes_lower os : Forall octet os → lower_char <$> sep_bytes ":"%char os = sep_bytes ":"%char os.
Proof.
  induction 1 as [|o [|o' os] Ho _ IH]; [done|by apply octet_bytes_lower|].
  change (sep_bytes ":"%char (o :: o' :: os)) with (octet_bytes o ++ ":"%char :: sep_bytes ":"%char (o' :: os)).
  rewrite fmap_app, octet_bytes_lower by done. rewrite fmap_cons, IH. done.
Qed.

Lemma HardwareAddr_String_lower mac : Forall octet mac → ToLower (HardwareAddr_String mac) = HardwareAddr_String mac.
Proof. intros Ho. unfold ToLower, HardwareAddr_String. by rewrite bytes_of_of_bytes, sep_bytes_lower. Qed.

Lemma HardwareAddr_String_ne mac : mac ≠ [] → HardwareAddr_String mac ≠ "".
Proof.
  intros Hne E%(f_equal bytes_of). unfold HardwareAddr_String in E. rewrite bytes_of_of_bytes in E.
  pose proof (sep_bytes_length ":"%char mac Hne). rewrite E in *. destruct mac; [done|]. simpl in *. lia.
Qed.

End Spec.

(** ** Refinement *)

Section Refinement.
Context `{DhcpLib} `{!DhcpLaws} `{GoUrl} {W : Type} `{BackendReader W} `{!HardwareLookup W}.

Lemma reserved_assigned pkt w d n w' :
  hl_ok w → Forall octet (pk_ClientHWAddr pkt) → pk_ClientHWAddr pkt ≠ [] →
  reserved pkt w d n w' ↔ w' = w ∧ assigned (hl_objects w) (pk_ClientHWAddr pkt) = Some (d, n).
Proof.
  intros Hok Ho Hne. unfold reserved, assigned. set (mac := pk_ClientHWAddr pkt) in *.
  destruct (hl_filter "" SelMAC (HardwareAddr_String mac) w Hok) as (r & Hr & Hl);
    [by apply HardwareAddr_String_ne|intros _; by apply HardwareAddr_String_lower|].
  change (filter_by "" SelMAC (HardwareAddr_String mac)) with (by_mac mac) in Hr.
  destruct (select _ _ _ _) as [|hw [|hw' l]]; simpl in Hl.
  - destruct Hl as [m ->]. split; [intros (hw & ? & E & _); congruence|by intros [_ ?]].
  - subst r. split.
    + intros (hw0 & r & E & Hc & Hd & Hn & Hdis). rewrite Hr in E. injection E as <- <-. split; [done|].
      by rewrite Hc, Hd, Hn, Hdis.
    + intros [-> E]. destruct (ConvertByMac mac (Some hw)) as [|r] eqn:Ec; [done|].
      destruct (sh_DHCP r) as [d'|] eqn:Hd; [|done]. destruct (sh_Netboot r) as [n'|] eqn:Hn; [|done].
      destruct (sd_Disabled d') eqn:Hdis; [done|]. injection E as -> ->. exists hw, r. by split_and!.
  - destruct Hl as [m ->]. split; [intros (? & ? & E & _); congruence|by intros [_ ?]].
Qed.

Lemma offer_or_ack_ignored h ctx pkt t w :
  hl_ok w → Forall octet (pk_ClientHWAddr pkt) → pk_ClientHWAddr pkt ≠ [] →
  assigned (hl_objects w) (pk_ClientHWAddr pkt) = None → ∃ why, offer_or_ack h ctx pkt t w = (inl why, w).
Proof.
  intros Hok Ho Hne Hn. destruct (offer_or_ack h ctx pkt t w) as [[why|reply] w'] eqn:E.
  - exists why. f_equal. unfold offer_or_ack, readBackend in E.
    destruct (hl_filter "" SelMAC (HardwareAddr_String (pk_ClientHWAddr pkt)) w Hok) as (r & Hr & _);
      [by apply HardwareAddr_String_ne|intros _; by apply HardwareAddr_String_lower|].
    change (filter_by "" SelMAC (HardwareAddr_String (pk_ClientHWAddr pkt))) with (by_mac (pk_ClientHWAddr pkt)) in Hr.
    rewrite Hr in E. repeat (case_match; simplify_eq/=; try done).
  - apply offer_or_ack_spec in E as (d & n & Hr & _). apply reserved_assigned in Hr as [_ Hr]; [|done..]. congruence.
Qed.

(** C6: on any backend, the handler implements the table of reservations. A
    DISCOVER or REQUEST of a hardware address with a reservation is answered
    with the reserved address and the right message type; one without, or with
    several, is not answered; the backend is left as it was. *)
Theorem reservation_refines h ctx p pkt peer t w :
  hl_ok w → packet_checks true p = inr (pkt, peer) → answer_type (MessageType pkt) = Some t →
  Forall octet (pk_ClientHWAddr pkt) → pk_ClientHWAddr pkt ≠ [] →
  match assigned (hl_objects w) (pk_ClientHWAddr pkt) with
  | Some (d, n) =>
      ∃ reply, reservation_Handle h ctx true p w = (Sent reply (if_index p) (replyDestination peer (pk_GatewayIPAddr pkt)), w) ∧
        pk_YourIPAddr reply = AsSlice (sd_IPAddress d) ∧ MessageType reply = t ∧
        pk_TransactionID reply = pk_TransactionID pkt ∧ pk_ClientHWAddr reply = pk_ClientHWAddr pkt
  | None => ∃ why, reservation_Handle h ctx true p w = (Ignored why, w)
  end.
Proof.
  intros Hok Hp Ht Ho Hne. assert (0 ≤ t < 256)%Z as Htr
    by (unfold answer_type in Ht; repeat case_decide; simplify_eq; done).
  assert (reservation_Handle h ctx true p w =
    match offer_or_ack h ctx pkt t w with
    | (inl why, w) => (Ignored why, w)
    | (inr reply, w) => (Sent reply (if_index p) (replyDestination peer (pk_GatewayIPAddr pkt)), w)
    end) as ->.
  { unfold reservation_Handle. rewrite Hp. unfold answer_type in Ht. repeat case_decide; simplify_eq; done. }
  destruct (assigned _ _) as [[d n]|] eqn:Ea.
  - exists (updateMsg h ctx pkt d n t).
    assert (offer_or_ack h ctx pkt t w = (inr (updateMsg h ctx pkt d n t), w)) as ->.
    { apply offer_or_ack_spec. exists d, n. split; [|done]. by apply reserved_assigned. }
    destruct (updateMsg_spec h ctx pkt d n t Htr) as (? & ? & ? & ? & _). by split_and!.
  - destruct (offer_or_ack_ignored h ctx pkt t w Hok Ho Hne Ea) as [why ->]. eauto.
Qed.

End Refinement.

(** ** No address is given twice *)

Section Unique.
Context `{GoUrl}.

Definition iface_addr (i : Interface) : option Addr :=
  match if_DHCP i with
  | Some d =>
      match dhcp_IP d with
      | Some ip => match ParseAddr (ip_Address ip) with inr a => Some a | inl _ => None end
      | None => None
      end
  | None => None
  end.

Definition all_interfaces (l : list Hardware) : list Interface := l ≫= (λ hw, hs_Interfaces (hw_Spec hw)).

(** The addresses reserved in a backend, as they are parsed. *)
Definition all_addresses (l : list Hardware) : list Addr := omap iface_addr (all_interfaces l).

Lemma omap_NoDup_inj {A B} (f : A → option B) l i j x y b :
  NoDup (omap f l) → l !! i = Some x → l !! j = Some y → f x = Some b → f y = Some b → i = j.
Proof.
  revert i j. induction l as [|z l IH]; intros i j Hnd Hi Hj Hx Hy; [done|]. csimpl in Hnd.
  destruct i as [|i], j as [|j]; simplify_eq/=; [done|..].
  - exfalso. rewrite Hx in Hnd. apply NoDup_cons in Hnd as [Hni _]. apply Hni, list_elem_of_omap.
    exists y. split; [by eapply list_elem_of_lookup_2|done].
  - exfalso. rewrite Hy in Hnd. apply NoDup_cons in Hnd as [Hni _]. apply Hni, list_elem_of_omap.
    exists x. split; [by eapply list_elem_of_lookup_2|done].
  - f_equal. eapply IH; try done. destruct (f z); [by apply NoDup_cons in Hnd as [_ ?]|done].
Qed.

Lemma toDHCPData_addr h d a :
  toDHCPData (Some h) = inr d → sd_IPAddress d = a → a ≠ AddrNone →
  ∃ ip, dhcp_IP h = Some ip ∧ ParseAddr (ip_Address ip) = inr a.
Proof.
  simpl. intros E Ha Hne. case_match; [|done]. destruct (reserved_address (dhcp_IP h)) as [|[a' m]] eqn:Ea; [done|].
  destruct (reserved_gateway _); [done|]. destruct (convert_routes _); [done|]. injection E as <-. simpl in Ha. subst a'.
  unfold reserved_address in Ea. destruct (dhcp_IP h) as [ip|]; [|by injection Ea as <-].
  destruct (ParseAddr (ip_Address ip)) as [|a'] eqn:Ep; [done|]. exists ip. split; [done|].
  repeat case_match; simplify_eq; done.
Qed.

(** Where a reservation comes from. *)
Lemma assigned_interface l mac d n :
  Forall octet mac → length mac = 6 ∨ length mac = 8 ∨ length mac = 20 →
  assigned l mac = Some (d, n) → sd_IPAddress d ≠ AddrNone →
  ∃ i, i ∈ all_interfaces l ∧ has_mac (HardwareAddr_String mac) i ∧ iface_addr i = Some (sd_IPAddress d).
Proof.
  intros Ho Hl. unfold assigned. destruct (select _ _ _ l) as [|hw [|]] eqn:Es; [done| |done].
  assert (hw ∈ select "" SelMAC (HardwareAddr_String mac) l) as Hin by (rewrite Es; set_solver).
  apply list_elem_of_filter in Hin as [_ Hin].
  intros E Hne. destruct (ConvertByMac mac (Some hw)) as [|r] eqn:Ec; [done|].
  unfold ConvertByMac in Ec. destruct (list_find _ _) as [[k i]|] eqn:Ef; [|done].
  apply list_find_Some in Ef as (Hi & Hm & _). exists i. split_and!; [|done|].
  - apply list_elem_of_bind. exists hw. split; [by eapply list_elem_of_lookup_2|done].
  - unfold convert_interface, transform in Ec. destruct (toDHCPData (if_DHCP i)) as [|d0] eqn:Ed; [done|].
    destruct (toNetbootData _ _) as [|n0]; [done|].
    assert (sh_DHCP r = Some (set_Disabled (if_DisableDHCP i) d0)) as Hd by (repeat case_match; simplify_eq/=; done).
    rewrite Hd in E. destruct (sh_Netboot r); [|done]. destruct (sd_Disabled _); [done|]. injection E as <- <-.
    unfold iface_addr. destruct (if_DHCP i) as [h|]; [|done].
    destruct (toDHCPData_addr h d0 (sd_IPAddress d0) Ed eq_refl Hne) as (ip & -> & ->). done.
Qed.

(** When the addresses reserved in a backend are distinct, no two machines
    are given the same one: reservations of different hardware addresses differ,
    unless they hold no address at all. *)
Theorem reservations_unique l mac mac' d n d' n' :
  NoDup (all_addresses l) → Forall octet mac → Forall octet mac' →
  length mac = 6 ∨ length mac = 8 ∨ length mac = 20 → length mac' = 6 ∨ length mac' = 8 ∨ length mac' = 20 →
  assigned l mac = Some (d, n) → assigned l mac' = Some (d', n') →
  sd_IPAddress d = sd_IPAddress d' → sd_IPAddress d ≠ AddrNone → mac = mac'.
Proof.
  intros Hnd Ho Ho' Hl Hl' Ha Ha' E Hne.
  destruct (assigned_interface l mac d n Ho Hl Ha Hne) as (i & Hi & Hm & Hx).
  rewrite E in Hne. destruct (assigned_interface l mac' d' n' Ho' Hl' Ha' Hne) as (i' & Hi' & Hm' & Hx').
  apply list_elem_of_lookup in Hi as [k Hk], Hi' as [k' Hk']. rewrite E in Hx.
  pose proof (omap_NoDup_inj _ _ _ _ _ _ _ Hnd Hk Hk' Hx Hx') as ->. rewrite Hk in Hk'. injection Hk' as <-.
  unfold has_mac in Hm, Hm'. destruct (if_DHCP i) as [h|]; [|done].
  pose proof (ParseMAC_String mac Ho Hl) as P1. rewrite <-Hm, Hm', ParseMAC_String in P1 by done. congruence.
Qed.

End Unique.
