(* ===== verification/GoPath.v ===== *)
(** * Paths

    What the code uses of the packages path and path/filepath, on slash-separated
    paths. *)
From S2P Require Import Prelude GoStrings.

Definition slash : ascii := "/"%char.

(** The elements between slashes. *)
Fixpoint path_elements (l cur : list ascii) : list (list ascii) :=
  match l with
  | [] => [cur]
  | c :: l' => if decide (c = slash) then cur :: path_elements l' [] else path_elements l' (cur ++ [c])
  end.

(** [strings.Split(s, "/")]. *)
Definition Split_slash (s : string) : list string := of_bytes <$> path_elements (bytes_of s) [].

(** One element added to the elements kept so far, the last one first. *)
Definition clean_step (rooted : bool) (out : list string) (e : string) : list string :=
  if decide (e = "" ∨ e = ".") then out
  else if decide (e = "..") then
    match out with
    | [] => if rooted then [] else [".."]
    | x :: out' => if decide (x = "..") then e :: out else out'
    end
  else e :: out.

Definition is_rooted (p : string) : bool := bool_decide (head (bytes_of p) = Some slash).

(** [path.Clean]. *)
Definition path_Clean (p : string) : string :=
  let rooted := is_rooted p in
  let out := foldl (clean_step rooted) [] (of_bytes <$> path_elements (bytes_of p) []) in
  let s := (if rooted then "/" else "") +:+ Join (reverse out) "/" in
  if decide (s = "") then "." else s.

(** The bytes after the last slash, and those up to and with it. *)
Definition after_slash (l : list ascii) : list ascii := default [] (last (path_elements l [])).
Definition upto_slash (l : list ascii) : list ascii := take (length l - length (after_slash l)) l.

(** [path.Dir] and [path.Base]. *)
Definition path_Dir (p : string) : string := path_Clean (of_bytes (upto_slash (bytes_of p))).
Definition path_Base (p : string) : string :=
  if decide (p = "") then "."
  else
    let l := reverse (drop_while (λ c, bool_decide (c = slash)) (reverse (bytes_of p))) in
    let b := of_bytes (after_slash l) in
    if decide (b = "") then "/" else b.

(** [filepath.Ext]: from the last dot after the last slash. *)
Fixpoint ext_rev (r acc : list ascii) : list ascii :=
  match r with
  | [] => []
  | c :: r' => if decide (c = slash) then [] else if decide (c = "."%char) then c :: acc else ext_rev r' (c :: acc)
  end.
Definition path_Ext (p : string) : string := of_bytes (ext_rev (reverse (bytes_of p)) []).

Example path_Clean_ex : path_Clean "a/./b/../../c//d" = "c/d" ∧ path_Clean "/../x/" = "/x" ∧ path_Clean "" = "." ∧ path_Clean "../../a" = "../../a".
Proof. vm_compute. done. Qed.
Example path_Base_Dir_ex : path_Base (path_Dir "/iso/00:01:02:03:04:05/hook.iso") = "00:01:02:03:04:05" ∧ path_Ext "/a.b/hook.iso" = ".iso" ∧ path_Ext "/a.iso/hook" = "".
Proof. vm_compute. done. Qed.

(** ** Paths and their elements *)

Definition no_slash (s : string) : Prop := slash ∉ bytes_of s.

Lemma path_elements_clean l cur : slash ∉ cur → Forall (λ e, slash ∉ e) (path_elements l cur).
Proof.
  revert cur. induction l as [|c l IH]; intros cur Hc; simpl; [by constructor|].
  case_decide; [constructor; [done|apply IH; set_solver]|apply IH; set_solver].
Qed.

Lemma path_elements_join s t cur :
  no_slash s → path_elements (bytes_of s ++ slash :: t) cur = (cur ++ bytes_of s) :: path_elements t [].
Proof.
  unfold no_slash. revert cur. generalize (bytes_of s) as l. intros l. induction l as [|c l IH]; intros cur Hs; simpl.
  - by rewrite app_nil_r.
  - rewrite decide_False by set_solver. rewrite IH by set_solver. by rewrite <- (assoc (++)).
Qed.

Lemma path_elements_last s cur : no_slash s → path_elements (bytes_of s) cur = [cur ++ bytes_of s].
Proof.
  unfold no_slash. revert cur. generalize (bytes_of s) as l. intros l. induction l as [|c l IH]; intros cur Hs; simpl.
  - by rewrite app_nil_r.
  - rewrite decide_False by set_solver. rewrite IH by set_solver. by rewrite <- (assoc (++)).
Qed.

Lemma Split_no_slash s : Forall no_slash (Split_slash s).
Proof.
  unfold Split_slash. apply Forall_fmap. eapply Forall_impl; [apply path_elements_clean; set_solver|].
  intros e He. unfold no_slash. simpl. by rewrite bytes_of_of_bytes.
Qed.

Lemma Split_Join l : l ≠ [] → Forall no_slash l → Split_slash (Join l "/") = l.
Proof.
  intros Hne Hl. unfold Split_slash. induction Hl as [|s l Hs Hl IH]; [done|]. destruct l as [|s' l].
  - simpl Join. rewrite path_elements_last by done. simpl. by rewrite of_bytes_bytes_of.
  - change (Join (s :: s' :: l) "/") with (s +:+ "/" +:+ Join (s' :: l) "/"). rewrite !bytes_of_app.
    simpl app. change ("/"%char) with slash. rewrite path_elements_join by done. csimpl.
    rewrite of_bytes_bytes_of. f_equal. by apply IH.
Qed.

Lemma Join_inj l k : l ≠ [] → k ≠ [] → Forall no_slash l → Forall no_slash k → Join l "/" = Join k "/" → l = k.
Proof. intros Hl Hk Fl Fk E. by rewrite <- (Split_Join l), <- (Split_Join k), E. Qed.

Lemma Join_snoc l x : l ≠ [] → Join (l ++ [x]) "/" = Join [Join l "/"; x] "/".
Proof.
  intros Hl. induction l as [|s l IH]; [done|]. destruct l as [|s' l]; [done|].
  change (Join ((s :: s' :: l) ++ [x]) "/") with (s +:+ "/" +:+ Join ((s' :: l) ++ [x]) "/"). rewrite IH by done.
  simpl. by rewrite !string_app_assoc.
Qed.

(** ** Clean paths *)

(** An element that [path.Clean] keeps. *)
Definition proper (e : string) : Prop := no_slash e ∧ e ≠ "" ∧ e ≠ "." ∧ e ≠ "..".

(** The rooted path with the given elements. *)
Definition rooted_path (l : list string) : string := "/" +:+ Join l "/".

Lemma proper_no_slash l : Forall proper l → Forall no_slash l.
Proof. intros Hl. eapply Forall_impl; [exact Hl|]. by intros e [? _]. Qed.

Lemma clean_step_proper b out e : proper e → clean_step b out e = e :: out.
Proof. intros (_ & ? & ? & ?). unfold clean_step. rewrite !decide_False; [done|done|tauto]. Qed.

Lemma clean_steps_proper b l out : Forall proper l → foldl (clean_step b) out l = reverse l ++ out.
Proof.
  intros Hl. revert out. induction Hl as [|e l He Hl IH]; intros out; simpl; [done|].
  rewrite clean_step_proper, IH by done. by rewrite reverse_cons, <- (assoc (++)).
Qed.

Lemma Join_cons_empty l : l ≠ [] → Join ("" :: l) "/" = rooted_path l.
Proof. by destruct l. Qed.

Lemma Split_rooted l : Forall proper l → l ≠ [] → Split_slash (rooted_path l) = "" :: l.
Proof.
  intros Hl Hne. rewrite <- Join_cons_empty by done. apply Split_Join; [done|].
  constructor; [by intros ?%elem_of_nil|by apply proper_no_slash].
Qed.

Lemma path_Clean_eq s : path_Clean s =
  let s' := (if is_rooted s then "/" else "") +:+ Join (reverse (foldl (clean_step (is_rooted s)) [] (Split_slash s))) "/" in
  if decide (s' = "") then "." else s'.
Proof. done. Qed.

(** Cleaning a rooted path gives the elements that are kept, which are proper. *)
Lemma clean_steps_rooted es out :
  Forall no_slash es → Forall proper out → Forall proper (foldl (clean_step true) out es).
Proof.
  intros He. revert out. induction He as [|e es He _ IH]; intros out Ho; simpl; [done|]. apply IH. unfold clean_step.
  case_decide; [done|]. case_decide as E2.
  - destruct Ho as [|x out Hx Ho]; [constructor|]. case_decide as E3; [|done]. destruct Hx as (_ & _ & _ & []). done.
  - constructor; [|done]. split_and!; [done|tauto..].
Qed.

Lemma path_Clean_rooted s : is_rooted s = true → ∃ l, Forall proper l ∧ path_Clean s = rooted_path l.
Proof.
  intros Hr. rewrite path_Clean_eq, Hr. cbv zeta. eexists (reverse _). split.
  - apply Forall_reverse. apply clean_steps_rooted; [apply Split_no_slash|constructor].
  - by rewrite decide_False by done.
Qed.

Lemma path_Clean_id l : Forall proper l → path_Clean (rooted_path l) = rooted_path l.
Proof.
  intros Hl. rewrite path_Clean_eq. change (is_rooted (rooted_path l)) with true. cbv zeta.
  destruct (decide (l = [])) as [->|Hne]; [done|]. rewrite Split_rooted by done.
  change (foldl (clean_step true) [] ("" :: l)) with (foldl (clean_step true) [] l).
  rewrite clean_steps_proper, app_nil_r, reverse_involutive by done. by rewrite decide_False.
Qed.

Lemma Split_bytes s : path_elements (bytes_of s) [] = bytes_of <$> Split_slash s.
Proof.
  unfold Split_slash. rewrite <- list_fmap_compose. symmetry. rewrite <- (list_fmap_id (path_elements _ _)) at 2.
  apply list_fmap_ext. intros i x _. simpl. by rewrite bytes_of_of_bytes.
Qed.

Lemma rooted_snoc l x : rooted_path (l ++ [x]) = (if decide (l = []) then "/" else rooted_path l +:+ "/") +:+ x.
Proof.
  case_decide as E; [by subst|]. unfold rooted_path. rewrite Join_snoc by done. simpl. by rewrite !string_app_assoc.
Qed.

Lemma after_slash_rooted l x : Forall proper (l ++ [x]) → after_slash (bytes_of (rooted_path (l ++ [x]))) = bytes_of x.
Proof.
  intros Hl. unfold after_slash. rewrite Split_bytes, Split_rooted; [|done|by destruct l].
  rewrite fmap_cons, fmap_app. simpl. by rewrite last_cons, last_snoc.
Qed.

Lemma upto_slash_rooted l x :
  Forall proper (l ++ [x]) →
  of_bytes (upto_slash (bytes_of (rooted_path (l ++ [x])))) = if decide (l = []) then "/" else rooted_path l +:+ "/".
Proof.
  intros Hl. unfold upto_slash. rewrite after_slash_rooted by done. rewrite rooted_snoc, bytes_of_app, length_app.
  rewrite Nat.add_sub, take_app_length. apply of_bytes_bytes_of.
Qed.

Lemma path_Dir_rooted l x : Forall proper (l ++ [x]) → path_Dir (rooted_path (l ++ [x])) = rooted_path l.
Proof.
  intros Hl. unfold path_Dir. rewrite upto_slash_rooted by done. apply Forall_app in Hl as [Hl _].
  case_decide as E; [by subst|]. rewrite path_Clean_eq. change (is_rooted (rooted_path l +:+ "/")) with true. cbv zeta.
  assert (Split_slash (rooted_path l +:+ "/") = "" :: l ++ [""]) as ->.
  { rewrite <- (Split_Join ("" :: l ++ [""])).
    - f_equal. rewrite Join_cons_empty by (by destruct l). unfold rooted_path. rewrite Join_snoc by done. simpl.
      by rewrite string_app_nil_r, !string_app_assoc.
    - done.
    - constructor; [by intros ?%elem_of_nil|]. apply Forall_app. split; [by apply proper_no_slash|].
      constructor; [by intros ?%elem_of_nil|constructor]. }
  change (foldl (clean_step true) [] ("" :: l ++ [""])) with (foldl (clean_step true) [] (l ++ [""])).
  rewrite foldl_app, (clean_steps_proper true l []), app_nil_r by done.
  cbn [foldl]. change (clean_step true (reverse l) "") with (reverse l). rewrite reverse_involutive. by rewrite decide_False.
Qed.

Lemma bytes_last s c : proper s → last (bytes_of s) = Some c → c ≠ slash.
Proof. intros [Hs _] Hl ->. apply Hs. by apply last_Some_elem_of. Qed.

Lemma path_Base_rooted l x : Forall proper (l ++ [x]) → path_Base (rooted_path (l ++ [x])) = x.
Proof.
  intros Hl. pose proof Hl as [_ Hx]%Forall_app. rewrite Forall_singleton in Hx.
  unfold path_Base. rewrite decide_False by done.
  rewrite drop_while_false, reverse_involutive, after_slash_rooted, of_bytes_bytes_of; [|done|].
  - rewrite decide_False; [done|]. apply Hx.
  - intros c. rewrite head_reverse, rooted_snoc, bytes_of_app, last_app. 
    destruct (last (bytes_of x)) as [c'|] eqn:E; [|apply last_None in E; destruct Hx as (_ & [] & _); by apply bytes_of_inj].
    intros [= ->]. apply bool_decide_eq_false_2. by eapply bytes_last.
Qed.

(** [path.Join]. *)
Definition path_Join (l : list string) : string :=
  let l := filter (λ e, e ≠ "") l in if decide (l = []) then "" else path_Clean (Join l "/").

Lemma path_elements_app l t cur : path_elements (l ++ slash :: t) cur = path_elements l cur ++ path_elements t [].
Proof.
  revert cur. induction l as [|c l IH]; intros cur; simpl; [done|]. case_decide; [by rewrite IH|apply IH].
Qed.

Lemma Split_app s t : Split_slash (s +:+ "/" +:+ t) = Split_slash s ++ Split_slash t.
Proof. unfold Split_slash. rewrite <- fmap_app, !bytes_of_app. f_equal. apply path_elements_app. Qed.

Lemma Split_single e : no_slash e → Split_slash e = [e].
Proof. intros He. unfold Split_slash. rewrite path_elements_last by done. simpl. by rewrite of_bytes_bytes_of. Qed.

(** A rooted path whose elements, the empty ones left out, are proper. *)
Lemma path_Clean_elements s es :
  is_rooted s = true → filter (λ e, e ≠ "") (Split_slash s) = es → Forall proper es → path_Clean s = rooted_path es.
Proof.
  intros Hr He Hp. rewrite path_Clean_eq, Hr. cbv zeta. rewrite decide_False by done. unfold rooted_path. do 2 f_equal.
  assert (∀ l out, foldl (clean_step true) out l = foldl (clean_step true) out (filter (λ e, e ≠ "") l)) as Hf.
  { intros l. induction l as [|e l IH]; intros out; [done|]. rewrite filter_cons. case_decide as E; [apply IH|].
    subst e. apply IH. }
  rewrite Hf, He, clean_steps_proper, app_nil_r by done. apply reverse_involutive.
Qed.

Lemma filter_proper l : Forall proper l → filter (λ e, e ≠ "") l = l.
Proof. induction 1 as [|e l (_ & He & _) Hl IH]; [done|]. rewrite filter_cons_True by done. by rewrite IH. Qed.

Lemma Split_Join_rooted l k :
  Forall proper (l ++ k) → filter (λ e, e ≠ "") (Split_slash (Join (rooted_path l :: k) "/")) = l ++ k.
Proof.
  intros [Hl Hk]%Forall_app.
  assert (filter (λ e, e ≠ "") (Split_slash (rooted_path l)) = l) as Hr.
  { destruct (decide (l = [])) as [->|]; [done|]. rewrite Split_rooted, filter_cons_False by auto. by apply filter_proper. }
  destruct k as [|x k]; [by rewrite app_nil_r|].
  change (Join (rooted_path l :: x :: k) "/") with (rooted_path l +:+ "/" +:+ Join (x :: k) "/").
  rewrite Split_app, filter_app, Hr, Split_Join by (done || by apply proper_no_slash). by rewrite filter_proper.
Qed.

Lemma path_Join_rooted l k : Forall proper (l ++ k) → path_Join (rooted_path l :: k) = rooted_path (l ++ k).
Proof.
  intros Hl. unfold path_Join. rewrite filter_cons_True by done.
  rewrite filter_proper by (by apply Forall_app in Hl as [_ Hk]). rewrite decide_False by done.
  apply path_Clean_elements; [by destruct k|by apply Split_Join_rooted|done].
Qed.
