(* ===== verification/StaticRoute.v ===== *)
(** * Tootles: listings of the metadata

    tootles/internal/frontend/ec2/internal/staticroute: from the endpoints that
    serve data, the listing of every level above them. *)
From S2P Require Import Prelude GoStrings GoPath.

(** ** The builder *)

Abbreviation Builder := (gmap string (gset string)).
Record Route := mkRoute { r_Endpoint : string; r_Children : list string }.

Definition NewBuilder : Builder := ∅.

(** [b[k].Insert(x)], with a new set when there is none. *)
Definition builder_Insert (k x : string) (b : Builder) : Builder := <[k := {[x]} ∪ default ∅ (b !! k)]> b.

(** The loop of [FromEndpoint] from index [i] down to 1. *)
Fixpoint from_loop (split : list string) (i : nat) (b : Builder) : Builder :=
  match i with
  | 0 => b
  | S i' =>
      from_loop split i'
        (match split !! i with Some x => builder_Insert (Join (take i split) "/") x b | None => b end)
  end.

Definition with_slash (endpoint : string) : string := if HasPrefix endpoint "/" then endpoint else "/" +:+ endpoint.

Definition FromEndpoint (endpoint : string) (b : Builder) : Builder :=
  let split := Split_slash (with_slash endpoint) in from_loop split (length split - 1) b.

(** A child that is also a parent ends in a slash. *)
Definition mark_child (b : Builder) (parent child : string) : string :=
  if decide (is_Some (b !! Join [parent; child] "/")) then child +:+ "/" else child.

Definition route_of (b : Builder) (parent : string) (children : gset string) : Route :=
  mkRoute parent (merge_sort str_le (mark_child b parent <$> elements children)).

Definition route_le (r s : Route) : Prop := str_le (r_Endpoint r) (r_Endpoint s).

#[export] Instance route_le_dec r s : Decision (route_le r s).
Proof. unfold route_le. apply _. Defined.
#[export] Instance route_le_total : Total route_le.
Proof. intros r s. apply (total str_le). Qed.
#[export] Instance route_le_trans : Transitive route_le.
Proof. intros r s t. apply (transitivity (R := str_le)). Qed.

Definition Build (b : Builder) : list Route :=
  merge_sort route_le ((λ kc, route_of b kc.1 kc.2) <$> map_to_list b).

(** The builder of a list of endpoints. *)
Definition from_endpoints (eps : list string) : Builder := foldl (λ b e, FromEndpoint e b) NewBuilder eps.

Example build_nested :
  Build (from_endpoints ["/foo/bar"; "/foo/bar/baz"; "qux"]) =
    [mkRoute "" ["foo/"; "qux"]; mkRoute "/foo" ["bar/"]; mkRoute "/foo/bar" ["baz"]].
Proof. vm_compute. reflexivity. Qed.

(** ** What the builder holds *)

(** [x] is the element after [pre] in one of the endpoints. *)
Definition components (e : string) : list string := Split_slash (with_slash e).
Definition below (eps : list string) (pre : list string) (x : string) : Prop :=
  pre ≠ [] ∧ ∃ e post, e ∈ eps ∧ components e = pre ++ x :: post.

Definition held (b : Builder) (k x : string) : Prop := x ∈ default ∅ (b !! k).

Lemma held_Insert k' x' b k x : held (builder_Insert k' x' b) k x ↔ held b k x ∨ (k = k' ∧ x = x').
Proof.
  unfold held, builder_Insert. destruct (decide (k = k')) as [->|Hk].
  - rewrite lookup_insert_eq. simpl. set_solver.
  - rewrite lookup_insert_ne by done. naive_solver.
Qed.

Lemma held_loop split i b k x :
  held (from_loop split i b) k x ↔
  held b k x ∨ ∃ j, 0 < j ≤ i ∧ split !! j = Some x ∧ k = Join (take j split) "/".
Proof.
  revert b. induction i as [|i IH]; intros b; cbn [from_loop].
  { split; [by left|]. intros [|(j & ? & _)]; [done|lia]. }
  rewrite IH. destruct (split !! S i) as [y|] eqn:E.
  - rewrite held_Insert. split.
    + intros [[|[-> ->]]|(j & ? & ?)]; [by left|right; exists (S i); eauto with lia|right; exists j; eauto with lia].
    + intros [|(j & ? & Hj & ->)]; [by left; left|]. destruct (decide (j = S i)) as [->|]; [left; right; naive_solver|].
      right. exists j. eauto with lia.
  - split; [intros [|(j & ? & ?)]; [by left|right; exists j; eauto with lia]|].
    intros [|(j & ? & Hj & ->)]; [by left|]. destruct (decide (j = S i)) as [->|]; [congruence|]. right. exists j. eauto with lia.
Qed.

Lemma held_FromEndpoint e b k x :
  held (FromEndpoint e b) k x ↔ held b k x ∨ ∃ pre, k = Join pre "/" ∧ below [e] pre x.
Proof.
  unfold FromEndpoint. fold (components e). rewrite held_loop. f_equiv. unfold below. split.
  - intros (j & Hj & E & ->). exists (take j (components e)). split; [done|]. pose proof (lookup_lt_Some _ _ _ E).
    split; [intros E'%(f_equal length); rewrite length_take in E'; simpl in E'; lia|].
    exists e, (drop (S j) (components e)). split; [by left|]. by rewrite take_drop_middle.
  - intros (pre & -> & Hne & e' & post & ->%list_elem_of_singleton & E). rewrite E. exists (length pre).
    rewrite length_app. simpl. split; [destruct pre; simpl; [done|lia]|]. by rewrite list_lookup_middle, take_app_length.
Qed.

Lemma held_from_endpoints eps k x : held (from_endpoints eps) k x ↔ ∃ pre, k = Join pre "/" ∧ below eps pre x.
Proof.
  unfold from_endpoints. assert (∀ b, held (foldl (λ b e, FromEndpoint e b) b eps) k x ↔
    held b k x ∨ ∃ pre, k = Join pre "/" ∧ below eps pre x) as Hb.
  { induction eps as [|e eps IH]; intros b; simpl.
    - split; [by left|]. intros [|(? & _ & _ & ? & ? & ?%elem_of_nil & _)]; done.
    - rewrite IH, held_FromEndpoint. unfold below. set_solver. }
  rewrite Hb. unfold held at 1, NewBuilder. rewrite lookup_empty. set_solver.
Qed.

(** A set of children is never empty. *)
Lemma builder_nonempty eps k : is_Some (from_endpoints eps !! k) ↔ ∃ x, held (from_endpoints eps) k x.
Proof.
  split; [|intros [x Hx]; unfold held in Hx; destruct (_ !! k); [by eauto|set_solver]].
  unfold from_endpoints. assert (∀ b, (∀ k, is_Some (b !! k) → ∃ x, held b k x) →
    is_Some (foldl (λ b e, FromEndpoint e b) b eps !! k) → ∃ x, held (foldl (λ b e, FromEndpoint e b) b eps) k x) as Hb;
    [|apply Hb; unfold NewBuilder; by intros ? [? ?%lookup_empty_Some]].
  assert (∀ split i b, (∀ k, is_Some (b !! k) → ∃ x, held b k x) →
    ∀ k, is_Some (from_loop split i b !! k) → ∃ x, held (from_loop split i b) k x) as Hl.
  { intros split i. induction i as [|i IH]; intros b Hb; cbn [from_loop]; [done|]. apply IH.
    destruct (split !! S i) as [y|]; [|done]. intros k' Hk. setoid_rewrite held_Insert. unfold builder_Insert in Hk.
    apply lookup_insert_is_Some in Hk as [<-|[_ (x & Hx)%Hb]]; eauto. }
  induction eps as [|e eps IH]; intros b Hb; simpl; [apply Hb|]. apply IH. by apply Hl.
Qed.

Lemma below_no_slash eps pre x : below eps pre x → Forall no_slash (pre ++ [x]).
Proof.
  intros (_ & e & post & _ & E). pose proof (Split_no_slash (with_slash e)) as F. fold (components e) in F. rewrite E in F.
  rewrite (app_assoc pre [x] post : pre ++ x :: post = _) in F. by apply Forall_app in F as [F _].
Qed.

(** ** The listings *)

Definition descends (eps pre : list string) : Prop := ∃ y, below eps pre y.

Lemma mark_child_spec eps pre x :
  below eps pre x →
  ∃ c, mark_child (from_endpoints eps) (Join pre "/") x = c ∧
    ((c = x +:+ "/" ∧ descends eps (pre ++ [x])) ∨ (c = x ∧ ¬ descends eps (pre ++ [x]))).
Proof.
  intros Hb. pose proof (below_no_slash _ _ _ Hb) as Hn. unfold mark_child. rewrite <- Join_snoc by apply Hb.
  assert (is_Some (from_endpoints eps !! Join (pre ++ [x]) "/") ↔ descends eps (pre ++ [x])) as Hi.
  { rewrite builder_nonempty. apply exist_proper. intros y. rewrite held_from_endpoints. split; [|by eauto].
    intros (pre' & E & Hb'). replace (pre ++ [x]) with pre'; [done|]. symmetry.
    pose proof (below_no_slash _ _ _ Hb') as [Hn' _]%Forall_app. apply Join_inj; [by destruct pre|apply Hb'|done..]. }
  case_decide; rewrite Hi in *; eauto.
Qed.

Lemma elem_of_Build b r : r ∈ Build b ↔ ∃ k s, b !! k = Some s ∧ r = route_of b k s.
Proof.
  unfold Build. rewrite merge_sort_Permutation, list_elem_of_fmap. split.
  - intros ([k s] & -> & ?%elem_of_map_to_list). eauto.
  - intros (k & s & Hk & ->). exists (k, s). by rewrite elem_of_map_to_list.
Qed.

Lemma route_children b k s c : c ∈ r_Children (route_of b k s) ↔ ∃ x, x ∈ s ∧ mark_child b k x = c.
Proof. simpl. rewrite merge_sort_Permutation, list_elem_of_fmap. set_solver. Qed.

(** The listings that are built from the endpoints: one for each path an
    endpoint goes through, sorted by path; the entries of a listing, sorted, are
    exactly the elements that follow that path in an endpoint, with a slash when
    there is a listing below them. *)
Theorem Build_listings eps :
  let routes := Build (from_endpoints eps) in
  StronglySorted route_le routes ∧ NoDup (r_Endpoint <$> routes) ∧
  (∀ p, p ∈ r_Endpoint <$> routes ↔ ∃ pre, p = Join pre "/" ∧ descends eps pre) ∧
  ∀ r, r ∈ routes → StronglySorted str_le (r_Children r) ∧
    ∀ c, c ∈ r_Children r ↔ ∃ pre x, r_Endpoint r = Join pre "/" ∧ below eps pre x ∧
      ((c = x +:+ "/" ∧ descends eps (pre ++ [x])) ∨ (c = x ∧ ¬ descends eps (pre ++ [x]))).
Proof.
  intros routes. split_and!.
  - apply StronglySorted_merge_sort; apply _.
  - unfold routes, Build. rewrite merge_sort_Permutation, <- list_fmap_compose.
    rewrite (list_fmap_ext (r_Endpoint ∘ _) fst) by done. apply NoDup_fst_map_to_list.
  - intros p. rewrite list_elem_of_fmap. unfold descends. split.
    + intros (r & -> & (k & s & Hk & ->)%elem_of_Build). destruct (proj1 (builder_nonempty eps k)) as [x Hx]; [by eauto|].
      apply held_from_endpoints in Hx as (pre & -> & Hb). eauto.
    + intros (pre & -> & x & Hb). destruct (proj2 (builder_nonempty eps (Join pre "/"))) as [s Hs].
      { exists x. apply held_from_endpoints. eauto. }
      exists (route_of (from_endpoints eps) (Join pre "/") s). split; [done|]. apply elem_of_Build. eauto.
  - intros r (k & s & Hk & ->)%elem_of_Build. split; [apply StronglySorted_merge_sort; apply _|]. intros c.
    rewrite route_children. assert (∀ x, x ∈ s ↔ held (from_endpoints eps) k x) as Hs by (intros; unfold held; by rewrite Hk).
    setoid_rewrite Hs. setoid_rewrite held_from_endpoints. split.
    + intros (x & (pre & -> & Hb) & <-). destruct (mark_child_spec _ _ _ Hb) as (c & -> & Hc). eauto.
    + intros (pre & x & E & Hb & Hc). simpl in E. subst k. exists x. split; [eauto|].
      destruct (mark_child_spec _ _ _ Hb) as (c' & -> & Hc'). naive_solver.
Qed.
