(* ===== verification/Tootles.v ===== *)
(** * Tootles: the metadata service

    tootles/internal/backend/backend.go, frontend/ec2/frontend.go and routes.go,
    frontend/hack/hack.go, ginutil/router.go, http/request and the records of
    pkg/data/instance.go. A handler returns the status and the body of its
    response. The router (gin) is the table of the routes that are registered. *)
From S2P Require Import Prelude GoStrings GoPath GoNet GoNetip BmcTypes Api DhcpConv Backends StaticRoute.

(** ** net.SplitHostPort *)

Definition IndexByte (c : ascii) (l : list ascii) : option nat := fst <$> list_find (c =.) l.
Definition LastIndexByte (c : ascii) (l : list ascii) : option nat := (λ i, length l - 1 - i) <$> IndexByte c (reverse l).

(** The host, when the text is well formed. *)
Definition split_host (l : list ascii) : option (list ascii) :=
  i ← LastIndexByte ":"%char l;
  if decide (head l = Some "["%char) then
    e ← IndexByte "]"%char l;
    if decide (e + 1 = i ∧ IndexByte "["%char (drop 1 l) = None ∧ IndexByte "]"%char (drop (e + 1) l) = None)
    then Some (take (e - 1) (drop 1 l)) else None
  else
    let host := take i l in
    if decide (IndexByte ":"%char host = None ∧ IndexByte "["%char l = None ∧ IndexByte "]"%char l = None)
    then Some host else None.

(** [request.RemoteAddrIP]. *)
Definition RemoteAddrIP (addr : string) : option string := of_bytes <$> split_host (bytes_of addr).

Example RemoteAddrIP_ex :
  RemoteAddrIP "192.168.1.10:4711" = Some "192.168.1.10" ∧ RemoteAddrIP "[fe80::1]:80" = Some "fe80::1" ∧
  RemoteAddrIP "fe80::1" = None ∧ RemoteAddrIP "192.168.1.10" = None ∧ RemoteAddrIP "[::1]" = None.
Proof. vm_compute. done. Qed.

(** ** pkg/data/instance.go *)

Record LicenseActivation := mkLicenseActivation { la_State : string }.

Record OperatingSystem := mkOperatingSystem {
  os_Slug : string;
  os_Distro : string;
  os_Version : string;
  os_ImageTag : string;
  os_LicenseActivation : LicenseActivation;
}.

Record ec2_Metadata := mkec2_Metadata {
  em_InstanceID : string;
  em_Hostname : string;
  em_LocalHostname : string;
  em_IQN : string;
  em_Plan : string;
  em_Facility : string;
  em_Tags : list string;
  em_PublicKeys : list string;
  em_PublicIPv4 : string;
  em_PublicIPv6 : string;
  em_LocalIPv4 : string;
  em_OperatingSystem : OperatingSystem;
}.

Record Ec2Instance := mkEc2Instance { ei_Userdata : string; ei_Metadata : ec2_Metadata }.

Definition zero_OperatingSystem : OperatingSystem := mkOperatingSystem "" "" "" "" (mkLicenseActivation "").
Definition zero_Ec2Instance : Ec2Instance :=
  mkEc2Instance "" (mkec2_Metadata "" "" "" "" "" "" [] [] "" "" "" zero_OperatingSystem).

(** ** backend.go *)

(** The addresses: the first public and the first private one of family 4, the
    first one of family 6. [None] for the nil pointer the loop dereferences. *)
Record ec2_ips := mkec2_ips { ei_PublicIPv4 : string; ei_LocalIPv4 : string; ei_PublicIPv6 : string }.

Definition take_ip (ip : MetadataInstanceIP) (a : ec2_ips) : ec2_ips :=
  let a := if decide (mip_Family ip = 4%Z ∧ mip_Public ip = true ∧ ei_PublicIPv4 a = "")
           then mkec2_ips (mip_Address ip) (ei_LocalIPv4 a) (ei_PublicIPv6 a) else a in
  let a := if decide (mip_Family ip = 4%Z ∧ mip_Public ip = false ∧ ei_LocalIPv4 a = "")
           then mkec2_ips (ei_PublicIPv4 a) (mip_Address ip) (ei_PublicIPv6 a) else a in
  if decide (mip_Family ip = 6%Z ∧ ei_PublicIPv6 a = "")
  then mkec2_ips (ei_PublicIPv4 a) (ei_LocalIPv4 a) (mip_Address ip) else a.

Fixpoint take_ips (l : list (option MetadataInstanceIP)) (a : ec2_ips) : option ec2_ips :=
  match l with
  | [] => Some a
  | None :: _ => None
  | Some ip :: l' => take_ips l' (take_ip ip a)
  end.

Definition ec2_os (o : option MetadataInstanceOperatingSystem) : OperatingSystem :=
  match o with
  | Some o => mkOperatingSystem (mos_Slug o) (mos_Distro o) (mos_Version o) (mos_ImageTag o) (mkLicenseActivation "")
  | None => zero_OperatingSystem
  end.

Definition toEC2Instance (hw : Hardware) : option Ec2Instance :=
  let md := hs_Metadata (hw_Spec hw) in
  let '(plan, facility) :=
    match md ≫= hm_Facility with Some f => (mfc_PlanSlug f, mfc_FacilityCode f) | None => ("", "") end in
  let userdata := default "" (hs_UserData (hw_Spec hw)) in
  match md ≫= hm_Instance with
  | Some i =>
      a ← take_ips (mi_Ips i) (mkec2_ips "" "" "");
      Some (mkEc2Instance userdata
              (mkec2_Metadata (mi_ID i) (mi_Hostname i) (mi_Hostname i) "" plan facility (mi_Tags i) []
                 (ei_PublicIPv4 a) (ei_PublicIPv6 a) (ei_LocalIPv4 a) (ec2_os (mi_OperatingSystem i))))
  | None => Some (mkEc2Instance userdata (mkec2_Metadata "" "" "" "" plan facility [] [] "" "" "" zero_OperatingSystem))
  end.

(** [errors.As] for an error with a method [NotFound]. *)
Fixpoint isNotFound (e : error) : bool :=
  match e with
  | ErrNotFound _ => true
  | ErrWrap _ e | ErrPermanent e | ErrNoActions _ e => isNotFound e
  | ErrJoin e1 e2 => isNotFound e1 || isNotFound e2
  | _ => false
  end.

(** An error of the backend: one that wraps [ErrInstanceNotFound] beside its
    cause, or another one. *)
Inductive ec2_error := InstanceNotFound (cause : error) | OtherError (e : error).

Definition toInstanceNotFoundErr (e : error) : ec2_error := if isNotFound e then InstanceNotFound e else OtherError e.

Section Backend.
Context {W : Type} `{BackendReader W}.

(** [None] inside the result is the panic of [toEC2Instance]. *)
Definition get_ec2 (f : HardwareFilter) (w : W) : (ec2_error + option Ec2Instance) * W :=
  match FilterHardware f w with
  | (inl e, w) => (inl (toInstanceNotFoundErr e), w)
  | (inr hw, w) => (inr (toEC2Instance hw), w)
  end.

Definition GetEC2Instance (ip : string) : W → (ec2_error + option Ec2Instance) * W := get_ec2 (mkHardwareFilter "" "" "" "" ip "").
Definition GetEC2InstanceByInstanceID (id : string) : W → (ec2_error + option Ec2Instance) * W :=
  get_ec2 (mkHardwareFilter "" "" "" "" "" id).

End Backend.

(** ** routes.go *)

Definition nl : string := String (ascii_of_nat 10) "".
Definition ec2_join (v : list string) : string := Join v nl.

Definition dataRoutes : list (string * (Ec2Instance → string)) :=
  [("/user-data", ei_Userdata);
   ("/meta-data/instance-id", λ i, em_InstanceID (ei_Metadata i));
   ("/meta-data/hostname", λ i, em_Hostname (ei_Metadata i));
   ("/meta-data/local-hostname", λ i, em_LocalHostname (ei_Metadata i));
   ("/meta-data/iqn", λ i, em_IQN (ei_Metadata i));
   ("/meta-data/plan", λ i, em_Plan (ei_Metadata i));
   ("/meta-data/facility", λ i, em_Facility (ei_Metadata i));
   ("/meta-data/tags", λ i, ec2_join (em_Tags (ei_Metadata i)));
   ("/meta-data/public-ipv4", λ i, em_PublicIPv4 (ei_Metadata i));
   ("/meta-data/public-ipv6", λ i, em_PublicIPv6 (ei_Metadata i));
   ("/meta-data/local-ipv4", λ i, em_LocalIPv4 (ei_Metadata i));
   ("/meta-data/public-keys", λ i, ec2_join (em_PublicKeys (ei_Metadata i)));
   ("/meta-data/operating-system/slug", λ i, os_Slug (em_OperatingSystem (ei_Metadata i)));
   ("/meta-data/operating-system/distro", λ i, os_Distro (em_OperatingSystem (ei_Metadata i)));
   ("/meta-data/operating-system/version", λ i, os_Version (em_OperatingSystem (ei_Metadata i)));
   ("/meta-data/operating-system/image_tag", λ i, os_ImageTag (em_OperatingSystem (ei_Metadata i)));
   ("/meta-data/operating-system/license_activation/state",
      λ i, la_State (os_LicenseActivation (em_OperatingSystem (ei_Metadata i))))].

(** ** frontend.go *)

(** The two groups of routes, and what a route answers. *)
Inductive ec2_group := V20090404 | ViaInstanceID.
Inductive ec2_handler := ServeData (filter : Ec2Instance → string) | ServeText (text : string).

#[export] Instance ec2_group_eq_dec : EqDecision ec2_group.
Proof. solve_decision. Defined.

(** [TrailingSlashRouteHelper.GET]: the endpoint and its alternate. *)
Definition HasSuffix_slash (s : string) : bool := bool_decide (last (bytes_of s) = Some slash).
Definition alternateEndpoint (s : string) : string :=
  if HasSuffix_slash s then of_bytes (removelast (bytes_of s)) else s +:+ "/".

Definition route_table : Type := list ((ec2_group * string) * ec2_handler).
Definition GET (g : ec2_group) (endpoint : string) (h : ec2_handler) : route_table :=
  [((g, endpoint), h); ((g, alternateEndpoint endpoint), h)].

Definition groups (instanceEndpoint : bool) : list ec2_group := V20090404 :: (if instanceEndpoint then [ViaInstanceID] else []).

Definition staticRoutes : list Route := Build (from_endpoints (fst <$> dataRoutes)).

Definition Configure (instanceEndpoint : bool) : route_table :=
  (r ← dataRoutes; g ← groups instanceEndpoint; GET g r.1 (ServeData r.2))
  ++ (r ← staticRoutes; g ← groups instanceEndpoint; GET g (r_Endpoint r) (ServeText (ec2_join (r_Children r)))).

Record http_response := mkhttp_response { hr_Code : Z; hr_Body : string }.

(** An error with its status code ([httperror.E]). *)
Definition http_error : Type := Z * string.

(** The answer of the client for a request. *)
Definition instance_result (not_found : string) (r : ec2_error + option Ec2Instance) : option (http_error + Ec2Instance) :=
  match r with
  | inl (InstanceNotFound _) => Some (inl (404%Z, not_found))
  | inl (OtherError e) => Some (inl (if IsNotFound e then (404%Z, not_found) else (500%Z, error_msg e)))
  | inr None => None
  | inr (Some i) => Some (inr i)
  end.

Definition writeInstanceDataOrErrToHTTP (r : http_error + Ec2Instance) (filter : Ec2Instance → string) : http_response :=
  match r with
  | inl (code, _) => mkhttp_response code ""
  | inr i => mkhttp_response 200 (filter i)
  end.

Section Frontend.
Context {W : Type} `{BackendReader W}.

Definition getInstanceViaIP (remoteAddr : string) (w : W) : option (http_error + Ec2Instance) * W :=
  match RemoteAddrIP remoteAddr with
  | None => (Some (inl (400%Z, "invalid remote addr")), w)
  | Some ip =>
      let '(r, w) := GetEC2Instance ip w in (instance_result ("no hardware found for source ip: " +:+ ip) r, w)
  end.

Definition getInstanceViaInstanceID (instanceID : string) (w : W) : option (http_error + Ec2Instance) * W :=
  if decide (TrimSpace instanceID = "") then (Some (inl (404%Z, "instance ID parameter is empty or invalid")), w)
  else
    let '(r, w) := GetEC2InstanceByInstanceID instanceID w in
    (instance_result ("no hardware found for instanceID: '" +:+ instanceID +:+ "'") r, w).

(** A request: the group it goes to, the remote address, the instance ID in the
    path and the path below the group. [None] is a panic. *)
Definition ec2_serve (table : route_table) (g : ec2_group) (remoteAddr instanceID path : string) (w : W)
    : option http_response * W :=
  match list_find (λ r, r.1 = (g, path)) table with
  | None => (Some (mkhttp_response 404 "404 page not found"), w)
  | Some (_, (_, ServeText s)) => (Some (mkhttp_response 200 s), w)
  | Some (_, (_, ServeData f)) =>
      let '(r, w) := match g with V20090404 => getInstanceViaIP remoteAddr w | ViaInstanceID => getInstanceViaInstanceID instanceID w end in
      ((λ r, writeInstanceDataOrErrToHTTP r f) <$> r, w)
  end.

(** *** hack.go *)

(** The handler of /metadata, with [to_hack] the conversion of the spec through
    JSON and [api_IsNotFound] the test of API errors. A bad remote address writes
    the status 400 and goes on, with an empty address. *)
Definition hack_metadata (to_hack : HardwareSpec → res string) (api_IsNotFound : error → bool) (remoteAddr : string) (w : W)
    : http_response * W :=
  let ip := default "" (RemoteAddrIP remoteAddr) in
  let status (code : Z) := if decide (RemoteAddrIP remoteAddr = None) then 400%Z else code in
  let '(r, w) := FilterHardware (mkHardwareFilter "" "" "" "" ip "") w in
  let i := match r with inl e => inl e | inr hw => to_hack (hw_Spec hw) end in
  (match i with
   | inl e => mkhttp_response (status (if api_IsNotFound e then 404%Z else 500%Z)) ""
   | inr json => mkhttp_response (status 200%Z) json
   end, w).

End Frontend.

(** ** The routes *)

(** The listing or data route a listed child stands for. *)
Definition child_path (p c : string) : string := p +:+ "/" +:+ c.

(** No route is registered twice (the router panics when one is), what a listing
    shows is served, and every data endpoint is shown by the listing above it. *)
Lemma Configure_NoDup b : NoDup (fst <$> Configure b).
Proof. destruct b; by_decide. Qed.

Lemma find_route (t : route_table) k h : NoDup (fst <$> t) → (k, h) ∈ t → ∃ i, list_find (λ r, r.1 = k) t = Some (i, (k, h)).
Proof.
  intros Hn [i Hi]%list_elem_of_lookup. exists i. apply list_find_Some. split_and!; [done|done|].
  intros j [k' h'] Hj Hlt E. simpl in E. subst k'. apply (Nat.lt_irrefl i). assert (j = i) as <-; [|done].
  eapply NoDup_lookup; [apply Hn| |]; rewrite list_lookup_fmap; [by rewrite Hj|by rewrite Hi].
Qed.

(** A data endpoint, with or without a slash at its end, is found. *)
Lemma data_route b g e f p :
  (e, f) ∈ dataRoutes → g ∈ groups b → p = e ∨ p = e +:+ "/" → ((g, p), ServeData f) ∈ Configure b.
Proof.
  intros He Hg Hp. unfold Configure. apply elem_of_app. left. apply list_elem_of_bind. exists (e, f). split; [|done].
  apply list_elem_of_bind. exists g. split; [|done]. simpl. unfold GET, alternateEndpoint.
  assert (Forall (λ e, HasSuffix_slash e = false) (fst <$> dataRoutes)) as Hs by by_decide.
  rewrite Forall_forall in Hs. rewrite (Hs e) by (apply list_elem_of_fmap; by exists (e, f)).
  destruct Hp as [->| ->]; [left|right; left].
Qed.

(** An entry of a listing names another listing, or a data endpoint. *)
Definition entry_served (r : Route) (c : string) : Prop :=
  (HasSuffix_slash c = true ∧ child_path (r_Endpoint r) (alternateEndpoint c) ∈ r_Endpoint <$> staticRoutes) ∨
  (HasSuffix_slash c = false ∧ child_path (r_Endpoint r) c ∈ fst <$> dataRoutes).
Definition listed (p : string) : Prop :=
  Exists (λ r, Exists (λ c, child_path (r_Endpoint r) c = p) (r_Children r)) staticRoutes.

#[export] Instance entry_served_dec r c : Decision (entry_served r c).
Proof. unfold entry_served. apply _. Defined.
#[export] Instance listed_dec p : Decision (listed p).
Proof. unfold listed. apply _. Defined.

(** The metadata can be walked from its root. In every listing, an entry with a
    slash names another listing and one without names a data endpoint; every data
    endpoint is an entry of the listing above it, and every listing but the root
    too. No route is registered twice, which would stop the program. *)
Theorem ec2_navigable b :
  NoDup (fst <$> Configure b) ∧
  Forall (λ r, Forall (entry_served r) (r_Children r)) staticRoutes ∧
  Forall listed (fst <$> dataRoutes) ∧
  Forall (λ p, p = "" ∨ listed (p +:+ "/")) (r_Endpoint <$> staticRoutes).
Proof. split; [apply Configure_NoDup|]. split; [by_decide|]. split; by_decide. Qed.

(** ** The answers *)

(** The selector and the value by which a request is looked up. *)
Definition ec2_key (g : ec2_group) (remoteAddr instanceID : string) : option (Selector * string) :=
  match g with
  | V20090404 => pair SelIP <$> RemoteAddrIP remoteAddr
  | ViaInstanceID => if decide (TrimSpace instanceID = "") then None else Some (SelInstanceID, instanceID)
  end.

Section Answers.
Context {W : Type} `{BackendReader W} `{!HardwareLookup W}.

Lemma get_instance g remoteAddr instanceID sel v w r :
  ec2_key g remoteAddr instanceID = Some (sel, v) → FilterHardware (filter_by "" sel v) w = (r, w) →
  ∃ m, (match g with V20090404 => getInstanceViaIP remoteAddr w | ViaInstanceID => getInstanceViaInstanceID instanceID w end) =
    (instance_result m (match r with inl e => inl (toInstanceNotFoundErr e) | inr hw => inr (toEC2Instance hw) end), w).
Proof.
  intros Hk Hr. destruct g; simpl in Hk.
  - destruct (RemoteAddrIP remoteAddr) as [ip|] eqn:E; simplify_eq/=. unfold getInstanceViaIP, GetEC2Instance, get_ec2.
    simpl in Hr. rewrite E, Hr. eexists. by destruct r.
  - case_decide as Ht; simplify_eq/=. unfold getInstanceViaInstanceID, GetEC2InstanceByInstanceID, get_ec2.
    simpl in Hr. rewrite decide_False, Hr by done. eexists. by destruct r.
Qed.


End Answers.

(** The addresses shown are the first ones of their kind that are not empty. *)
Definition first_address (P : MetadataInstanceIP → Prop) `{∀ ip, Decision (P ip)} (l : list MetadataInstanceIP) : string :=
  default "" (mip_Address <$> head (filter (λ ip, P ip ∧ mip_Address ip ≠ "") l)).

Lemma first_address_cons P `{∀ ip, Decision (P ip)} ip l :
  first_address P (ip :: l) = if decide (P ip ∧ mip_Address ip ≠ "") then mip_Address ip else first_address P l.
Proof. unfold first_address. rewrite filter_cons. by case_decide. Qed.

Definition or_else (s t : string) : string := if decide (s = "") then t else s.

Lemma take_ips_first l a :
  take_ips (Some <$> l) a =
    Some (mkec2_ips (or_else (ei_PublicIPv4 a) (first_address (λ ip, mip_Family ip = 4%Z ∧ mip_Public ip = true) l))
                    (or_else (ei_LocalIPv4 a) (first_address (λ ip, mip_Family ip = 4%Z ∧ mip_Public ip = false) l))
                    (or_else (ei_PublicIPv6 a) (first_address (λ ip, mip_Family ip = 6%Z) l))).
Proof.
  revert a. induction l as [|ip l IH]; intros [p4 l4 p6]; csimpl.
  - unfold first_address, or_else. simpl. by repeat case_decide; subst.
  - rewrite IH, !first_address_cons. unfold take_ip, or_else. simpl. do 2 f_equal.
    all: repeat case_decide; simpl in *; repeat case_decide; naive_solver.
Qed.
