(* ===== verification/IpxeScript.v ===== *)
(** * Smee: iPXE scripts

    smee/internal/ipxe/script: the templates of the scripts, written out as the
    text they produce, and the handler that chooses one for a machine; and from
    smee.go the path of the script that a DHCP answer names. Parsing of URLs is the
    class [GoUrl]. *)
From S2P Require Import Prelude GoStrings GoPath GoNet GoNetip BmcTypes Api Dhcp DhcpConv Tootles.

(** ** The templates *)

Definition text_lines (l : list string) : string := Join l nl.
Definition concat_str (l : list string) : string := Join l "".

Record Hook := mkHook {
  hk_Arch : string;
  hk_Console : string;
  hk_DownloadURL : string;
  hk_ExtraKernelParams : list string;
  hk_Facility : string;
  hk_HWAddr : string;
  hk_SyslogHost : string;
  hk_TinkerbellTLS : bool;
  hk_TinkerbellInsecureTLS : bool;
  hk_TinkGRPCAuthority : string;
  hk_TraceID : string;
  hk_VLANID : string;
  hk_WorkerID : string;
  hk_Retries : Z;
  hk_RetryDelay : Z;
  hk_KernelName : string;
  hk_InitrdName : string;
}.

Definition HookScript (h : Hook) : string :=
  "#!ipxe" +:+
  (if decide (hk_SyslogHost h ≠ "") then text_lines ["";
    "# iPXE can only set the syslog server to an IP address, not a hostname (https://ipxe.org/cfg/syslog).";
    "# If target is an IP, save it directly; if not, resolve it via nslookup directly into the syslog variable.";
    "set check:ipv4 "] +:+
  hk_SyslogHost h +:+
  " && set syslog " +:+
  hk_SyslogHost h +:+
  " || nslookup syslog " +:+
  hk_SyslogHost h +:+
  " || echo [WARN] Failed to resolve syslog host " +:+
  hk_SyslogHost h +:+
  text_lines ["";
    "clear check"] else "") +:+
  text_lines ["";
    "";
    "echo Loading the Tinkerbell Hook iPXE script..."] +:+
  (if decide (hk_TraceID h ≠ "") then text_lines ["";
    "echo Debug TraceID: "] +:+
  hk_TraceID h else "") +:+
  text_lines ["";
    "";
    "set arch "] +:+
  hk_Arch h +:+
  text_lines ["";
    "set download-url "] +:+
  hk_DownloadURL h +:+
  text_lines ["";
    "set kernel "] +:+
  (if decide (hk_KernelName h ≠ "") then hk_KernelName h else "vmlinuz-${arch}") +:+
  text_lines ["";
    "set initrd "] +:+
  (if decide (hk_InitrdName h ≠ "") then hk_InitrdName h else "initramfs-${arch}") +:+
  text_lines ["";
    "set retries:int32 "] +:+
  Itoa (hk_Retries h) +:+
  text_lines ["";
    "set retry_delay:int32 "] +:+
  Itoa (hk_RetryDelay h) +:+
  text_lines ["";
    "";
    "set idx:int32 0";
    ":retry_kernel";
    "kernel ${download-url}/${kernel}"] +:+
  (if decide (hk_VLANID h ≠ "") then " vlan_id=" +:+
  hk_VLANID h else "") +:+
  text_lines [" \";
    "facility="] +:+
  hk_Facility h +:+
  " syslog_host=" +:+
  hk_SyslogHost h +:+
  " grpc_authority=" +:+
  hk_TinkGRPCAuthority h +:+
  " tinkerbell_tls=" +:+
  bool_str (hk_TinkerbellTLS h) +:+
  " tinkerbell_insecure_tls=" +:+
  bool_str (hk_TinkerbellInsecureTLS h) +:+
  " worker_id=" +:+
  hk_WorkerID h +:+
  " hw_addr=" +:+
  hk_HWAddr h +:+
  text_lines [" \";
    "modules=loop,squashfs,sd-mod,usb-storage intel_iommu=on iommu=pt initrd=${initrd} console=tty0 console=ttyS1,115200"] +:+
  concat_str ((λ param, " " +:+
  param) <$> hk_ExtraKernelParams h) +:+
  text_lines [" && goto download_initrd || iseq ${idx} ${retries} && goto kernel-error || inc idx && echo retry in ${retry_delay} seconds ; sleep ${retry_delay} ; goto retry_kernel";
    "";
    ":download_initrd";
    "set idx:int32 0";
    ":retry_initrd";
    "initrd ${download-url}/${initrd} && goto boot || iseq ${idx} ${retries} && goto initrd-error || inc idx && echo retry in ${retry_delay} seconds ; sleep ${retry_delay} ; goto retry_initrd";
    "";
    ":boot";
    "set idx:int32 0";
    ":retry_boot";
    "boot || iseq ${idx} ${retries} && goto boot-error || inc idx && echo retry in ${retry_delay} seconds ; sleep ${retry_delay} ; goto retry_boot";
    "";
    ":kernel-error";
    "echo Failed to load kernel";
    "imgfree";
    "exit";
    "";
    ":initrd-error";
    "echo Failed to load initrd";
    "imgfree";
    "exit";
    "";
    ":boot-error";
    "echo Failed to boot";
    "imgfree";
    "exit";
    ""].

Definition StaticScript (h : Hook) : string :=
  "#!ipxe" +:+
  (if decide (hk_SyslogHost h ≠ "") then text_lines ["";
    "# iPXE can only set the syslog server to an IP address, not a hostname (https://ipxe.org/cfg/syslog).";
    "# If target is an IP, save it directly; if not, resolve it via nslookup directly into the syslog variable.";
    "set check:ipv4 "] +:+
  hk_SyslogHost h +:+
  " && set syslog " +:+
  hk_SyslogHost h +:+
  " || nslookup syslog " +:+
  hk_SyslogHost h +:+
  " || echo [WARN] Failed to resolve syslog host " +:+
  hk_SyslogHost h +:+
  text_lines ["";
    "clear check"] else "") +:+
  text_lines ["";
    "echo Loading the static Tinkerbell iPXE script...";
    "";
    "set arch ${buildarch}";
    "# Tinkerbell only supports 64 bit architectures.";
    "# The build architecture does not necessarily represent the architecture of the machine on which iPXE is running.";
    "# https://ipxe.org/cfg/buildarch";
    "iseq ${arch} i386 && set arch x86_64 ||";
    "iseq ${arch} arm32 && set arch aarch64 ||";
    "iseq ${arch} arm64 && set arch aarch64 ||";
    "";
    "set kernel "] +:+
  (if decide (hk_KernelName h ≠ "") then hk_KernelName h +:+
  "-${arch}" else "vmlinuz-${arch}") +:+
  text_lines ["";
    "set initrd "] +:+
  (if decide (hk_InitrdName h ≠ "") then hk_InitrdName h +:+
  "-${arch}" else "initramfs-${arch}") +:+
  text_lines ["";
    "set download-url "] +:+
  hk_DownloadURL h +:+
  text_lines ["";
    "set retries:int32 "] +:+
  Itoa (hk_Retries h) +:+
  text_lines ["";
    "set retry_delay:int32 "] +:+
  Itoa (hk_RetryDelay h) +:+
  text_lines ["";
    "";
    "set worker_id ${mac}";
    "set grpc_authority "] +:+
  hk_TinkGRPCAuthority h +:+
  text_lines ["";
    "set syslog_host "] +:+
  hk_SyslogHost h +:+
  text_lines ["";
    "set tinkerbell_tls "] +:+
  bool_str (hk_TinkerbellTLS h) +:+
  text_lines ["";
    "";
    "echo worker_id=${mac}";
    "echo grpc_authority="] +:+
  hk_TinkGRPCAuthority h +:+
  text_lines ["";
    "echo syslog_host="] +:+
  hk_SyslogHost h +:+
  text_lines ["";
    "echo tinkerbell_tls="] +:+
  bool_str (hk_TinkerbellTLS h) +:+
  text_lines ["";
    "";
    "set idx:int32 0";
    ":retry_kernel";
    "kernel ${download-url}/${kernel} \";
    "syslog_host=${syslog_host} grpc_authority=${grpc_authority} tinkerbell_tls=${tinkerbell_tls} worker_id=${worker_id} hw_addr=${mac} \";
    "console=tty1 console=tty2 console=ttyAMA0,115200 console=ttyAMA1,115200 console=ttyS0,115200 console=ttyS1,115200 \";
    "intel_iommu=on iommu=pt"] +:+
  concat_str ((λ param, " " +:+
  param) <$> hk_ExtraKernelParams h) +:+
  text_lines [" initrd=${initrd} && goto download_initrd || iseq ${idx} ${retries} && goto kernel-error || inc idx && echo retry in ${retry_delay} seconds ; sleep ${retry_delay} ; goto retry_kernel";
    "";
    ":download_initrd";
    "set idx:int32 0";
    ":retry_initrd";
    "initrd ${download-url}/${initrd} && goto boot || iseq ${idx} ${retries} && goto initrd-error || inc idx && echo retry in ${retry_delay} seconds ; sleep ${retry_delay} ; goto retry_initrd";
    "";
    ":boot";
    "set idx:int32 0";
    ":retry_boot";
    "boot || iseq ${idx} ${retries} && goto boot-error || inc idx && echo retry in ${retry_delay} seconds ; sleep ${retry_delay} ; goto retry_boot";
    "";
    ":kernel-error";
    "echo Failed to load kernel";
    "imgfree";
    "exit";
    "";
    ":initrd-error";
    "echo Failed to load initrd";
    "imgfree";
    "exit";
    "";
    ":boot-error";
    "echo Failed to boot";
    "imgfree";
    "exit";
    ""].

Section Script.
Context `{GoUrl} (URL_Scheme : URL → string).

Record Custom := mkCustom { cu_Chain : option URL; cu_Script : string }.

Definition CustomScript (c : Custom) : string :=
  text_lines ["#!ipxe";
    "";
    "echo Loading custom Tinkerbell iPXE script..."] +:+
  match cu_Chain c with Some u => text_lines ["";
    "chain --autofree "] +:+
  URL_String u | None => text_lines ["";
    ""] +:+
  cu_Script c end +:+
  text_lines ["";
    ""].

(** ** The handler *)

Record ScriptHandler := mkScriptHandler {
  sh_OSIEURL : string;
  sh_ExtraKernelParams : list string;
  sh_PublicSyslogFQDN : string;
  sh_TinkServerTLS : bool;
  sh_TinkServerInsecureTLS : bool;
  sh_TinkServerGRPCAddr : string;
  sh_IPXEScriptRetries : Z;
  sh_IPXEScriptRetryDelay : Z;
  sh_StaticIPXEEnabled : bool;
  sh_KernelName : string;
  sh_InitrdName : string;
}.

Definition static_hook (h : ScriptHandler) : Hook :=
  mkHook "" "" (sh_OSIEURL h) (sh_ExtraKernelParams h) "" "" (sh_PublicSyslogFQDN h) (sh_TinkServerTLS h) false
    (sh_TinkServerGRPCAddr h) "" "" "" (sh_IPXEScriptRetries h) (sh_IPXEScriptRetryDelay h) (sh_KernelName h) (sh_InitrdName h).

Definition serveStaticIPXEScript (h : ScriptHandler) : http_response := mkhttp_response 200 (StaticScript (static_hook h)).

(** A file name of the machine, else the configured one for its architecture. *)
Definition file_name (own configured arch : string) : string :=
  if decide (own ≠ "") then own else if decide (configured ≠ "") then configured +:+ "-" +:+ arch else "".

(** [trace] is the trace ID of a sampled span, else empty. *)
Definition hook_of (h : ScriptHandler) (trace : string) (hw : HardwareInfo) : Hook :=
  let mac := HardwareAddr_String (hi_MACAddress hw) in
  let arch := if decide (hi_Arch hw = "") then "x86_64" else hi_Arch hw in
  let wID := if decide (hi_AgentID hw ≠ "") then hi_AgentID hw else mac in
  let osie := hi_OSIE hw in
  let base := match so_BaseURL osie with Some u => URL_String u | None => "" end in
  mkHook arch "" (if decide (base ≠ "") then base else sh_OSIEURL h)
    (sh_ExtraKernelParams h ++ so_KernelParams osie) (hi_Facility hw) mac (sh_PublicSyslogFQDN h) (sh_TinkServerTLS h)
    (sh_TinkServerInsecureTLS h) (sh_TinkServerGRPCAddr h) trace (hi_VLANID hw) wID
    (sh_IPXEScriptRetries h) (sh_IPXEScriptRetryDelay h)
    (file_name (so_Kernel osie) (sh_KernelName h) arch) (file_name (so_Initrd osie) (sh_InitrdName h) arch).

Definition defaultScript (h : ScriptHandler) (trace : string) (hw : HardwareInfo) : string := HookScript (hook_of h trace hw).

Definition customScript (hw : HardwareInfo) : res string :=
  match hi_IPXEScriptURL hw with
  | Some u =>
      if decide (URL_String u ≠ "") then
        if decide (URL_Scheme u ≠ "http" ∧ URL_Scheme u ≠ "https")
        then inl (ErrNew ("invalid URL scheme: " +:+ URL_Scheme u))
        else inr (CustomScript (mkCustom (Some u) ""))
      else if decide (hi_IPXEScript hw ≠ "") then inr (CustomScript (mkCustom None (hi_IPXEScript hw)))
      else inl (ErrNew "no custom script or chain defined in the hardware data")
  | None =>
      if decide (hi_IPXEScript hw ≠ "") then inr (CustomScript (mkCustom None (hi_IPXEScript hw)))
      else inl (ErrNew "no custom script or chain defined in the hardware data")
  end.

Definition serveBootScript (h : ScriptHandler) (trace name : string) (hw : HardwareInfo) : http_response :=
  let name := if decide (hi_IPXEScriptURL hw ≠ None ∨ hi_IPXEScript hw ≠ "") then "custom.ipxe" else name in
  if decide (name = "auto.ipxe") then mkhttp_response 200 (defaultScript h trace hw)
  else if decide (name = "custom.ipxe") then
    match customScript hw with
    | inl _ => mkhttp_response 500 ""
    | inr s => mkhttp_response 200 s
    end
  else mkhttp_response 404 "".

Definition getIP (remoteAddr : string) : option (list Z) := ParseIP <$> RemoteAddrIP remoteAddr.
Definition script_getMAC (urlPath : string) : option (list Z) := ParseMAC (path_Base (path_Dir urlPath)).

(** What is served for the outcome of a lookup. *)
Definition serve_machine (h : ScriptHandler) (trace name : string) (r : res HardwareInfo) : http_response :=
  match r with
  | inl _ => if sh_StaticIPXEEnabled h then serveStaticIPXEScript h else mkhttp_response 404 ""
  | inr hw => if hi_AllowNetboot hw then serveBootScript h trace name hw else mkhttp_response 404 ""
  end.

Context {W : Type} `{BackendReader W}.

Definition script_Handle (h : ScriptHandler) (trace urlPath remoteAddr : string) (w : W) : http_response * W :=
  if decide (path_Base urlPath ≠ "auto.ipxe") then (mkhttp_response 404 "", w)
  else
    match script_getMAC urlPath with
    | Some ha => let '(r, w) := GetByMac ha w in (serve_machine h trace (path_Base urlPath) r, w)
    | None =>
        match getIP remoteAddr with
        | Some ip => let '(r, w) := GetByIP ip w in (serve_machine h trace (path_Base urlPath) r, w)
        | None => (mkhttp_response 404 "", w)
        end
    end.

End Script.

(** *** smee.go *)

(** The path of the script URL with the hardware address of a client. *)
Definition inject_mac (urlPath : string) (mac : list Z) : string :=
  path_Join [path_Dir urlPath; HardwareAddr_String mac; path_Base urlPath].

(** ** What is served *)

(** The script of a machine that may boot: its own one when it has one, else the
    one that loads the installation environment. *)
Section Served.
Context `{GoUrl} (URL_Scheme : URL → string).

Definition has_own_script (hw : HardwareInfo) : Prop := hi_IPXEScriptURL hw ≠ None ∨ hi_IPXEScript hw ≠ "".

Definition machine_script (h : ScriptHandler) (trace : string) (hw : HardwareInfo) (body : string) : Prop :=
  (has_own_script hw ∧ customScript URL_Scheme hw = inr body) ∨ (¬ has_own_script hw ∧ body = defaultScript h trace hw).

(** A custom script is the text of the machine or a chain to a URL over http or https. *)
Lemma customScript_spec hw body :
  customScript URL_Scheme hw = inr body →
  (∃ u, hi_IPXEScriptURL hw = Some u ∧ (URL_Scheme u = "http" ∨ URL_Scheme u = "https") ∧ body = CustomScript (mkCustom (Some u) "")) ∨
  (hi_IPXEScript hw ≠ "" ∧ body = CustomScript (mkCustom None (hi_IPXEScript hw))).
Proof.
  unfold customScript. intros E. destruct (hi_IPXEScriptURL hw) as [u|]; repeat case_decide; simplify_eq; [|by right..].
  left. exists u. split; [done|]. split; [|done]. destruct (decide (URL_Scheme u = "http")); [by left|].
  destruct (decide (URL_Scheme u = "https")); [by right|]. naive_solver.
Qed.

Lemma serveBootScript_spec h trace hw :
  (hr_Code (serveBootScript URL_Scheme h trace "auto.ipxe" hw) = 200%Z ∧
     machine_script h trace hw (hr_Body (serveBootScript URL_Scheme h trace "auto.ipxe" hw))) ∨
  (serveBootScript URL_Scheme h trace "auto.ipxe" hw = mkhttp_response 500 "" ∧ has_own_script hw).
Proof.
  unfold serveBootScript, machine_script. fold (has_own_script hw).
  destruct (decide (has_own_script hw)) as [Hc|Hc].
  - rewrite decide_False, decide_True by done. destruct (customScript URL_Scheme hw) as [e|s]; [by right|]. left. split; [done|].
    left. done.
  - rewrite decide_True by done. left. split; [done|]. by right.
Qed.

End Served.
