(* ===== verification/BootChain.v ===== *)
(** * From DHCP to the boot script

    The two servers a machine meets when it boots, on one backend: the DHCP answer
    names a script by a path with the machine's hardware address in it
    ([inject_mac]); what the script server makes of a request for that path. *)
From S2P Require Import Prelude GoStrings GoPath GoNet GoNetip BmcTypes Api Dhcp DhcpConv DhcpHandler Backends DhcpStore Tootles IpxeScript.

(** ** The path names the machine *)

Lemma hex_digit_not_slash z : (0 ≤ z < 16)%Z → hex_digit z ≠ slash.
Proof.
  intros Hz. assert (∃ n, n < 16 ∧ z = Z.of_nat n) as (n & Hn & ->) by (exists (Z.to_nat z); lia).
  do 16 (destruct n as [|n]; [done|]). lia.
Qed.

Lemma octet_bytes_no_slash o : octet o → slash ∉ octet_bytes o.
Proof.
  unfold octet. intros Ho. unfold octet_bytes.
  assert (0 ≤ o / 16 < 16)%Z by (split; [apply Z.div_pos; lia|apply Z.div_lt_upper_bound; lia]).
  assert (0 ≤ o mod 16 < 16)%Z by (apply Z.mod_pos_bound; lia).
  rewrite !not_elem_of_cons. split_and!; [by apply not_eq_sym, hex_digit_not_slash..|set_solver].
Qed.

Lemma sep_bytes_no_slash os : Forall octet os → slash ∉ sep_bytes ":"%char os.
Proof.
  induction 1 as [|o [|o' os] Ho _ IH]; [set_solver|by apply octet_bytes_no_slash|].
  change (sep_bytes ":"%char (o :: o' :: os)) with (octet_bytes o ++ ":"%char :: sep_bytes ":"%char (o' :: os)).
  rewrite not_elem_of_app, not_elem_of_cons. split_and!; [by apply octet_bytes_no_slash|done|done].
Qed.

(** The text of a hardware address is one element of a path. *)
Lemma mac_proper mac : Forall octet mac → 2 < length mac → proper (HardwareAddr_String mac).
Proof.
  intros Ho Hl. assert (3 * length mac = length (bytes_of (HardwareAddr_String mac)) + 1) as E.
  { unfold HardwareAddr_String. rewrite bytes_of_of_bytes, sep_bytes_length; [done|]. intros ->. simpl in Hl. lia. }
  split; [unfold no_slash, HardwareAddr_String; rewrite bytes_of_of_bytes; by apply sep_bytes_no_slash|].
  split_and!; intros E'; rewrite E' in E; simpl in E; lia.
Qed.

Lemma inject_mac_path dirs name mac :
  Forall proper (dirs ++ [name]) → Forall octet mac → 2 < length mac →
  inject_mac (rooted_path (dirs ++ [name])) mac = rooted_path ((dirs ++ [HardwareAddr_String mac]) ++ [name]).
Proof.
  intros Hd Ho Hl. unfold inject_mac. rewrite path_Dir_rooted, path_Base_rooted by done.
  rewrite <- (assoc (++)). apply path_Join_rooted. apply Forall_app in Hd as [Hd Hn]. apply Forall_app. split; [done|].
  simpl. constructor; [by apply mac_proper|done].
Qed.

(** The lengths of hardware addresses that are parsed. *)
Definition mac_length (mac : list Z) : Prop := length mac = 6 ∨ length mac = 8 ∨ length mac = 20.

Lemma script_getMAC_injected dirs name mac :
  Forall proper (dirs ++ [name]) → Forall octet mac → mac_length mac →
  script_getMAC (inject_mac (rooted_path (dirs ++ [name])) mac) = Some mac ∧
  path_Base (inject_mac (rooted_path (dirs ++ [name])) mac) = name.
Proof.
  intros Hd Ho Hl. assert (2 < length mac) as Hl' by (unfold mac_length in Hl; lia).
  rewrite inject_mac_path by done.
  assert (Forall proper ((dirs ++ [HardwareAddr_String mac]) ++ [name])) as Hp.
  { apply Forall_app in Hd as [Hd Hn]. rewrite !Forall_app, Forall_singleton. split_and!; [done|by apply mac_proper|done]. }
  split; [|by apply path_Base_rooted]. unfold script_getMAC. rewrite path_Dir_rooted by done.
  rewrite path_Base_rooted by (by apply Forall_app in Hp as [Hp _]). by apply ParseMAC_String.
Qed.

(** ** The script of a machine *)

Section Chain.
Context `{GoUrl} (URL_Scheme : URL → string) {W : Type} `{BackendReader W} `{!HardwareLookup W}.

(** The boot data of a hardware address among the Hardware of a backend. *)
Definition boot_info (l : list Hardware) (mac : list Z) : option HardwareInfo :=
  match select "" SelMAC (HardwareAddr_String mac) l with
  | [hw] =>
      match ConvertByMac mac (Some hw) with
      | inr r => match info_of r with inr i => Some i | inl _ => None end
      | inl _ => None
      end
  | _ => None
  end.

(** The machine a DHCP answer is for is the one the boot data are of. *)
Lemma assigned_boot_info l mac d n :
  assigned l mac = Some (d, n) →
  ∃ i, boot_info l mac = Some i ∧ hi_AllowNetboot i = sn_AllowNetboot n ∧ hi_MACAddress i = sd_MACAddress d ∧
    hi_IPXEScript i = sn_IPXEScript n ∧ hi_IPXEScriptURL i = sn_IPXEScriptURL n.
Proof.
  unfold assigned, boot_info, info_of. intros E. repeat (case_match; simplify_eq/=; try done). eauto 10.
Qed.

Lemma GetByMac_lookup mac w :
  hl_ok w → Forall octet mac → mac ≠ [] →
  ∃ r, GetByMac mac w = (r, w) ∧ boot_info (hl_objects w) mac = match r with inr i => Some i | inl _ => None end.
Proof.
  intros Hok Ho Hne. unfold GetByMac, boot_info.
  destruct (hl_filter "" SelMAC (HardwareAddr_String mac) w Hok) as (r & Hr & Hl);
    [by apply HardwareAddr_String_ne|intros _; by apply HardwareAddr_String_lower|].
  change (filter_by "" SelMAC (HardwareAddr_String mac)) with (by_mac mac) in Hr. rewrite Hr.
  destruct (select _ _ _ _) as [|hw [|hw' l]]; simpl in Hl.
  - destruct Hl as [m ->]. eauto.
  - subst r. destruct (ConvertByMac mac (Some hw)) as [e|hw']; [by eauto|]. destruct (info_of hw'); eauto.
  - destruct Hl as [m ->]. eauto.
Qed.

(** The path that a DHCP answer gives a machine leads to the script of that
    machine, whatever address the request comes from: a machine whose boot data
    allow netbooting gets its own script or the one that loads the installation
    environment; one that may not boot gets nothing; one without boot data gets
    the generic script in automatic proxy mode and nothing otherwise. *)
Theorem boot_script_of_machine h trace dirs remoteAddr mac w :
  hl_ok w → Forall octet mac → mac_length mac → Forall proper dirs →
  let path := inject_mac (rooted_path (dirs ++ ["auto.ipxe"])) mac in
  ∃ resp, script_Handle URL_Scheme h trace path remoteAddr w = (resp, w) ∧
    match boot_info (hl_objects w) mac with
    | Some i =>
        (hi_AllowNetboot i = true →
           (hr_Code resp = 200%Z ∧ machine_script URL_Scheme h trace i (hr_Body resp)) ∨
           (resp = mkhttp_response 500 "" ∧ has_own_script i)) ∧
        (hi_AllowNetboot i = false → resp = mkhttp_response 404 "")
    | None =>
        resp = if sh_StaticIPXEEnabled h then mkhttp_response 200 (StaticScript (static_hook h)) else mkhttp_response 404 ""
    end.
Proof.
  intros Hok Ho Hl Hd path. assert (Forall proper (dirs ++ ["auto.ipxe"])) as Hp.
  { apply Forall_app. split; [done|]. constructor; [|constructor]. by_decide. }
  destruct (script_getMAC_injected dirs "auto.ipxe" mac Hp Ho Hl) as [Em Eb]. fold path in Em, Eb.
  assert (mac ≠ []) as Hne by (intros ->; unfold mac_length in Hl; simpl in Hl; lia).
  destruct (GetByMac_lookup mac w Hok Ho Hne) as (r & Hr & ->).
  eexists. unfold script_Handle. rewrite Eb, Em, Hr. rewrite decide_False by auto. split; [reflexivity|].
  destruct r as [e|i]; simpl; [done|]. destruct (hi_AllowNetboot i); (split; [|done]); [|done]. intros _. apply serveBootScript_spec.
Qed.

End Chain.
