(* ===== verification/GoHttp.v ===== *)
(** * net/http, net/textproto and net/url

    What the reverse proxy and the start-up use of them: the struct of a URL, the
    escaping of paths and query parameters, and header maps. *)
From S2P Require Import Prelude GoStrings GoNet Dhcp.

(** ** The struct of a URL

    [URL] is an opaque type with a parser; its fields that are read and assigned
    are the record [UrlParts], which [with_parts] stores. *)
Record UrlParts := mkUrlParts {
  up_Scheme : string;
  up_Host : string;
  up_Path : string;
  up_RawPath : string;
  up_RawQuery : string;
}.

Class UrlStruct `{GoUrl} := {
  url_parts : URL → UrlParts;
  with_parts : UrlParts → URL → URL;
  url_parts_with p u : url_parts (with_parts p u) = p;
  url_parts_make s h : url_parts (url_make s h) = mkUrlParts s h "" "" "";
}.

Section Fields.
Context `{UrlStruct}.

Definition uf_Scheme (u : URL) : string := up_Scheme (url_parts u).
Definition uf_Host (u : URL) : string := up_Host (url_parts u).
Definition uf_Path (u : URL) : string := up_Path (url_parts u).
Definition set_parts_Host (h : string) (p : UrlParts) : UrlParts :=
  mkUrlParts (up_Scheme p) h (up_Path p) (up_RawPath p) (up_RawQuery p).
Definition set_parts_Path (s : string) (p : UrlParts) : UrlParts :=
  mkUrlParts (up_Scheme p) (up_Host p) s (up_RawPath p) (up_RawQuery p).
Definition set_Host (h : string) (u : URL) : URL := with_parts (set_parts_Host h (url_parts u)) u.
Definition set_Path (s : string) (u : URL) : URL := with_parts (set_parts_Path s (url_parts u)) u.

(** [url.URL{Scheme: s, Host: h, Path: p}]. *)
Definition url_fields (s h p : string) : URL := set_Path p (url_make s h).

Lemma uf_Host_set h u : uf_Host (set_Host h u) = h.
Proof. unfold uf_Host, set_Host. by rewrite url_parts_with. Qed.
Lemma uf_Path_set_Host h u : uf_Path (set_Host h u) = uf_Path u.
Proof. unfold uf_Path, set_Host. by rewrite url_parts_with. Qed.
Lemma uf_Path_set s u : uf_Path (set_Path s u) = s.
Proof. unfold uf_Path, set_Path. by rewrite url_parts_with. Qed.
Lemma uf_Host_set_Path s u : uf_Host (set_Path s u) = uf_Host u.
Proof. unfold uf_Host, set_Path. by rewrite url_parts_with. Qed.
End Fields.

(** ** Escaping

    [shouldEscape] for a path and for a query component. *)
Definition char_in (s : string) (c : ascii) : bool := bool_decide (c ∈ bytes_of s).

Definition unreserved (c : ascii) : bool := is_alnum c || char_in "-_.~" c.
Definition escape_in_path (c : ascii) : bool := negb (unreserved c || char_in "$&+,/:;=@" c).
Definition escape_in_query (c : ascii) : bool := negb (unreserved c).

Definition upper_hex (n : nat) : ascii := if decide (n < 10) then ascii_of_nat (48 + n) else ascii_of_nat (55 + n).
Definition percent : ascii := "%"%char.
Definition percent_byte (c : ascii) : list ascii :=
  let n := nat_of_ascii c in [percent; upper_hex (n / 16); upper_hex (n mod 16)].

Definition escape_path (s : string) : string :=
  of_bytes (c ← bytes_of s; if escape_in_path c then percent_byte c else [c]).

(** [url.QueryEscape]. *)
Definition query_escape_char (c : ascii) : list ascii :=
  if decide (c = " "%char) then ["+"%char] else if escape_in_query c then percent_byte c else [c].
Definition QueryEscape (s : string) : string := of_bytes (bytes_of s ≫= query_escape_char).

(** [unescape]: [None] for a percent sign not followed by two hexadecimal
    digits; [plus] says whether a plus sign is a space. *)
Fixpoint unescape_bytes (plus : bool) (l : list ascii) : option (list ascii) :=
  match l with
  | [] => Some []
  | c :: l' =>
      if decide (c = percent) then
        match l' with
        | a :: b :: l'' => x ← hex_val a; y ← hex_val b; (ascii_of_nat (Z.to_nat (16 * x + y)) ::.) <$> unescape_bytes plus l''
        | _ => None
        end
      else ((if plus && bool_decide (c = "+"%char) then " "%char else c) ::.) <$> unescape_bytes plus l'
  end.

Definition QueryUnescape (s : string) : option string := of_bytes <$> unescape_bytes true (bytes_of s).
Definition path_unescape (s : string) : option string := of_bytes <$> unescape_bytes false (bytes_of s).

(** [validEncoded(s, encodePath)]. *)
Definition valid_encoded (s : string) : bool :=
  forallb (λ c, char_in "!$&'()*+,;=:@[]%" c || negb (escape_in_path c)) (bytes_of s).

(** [URL.EscapedPath]. *)
Definition EscapedPath (p : UrlParts) : string :=
  if bool_decide (up_RawPath p ≠ "") && valid_encoded (up_RawPath p) && bool_decide (path_unescape (up_RawPath p) = Some (up_Path p))
  then up_RawPath p
  else if decide (up_Path p = "*") then "*"
  else escape_path (up_Path p).

(** ** Query parameters *)

(** [url.ParseQuery]: the parameters in their order; its error is not used. *)
Definition parse_param (s : string) : option (string * string) :=
  if char_in s ";"%char then None
  else if decide (s = "") then None
  else
    let '(key, value, _) := Cut s "="%char in
    k ← QueryUnescape key; v ← QueryUnescape value; Some (k, v).
Definition ParseQuery (s : string) : list (string * string) := omap parse_param (Split s "&"%char).

(** [Values.Encode]: by sorted key, the values of a key in their order. *)
Definition values_of (k : string) (q : list (string * string)) : list string := snd <$> filter (λ kv, kv.1 = k) q.
Definition sorted_keys (q : list (string * string)) : list string := merge_sort str_le (remove_dups q.*1).
Definition Values_Encode (q : list (string * string)) : string :=
  Join (k ← sorted_keys q; v ← values_of k q; [QueryEscape k +:+ "=" +:+ QueryEscape v]) "&".

(** ** Headers *)

(** A header map; a key without values stands for one with the nil slice. *)
Abbreviation Header := (gmap string (list string)).

Definition valid_field_byte (c : ascii) : bool := is_alnum c || char_in "!#$%&'*+-.^_`|~" c.
Definition upper_char (c : ascii) : ascii := if is_lower c then ascii_of_nat (nat_of_ascii c - 32) else c.
Fixpoint canonical (upper : bool) (l : list ascii) : list ascii :=
  match l with
  | [] => []
  | c :: l' => (if upper then upper_char c else lower_char c) :: canonical (bool_decide (c = "-"%char)) l'
  end.

(** [textproto.CanonicalMIMEHeaderKey]. *)
Definition CanonicalKey (s : string) : string :=
  if forallb valid_field_byte (bytes_of s) then of_bytes (canonical true (bytes_of s)) else s.

Definition Header_Get (h : Header) (k : string) : string := default "" (h !! CanonicalKey k ≫= head).
Definition Header_Set (k v : string) (h : Header) : Header := <[CanonicalKey k := [v]]> h.
Definition Header_Add (k v : string) (h : Header) : Header := <[CanonicalKey k := default [] (h !! CanonicalKey k) ++ [v]]> h.
Definition Header_Del (k : string) (h : Header) : Header := delete (CanonicalKey k) h.

(** [textproto.TrimString]. *)
Definition TrimString (s : string) : string :=
  of_bytes (trim_list (λ c, bool_decide (c = " "%char) || bool_decide (nat_of_ascii c ∈ [9; 10; 13])) (bytes_of s)).

(** ** Escaping is undone, and leaves nothing to escape *)

Lemma upper_hex_val n : n < 16 → hex_val (upper_hex n) = Some (Z.of_nat n).
Proof. intros Hn. do 16 (destruct n as [|n]; [done|]). lia. Qed.

Lemma percent_byte_val c : ∃ a b, percent_byte c = [percent; a; b] ∧
  (x ← hex_val a; y ← hex_val b; Some (ascii_of_nat (Z.to_nat (16 * x + y)))) = Some c.
Proof.
  pose proof (nat_ascii_bounded c) as Hc. set (n := nat_of_ascii c) in *.
  exists (upper_hex (n / 16)), (upper_hex (n mod 16)). split; [done|].
  assert (n / 16 < 16) by (apply Nat.Div0.div_lt_upper_bound; lia). pose proof (Nat.mod_upper_bound n 16 ltac:(lia)).
  rewrite !upper_hex_val by done. cbn [mbind option_bind]. f_equal. rewrite <- (ascii_nat_embedding c). fold n. f_equal.
  pose proof (Nat.div_mod_eq n 16). lia.
Qed.

Lemma unescape_percent_byte plus c l : unescape_bytes plus (percent_byte c ++ l) = (c ::.) <$> unescape_bytes plus l.
Proof.
  destruct (percent_byte_val c) as (a & b & -> & E). simpl.
  destruct (hex_val a) as [x|]; [|done]. destruct (hex_val b) as [y|]; [|done]. simpl in *. by simplify_eq.
Qed.

Lemma QueryUnescape_Escape s : QueryUnescape (QueryEscape s) = Some s.
Proof.
  unfold QueryUnescape, QueryEscape. rewrite bytes_of_of_bytes.
  assert (unescape_bytes true (bytes_of s ≫= query_escape_char) = Some (bytes_of s)) as ->; [|simpl; by rewrite of_bytes_bytes_of].
  induction (bytes_of s) as [|c l IH]; [done|]. cbn [mbind list_bind]. unfold query_escape_char at 1.
  case_decide as Hs; [subst; simpl; by rewrite IH|].
  destruct (escape_in_query c) eqn:Ec; [rewrite unescape_percent_byte; by rewrite IH|].
  simpl. assert (c ≠ percent ∧ c ≠ "+"%char) as [Hp Hq] by (split; intros ->; by vm_compute in Ec).
  rewrite decide_False by done. rewrite bool_decide_eq_false_2 by done. simpl. by rewrite IH.
Qed.
