(* ===== verification/HttpCommon.v ===== *)
(** * Shared HTTP packages

    pkg/xff/xff.go, pkg/http/middleware/middleware.go, pkg/http/handler/handler.go
    and pkg/http/server (routes.go and the configuration of server.go): the client
    address behind trusted proxies, the choice of the log level, the redirect to
    HTTPS and the tables of the routes. *)
From S2P Require Import Prelude GoStrings GoStrconv GoNet GoNetip Tootles.

(** ** net.SplitHostPort and net.JoinHostPort *)

Abbreviation colon := ":"%char (only parsing).
Abbreviation lbracket := "["%char (only parsing).
Abbreviation rbracket := "]"%char (only parsing).

(** The host and the port. *)
Definition SplitHostPort (addr : string) : option (string * string) :=
  let l := bytes_of addr in
  host ← split_host l;
  i ← LastIndexByte colon l;
  Some (of_bytes host, of_bytes (drop (i + 1) l)).

Definition JoinHostPort (host port : string) : string :=
  if decide (colon ∈ bytes_of host) then "[" +:+ host +:+ "]:" +:+ port else host +:+ ":" +:+ port.

(** ** pkg/xff *)

Record Xff := mkXff { xff_allowAll : bool; xff_allowedMasks : list IPNet }.

Fixpoint toMasks (ips : list string) : res (list IPNet) :=
  match ips with
  | [] => inr []
  | cidr :: rest =>
      match ParseCIDR cidr with
      | inl e => inl e
      | inr (_, network) => match toMasks rest with inl e => inl e | inr masks => inr (network :: masks) end
      end
  end.

Definition NewXFF (AllowedSubnets : list string) : res Xff :=
  match toMasks AllowedSubnets with
  | inl e => inl e
  | inr masks => inr (mkXff (bool_decide (length AllowedSubnets = 0)) masks)
  end.

(** [net.IPNet.Contains]. *)
Definition IPNet_Contains (n : IPNet) (ip : list Z) : bool :=
  let nn := if decide (To4 (ipn_IP n) ≠ []) then To4 (ipn_IP n) else ipn_IP n in
  let m := ipn_Mask n in
  let m := if decide (length m = 16 ∧ length nn = 4) then drop 12 m else m in
  let ip := if decide (To4 ip ≠ []) then To4 ip else ip in
  bool_decide (length ip = length nn) && bool_decide (length m = length nn) &&
  bool_decide (zip_with Z.land nn m = zip_with Z.land ip m).

Definition ipInMasks (ip : list Z) (masks : list IPNet) : bool := existsb (λ m, IPNet_Contains m ip) masks.

Definition xff_allowed (x : Xff) (sip : string) : bool :=
  xff_allowAll x || (bool_decide (ParseIP sip ≠ []) && ipInMasks (ParseIP sip) (xff_allowedMasks x)).

(** The loop of [parse], over the entries from the last to the first. *)
Fixpoint parse_backwards (allowed : string → bool) (ips : list string) (lastIP : string) : string :=
  match ips with
  | [] => lastIP
  | e :: rest =>
      let ip := TrimSpace e in
      if decide (ParseIP ip = []) then lastIP
      else if allowed ip then parse_backwards allowed rest ip else ip
  end.

Definition xff_parse (ipList : string) (allowed : string → bool) : string :=
  match Split ipList ","%char with
  | [] => ""
  | [e] => let ip := TrimSpace e in if decide (ParseIP ip ≠ []) then ip else ""
  | ips => parse_backwards allowed (reverse ips) ""
  end.

(** [header] is the value of X-Forwarded-For. *)
Definition getRemoteAddrIfAllowed (header remoteAddr : string) (allowed : string → bool) : string :=
  if decide (header ≠ "") then
    match SplitHostPort remoteAddr with
    | Some (sip, sport) =>
        if bool_decide (sip ≠ "") && allowed sip then
          let xip := xff_parse header allowed in
          if decide (xip ≠ "") then JoinHostPort xip sport else remoteAddr
        else remoteAddr
    | None => remoteAddr
    end
  else remoteAddr.

(** [Xff.Handler]: the address the wrapped handler sees. *)
Definition Xff_Handler (x : Xff) (header remoteAddr : string) : string := getRemoteAddrIfAllowed header remoteAddr (xff_allowed x).

(** [middleware.XFF]: without trusted proxies the header is ignored. *)
Definition XFF (trustedProxies : list string) : res (string → string → string) :=
  match trustedProxies with
  | [] => inr (λ _ remoteAddr, remoteAddr)
  | _ => match NewXFF trustedProxies with inl e => inl e | inr x => inr (Xff_Handler x) end
  end.

(** ** pkg/http/middleware *)

Definition LogLevelNever : Z := -1.
Definition LogLevelAlways : Z := 0.
Definition LogLevelDebug : Z := 1.

(** The level a request is logged at: what the innermost [WithLogLevel] of its
    handlers set last, and [LogLevelAlways] for an error of the server. [None]
    when it is not logged. *)
Definition WithLogLevel (level : Z) (cfg : option Z) : option Z := match cfg with Some _ => Some level | None => None end.
Definition log_level (levels : list Z) (code : Z) : option Z :=
  let level := default LogLevelDebug (foldl (λ cfg l, WithLogLevel l cfg) (Some LogLevelDebug) levels) in
  let level := if decide (500 ≤ code)%Z then LogLevelAlways else level in
  if decide (level = LogLevelNever) then None else Some level.

Definition clientIP (str : string) : string := match SplitHostPort str with Some (host, _) => host | None => str end.

(** The addresses of a request in the log: [SourceIP] runs before [XFF] rewrites
    the address. *)
Definition logged_addresses (xff : string → string → string) (header remoteAddr : string) : string * string :=
  (clientIP remoteAddr, clientIP (xff header remoteAddr)).

Definition metrics_route (pattern : string) : string := if decide (pattern = "") then "unmatched" else pattern.

(** ** pkg/http/handler *)

Definition parseHost (input : string) : string :=
  match SplitHostPort input with
  | Some (host, _) => host
  | None =>
      let l := bytes_of input in
      if decide (2 ≤ length l ∧ head l = Some lbracket ∧ last l = Some rbracket)
      then of_bytes (take (length l - 2) (drop 1 l)) else input
  end.

(** [RedirectToHTTPS]: the host of the location. *)
Definition redirect_host (host : string) (port : Z) : string := JoinHostPort (parseHost host) (Itoa port).

Definition StatusPermanentRedirect : Z := 308.
Record http_answer := mkhttp_answer { ha_Code : Z; ha_ContentType : string; ha_Body : string }.
Definition Healthz : http_answer := mkhttp_answer 200 "text/plain" "ok".
Definition Readyz : http_answer := mkhttp_answer 200 "text/plain" "ok".

(** ** pkg/http/server *)

Section Routes.
Context {Handler : Type}.

Record hRoute := mkhRoute {
  hr_Pattern : string;
  hr_Description : string;
  hr_RewriteHTTPToHTTPS : bool;
  hr_HTTPEnabled : bool;
  hr_HTTPSEnabled : bool;
  hr_Handler : Handler;
}.

Definition WithHTTPEnabled (enable : bool) (r : hRoute) : hRoute :=
  mkhRoute (hr_Pattern r) (hr_Description r) (hr_RewriteHTTPToHTTPS r) enable (hr_HTTPSEnabled r) (hr_Handler r).
Definition WithHTTPSEnabled (enable : bool) (r : hRoute) : hRoute :=
  mkhRoute (hr_Pattern r) (hr_Description r) (hr_RewriteHTTPToHTTPS r) (hr_HTTPEnabled r) enable (hr_Handler r).
Definition WithRewriteHTTPToHTTPS (enable : bool) (r : hRoute) : hRoute :=
  mkhRoute (hr_Pattern r) (hr_Description r) enable (hr_HTTPEnabled r) (hr_HTTPSEnabled r) (hr_Handler r).

Definition routes_Register (pattern : string) (h : Handler) (desc : string) (options : list (hRoute → hRoute)) (rs : list hRoute) : list hRoute :=
  let desc := if decide (desc = "") then "No description provided" else desc in
  rs ++ [foldl (λ r o, o r) (mkhRoute pattern desc false true false h) options].

Definition HasHTTPSRoutes (rs : list hRoute) : bool := existsb hr_HTTPSEnabled rs.

(** What a mux does with a pattern: the route's handler, or the redirect to a port. *)
Inductive mux_target := Serve (h : Handler) | RedirectHTTPS (port : Z).

Definition Muxes (httpsPort : Z) (tlsEnabled : bool) (rs : list hRoute) : list (string * mux_target) * list (string * mux_target) :=
  (omap (λ r,
     if hr_HTTPEnabled r && hr_RewriteHTTPToHTTPS r && tlsEnabled then Some (hr_Pattern r, RedirectHTTPS httpsPort)
     else if hr_HTTPEnabled r then Some (hr_Pattern r, Serve (hr_Handler r)) else None) rs,
   omap (λ r, if hr_HTTPSEnabled r then Some (hr_Pattern r, Serve (hr_Handler r)) else None) rs).
End Routes.
Arguments hRoute : clear implicits.
Arguments mux_target : clear implicits.

(** The timeouts of server.go in nanoseconds, and the size of the headers. *)
Record ServerConfig := mkServerConfig {
  sc_BindAddr : string; sc_BindPort : Z; sc_TLS : bool; sc_HTTPSPort : Z; sc_ReadTimeout : Z; sc_ReadHeaderTimeout : Z;
  sc_WriteTimeout : Z; sc_IdleTimeout : Z; sc_MaxHeaderBytes : Z; sc_ShutdownTimeout : Z }.

Definition DefaultReadTimeout : Z := 30 * time_Second.
Definition DefaultReadHeaderTimeout : Z := 10 * time_Second.
Definition DefaultWriteTimeout : Z := 30 * time_Second.
Definition DefaultIdleTimeout : Z := 120 * time_Second.
Definition DefaultShutdownTimeout : Z := 30 * time_Second.
Definition DefaultMaxHeaderBytes : Z := 2 ^ 20.

Definition server_NewConfig (opts : list (ServerConfig → ServerConfig)) : ServerConfig :=
  foldl (λ c o, o c) (mkServerConfig "" 0 false 0 DefaultReadTimeout DefaultReadHeaderTimeout DefaultWriteTimeout DefaultIdleTimeout
    DefaultMaxHeaderBytes DefaultShutdownTimeout) opts.

Definition or_default (d z : Z) : Z := if decide (z = 0%Z) then d else z.
Definition setDefaults (c : ServerConfig) : ServerConfig :=
  mkServerConfig (sc_BindAddr c) (sc_BindPort c) (sc_TLS c) (sc_HTTPSPort c) (or_default DefaultReadTimeout (sc_ReadTimeout c))
    (or_default DefaultReadHeaderTimeout (sc_ReadHeaderTimeout c)) (or_default DefaultWriteTimeout (sc_WriteTimeout c))
    (or_default DefaultIdleTimeout (sc_IdleTimeout c)) (or_default DefaultMaxHeaderBytes (sc_MaxHeaderBytes c))
    (or_default DefaultShutdownTimeout (sc_ShutdownTimeout c)).

(** The addresses [Serve] listens on: plain HTTP when there is a handler for it,
    HTTPS when there are a certificate and a handler. *)
Definition serve_addrs (c : ServerConfig) (httpHandler httpsHandler : bool) : list (string * bool) :=
  (if httpHandler then [(sc_BindAddr c +:+ ":" +:+ Itoa (sc_BindPort c), false)] else []) ++
  (if sc_TLS c && httpsHandler then [(sc_BindAddr c +:+ ":" +:+ Itoa (sc_HTTPSPort c), true)] else []).

(** ** Splitting what was joined *)

Lemma IndexByte_absent c l : c ∉ l → IndexByte c l = None.
Proof.
  intros Hc. unfold IndexByte. destruct (list_find (c =.) l) as [[i x]|] eqn:E; [|done].
  apply list_find_Some in E as (Hi & <- & _). exfalso. apply Hc. by eapply list_elem_of_lookup_2.
Qed.

Lemma IndexByte_app c a b : c ∉ a → IndexByte c (a ++ c :: b) = Some (length a).
Proof.
  intros Hc. unfold IndexByte. assert (list_find (c =.) (a ++ c :: b) = Some (length a, c)) as ->; [|done].
  apply list_find_Some. split; [apply list_lookup_middle; done|]. split; [done|].
  intros j y Hj Hlt ->. apply Hc. rewrite lookup_app_l in Hj by done. by eapply list_elem_of_lookup_2.
Qed.

Lemma LastIndexByte_app c a b : c ∉ b → LastIndexByte c (a ++ c :: b) = Some (length a).
Proof.
  intros Hc. unfold LastIndexByte. rewrite reverse_app, reverse_cons, <- (assoc (++)). simpl.
  rewrite IndexByte_app by (by rewrite elem_of_reverse). simpl. f_equal. rewrite length_app, length_reverse. simpl. lia.
Qed.

Definition no_brackets (l : list ascii) : Prop := lbracket ∉ l ∧ rbracket ∉ l.

Lemma split_join_plain h p :
  no_brackets h → no_brackets p → colon ∉ h → colon ∉ p →
  split_host (h ++ colon :: p) = Some h ∧ LastIndexByte colon (h ++ colon :: p) = Some (length h).
Proof.
  intros [Hh1 Hh2] [Hp1 Hp2] Hh Hp. assert (LastIndexByte colon (h ++ colon :: p) = Some (length h)) as E by (by apply LastIndexByte_app).
  split; [|done]. unfold split_host. rewrite E. cbn [mbind option_bind].
  rewrite decide_False. 2:{ destruct h as [|c h]; [done|]. simpl. intros [= ->]. set_solver. }
  rewrite take_app_length. rewrite decide_True; [done|].
  split_and!; apply IndexByte_absent; [done|..]; rewrite elem_of_app, elem_of_cons; intros [?|[?|?]]; done.
Qed.

Lemma split_join_brackets h p :
  no_brackets h → no_brackets p → colon ∉ p →
  split_host (lbracket :: h ++ rbracket :: colon :: p) = Some h ∧
  LastIndexByte colon (lbracket :: h ++ rbracket :: colon :: p) = Some (length h + 2).
Proof.
  intros [Hh1 Hh2] [Hp1 Hp2] Hp.
  assert (lbracket :: h ++ rbracket :: colon :: p = (lbracket :: h ++ [rbracket]) ++ colon :: p) as El by (simpl; by rewrite <- (assoc (++))).
  assert (LastIndexByte colon (lbracket :: h ++ rbracket :: colon :: p) = Some (length h + 2)) as E.
  { rewrite El, LastIndexByte_app by done. simpl. rewrite length_app. simpl. f_equal. lia. }
  split; [|done]. unfold split_host. rewrite E. cbn [mbind option_bind head]. rewrite decide_True by done.
  assert (IndexByte rbracket (lbracket :: h ++ rbracket :: colon :: p) = Some (length h + 1)) as E2.
  { change (lbracket :: h ++ rbracket :: colon :: p) with ((lbracket :: h) ++ rbracket :: colon :: p). rewrite IndexByte_app.
    - simpl. f_equal. lia.
    - rewrite elem_of_cons. intros [?|?]; done. }
  rewrite E2. cbn [mbind option_bind].
  replace (length h + 1 + 1) with (length h + 2) by lia. cbn [drop]. rewrite drop_0, decide_True.
  - replace (length h + 1 - 1) with (length h) by lia. by rewrite take_app_length.
  - split_and!; [done|apply IndexByte_absent|apply IndexByte_absent].
    + rewrite elem_of_app, !elem_of_cons. intros [?|[?|[?|?]]]; done.
    + replace (length h + 2) with (S (length h + 1)) by lia. cbn [drop].
      replace (h ++ rbracket :: colon :: p) with ((h ++ [rbracket]) ++ colon :: p) by (by rewrite <- (assoc (++))).
      replace (length h + 1) with (length (h ++ [rbracket])) by (rewrite length_app; simpl; lia).
      rewrite drop_app_length, elem_of_cons. intros [?|?]; done.
Qed.

Theorem SplitHostPort_Join h p :
  no_brackets (bytes_of h) → no_brackets (bytes_of p) → colon ∉ bytes_of p → SplitHostPort (JoinHostPort h p) = Some (h, p).
Proof.
  intros Hh Hp Hc. unfold SplitHostPort, JoinHostPort. case_decide as Hd.
  - rewrite !bytes_of_app. change (bytes_of "[") with [lbracket]. change (bytes_of "]:") with [rbracket; colon]. cbn [app].
    destruct (split_join_brackets (bytes_of h) (bytes_of p) Hh Hp Hc) as [E1 E2]. rewrite E1. cbn [mbind option_bind]. rewrite E2. cbn [mbind option_bind].
    rewrite of_bytes_bytes_of. do 2 f_equal.
    replace (length (bytes_of h) + 2 + 1) with (S (length (bytes_of h) + 2)) by lia. cbn [drop].
    replace (bytes_of h ++ rbracket :: colon :: bytes_of p) with ((bytes_of h ++ [rbracket; colon]) ++ bytes_of p) by (by rewrite <- (assoc (++))).
    replace (length (bytes_of h) + 2) with (length (bytes_of h ++ [rbracket; colon])) by (rewrite length_app; simpl; lia).
    by rewrite drop_app_length, of_bytes_bytes_of.
  - rewrite !bytes_of_app. change (bytes_of ":") with [colon]. cbn [app].
    destruct (split_join_plain (bytes_of h) (bytes_of p) Hh Hp Hd Hc) as [E1 E2]. rewrite E1. cbn [mbind option_bind]. rewrite E2. cbn [mbind option_bind].
    rewrite of_bytes_bytes_of. do 2 f_equal.
    replace (bytes_of h ++ colon :: bytes_of p) with ((bytes_of h ++ [colon]) ++ bytes_of p) by (by rewrite <- (assoc (++))).
    replace (length (bytes_of h) + 1) with (length (bytes_of h ++ [colon])) by (rewrite length_app; simpl; lia).
    by rewrite drop_app_length, of_bytes_bytes_of.
Qed.

(** ** The text of an address holds no bracket *)

Definition addr_char (c : ascii) : bool := is_digit c || bool_decide (is_Some (hex_val c)) || bool_decide (c = "."%char) || bool_decide (c = colon).

Lemma addr_char_brackets l : Forall (λ c, addr_char c = true) l → no_brackets l.
Proof. intros Hl. split; intros Hc; by apply (proj1 (Forall_forall _ _) Hl) in Hc. Qed.

Lemma parse_v4_chars s val n fields ip : parse_v4 s val n fields = inr ip → Forall (λ c, addr_char c = true) s.
Proof.
  revert val n fields. induction s as [|c s IH]; intros val n fields; simpl; [by constructor|].
  destruct (is_digit c) eqn:Ed.
  - repeat case_decide; try done. intros Hs. constructor; [unfold addr_char; by rewrite Ed|by eapply IH].
  - repeat case_decide; try done. intros Hs. constructor; [subst; done|by eapply IH].
Qed.

Lemma hex_group_chars s off acc v n rest : hex_group s off acc = Some (v, n, rest) → ∃ k, s = k ++ rest ∧ Forall (λ c, addr_char c = true) k.
Proof.
  revert off acc. induction s as [|c s IH]; intros off acc; simpl; [intros [= <- <- <-]; by exists []|].
  destruct (hex_val c) as [d|] eqn:Eh; [|intros [= <- <- <-]; by exists []]. case_decide; [done|].
  intros (k & -> & Hk)%IH. exists (c :: k). split; [done|]. constructor; [|done]. unfold addr_char. rewrite Eh.
  by rewrite (bool_decide_eq_true_2 (is_Some (Some d))), orb_true_r.
Qed.

Lemma parse_v6_chars fuel s ip e rest ip' e' :
  parse_v6_loop fuel s ip e = inr (rest, ip', e') → ∃ k, s = k ++ rest ∧ Forall (λ c, addr_char c = true) k.
Proof.
  revert s ip e. induction fuel as [|fuel IH]; intros s ip e; simpl; [intros [= <- <- <-]; by exists []|].
  destruct (hex_group s 0 0) as [[[acc off] r]|] eqn:Eg; [|done]. apply hex_group_chars in Eg as (k & -> & Hk).
  case_decide; [done|]. case_decide.
  { case_decide; [done|]. case_decide; [done|]. destruct (parseIPv4Fields (k ++ r)) eqn:E4; [done|]. intros [= <- <- <-].
    exists (k ++ r). split; [by rewrite app_nil_r|]. by eapply parse_v4_chars. }
  destruct r as [|c r]; [intros [= <- <- <-]; by exists k|]. case_decide as Hc; [done|]. destruct r as [|d r]; [done|].
  assert (Forall (λ c, addr_char c = true) (k ++ [c])) as Hkc by (apply Forall_app; split; [done|subst; by constructor]).
  case_decide as Hdc.
  - destruct e; [done|]. assert (Forall (λ c, addr_char c = true) (k ++ [c; d])) as Hkd.
    { apply Forall_app; split; [done|]. subst. by repeat constructor. }
    destruct r as [|x r].
    + intros [= <- <- <-]. exists (k ++ [c; d]). split; [by rewrite app_nil_r|done].
    + intros (k2 & Hr & Hk2)%IH. exists ((k ++ [c; d]) ++ k2). rewrite Hr. split; [by rewrite <- !(assoc (++))|by apply Forall_app].
  - intros (k2 & Hr & Hk2)%IH. exists ((k ++ [c]) ++ k2). rewrite Hr. split; [by rewrite <- !(assoc (++))|by apply Forall_app].
Qed.

Lemma ParseIP_chars s : ParseIP s ≠ [] → Forall (λ c, addr_char c = true) (bytes_of s).
Proof.
  unfold ParseIP, ParseAddr. destruct (list_find _ (bytes_of s)) as [[i c]|]; [|done]. case_decide.
  { destruct (parseIPv4Fields (bytes_of s)) as [|ip] eqn:E; [done|]. intros _. by eapply parse_v4_chars. }
  case_decide; [|done]. unfold parseIPv6. destruct (Cut s "%"%char) as [[addr zone] found] eqn:Ec.
  destruct found eqn:Ef; cbn [andb].
  { case_bool_decide; [done|]. repeat (case_match; try done); simplify_eq/=; rewrite decide_False by done; done. }
  apply Cut_spec in Ec as [_ Es]. subst addr.
  destruct (bool_decide (take 2 (bytes_of s) = [":"%char; ":"%char]) && bool_decide (length (bytes_of s) = 2)) eqn:El.
  { intros _. apply andb_true_iff in El as [E1%bool_decide_eq_true E2%bool_decide_eq_true].
    rewrite take_ge in E1 by lia. rewrite E1. by repeat constructor. }
  destruct (parse_v6_loop 8 _ [] _) as [m|[[rest ip] e]] eqn:Ep; [done|]. destruct (decide (rest ≠ [])) as [Hr|Hr]; [done|]. intros _.
  apply dec_stable in Hr. subst rest. apply parse_v6_chars in Ep as (k & Hk & HF). rewrite app_nil_r in Hk.
  case_bool_decide as Ht.
  - rewrite <- (take_drop 2 (bytes_of s)), Ht, Hk. by repeat constructor.
  - by rewrite Hk.
Qed.

(** ** The client behind the proxies *)

Lemma SplitHostPort_clean addr h p : SplitHostPort addr = Some (h, p) → no_brackets (bytes_of p) ∧ colon ∉ bytes_of p.
Proof.
  unfold SplitHostPort. destruct (split_host (bytes_of addr)) as [host|] eqn:Es; [|done]. cbn [mbind option_bind].
  destruct (LastIndexByte colon (bytes_of addr)) as [i|] eqn:El; [|done]. intros [= <- <-]. rewrite bytes_of_of_bytes.
  assert (∀ c l k, IndexByte c l = None → c ∉ drop k l) as HN.
  { intros c l k Hn Hc. unfold IndexByte in Hn. destruct (list_find (c =.) l) eqn:E; [done|]. apply list_find_None in E.
    apply (proj1 (Forall_forall _ _) E c); [|done]. rewrite <- (take_drop k l). set_solver. }
  split.
  - unfold split_host in Es. rewrite El in Es. cbn [mbind option_bind] in Es. case_decide as Hh.
    + destruct (IndexByte rbracket (bytes_of addr)) as [e|]; [|done]. cbn [mbind option_bind] in Es. case_decide as Hd; [|done].
      destruct Hd as (<- & H1 & H2). split.
      * replace (e + 1 + 1) with (1 + (e + 1)) by lia. rewrite <- drop_drop. by apply HN.
      * rewrite <- drop_drop. by apply HN.
    + case_decide as Hd; [|done]. destruct Hd as (_ & H1 & H2). split; by apply HN.
  - unfold LastIndexByte in El. destruct (IndexByte colon (reverse (bytes_of addr))) as [j|] eqn:E; [|done]. simpl in El. simplify_eq.
    unfold IndexByte in E. destruct (list_find _ (reverse (bytes_of addr))) as [[j' x]|] eqn:Ef; [|done]. simplify_eq/=.
    apply list_find_Some in Ef as (Hj & _ & Hmin). intros [n Hn]%list_elem_of_lookup. rewrite lookup_drop in Hn.
    pose proof (lookup_lt_Some _ _ _ Hn) as Hlt. pose proof (lookup_lt_Some _ _ _ Hj) as Hlt2. rewrite length_reverse in Hlt2.
    apply (Hmin (length (bytes_of addr) - 1 - (length (bytes_of addr) - 1 - j + 1 + n)) colon); [|lia|done].
    rewrite reverse_lookup by lia. rewrite <- Hn. f_equal. lia.
Qed.

Lemma parse_backwards_trusted allowed proxies rest last :
  Forall (λ e, ParseIP (TrimSpace e) ≠ [] ∧ allowed (TrimSpace e) = true) proxies →
  ∃ last', parse_backwards allowed (proxies ++ rest) last = parse_backwards allowed rest last'.
Proof.
  intros Hp. revert last. induction Hp as [|e proxies [He Ha] _ IH]; intros last; [by exists last|]. simpl.
  rewrite decide_False, Ha by done. apply IH.
Qed.

(** The first entry from the right that is no trusted proxy is the client. *)
Lemma xff_parse_client header allowed spoofed client proxies :
  Split header ","%char = spoofed ++ client :: proxies →
  ParseIP (TrimSpace client) ≠ [] → allowed (TrimSpace client) = false →
  Forall (λ e, ParseIP (TrimSpace e) ≠ [] ∧ allowed (TrimSpace e) = true) proxies →
  xff_parse header allowed = TrimSpace client.
Proof.
  intros Hs Hc Ha Hp. unfold xff_parse. rewrite Hs.
  assert (parse_backwards allowed (reverse (spoofed ++ client :: proxies)) "" = TrimSpace client) as HB.
  { rewrite reverse_app, reverse_cons, <- (assoc (++)).
    destruct (parse_backwards_trusted allowed (reverse proxies) ([client] ++ reverse spoofed) "") as [last' ->]; [by apply Forall_reverse|].
    simpl. by rewrite decide_False, Ha by done. }
  destruct (spoofed ++ client :: proxies) as [|e [|e' l]] eqn:E; [by destruct spoofed| |exact HB].
  assert (spoofed = [] ∧ client = e) as [-> ->] by (destruct spoofed as [|x [|]]; simplify_eq/=; naive_solver). by rewrite decide_True.
Qed.

(** A peer that is not trusted cannot change its address. *)
Theorem xff_untrusted_peer x header remoteAddr sip sport :
  SplitHostPort remoteAddr = Some (sip, sport) → xff_allowed x sip = false → Xff_Handler x header remoteAddr = remoteAddr.
Proof. intros Hs Ha. unfold Xff_Handler, getRemoteAddrIfAllowed. rewrite Hs, Ha, andb_false_r. by case_decide. Qed.

(** C31: Behind trusted proxies the address is that of the nearest hop that is none of
    them, whatever the client wrote into the header itself. *)
Theorem xff_spoof_resistant x header remoteAddr sip sport spoofed client proxies :
  SplitHostPort remoteAddr = Some (sip, sport) → sip ≠ "" → xff_allowed x sip = true →
  Split header ","%char = spoofed ++ client :: proxies →
  ParseIP (TrimSpace client) ≠ [] → xff_allowed x (TrimSpace client) = false →
  Forall (λ e, ParseIP (TrimSpace e) ≠ [] ∧ xff_allowed x (TrimSpace e) = true) proxies →
  SplitHostPort (Xff_Handler x header remoteAddr) = Some (TrimSpace client, sport).
Proof.
  intros Hs Hne Hsip Hh Hc Ha Hp. unfold Xff_Handler, getRemoteAddrIfAllowed.
  assert (ParseIP "" = []) as H0 by done.
  rewrite decide_True. 2:{ intros ->. vm_compute in Hh. destruct spoofed as [|? [|]]; simplify_eq/=. }
  rewrite Hs, Hsip, bool_decide_eq_true_2 by done. cbn [andb]. rewrite (xff_parse_client _ _ _ _ _ Hh Hc Ha Hp).
  rewrite decide_True by (intros E; by rewrite E in Hc). destruct (SplitHostPort_clean _ _ _ Hs) as [Hb Hcol].
  apply SplitHostPort_Join; [|done|done]. by apply addr_char_brackets, ParseIP_chars.
Qed.

(** ** Redirects and routes *)

Lemma Itoa_clean z : (0 ≤ z)%Z → no_brackets (bytes_of (Itoa z)) ∧ colon ∉ bytes_of (Itoa z).
Proof.
  intros Hz. pose proof (Itoa_digits z Hz) as HF.
  split; [split|]; intros Hc; by apply (proj1 (Forall_forall _ _) HF) in Hc.
Qed.

(** The redirect goes to the host of the request, on the port of HTTPS, for names
    and for addresses of both families, with and without a port. *)
Theorem redirect_host_exact host p port :
  no_brackets (bytes_of host) → (0 ≤ p)%Z → redirect_host (JoinHostPort host (Itoa p)) port = JoinHostPort host (Itoa port).
Proof.
  intros Hh Hp. unfold redirect_host, parseHost. destruct (Itoa_clean p Hp). by rewrite SplitHostPort_Join.
Qed.

Example redirect_host_ex :
  redirect_host "example.org" 443 = "example.org:443" ∧ redirect_host "[::1]" 443 = "[::1]:443" ∧
  redirect_host "[::1]:80" 443 = "[::1]:443" ∧ redirect_host "10.0.0.1:80" 443 = "10.0.0.1:443".
Proof. vm_compute. done. Qed.

(** Over HTTP a route is redirected or served or absent, over HTTPS it is served
    exactly when it asks for it; a route that asks for the rewrite is never served
    over HTTP while TLS is on. *)
Theorem Muxes_exact {H} httpsPort tls (rs : list (hRoute H)) pattern t :
  let '(http, https) := Muxes httpsPort tls rs in
  ((pattern, t) ∈ http ↔ ∃ r, r ∈ rs ∧ hr_Pattern r = pattern ∧ hr_HTTPEnabled r = true ∧
     t = if hr_RewriteHTTPToHTTPS r && tls then RedirectHTTPS httpsPort else Serve (hr_Handler r)) ∧
  ((pattern, t) ∈ https ↔ ∃ r, r ∈ rs ∧ hr_Pattern r = pattern ∧ hr_HTTPSEnabled r = true ∧ t = Serve (hr_Handler r)).
Proof.
  unfold Muxes. split; rewrite list_elem_of_omap; split.
  - intros (r & Hr & E). exists r. destruct (hr_HTTPEnabled r); [|done]. cbn [andb] in E. destruct (hr_RewriteHTTPToHTTPS r && tls); by simplify_eq.
  - intros (r & Hr & <- & He & ->). exists r. split; [done|]. rewrite He. cbn [andb]. by destruct (hr_RewriteHTTPToHTTPS r && tls).
  - intros (r & Hr & E). exists r. destruct (hr_HTTPSEnabled r); by simplify_eq.
  - intros (r & Hr & <- & He & ->). exists r. by rewrite He.
Qed.

(** A server bound to an IPv6 address is given an address no listener can split. *)
Example serve_addrs_ex :
  (RemoteAddrIP ∘ fst <$> serve_addrs (mkServerConfig "10.0.0.1" 7080 false 7443 0 0 0 0 0 0) true true) = [Some "10.0.0.1"] ∧
  (RemoteAddrIP ∘ fst <$> serve_addrs (mkServerConfig "fd00::1" 7080 true 7443 0 0 0 0 0 0) true true) = [None; None].
Proof. vm_compute. done. Qed.
