(* ===== verification/ReverseProxy.v ===== *)
(** * Smee: the reverse proxy of ISO images

    smee/internal/iso/internal: reverseproxy.go, a copy of the proxy of
    net/http/httputil with a hook for copying the body, ascii.go and context.go.

    The header map of the response is threaded through the handler, and returned
    as the handler leaves it: what it holds after the body is sent are the
    trailers. What else it does to the connections is the class [ProxyEnv]; the
    body of a response is the list of what its reads return ([Reader]), so that the
    size of the buffer, and the pool it may come from, do not occur. The context of
    a request is what is looked up in it. *)
From S2P Require Import Prelude GoStrings GoNet Dhcp GoHttp GoNetip Tootles HttpCommon.

Abbreviation bytes := (list ascii).

(** What the reads of a body return: a chunk each, the last one with an error
    ([None] for [io.EOF]). *)
Inductive Reader := ReadEnd (b : bytes) (e : option error) | ReadMore (b : bytes) (r : Reader).

(** ** ascii.go *)

Definition lower (b : ascii) : ascii := lower_char b.

Definition EqualFold (s t : string) : bool :=
  bool_decide (strlen s = strlen t) && forallb (λ p, bool_decide (lower p.1 = lower p.2)) (zip (bytes_of s) (bytes_of t)).

Definition IsPrint (s : string) : bool := forallb (ascii_between " "%char "~"%char) (bytes_of s).

(** ** context.go *)

Record Context := mkContext {
  cx_Patch : option bytes;
  (** the value of [http.ServerContextKey] is there *)
  cx_Server : bool;
}.

Definition WithPatch (ctx : Context) (patch : bytes) : Context := mkContext (Some patch) (cx_Server ctx).
Definition GetPatch (ctx : Context) : bytes := default [] (cx_Patch ctx).

(** ** Requests and responses *)

Section Messages.
Context `{UrlStruct}.

(** [http.Request]: of the body whether there is one, of the form whether it was
    parsed. *)
Record Request := mkRequest {
  rq_Method : string;
  rq_URL : URL;
  rq_Host : string;
  rq_RemoteAddr : string;
  rq_TLS : bool;
  rq_Header : Header;
  rq_ContentLength : Z;
  rq_Body : bool;
  rq_Form : bool;
  rq_Close : bool;
  rq_Context : Context;
}.

Definition set_URL (u : URL) (r : Request) : Request :=
  mkRequest (rq_Method r) u (rq_Host r) (rq_RemoteAddr r) (rq_TLS r) (rq_Header r) (rq_ContentLength r) (rq_Body r) (rq_Form r) (rq_Close r) (rq_Context r).
Definition set_req_Host (h : string) (r : Request) : Request :=
  mkRequest (rq_Method r) (rq_URL r) h (rq_RemoteAddr r) (rq_TLS r) (rq_Header r) (rq_ContentLength r) (rq_Body r) (rq_Form r) (rq_Close r) (rq_Context r).
Definition set_Header (h : Header) (r : Request) : Request :=
  mkRequest (rq_Method r) (rq_URL r) (rq_Host r) (rq_RemoteAddr r) (rq_TLS r) h (rq_ContentLength r) (rq_Body r) (rq_Form r) (rq_Close r) (rq_Context r).
Definition set_Body (b : bool) (r : Request) : Request :=
  mkRequest (rq_Method r) (rq_URL r) (rq_Host r) (rq_RemoteAddr r) (rq_TLS r) (rq_Header r) (rq_ContentLength r) b (rq_Form r) (rq_Close r) (rq_Context r).
Definition set_Close (b : bool) (r : Request) : Request :=
  mkRequest (rq_Method r) (rq_URL r) (rq_Host r) (rq_RemoteAddr r) (rq_TLS r) (rq_Header r) (rq_ContentLength r) (rq_Body r) (rq_Form r) b (rq_Context r).
Definition set_Context (c : Context) (r : Request) : Request :=
  mkRequest (rq_Method r) (rq_URL r) (rq_Host r) (rq_RemoteAddr r) (rq_TLS r) (rq_Header r) (rq_ContentLength r) (rq_Body r) (rq_Form r) (rq_Close r) c.
Definition set_RawQuery (q : string) (r : Request) : Request :=
  let p := url_parts (rq_URL r) in
  set_URL (with_parts (mkUrlParts (up_Scheme p) (up_Host p) (up_Path p) (up_RawPath p) q) (rq_URL r)) r.

(** [http.Response]. The trailers are those announced before the body and those
    there after it, each in the order [range] visits them. *)
Record Response := mkResponse {
  rs_StatusCode : Z;
  rs_Header : Header;
  rs_ContentLength : Z;
  rs_Body : Reader;
  rs_Trailer : list (string * list string);
  rs_TrailerEnd : list (string * list string);
  rs_Request : option Request;
  (** the body can also be written, as after a change of protocol *)
  rs_Writable : bool;
}.

Definition set_rs_Header (h : Header) (r : Response) : Response :=
  mkResponse (rs_StatusCode r) h (rs_ContentLength r) (rs_Body r) (rs_Trailer r) (rs_TrailerEnd r) (rs_Request r) (rs_Writable r).

(** ** The URL of the request that is sent *)

Definition singleJoiningSlash (a b : string) : string :=
  let aslash := bool_decide (last (bytes_of a) = Some "/"%char) in
  let bslash := HasPrefix b "/" in
  if aslash && bslash then a +:+ of_bytes (drop 1 (bytes_of b))
  else if negb aslash && negb bslash then a +:+ "/" +:+ b
  else a +:+ b.

Definition joinURLPath (a b : UrlParts) : string * string :=
  if decide (up_RawPath a = "" ∧ up_RawPath b = "") then (singleJoiningSlash (up_Path a) (up_Path b), "")
  else
    let apath := EscapedPath a in
    let bpath := EscapedPath b in
    let aslash := bool_decide (last (bytes_of apath) = Some "/"%char) in
    let bslash := HasPrefix bpath "/" in
    if aslash && bslash then (up_Path a +:+ of_bytes (drop 1 (bytes_of (up_Path b))), apath +:+ of_bytes (drop 1 (bytes_of bpath)))
    else if negb aslash && negb bslash then (up_Path a +:+ "/" +:+ up_Path b, apath +:+ "/" +:+ bpath)
    else (up_Path a +:+ up_Path b, apath +:+ bpath).

Definition join_query (targetQuery q : string) : string :=
  if decide (targetQuery = "" ∨ q = "") then targetQuery +:+ q else targetQuery +:+ "&" +:+ q.

Definition rewriteRequestURL (target : URL) (req : Request) : Request :=
  let t := url_parts target in
  let u := url_parts (rq_URL req) in
  let joined := joinURLPath t u in
  set_URL (with_parts (mkUrlParts (up_Scheme t) (up_Host t) joined.1 joined.2 (join_query (up_RawQuery t) (up_RawQuery u))) (rq_URL req)) req.

Record ProxyRequest := mkProxyRequest { pr_In : Request; pr_Out : Request }.

Definition SetURL (target : URL) (r : ProxyRequest) : ProxyRequest :=
  mkProxyRequest (pr_In r) (set_req_Host "" (rewriteRequestURL target (pr_Out r))).

(** The address of the client after the addresses that were there. *)
Definition append_forwarded (prior : list string) (clientIP : string) : string :=
  if decide (prior = []) then clientIP else Join prior ", " +:+ ", " +:+ clientIP.

Definition SetXForwarded (r : ProxyRequest) : ProxyRequest :=
  let h := rq_Header (pr_Out r) in
  let h :=
    match SplitHostPort (rq_RemoteAddr (pr_In r)) with
    | Some (clientIP, _) => Header_Set "X-Forwarded-For" (append_forwarded (default [] (h !! "X-Forwarded-For")) clientIP) h
    | None => Header_Del "X-Forwarded-For" h
    end in
  let h := Header_Set "X-Forwarded-Host" (rq_Host (pr_In r)) h in
  let h := Header_Set "X-Forwarded-Proto" (if rq_TLS (pr_In r) then "https" else "http") h in
  mkProxyRequest (pr_In r) (set_Header h (pr_Out r)).
End Messages.

(** ** Headers and query parameters *)

Definition copy_values (dst : Header) (kv : string * list string) : Header := foldl (λ d v, Header_Add kv.1 v d) dst kv.2.
Definition copyHeader (dst src : Header) : Header := foldl copy_values dst (map_to_list src).

Definition hopHeaders : list string :=
  ["Connection"; "Proxy-Connection"; "Keep-Alive"; "Proxy-Authenticate"; "Proxy-Authorization"; "Te"; "Trailer"; "Transfer-Encoding"; "Upgrade"].

(** The names a Connection header lists. *)
Definition connection_tokens (h : Header) : list string :=
  f ← default [] (h !! "Connection"); sf ← Split f ","%char;
  let sf := TrimString sf in if decide (sf ≠ "") then [sf] else [].

Definition removeHopByHopHeaders (h : Header) : Header :=
  foldl (λ h f, Header_Del f h) (foldl (λ h f, Header_Del f h) h (connection_tokens h)) hopHeaders.

Definition ishex (c : ascii) : bool :=
  ascii_between "0"%char "9"%char c || ascii_between "a"%char "f"%char c || ascii_between "A"%char "F"%char c.

(** The loop of [cleanQueryParams]: nothing has to be encoded again. *)
Fixpoint clean_query (l : list ascii) : bool :=
  match l with
  | [] => true
  | c :: l' =>
      if decide (c = ";"%char) then false
      else if decide (c = percent) then
        match l' with a :: b :: l'' => ishex a && ishex b && clean_query l'' | _ => false end
      else clean_query l'
  end.

Definition cleanQueryParams (s : string) : string :=
  if clean_query (bytes_of s) then s else Values_Encode (ParseQuery s).

(** ** The connections *)

Inductive hijack := Hijacked | HijackNotSupported | HijackFailed (e : error).

(** The connection to the client, the timer of the delayed flush and the body of
    the response. [pl_ContainsToken] is [httpguts.HeaderValuesContainsToken],
    [pl_MediaType] the first result of [mime.ParseMediaType]. *)
Class ProxyEnv (W : Type) := {
  pl_ContainsToken : list string → string → bool;
  pl_MediaType : string → string;
  (** the status with the header map as it is *)
  rw_WriteHeader : Z → Header → W → W;
  rw_Write : bytes → W → nat * option error * W;
  rw_Flush : W → W;
  (** the timer that is set has fired since the last operation *)
  tm_Fired : W → bool * W;
  body_Close : W → W;
  rw_Hijack : W → hijack * W;
  (** [res.Write] and [Flush] on the hijacked connection *)
  up_Write : Z → Header → W → option error * W;
  up_Flush : W → option error * W;
  (** both copiers, until one of them ends *)
  up_Copy : W → W;
  conn_Close : W → W;
}.

(** ** maxLatencyWriter *)

(** [ml_armed]: the timer is set and has neither fired nor been stopped. *)
Record maxLatencyWriter := mkmaxLatencyWriter { ml_latency : Z; ml_armed : bool; ml_flushPending : bool }.

Section Proxy.
Context `{UrlStruct} {W : Type} `{ProxyEnv W}.
Implicit Types (w : W) (h : Header).

Definition mlw_delayedFlush (m : maxLatencyWriter) w : maxLatencyWriter * W :=
  if ml_flushPending m then (mkmaxLatencyWriter (ml_latency m) (ml_armed m) false, rw_Flush w) else (m, w).

Definition mlw_Write (b : bytes) (m : maxLatencyWriter) w : nat * option error * (maxLatencyWriter * W) :=
  let '(n, err, w) := rw_Write b w in
  if decide (ml_latency m < 0)%Z then (n, err, (m, rw_Flush w))
  else if ml_flushPending m then (n, err, (m, w))
  else (n, err, (mkmaxLatencyWriter (ml_latency m) true true, w)).

Definition mlw_stop (m : maxLatencyWriter) : maxLatencyWriter := mkmaxLatencyWriter (ml_latency m) false false.

(** The timer, which fires at most once each time it is set. *)
Definition mlw_timer (m : maxLatencyWriter) w : maxLatencyWriter * W :=
  if ml_armed m then
    let '(fired, w) := tm_Fired w in
    if (fired : bool) then mlw_delayedFlush (mkmaxLatencyWriter (ml_latency m) false (ml_flushPending m)) w else (m, w)
  else (m, w).

(** The writer of the body: the connection, or a [maxLatencyWriter] over it. *)
Definition writer : Type := option maxLatencyWriter * W.

Definition body_Write (b : bytes) (s : writer) : nat * option error * writer :=
  match s.1 with
  | None => let '(n, err, w) := rw_Write b s.2 in (n, err, (None, w))
  | Some m =>
      let '(m, w) := mlw_timer m s.2 in
      let '(n, err, (m, w)) := mlw_Write b m w in
      (n, err, (Some m, w))
  end.

(** ** The proxy *)

Definition ErrShortWrite : error := ErrNew "short write".

(** [p_Rewrite] returns [pr.Out]; [p_CopyBuffer] is given the context of the
    request of the response. A transport is always there. *)
Record ReverseProxy := mkReverseProxy {
  p_Rewrite : option (ProxyRequest → ProxyRequest);
  p_Director : option (Request → Request);
  p_Transport : Request → W → list (Z * Header) * res Response * W;
  p_FlushInterval : Z;
  p_ModifyResponse : option (Response → res Response);
  p_ErrorHandler : option (Request → error → Header → W → Header * W);
  p_CopyBuffer : option (option Context → Reader → writer → nat * option error * writer);
}.

Definition NewSingleHostReverseProxy (transport : Request → W → list (Z * Header) * res Response * W) (target : URL) : ReverseProxy :=
  mkReverseProxy None (Some (rewriteRequestURL target)) transport 0 None None None.

(** How a handler ends: it returns, or it panics with [http.ErrAbortHandler],
    which has the server break the connection. *)
Inductive http_outcome := Returned | Aborted.

Definition defaultErrorHandler (h : Header) w : Header * W := (h, rw_WriteHeader 502 h w).
Definition handleError (p : ReverseProxy) (req : Request) (err : error) (h : Header) w : Header * W :=
  match p_ErrorHandler p with Some f => f req err h w | None => defaultErrorHandler h w end.

(** [modifyResponse]: the response, or the header map after the answer to the
    client. *)
Definition modifyResponse (p : ReverseProxy) (r : Response) (req : Request) (h : Header) w : (Header + Response) * W :=
  match p_ModifyResponse p with
  | None => (inr r, w)
  | Some f =>
      match f r with
      | inr r => (inr r, w)
      | inl err => let '(h, w) := handleError p req err h (body_Close w) in (inl h, w)
      end
  end.

Definition upgradeType (h : Header) : string :=
  if pl_ContainsToken (default [] (h !! "Connection")) "Upgrade" then Header_Get h "Upgrade" else "".

(** Copying the body. *)
Fixpoint copyBuffer (src : Reader) (s : writer) : nat * option error * writer :=
  let chunk b s :=
    if decide (b = []) then (0, None, s)
    else
      let '(nw, werr, s) := body_Write b s in
      match werr with
      | Some e => (nw, Some e, s)
      | None => (nw, if decide (length b ≠ nw) then Some ErrShortWrite else None, s)
      end in
  match src with
  | ReadEnd b e => let '(nw, werr, s) := chunk b s in (nw, match werr with Some e => Some e | None => e end, s)
  | ReadMore b src' =>
      let '(nw, werr, s) := chunk b s in
      match werr with
      | Some e => (nw, Some e, s)
      | None => let '(n, e, s) := copyBuffer src' s in (nw + n, e, s)
      end
  end.

Definition flushInterval (p : ReverseProxy) (r : Response) : Z :=
  if decide (pl_MediaType (Header_Get (rs_Header r) "Content-Type") = "text/event-stream") then -1
  else if decide (rs_ContentLength r = -1)%Z then -1
  else p_FlushInterval p.

Definition copyResponse (p : ReverseProxy) (ctx : option Context) (src : Reader) (interval : Z) w : option error * W :=
  let m := if decide (interval ≠ 0)%Z then Some (mkmaxLatencyWriter interval true true) else None in
  let '(_, err, (m, w)) := match p_CopyBuffer p with Some f => f ctx src (m, w) | None => copyBuffer src (m, w) end in
  (err, match m with Some m => (mlw_timer m w).2 | None => w end).

Definition shouldPanicOnCopyError (req : Request) : bool := cx_Server (rq_Context req).

Definition handleUpgradeResponse (p : ReverseProxy) (req : Request) (r : Response) (h : Header) w : Header * W :=
  let reqUpType := upgradeType (rq_Header req) in
  let resUpType := upgradeType (rs_Header r) in
  let '(h, w) :=
    if IsPrint resUpType then (h, w)
    else handleError p req (ErrNew ("backend tried to switch to invalid protocol " +:+ dquote resUpType)) h w in
  if negb (EqualFold reqUpType resUpType) then
    handleError p req (ErrNew ("backend tried to switch protocol " +:+ dquote resUpType +:+ " when " +:+ dquote reqUpType +:+ " was requested")) h w
  else if negb (rs_Writable r) then
    handleError p req (ErrNew "internal error: 101 switching protocols response with non-writable body") h w
  else
    match rw_Hijack w with
    | (HijackNotSupported, w) => handleError p req (ErrNew "can't switch protocols using non-Hijacker ResponseWriter type") h w
    | (HijackFailed e, w) =>
        let '(h, w) := handleError p req (ErrNew ("Hijack failed on protocol switch: " +:+ error_msg e)) h w in (h, body_Close w)
    | (Hijacked, w) =>
        let h := copyHeader h (rs_Header r) in
        let '(h, w) :=
          match up_Write (rs_StatusCode r) h w with
          | (Some e, w) => handleError p req (ErrNew ("response write: " +:+ error_msg e)) h w
          | (None, w) =>
              match up_Flush w with
              | (Some e, w) => handleError p req (ErrNew ("response flush: " +:+ error_msg e)) h w
              | (None, w) => (h, up_Copy w)
              end
          end in
        (h, body_Close (conn_Close w))
    end.

(** *** ServeHTTP *)

(** The clone of the request, after [Director]. *)
Definition outreq_of (p : ReverseProxy) (req : Request) : Request :=
  let o := if decide (rq_ContentLength req = 0)%Z then set_Body false req else req in
  let o :=
    match p_Director p with
    | Some d => let o := d o in if rq_Form o then set_RawQuery (cleanQueryParams (up_RawQuery (url_parts (rq_URL o)))) o else o
    | None => o
    end in
  set_Close false o.

(** The headers without those of this connection, and the ones added back. *)
Definition hop_headers (req : Request) (reqUpType : string) (h : Header) : Header :=
  let h := removeHopByHopHeaders h in
  let h := if pl_ContainsToken (default [] (rq_Header req !! "Te")) "trailers" then Header_Set "Te" "trailers" h else h in
  if decide (reqUpType ≠ "") then Header_Set "Upgrade" reqUpType (Header_Set "Connection" "Upgrade" h) else h.

(** The addresses of the client, without [Rewrite]. *)
Definition forward_client (req out : Request) : Request :=
  match SplitHostPort (rq_RemoteAddr req) with
  | Some (clientIP, _) =>
      let prior := rq_Header out !! "X-Forwarded-For" in
      if decide (prior = Some []) then out
      else set_Header (Header_Set "X-Forwarded-For" (append_forwarded (default [] prior) clientIP) (rq_Header out)) out
  | None => out
  end.

Definition strip_forwarded (h : Header) : Header :=
  Header_Del "X-Forwarded-Proto" (Header_Del "X-Forwarded-Host" (Header_Del "X-Forwarded-For" (Header_Del "Forwarded" h))).

(** The request the transport is given. *)
Definition prepare (p : ReverseProxy) (req : Request) : res Request :=
  if bool_decide (is_Some (p_Director p) ↔ is_Some (p_Rewrite p)) then
    inl (ErrNew "ReverseProxy must have exactly one of Director or Rewrite set")
  else
    let out := outreq_of p req in
    let reqUpType := upgradeType (rq_Header out) in
    if negb (IsPrint reqUpType) then inl (ErrNew ("client tried to switch to invalid protocol " +:+ dquote reqUpType))
    else
      let out := set_Header (hop_headers req reqUpType (rq_Header out)) out in
      let out :=
        match p_Rewrite p with
        | Some f =>
            let out := set_Header (strip_forwarded (rq_Header out)) out in
            let out := set_RawQuery (cleanQueryParams (up_RawQuery (url_parts (rq_URL out)))) out in
            pr_Out (f (mkProxyRequest req out))
        | None => forward_client req out
        end in
      inr (if decide (rq_Header out !! "User-Agent" = None) then set_Header (Header_Set "User-Agent" "" (rq_Header out)) out else out).

(** The informational responses, as they arrive; each clears the header map. *)
Fixpoint send_1xx (l : list (Z * Header)) h w : Header * W :=
  match l with
  | [] => (h, w)
  | (code, ih) :: l' => send_1xx l' ∅ (rw_WriteHeader code (copyHeader h ih) w)
  end.

Definition add_prefixed (h : Header) (kv : string * list string) : Header :=
  foldl (λ d v, Header_Add ("Trailer:" +:+ kv.1) v d) h kv.2.

(** The response: its headers, its body and its trailers. *)
Definition send_response (p : ReverseProxy) (req : Request) (r : Response) (h : Header) w : http_outcome * Header * W :=
  let h := copyHeader h (rs_Header r) in
  let announced := length (rs_Trailer r) in
  let h := if decide (0 < announced) then Header_Add "Trailer" (Join (rs_Trailer r).*1 ", ") h else h in
  let w := rw_WriteHeader (rs_StatusCode r) h w in
  let '(err, w) := copyResponse p (rq_Context <$> rs_Request r) (rs_Body r) (flushInterval p r) w in
  let w := body_Close w in
  match err with
  | Some _ => (if shouldPanicOnCopyError req then Aborted else Returned, h, w)
  | None =>
      let w := if decide (0 < length (rs_TrailerEnd r)) then rw_Flush w else w in
      (Returned, foldl (if decide (length (rs_TrailerEnd r) = announced) then copy_values else add_prefixed) h (rs_TrailerEnd r), w)
  end.

Definition ServeHTTP (p : ReverseProxy) (req : Request) (h : Header) w : http_outcome * Header * W :=
  match prepare p req with
  | inl err => let '(h, w) := handleError p req err h w in (Returned, h, w)
  | inr out =>
      let '(infos, r, w) := p_Transport p out w in
      let '(h, w) := send_1xx infos h w in
      match r with
      | inl err => let '(h, w) := handleError p out err h w in (Returned, h, w)
      | inr r =>
          if decide (rs_StatusCode r = 101)%Z then
            match modifyResponse p r out h w with
            | (inl h, w) => (Returned, h, w)
            | (inr r, w) => let '(h, w) := handleUpgradeResponse p out r h w in (Returned, h, w)
            end
          else
            match modifyResponse p (set_rs_Header (removeHopByHopHeaders (rs_Header r)) r) out h w with
            | (inl h, w) => (Returned, h, w)
            | (inr r, w) => send_response p req r h w
            end
      end
  end.
End Proxy.

(** ** Headers *)

Lemma Header_Dels_lookup l h k :
  foldl (λ h f, Header_Del f h) h l !! k = if decide (k ∈ CanonicalKey <$> l) then None else h !! k.
Proof.
  revert h. induction l as [|f l IH]; intros h; cbn [foldl fmap list_fmap].
  - rewrite decide_False; [done|apply not_elem_of_nil].
  - rewrite IH. unfold Header_Del. destruct (decide (k = CanonicalKey f)) as [->|Hk].
    + rewrite lookup_delete_eq. rewrite (decide_True (P := CanonicalKey f ∈ CanonicalKey f :: _)) by (by left). by case_decide.
    + rewrite lookup_delete_ne by done. apply decide_ext. rewrite elem_of_cons. naive_solver.
Qed.

Lemma hopHeaders_canonical : CanonicalKey <$> hopHeaders = hopHeaders.
Proof. by vm_compute. Qed.

(** What is removed: the headers of a connection, and those it lists. *)
Lemma removeHopByHopHeaders_lookup h k :
  removeHopByHopHeaders h !! k =
    if decide (k ∈ hopHeaders ∨ k ∈ CanonicalKey <$> connection_tokens h) then None else h !! k.
Proof.
  unfold removeHopByHopHeaders. rewrite Header_Dels_lookup, hopHeaders_canonical, Header_Dels_lookup.
  repeat case_decide; naive_solver.
Qed.

Lemma copy_values_lookup d k vs k' :
  CanonicalKey k = k →
  copy_values d (k, vs) !! k' = if decide (k' = k ∧ vs ≠ []) then Some (default [] (d !! k') ++ vs) else d !! k'.
Proof.
  intros Hk. unfold copy_values. cbn [fst snd]. revert d. induction vs as [|v vs IH]; intros d; cbn [foldl].
  - rewrite decide_False; [done|naive_solver].
  - rewrite IH. unfold Header_Add. rewrite Hk. destruct (decide (k' = k)) as [->|Hne].
    + rewrite lookup_insert_eq. rewrite (decide_True (P := k = k ∧ v :: vs ≠ [])) by done. cbn [default from_option id].
      case_decide as E; [unfold id; by rewrite <- (assoc_L (++))|]. destruct vs; [done|naive_solver].
    + rewrite lookup_insert_ne by done. rewrite !decide_False by naive_solver. done.
Qed.

Definition canonical_keys (h : Header) : Prop := ∀ k, is_Some (h !! k) → CanonicalKey k = k.

Lemma copy_all_lookup l d k :
  NoDup l.*1 → Forall (λ kv, CanonicalKey kv.1 = kv.1) l →
  foldl copy_values d l !! k =
    match (list_to_map l : Header) !! k with
    | Some (v :: vs) => Some (default [] (d !! k) ++ v :: vs)
    | _ => d !! k
    end.
Proof.
  revert d. induction l as [|[k0 vs] l IH]; intros d Hn Hc; [done|]. cbn [foldl].
  inversion Hn as [|?? Hk0 Hn']. inversion Hc as [|?? Hk Hc']. subst. cbn [fst] in *. rewrite IH by done. rewrite !copy_values_lookup by done.
  cbn [list_to_map foldr uncurry]. destruct (decide (k = k0)) as [->|Hne].
  - rewrite (not_elem_of_list_to_map_1 (M := gmap string) l k0) by done. rewrite lookup_insert_eq. destruct vs; [by rewrite decide_False by naive_solver|].
    by rewrite decide_True.
  - rewrite decide_False by naive_solver. rewrite lookup_insert_ne by done. done.
Qed.

(** Copied headers are added to the values that are there. *)
Lemma copyHeader_lookup dst src k :
  canonical_keys src →
  copyHeader dst src !! k = match src !! k with Some (v :: vs) => Some (default [] (dst !! k) ++ v :: vs) | _ => dst !! k end.
Proof.
  intros Hc. unfold copyHeader. rewrite copy_all_lookup.
  - by rewrite list_to_map_to_list.
  - apply NoDup_fst_map_to_list.
  - apply Forall_forall. intros [k0 vs] Hin%elem_of_map_to_list. by apply Hc; exists vs.
Qed.

(** ** Query parameters *)

Lemma clean_query_app a b : clean_query a = true → clean_query (a ++ b) = clean_query b.
Proof.
  induction a as [a IH] using (induction_ltof1 _ length). unfold ltof in IH. destruct a as [|c a]; [done|]. simpl.
  case_decide; [done|]. case_decide.
  - destruct a as [|x [|y a]]; [done..|]. simpl. intros [[-> ->]%andb_true_iff Ha]%andb_true_iff. simpl. apply IH; [simpl; lia|done].
  - intros Ha. apply IH; [simpl; lia|done].
Qed.

Lemma clean_percent_byte c : clean_query (percent_byte c) = true.
Proof. destruct c as [[] [] [] [] [] [] [] []]; by vm_compute. Qed.

Lemma clean_QueryEscape s : clean_query (bytes_of (QueryEscape s)) = true.
Proof.
  unfold QueryEscape. rewrite bytes_of_of_bytes. induction (bytes_of s) as [|c l IH]; [done|]. cbn [mbind list_bind].
  rewrite clean_query_app; [done|]. unfold query_escape_char. case_decide; [done|].
  destruct (escape_in_query c) eqn:E; [apply clean_percent_byte|]. simpl.
  rewrite !decide_False; [done|..]; intros ->; by vm_compute in E.
Qed.

Lemma clean_Join l : Forall (λ s, clean_query (bytes_of s) = true) l → clean_query (bytes_of (Join l "&")) = true.
Proof.
  induction 1 as [|s l Hs Hl IH]; [done|]. destruct l as [|t l]; [done|].
  change (Join (s :: t :: l) "&") with (s +:+ "&" +:+ Join (t :: l) "&"). rewrite !bytes_of_app, clean_query_app by done. simpl. done.
Qed.

(** The parameters that are sent on are unambiguous: no semicolon, and every
    percent sign begins an escape; cleaning them again changes nothing. *)
Theorem cleanQueryParams_clean s :
  clean_query (bytes_of (cleanQueryParams s)) = true ∧ cleanQueryParams (cleanQueryParams s) = cleanQueryParams s.
Proof.
  assert (clean_query (bytes_of (cleanQueryParams s)) = true) as E.
  { unfold cleanQueryParams. destruct (clean_query (bytes_of s)) eqn:E; [done|]. unfold Values_Encode. apply clean_Join.
    apply Forall_forall. intros x (k & Hx & _)%list_elem_of_bind. apply list_elem_of_bind in Hx as (v & Hx & _).
    apply list_elem_of_singleton in Hx as ->. rewrite !bytes_of_app, !clean_query_app by (done || apply clean_QueryEscape).
    simpl. apply clean_QueryEscape. }
  split; [done|]. unfold cleanQueryParams at 1. by rewrite E.
Qed.

(** ** What is sent to the source *)

Definition forwardedHeaders : list string := ["Forwarded"; "X-Forwarded-For"; "X-Forwarded-Host"; "X-Forwarded-Proto"].

(** The headers of a request that end at the proxy: those of the connection, those
    it lists, and those about the way of the request. *)
Definition ends_here (h : Header) (k : string) : Prop :=
  k ∈ hopHeaders ∨ k ∈ CanonicalKey <$> connection_tokens h ∨ k ∈ forwardedHeaders.
#[export] Instance ends_here_dec h k : Decision (ends_here h k).
Proof. unfold ends_here. apply _. Defined.

Lemma strip_forwarded_lookup h k : strip_forwarded h !! k = if decide (k ∈ forwardedHeaders) then None else h !! k.
Proof.
  change (strip_forwarded h) with (foldl (λ h f, Header_Del f h) h forwardedHeaders). rewrite Header_Dels_lookup.
  assert (CanonicalKey <$> forwardedHeaders = forwardedHeaders) as -> by (by vm_compute). done.
Qed.

Lemma Header_Set_lookup k v h k' :
  CanonicalKey k = k → Header_Set k v h !! k' = if decide (k' = k) then Some [v] else h !! k'.
Proof.
  intros Hk. unfold Header_Set. rewrite Hk. case_decide as E; [subst; apply lookup_insert_eq|]. by rewrite lookup_insert_ne.
Qed.

Section Prepared.
Context `{UrlStruct} {W : Type} `{ProxyEnv W}.

(** The headers of the request that is sent: no header that ends here, but for
    the trailers and the change of protocol the client asked for; every other one
    as the client sent it. *)
Lemma hop_headers_lookup (req : Request) up k :
  strip_forwarded (hop_headers req up (rq_Header req)) !! k =
    if decide (up ≠ "" ∧ k = "Upgrade") then Some [up]
    else if decide (up ≠ "" ∧ k = "Connection") then Some ["Upgrade"]
    else if decide (pl_ContainsToken (default [] (rq_Header req !! "Te")) "trailers" = true ∧ k = "Te") then Some ["trailers"]
    else if decide (ends_here (rq_Header req) k) then None else rq_Header req !! k.
Proof.
  assert (∀ (b : bool) (hd : Header), (if b then Header_Set "Te" "trailers" hd else hd) !! k = if decide (b = true ∧ k = "Te") then Some ["trailers"] else hd !! k) as Ht.
  { intros [] hd; [rewrite Header_Set_lookup by done|]; repeat case_decide; naive_solver. }
  assert (k ∈ forwardedHeaders → k ≠ "Upgrade" ∧ k ≠ "Connection" ∧ k ≠ "Te") as Hf.
  { intros Hf. split_and!; intros ->; revert Hf; apply (bool_decide_eq_false_1 _); by vm_compute. }
  rewrite strip_forwarded_lookup. unfold hop_headers, ends_here.
  case_decide as Hk; destruct (decide (up ≠ "")) as [Hu|Hu]; rewrite ?Header_Set_lookup, ?Ht, ?removeHopByHopHeaders_lookup by done;
    repeat case_decide; naive_solver.
Qed.

Definition user_agent (h : Header) : Header := if decide (h !! "User-Agent" = None) then Header_Set "User-Agent" "" h else h.

Lemma user_agent_lookup h k : k ≠ "User-Agent" → user_agent h !! k = h !! k.
Proof. intros Hk. unfold user_agent. case_decide; [|done]. rewrite Header_Set_lookup by done. by rewrite decide_False. Qed.

Lemma prepare_out p target (req out : Request) :
  p_Director p = None → p_Rewrite p = Some (SetURL target) → prepare p req = inr out →
  let up := upgradeType (rq_Header req) in
  IsPrint up = true ∧
  rq_Header out = user_agent (strip_forwarded (hop_headers req up (rq_Header req))) ∧
  rq_Method out = rq_Method req ∧ rq_Context out = rq_Context req ∧ rq_Host out = "" ∧ rq_Close out = false ∧
  let t := url_parts target in
  let u := url_parts (rq_URL req) in
  let q := cleanQueryParams (up_RawQuery u) in
  let joined := joinURLPath t (mkUrlParts (up_Scheme u) (up_Host u) (up_Path u) (up_RawPath u) q) in
  url_parts (rq_URL out) = mkUrlParts (up_Scheme t) (up_Host t) joined.1 joined.2 (join_query (up_RawQuery t) q).
Proof.
  intros Hd Hr. unfold prepare. rewrite Hd, Hr. rewrite bool_decide_eq_false_2 by (intros [_ Hs]; by destruct (Hs ltac:(by eexists))).
  unfold outreq_of. rewrite Hd. destruct (IsPrint _) eqn:Ep; [|done]. cbn [negb]. intros [= <-]. unfold user_agent, SetURL, rewriteRequestURL, set_RawQuery in *.
  cbn [pr_Out pr_In set_req_Host set_URL set_Header set_Close rq_Header rq_URL] in *.
  destruct (decide (rq_ContentLength req = 0%Z)); cbn [set_Body rq_Header rq_URL] in *;
    (case_decide; cbn [set_Header rq_Header rq_Method rq_Context rq_Host rq_Close rq_URL up_RawQuery]; split_and!; try done; cbn [set_req_Host set_URL rq_URL]; by rewrite !url_parts_with).
Qed.

(** What the transport is given: the URL of the target with the path and the
    unambiguous parameters of the client joined to it, the method of the client,
    and its headers without those that end here; nothing the client writes can
    pass for what the proxy itself says of the way of the request. *)
Theorem prepare_sent p target (req out : Request) :
  p_Director p = None → p_Rewrite p = Some (SetURL target) → prepare p req = inr out →
  let up := upgradeType (rq_Header req) in
  (∀ k, k ∈ forwardedHeaders → rq_Header out !! k = None) ∧
  (∀ k, ends_here (rq_Header req) k → k ∉ ["Connection"; "Upgrade"; "Te"; "User-Agent"] → rq_Header out !! k = None) ∧
  (∀ k, ¬ ends_here (rq_Header req) k → k ≠ "User-Agent" → rq_Header out !! k = rq_Header req !! k) ∧
  is_Some (rq_Header out !! "User-Agent") ∧
  rq_Header out !! "Upgrade" = (if decide (up ≠ "") then Some [up] else None) ∧
  rq_Header out !! "Connection" = (if decide (up ≠ "") then Some ["Upgrade"] else None) ∧
  rq_Method out = rq_Method req ∧
  uf_Scheme (rq_URL out) = uf_Scheme target ∧ uf_Host (rq_URL out) = uf_Host target ∧
  clean_query (bytes_of (cleanQueryParams (up_RawQuery (url_parts (rq_URL req))))) = true.
Proof.
  intros Hd Hr Hp up. destruct (prepare_out p target req out Hd Hr Hp) as (Hpr & Hh & Hm & _ & _ & _ & Hu). cbv zeta in Hu. fold up in Hh.
  assert (∀ k, k ≠ "User-Agent" → rq_Header out !! k = strip_forwarded (hop_headers req up (rq_Header req)) !! k) as Hk.
  { intros k Hk. by rewrite Hh, user_agent_lookup. }
  assert (∀ k, k ∈ forwardedHeaders → k ∉ ["Connection"; "Upgrade"; "Te"; "User-Agent"]) as Hf.
  { intros k Hf Hin. assert (Forall (λ k, k ∉ ["Connection"; "Upgrade"; "Te"; "User-Agent"]) forwardedHeaders) as HF by by_decide.
    by apply (proj1 (Forall_forall _ _) HF k). }
  assert (∀ k, ends_here (rq_Header req) k → k ∉ ["Connection"; "Upgrade"; "Te"; "User-Agent"] → rq_Header out !! k = None) as He.
  { intros k He Hn. rewrite !not_elem_of_cons in Hn. destruct Hn as (? & ? & ? & ? & _). rewrite Hk, hop_headers_lookup by done.
    rewrite 3!decide_False by (intros [??]; done). by rewrite decide_True. }
  assert (∀ k, k ∈ hopHeaders → ends_here (rq_Header req) k) as Hhop by (intros k Hin; by left).
  split_and!; [|done|..].
  - intros k Hin. apply He; [by right; right|by apply Hf].
  - intros k Hn Hua. rewrite Hk, hop_headers_lookup by done.
    rewrite !decide_False; [done|done|..]; intros [_ ->]; apply Hn, Hhop; by_decide.
  - rewrite Hh. unfold user_agent. case_decide as E; [|by apply not_eq_None_Some]. rewrite Header_Set_lookup by done. by rewrite decide_True.
  - rewrite Hk, hop_headers_lookup by done. destruct (decide (up ≠ "")) as [Hup|Hup]; [by rewrite decide_True|].
    rewrite 3!decide_False by (intros [??]; done). rewrite decide_True by (apply Hhop; by_decide). done.
  - rewrite Hk, hop_headers_lookup by done. destruct (decide (up ≠ "")) as [Hup|Hup].
    + rewrite decide_False by (intros [??]; done). by rewrite decide_True.
    + rewrite 3!decide_False by (intros [??]; done). rewrite decide_True by (apply Hhop; by_decide). done.
  - done.
  - unfold uf_Scheme. by rewrite Hu.
  - unfold uf_Host. by rewrite Hu.
  - apply cleanQueryParams_clean.
Qed.
End Prepared.

(** ** Delayed flushes *)

Section Latency.
Context {W : Type} `{ProxyEnv W}.

(** A flush that is pending has its timer set. *)
Definition mlw_ok (m : maxLatencyWriter) : Prop := ml_flushPending m = true → ml_armed m = true.

(** What is written does not stay in a buffer: it is flushed at once, or a flush
    is pending and the timer for it is set; when the timer fires, it is flushed. *)
Theorem mlw_flushes b m (w : W) n err m' w' :
  mlw_ok m → mlw_Write b m w = (n, err, (m', w')) →
  mlw_ok m' ∧ ml_latency m' = ml_latency m ∧
  (if decide (ml_latency m < 0)%Z then w' = rw_Flush (rw_Write b w).2
   else ml_flushPending m' = true ∧ ∀ v v', tm_Fired v = (true, v') → mlw_timer m' v = (mkmaxLatencyWriter (ml_latency m) false false, rw_Flush v')).
Proof.
  intros Hok. unfold mlw_Write. destruct (rw_Write b w) as [[n0 e0] w0]. case_decide as Hl.
  - by intros [= <- <- <- <-].
  - assert (∀ v v' : W, tm_Fired v = (true, v') → mlw_timer (mkmaxLatencyWriter (ml_latency m) true true) v = (mkmaxLatencyWriter (ml_latency m) false false, rw_Flush v')) as Ht.
    { intros v v' E. unfold mlw_timer. simpl. by rewrite E. }
    destruct (ml_flushPending m) eqn:Ep; intros [= <- <- <- <-]; [|by split_and!].
    specialize (Hok Ep). destruct m as [l a p]. simpl in *. subst. by split_and!.
Qed.

Lemma mlw_timer_ok m (w : W) : mlw_ok m → mlw_ok (mlw_timer m w).1.
Proof. unfold mlw_ok, mlw_timer, mlw_delayedFlush. intros Hok. repeat (case_match; simplify_eq/=); naive_solver. Qed.
End Latency.

(** ** The middleware around the proxy *)

(** [middleware.Recovery], which every handler of the command is wrapped in:
    any panic, so also [http.ErrAbortHandler], is recovered and answered with
    500. *)
Definition Recovery {W} `{ProxyEnv W} (handler : Header → W → http_outcome * Header * W) (h : Header) (w : W) : http_outcome * Header * W :=
  match handler h w with
  | (Aborted, h, w) => (Returned, h, rw_WriteHeader 500 h w)
  | r => r
  end.
