(* ===== verification/Iso.v ===== *)
(** * Smee: patching of ISO images

    smee/internal/iso: iso.go, ipam.go. A request for the ISO of a machine is
    forwarded to the source of the image; on the way back the magic string in the
    image is replaced by kernel parameters for that machine.

    The transport of HTTP is the class [IsoHttp], the client a writer. The handler
    is the proxy of [ReverseProxy] with the transport and the copy of this file. *)
From S2P Require Import Prelude GoStrings GoNet GoNetip GoPath BmcTypes InventoryTypes Api Dhcp DhcpConv GoHttp ReverseProxy.

(** ** ipam.go *)

Definition ReplaceAll_char (old new : ascii) (s : string) : string :=
  of_bytes ((λ c, if decide (c = old) then new else c) <$> bytes_of s).

Definition addr_field (a : Addr) : string := if decide (a = AddrNone) then "" else Addr_String a.

Definition parseIPAM (d : option smee_DHCP) : string :=
  match d with
  | None => ""
  | Some d =>
      "ipam=" +:+ Join
        [ReplaceAll_char ":"%char "-"%char (HardwareAddr_String (sd_MACAddress d));
         sd_VLANID d;
         addr_field (sd_IPAddress d);
         if decide (sd_SubnetMask d = []) then "" else IP_String (sd_SubnetMask d);
         addr_field (sd_DefaultGateway d);
         sd_Hostname d;
         Join (IP_String <$> sd_NameServers d) ",";
         Join (sd_DomainSearch d) ",";
         Join (IP_String <$> sd_NTPServers d) ","] ":"
  end.

(** ** The handler *)

Record KernelParams := mkKernelParams {
  kp_ExtraParams : list string;
  kp_Syslog : string;
  kp_TinkServerTLS : bool;
  kp_TinkServerGRPCAddr : string;
}.

Record iso_Patch := mkiso_Patch {
  ip_KernelParams : KernelParams;
  ip_MagicString : string;
  ip_SourceISO : string;
  ip_StaticIPAMEnabled : bool;
}.

Definition defaultConsoles : string := "console=ttyAMA0 console=ttyS0 console=tty0 console=tty1 console=ttyS1".

(** [magicStrPadding], set by [HandlerFunc]. *)
Definition magicStrPadding (p : iso_Patch) : bytes := replicate (strlen (ip_MagicString p)) " "%char.

Definition constructPatch (p : iso_Patch) (console mac : string) (d : option smee_DHCP) : string :=
  let k := ip_KernelParams p in
  Join
    ([console]
     ++ (match d with Some d => if decide (sd_VLANID d ≠ "") then ["vlan_id=" +:+ sd_VLANID d] else [] | None => [] end)
     ++ ["hw_addr=" +:+ mac; "syslog_host=" +:+ kp_Syslog k; "grpc_authority=" +:+ kp_TinkServerGRPCAddr k;
         "tinkerbell_tls=" +:+ bool_str (kp_TinkServerTLS k); "worker_id=" +:+ mac]
     ++ kp_ExtraParams k
     ++ (if bool_decide (ip_StaticIPAMEnabled p = true) && bool_decide (parseIPAM d ≠ "") then [parseIPAM d] else [])) " ".

(** The consoles a facility stands for. *)
Definition consoles_of (fac : string) : string :=
  if bool_decide (fac ≠ "") && Contains fac "console=" then "facility=" +:+ fac
  else if decide (fac ≠ "") then "facility=" +:+ fac +:+ " " +:+ defaultConsoles
  else defaultConsoles.

Definition getMAC (urlPath : string) : res (list Z) :=
  match ParseMAC (path_Base (path_Dir urlPath)) with
  | Some mac => inr mac
  | None => inl (ErrNew ("failed to parse URL path: " +:+ urlPath
              +:+ " , the second to last element in the URL path must be a valid mac address"))
  end.

(** ** Copy *)

(** [bytes.Index]. *)
Fixpoint bytes_Index (s sub : bytes) : option nat :=
  if decide (take (length sub) s = sub) then Some 0
  else match s with [] => None | _ :: s' => S <$> bytes_Index s' sub end.

(** [copy(dst[i:], src)]. *)
Definition copy_at (i : nat) (src dst : bytes) : bytes :=
  take i dst ++ take (length dst - i) src ++ drop (i + length src) dst.

Definition patch_chunk (p : iso_Patch) (patch b : bytes) : bytes :=
  match bytes_Index b (bytes_of (ip_MagicString p)) with
  | Some i => copy_at i patch (copy_at i (magicStrPadding p) b)
  | None => b
  end.

Section Copy.
Context {W : Type} (write : bytes → W → nat * option error * W).

(** One chunk: what was written, and the error that ends the copy. *)
Definition copy_chunk (p : iso_Patch) (patch b : bytes) (w : W) : nat * option error * W :=
  if decide (b = []) then (0, None, w)
  else
    let '(nw, werr, w) := write (patch_chunk p patch b) w in
    match werr with
    | Some e => (nw, Some e, w)
    | None => (nw, if decide (length b ≠ nw) then Some ErrShortWrite else None, w)
    end.

Fixpoint iso_Copy (p : iso_Patch) (patch : bytes) (src : Reader) (w : W) : nat * option error * W :=
  match src with
  | ReadEnd b e =>
      let '(nw, werr, w) := copy_chunk p patch b w in
      (nw, match werr with Some e => Some e | None => e end, w)
  | ReadMore b src' =>
      let '(nw, werr, w) := copy_chunk p patch b w in
      match werr with
      | Some e => (nw, Some e, w)
      | None => let '(n, e, w) := iso_Copy p patch src' w in (nw + n, e, w)
      end
  end.

End Copy.

(** ** RoundTrip *)

Class IsoHttp (W : Type) `{UrlStruct} := {
  URL_IsAbs : URL → bool;
  URL_ResolveReference (base ref : URL) : URL;
  (** [apierrors.IsNotFound] on the errors of a backend, which depends on
      whether they implement the interface of API errors *)
  api_IsNotFound : error → bool;
  (** [http.DefaultTransport.RoundTrip]: the informational responses, and the
      response or an error *)
  ht_RoundTrip : Request → W → list (Z * Header) * res Response * W;
}.

Definition maxRedirects : nat := 10.

Section RoundTrip.
Context {W : Type} `{BackendReader W} `{IsoHttp W}.

(** [http.Response{StatusCode: code, Body: http.NoBody, Request: req}]. *)
Definition status_only (code : Z) (req : Request) : Response :=
  mkResponse code ∅ 0 (ReadEnd [] None) [] [] (Some req) false.

(** A transport records the request in the response. *)
Definition set_rs_Request (req : Request) (r : Response) : Response :=
  mkResponse (rs_StatusCode r) (rs_Header r) (rs_ContentLength r) (rs_Body r) (rs_Trailer r) (rs_TrailerEnd r) (Some req) (rs_Writable r).

(** The path, host and scheme of another URL. *)
Definition retarget (u target : URL) : URL :=
  let p := url_parts u in
  let t := url_parts target in
  with_parts (mkUrlParts (up_Scheme t) (up_Host t) (up_Path t) (up_RawPath p) (up_RawQuery p)) u.

Definition validateURL (u : URL) : res URL :=
  if decide (uf_Scheme u = "http" ∨ uf_Scheme u = "https") then inr u
  else inl (ErrNew ("unsupported scheme in URL: " +:+ uf_Scheme u +:+ " (only http and https are allowed)")).

Definition targetURL (isoFromHWObject isoFromConfig : string) : res URL :=
  if decide (isoFromHWObject ≠ "") then
    match url_Parse isoFromHWObject with
    | inl e => inl (ErrWrap "invalid sourceISO URL in hardware: " e)
    | inr tu => validateURL tu
    end
  else if decide (isoFromConfig ≠ "") then
    match url_Parse isoFromConfig with
    | inl e => inl (ErrWrap "invalid sourceISO URL in default: " e)
    | inr tu => validateURL tu
    end
  else inl (ErrNew "no ISO provided, one from query parameter, hardware object, or config must be set").

Definition getFacility (mac : list Z) (w : W) : res (string * smee_Hardware) * W :=
  match FilterHardware (by_mac mac) w with
  | (inl e, w) => (inl e, w)
  | (inr spec, w) =>
      match ConvertByMac mac (Some spec) with
      | inl e => (inl (ErrWrap "failed to convert hardware data: " e), w)
      | inr hw => (inr (match sh_Netboot hw with Some n => sn_Facility n | None => "" end, hw), w)
      end
  end.

(** The checks of an incoming request: a response, or the request to the source
    of the image, with the patch of the machine in its context. *)
Definition iso_request (p : iso_Patch) (req : Request) (w : W) : (Response + Request) * W :=
  let path := uf_Path (rq_URL req) in
  if decide (path_Ext path ≠ ".iso") then (inl (status_only 404 req), w)
  else
    match getMAC path with
    | inl _ => (inl (status_only 400 req), w)
    | inr ha =>
        match getFacility ha w with
        | (inl e, w) => (inl (status_only (if api_IsNotFound e then 404 else 500) req), w)
        | (inr (fac, hw), w) =>
            let patch := bytes_of (constructPatch p (consoles_of fac) (HardwareAddr_String ha) (sh_DHCP hw)) in
            let req := set_Context (WithPatch (rq_Context req) patch) req in
            let fromHW := match sh_Isoboot hw with Some i => URL_String (si_SourceISO i) | None => "" end in
            match targetURL fromHW (ip_SourceISO p) with
            | inl _ => (inl (status_only 400 req), w)
            | inr tu => (inr (set_URL (retarget (rq_URL req) tu) req), w)
            end
        end
    end.

(** The transport with the redirects that are left: the count of the code is
    [11 - n], and it fails when it exceeds [maxRedirects]. *)
Fixpoint follow_redirects (n : nat) (req : Request) (w : W) : list (Z * Header) * res Response * W :=
  match n with
  | 0 => ([], inl (ErrNew "maximum redirect limit of 10 exceeded"), w)
  | S n' =>
      match ht_RoundTrip req w with
      | (infos, inl e, w) => (infos, inl e, w)
      | (infos, inr r, w) =>
          let location := Header_Get (rs_Header r) "Location" in
          if decide ((300 ≤ rs_StatusCode r < 400)%Z ∧ location ≠ "") then
            match url_Parse location with
            | inl e => (infos, inl (ErrWrap "failed to parse redirect location: " e), w)
            | inr u =>
                let u := if URL_IsAbs u then u else URL_ResolveReference (rq_URL req) u in
                let '(infos', r, w) := follow_redirects n' (set_URL u req) w in
                (infos ++ infos', r, w)
            end
          else (infos, inr (set_rs_Request req r), w)
      end
  end.

Definition iso_RoundTrip (p : iso_Patch) (req : Request) (w : W) : list (Z * Header) * res Response * W :=
  match iso_request p req w with
  | (inl r, w) => ([], inr r, w)
  | (inr req, w) => follow_redirects (S maxRedirects) req w
  end.

(** [HandlerFunc]: the source of the configuration, which must be a URL with a
    scheme of HTTP when it is given, and the proxy. *)
Definition iso_source (p : iso_Patch) : res URL :=
  if decide (ip_SourceISO p = "") then inr (url_make "" "")
  else
    match url_Parse (ip_SourceISO p) with
    | inl e => inl e
    | inr t =>
        match validateURL t with
        | inl _ => inl (ErrNew ("unsupported scheme in SourceISO: " +:+ uf_Scheme t +:+ " (only http and https are supported)"))
        | inr t => inr t
        end
    end.

(** A response always has its request, so the copy is always given a context. *)
Definition iso_proxy `{ProxyEnv W} (p : iso_Patch) (source : URL) : ReverseProxy :=
  mkReverseProxy (Some (SetURL source)) None (iso_RoundTrip p) (-1) None None
    (Some (λ ctx src s, iso_Copy body_Write p (match ctx with Some c => GetPatch c | None => [] end) src s)).

Definition iso_HandlerFunc `{ProxyEnv W} (p : iso_Patch) : res ReverseProxy :=
  match iso_source p with inl e => inl e | inr source => inr (iso_proxy p source) end.

End RoundTrip.

(** ** Patching *)

Lemma copy_at_length i src dst : i ≤ length dst → length (copy_at i src dst) = length dst.
Proof. intros Hi. unfold copy_at. rewrite !length_app, !length_take, length_drop. lia. Qed.

Lemma bytes_Index_Some s sub i :
  bytes_Index s sub = Some i → ∃ post, s = take i s ++ sub ++ post ∧ i + length sub ≤ length s.
Proof.
  revert i. induction s as [|c s IH]; intros i; cbn [bytes_Index]; case_decide as E.
  - intros [= <-]. exists []. rewrite app_nil_r. simpl. destruct sub; [split; simpl; [done|lia]|done].
  - done.
  - intros [= <-]. exists (drop (length sub) (c :: s)). split; [rewrite <-(take_drop (length sub) (c :: s)) at 1; by rewrite E|].
    apply (f_equal length) in E. rewrite length_take in E. lia.
  - destruct (bytes_Index s sub) as [j|]; [|done]. intros [= <-]. destruct (IH j eq_refl) as (post & Hs & Hl).
    exists post. simpl. split; [by f_equal|lia].
Qed.

Lemma bytes_Index_le s sub i : bytes_Index s sub = Some i → i + length sub ≤ length s.
Proof. intros (post & _ & Hl)%bytes_Index_Some. done. Qed.

Lemma patch_chunk_length p patch b : length (patch_chunk p patch b) = length b.
Proof.
  unfold patch_chunk. destruct (bytes_Index b _) as [i|] eqn:Ei; [|done]. apply bytes_Index_le in Ei.
  rewrite !copy_at_length; [done|lia|rewrite copy_at_length; lia].
Qed.

(** What becomes of a chunk with the magic string at [i]. *)
Lemma patch_chunk_at p patch b i :
  bytes_Index b (bytes_of (ip_MagicString p)) = Some i →
  let m := strlen (ip_MagicString p) in
  patch_chunk p patch b =
    take i b ++ take (length b - i) patch ++ replicate (m - length patch) " "%char ++ drop (i + (m `max` length patch)) b.
Proof.
  intros Ei m. unfold patch_chunk. rewrite Ei. apply bytes_Index_le in Ei. rewrite <-strlen_bytes in Ei.
  set (b' := copy_at i (magicStrPadding p) b).
  assert (length b' = length b) as Hl by (apply copy_at_length; unfold m in *; lia).
  assert (take i b' = take i b) as Ht.
  { unfold b', copy_at. rewrite take_app_le by (rewrite length_take; lia). rewrite take_take. f_equal. lia. }
  assert (drop i b' = replicate m " "%char ++ drop (i + m) b) as Hd.
  { unfold b', copy_at. rewrite drop_app_ge by (rewrite length_take; lia). rewrite length_take.
    replace (i - i `min` length b) with 0 by lia. rewrite drop_0. unfold magicStrPadding.
    rewrite length_replicate, take_ge by (rewrite length_replicate; fold m; lia). done. }
  unfold copy_at at 1. rewrite Hl, Ht. do 2 f_equal. rewrite <-drop_drop, Hd.
  destruct (decide (length patch ≤ m)) as [Hm|Hm].
  - rewrite drop_app_le by (rewrite length_replicate; lia). rewrite drop_replicate. by rewrite Nat.max_l.
  - rewrite drop_app_ge by (rewrite length_replicate; lia). rewrite length_replicate, drop_drop.
    replace (m - length patch) with 0 by lia. simpl. f_equal. lia.
Qed.

(** A chunk with the magic string: what is before it and after it is kept, unless the
    patch is longer. *)
Lemma patch_chunk_exact p patch b i :
  let m := bytes_of (ip_MagicString p) in
  bytes_Index b m = Some i →
  ∃ pre post, b = pre ++ m ++ post ∧ length pre = i ∧
    (length patch ≤ length m →
       patch_chunk p patch b = pre ++ patch ++ replicate (length m - length patch) " "%char ++ post) ∧
    (length m < length patch ≤ length m + length post →
       patch_chunk p patch b = pre ++ patch ++ drop (length patch - length m) post).
Proof.
  intros m Ei.
  pose proof (patch_chunk_at p patch b i Ei) as Ec. cbv zeta in Ec. rewrite strlen_bytes in Ec. fold m in Ec.
  destruct (bytes_Index_Some _ _ _ Ei) as (post & Eb & Hl). fold m in Eb, Hl. exists (take i b), post.
  assert (length (take i b) = i) as Hi by (rewrite length_take; lia).
  assert (length b = i + length m + length post) as Hb by (rewrite Eb, !length_app; lia).
  assert (∀ k, drop (i + (length m + k)) b = drop k post) as Hd.
  { intros k. rewrite Eb at 1. rewrite drop_app_ge by lia. rewrite drop_app_ge by lia. f_equal. lia. }
  split_and!; [done|done|..]; intros Hp; rewrite Ec, (take_ge patch) by lia; do 2 f_equal.
  + rewrite Nat.max_l by lia. specialize (Hd 0). rewrite Nat.add_0_r in Hd. by rewrite Hd.
  + replace (length m - length patch) with 0 by lia. rewrite Nat.max_r by lia. simpl.
    rewrite <-Hd. f_equal. lia.
Qed.

Fixpoint chunks (r : Reader) : list bytes :=
  match r with ReadEnd b _ => [b] | ReadMore b r' => b :: chunks r' end.
Fixpoint reader_error (r : Reader) : option error :=
  match r with ReadEnd _ e => e | ReadMore _ r' => reader_error r' end.

Lemma patched_length p patch l : length (concat (patch_chunk p patch <$> l)) = length (concat l).
Proof. induction l as [|b l IH]; [done|]. csimpl. rewrite !length_app, patch_chunk_length. lia. Qed.

(** A client that takes all it is sent. *)
Definition accept (b : bytes) (w : bytes) : nat * option error * bytes := (length b, None, w ++ b).

Lemma copy_chunk_accept p patch b out :
  copy_chunk accept p patch b out = (length b, None, out ++ patch_chunk p patch b).
Proof.
  unfold copy_chunk. case_decide as Hb.
  - subst b. pose proof (patch_chunk_length p patch []) as Hl. destruct (patch_chunk p patch []); [|done].
    by rewrite app_nil_r.
  - simpl. rewrite patch_chunk_length. by rewrite decide_False by auto.
Qed.

(** The copy sends the image chunk by chunk, of the same length, and ends as
    the reading of the source does. A chunk without the magic string is sent as it
    is; where one has it, and the patch is no longer than the magic string, the
    magic string alone is replaced, by the patch and spaces. A longer patch goes
    on over the bytes of the image that follow. *)
Theorem iso_Copy_exact p patch src :
  let m := bytes_of (ip_MagicString p) in
  iso_Copy accept p patch src [] =
    (length (concat (chunks src)), reader_error src, concat (patch_chunk p patch <$> chunks src)) ∧
  length (concat (patch_chunk p patch <$> chunks src)) = length (concat (chunks src)) ∧
  ∀ b, b ∈ chunks src →
    (bytes_Index b m = None → patch_chunk p patch b = b) ∧
    ∀ i, bytes_Index b m = Some i →
      ∃ pre post, b = pre ++ m ++ post ∧ length pre = i ∧
        (length patch ≤ length m →
           patch_chunk p patch b = pre ++ patch ++ replicate (length m - length patch) " "%char ++ post) ∧
        (length m < length patch ≤ length m + length post →
           patch_chunk p patch b = pre ++ patch ++ drop (length patch - length m) post).
Proof.
  intros m. split_and!.
  - change (concat (patch_chunk p patch <$> chunks src)) with ([] ++ concat (patch_chunk p patch <$> chunks src)).
    generalize (@nil ascii) as out. induction src as [b e|b src IH]; intros out; cbn [iso_Copy]; rewrite copy_chunk_accept.
    + simpl. rewrite !app_nil_r. by destruct e.
    + rewrite IH. simpl. by rewrite length_app, <-app_assoc.
  - apply patched_length.
  - intros b _. split; [unfold patch_chunk; fold m; by intros ->|]. intros i Ei.
    apply (patch_chunk_exact p patch b i Ei).
Qed.

(** ** Requests *)

Section Gate.
Context {W : Type} `{UrlStruct} (BR : BackendReader W) (IH : IsoHttp W).

(** The requests sent to the source and the answers are recorded. *)
Abbreviation exchange := (prod Request (res Response)).
Definition ilogged_backend : BackendReader (W * list exchange) :=
  {| FilterHardware f wl := let '(r, w) := FilterHardware f wl.1 in (r, (w, wl.2)) |}.

Definition ilogged : IsoHttp (W * list exchange) := {|
  URL_IsAbs := URL_IsAbs;
  URL_ResolveReference := URL_ResolveReference;
  api_IsNotFound := api_IsNotFound;
  ht_RoundTrip req wl := let '(infos, r, w) := ht_RoundTrip req wl.1 in (infos, r, (w, wl.2 ++ [(req, r)]));
|}.
Existing Instance ilogged_backend.
Existing Instance ilogged.

(** A machine whose image may be served: its Hardware and its patch. *)
Definition iso_machine (p : iso_Patch) (path : string) (w : W) (patch : bytes) (w1 : W) : Prop :=
  path_Ext path = ".iso" ∧ ∃ ha spec hw n, getMAC path = inr ha ∧
    FilterHardware (by_mac ha) w = (inr spec, w1) ∧ ConvertByMac ha (Some spec) = inr hw ∧ sh_Netboot hw = Some n ∧
    patch = bytes_of (constructPatch p (consoles_of (sn_Facility n)) (HardwareAddr_String ha) (sh_DHCP hw)).

Lemma targetURL_scheme a b tu : targetURL a b = inr tu → uf_Scheme tu = "http" ∨ uf_Scheme tu = "https".
Proof. unfold targetURL, validateURL. intros E. repeat (case_decide || case_match); simplify_eq; done. Qed.

(** A request to the source is the one of the client but for its URL and the
    patch in its context. *)
Definition sent_for (req out : Request) (patch : bytes) : Prop :=
  rq_Method out = rq_Method req ∧ rq_Header out = rq_Header req ∧ cx_Patch (rq_Context out) = Some patch.

Definition bare (r : Response) : Prop :=
  rs_Header r = ∅ ∧ rs_ContentLength r = 0%Z ∧ rs_Body r = ReadEnd [] None ∧ rs_Trailer r = [] ∧ rs_TrailerEnd r = [] ∧ is_Some (rs_Request r) ∧
  rs_StatusCode r ∈ [400; 404; 500]%Z.

Lemma bare_status_only code req : code ∈ [400; 404; 500]%Z → bare (status_only code req).
Proof. intros Hc. unfold bare. by split_and!. Qed.

Lemma iso_request_log p req w l r wl' :
  iso_request p req (w, l) = (r, wl') →
  wl'.2 = l ∧
  match r with
  | inl resp => bare resp
  | inr out => ∃ patch, sent_for req out patch ∧ iso_machine p (uf_Path (rq_URL req)) w patch wl'.1 ∧
      ∃ tu, rq_URL out = retarget (rq_URL req) tu ∧ (uf_Scheme tu = "http" ∨ uf_Scheme tu = "https")
  end.
Proof.
  unfold iso_request. case_decide as He; [intros [= <- <-]; split; [done|]; apply bare_status_only; by_decide|].
  destruct (getMAC (uf_Path (rq_URL req))) as [e|ha] eqn:Em; [intros [= <- <-]; split; [done|]; apply bare_status_only; by_decide|].
  unfold getFacility. cbn [FilterHardware ilogged_backend]. simpl fst.
  destruct (FilterHardware (by_mac ha) w) as [[e|spec] w1] eqn:Ef;
    [intros [= <- <-]; split; [done|]; apply bare_status_only; case_match; by_decide|].
  destruct (ConvertByMac ha (Some spec)) as [e|hw] eqn:Ec; [intros [= <- <-]; split; [done|]; apply bare_status_only; case_match; by_decide|].
  destruct (ConvertByMac_parts _ _ _ Ec) as (d & n & Hd & Hn). rewrite Hn.
  destruct (targetURL _ _) as [e|tu] eqn:Et; intros [= <- <-]; split; try done; [apply bare_status_only; by_decide|].
  eexists. split_and!; [done..| |exists tu; split; [done|by eapply targetURL_scheme]].
  split; [by destruct (decide (path_Ext (uf_Path (rq_URL req)) = ".iso"))|]. exists ha, spec, hw, n. by split_and!.
Qed.

Lemma follow_redirects_log n req patch wl infos r wl' :
  cx_Patch (rq_Context req) = Some patch →
  follow_redirects n req wl = (infos, r, wl') →
  ∃ us, wl'.2 = wl.2 ++ us ∧ length us ≤ n ∧ (0 < n → head us.*1 = Some req) ∧
    Forall (λ o, sent_for req o patch) us.*1 ∧
    ∀ resp, r = inr resp → ∃ o r0, last us = Some (o, inr r0) ∧ resp = set_rs_Request o r0.
Proof.
  revert req wl infos. induction n as [|n IHn]; intros req wl infos Hc; simpl.
  { intros [= <- <- <-]. exists []. rewrite app_nil_r. split_and!; [done|simpl; lia|lia|done|done]. }
  destruct (ht_RoundTrip req wl.1) as [[infos1 [e|resp]] w1]; [|case_decide].
  - intros [= <- <- <-]. exists [(req, inl e)]. split_and!; [done|simpl; lia|done|by repeat constructor|done].
  - destruct (url_Parse _) as [e|ru].
    + intros [= <- <- <-]. exists [(req, inr resp)]. split_and!; [done|simpl; lia|done|by repeat constructor|done].
    + destruct (follow_redirects n _ _) as [[infos2 r2] wl2] eqn:Ef. intros [= <- <- <-].
      destruct (IHn (set_URL _ req) _ _ Hc Ef) as (us & El & Hl & _ & HF & Hp). exists ((req, inr resp) :: us). simpl in *.
      split_and!; [by rewrite El, <-app_assoc|lia|done| |]; [constructor; [done|]; eapply Forall_impl; [exact HF|]; by intros o (Hm & Hh & Hx)|].
      intros r' (o & r0 & Ho & ->)%Hp. exists o, r0. by rewrite last_cons, Ho.
  - intros [= <- <- <-]. exists [(req, inr resp)]. split_and!; [done|simpl; lia|done|by repeat constructor|].
    intros r' [= <-]. by exists req, resp.
Qed.

(** The source of an image is asked only for a path that ends in .iso and
    names the hardware address of a machine the backend knows with boot data; the
    first request goes to an http or https URL, at most ten redirects are
    followed, with the method and headers of the client and the patch of that
    machine, and what is served is the answer to the last. Any other request gets a bare status and no
    request is sent. *)
Theorem iso_RoundTrip_gated p req w l infos r w' l' :
  iso_RoundTrip p req (w, l) = (infos, r, (w', l')) →
  ∃ us, l' = l ++ us ∧ length us ≤ 11 ∧
    (us = [] → infos = [] ∧ ∃ resp, r = inr resp ∧ bare resp) ∧
    (us ≠ [] → ∃ patch w1 tu, iso_machine p (uf_Path (rq_URL req)) w patch w1 ∧ Forall (λ o, sent_for req o patch) us.*1 ∧
       (rq_URL <$> head us.*1) = Some (retarget (rq_URL req) tu) ∧ (uf_Scheme tu = "http" ∨ uf_Scheme tu = "https") ∧
       ∀ resp, r = inr resp → ∃ o r0, last us = Some (o, inr r0) ∧ resp = set_rs_Request o r0).
Proof.
  unfold iso_RoundTrip. destruct (iso_request p req (w, l)) as [[resp|out] wl1] eqn:Er;
    apply iso_request_log in Er as [El Hr].
  - intros [= <- <- ->]. exists []. simpl in El. subst. rewrite app_nil_r. split_and!; [done|simpl; lia|eauto|done].
  - destruct Hr as (patch & Hs & Hm & tu & Hu & Hsch). destruct Hs as (Hsm & Hsh & Hsc).
    intros (us & El' & Hl & Hh & HF & Hp)%(follow_redirects_log _ _ patch); [|done]. unfold maxRedirects in *. simpl in *. exists us.
    rewrite El in El'. specialize (Hh ltac:(lia)).
    split_and!; [done|lia|intros ->; done|]. intros _. exists patch, wl1.1, tu.
    split_and!; [done| |by rewrite Hh; simpl; rewrite Hu|done|done].
    eapply Forall_impl; [exact HF|]. intros o (Hm' & Hh' & Hx). split_and!; congruence.
Qed.

(** An answer names the request it is for, and asks for another protocol only when a
    source did. *)
Lemma iso_RoundTrip_answer p req w infos resp w' us :
  iso_RoundTrip p req (w, []) = (infos, inr resp, (w', us)) →
  is_Some (rs_Request resp) ∧ (rs_StatusCode resp = 101%Z → ∃ s r, (s, inr r) ∈ us ∧ rs_StatusCode r = 101%Z).
Proof.
  intros (us2 & -> & _ & Hnone & Hsome)%iso_RoundTrip_gated. cbn [app]. destruct (decide (us2 = [])) as [E|Hne].
  - destruct (Hnone E) as (_ & ? & [= <-] & _ & _ & _ & _ & _ & Hs & Hc). split; [done|]. intros E'. rewrite E' in Hc.
    exfalso. revert Hc. apply (bool_decide_eq_false_1 _). by vm_compute.
  - destruct (Hsome Hne) as (patch & w2 & tu & _ & _ & _ & _ & Hr). destruct (Hr resp eq_refl) as (s & r0 & Hlast & ->).
    split; [by eexists|]. intros E'. exists s, r0. split; [|done]. apply last_Some in Hlast as [l' ->]. apply elem_of_app. right. by left.
Qed.

(** The request an answer names was sent as the machine's. *)
Lemma last_sent (req o : Request) (r : res Response) patch (us : list (Request * res Response)) :
  Forall (λ o, sent_for req o patch) us.*1 → last us = Some (o, r) → sent_for req o patch.
Proof.
  intros HF Hl. apply (proj1 (Forall_forall _ _) HF). apply list_elem_of_fmap. exists (o, r). split; [done|].
  apply last_Some in Hl as [l' ->]. apply elem_of_app. right. by left.
Qed.

End Gate.
