(* ===== verification/IsoServe.v ===== *)
(** * Smee: an ISO image from its source to the client

    The proxy of [ReverseProxy] with the transport and the copy of [Iso], and a
    client that takes what it is sent: which requests reach the source, with what
    headers, and what the client receives. *)
From S2P Require Import Prelude GoStrings GoNet GoNetip GoPath BmcTypes InventoryTypes Api Dhcp DhcpConv DhcpHandler Backends DhcpStore IpxeScript BootChain GoHttp ReverseProxy Iso.

(** ** The path of the image *)

Lemma ext_rev_slash r t acc : slash ∉ r → ext_rev (r ++ slash :: t) acc = ext_rev (r ++ [slash]) acc.
Proof.
  revert acc. induction r as [|c r IH]; intros acc Hr; cbn [app ext_rev]; [by rewrite decide_True|].
  repeat case_decide; try done. apply IH. intros Hin. apply Hr. by right.
Qed.

(** The extension is that of the last element. *)
Lemma path_Ext_rooted l x : Forall proper (l ++ [x]) → path_Ext (rooted_path (l ++ [x])) = path_Ext ("/" +:+ x).
Proof.
  intros HF. assert (no_slash x) as Hx by (apply Forall_app in HF as [_ HF]; inversion HF as [|?? Hp]; apply Hp).
  unfold path_Ext. f_equal. rewrite rooted_snoc. rewrite !bytes_of_app, !reverse_app.
  assert (∃ t, reverse (bytes_of (if decide (l = []) then "/" else rooted_path l +:+ "/")) = slash :: t) as [t ->].
  { case_decide; [by exists []|]. rewrite bytes_of_app, reverse_app. eexists. reflexivity. }
  apply ext_rev_slash. by rewrite elem_of_reverse.
Qed.

Lemma HasPrefix_rooted_path l : HasPrefix (rooted_path l) "/" = true.
Proof. unfold HasPrefix, rooted_path. simpl. by destruct (Join l "/"). Qed.

Lemma last_rooted l x : Forall proper (l ++ [x]) → last (bytes_of (rooted_path (l ++ [x]))) ≠ Some "/"%char.
Proof.
  intros HF Hl. assert (proper x) as Hx by (apply Forall_app in HF as [_ HF]; by inversion HF).
  rewrite rooted_snoc, bytes_of_app in Hl. rewrite last_app in Hl.
  destruct (last (bytes_of x)) as [c|] eqn:Ec; [|apply last_None in Ec; destruct Hx as (_ & Hx & _); by destruct x].
  injection Hl as ->. by eapply bytes_last.
Qed.

Lemma rooted_app ts l : ts ≠ [] → l ≠ [] → rooted_path ts +:+ rooted_path l = rooted_path (ts ++ l).
Proof.
  intros Ht Hl. unfold rooted_path. rewrite <- string_app_assoc. f_equal.
  induction ts as [|t ts IH]; [done|]. destruct ts as [|t' ts].
  - destruct l; [done|]. reflexivity.
  - change (Join ((t :: t' :: ts) ++ l) "/") with (t +:+ "/" +:+ Join ((t' :: ts) ++ l) "/"). rewrite <- IH by done.
    change (Join (t :: t' :: ts) "/") with (t +:+ "/" +:+ Join (t' :: ts) "/"). by rewrite <- !string_app_assoc.
Qed.

(** The path of the client after the path of the source. *)
Lemma join_paths ts l x :
  Forall proper (ts ++ l ++ [x]) →
  singleJoiningSlash (if decide (ts = []) then "" else rooted_path ts) (rooted_path (l ++ [x])) = rooted_path (ts ++ l ++ [x]).
Proof.
  intros HF. unfold singleJoiningSlash. rewrite HasPrefix_rooted_path. case_decide as Et; [by subst|].
  destruct (exists_last Et) as (ts' & t & ->). rewrite bool_decide_eq_false_2; [|apply last_rooted; by apply Forall_app in HF as [HF _]].
  cbn [andb negb]. apply rooted_app; [done|by destruct l].
Qed.

(** ** A client that takes what it is sent *)

Record Client := mkClient {
  (** the statuses with the header map of each *)
  cl_status : list (Z * Header);
  cl_body : bytes;
  cl_flushes : nat;
  (** how often the body of the source was closed *)
  cl_closed : nat;
}.
Definition fresh_client : Client := mkClient [] [] 0 0.

Section Serve.
Context {V : Type} `{UrlStruct} (BR : BackendReader V) (IH : IsoHttp V).
Context (tokens : list string → string → bool) (media : string → string) (fired : Client → bool).

Definition served_backend : BackendReader (V * Client) :=
  {| FilterHardware f wc := let '(r, w) := FilterHardware f wc.1 in (r, (w, wc.2)) |}.

Definition served_http : IsoHttp (V * Client) := {|
  URL_IsAbs := URL_IsAbs;
  URL_ResolveReference := URL_ResolveReference;
  api_IsNotFound := api_IsNotFound;
  ht_RoundTrip req wc := let '(infos, r, w) := ht_RoundTrip req wc.1 in (infos, r, (w, wc.2));
|}.

Definition on_client (f : Client → Client) (wc : V * Client) : V * Client := (wc.1, f wc.2).

(** The client cannot change the protocol of its connection; when the timer has
    fired is any function of what it has received. *)
Definition served_env : ProxyEnv (V * Client) := {|
  pl_ContainsToken := tokens;
  pl_MediaType := media;
  rw_WriteHeader code h := on_client (λ c, mkClient (cl_status c ++ [(code, h)]) (cl_body c) (cl_flushes c) (cl_closed c));
  rw_Write b wc := (length b, None, on_client (λ c, mkClient (cl_status c) (cl_body c ++ b) (cl_flushes c) (cl_closed c)) wc);
  rw_Flush := on_client (λ c, mkClient (cl_status c) (cl_body c) (S (cl_flushes c)) (cl_closed c));
  tm_Fired wc := (fired wc.2, wc);
  body_Close := on_client (λ c, mkClient (cl_status c) (cl_body c) (cl_flushes c) (S (cl_closed c)));
  rw_Hijack wc := (HijackNotSupported, wc);
  up_Write _ _ wc := (None, wc);
  up_Flush wc := (None, wc);
  up_Copy wc := wc;
  conn_Close wc := wc;
|}.
Existing Instance served_backend.
Existing Instance served_http.
Existing Instance served_env.

Lemma follow_redirects_lift n req v c :
  follow_redirects n req (v, c) = let '(i, r, v') := follow_redirects (W := V) n req v in (i, r, (v', c)).
Proof.
  revert req v. induction n as [|n IHn]; intros req v; [done|]. cbn [follow_redirects ht_RoundTrip served_http fst snd].
  destruct (ht_RoundTrip req v) as [[i [e|r]] v1]; [done|]. case_decide; [|done]. destruct (url_Parse _); [done|].
  cbn [URL_IsAbs URL_ResolveReference served_http]. rewrite IHn. by destruct (follow_redirects _ _ _) as [[??]?].
Qed.

Lemma iso_RoundTrip_lift p req v c :
  iso_RoundTrip p req (v, c) = let '(i, r, v') := iso_RoundTrip (W := V) p req v in (i, r, (v', c)).
Proof.
  unfold iso_RoundTrip, iso_request, getFacility. case_decide; [done|]. destruct (getMAC _); [done|].
  cbn [FilterHardware served_backend fst snd]. destruct (FilterHardware _ v) as [[e|spec] v1]; [done|].
  destruct (ConvertByMac _ _) as [e|hw]; [done|]. destruct (targetURL _ _); [done|]. apply follow_redirects_lift.
Qed.

(** The copy sends every chunk, patched, and flushes after each. *)
Lemma iso_Copy_served p patch src m v c :
  (ml_latency m < 0)%Z →
  ∃ m' k, iso_Copy body_Write p patch src (Some m, (v, c)) =
      (length (concat (chunks src)), reader_error src,
       (Some m', (v, mkClient (cl_status c) (cl_body c ++ concat (patch_chunk p patch <$> chunks src)) k (cl_closed c)))) ∧
    (ml_latency m' < 0)%Z ∧ cl_flushes c + length (filter (.≠ []) (chunks src)) ≤ k.
Proof.
  intros Hm.
  assert (∀ b m c, (ml_latency m < 0)%Z → ∃ m' k,
    copy_chunk body_Write p patch b (Some m, (v, c)) =
      (length b, None, (Some m', (v, mkClient (cl_status c) (cl_body c ++ patch_chunk p patch b) k (cl_closed c)))) ∧
    (ml_latency m' < 0)%Z ∧ cl_flushes c + (if decide (b = []) then 0 else 1) ≤ k) as Hc.
  { clear. intros b m c Hm. unfold copy_chunk. case_decide as Hb.
    - subst. exists m, (cl_flushes c). pose proof (patch_chunk_length p patch []) as Hl. destruct (patch_chunk p patch []); [|done].
      rewrite app_nil_r. destruct c. split_and!; [done|done|simpl; lia].
    - unfold body_Write. cbn [fst snd]. unfold mlw_timer, mlw_delayedFlush.
      destruct (ml_armed m); [cbn [tm_Fired served_env fst snd]; destruct (fired c); cbn [ml_flushPending]; [destruct (ml_flushPending m)|]|];
        unfold mlw_Write; cbn [rw_Write served_env on_client fst snd ml_latency]; rewrite decide_True by done;
        rewrite patch_chunk_length, decide_False by auto; cbn [rw_Flush served_env on_client fst snd cl_status cl_body cl_flushes cl_closed];
        eexists _, _; (split_and!; [reflexivity|done|repeat case_decide; simpl; try done; lia]). }
  revert m c Hm. induction src as [b e|b src IHs]; intros m c Hm; cbn [iso_Copy chunks reader_error];
    destruct (Hc b m c Hm) as (m1 & k1 & -> & Hm1 & Hk1).
  - exists m1, k1. csimpl. rewrite !app_nil_r. split_and!; [done|done|]. rewrite filter_cons, filter_nil. repeat case_decide; cbn [length] in *; first [lia | tauto].
  - destruct (IHs m1 (mkClient (cl_status c) (cl_body c ++ patch_chunk p patch b) k1 (cl_closed c)) Hm1) as (m2 & k2 & -> & Hm2 & Hk2).
    exists m2, k2. csimpl. rewrite length_app, <- (assoc_L (++)). split_and!; [done|done|]. rewrite filter_cons.
    cbn [cl_flushes] in Hk2. repeat case_decide; cbn [length] in *; first [lia | tauto].
Qed.

Lemma send_1xx_served l h v c :
  ∃ h' st, send_1xx l h (v, c) = (h', (v, mkClient st (cl_body c) (cl_flushes c) (cl_closed c))) ∧
    length st = length (cl_status c) + length l ∧ (l = [] → h' = h ∧ st = cl_status c).
Proof.
  revert h c. induction l as [|[code ih] l IHl]; intros h c; [exists h, (cl_status c); destruct c; split_and!; [done|simpl; lia|done]|]. cbn [send_1xx].
  destruct (IHl ∅ (mkClient (cl_status c ++ [(code, copyHeader h ih)]) (cl_body c) (cl_flushes c) (cl_closed c))) as (h' & st & E & Hl & _).
  exists h', st. split_and!; [exact E|rewrite Hl; simpl; rewrite length_app; simpl; lia|done].
Qed.

(** What the client receives of a response: its status and its headers without
    those of the connection to the source, the chunks of the body patched and each
    flushed; the body of the source is closed once; a body that ends in an error
    breaks the connection. *)
Lemma send_response_served p source req r o h v c :
  rs_Request r = Some o →
  ∃ out h' k hd, send_response (iso_proxy p source) req r h (v, c) =
      (out, h', (v, mkClient (cl_status c ++ [(rs_StatusCode r, hd)])
                     (cl_body c ++ concat (patch_chunk p (GetPatch (rq_Context o)) <$> chunks (rs_Body r))) k (S (cl_closed c)))) ∧
    (∀ n, n ≠ "Trailer" → hd !! n = copyHeader h (rs_Header r) !! n) ∧
    cl_flushes c + length (filter (.≠ []) (chunks (rs_Body r))) ≤ k ∧
    out = (if decide (reader_error (rs_Body r) ≠ None ∧ cx_Server (rq_Context req) = true) then Aborted else Returned).
Proof.
  intros Ho. unfold send_response. rewrite Ho. cbn [fmap option_fmap option_map].
  set (hd := if decide (0 < length (rs_Trailer r)) then _ else _).
  assert (∀ n, n ≠ "Trailer" → hd !! n = copyHeader h (rs_Header r) !! n) as Hhd.
  { intros n Hn. unfold hd. case_decide; [|done]. unfold Header_Add. by rewrite lookup_insert_ne. }
  assert (flushInterval (iso_proxy p source) r = -1)%Z as Hfi by (unfold flushInterval; repeat case_decide; done).
  unfold copyResponse. rewrite Hfi. rewrite decide_True by done. cbn [p_CopyBuffer iso_proxy].
  set (c0 := mkClient (cl_status c ++ [(rs_StatusCode r, hd)]) (cl_body c) (cl_flushes c) (cl_closed c)).
  change (rw_WriteHeader _ _ _) with (v, c0).
  destruct (iso_Copy_served p (GetPatch (rq_Context o)) (rs_Body r) (mkmaxLatencyWriter (-1) true true) v c0) as (m & k & E & _ & Hk); [done|].
  rewrite E. clear E.
  assert (∃ k2, k ≤ k2 ∧ (mlw_timer m (v, mkClient (cl_status c0) (cl_body c0 ++ concat (patch_chunk p (GetPatch (rq_Context o)) <$> chunks (rs_Body r))) k (cl_closed c0))).2
    = (v, mkClient (cl_status c0) (cl_body c0 ++ concat (patch_chunk p (GetPatch (rq_Context o)) <$> chunks (rs_Body r))) k2 (cl_closed c0))) as (k2 & Hk2 & ->).
  { unfold mlw_timer, mlw_delayedFlush. destruct (ml_armed m); [|by exists k]. cbn [tm_Fired served_env fst snd].
    destruct (fired _); [|by exists k]. cbn [ml_flushPending]. destruct (ml_flushPending m); [|by exists k].
    exists (S k). split; [lia|done]. }
  cbn [cl_flushes cl_status cl_body cl_closed c0] in *. unfold shouldPanicOnCopyError.
  destruct (reader_error (rs_Body r)) as [e|].
  - eexists _, hd, k2, hd. split_and!; [reflexivity|done|lia|]. destruct (cx_Server (rq_Context req)); repeat case_decide; naive_solver.
  - destruct (decide (0 < length (rs_TrailerEnd r))); eexists _, _, _, hd; (split_and!; [reflexivity|done|simpl; lia|]); by rewrite decide_False by naive_solver.
Qed.

(** A change of protocol leaves the client with a bare status. *)
Lemma handleUpgradeResponse_served p source req r h v c :
  ∃ h' st, handleUpgradeResponse (iso_proxy p source) req r h (v, c) = (h', (v, mkClient st (cl_body c) (cl_flushes c) (cl_closed c))).
Proof.
  unfold handleUpgradeResponse, handleError, defaultErrorHandler. cbn [p_ErrorHandler iso_proxy].
  destruct (IsPrint _), (EqualFold _ _), (rs_Writable r); cbn; eexists _, _; reflexivity.
Qed.
End Serve.

(** ** From the source to the client *)

Section Served.
Context {W : Type} `{UrlStruct} (BR : BackendReader W) (IH : IsoHttp W).
Abbreviation exchange := (prod Request (res Response)).
Context (tokens : list string → string → bool) (media : string → string) (fired : Client → bool).
#[local] Existing Instance ilogged_backend.
#[local] Existing Instance ilogged.
#[local] Instance client_backend : BackendReader (W * list exchange * Client) := served_backend (ilogged_backend BR).
#[local] Instance client_http : IsoHttp (W * list exchange * Client) := served_http (ilogged IH).
#[local] Instance client_env : ProxyEnv (W * list exchange * Client) := served_env tokens media fired.

Lemma getMAC_rooted l mac name :
  Forall proper (l ++ [HardwareAddr_String mac; name]) → Forall octet mac → mac_length mac →
  getMAC (rooted_path (l ++ [HardwareAddr_String mac; name])) = inr mac.
Proof.
  intros HF Ho Hl. change [HardwareAddr_String mac; name] with ([HardwareAddr_String mac] ++ [name]) in *. rewrite (assoc_L (++)) in *.
  unfold getMAC. rewrite path_Dir_rooted by done. rewrite path_Base_rooted by (by apply Forall_app in HF as [HF _]).
  by rewrite ParseMAC_String.
Qed.

(** The checks see the machine and the extension of the path of the client,
    whatever path of the source is put before it. *)
Lemma iso_machine_path p l l' mac name w patch w1 :
  Forall proper (l ++ [HardwareAddr_String mac; name]) → Forall proper (l' ++ [HardwareAddr_String mac; name]) → Forall octet mac → mac_length mac →
  iso_machine BR p (rooted_path (l ++ [HardwareAddr_String mac; name])) w patch w1 →
  iso_machine BR p (rooted_path (l' ++ [HardwareAddr_String mac; name])) w patch w1.
Proof.
  intros HF HF' Ho Hl. unfold iso_machine. rewrite !getMAC_rooted by done.
  change [HardwareAddr_String mac; name] with ([HardwareAddr_String mac] ++ [name]) in *. rewrite !(assoc_L (++)) in *.
  by rewrite !path_Ext_rooted.
Qed.

(** The request the transport is given, for the path of a machine. *)
Lemma iso_prepared p source ts dirs mac name req :
  let path := rooted_path (dirs ++ [HardwareAddr_String mac; name]) in
  uf_Path source = (if decide (ts = []) then "" else rooted_path ts) → up_RawPath (url_parts source) = "" →
  uf_Path (rq_URL req) = path → up_RawPath (url_parts (rq_URL req)) = "" →
  Forall proper (ts ++ dirs ++ [HardwareAddr_String mac; name]) → upgradeType (rq_Header req) = "" →
  ∃ out, prepare (iso_proxy p source) req = inr out ∧
    uf_Path (rq_URL out) = rooted_path ((ts ++ dirs) ++ [HardwareAddr_String mac; name]) ∧ rq_Method out = rq_Method req ∧
    ∀ k, k ∉ ["Te"; "User-Agent"] → rq_Header out !! k = if decide (ends_here (rq_Header req) k) then None else rq_Header req !! k.
Proof.
  intros path Hsp Hsr Hrp Hrr HF Hup. destruct (prepare (iso_proxy p source) req) as [e|out] eqn:Ep.
  { exfalso. unfold prepare in Ep. cbn [p_Director p_Rewrite iso_proxy] in Ep.
    rewrite bool_decide_eq_false_2 in Ep by (intros [_ Hs]; by destruct (Hs ltac:(by eexists))).
    unfold outreq_of in Ep. cbn [p_Director iso_proxy] in Ep. repeat case_decide; cbn [set_Close set_Body rq_Header] in Ep; rewrite Hup in Ep; by cbn in Ep. }
  destruct (prepare_out (iso_proxy p source) source req out eq_refl eq_refl Ep) as (_ & Hh & Hm & _ & _ & _ & Hu). cbv zeta in Hu. rewrite Hup in Hh.
  exists out. split; [done|]. split; [|split; [done|]].
  - unfold uf_Path in *. rewrite Hu. cbn [up_Path]. unfold joinURLPath. cbn [up_RawPath]. rewrite decide_True by done.
    cbn [fst up_Path]. rewrite Hsp, Hrp. unfold path. rewrite <- (assoc_L (++) ts).
    change [HardwareAddr_String mac; name] with ([HardwareAddr_String mac] ++ [name]) in *. rewrite (assoc_L (++) dirs) in *. by apply join_paths.
  - intros k Hk. rewrite !not_elem_of_cons in Hk. destruct Hk as (Hte & Hua & _). rewrite Hh, user_agent_lookup by done.
    rewrite hop_headers_lookup. by rewrite 3!decide_False by (intros [??]; done).
Qed.

(** C17: an ISO image, for the path of a machine. The source is asked at most eleven
    times, only when the backend knows the machine with boot data, and with the
    method and the headers of the client less those that end here. The client
    receives the status, the headers and the image of the last answer, of the same
    length, patched chunk by chunk for that machine and flushed as it arrives, or
    502 when there was none; when the source breaks off, so does the connection to
    the client. The body of the source is closed. *)
Theorem iso_served p source ts dirs mac name req h w o h' w' us c :
  let path := rooted_path (dirs ++ [HardwareAddr_String mac; name]) in
  uf_Path source = (if decide (ts = []) then "" else rooted_path ts) → up_RawPath (url_parts source) = "" →
  uf_Path (rq_URL req) = path → up_RawPath (url_parts (rq_URL req)) = "" →
  Forall proper (ts ++ dirs ++ [HardwareAddr_String mac; name]) → Forall octet mac → mac_length mac →
  upgradeType (rq_Header req) = "" →
  ServeHTTP (iso_proxy p source) req h ((w, []), fresh_client) = (o, h', ((w', us), c)) →
  (∀ s r, (s, inr r) ∈ us → rs_StatusCode r ≠ 101%Z) →
  length us ≤ 11 ∧
  (us = [] → o = Returned ∧ cl_body c = [] ∧ ∃ code hd, cl_status c = [(code, hd)] ∧ code ∈ [400; 404; 500]%Z) ∧
  (us ≠ [] → ∃ patch w1, iso_machine BR p path w patch w1 ∧
     Forall (λ s, rq_Method s = rq_Method req ∧
       ∀ k, k ∉ ["Te"; "User-Agent"] → rq_Header s !! k = if decide (ends_here (rq_Header req) k) then None else rq_Header req !! k) us.*1 ∧
     ((o = Returned ∧ cl_body c = [] ∧ ∃ hd, last (cl_status c) = Some (502%Z, hd)) ∨
      ∃ s r h0 hd, last us = Some (s, inr r) ∧ last (cl_status c) = Some (rs_StatusCode r, hd) ∧
        (length (cl_status c) = 1 → h0 = h) ∧
        (∀ k, k ≠ "Trailer" → hd !! k = copyHeader h0 (removeHopByHopHeaders (rs_Header r)) !! k) ∧
        cl_body c = concat (patch_chunk p patch <$> chunks (rs_Body r)) ∧
        length (cl_body c) = length (concat (chunks (rs_Body r))) ∧
        length (filter (.≠ []) (chunks (rs_Body r))) ≤ cl_flushes c ∧ cl_closed c = 1 ∧
        o = if decide (reader_error (rs_Body r) ≠ None ∧ cx_Server (rq_Context req) = true) then Aborted else Returned)).
Proof.
  intros path Hsp Hsr Hrp Hrr HF Ho Hl Hup HS H101. unfold ServeHTTP in HS.
  destruct (iso_prepared p source ts dirs mac name req Hsp Hsr Hrp Hrr HF Hup) as (out & Ep & Hpath & Hm & Hh). rewrite Ep in HS.
  cbn [p_Transport iso_proxy] in HS. unfold client_backend, client_http in HS. rewrite iso_RoundTrip_lift in HS.
  destruct (iso_RoundTrip p out (w, [])) as [[i r] [w1 us1]] eqn:ER.
  destruct (iso_RoundTrip_gated BR IH p out w [] i r w1 us1 ER) as (us2 & -> & Hlen & Hnone & Hsome). cbn [app] in *.
  destruct (send_1xx_served tokens media fired i h (w1, us2) fresh_client) as (h1 & st & E1 & Hst & Hst0). unfold client_env in HS. rewrite E1 in HS. clear E1.
  cbn [cl_body cl_flushes cl_closed cl_status fresh_client length] in *.
  assert (∀ patch w2, iso_machine BR p (uf_Path (rq_URL out)) w patch w2 → iso_machine BR p path w patch w2) as Hmp.
  { intros patch w2. rewrite Hpath. unfold path. rewrite (assoc_L (++)) in HF. apply iso_machine_path; [done| |done|done].
    rewrite <- (assoc_L (++)) in HF. by apply Forall_app in HF as [_ HF]. }
  assert (∀ patch s, sent_for out s patch → rq_Method s = rq_Method req ∧
    ∀ k, k ∉ ["Te"; "User-Agent"] → rq_Header s !! k = if decide (ends_here (rq_Header req) k) then None else rq_Header req !! k) as Hsf.
  { intros patch s (Hsm & Hsh & _). rewrite Hsm, Hsh. by split. }
  destruct r as [e|resp].
  - cbn in HS. injection HS as <- _ _ <- <-. cbn [cl_body cl_status]. split; [done|]. split.
    + intros E. destruct (Hnone E) as (_ & ? & ? & _). done.
    + intros Hne. destruct (Hsome Hne) as (patch & w2 & tu & Hmach & Hsent & _). exists patch, w2. split; [by apply Hmp|].
      split; [eapply Forall_impl; [exact Hsent|]; intros s; apply Hsf|]. left. split_and!; [done..|]. exists h1. apply last_snoc.
  - destruct (iso_RoundTrip_answer BR IH p out w i resp w1 us2 ER) as [[o0 Ho0] H101'].
    case_decide as Hcode.
    { cbn [modifyResponse p_ModifyResponse iso_proxy] in HS. exfalso. destruct (H101' Hcode) as (s & r & Hin & E101).
      destruct (handleUpgradeResponse_served (ilogged_backend BR) (ilogged IH) tokens media fired p source out resp h1 (w1, us2) (mkClient st [] 0 0)) as (h2 & st2 & E).
      cbn [cl_body cl_flushes cl_closed] in E. rewrite E in HS. apply (H101 s r); congruence. }
    cbn [modifyResponse p_ModifyResponse iso_proxy] in HS.
    destruct (send_response_served (ilogged_backend BR) (ilogged IH) tokens media fired p source req
      (set_rs_Header (removeHopByHopHeaders (rs_Header resp)) resp) o0 h1 (w1, us2) (mkClient st [] 0 0) Ho0) as (out' & h2 & k & hd & E & Hhd & Hk & Hout).
    cbn [cl_body cl_flushes cl_closed cl_status app set_rs_Header rs_StatusCode rs_Body rs_Header rs_Request] in E, Hhd, Hk, Hout.
    rewrite E in HS. injection HS as <- <- <- <- <-. cbn [cl_body cl_status cl_flushes cl_closed]. split; [done|]. split.
    + intros Hn. destruct (Hnone Hn) as (Hi & ? & [= <-] & _ & _ & Hb & _ & _ & _ & Hc). rewrite Hb in *. cbn in Hout.
      destruct (Hst0 Hi) as [_ ->]. split_and!; [by rewrite Hout, decide_False by naive_solver| |by exists (rs_StatusCode resp), hd].
      csimpl. rewrite app_nil_r. pose proof (patch_chunk_length p (GetPatch (rq_Context o0)) []) as Hl0. by destruct (patch_chunk _ _ []).
    + intros Hne. destruct (Hsome Hne) as (patch & w2 & tu & Hmach & Hsent & _ & _ & Hr). exists patch, w2. split; [by apply Hmp|].
      split; [eapply Forall_impl; [exact Hsent|]; intros s; apply Hsf|]. right.
      destruct (Hr resp eq_refl) as (s & r0 & Hlast & ->). injection Ho0 as ->.
      destruct (last_sent _ _ _ _ _ Hsent Hlast) as (_ & _ & Hp).
      unfold GetPatch in *. rewrite Hp in *. cbn [default from_option set_rs_Request rs_Body rs_StatusCode rs_Header id] in *.
      exists o0, r0, h1, hd. split_and!; try done.
      * apply last_snoc.
      * rewrite length_app. simpl. intros Hl1. apply Hst0. apply length_zero_iff_nil. lia.
      * apply patched_length.
Qed.
End Served.
