(* ===== verification/IpxeBinary.v ===== *)
(** * Smee: iPXE binaries and boot files

    smee/internal/ipxe/binary: the embedded binaries and their patch, the routes
    that answer TFTP and HTTP requests for files, and both servers' handlers. The
    confined open of a file in the asset directory ([os.Root]), the transfer to the
    client and the check of trace identifiers are operations of the class
    [FileServer]; the contents of the embedded binaries are a parameter. *)
From S2P Require Import Prelude GoStrings GoPath GoNet GoNetip BmcTypes Api Dhcp DhcpConv StaticRoute Tootles GoHttp ReverseProxy Iso.

(** ** file/binary.go *)

Definition IPXEBinarySNPAMD64 : string := "snp-x86_64.efi".
Definition IPXEBinaryISOEFIAMD64 : string := "ipxe.iso".
Definition IPXEBinaryIMGEFIAMD64 : string := "ipxe-efi.img".

Definition file_names : list string :=
  [IPXEBinaryUndionlyKPXE; IPXEBinaryIPXEEFI; IPXEBinarySNPARM64; IPXEBinarySNPAMD64; IPXEBinaryISOEFIAMD64;
   IPXEBinaryIMGEFIAMD64].

(** [Files], for the contents of the binaries that are built in. *)
Definition Files (embedded : string → bytes) (name : string) : option bytes :=
  if decide (name ∈ file_names) then Some (embedded name) else None.

Definition magicString : string :=
  "#a8b7e61f1075c37a793f2f92cee89f7bba00c4a8d7842ce3d40b5889032d8881" +:+ nl +:+
  "#ddd16a4fc4926ecefdfb6941e33c44ed3647133638f5e84021ea44d3152e7f97".
Definition magicStringPadding : bytes := replicate (strlen magicString) " "%char.

Definition ErrPatchTooLong : error := ErrNew "patch string is too long".

Definition Patch (content patch : bytes) : res bytes :=
  if decide (length patch = 0) then inr content
  else
    match bytes_Index content (bytes_of magicString) with
    | None => inr content
    | Some i =>
        if decide (strlen magicString < length patch) then inl ErrPatchTooLong
        else inr (copy_at i patch (copy_at i magicStringPadding content))
    end.

(** ** Trace identifiers in file names *)

Definition is_xdigit (c : ascii) : bool := match hex_val c with Some _ => true | None => false end.

(** [n] hexadecimal digits at the start, and the rest. *)
Definition take_hex (n : nat) (l : bytes) : option (bytes * bytes) :=
  if decide (length (take n l) = n ∧ forallb is_xdigit (take n l) = true) then Some (take n l, drop n l) else None.
Definition take_dash (l : bytes) : option bytes :=
  match l with c :: l' => if decide (c = "-"%char) then Some l' else None | [] => None end.

(** The part of the pattern after the file name: trace and span identifiers. *)
Definition trace_suffix (l : bytes) : option (bytes * bytes) :=
  l ← take_dash l; '(_, l) ← take_hex 2 l; l ← take_dash l; '(tid, l) ← take_hex 32 l; l ← take_dash l;
  '(sid, l) ← take_hex 16 l; l ← take_dash l; _ ← take_hex 2 l; Some (tid, sid).

(** The longest prefix without a line break that the suffix follows, among those of
    at most [n] bytes: the match of the regular expression. *)
Fixpoint trace_match (n : nat) (l : bytes) : option (bytes * bytes * bytes) :=
  match (if decide (ascii_of_nat 10 ∉ take n l) then trace_suffix (drop n l) else None) with
  | Some (tid, sid) => Some (take n l, tid, sid)
  | None => match n with 0 => None | S n' => trace_match n' l end
  end.

(** ** Routes *)

Class FileServer (W : Type) := {
  (** [openAsset] and the reading of the file *)
  fs_open (dir name : string) : W → res bytes * W;
  (** [w.ReadFrom]: the error of the transfer *)
  fs_send : bytes → W → option error * W;
  (** [trace.TraceIDFromHex] and [trace.SpanIDFromHex] succeed *)
  fs_TraceID_ok : bytes → bool;
  fs_SpanID_ok : bytes → bool;
}.

Record Request := mkRequest { rq_Filename : string; rq_Base : string; rq_Client : list Z }.

(** [os.ErrNotExist] in the error of a router, or another error. *)
Inductive route_error := NotExist | Failed (e : error).

Section Routes.
Context `{GoUrl} {W : Type} `{BackendReader W} `{FileServer W}.

Definition Route : Type := Request → W → bool * option error * W.

Definition sent (b : bytes) (w : W) : bool * option error * W := let '(e, w) := fs_send b w in (true, e, w).

Definition EmbeddedIPXERoute (embedded : string → bytes) (patch : bytes) : Route := λ req w,
  match Files embedded (rq_Base req) with
  | None => (false, None, w)
  | Some content =>
      match Patch content patch with
      | inl e => (true, Some e, w)
      | inr b => sent b w
      end
  end.

Definition pxelinuxFullMACPrefix : string := "pxelinux.cfg/01-".
Definition pxeLinuxFullLen : nat := strlen pxelinuxFullMACPrefix + 17.

Definition PXELinuxMACRoute : Route := λ req w,
  if decide (strlen (rq_Filename req) ≠ pxeLinuxFullLen ∨ HasPrefix (rq_Filename req) pxelinuxFullMACPrefix = false)
  then (false, None, w)
  else
    match ParseMAC (of_bytes (drop (strlen pxelinuxFullMACPrefix) (bytes_of (rq_Filename req)))) with
    | None => (false, None, w)
    | Some mac =>
        match GetByMac mac w with
        | (inl _, w) => (false, None, w)
        | (inr hw, w) =>
            let config := spx_Config (hi_PXELINUX hw) in
            if decide (config = "") then (false, None, w) else sent (bytes_of config) w
        end
    end.

Definition serveTemplate (template : string) (w : W) : bool * option error * W :=
  if decide (template = "") then (false, None, w) else sent (bytes_of template) w.

Definition serve_file (dir name : string) (w : W) : bool * option error * W :=
  match fs_open dir name w with
  | (inl _, w) => (false, None, w)
  | (inr b, w) => sent b w
  end.

Definition RPiNetbootRoute (assetDir : string) : Route := λ req w,
  if decide (assetDir = "") then (false, None, w)
  else
    match GetByIP (rq_Client req) w with
    | (inl _, w) => (false, None, w)
    | (inr hw, w) =>
        let rpi := hi_RPI hw in
        let serial := srpi_SerialNum rpi in
        if decide (serial = "" ∨ srpi_FirmwarePath rpi = "") then (false, None, w)
        else if negb (HasPrefix (rq_Filename req) (serial +:+ "/")) then (false, None, w)
        else if decide (rq_Filename req = serial +:+ "/config.txt") then serveTemplate (srpi_ConfigTxt rpi) w
        else if decide (rq_Filename req = serial +:+ "/cmdline.txt")
        then serveTemplate (Join (so_KernelParams (hi_OSIE hw)) " ") w
        else serve_file assetDir (srpi_FirmwarePath rpi +:+ of_bytes (drop (strlen serial) (bytes_of (rq_Filename req)))) w
    end.

Definition DiskAssetRoute (dir : string) : Route := λ req w,
  if decide (dir = "") then (false, None, w) else serve_file dir (rq_Filename req) w.

Fixpoint Router_Handle (routes : list Route) (req : Request) (w : W) : option route_error * W :=
  match routes with
  | [] => (Some NotExist, w)
  | route :: routes' =>
      let '(handled, err, w) := route req w in
      if (handled : bool) then (Failed <$> err, w) else Router_Handle routes' req w
  end.

(** ** TFTP *)

(** The file name without the trace identifiers at its end. *)
Definition extractTraceparentFromFilename (filename : string) : string :=
  match trace_match (strlen filename) (bytes_of filename) with
  | Some (name, tid, sid) => if fs_TraceID_ok tid && fs_SpanID_ok sid then of_bytes name else filename
  | None => filename
  end.

(** The routes of the server, in order (smee.go). *)
Definition tftp_routes (embedded : string → bytes) (patch : bytes) (assetDir : string) : list Route :=
  [EmbeddedIPXERoute embedded patch; PXELinuxMACRoute; RPiNetbootRoute assetDir; DiskAssetRoute assetDir].
Definition http_routes (assetDir : string) : list Route := [PXELinuxMACRoute; DiskAssetRoute assetDir].

Definition HandleRead (routes : list Route) (filename : string) (client : list Z) (w : W) : option route_error * W :=
  let shortfull := extractTraceparentFromFilename filename in
  Router_Handle routes (mkRequest shortfull (path_Base shortfull) client) w.

Definition HandleWrite (filename : string) : error := ErrWrap "access_violation: " (ErrNew "permission denied").

End Routes.

(** ** HTTP *)

Definition TrimPrefix_str (s p : string) : string := if HasPrefix s p then of_bytes (drop (strlen p) (bytes_of s)) else s.

Definition normalizePathPrefix (prefix : string) : string :=
  let p := path_Clean (with_slash (TrimSpace prefix)) in
  if HasSuffix_slash p then p else p +:+ "/".

(** A HEAD request sends no body. *)
Definition head_only {W} (F : FileServer W) : FileServer W := {|
  fs_open := fs_open; fs_send _ w := (None, w); fs_TraceID_ok := fs_TraceID_ok; fs_SpanID_ok := fs_SpanID_ok |}.

Definition is_read (method : string) : bool := bool_decide (method = "GET" ∨ method = "HEAD").

Section Http.
Context `{GoUrl} {W : Type} `{BackendReader W} (F : FileServer W).

(** The status of the response of [HTTPHandler.Handle]; the body is what the route sends. *)
Definition HTTPHandler_Handle (prefix assetDir method path remoteAddr : string) (w : W) : Z * W :=
  if negb (is_read method) then (405%Z, w)
  else
    let rel := TrimPrefix_str (TrimPrefix_str path prefix) "/" in
    let client := ParseIP (default "" (RemoteAddrIP remoteAddr)) in
    let F' := if decide (method = "HEAD") then head_only F else F in
    match Router_Handle (http_routes (H1 := F') assetDir) (mkRequest rel (path_Base rel) client) w with
    | (None, w) => (200%Z, w)
    | (Some NotExist, w) => (404%Z, w)
    | (Some (Failed _), w) => (500%Z, w)
    end.

(** [Handler.Handle]: a status, or the content that is served. *)
Definition Handler_Handle (embedded : string → bytes) (patch : bytes) (method path : string) : Z + bytes :=
  if negb (is_read method) then inl 405%Z
  else
    match Files embedded (extractTraceparentFromFilename (path_Base path)) with
    | None => inl 404%Z
    | Some file => match Patch file patch with inl _ => inl 500%Z | inr b => inr b end
    end.

End Http.

(** ** The patch *)

(** The copy of the ISO server with the magic string of the binaries. *)
Definition binary_patch : iso_Patch := mkiso_Patch (mkKernelParams [] "" false "") magicString "" false.

(** Patching a binary replaces the magic string alone, by the patch and spaces,
    and keeps every other byte and the length; a binary without it, or no patch,
    leaves it as it is; a patch that is too long is refused, and nothing is written. *)
Theorem Patch_exact content patch :
  let m := bytes_of magicString in
  match bytes_Index content m with
  | None => Patch content patch = inr content
  | Some i =>
      ∃ pre post, content = pre ++ m ++ post ∧ length pre = i ∧
        Patch content patch =
          if decide (patch = []) then inr content
          else if decide (length patch ≤ length m)
          then inr (pre ++ patch ++ replicate (length m - length patch) " "%char ++ post)
          else inl ErrPatchTooLong
  end.
Proof.
  intros m. unfold Patch. fold m. destruct (bytes_Index content m) as [i|] eqn:Ei; [|by case_decide].
  destruct (patch_chunk_exact binary_patch patch content i Ei) as (pre & post & Hc & Hp & H1 & _).
  change (bytes_of (ip_MagicString binary_patch)) with m in *.
  exists pre, post. split_and!; [done|done|]. destruct patch as [|c patch]; [done|].
  rewrite decide_False by done. rewrite (decide_False (P := c :: patch = [])) by done. rewrite strlen_bytes. fold m.
  destruct (decide (length (c :: patch) ≤ length m)) as [Hl|Hl]; [|by rewrite decide_True by lia].
  rewrite decide_False by lia. f_equal. rewrite <- (H1 Hl). unfold patch_chunk.
  change (bytes_of (ip_MagicString binary_patch)) with m. by rewrite Ei.
Qed.

(** ** Trace identifiers *)

Lemma take_hex_app n x l : length x = n → forallb is_xdigit x = true → take_hex n (x ++ l) = Some (x, l).
Proof. intros <- Hx. unfold take_hex. by rewrite take_app_length, drop_app_length, decide_True. Qed.

Lemma trace_suffix_length l r : trace_suffix l = Some r → 56 ≤ length l.
Proof.
  unfold trace_suffix, take_dash, take_hex. intros E. simplify_option_eq.
  repeat case_match; simplify_option_eq. rewrite ?length_drop, ?length_take in *.
  repeat match goal with E : drop _ _ = _ |- _ => apply (f_equal length) in E; rewrite length_drop in E; simpl in E end.
  lia.
Qed.

Lemma trace_match_skip n k l : (∀ j, n < j → trace_suffix (drop j l) = None) → trace_match (n + k) l = trace_match n l.
Proof.
  intros Hj. induction k as [|k IH]; [by rewrite Nat.add_0_r|]. rewrite Nat.add_succ_r. cbn [trace_match].
  rewrite Hj by lia. by case_decide.
Qed.

Lemma trace_match_here n l tid sid :
  ascii_of_nat 10 ∉ take n l → trace_suffix (drop n l) = Some (tid, sid) → trace_match n l = Some (take n l, tid, sid).
Proof. intros Hn Hs. destruct n; cbn [trace_match]; by rewrite decide_True, Hs. Qed.

(** The text of trace identifiers, as in a traceparent header. *)
Definition traceparent (version tid sid flags : bytes) : bytes :=
  version ++ "-"%char :: (tid ++ "-"%char :: (sid ++ "-"%char :: flags)).
Definition hex_of_length (n : nat) (x : bytes) : Prop := length x = n ∧ forallb is_xdigit x = true.

Lemma trace_suffix_traceparent version tid sid flags :
  hex_of_length 2 version → hex_of_length 32 tid → hex_of_length 16 sid → hex_of_length 2 flags →
  trace_suffix ("-"%char :: traceparent version tid sid flags) = Some (tid, sid).
Proof.
  intros [L1 X1] [L2 X2] [L3 X3] [L4 X4]. unfold trace_suffix, traceparent. cbn [take_dash].
  rewrite decide_True by done. cbn [mbind option_bind]. rewrite take_hex_app by done. cbn [mbind option_bind take_dash].
  rewrite decide_True by done. cbn [mbind option_bind]. rewrite take_hex_app by done. cbn [mbind option_bind take_dash].
  rewrite decide_True by done. cbn [mbind option_bind]. rewrite take_hex_app by done. cbn [mbind option_bind take_dash].
  rewrite decide_True by done. cbn [mbind option_bind]. rewrite <- (app_nil_r flags), take_hex_app by done. done.
Qed.

Section Trace.
Context {W : Type} `{FileServer W}.

(** A client that appends a traceparent to a file name gets the file of that
    name: what is before the last traceparent is the name that is served. *)
Theorem traceparent_stripped name version tid sid flags :
  ascii_of_nat 10 ∉ bytes_of name →
  hex_of_length 2 version → hex_of_length 32 tid → hex_of_length 16 sid → hex_of_length 2 flags →
  fs_TraceID_ok tid = true → fs_SpanID_ok sid = true →
  extractTraceparentFromFilename (name +:+ "-" +:+ of_bytes (traceparent version tid sid flags)) = name.
Proof.
  intros Hn H1 H2 H3 H4 Ht Hs. unfold extractTraceparentFromFilename. set (tp := traceparent version tid sid flags).
  assert (length tp = 55) as Hl.
  { unfold tp, traceparent. destruct H1, H2, H3, H4. rewrite !length_app. simpl. rewrite !length_app. simpl. rewrite !length_app. simpl. lia. }
  assert (bytes_of (name +:+ "-" +:+ of_bytes tp) = bytes_of name ++ "-"%char :: tp) as E
    by (by rewrite !bytes_of_app, bytes_of_of_bytes).
  assert (strlen (name +:+ "-" +:+ of_bytes tp) = length (bytes_of name) + 56) as El
    by (rewrite strlen_bytes, E, length_app; simpl; lia).
  rewrite E, El, trace_match_skip.
  - rewrite (trace_match_here _ _ tid sid); rewrite ?take_app_length, ?drop_app_length;
      [|done|by apply trace_suffix_traceparent]. by rewrite Ht, Hs, of_bytes_bytes_of.
  - intros j Hj. destruct (trace_suffix _) as [r|] eqn:Er; [|done]. apply trace_suffix_length in Er.
    rewrite length_drop, length_app in Er. simpl in Er. lia.
Qed.

End Trace.

(** ** What is served *)

(** The opens of files and the transfers of a server. *)
Inductive file_event := EvOpen (dir name : string) | EvSend (b : bytes).

Section Served.
Context `{GoUrl} {W : Type} (BR : BackendReader W) (F : FileServer W).

Definition flogged_backend : BackendReader (W * list file_event) :=
  {| FilterHardware f wl := let '(r, w) := FilterHardware f wl.1 in (r, (w, wl.2)) |}.
Definition flogged : FileServer (W * list file_event) := {|
  fs_open dir name wl := let '(r, w) := fs_open dir name wl.1 in (r, (w, wl.2 ++ [EvOpen dir name]));
  fs_send b wl := let '(e, w) := fs_send b wl.1 in (e, (w, wl.2 ++ [EvSend b]));
  fs_TraceID_ok := fs_TraceID_ok; fs_SpanID_ok := fs_SpanID_ok |}.

#[local] Existing Instance flogged_backend.
#[local] Existing Instance flogged.

(** Where a body that is sent may come from. *)
Inductive sourced (embedded : string → bytes) (patch : bytes) (assetDir : string) (req : Request) (b : bytes) : Prop :=
| FromEmbedded content : Files embedded (rq_Base req) = Some content → Patch content patch = inr b →
    sourced embedded patch assetDir req b
| FromPXELinux mac hw w w' :
    rq_Filename req = pxelinuxFullMACPrefix +:+ of_bytes (drop (strlen pxelinuxFullMACPrefix) (bytes_of (rq_Filename req))) →
    ParseMAC (of_bytes (drop (strlen pxelinuxFullMACPrefix) (bytes_of (rq_Filename req)))) = Some mac →
    GetByMac (H0 := BR) mac w = (inr hw, w') → b = bytes_of (spx_Config (hi_PXELINUX hw)) →
    sourced embedded patch assetDir req b
| FromRPi hw w w' : GetByIP (H0 := BR) (rq_Client req) w = (inr hw, w') →
    HasPrefix (rq_Filename req) (srpi_SerialNum (hi_RPI hw) +:+ "/") = true →
    b = bytes_of (srpi_ConfigTxt (hi_RPI hw)) ∨ b = bytes_of (Join (so_KernelParams (hi_OSIE hw)) " ") →
    sourced embedded patch assetDir req b
| FromDisk name w w' : assetDir ≠ "" → fs_open (FileServer := F) assetDir name w = (inr b, w') → sourced embedded patch assetDir req b.

Definition sends (evs : list file_event) : list bytes := omap (λ e, match e with EvSend b => Some b | _ => None end) evs.

(** What a route does: it opens files of the asset directory only, sends at most one
    body, from a source it may use, none unless it handles the request, and one
    when it handles it without error. *)
Record behaves (src : bytes → Prop) (assetDir : string) (handled : bool) (failed : bool) (evs : list file_event) : Prop := {
  bh_open dir name : EvOpen dir name ∈ evs → dir = assetDir ∧ assetDir ≠ "";
  bh_once : length (sends evs) ≤ 1;
  bh_src b : b ∈ sends evs → src b;
  bh_unhandled : handled = false → sends evs = [];
  bh_served : handled = true → failed = false → length (sends evs) = 1;
}.

Definition some_err (e : option error) : bool := match e with Some _ => true | None => false end.

Lemma behaves_none src d f : behaves src d false f [].
Proof. split; simpl; set_solver || lia || done. Qed.

Lemma behaves_open src d name f : d ≠ "" → behaves src d false f [EvOpen d name].
Proof. intros Hd. split; simpl; set_solver || lia || done. Qed.

Lemma behaves_send (src : bytes → Prop) d b f pre :
  src b → (∀ dir name, EvOpen dir name ∈ pre → dir = d ∧ d ≠ "") → sends pre = [] → behaves src d true f (pre ++ [EvSend b]).
Proof.
  intros Hb Hp Hn. assert (sends (pre ++ [EvSend b]) = [b]) as E by (unfold sends in *; by rewrite omap_app, Hn).
  split; rewrite ?E; [|simpl; lia|by intros ? ->%list_elem_of_singleton|done|done].
  intros dir name [?|?%list_elem_of_singleton]%elem_of_app; [eauto|done].
Qed.

Lemma behaves_error src d : behaves src d true true [].
Proof. split; simpl; set_solver || lia || done. Qed.

Definition well_behaved (src : Request → bytes → Prop) (assetDir : string) (route : Route (W := W * list file_event)) : Prop :=
  ∀ req wl, ∃ evs, (route req wl).2.2 = wl.2 ++ evs ∧
    behaves (src req) assetDir (route req wl).1.1 (some_err (route req wl).1.2) evs.

Lemma sent_behaves (src : bytes → Prop) d b wl :
  src b → ∃ evs, (sent b wl).2.2 = wl.2 ++ evs ∧ behaves src d (sent b wl).1.1 (some_err (sent b wl).1.2) evs.
Proof.
  intros Hb. exists [EvSend b]. unfold sent, fs_send, flogged. destruct (fs_send b wl.1) as [e w1]. simpl. split; [done|].
  apply (behaves_send src d b _ []); [done|set_solver|done].
Qed.

Lemma serve_file_behaves (src : bytes → Prop) d name wl :
  d ≠ "" → (∀ w b w', fs_open (FileServer := F) d name w = (inr b, w') → src b) →
  ∃ evs, (serve_file d name wl).2.2 = wl.2 ++ evs ∧ behaves src d (serve_file d name wl).1.1 (some_err (serve_file d name wl).1.2) evs.
Proof.
  intros Hd Hs. unfold serve_file, sent. cbn [fs_open fs_send flogged].
  destruct (fs_open d name wl.1) as [[e|b] w1] eqn:E; cbn [fst snd].
  - exists [EvOpen d name]. split; [done|]. by apply behaves_open.
  - destruct (fs_send b w1) as [e w2]. exists ([EvOpen d name] ++ [EvSend b]). cbn [fst snd]. rewrite (assoc (++)). split; [done|].
    apply behaves_send; [by eapply Hs|set_solver|done].
Qed.

(** *** The routes *)

Lemma GetByMac_logged mac wl :
  ∃ w1, GetByMac (H0 := flogged_backend) mac wl = ((GetByMac (H0 := BR) mac wl.1).1, (w1, wl.2)) ∧
    (GetByMac (H0 := BR) mac wl.1).2 = w1.
Proof. unfold GetByMac. cbn [FilterHardware flogged_backend]. destruct (FilterHardware _ wl.1) as [[e|hw] w1]; [eauto|]. case_match; eauto. Qed.

Lemma GetByIP_logged ip wl :
  ∃ w1, GetByIP (H0 := flogged_backend) ip wl = ((GetByIP (H0 := BR) ip wl.1).1, (w1, wl.2)) ∧
    (GetByIP (H0 := BR) ip wl.1).2 = w1.
Proof. unfold GetByIP. cbn [FilterHardware flogged_backend]. destruct (FilterHardware _ wl.1) as [[e|hw] w1]; [eauto|]. case_match; eauto. Qed.

Section Table.
Context (embedded : string → bytes) (patch : bytes) (assetDir : string).
Abbreviation src := (sourced embedded patch assetDir).

Lemma unhandled_behaves req (wl : W * list file_event) : ∃ evs, wl.2 = wl.2 ++ evs ∧ behaves (src req) assetDir false false evs.
Proof. exists []. rewrite app_nil_r. split; [done|]. apply behaves_none. Qed.

Lemma Embedded_behaves : well_behaved src assetDir (EmbeddedIPXERoute embedded patch).
Proof.
  intros req wl. unfold EmbeddedIPXERoute. destruct (Files embedded _) as [content|] eqn:E; [|apply unhandled_behaves].
  destruct (Patch content patch) as [e|b] eqn:Ep; [|apply sent_behaves; by eapply FromEmbedded].
  exists []. rewrite app_nil_r. split; [done|]. apply behaves_error.
Qed.

Lemma HasPrefix_split s p : HasPrefix s p = true → s = p +:+ of_bytes (drop (strlen p) (bytes_of s)).
Proof.
  unfold HasPrefix. revert s. induction p as [|c p IH]; intros s Hp; [simpl; by rewrite drop_0, of_bytes_bytes_of|].
  destruct s as [|c' s]; [done|]. simpl in Hp. destruct (ascii_dec c c') as [->|]; [|done]. cbn [String.length bytes_of drop].
  rewrite string_app_cons. f_equal. by apply IH.
Qed.

Lemma PXELinux_behaves : well_behaved src assetDir PXELinuxMACRoute.
Proof.
  intros req wl. unfold PXELinuxMACRoute. case_decide as Hd; [apply unhandled_behaves|].
  destruct (ParseMAC _) as [mac|] eqn:Em; [|apply unhandled_behaves].
  destruct (GetByMac_logged mac wl) as (w1 & -> & E1). destruct (GetByMac mac wl.1) as [[e|hw] w1'] eqn:E; cbn [fst].
  - apply (unhandled_behaves req (w1, wl.2)).
  - case_decide; [apply (unhandled_behaves req (w1, wl.2))|].
    apply (sent_behaves (src req) assetDir (bytes_of (spx_Config (hi_PXELINUX hw))) (w1, wl.2)).
    eapply FromPXELinux; [|done|done|done]. apply HasPrefix_split.
    destruct (HasPrefix _ _) eqn:Hp; [done|]. destruct Hd. by right.
Qed.

Lemma serveTemplate_behaves (P : bytes → Prop) t wl :
  P (bytes_of t) →
  ∃ evs, (serveTemplate t wl).2.2 = wl.2 ++ evs ∧
    behaves P assetDir (serveTemplate t wl).1.1 (some_err (serveTemplate t wl).1.2) evs.
Proof.
  intros Ht. unfold serveTemplate. case_decide; [|by apply sent_behaves].
  exists []. rewrite app_nil_r. split; [done|]. apply behaves_none.
Qed.

Lemma RPi_behaves : well_behaved src assetDir (RPiNetbootRoute assetDir).
Proof.
  intros req wl. unfold RPiNetbootRoute. case_decide as Hd; [apply unhandled_behaves|].
  destruct (GetByIP_logged (rq_Client req) wl) as (w1 & -> & E1).
  destruct (GetByIP (rq_Client req) wl.1) as [[e|hw] w1'] eqn:E; cbn [fst]; [apply (unhandled_behaves req (w1, wl.2))|].
  case_decide; [apply (unhandled_behaves req (w1, wl.2))|].
  destruct (HasPrefix _ _) eqn:Hp; cbn [negb]; [|apply (unhandled_behaves req (w1, wl.2))].
  case_decide; [apply (serveTemplate_behaves _ _ (w1, wl.2)); eapply FromRPi; [exact E|exact Hp|by left]|].
  case_decide; [apply (serveTemplate_behaves _ _ (w1, wl.2)); eapply FromRPi; [exact E|exact Hp|by right]|].
  apply (serve_file_behaves _ _ _ (w1, wl.2)); [done|]. intros w b w' Ho. eapply FromDisk; eauto.
Qed.

Lemma Disk_behaves : well_behaved src assetDir (DiskAssetRoute assetDir).
Proof.
  intros req wl. unfold DiskAssetRoute. case_decide; [apply unhandled_behaves|].
  apply serve_file_behaves; [done|]. intros w b w' Ho. eapply FromDisk; eauto.
Qed.

(** The first route that handles a request decides. *)
Lemma Router_behaves routes req wl :
  Forall (well_behaved src assetDir) routes →
  ∃ evs, (Router_Handle routes req wl).2.2 = wl.2 ++ evs ∧
    match (Router_Handle routes req wl).1 with
    | Some NotExist => behaves (src req) assetDir false false evs
    | Some (Failed _) => behaves (src req) assetDir true true evs
    | None => behaves (src req) assetDir true false evs
    end.
Proof.
  intros Hr. revert wl. induction Hr as [|route routes Hroute _ IH]; intros wl; cbn [Router_Handle].
  { exists []. rewrite app_nil_r. split; [done|]. apply behaves_none. }
  destruct (Hroute req wl) as (evs & E1 & B). destruct (route req wl) as [[handled err] wl1]. cbn [fst snd] in *.
  destruct handled; [exists evs; split; [done|]; by destruct err|].
  destruct (IH wl1) as (evs' & E2 & B'). exists (evs ++ evs'). rewrite E2, E1, (assoc (++)). split; [done|].
  assert (sends (evs ++ evs') = sends evs') as Es.
  { unfold sends at 1. rewrite omap_app. change (sends evs ++ sends evs' = sends evs'). by rewrite (bh_unhandled _ _ _ _ _ B). }
  assert (∀ h f, behaves (src req) assetDir h f evs' → behaves (src req) assetDir h f (evs ++ evs')) as Hb.
  { intros h f [O1 O2 O3 O4 O5]. split; rewrite ?Es; [|done..].
    intros dir name [?|?]%elem_of_app; [by eapply (bh_open _ _ _ _ _ B)|eauto]. }
  destruct (Router_Handle routes req wl1).1 as [[|]|]; by apply Hb.
Qed.

(** A TFTP read sends at most one body, and exactly one when it succeeds. It is
    the patched embedded binary of that name, the PXELINUX configuration of the
    machine whose hardware address is in the path, the configuration or kernel
    parameters of the Raspberry Pi at the client's address, under its serial
    number, or a file that was opened in the asset directory; no other
    directory is opened. A request that no route handles sends nothing. *)
Theorem tftp_served filename client w l :
  let req := mkRequest (extractTraceparentFromFilename filename) (path_Base (extractTraceparentFromFilename filename)) client in
  let '(r, wl) := HandleRead (tftp_routes embedded patch assetDir) filename client (w, l) in
  ∃ evs, wl.2 = l ++ evs ∧ length (sends evs) ≤ 1 ∧
    (∀ dir name, EvOpen dir name ∈ evs → dir = assetDir ∧ assetDir ≠ "") ∧
    (∀ b, b ∈ sends evs → sourced embedded patch assetDir req b) ∧
    (r = None → length (sends evs) = 1) ∧ (r = Some NotExist → sends evs = []).
Proof.
  intros req. unfold HandleRead. fold req.
  destruct (Router_behaves (tftp_routes embedded patch assetDir) req (w, l)) as (evs & E & B).
  { repeat constructor; [apply Embedded_behaves|apply PXELinux_behaves|apply RPi_behaves|apply Disk_behaves]. }
  destruct (Router_Handle _ req (w, l)) as [r wl]. exists evs. cbn [fst snd] in *. split; [done|].
  destruct r as [[|e]|]; destruct B as [O1 O2 O3 O4 O5]; split_and!; naive_solver.
Qed.

End Table.

End Served.

(** ** Mount prefixes *)

Definition prefix_of (l : list string) : string := if decide (l = []) then "/" else rooted_path l +:+ "/".

Lemma HasSuffix_rooted l : Forall proper l → HasSuffix_slash (rooted_path l) = bool_decide (l = []).
Proof.
  intros Hl. destruct (decide (l = [])) as [->|Hne]; [done|]. rewrite bool_decide_eq_false_2 by done.
  destruct l as [|x l _] using rev_ind; [done|]. apply Forall_app in Hl as [_ Hx]. rewrite Forall_singleton in Hx.
  unfold HasSuffix_slash. apply bool_decide_eq_false_2. rewrite rooted_snoc, bytes_of_app, last_app.
  destruct (last (bytes_of x)) as [c|] eqn:E; [intros [= ->]; by eapply (bytes_last x slash)|].
  apply last_None in E. destruct Hx as (_ & [] & _). by apply bytes_of_inj.
Qed.

Lemma TrimSpace_id s : head (bytes_of s) = Some slash → last (bytes_of s) = Some slash → TrimSpace s = s.
Proof.
  intros Hh Hl. unfold TrimSpace, trim_list. rewrite (drop_while_false _ (bytes_of s)) by (rewrite Hh; by intros ? [= <-]).
  rewrite drop_while_false by (rewrite head_reverse, Hl; by intros ? [= <-]). by rewrite reverse_involutive, of_bytes_bytes_of.
Qed.

Lemma path_Clean_prefix l : Forall proper l → path_Clean (prefix_of l) = rooted_path l.
Proof.
  intros Hl. unfold prefix_of. case_decide as E; [by subst|]. apply path_Clean_elements; [done| |done].
  rewrite <- (string_app_nil_r "/"), Split_app, Split_rooted by done. rewrite filter_app, filter_cons_False by auto.
  rewrite filter_proper by done. by rewrite app_nil_r.
Qed.

Lemma HasPrefix_rooted s : HasPrefix s "/" = is_rooted s.
Proof.
  unfold HasPrefix, is_rooted. destruct s as [|c s]; [done|]. cbn [String.prefix bytes_of head].
  destruct (ascii_dec "/"%char c) as [<-|Hc]; [by destruct s|]. symmetry. apply bool_decide_eq_false_2. by intros [= Ec].
Qed.

(** Whatever prefix is configured, the one that is stripped begins and ends with a
    slash, has no empty, dot or double dot element, and normalizing it again
    changes nothing, so it agrees with the one the server mounts. *)
Theorem normalizePathPrefix_canonical p :
  ∃ l, Forall proper l ∧ normalizePathPrefix p = prefix_of l ∧
    normalizePathPrefix (normalizePathPrefix p) = normalizePathPrefix p.
Proof.
  assert (is_rooted (with_slash (TrimSpace p)) = true) as Hr.
  { unfold with_slash. destruct (HasPrefix (TrimSpace p) "/") eqn:E; [by rewrite <- HasPrefix_rooted|done]. }
  destruct (path_Clean_rooted _ Hr) as (l & Hl & Ec).
  assert (∀ q, path_Clean (with_slash (TrimSpace q)) = rooted_path l → normalizePathPrefix q = prefix_of l) as Hn.
  { intros q Eq. unfold normalizePathPrefix, prefix_of. rewrite Eq, HasSuffix_rooted by done.
    case_bool_decide; case_decide; try done. by subst. }
  exists l. rewrite (Hn p Ec). split_and!; [done|done|]. apply Hn.
  assert (head (bytes_of (prefix_of l)) = Some slash ∧ last (bytes_of (prefix_of l)) = Some slash) as [Hh Ht].
  { unfold prefix_of. case_decide; [done|]. rewrite bytes_of_app, last_app. done. }
  rewrite TrimSpace_id by done. unfold with_slash. rewrite HasPrefix_rooted. unfold is_rooted. rewrite bool_decide_eq_true_2 by done.
  by apply path_Clean_prefix.
Qed.
