(* ===== verification/Syslog.v ===== *)
(** * Smee: syslog

    smee/internal/syslog: the parser of messages (message.go) and of receiver.go
    what becomes of a datagram: it is read into a message of the pool, over what
    the buffer held before, parsed and logged, and the message goes back to the
    pool. Dates are the class [SyslogTime], the JSON decoder a parameter.
    [None] is a panic: a slice with its bounds out of order. The goroutines around
    it are in [SyslogRun]. *)
From S2P Require Import Prelude GoStrings GoNet GoNetip.

Class SyslogTime := {
  (** [t.Year()] and [t.AddDate(years, 0, 0)] *)
  st_Year : Z → Z;
  st_AddYears (t years : Z) : Z;
  (** [time.Parse] with the layouts of a legacy and of a version 1 message *)
  st_ParseStamp : list ascii → option Z;
  st_ParseRFC : list ascii → option Z;
  (** [t.Format("2006-01-02 15:04:05 ")] *)
  st_FormatPrefix : Z → list ascii;
}.

(** ** message.go *)

Definition facilities : list string :=
  ["kern"; "user"; "mail"; "daemon"; "auth"; "syslog"; "lpr"; "news"; "uucp"; "clock"; "authpriv"; "ftp"; "ntp";
   "audit"; "alert"; "cron"; "local0"; "local1"; "local2"; "local3"; "local4"; "local5"; "local6"; "local7"].
Definition severities : list string := ["EMERG"; "ALERT"; "CRIT"; "ERR"; "WARNING"; "NOTICE"; "INFO"; "DEBUG"].

Record message := mkmessage {
  sm_buf : list ascii;
  sm_size : nat;
  sm_time : Z;
  sm_host : list Z;
  sm_priority : Z;
  sm_hostname : option (list ascii);
  sm_app : option (list ascii);
  sm_procid : option (list ascii);
  sm_msgid : option (list ascii);
  sm_msg : option (list ascii);
}.

Definition bufSize : nat := N.to_nat 32768.

Definition Facility_String (m : message) : string :=
  let i := (sm_priority m / 8)%Z in default ("facility(" +:+ Itoa i +:+ ")") (facilities !! Z.to_nat i).
Definition Severity (m : message) : Z := (sm_priority m mod 8)%Z.
Definition Severity_String (m : message) : string := default "" (severities !! Z.to_nat (Severity m)).

Definition set_msg (b : list ascii) (m : message) : message :=
  mkmessage (sm_buf m) (sm_size m) (sm_time m) (sm_host m) (sm_priority m) (sm_hostname m) (sm_app m) (sm_procid m)
    (sm_msgid m) (Some b).
Definition set_time (t : Z) (m : message) : message :=
  mkmessage (sm_buf m) (sm_size m) t (sm_host m) (sm_priority m) (sm_hostname m) (sm_app m) (sm_procid m)
    (sm_msgid m) (sm_msg m).
Definition set_priority (p : Z) (m : message) : message :=
  mkmessage (sm_buf m) (sm_size m) (sm_time m) (sm_host m) p (sm_hostname m) (sm_app m) (sm_procid m)
    (sm_msgid m) (sm_msg m).
Definition set_tag (app procid : option (list ascii)) (m : message) : message :=
  mkmessage (sm_buf m) (sm_size m) (sm_time m) (sm_host m) (sm_priority m) (sm_hostname m) app procid (sm_msgid m) (sm_msg m).
Definition set_header (hostname app procid msgid : option (list ascii)) (m : message) : message :=
  mkmessage (sm_buf m) (sm_size m) (sm_time m) (sm_host m) (sm_priority m) hostname app procid msgid (sm_msg m).

(** [m.msg], where nil and empty do not differ. *)
Definition msg_of (m : message) : list ascii := default [] (sm_msg m).

Definition sm_reset (m : message) : message :=
  mkmessage (sm_buf m) (sm_size m) (sm_time m) (sm_host m) 0 None None None None None.

Definition ignoreNil (b : list ascii) : option (list ascii) := if decide (b = ["-"%char]) then None else Some b.

(** [bytes.TrimPrefix] and [bytes.SplitN(b, " ", n)]. *)
Definition TrimPrefix (b p : list ascii) : list ascii := if decide (take (length p) b = p) then drop (length p) b else b.

Fixpoint split_space (n : nat) (b cur : list ascii) : list (list ascii) :=
  match b with
  | [] => [cur]
  | c :: b' =>
      match n with
      | S (S _ as n') => if decide (c = " "%char) then cur :: split_space n' b' [] else split_space n b' (cur ++ [c])
      | _ => [cur ++ b]
      end
  end.

(** The loop of [parsePriority] over [buf[1:5]] at index [i]: the priority and
    where the message starts; [pri] is a byte. *)
Fixpoint priority_loop (l : list ascii) (i : nat) (pri : Z) : option (Z * nat) :=
  match l with
  | [] => None
  | c :: l' =>
      if decide (c = ">"%char) then Some (pri, S (S i))
      else if is_digit c
      then priority_loop l' (S i) ((pri * 10 + (Z.of_nat (nat_of_ascii c) - 48)) mod 256)%Z
      else None
  end.

(** [None] for the panic of [buf[start:size]] with [size < start]. *)
Definition parsePriority (m : message) : option (bool * message) :=
  if decide (sm_size m < 3 ∨ head (sm_buf m) ≠ Some "<"%char) then Some (false, m)
  else
    match priority_loop (take 4 (drop 1 (sm_buf m))) 0 0 with
    | None => Some (false, m)
    | Some (pri, start) =>
        if decide (sm_size m < start) then None
        else Some (true, set_msg (drop start (take (sm_size m) (sm_buf m))) (set_priority pri m))
    end.

Definition parseVersion (m : message) : bool * message :=
  match msg_of m with
  | v :: c :: b => if decide (c = " "%char ∧ v = "1"%char) then (true, set_msg b m) else (false, m)
  | _ => (false, m)
  end.

Definition parseStructuredData (m : message) : bool * message :=
  match msg_of m with
  | a :: b :: l => if decide (a = "-"%char ∧ b = " "%char) then (true, set_msg l m) else (false, m)
  | _ => (false, m)
  end.

(** *** The tag of a legacy message *)

Definition tag_char (c : ascii) : bool :=
  is_alnum c || bool_decide (c = "-"%char ∨ c = "_"%char ∨ c = "/"%char ∨ c = "."%char).

(** The part up to the first byte that is not of a tag, and from it on. *)
Fixpoint span_tag (b : list ascii) : list ascii * list ascii :=
  match b with
  | [] => ([], [])
  | c :: b' => if tag_char c then let '(t, r) := span_tag b' in (c :: t, r) else ([], b)
  end.

Fixpoint upto_byte (x : ascii) (b : list ascii) : option (list ascii * list ascii) :=
  match b with
  | [] => None
  | c :: b' => if decide (c = x) then Some ([], b') else '(t, r) ← upto_byte x b'; Some (c :: t, r)
  end.

Definition trim_colon (b : list ascii) : list ascii := TrimPrefix b [":"%char; " "%char].

Definition parseLegacyTag (m : message) : message :=
  let '(app, b) := span_tag (msg_of m) in
  match b with
  | [] => set_tag None None m
  | c :: r =>
      if decide (c = "["%char) then
        match upto_byte "]"%char r with
        | Some (pid, rest) => set_msg (trim_colon rest) (set_tag (Some app) (Some pid) m)
        | None => set_msg (trim_colon b) (set_tag (Some app) None m)
        end
      else set_msg (trim_colon b) (set_tag (Some app) (sm_procid m) m)
  end.

Definition trimSeverityPrefix (m : message) : message :=
  set_msg (TrimPrefix (msg_of m) (bytes_of (Severity_String m +:+ ": "))) m.

Definition trimCarriageReturns (m : message) : message :=
  match msg_of m with
  | c :: b => if decide (c = ascii_of_nat 13) then set_msg b m else m
  | [] => m
  end.

Section Parse.
Context `{SyslogTime}.

Definition trimTimePrefix (m : message) : message :=
  set_msg (TrimPrefix (msg_of m) (st_FormatPrefix (sm_time m))) m.

(** The hours the message is off are added as nanoseconds. *)
Definition correctLegacyTime (t : Z) (m : message) : message :=
  let t := st_AddYears t (st_Year (sm_time m)) in
  let offset := time_Sub (sm_time m) t in
  let offset := if decide (offset < 0)%Z then wrap64 (- offset) else offset in
  let hoursOff := Z.quot (offset - Z.rem offset time_Hour) time_Hour in
  set_time (if decide (1 < hoursOff)%Z then (t + hoursOff)%Z else t) m.

Definition stampLen : nat := 15.
Definition rfcLen : nat := 32.

Definition parseTimestamp (b : list ascii) (m : message) : bool * message :=
  match ignoreNil b with
  | None => (true, m)
  | Some b =>
      if decide (rfcLen < length b) then (false, m)
      else match st_ParseRFC b with Some t => (true, set_time t m) | None => (false, m) end
  end.

Definition parseHeader (m : message) : bool * message :=
  match split_space 6 (msg_of m) [] with
  | [t; hostname; app; procid; msgid; msg] =>
      match parseTimestamp t m with
      | (true, m) =>
          (true, set_msg msg (set_header (ignoreNil hostname) (ignoreNil app) (ignoreNil procid) (ignoreNil msgid) m))
      | (false, m) => (false, m)
      end
  | _ => (false, m)
  end.

(** The timestamp of a legacy message, when it has one. *)
Definition legacy_time (m : message) : message :=
  let b := msg_of m in
  if decide (length b ≤ stampLen ∨ b !! stampLen ≠ Some " "%char) then m
  else
    match st_ParseStamp (take stampLen b) with
    | None => m
    | Some t => set_msg (drop (S stampLen) b) (if decide (t = time_zero) then m else correctLegacyTime t m)
    end.

Definition clear_hostname (m : message) : message := set_header None (sm_app m) (sm_procid m) (sm_msgid m) m.

Definition parseLegacyHeader (m : message) : bool * message :=
  (true, trimCarriageReturns (trimTimePrefix (trimSeverityPrefix (parseLegacyTag (clear_hostname (legacy_time m)))))).

Definition sm_parse (m : message) : option (bool * message) :=
  match parsePriority m with
  | None => None
  | Some (false, m) => Some (false, m)
  | Some (true, m) =>
      Some
        (match parseVersion m with
         | (false, m) => parseLegacyHeader m
         | (true, m) =>
             match parseHeader m with
             | (false, m) => (false, m)
             | (true, m) => parseStructuredData m
             end
         end)
  end.

End Parse.

(** [String], with [quote] the [%q] of fmt; backspaces are removed from the text. *)
Definition msgCleanup (b : list ascii) : list ascii := filter (λ c, c ≠ ascii_of_nat 8) b.
Definition shown_field (k : string) (b : option (list ascii)) : list string :=
  match b with Some b => [k +:+ of_bytes b] | None => [] end.
Definition message_String (quote : list ascii → string) (m : message) : string :=
  match sm_msg m with
  | None => "host=" +:+ IP_String (sm_host m) +:+ " syslog=" +:+ quote (take (sm_size m) (sm_buf m))
  | Some msg =>
      Join (match sm_hostname m with Some h => ["host=" +:+ of_bytes h] | None => ["host=" +:+ IP_String (sm_host m)] end
            ++ ["facility=" +:+ Facility_String m; "severity=" +:+ Severity_String m]
            ++ shown_field "app-name=" (sm_app m) ++ shown_field "procid=" (sm_procid m)
            ++ shown_field "msgid=" (sm_msgid m) ++ ["msg=" +:+ quote (msgCleanup msg)]) " "
  end.

(** ** receiver.go *)

(** A datagram read into a message of the pool, by the loop of [run]. *)
Definition receive (d : list ascii) (now : Z) (from : list Z) (m : message) : message :=
  let d := take bufSize d in
  mkmessage (d ++ drop (length d) (sm_buf m)) (length d) now from (sm_priority m) (sm_hostname m) (sm_app m)
    (sm_procid m) (sm_msgid m) (sm_msg m).

Inductive field := FieldString (s : list ascii) | FieldJSON (s : list ascii).

Definition nonempty_field (k : string) (b : option (list ascii)) : list (string * field) :=
  match b with Some (c :: l) => [(k, FieldString (c :: l))] | _ => [] end.

(** The fields of the log entry; [json_ok] tells whether a text is a JSON object. *)
Definition toStructured (json_ok : list ascii → bool) (m : message) : list (string * field) :=
  [("facility", FieldString (bytes_of (Facility_String m))); ("severity", FieldString (bytes_of (Severity_String m)))]
  ++ nonempty_field "hostname" (sm_hostname m) ++ nonempty_field "app-name" (sm_app m)
  ++ nonempty_field "procid" (sm_procid m) ++ nonempty_field "msgid" (sm_msgid m)
  ++ (match msg_of m with
      | [] => []
      | c :: _ => [("msg", if bool_decide (c = "{"%char) && json_ok (msg_of m) then FieldJSON (msg_of m) else FieldString (msg_of m))]
      end)
  ++ [("host", FieldString (bytes_of (IP_String (sm_host m))))].

(** The log entry of a message; an unparseable one is logged as its [String]. *)
Inductive entry := Structured (debug : bool) (fields : list (string * field)) | Unparseable (raw : string).

(** What [runParser] logs of a message, and the message it returns to the pool. *)
Definition runParser `{SyslogTime} (json_ok : list ascii → bool) (quote : list ascii → string) (m : message) : option (entry * message) :=
  '(ok, m) ← sm_parse m;
  Some (if (ok : bool) then Structured (bool_decide (Severity m = 7%Z)) (toStructured json_ok m) else Unparseable (message_String quote m),
        sm_reset m).

(** ** The pool *)

Definition with_buf (b : list ascii * nat) (m : message) : message :=
  mkmessage b.1 b.2 (sm_time m) (sm_host m) (sm_priority m) (sm_hostname m) (sm_app m) (sm_procid m)
    (sm_msgid m) (sm_msg m).

(** [new(message)], and what the pool holds: messages with nothing parsed. *)
Definition fresh : message := mkmessage (replicate bufSize zero) 0 time_zero [] 0 None None None None None.
Definition pooled (m : message) : Prop := sm_reset m = m ∧ length (sm_buf m) = bufSize.

Lemma fresh_pooled : pooled fresh.
Proof. split; [reflexivity|]. apply length_replicate. Qed.

(** The buffer a datagram is in, and how much of it is the datagram. *)
Definition received (d : list ascii) (m : message) : list ascii * nat :=
  (take bufSize d ++ drop (length (take bufSize d)) (sm_buf m), length (take bufSize d)).

Lemma receive_fresh d now from m : pooled m → receive d now from m = with_buf (received d m) (receive d now from fresh).
Proof. intros [E _]. unfold receive, with_buf. simpl. destruct m; simpl in *. unfold sm_reset in E. simpl in E. by simplify_eq. Qed.

(** No step after the priority reads or writes the buffer. *)
Class Unbuffered (f : message → message) := unbuffered b m : f (with_buf b m) = with_buf b (f m).
Class UnbufferedB (f : message → bool * message) :=
  unbufferedB b m : f (with_buf b m) = ((f m).1, with_buf b (f m).2).

#[export] Instance set_msg_unbuffered b : Unbuffered (set_msg b).
Proof. done. Qed.
#[export] Instance clear_hostname_unbuffered : Unbuffered clear_hostname.
Proof. done. Qed.
#[export] Instance severity_unbuffered : Unbuffered trimSeverityPrefix.
Proof. done. Qed.

#[export] Instance return_unbuffered : Unbuffered trimCarriageReturns.
Proof. intros b m. unfold trimCarriageReturns, msg_of. simpl. by repeat case_match. Qed.

#[export] Instance tag_unbuffered : Unbuffered parseLegacyTag.
Proof. intros b m. unfold parseLegacyTag, msg_of. simpl. by repeat case_match. Qed.

#[export] Instance version_unbuffered : UnbufferedB parseVersion.
Proof. intros b m. unfold parseVersion, msg_of. simpl. by repeat case_match. Qed.

#[export] Instance structured_unbuffered : UnbufferedB parseStructuredData.
Proof. intros b m. unfold parseStructuredData, msg_of. simpl. by repeat case_match. Qed.

Section Unbuffered.
Context `{SyslogTime}.

#[export] Instance time_unbuffered : Unbuffered trimTimePrefix.
Proof. done. Qed.

#[export] Instance legacy_time_unbuffered : Unbuffered legacy_time.
Proof. intros b m. unfold legacy_time, msg_of. simpl. by repeat case_match. Qed.

#[export] Instance header_unbuffered : UnbufferedB parseHeader.
Proof. intros b m. unfold parseHeader, parseTimestamp, msg_of. simpl. by repeat case_match; simplify_eq/=. Qed.

#[export] Instance legacy_unbuffered : UnbufferedB parseLegacyHeader.
Proof. intros b m. unfold parseLegacyHeader. by rewrite !unbuffered. Qed.

(** What follows a priority. *)
Definition parse_rest (m : message) : bool * message :=
  match parseVersion m with
  | (false, m) => parseLegacyHeader m
  | (true, m) => match parseHeader m with (false, m) => (false, m) | (true, m) => parseStructuredData m end
  end.

#[export] Instance rest_unbuffered : UnbufferedB parse_rest.
Proof.
  intros b m. unfold parse_rest. rewrite unbufferedB. destruct (parseVersion m) as [[] m1]; simpl; [|by rewrite unbufferedB].
  rewrite unbufferedB. destruct (parseHeader m1) as [[] m2]; simpl; [by rewrite unbufferedB|done].
Qed.

End Unbuffered.

(** *** The priority *)

Lemma priority_start l i p q s : priority_loop l i p = Some (q, s) → i + 2 ≤ s ≤ i + length l + 1.
Proof.
  revert i p. induction l as [|c l IH]; intros i p E; simpl in E; [done|].
  repeat case_match; simplify_eq/=; [lia|]. apply IH in E. lia.
Qed.

(** The loop ends in the bytes [x], or [x] is all digits and it goes on past them. *)
Lemma priority_app x y i p :
  (priority_loop x i p = None ∧ forallb is_digit x ∧ ∀ q s, priority_loop (x ++ y) i p = Some (q, s) → i + length x + 2 ≤ s) ∨
  priority_loop (x ++ y) i p = priority_loop x i p.
Proof.
  revert i p. induction x as [|c x IH]; intros i p; simpl.
  { left. split; [done|]. split; [done|]. intros q s E%priority_start. lia. }
  case_decide; [by right|]. destruct (is_digit c); [|by right].
  destruct (IH (S i) ((p * 10 + (Z.of_nat (nat_of_ascii c) - 48)) mod 256)%Z) as [(E & D & F)|E]; [left|by right].
  split; [done|]. split; [done|]. intros q s G. apply F in G. lia.
Qed.

Lemma priority_zeros x n i p : priority_loop (x ++ replicate n zero) i p = priority_loop x i p.
Proof.
  revert i p. induction x as [|c x IH]; intros i p; simpl; [by destruct n|].
  case_decide; [done|]. destruct (is_digit c); [apply IH|done].
Qed.

Lemma bufSize_large : 5 ≤ bufSize.
Proof. unfold bufSize. lia. Qed.

#[global] Opaque bufSize.

(** The datagrams that make the parser panic: the priority of one of three or
    four bytes is closed by a byte an earlier datagram left in the buffer. *)
Definition stale_priority (d : list ascii) (m : message) : Prop :=
  3 ≤ length d ≤ 4 ∧ head d = Some "<"%char ∧ forallb is_digit (tail d) ∧
  ∃ q s, priority_loop (tail d ++ take (5 - length d) (drop (length d) (sm_buf m))) 0 0 = Some (q, s).

Lemma parsePriority_received d now from m :
  pooled m →
  match parsePriority (receive d now from m) with
  | None => stale_priority d m
  | Some (ok, m') => ∃ m0, parsePriority (receive d now from fresh) = Some (ok, m0) ∧ m' = with_buf (received d m) m0
  end.
Proof.
  intros Hm. assert (Hd : length (take bufSize d) ≤ 4 → take bufSize d = d).
  { pose proof bufSize_large. rewrite length_take. intros. apply take_ge. lia. }
  rewrite (receive_fresh _ _ _ _ Hm). unfold parsePriority, receive. simpl.
  unfold stale_priority, received. set (dd := take bufSize d) in *. clearbody dd. 
  destruct dd as [|c x]; simpl; [by eauto|]. case_decide as E1; [by eauto|].
  rewrite !drop_0, !take_app_length, !take_app, drop_replicate, take_replicate, priority_zeros.
  set (y := take (4 - length x) _). pose proof (priority_app (take 4 x) y 0 0) as [(E2 & D & F)|E2].
  - destruct (priority_loop (take 4 x ++ y) 0 0) as [[q s]|] eqn:E3; rewrite E2; [|by eauto].
    pose proof (F _ _ eq_refl) as Hs. pose proof (priority_start _ _ _ _ _ E3) as Hs'.
    rewrite length_app in Hs'. subst y. rewrite !length_take in *. rewrite decide_True by lia.
    rewrite (take_ge x) in * by lia. destruct Hd; simpl; [lia|].
    split_and!; [lia|lia|destruct (decide (c = "<"%char)); [by subst|naive_solver]|done|eauto].
  - rewrite E2. destruct (priority_loop (take 4 x) 0 0) as [[q s]|] eqn:E3; [|by eauto].
    apply priority_start in E3. rewrite length_take in E3. rewrite !decide_False by lia. eauto.
Qed.

(** What is logged of a message does not depend on what is past its datagram. *)
Lemma received_take d m : take (received d m).2 (received d m).1 = take bufSize d.
Proof. unfold received. apply take_app_length. Qed.

Lemma received_length d m : pooled m → length (received d m).1 = bufSize.
Proof. intros [_ Hl]. unfold received. simpl. rewrite length_app, length_drop, Hl, length_take. lia. Qed.

Lemma String_with_buf quote b m :
  take b.2 b.1 = take (sm_size m) (sm_buf m) → message_String quote (with_buf b m) = message_String quote m.
Proof. intros E. unfold message_String. simpl. by rewrite E. Qed.

Section Pool.
Context `{SyslogTime} (json_ok : list ascii → bool) (quote : list ascii → string).

(** The rest of the parse, where there was a priority. *)
Definition parse_after (ok : bool) (m : message) : bool * message := if ok then parse_rest m else (false, m).

#[local] Instance after_unbuffered ok : UnbufferedB (parse_after ok).
Proof. intros b m. destruct ok; [apply rest_unbuffered|done]. Qed.

Lemma parse_after_keeps ok m : (sm_buf (parse_after ok m).2, sm_size (parse_after ok m).2) = (sm_buf m, sm_size m).
Proof.
  pose proof (unbufferedB (f := parse_after ok) (sm_buf m, sm_size m) m) as E.
  replace (with_buf _ m) with m in E by (by destruct m). by rewrite E.
Qed.

(** The log entry and the message of the pool that [runParser] makes of the
    outcome of a parse. *)
Definition finish (r : bool * message) : entry * message :=
  (if r.1 then Structured (bool_decide (Severity r.2 = 7%Z)) (toStructured json_ok r.2)
   else Unparseable (message_String quote r.2), sm_reset r.2).

Lemma runParser_eq m :
  runParser json_ok quote m =
  '(ok, m') ← parsePriority m; Some (finish (parse_after ok m')).
Proof. unfold runParser, sm_parse. destruct (parsePriority m) as [[[] m']|]; [|done..]. simpl. fold (parse_rest m'). by destruct (parse_rest m'). Qed.

Lemma finish_with_buf b ok m :
  take b.2 b.1 = take (sm_size m) (sm_buf m) → (finish (ok, with_buf b m)).1 = (finish (ok, m)).1.
Proof. intros E. unfold finish. simpl. destruct ok; [done|]. by rewrite String_with_buf. Qed.

Lemma parsePriority_raw m ok m' : parsePriority m = Some (ok, m') → (sm_buf m', sm_size m') = (sm_buf m, sm_size m).
Proof. unfold parsePriority. intros E. by repeat case_match; simplify_eq/=. Qed.

(** Syslog messages are reused and not cleared: a datagram is read over what
    an earlier one left in the buffer. Still, unless the parser panics, the
    entry logged for a datagram is the one it would have in a new message, so no
    byte and no field of another machine's message gets into it, and the message
    goes back to the pool with nothing parsed in it. The parser panics only on a
    datagram of three or four bytes, a bracket and digits, whose priority is
    closed by a byte that was left in the buffer. *)
Theorem syslog_pool d now from m :
  pooled m →
  match runParser json_ok quote (receive d now from m) with
  | Some (e, m') => pooled m' ∧ fst <$> runParser json_ok quote (receive d now from fresh) = Some e
  | None => stale_priority d m
  end.
Proof.
  intros Hm. rewrite !runParser_eq. pose proof (parsePriority_received d now from m Hm) as Hp.
  destruct (parsePriority (receive d now from m)) as [[ok m']|]; [|done]. destruct Hp as (m0 & E & ->).
  rewrite E. cbn [mbind option_bind]. pose proof (parse_after_keeps ok m0) as Hk. rewrite (parsePriority_raw _ _ _ E) in Hk.
  rewrite unbufferedB. destruct (parse_after ok m0) as [ok' m'']. injection Hk as Hb Hs. split.
  - split; [reflexivity|]. by apply received_length.
  - cbn [fmap option_fmap option_map]. f_equal. symmetry. apply finish_with_buf. rewrite Hb, Hs, received_take. symmetry. apply take_app_length.
Qed.

End Pool.

(** ** Printing and parsing *)

Abbreviation sp := (" "%char) (only parsing).

(** The digits and the closing bracket of a priority. *)
Definition priority_bytes (pri : Z) : list ascii := bytes_of (Itoa pri) ++ [">"%char].

(** A message of version 1, as its sender writes it. *)
Definition syslog_line (pri : Z) (ts hostname app procid msgid text : list ascii) : list ascii :=
  "<"%char :: priority_bytes pri ++ "1"%char :: sp ::
  (ts ++ sp :: (hostname ++ sp :: (app ++ sp :: (procid ++ sp :: (msgid ++ sp :: "-"%char :: sp :: text))))).

Lemma split_space_field n f b cur : sp ∉ f → split_space (S (S n)) (f ++ sp :: b) cur = (cur ++ f) :: split_space (S n) b [].
Proof.
  revert cur. induction f as [|c f IH]; intros cur Hf; simpl.
  - by rewrite app_nil_r.
  - rewrite decide_False by set_solver. etransitivity; [apply IH; set_solver|]. by rewrite <- (assoc (++)).
Qed.

Lemma split_space_last b : split_space 1 b [] = [b].
Proof. by destruct b. Qed.

Lemma priority_read pri :
  (0 ≤ pri < 256)%Z →
  2 ≤ length (priority_bytes pri) ≤ 4 ∧ priority_loop (priority_bytes pri) 0 0 = Some (pri, S (length (priority_bytes pri))).
Proof.
  intros Hp. assert (Forall (λ pri, 2 ≤ length (priority_bytes pri) ≤ 4 ∧
    priority_loop (priority_bytes pri) 0 0 = Some (pri, S (length (priority_bytes pri)))) (seqZ 0 256)) as Hf by by_decide.
  rewrite Forall_forall in Hf. apply Hf, elem_of_seqZ. lia.
Qed.

Lemma priority_ends x y i p r : priority_loop x i p = Some r → priority_loop (x ++ y) i p = Some r.
Proof. intros E. destruct (priority_app x y i p) as [(F & _)|F]; congruence. Qed.

Lemma parsePriority_line pri b now from m :
  (0 ≤ pri < 256)%Z → length ("<"%char :: priority_bytes pri ++ b) ≤ bufSize →
  parsePriority (receive ("<"%char :: priority_bytes pri ++ b) now from m) =
  Some (true, set_msg b (set_priority pri (receive ("<"%char :: priority_bytes pri ++ b) now from m))).
Proof.
  intros Hp Hl. destruct (priority_read pri Hp) as [H4 E]. unfold parsePriority.
  set (r := receive _ now from m). set (pb := priority_bytes pri) in *. clearbody pb.
  assert (sm_size r = length ("<"%char :: pb ++ b) ∧ ∃ z, sm_buf r = "<"%char :: pb ++ (b ++ z)) as [Hs [z Hb]].
  { subst r. unfold receive. simpl sm_size. simpl sm_buf. rewrite (take_ge _ _ Hl). split; [done|].
    eexists. rewrite (assoc (++)). reflexivity. }
  rewrite Hs, Hb. simpl. rewrite length_app. rewrite decide_False by (intros [|]; [lia|done]).
  rewrite drop_0, take_app, (take_ge pb) by lia. rewrite (priority_ends _ _ _ _ _ E), decide_False by lia.
  rewrite <- length_app, (assoc (++)), take_app_length. simpl. by rewrite drop_app_length.
Qed.

Section Roundtrip.
Context `{SyslogTime}.

(** The time of a message with timestamp [ts] received at [now]. *)
Definition stamp_read (ts : list ascii) (now t : Z) : Prop :=
  (ts = ["-"%char] ∧ t = now) ∨ (ts ≠ ["-"%char] ∧ length ts ≤ rfcLen ∧ st_ParseRFC ts = Some t).

Lemma parseTimestamp_read ts t m : stamp_read ts (sm_time m) t → parseTimestamp ts m = (true, set_time t m).
Proof.
  intros [[-> ->]|(Hn & Hl & E)]; unfold parseTimestamp, ignoreNil.
  - rewrite decide_True by done. by destruct m.
  - by rewrite decide_False, decide_False, E by (done || lia).
Qed.

(** A version 1 syslog message that is printed and sent to the receiver is
    parsed back: priority, time, host name, application, process, message id
    (each nil when it is sent as a dash) and text are the ones that were sent,
    whatever the reused buffer held. *)
Theorem syslog_roundtrip pri ts t hostname app procid msgid text now from m :
  (0 ≤ pri < 256)%Z → Forall (λ f, sp ∉ f) [ts; hostname; app; procid; msgid] → stamp_read ts now t →
  length (syslog_line pri ts hostname app procid msgid text) ≤ bufSize →
  ∃ m', sm_parse (receive (syslog_line pri ts hostname app procid msgid text) now from m) = Some (true, m') ∧
    sm_priority m' = pri ∧ sm_time m' = t ∧ sm_host m' = from ∧ sm_hostname m' = ignoreNil hostname ∧
    sm_app m' = ignoreNil app ∧ sm_procid m' = ignoreNil procid ∧ sm_msgid m' = ignoreNil msgid ∧ sm_msg m' = Some text.
Proof.
  intros Hp Hf Ht Hl. rewrite !Forall_cons in Hf. destruct Hf as (F1 & F2 & F3 & F4 & F5 & _).
  unfold sm_parse, syslog_line in *. rewrite parsePriority_line by done.
  unfold parseVersion, parseHeader. cbn [msg_of sm_msg set_msg default id].
  rewrite decide_True by done. cbn [msg_of sm_msg set_msg default id].
  rewrite !split_space_field, split_space_last by done. cbn [Datatypes.app].
  rewrite (parseTimestamp_read ts t) by done. eexists. split; [reflexivity|]. done.
Qed.

End Roundtrip.
