(* ===== verification/SyslogRun.v ===== *)
(** * Smee: the syslog receiver

    smee/internal/syslog/receiver.go: one goroutine reads datagrams into messages
    of a pool and sends them over a channel to parsers, which log them and put them
    back. Messages are pointers: [rc_heap] holds what they point to, and the pool,
    the reader, the channel and the parsers hold pointers. The goroutines
    interleave at the operations on what they share; [rstep] is one such operation.

    What a datagram was is kept beside the pointer to its message, for the
    statements only; [rc_sent], [rc_taken] and the first components of [rc_logged]
    are the datagrams sent over the channel, received from it and logged. *)
From stdpp Require Import infinite.
From S2P Require Import Prelude GoStrings GoNet GoNetip Syslog.

Record datagram := mkdatagram { dg_data : list ascii; dg_time : Z; dg_from : list Z }.

(** Where [run] is: before the pool is asked, reading, in the select that sends,
    and in [shutdown] before the channel is closed, in [wg.Wait], and before the
    deferred function, which gives back the message [run] still holds. *)
Inductive rpc :=
| RGet
| RRead (p : nat)
| RSend (p : nat) (d : datagram)
| RClose (m : option nat)
| RWait (m : option nat)
| RDefer (m : option nat)
| RReturned.

(** A parser: in [range], with a message, returned. *)
Inductive ppc := PRange | PParse (p : nat) (d : datagram) | PDone.

#[export] Instance datagram_eq_dec : EqDecision datagram.
Proof. solve_decision. Defined.
#[export] Instance rpc_eq_dec : EqDecision rpc.
Proof. solve_decision. Defined.
#[export] Instance ppc_eq_dec : EqDecision ppc.
Proof. solve_decision. Defined.

Record Receiver := mkReceiver {
  rc_heap : gmap nat message;
  rc_pool : list nat;
  rc_run : rpc;
  rc_queue : list (nat * datagram);
  rc_closed : bool;
  rc_done : bool;
  rc_cancelled : bool;
  rc_err : option error;
  rc_parsers : list ppc;
  (** a parser has panicked, which ends the program *)
  rc_crashed : bool;
  rc_sent : list datagram;
  rc_taken : list datagram;
  rc_logged : list (datagram * entry);
}.

Definition with_run (r : rpc) (s : Receiver) : Receiver :=
  mkReceiver (rc_heap s) (rc_pool s) r (rc_queue s) (rc_closed s) (rc_done s) (rc_cancelled s) (rc_err s) (rc_parsers s) (rc_crashed s)
    (rc_sent s) (rc_taken s) (rc_logged s).
Definition with_heap (p : nat) (m : message) (s : Receiver) : Receiver :=
  mkReceiver (<[p := m]> (rc_heap s)) (rc_pool s) (rc_run s) (rc_queue s) (rc_closed s) (rc_done s) (rc_cancelled s) (rc_err s) (rc_parsers s) (rc_crashed s)
    (rc_sent s) (rc_taken s) (rc_logged s).
Definition with_pool (l : list nat) (s : Receiver) : Receiver :=
  mkReceiver (rc_heap s) l (rc_run s) (rc_queue s) (rc_closed s) (rc_done s) (rc_cancelled s) (rc_err s) (rc_parsers s) (rc_crashed s)
    (rc_sent s) (rc_taken s) (rc_logged s).
Definition with_parser (j : nat) (c : ppc) (s : Receiver) : Receiver :=
  mkReceiver (rc_heap s) (rc_pool s) (rc_run s) (rc_queue s) (rc_closed s) (rc_done s) (rc_cancelled s) (rc_err s) (<[j := c]> (rc_parsers s)) (rc_crashed s)
    (rc_sent s) (rc_taken s) (rc_logged s).

(** [StartReceiver], after the socket is opened. *)
Definition StartReceiver (parsers : Z) : Receiver :=
  let n := if decide (parsers < 1)%Z then 1 else Z.to_nat parsers in
  mkReceiver ∅ [] RGet [] false false false None (replicate n PRange) false [] [] [].

(** What happens next: the pool gives one of its messages or a new one, or forgets
    one; a datagram arrives, or the read fails; the context is cancelled; the
    select sends or sees the context; the steps of [shutdown]; a parser receives,
    parses and logs, or returns. *)
Inductive revent :=
| EGet (i : option nat)
| EForget (i : nat)
| ERead (d : datagram)
| EReadErr (e : error) (netErr : bool)
| ECancel
| ESend
| EGiveUp
| EClose
| EWaited
| EDefer
| ETake (j : nat)
| EParse (j : nat)
| EEnd (j : nat).

Section Receive.
Context `{SyslogTime} (json_ok : list ascii → bool) (quote : list ascii → string).

(** The capacity of the channel. *)
Definition capacity (s : Receiver) : nat := length (rc_parsers s) * 64.

(** [reset] and [Put]. *)
Definition put_back (m : option nat) (s : Receiver) : Receiver :=
  match m with
  | Some p =>
      match rc_heap s !! p with
      | Some msg => with_pool (p :: rc_pool s) (with_heap p (sm_reset msg) s)
      | None => s
      end
  | None => s
  end.

Definition rstep (e : revent) (s : Receiver) : option Receiver :=
  if rc_crashed s then None
  else
    match e, rc_run s with
    | EGet (Some i), RGet =>
        p ← rc_pool s !! i; Some (with_run (RRead p) (with_pool (delete i (rc_pool s)) s))
    | EGet None, RGet =>
        let p := infinite_fresh (map_to_list (rc_heap s)).*1 in Some (with_run (RRead p) (with_heap p fresh s))
    | EForget i, _ => p ← rc_pool s !! i; Some (with_pool (delete i (rc_pool s)) s)
    | ERead d, RRead p =>
        m ← rc_heap s !! p;
        Some (with_run (RSend p d) (with_heap p (receive (dg_data d) (dg_time d) (dg_from d) m) s))
    | EReadErr err netErr, RRead p =>
        if rc_cancelled s then Some (with_run (RClose (Some p)) s)
        else if netErr then Some s
        else
          Some (mkReceiver (rc_heap s) (rc_pool s) (RClose (Some p)) (rc_queue s) (rc_closed s) (rc_done s) (rc_cancelled s)
            (Some (ErrWrap "error reading udp message: " err)) (rc_parsers s) (rc_crashed s) (rc_sent s) (rc_taken s) (rc_logged s))
    | ECancel, _ =>
        Some (mkReceiver (rc_heap s) (rc_pool s) (rc_run s) (rc_queue s) (rc_closed s) (rc_done s) true (rc_err s) (rc_parsers s) (rc_crashed s)
          (rc_sent s) (rc_taken s) (rc_logged s))
    | ESend, RSend p d =>
        if decide (length (rc_queue s) < capacity s) then
          Some (mkReceiver (rc_heap s) (rc_pool s) RGet (rc_queue s ++ [(p, d)]) (rc_closed s) (rc_done s) (rc_cancelled s) (rc_err s) (rc_parsers s)
            (rc_crashed s) (rc_sent s ++ [d]) (rc_taken s) (rc_logged s))
        else None
    | EGiveUp, RSend p _ => if rc_cancelled s then Some (with_run (RClose (Some p)) s) else None
    | EClose, RClose m =>
        Some (mkReceiver (rc_heap s) (rc_pool s) (RWait m) (rc_queue s) true (rc_done s) (rc_cancelled s) (rc_err s) (rc_parsers s) (rc_crashed s)
          (rc_sent s) (rc_taken s) (rc_logged s))
    | EWaited, RWait m =>
        if decide (Forall (.= PDone) (rc_parsers s)) then
          Some (mkReceiver (rc_heap s) (rc_pool s) (RDefer m) (rc_queue s) (rc_closed s) true (rc_cancelled s) (rc_err s) (rc_parsers s) (rc_crashed s)
            (rc_sent s) (rc_taken s) (rc_logged s))
        else None
    | EDefer, RDefer m => Some (with_run RReturned (put_back m s))
    | ETake j, _ =>
        match rc_parsers s !! j, rc_queue s with
        | Some PRange, (p, d) :: q =>
            Some (mkReceiver (rc_heap s) (rc_pool s) (rc_run s) q (rc_closed s) (rc_done s) (rc_cancelled s) (rc_err s)
              (<[j := PParse p d]> (rc_parsers s)) (rc_crashed s) (rc_sent s) (rc_taken s ++ [d]) (rc_logged s))
        | _, _ => None
        end
    | EParse j, _ =>
        match rc_parsers s !! j with
        | Some (PParse p d) =>
            m ← rc_heap s !! p;
            Some match runParser json_ok quote m with
                 | Some (en, m') =>
                     mkReceiver (<[p := m']> (rc_heap s)) (p :: rc_pool s) (rc_run s) (rc_queue s) (rc_closed s) (rc_done s) (rc_cancelled s) (rc_err s)
                       (<[j := PRange]> (rc_parsers s)) (rc_crashed s) (rc_sent s) (rc_taken s) (rc_logged s ++ [(d, en)])
                 | None =>
                     mkReceiver (rc_heap s) (rc_pool s) (rc_run s) (rc_queue s) (rc_closed s) (rc_done s) (rc_cancelled s) (rc_err s)
                       (rc_parsers s) true (rc_sent s) (rc_taken s) (rc_logged s)
                 end
        | _ => None
        end
    | EEnd j, _ =>
        match rc_parsers s !! j, rc_queue s with
        | Some PRange, [] => if rc_closed s then Some (with_parser j PDone s) else None
        | _, _ => None
        end
    | _, _ => None
    end.

Inductive rreach (n : Z) : Receiver → Prop :=
| rreach_start : rreach n (StartReceiver n)
| rreach_step e s s' : rreach n s → rstep e s = Some s' → rreach n s'.

(** ** Who holds a message *)

(** What a holder of a pointer relies on: a message of the pool, a datagram read
    into one, or a whole message, whatever is in it. *)
Inductive claim := CPool | CData (d : datagram) | CMessage.

Definition meets (m : message) (c : claim) : Prop :=
  match c with
  | CPool => pooled m
  | CData d => ∃ m0, pooled m0 ∧ m = receive (dg_data d) (dg_time d) (dg_from d) m0
  | CMessage => length (sm_buf m) = bufSize
  end.

Lemma meets_message m c : meets m c → meets m CMessage.
Proof. destruct c; simpl; [by intros [_ ?]| |done]. intros (m0 & Hm & ->). exact (received_length (dg_data d) m0 Hm). Qed.

(** Every pointer has one holder, and the message is what that relies on. *)
Definition own (heap : gmap nat message) (cl : list (nat * claim)) : Prop :=
  NoDup cl.*1 ∧ ∀ p c, (p, c) ∈ cl → ∃ m, heap !! p = Some m ∧ meets m c.

Lemma own_perm heap cl cl' : cl ≡ₚ cl' → own heap cl → own heap cl'.
Proof. intros E [Hn Hc]. split; [by rewrite <- E|]. intros p c. rewrite <- E. apply Hc. Qed.

Lemma own_drop heap x cl : own heap (x :: cl) → own heap cl.
Proof. intros [Hn Hc]. split; [by inversion Hn|]. intros p c Hp. apply Hc. by right. Qed.

Lemma own_head heap p c cl : own heap ((p, c) :: cl) → ∃ m, heap !! p = Some m ∧ meets m c.
Proof. intros [_ Hc]. apply Hc. by left. Qed.

Lemma own_update heap p c m' c' cl : own heap ((p, c) :: cl) → meets m' c' → own (<[p := m']> heap) ((p, c') :: cl).
Proof.
  intros [Hn Hc] Hm. split; [done|]. intros q d [[= -> ->]|Hq]%elem_of_cons; [exists m'; by rewrite lookup_insert_eq|].
  rewrite lookup_insert_ne; [apply Hc; by right|]. intros <-. inversion Hn as [|?? Hp]. apply Hp. apply list_elem_of_fmap. by exists (p, d).
Qed.

Lemma own_weaken heap p c c' cl : own heap ((p, c) :: cl) → (∀ m, meets m c → meets m c') → own heap ((p, c') :: cl).
Proof.
  intros [Hn Hc] Hw. split; [done|]. intros q d [[= -> ->]|Hq]%elem_of_cons; [|apply Hc; by right].
  destruct (Hc p c) as (m & E & Hm); [by left|]. eauto.
Qed.

Lemma own_new heap p m c cl : own heap cl → heap !! p = None → meets m c → own (<[p := m]> heap) ((p, c) :: cl).
Proof.
  intros [Hn Hc] Hp Hm. assert (p ∉ cl.*1) as Hf.
  { intros ([q d] & -> & Hq)%list_elem_of_fmap. destruct (Hc _ _ Hq) as (m0 & E & _). simpl in Hp. by rewrite Hp in E. }
  split; [by constructor|]. intros q d [[= -> ->]|Hq]%elem_of_cons; [exists m; by rewrite lookup_insert_eq|].
  rewrite lookup_insert_ne; [by apply Hc|]. intros <-. apply Hf. apply list_elem_of_fmap. by exists (p, d).
Qed.

Definition run_claims (r : rpc) : list (nat * claim) :=
  match r with
  | RRead p => [(p, CPool)]
  | RSend p d => [(p, CData d)]
  | RClose m | RWait m | RDefer m => (., CMessage) <$> option_list m
  | RGet | RReturned => []
  end.
Definition parser_claims (c : ppc) : list (nat * claim) := match c with PParse p d => [(p, CData d)] | _ => [] end.
Definition parses (c : ppc) : list datagram := match c with PParse _ d => [d] | _ => [] end.

Definition claims (s : Receiver) : list (nat * claim) :=
  run_claims (rc_run s) ++ ((., CPool) <$> rc_pool s) ++ (prod_map id CData <$> rc_queue s) ++ (rc_parsers s ≫= parser_claims).

(** The entry of a datagram: the one it has in a new message. *)
Definition entry_of (d : datagram) : option entry :=
  fst <$> runParser json_ok quote (receive (dg_data d) (dg_time d) (dg_from d) fresh).

Definition in_shutdown (r : rpc) : bool := match r with RWait _ | RDefer _ | RReturned => true | _ => false end.
Definition finished (r : rpc) : bool := match r with RDefer _ | RReturned => true | _ => false end.

Record rinv (n : nat) (s : Receiver) : Prop := {
  ri_own : own (rc_heap s) (claims s);
  ri_parsers : length (rc_parsers s) = n;
  ri_closed : rc_closed s = in_shutdown (rc_run s);
  ri_done : rc_done s = finished (rc_run s);
  ri_ended : PDone ∈ rc_parsers s → rc_closed s = true ∧ rc_queue s = [];
  ri_all : rc_done s = true → Forall (.= PDone) (rc_parsers s);
  ri_sent : rc_sent s = rc_taken s ++ (rc_queue s).*2;
  ri_taken : rc_taken s ≡ₚ (rc_logged s).*1 ++ (rc_parsers s ≫= parses);
  ri_order : n = 1 → rc_taken s = (rc_logged s).*1 ++ (rc_parsers s ≫= parses);
  ri_logged : ∀ d en, (d, en) ∈ rc_logged s → entry_of d = Some en;
  ri_room : length (rc_queue s) ≤ n * 64;
}.

(** ** What each step keeps *)

Lemma bind_insert {A B} (f : A → list B) l j c0 c :
  l !! j = Some c0 → f c0 ++ (<[j := c]> l ≫= f) ≡ₚ f c ++ (l ≫= f).
Proof.
  revert j. induction l as [|x l IHl]; intros [|j] E; simplify_eq/=.
  - rewrite !(assoc (++)). f_equiv. apply (comm (++)).
  - rewrite !(assoc (++)), !(comm (++) _ (f x)), <- !(assoc (++)). f_equiv. by apply IHl.
Qed.

Lemma bind_single {A B} (f : A → list B) l j c0 : length l = 1 → l !! j = Some c0 → l ≫= f = f c0 ∧ ∀ c, <[j := c]> l ≫= f = f c.
Proof. destruct l as [|x []]; [done| |done]. destruct j; [|done]. intros _ [= ->]. simpl. split; [apply app_nil_r|]. intros c. apply app_nil_r. Qed.

Lemma rinv_start n : rinv (length (rc_parsers (StartReceiver n))) (StartReceiver n).
Proof.
  assert (∀ {A} (f : ppc → list A) k, f PRange = [] → replicate k PRange ≫= f = []) as Hb.
  { intros A f k Hf. induction k as [|k IH]; [done|]. by rewrite replicate_S, bind_cons, Hf, IH. }
  constructor; simpl; try done; try (by rewrite Hb); try lia.
  - unfold claims. simpl. rewrite Hb by done. split; [constructor|]. by intros p c ?%elem_of_nil.
  - intros Hd. apply elem_of_replicate in Hd as [? _]. done.
  - intros d en ?%elem_of_nil. done.
Qed.

(** A step that changes who holds what, and nothing the rest speaks of. *)
Lemma rinv_move n s s' :
  rinv n s → own (rc_heap s') (claims s') →
  (rc_parsers s', rc_queue s', rc_sent s', rc_taken s', rc_logged s') = (rc_parsers s, rc_queue s, rc_sent s, rc_taken s, rc_logged s) →
  rc_closed s' = rc_closed s → rc_done s' = rc_done s →
  in_shutdown (rc_run s') = in_shutdown (rc_run s) → finished (rc_run s') = finished (rc_run s) →
  rinv n s'.
Proof. intros [] Ho [= E1 E2 E3 E4 E5] Ec Ed Hs Hf. constructor; rewrite ?E1, ?E2, ?E3, ?E4, ?E5, ?Ec, ?Ed, ?Hs, ?Hf; done. Qed.

(** The claims with those of [run] or of one message of the pool in front. *)
Lemma claims_pool s i p :
  rc_pool s !! i = Some p → claims s ≡ₚ (p, CPool) :: claims (with_pool (delete i (rc_pool s)) s).
Proof.
  intros Hi. unfold claims. simpl. rewrite (delete_Permutation (rc_pool s) i p Hi) at 1. csimpl. solve_Permutation.
Qed.

Lemma claims_parser s j c0 c :
  rc_parsers s !! j = Some c0 → parser_claims c0 ++ claims (with_parser j c s) ≡ₚ parser_claims c ++ claims s.
Proof.
  intros Hj. unfold claims. simpl. pose proof (bind_insert parser_claims (rc_parsers s) j c0 c Hj) as E.
  set (a := run_claims _) in *. set (b := _ <$> rc_pool s). set (q := _ <$> rc_queue s).
  transitivity (a ++ b ++ q ++ (parser_claims c0 ++ (<[j := c]> (rc_parsers s) ≫= parser_claims))); [solve_Permutation|].
  rewrite E. solve_Permutation.
Qed.

(** The pool. *)
Lemma rinv_get n i s s' : rinv n s → rstep (EGet i) s = Some s' → rinv n s'.
Proof.
  intros I. unfold rstep. destruct (rc_crashed s); [done|]. pose proof (ri_own _ _ I) as Ho.
  destruct (rc_run s) eqn:Er; try (by destruct i). destruct i as [i|].
  - destruct (rc_pool s !! i) as [p|] eqn:Ep; [|done]. intros [= <-].
    apply (rinv_move n s); try done; [|by rewrite Er..]. apply (own_perm _ (claims s)); [|done].
    rewrite (claims_pool s i p Ep). unfold claims. simpl. by rewrite Er.
  - intros [= <-]. apply (rinv_move n s); try done; [|by rewrite Er..].
    unfold claims in *. simpl. rewrite Er in Ho. apply (own_new _ _ _ CPool); [done| |apply fresh_pooled].
    apply eq_None_not_Some. intros [m E]. apply (infinite_is_fresh (map_to_list (rc_heap s)).*1). apply list_elem_of_fmap.
    eexists (_, m). split; [reflexivity|]. by apply elem_of_map_to_list.
Qed.

Lemma rinv_forget n i s s' : rinv n s → rstep (EForget i) s = Some s' → rinv n s'.
Proof.
  intros I. unfold rstep. destruct (rc_crashed s); [done|]. destruct (rc_pool s !! i) as [p|] eqn:Ep; [|done]. intros [= <-].
  apply (rinv_move n s); try done. apply (own_drop _ (p, CPool)). apply (own_perm _ (claims s)); [|apply (ri_own _ _ I)].
  by apply claims_pool.
Qed.

(** The reader. *)
Lemma rinv_read n d s s' : rinv n s → rstep (ERead d) s = Some s' → rinv n s'.
Proof.
  intros I. unfold rstep. destruct (rc_crashed s); [done|]. pose proof (ri_own _ _ I) as Ho.
  destruct (rc_run s) as [|p| | | | |] eqn:Er; try done. unfold claims in Ho. rewrite Er in Ho.
  destruct (own_head _ _ _ _ Ho) as (m & Em & Hm). rewrite Em. intros [= <-].
  apply (rinv_move n s); try done; [|by rewrite Er..]. apply (own_update _ _ CPool); [done|]. exists m. by split.
Qed.

Lemma rinv_to_close n p c s :
  rinv n s → run_claims (rc_run s) = [(p, c)] → in_shutdown (rc_run s) = false → finished (rc_run s) = false →
  rinv n (with_run (RClose (Some p)) s).
Proof.
  intros I Hr Hs Hf. pose proof (ri_own _ _ I) as Ho. unfold claims in Ho. rewrite Hr in Ho.
  apply (rinv_move n s); try done. apply (own_weaken _ _ c); [done|]. intros m. apply meets_message.
Qed.

Lemma rinv_readerr n err net s s' : rinv n s → rstep (EReadErr err net) s = Some s' → rinv n s'.
Proof.
  intros I. unfold rstep. destruct (rc_crashed s); [done|]. destruct (rc_run s) as [|p| | | | |] eqn:Er; try done.
  assert (rinv n (with_run (RClose (Some p)) s)) as I' by (apply (rinv_to_close n p CPool); [done|by rewrite Er..]).
  destruct (rc_cancelled s); [by intros [= <-]|]. destruct net; intros [= <-]; [done|].
  apply (rinv_move _ _ _ I'); try done. apply (ri_own _ _ I').
Qed.

Lemma rinv_giveup n s s' : rinv n s → rstep EGiveUp s = Some s' → rinv n s'.
Proof.
  intros I. unfold rstep. destruct (rc_crashed s); [done|]. destruct (rc_run s) as [| |p d| | | |] eqn:Er; try done.
  destruct (rc_cancelled s); [|done]. intros [= <-]. apply (rinv_to_close n p (CData d)); [done|by rewrite Er..].
Qed.

Lemma rinv_cancel n s s' : rinv n s → rstep ECancel s = Some s' → rinv n s'.
Proof.
  intros I. unfold rstep. destruct (rc_crashed s); [done|]. intros Hs.
  assert (s' = mkReceiver (rc_heap s) (rc_pool s) (rc_run s) (rc_queue s) (rc_closed s) (rc_done s) true (rc_err s) (rc_parsers s) false
    (rc_sent s) (rc_taken s) (rc_logged s)) as -> by (destruct (rc_run s); by simplify_eq).
  apply (rinv_move n s); try done. apply (ri_own _ _ I).
Qed.

Lemma rinv_send n s s' : rinv n s → rstep ESend s = Some s' → rinv n s'.
Proof.
  intros I. unfold rstep. destruct (rc_crashed s); [done|]. destruct (rc_run s) as [| |p d| | | |] eqn:Er; try done.
  case_decide as Hc; [|done]. intros [= <-]. destruct I. rewrite Er in *. constructor; simpl; try done.
  - eapply own_perm; [|exact ri_own0]. unfold claims. simpl. rewrite Er, fmap_app. csimpl. solve_Permutation.
  - intros Hd. destruct (ri_ended0 Hd) as [Hcl _]. by rewrite ri_closed0 in Hcl.
  - rewrite ri_sent0, fmap_app. csimpl. by rewrite (assoc_L (++)).
  - rewrite length_app. simpl. unfold capacity in Hc. rewrite ri_parsers0 in Hc. lia.
Qed.

(** The shutdown. *)
Lemma rinv_close n s s' : rinv n s → rstep EClose s = Some s' → rinv n s'.
Proof.
  intros I. unfold rstep. destruct (rc_crashed s); [done|]. destruct (rc_run s) as [| | |m| | |] eqn:Er; try done. intros [= <-].
  destruct I. rewrite Er in *. constructor; simpl; try done.
  - unfold claims in *. simpl. by rewrite Er in ri_own0.
  - intros Hd. by destruct (ri_ended0 Hd).
Qed.

Lemma rinv_waited n s s' : rinv n s → rstep EWaited s = Some s' → rinv n s'.
Proof.
  intros I. unfold rstep. destruct (rc_crashed s); [done|]. destruct (rc_run s) as [| | | |m| |] eqn:Er; try done.
  case_decide as Hp; [|done]. intros [= <-]. destruct I. rewrite Er in *. constructor; simpl; try done.
  unfold claims in *. simpl. by rewrite Er in ri_own0.
Qed.

Lemma rinv_defer n s s' : rinv n s → rstep EDefer s = Some s' → rinv n s'.
Proof.
  intros I. unfold rstep. destruct (rc_crashed s); [done|]. destruct (rc_run s) as [| | | | |m|] eqn:Er; try done. intros [= <-].
  pose proof (ri_own _ _ I) as Ho. unfold claims in Ho. rewrite Er in Ho. unfold put_back. destruct m as [p|].
  - destruct (own_head _ _ _ _ Ho) as (m & Em & Hm). rewrite Em. apply (rinv_move n s); try done; [|by rewrite Er..].
    eapply own_perm; [|apply (own_update _ p CMessage (sm_reset m) CPool); [exact Ho|by split]].
    unfold claims. simpl. solve_Permutation.
  - apply (rinv_move n s); try done; by rewrite Er.
Qed.

(** The parsers. *)
Lemma rinv_take n j s s' : rinv n s → rstep (ETake j) s = Some s' → rinv n s'.
Proof.
  intros I. unfold rstep. destruct (rc_crashed s); [done|].
  destruct (rc_parsers s !! j) as [c|] eqn:Ej; [|by destruct (rc_run s)]. destruct c as [|??|]; [|by destruct (rc_run s)..].
  destruct (rc_queue s) as [|[p d] q] eqn:Eq; [by destruct (rc_run s)|]. intros Hs.
  assert (s' = mkReceiver (rc_heap s) (rc_pool s) (rc_run s) q (rc_closed s) (rc_done s) (rc_cancelled s) (rc_err s)
    (<[j := PParse p d]> (rc_parsers s)) false (rc_sent s) (rc_taken s ++ [d]) (rc_logged s)) as -> by (destruct (rc_run s); by simplify_eq).
  clear Hs. destruct I. rewrite Eq in *. constructor; simpl; try done.
  - eapply own_perm; [|exact ri_own0]. pose proof (claims_parser s j PRange (PParse p d) Ej) as E. unfold claims in *. simpl in *. rewrite Eq in *. csimpl in *.
    apply (inj ((p, CData d) ::.)). rewrite <- E. solve_Permutation.
  - by rewrite length_insert.
  - intros Hd. exfalso. destruct ri_ended0 as [_ ?]; [|done].
    apply list_elem_of_lookup in Hd as [k Hk]. destruct (decide (k = j)) as [->|Hne]; [by rewrite list_lookup_insert_eq in Hk by (by eapply lookup_lt_Some)|].
    rewrite list_lookup_insert_ne in Hk by done. by eapply list_elem_of_lookup_2.
  - intros Hd. pose proof (ri_all0 Hd) as HF. apply (Forall_lookup_1 _ _ j PRange) in HF; [done|done].
  - rewrite ri_sent0. simpl. by rewrite <- (assoc_L (++)).
  - rewrite ri_taken0. pose proof (bind_insert parses _ _ _ (PParse p d) Ej) as E. simpl in E. rewrite E. solve_Permutation.
  - intros Hn. rewrite (ri_order0 Hn). rewrite Hn in ri_parsers0. destruct (bind_single parses _ _ _ ri_parsers0 Ej) as [-> ->]. simpl. by rewrite app_nil_r.
  - simpl in ri_room0. lia.
Qed.

Lemma rinv_end n j s s' : rinv n s → rstep (EEnd j) s = Some s' → rinv n s'.
Proof.
  intros I. unfold rstep. destruct (rc_crashed s); [done|].
  destruct (rc_parsers s !! j) as [c|] eqn:Ej; [|by destruct (rc_run s)]. destruct c as [|??|]; [|by destruct (rc_run s)..].
  destruct (rc_queue s) as [|] eqn:Eq; [|by destruct (rc_run s)]. destruct (rc_closed s) eqn:Ec; [|by destruct (rc_run s)]. intros Hs.
  assert (s' = with_parser j PDone s) as -> by (destruct (rc_run s); by simplify_eq). clear Hs.
  destruct I. constructor; simpl; try done.
  - eapply own_perm; [|exact ri_own0]. symmetry. exact (claims_parser s j PRange PDone Ej).
  - by rewrite length_insert.
  - intros Hd. apply Forall_insert; [by apply ri_all0|done].
  - rewrite ri_taken0. pose proof (bind_insert parses _ _ _ PDone Ej) as E. simpl in E. by rewrite E.
  - intros Hn. rewrite (ri_order0 Hn). rewrite Hn in ri_parsers0. by destruct (bind_single parses _ _ _ ri_parsers0 Ej) as [-> ->].
Qed.

Lemma rinv_parse n j s s' : rinv n s → rstep (EParse j) s = Some s' → rinv n s'.
Proof.
  intros I. unfold rstep. destruct (rc_crashed s); [done|].
  destruct (rc_parsers s !! j) as [c|] eqn:Ej; [|by destruct (rc_run s)]. destruct c as [|p d|]; [by destruct (rc_run s)| |by destruct (rc_run s)].
  pose proof (ri_own _ _ I) as Ho. pose proof (claims_parser s j (PParse p d) PRange Ej) as E. simpl in E. apply (own_perm _ _ _ (symmetry E)) in Ho.
  destruct (own_head _ _ _ _ Ho) as (m & Em & m0 & Hm0 & ->). rewrite Em. simpl.
  pose proof (syslog_pool json_ok quote (dg_data d) (dg_time d) (dg_from d) m0 Hm0) as Hp.
  destruct (runParser _ _ _) as [[en m']|]; intros Hs.
  - assert (s' = mkReceiver (<[p := m']> (rc_heap s)) (p :: rc_pool s) (rc_run s) (rc_queue s) (rc_closed s) (rc_done s) (rc_cancelled s) (rc_err s)
      (<[j := PRange]> (rc_parsers s)) false (rc_sent s) (rc_taken s) (rc_logged s ++ [(d, en)])) as -> by (destruct (rc_run s); by simplify_eq).
    clear Hs. destruct Hp as [Hm' He]. destruct I. constructor; simpl; try done.
    + eapply own_perm; [|apply (own_update _ _ _ m' CPool _ Ho Hm')]. unfold claims. simpl. solve_Permutation.
    + by rewrite length_insert.
    + intros Hd. apply ri_ended0. apply list_elem_of_lookup in Hd as [k Hk].
      destruct (decide (k = j)) as [->|Hne]; [by rewrite list_lookup_insert_eq in Hk by (by eapply lookup_lt_Some)|].
      rewrite list_lookup_insert_ne in Hk by done. by eapply list_elem_of_lookup_2.
    + intros Hd. pose proof (ri_all0 Hd) as HF. by apply (Forall_lookup_1 _ _ j (PParse p d)) in HF.
    + rewrite ri_taken0, fmap_app. csimpl. pose proof (bind_insert parses _ _ _ PRange Ej) as Ep. simpl in Ep. rewrite <- Ep. solve_Permutation.
    + intros Hn. rewrite (ri_order0 Hn), fmap_app. rewrite Hn in ri_parsers0. destruct (bind_single parses _ _ _ ri_parsers0 Ej) as [-> ->]. csimpl. by rewrite app_nil_r.
    + intros d0 en0 [Hin|Hin]%elem_of_app; [by apply ri_logged0|]. apply list_elem_of_singleton in Hin. simplify_eq. done.
  - assert (s' = mkReceiver (rc_heap s) (rc_pool s) (rc_run s) (rc_queue s) (rc_closed s) (rc_done s) (rc_cancelled s) (rc_err s) (rc_parsers s) true
      (rc_sent s) (rc_taken s) (rc_logged s)) as -> by (destruct (rc_run s); by simplify_eq).
    apply (rinv_move n s); try done. apply (ri_own _ _ I).
Qed.

Lemma rinv_step n e s s' : rinv n s → rstep e s = Some s' → rinv n s'.
Proof.
  destruct e; [apply rinv_get|apply rinv_forget|apply rinv_read|apply rinv_readerr|apply rinv_cancel|apply rinv_send|apply rinv_giveup|
    apply rinv_close|apply rinv_waited|apply rinv_defer|apply rinv_take|apply rinv_parse|apply rinv_end].
Qed.

Definition started (parsers : Z) : nat := length (rc_parsers (StartReceiver parsers)).

Lemma rreach_inv n s : rreach n s → rinv (started n) s.
Proof. induction 1; [apply rinv_start|by eapply rinv_step]. Qed.

(** C19: the syslog receiver, in every interleaving of its reader, its parsers, the
    pool and a cancellation. No message is held by two of them, so none is read
    into while it is parsed; the channel is closed once, by the reader after its last
    send; what was logged are datagrams that were received, each once and with the
    entry it would have alone; and when the receiver is done, everything that was
    sent to the parsers is logged, in its order when there is one parser. *)
Theorem receiver_complete n s :
  rreach n s →
  NoDup (claims s).*1 ∧
  (∀ p d, rc_run s = RSend p d → rc_closed s = false) ∧
  length (rc_queue s) ≤ started n * 64 ∧
  (∃ pending, rc_sent s ≡ₚ (rc_logged s).*1 ++ pending) ∧
  (∀ d en, (d, en) ∈ rc_logged s → entry_of d = Some en) ∧
  (rc_done s = true → rc_sent s ≡ₚ (rc_logged s).*1 ∧ (started n = 1 → rc_sent s = (rc_logged s).*1)).
Proof.
  intros I%rreach_inv. destruct (ri_own _ _ I) as [Hn _].
  split; [done|]. split; [intros p d Er; rewrite (ri_closed _ _ I); by rewrite Er|]. split; [apply (ri_room _ _ I)|].
  split; [|split; [apply (ri_logged _ _ I)|]].
  - exists ((rc_parsers s ≫= parses) ++ (rc_queue s).*2). rewrite (ri_sent _ _ I), (ri_taken _ _ I). by rewrite (assoc (++)).
  - intros Hd. pose proof (ri_all _ _ I Hd) as HF.
    assert (rc_queue s = []) as Hq.
    { apply (ri_ended _ _ I). destruct (rc_parsers s) as [|c l] eqn:El; [|inversion HF; subst; by left].
      pose proof (ri_parsers _ _ I) as Hl. rewrite El in Hl. exfalso. unfold started, StartReceiver in Hl. simpl in Hl. rewrite length_replicate in Hl. case_decide; lia. }
    assert (rc_parsers s ≫= parses = []) as Hp.
    { clear -HF. induction HF as [|c l Hc _ IH]; [done|]. rewrite bind_cons, IH. by subst. }
    pose proof (ri_taken _ _ I) as Ht. pose proof (ri_order _ _ I) as Hor. rewrite Hp, app_nil_r in Ht, Hor.
    rewrite (ri_sent _ _ I), Hq. simpl. rewrite app_nil_r. done.
Qed.

(** ** The end *)

(** What may still happen once the socket is closed: every step but the arrival of
    a datagram, a second cancellation, and what the garbage collector does. *)
Definition internal (e : revent) : bool := match e with ERead _ | ECancel | EForget _ => false | _ => true end.

Fixpoint rsteps (es : list revent) (s : Receiver) : option Receiver :=
  match es with [] => Some s | e :: es' => s' ← rstep e s; rsteps es' s' end.

Lemma rsteps_reach n es s s' : rreach n s → rsteps es s = Some s' → rreach n s'.
Proof.
  revert s. induction es as [|e es IHes]; intros s Hr; simpl; [by intros [= <-]|].
  destruct (rstep e s) as [s1|] eqn:E; [|done]. apply IHes. by eapply rreach_step.
Qed.

Definition run_rank (r : rpc) : nat :=
  match r with RReturned => 0 | RDefer _ => 1 | RWait _ => 2 | RClose _ => 3 | RRead _ => 4 | RGet => 5 | RSend _ _ => 9 end.
Definition parser_rank (c : ppc) : nat := match c with PDone => 0 | PRange => 1 | PParse _ _ => 2 end.
Definition work (s : Receiver) : nat :=
  run_rank (rc_run s) + 3 * length (rc_queue s) + sum_list_with parser_rank (rc_parsers s) + (if rc_crashed s then 0 else 1).

Lemma sum_insert (f : ppc → nat) l j c0 c :
  l !! j = Some c0 → sum_list_with f (<[j := c]> l) + f c0 = sum_list_with f l + f c.
Proof. revert j. induction l as [|x l IHl]; intros [|j] E; simplify_eq/=; [lia|]. specialize (IHl _ E). lia. Qed.

(** Each such step of a cancelled receiver leaves less to do. *)
Lemma work_step e s s' :
  internal e = true → rc_cancelled s = true → rstep e s = Some s' → work s' < work s ∧ rc_cancelled s' = true.
Proof.
  intros Hi Hc. unfold rstep, work. destruct (rc_crashed s) eqn:Ecr; [done|].
  destruct e as [[i|]|i|d|err net| | | | | | |j|j|j]; try done; clear Hi.
  9-11: destruct (rc_parsers s !! j) as [c|] eqn:Ej; [|by destruct (rc_run s)]; destruct c as [|p d|]; try (by destruct (rc_run s)).
  - destruct (rc_run s); try done. destruct (rc_pool s !! i); [|done]. intros [= <-]. simpl. rewrite Ecr. split; [lia|done].
  - destruct (rc_run s); try done. intros [= <-]. simpl. rewrite Ecr. split; [lia|done].
  - destruct (rc_run s); try done. rewrite Hc. intros [= <-]. simpl. rewrite Ecr. split; [lia|done].
  - destruct (rc_run s); try done. case_decide; [|done]. intros [= <-]. simpl. rewrite length_app. simpl. split; [lia|done].
  - destruct (rc_run s); try done. rewrite Hc. intros [= <-]. simpl. rewrite Ecr. split; [lia|done].
  - destruct (rc_run s); try done. intros [= <-]. simpl. split; [lia|done].
  - destruct (rc_run s); try done. case_decide; [|done]. intros [= <-]. simpl. split; [lia|done].
  - destruct (rc_run s) as [| | | | |m|]; try done. intros [= <-]. unfold put_back. repeat case_match; simpl; rewrite ?Ecr; (split; [lia|done]).
  - destruct (rc_queue s) as [|[p d] q]; [by destruct (rc_run s)|]. pose proof (sum_insert parser_rank _ _ _ (PParse p d) Ej) as E. simpl in E.
    destruct (rc_run s); intros [= <-]; simpl; (split; [lia|done]).
  - pose proof (sum_insert parser_rank _ _ _ PRange Ej) as E. simpl in E.
    destruct (rc_heap s !! p) as [m|]; [|by destruct (rc_run s)]. cbn [mbind option_bind].
    destruct (runParser _ _ _) as [[en m']|]; destruct (rc_run s); intros [= <-]; simpl; (split; [lia|done]).
  - destruct (rc_queue s) eqn:Eq; [|by destruct (rc_run s)]. destruct (rc_closed s); [|by destruct (rc_run s)].
    pose proof (sum_insert parser_rank _ _ _ PDone Ej) as E. simpl in E.
    destruct (rc_run s) eqn:Er; intros [= <-]; simpl; rewrite Ecr, Eq, Er; simpl; (split; [lia|done]).
Qed.

(** A cancelled receiver that has not returned can go on. *)
Lemma progress n s :
  rinv n s → rc_cancelled s = true → rc_crashed s = false → rc_run s ≠ RReturned → ∃ e s', internal e = true ∧ rstep e s = Some s'.
Proof.
  intros I Hc Hcr Hr. destruct (rc_run s) as [|p|p d|m|m|m|] eqn:Er; try done.
  - exists (EGet None). eexists. split; [done|]. unfold rstep. by rewrite Hcr, Er.
  - exists (EReadErr (ErrNew "") true). eexists. split; [done|]. unfold rstep. by rewrite Hcr, Er, Hc.
  - exists EGiveUp. eexists. split; [done|]. unfold rstep. by rewrite Hcr, Er, Hc.
  - exists EClose. eexists. split; [done|]. unfold rstep. by rewrite Hcr, Er.
  - destruct (decide (Forall (.= PDone) (rc_parsers s))) as [HF|HF].
    { exists EWaited. eexists. split; [done|]. unfold rstep. rewrite Hcr, Er. by rewrite decide_True. }
    apply not_Forall_Exists in HF; [|apply _]. apply Exists_exists in HF as (c & [j Hj]%list_elem_of_lookup & Hd).
    destruct c as [|p d|]; [| |by destruct Hd].
    + destruct (rc_queue s) as [|[p d] q] eqn:Eq.
      * assert (rc_closed s = true) as Hcl by (by rewrite (ri_closed _ _ I), Er). exists (EEnd j). eexists. split; [done|]. unfold rstep. by rewrite Hcr, Hj, Eq, Hcl.
      * exists (ETake j). eexists. split; [done|]. unfold rstep. by rewrite Hcr, Hj, Eq.
    + destruct (ri_own _ _ I) as [_ Ho]. destruct (Ho p (CData d)) as (m0 & Em & _).
      { unfold claims. rewrite !elem_of_app. do 3 right. apply list_elem_of_bind. exists (PParse p d). split; [by left|]. by eapply list_elem_of_lookup_2. }
      exists (EParse j). eexists. split; [done|]. unfold rstep. rewrite Hcr, Hj, Em. reflexivity.
  - exists EDefer. eexists. split; [done|]. unfold rstep. by rewrite Hcr, Er.
Qed.

End Receive.
