(* ===== verification/System.v ===== *)
(** * The whole: agents, server and controller on one workflow

    A workflow object shared by the agents (through the workflow service) and
    the controller. The server's handlers run against [Cell_backend], a store
    that holds one workflow; the controller acts by the status patches
    [Controller] shows it makes. The file proves that, whatever the interleaving,
    the actions of a workflow run in order, each after the success of all before
    it, and that a workflow is SUCCESS only when all succeeded; and that
    cooperating agents drive a workflow to its end. *)
From stdpp Require Import relations.
From S2P Require Import Prelude GoStrings BmcTypes Api BmcApi Template KubeClient WorkflowJob Reconciler Controller GoNet Attributes ServerNames Server Service Agent.

(** ** A store of one workflow *)

Definition cell_not_found : error := ErrStatus StatusReasonNotFound "not found".

#[export] Instance Cell_backend : Backend Workflow := {|
  b_Done w := (false, w);
  b_ListWorkflows f w :=
    (inr (if decide (wfl_ByAgentID f ≠ "" ∧ st_AgentID (wf_Status w) = wfl_ByAgentID f) then [w] else []), w);
  b_ReadWorkflow name ns w :=
    (if decide (name = wf_Name w ∧ ns = wf_Namespace w) then inr w else inl cell_not_found, w);
  b_UpdateWorkflowStatus wf w :=
    if decide (wf_Name wf = wf_Name w ∧ wf_Namespace wf = wf_Namespace w) then (None, mkWorkflow (wf_Meta w) (wf_Spec w) (wf_Status wf))
    else (Some cell_not_found, w);
  b_ReadHardware _ _ w := (inl cell_not_found, w);
  b_FilterHardware _ w := (inl cell_not_found, w);
  b_PatchHardware _ _ w := (Some cell_not_found, w);
  b_CreateHardware _ w := (Some cell_not_found, w);
  b_ListWorkflowRuleSets _ w := (inr [], w);
  b_CreateWorkflow _ w := (Some cell_not_found, w);
|}.

(** Nothing is retried: the agents ask again by themselves. *)
#[export] Instance Cell_env : ServerEnv Workflow := {|
  marshal_attrs _ := inr "{}";
  quamina_AddPattern _ := None;
  quamina_matches _ _ := inr 0;
  backoff_Retry A op w := op w;
|}.

Definition plain : AutoConfig := mkAutoConfig false false "" false.

(** ** Actions in execution order *)

Definition flat (tasks : list Task) : list Action := tasks ≫= task_Actions.

(** The position in [flat] of the first action of task [i]. *)
Definition offset (tasks : list Task) (i : nat) : nat := length (flat (take i tasks)).

Lemma flat_app l1 l2 : flat (l1 ++ l2) = flat l1 ++ flat l2.
Proof. apply bind_app. Qed.

Lemma flat_split tasks i t :
  tasks !! i = Some t → flat tasks = flat (take i tasks) ++ task_Actions t ++ flat (drop (S i) tasks).
Proof. intros H. rewrite <-(take_drop_middle tasks i t H) at 1. by rewrite flat_app. Qed.

Lemma flat_lookup tasks i t j :
  tasks !! i = Some t → j < length (task_Actions t) → flat tasks !! (offset tasks i + j) = task_Actions t !! j.
Proof.
  intros H Hj. rewrite (flat_split tasks i t H), lookup_app_r by (unfold offset; lia).
  rewrite lookup_app_l by (unfold offset; lia). f_equal. unfold offset. lia.
Qed.

Lemma flat_lookup_inv tasks n a :
  flat tasks !! n = Some a →
  ∃ i t j, tasks !! i = Some t ∧ task_Actions t !! j = Some a ∧ n = offset tasks i + j.
Proof.
  revert n. induction tasks as [|t tasks IH]; intros n; [done|].
  change (flat (t :: tasks)) with (task_Actions t ++ flat tasks).
  intros [H|[Hn H]]%lookup_app_Some.
  - exists 0, t, n. done.
  - apply IH in H as (i & t' & j & Ht & Hj & E). exists (S i), t', j. split_and!; [done..|].
    change (offset (t :: tasks) (S i)) with (length (task_Actions t ++ flat (take i tasks))).
    rewrite length_app. unfold offset in E. lia.
Qed.

Lemma flat_insert tasks i t j a :
  tasks !! i = Some t → j < length (task_Actions t) →
  flat (<[i := set_Actions (<[j := a]> (task_Actions t)) t]> tasks) = <[offset tasks i + j := a]> (flat tasks).
Proof.
  intros H Hj. assert (i < length tasks) as Hi by (by eapply lookup_lt_Some).
  rewrite insert_take_drop, flat_app by done. change (flat (?x :: ?l)) with (task_Actions x ++ flat l).
  rewrite (flat_split tasks i t H). unfold offset.
  rewrite insert_app_r, insert_app_l by lia. done.
Qed.

Lemma offset_le tasks i j t :
  i < j → tasks !! i = Some t → offset tasks i + length (task_Actions t) ≤ offset tasks j.
Proof.
  intros Hij Ht. unfold offset.
  assert (take j tasks = take i tasks ++ t :: drop (S i) (take j tasks)) as ->.
  { rewrite <-(take_drop_middle (take j tasks) i t) at 1 by (rewrite lookup_take_lt; done).
    by rewrite take_take, Nat.min_l by lia. }
  rewrite flat_app, !length_app. change (flat (t :: ?l)) with (task_Actions t ++ flat l). rewrite length_app. lia.
Qed.

(** ** Progress *)

Definition unfinished : list WorkflowState :=
  [WorkflowStatePending; WorkflowStateRunning; WorkflowStateFailed; WorkflowStateTimeout].

(** Exactly the first [k] actions succeeded, those after action [k] are still
    pending, and the current state is that of action [k], or of action [k - 1]
    while action [k] is pending. *)
Record progress (k : nat) (st : WorkflowStatus) : Prop := {
  pr_ids : NoDup (act_ID <$> flat (st_Tasks st));
  pr_len : k ≤ length (flat (st_Tasks st));
  pr_done i a : flat (st_Tasks st) !! i = Some a → i < k → act_State a = WorkflowStateSuccess;
  pr_todo i a : flat (st_Tasks st) !! i = Some a → k < i → act_State a = WorkflowStatePending;
  pr_now a : flat (st_Tasks st) !! k = Some a → act_State a ∈ unfinished;
  pr_current :
    match st_CurrentState st with
    | None => k = 0 ∧ ∀ a, flat (st_Tasks st) !! 0 = Some a → act_State a = WorkflowStatePending
    | Some cs =>
        (∃ a, flat (st_Tasks st) !! k = Some a ∧ cs_ActionID cs = act_ID a ∧ cs_State cs = act_State a) ∨
        (∃ k' a, k = S k' ∧ flat (st_Tasks st) !! k' = Some a ∧ cs_ActionID cs = act_ID a ∧
           cs_State cs = WorkflowStateSuccess ∧
           ∀ a', flat (st_Tasks st) !! k = Some a' → act_State a' = WorkflowStatePending)
    end;
}.

Lemma unfinished_not_success s : s ∈ unfinished → s ≠ WorkflowStateSuccess.
Proof. intros H ->. unfold unfinished in H. set_solver. Qed.

Section progress_lemmas.
Context (k : nat) (st : WorkflowStatus) (P : progress k st).
Local Notation f := (flat (st_Tasks st)).

Lemma progress_inj i j a b : f !! i = Some a → f !! j = Some b → act_ID a = act_ID b → i = j.
Proof.
  intros Hi Hj E. eapply (NoDup_lookup (act_ID <$> f)); [apply (pr_ids _ _ P)|..];
    rewrite list_lookup_fmap; [rewrite Hi|rewrite Hj]; simpl; [done|congruence].
Qed.

(** Only the actions before [k] succeeded. *)
Lemma progress_success i a : f !! i = Some a → act_State a = WorkflowStateSuccess ↔ i < k.
Proof.
  intros Hi. split; [|by apply (pr_done _ _ P)]. intros Hs.
  destruct (lt_eq_lt_dec i k) as [[?| ->]|?]; [done| |].
  - by apply (pr_now _ _ P), unfinished_not_success in Hi.
  - eapply (pr_todo _ _ P) in Hi; [|done]. by rewrite Hi in Hs.
Qed.

(** A task whose last action succeeded is behind [k]. *)
Lemma progress_task_behind i t :
  st_Tasks st !! i = Some t → isTaskSuccessful t = true → offset (st_Tasks st) i + length (task_Actions t) ≤ k
    ∨ task_Actions t = [].
Proof.
  intros Ht. unfold isTaskSuccessful. destruct (last (task_Actions t)) as [a|] eqn:El.
  - intros Hs%bool_decide_eq_true. left. rewrite last_lookup in El.
    assert (pred (length (task_Actions t)) < length (task_Actions t)) as Hlt by (by eapply lookup_lt_Some).
    rewrite <-(flat_lookup _ _ _ _ Ht Hlt) in El. apply progress_success in El. apply El in Hs. lia.
  - intros _. right. by apply last_None.
Qed.

Lemma progress_task_ahead i t :
  st_Tasks st !! i = Some t → isTaskSuccessful t = false → k < offset (st_Tasks st) i + length (task_Actions t).
Proof.
  intros Ht. unfold isTaskSuccessful. destruct (last (task_Actions t)) as [a|] eqn:El; [|done].
  intros Hs%bool_decide_eq_false. rewrite last_lookup in El.
  assert (pred (length (task_Actions t)) < length (task_Actions t)) as Hlt by (by eapply lookup_lt_Some).
  rewrite <-(flat_lookup _ _ _ _ Ht Hlt) in El. apply progress_success in El. rewrite El in Hs. lia.
Qed.

(** The task with work left is the one that holds action [k]. *)
Lemma progress_task i t :
  list_find (λ t, isTaskSuccessful t = false) (st_Tasks st) = Some (i, t) →
  st_Tasks st !! i = Some t ∧ offset (st_Tasks st) i ≤ k < offset (st_Tasks st) i + length (task_Actions t).
Proof.
  intros (Ht & Hs & Hmin)%list_find_Some. split; [done|].
  split; [|by apply progress_task_ahead]. destruct (decide (offset (st_Tasks st) i ≤ k)) as [|Hlt]; [done|].
  assert (offset (st_Tasks st) i ≤ length f) as Hof.
  { unfold offset. rewrite <-(take_drop i (st_Tasks st)) at 2. rewrite flat_app, length_app. lia. }
  destruct (f !! k) as [a|] eqn:Hk; [|apply lookup_ge_None in Hk; lia].
  apply flat_lookup_inv in Hk as (i' & t' & j & Ht' & Hj & E).
  assert (i' < i) as Hi.
  { destruct (decide (i' < i)) as [|Hge]; [done|].
    destruct (decide (i' = i)) as [->|]; [lia|].
    pose proof (offset_le (st_Tasks st) i i' t ltac:(lia) Ht). lia. }
  assert (isTaskSuccessful t' = true) as Hs' by (destruct (isTaskSuccessful t') eqn:E'; [done|by destruct (Hmin i' t')]).
  apply lookup_lt_Some in Hj.
  destruct (progress_task_behind i' t' Ht' Hs') as [H|H]; [lia|rewrite H in Hj; simpl in Hj; lia].
Qed.

Lemma isFirstAction_spec t :
  isFirstAction t = true ↔ ∃ a l, task_Actions t = a :: l ∧ act_State a = WorkflowStatePending.
Proof. unfold isFirstAction. destruct (task_Actions t); rewrite ?bool_decide_eq_true; naive_solver. Qed.

(** Inside that task, [resolveAction] designates action [k]. *)
Lemma progress_resolve i t a :
  st_Tasks st !! i = Some t → offset (st_Tasks st) i ≤ k < offset (st_Tasks st) i + length (task_Actions t) →
  resolveAction t (st_CurrentState st) = inr a → f !! k = Some a.
Proof.
  intros Ht [Ho Hk]. set (o := offset (st_Tasks st) i) in *. unfold resolveAction.
  destruct (isFirstAction t) eqn:Hf.
  { apply isFirstAction_spec in Hf as (a0 & l & E & Hp). rewrite E. intros [= <-].
    assert (f !! o = Some a0) as Ho0.
    { pose proof (flat_lookup _ _ _ 0 Ht ltac:(rewrite E; simpl; lia)) as H.
      fold o in H. rewrite Nat.add_0_r, E in H. done. }
    destruct (decide (o = k)) as [<-|]; [done|].
    eapply (pr_done _ _ P) in Ho0; [by rewrite Hp in Ho0|lia]. }
  assert (∀ idx x, task_Actions t !! idx = Some x → f !! (o + idx) = Some x) as Hin.
  { intros idx x Hx. unfold o. rewrite (flat_lookup _ _ t) by (done || by eapply lookup_lt_Some). done. }
  pose proof (pr_current _ _ P) as Hc. destruct (st_CurrentState st) as [cs|]; [|done].
  destruct (decide (cs_State cs = WorkflowStateRunning ∨ cs_State cs = WorkflowStatePending)) as [Hs|Hs].
  - destruct (list_find _ _) as [[idx x]|] eqn:El; [|done]. intros [= <-].
    apply list_find_Some in El as (Hx & Hid & _). apply Hin in Hx.
    destruct Hc as [(b & Hb & Hbid & _)|(k' & b & _ & _ & _ & Hsu & _)].
    + rewrite <-(progress_inj _ _ _ _ Hx Hb); [done|congruence].
    + exfalso. rewrite Hsu in Hs. by destruct Hs.
  - destruct (decide (cs_State cs ≠ WorkflowStateSuccess)) as [|Hsu]; [done|].
    destruct Hc as [(b & Hb & _ & Hst)|(k' & b & Ek & Hb & Hbid & _ & Hnext)].
    { exfalso. apply (pr_now _ _ P), unfinished_not_success in Hb. apply Hsu. congruence. }
    destruct (list_find _ _) as [[idx x]|] eqn:El; [|done].
    apply list_find_Some in El as (Hx & Hid & _). apply Hin in Hx.
    assert (o + idx = k') as Ei by (apply (progress_inj _ _ x b); [done..|congruence]).
    destruct (task_Actions t !! S idx) as [y|] eqn:Hy; [|done]. intros [= <-].
    apply Hin in Hy. replace k with (o + S idx) by lia. done.
Qed.

(** What the server serves is action [k]. *)
Lemma progress_select agentID t a :
  select_action agentID (select_task (st_Tasks st)).2 (st_CurrentState st) = inr (t, a) →
  f !! k = Some a ∧ ∃ i, st_Tasks st !! i = Some t ∧ task_AgentID t = agentID ∧
    offset (st_Tasks st) i ≤ k < offset (st_Tasks st) i + length (task_Actions t).
Proof.
  intros (Et & _ & Hag & Hr)%select_action_inv.
  assert (∃ i, st_Tasks st !! i = Some t ∧
    offset (st_Tasks st) i ≤ k < offset (st_Tasks st) i + length (task_Actions t)) as (i & Ht & Ho).
  { unfold select_task in Et. destruct (st_Tasks st) as [|t0 ts] eqn:Ets; [done|].
    destruct (isFirstAction t0) eqn:Hf.
    - simplify_eq/=. exists 0. split; [done|]. apply isFirstAction_spec in Hf as (a0 & l & E & Hp).
      assert (flat (st_Tasks st) !! 0 = Some a0) as H0 by (rewrite Ets; simpl; by rewrite E).
      unfold offset; simpl. split; [lia|]. rewrite E. simpl.
      destruct (decide (k = 0)) as [->|]; [lia|]. eapply (pr_done _ _ P) in H0; [by rewrite Hp in H0|lia].
    - cbn [snd] in Et. rewrite <-Ets in *. clear Ets Hf.
      destruct (list_find _ (st_Tasks st)) as [[i t']|] eqn:El; simplify_eq/=. exists i. by apply progress_task. }
  split; [by eapply progress_resolve|eauto].
Qed.
End progress_lemmas.

(** ** Steps *)

(** Reports an agent that keeps to the protocol makes: running for the action
    it was last served, then its end; and any report again, when the answer to
    the first was lost. *)
Definition follows (req : ActionStatusRequest) (st : WorkflowStatus) : Prop :=
  sr_ActionState req ∈ [ST_RUNNING; ST_SUCCESS; ST_FAILED; ST_TIMEOUT] ∧
  ∃ cs, st_CurrentState st = Some cs ∧ cs_ActionID cs = sr_ActionId req ∧
    ((sr_ActionState req = ST_RUNNING ∧ cs_State cs = WorkflowStatePending) ∨
     cs_State cs = WorkflowStateRunning ∨
     cs_State cs = StateType_String (sr_ActionState req)).

Inductive step (o : Workflow) : Workflow → Prop :=
| step_get auto req r o' : doGetAction_noauto auto req o = (Some (inr r), o') → step o o'
| step_report req o' :
    follows req (wf_Status o) → doReportActionStatus req o = (Some (inr tt), o') → step o o'
| step_controller u : good_patch o u → step o u.

(** A workflow as the controller first offers it. *)
Definition fresh (st : WorkflowStatus) : Prop :=
  NoDup (act_ID <$> flat (st_Tasks st)) ∧
  Forall (λ a, act_State a = WorkflowStatePending) (flat (st_Tasks st)) ∧
  st_CurrentState st = None ∧
  (st_State st = WorkflowStatePreparing ∨ st_State st = WorkflowStatePending).

Definition states : list WorkflowState :=
  [WorkflowStatePreparing; WorkflowStatePending; WorkflowStateRunning; WorkflowStatePost;
   WorkflowStateSuccess; WorkflowStateFailed; WorkflowStateTimeout].

(** The invariant: progress, and the overall state is POST or SUCCESS only at
    the end. *)
Definition inv (o : Workflow) : Prop :=
  ∃ k, progress k (wf_Status o) ∧ st_State (wf_Status o) ∈ states ∧
    (st_State (wf_Status o) ∈ [WorkflowStatePost; WorkflowStateSuccess] →
       k = length (flat (st_Tasks (wf_Status o))) ∧
       cs_State <$> st_CurrentState (wf_Status o) = Some WorkflowStateSuccess).

Lemma fresh_inv o : fresh (wf_Status o) → inv o.
Proof.
  intros (Hid & Hp & Hc & Hs). rewrite Forall_lookup in Hp. exists 0. split; [|split].
  - split; [done|lia|..].
    + intros i a _ Hi. lia.
    + intros i a Hi _. eauto.
    + intros a Ha. rewrite (Hp _ _ Ha). unfold unfinished. set_solver.
    + rewrite Hc. split; [done|]. eauto.
  - unfold states. destruct Hs as [-> | ->]; set_solver.
  - destruct Hs as [-> | ->]; set_solver.
Qed.

(** Progress is a matter of tasks and current state. *)
Lemma progress_same_work k st st' : same_work st st' → progress k st → progress k st'.
Proof. intros [Ht Hc] []. split; rewrite ?Ht, ?Hc; auto. Qed.

Lemma progress_set_state k st a t agentID :
  progress k st → flat (st_Tasks st) !! k = Some a →
  progress k (set_CurrentState (Some (serving_state agentID t a)) st).
Proof. intros [] Ha. split; simpl; eauto 10. Qed.

(** The server on the cell, when it serves. *)
Lemma cell_get auto req o r o' :
  doGetAction_noauto auto req o = (Some (inr r), o') →
  ∃ t a, select_action (areq_AgentId req) (select_task (st_Tasks (wf_Status o))).2
           (st_CurrentState (wf_Status o)) = inr (t, a) ∧
    (st_State (wf_Status o) = WorkflowStatePending ∨ st_State (wf_Status o) = WorkflowStateRunning) ∧
    o' = upd_Status (set_CurrentState (Some (serving_state (areq_AgentId req) t a))) o ∧
    r = response (areq_AgentId req) o t a ∧ st_AgentID (wf_Status o) = areq_AgentId req.
Proof.
  unfold doGetAction_noauto, doGetAction_with. cbn [b_Done b_ListWorkflows Cell_backend].
  case_decide as Ha; [done|]. cbn [auto_Discovery auto_Enrollment no_auto].
  cbn [wfl_ByAgentID]. case_decide as Hag; [|done]. unfold serve.
  destruct (find_workflow [o]) as [|[wf|]] eqn:Ef; [done| |done].
  apply find_workflow_Some in Ef as (Hin & _ & Hs). apply list_elem_of_singleton in Hin as ->.
  destruct (select_task _) as [first task]. cbn [snd].
  assert (∀ h n x (w : Workflow), resolveAndAnnotateHardware None h n x w = w) as Hann
    by (intros h n [x|] w; simpl; [by case_decide|done]).
  assert ((if first then resolveAndAnnotateHardware None (spec_HardwareRef (wf_Spec o)) (wf_Namespace o)
    (convert (areq_AgentAttributes req)) o else o) = o) as -> by (destruct first; [apply Hann|done]).
  destruct (select_action _ _ _) as [|[t a]]; [done|]. cbn [b_UpdateWorkflowStatus Cell_backend].
  rewrite decide_True by done. intros [= <- <-]. exists t, a. destruct Hag as [_ Hag]. done.
Qed.

Lemma cell_report req o o' :
  doReportActionStatus req o = (Some (inr tt), o') →
  ∃ ti t ai a, concerns req (st_Tasks (wf_Status o)) ti ai t a ∧
    o' = upd_Status (report_status req ti t ai a) o.
Proof.
  unfold doReportActionStatus. repeat (case_decide; [done|]).
  destruct (Cut _ _) as [[ns name] ?]. cbn [b_ReadWorkflow Cell_backend]. case_decide; [|done].
  destruct (find_reported _ _) as [[[[ti t] ai] a]|] eqn:Ef; [|done].
  cbn [b_UpdateWorkflowStatus Cell_backend]. rewrite decide_True by done. intros [= <-].
  apply find_reported_Some in Ef. eauto 10.
Qed.

(** ** Reports keep the invariant *)

Section report.
Context (req : ActionStatusRequest) (st : WorkflowStatus) (k ti ai : nat) (t : Task) (a : Action).
Hypothesis P : progress k st.
Hypothesis C : concerns req (st_Tasks st) ti ai t a.
Local Notation f := (flat (st_Tasks st)).
Local Notation p := (offset (st_Tasks st) ti + ai).
Local Notation st' := (report_status req ti t ai a st).

Lemma concerns_flat : f !! p = Some a ∧ act_ID a = sr_ActionId req ∧ ai < length (task_Actions t).
Proof.
  destruct C as (Ht & _ & Ha & _). apply list_find_Some in Ha as (Ha & Hid & _).
  assert (ai < length (task_Actions t)) as Hl by (by eapply lookup_lt_Some).
  by rewrite (flat_lookup _ _ t).
Qed.

Lemma report_flat : flat (st_Tasks st') = <[p := set_report req a]> f.
Proof.
  destruct C as (Ht & _). rewrite report_status_tasks. apply flat_insert; [done|]. apply concerns_flat.
Qed.

Lemma report_lookup i x :
  flat (st_Tasks st') !! i = Some x → (i = p ∧ x = set_report req a) ∨ (i ≠ p ∧ f !! i = Some x).
Proof. rewrite report_flat. intros [(<- & <- & _)|[? ?]]%list_lookup_insert_Some; auto. Qed.

Lemma report_lookup_eq : flat (st_Tasks st') !! p = Some (set_report req a).
Proof.
  rewrite report_flat. apply list_lookup_insert_eq. destruct concerns_flat as [H _]. by eapply lookup_lt_Some.
Qed.

Lemma report_ids : act_ID <$> flat (st_Tasks st') = act_ID <$> f.
Proof.
  rewrite report_flat, list_fmap_insert. apply list_insert_id. rewrite list_lookup_fmap.
  destruct concerns_flat as [-> _]. done.
Qed.

(** Action [k] is reported and does not end well, or has not ended. *)
Lemma report_progress_same :
  p = k → StateType_String (sr_ActionState req) ∈ unfinished → progress k st'.
Proof.
  intros Hp Hs. destruct P as [Pi Pl Pd Pt Pn Pc]. split.
  - by rewrite report_ids.
  - by rewrite report_flat, length_insert.
  - intros i x [[-> ->]|[_ Hi]]%report_lookup Hlt; [lia|eauto].
  - intros i x [[-> ->]|[_ Hi]]%report_lookup Hlt; [lia|eauto].
  - intros x [[_ ->]|[? _]]%report_lookup; [done|lia].
  - rewrite report_status_CurrentState. left. exists (set_report req a). simpl.
    split_and!; [rewrite <-Hp; apply report_lookup_eq| |done].
    destruct concerns_flat as (_ & -> & _). done.
Qed.

(** Action [k] succeeded. *)
Lemma report_progress_next : p = k → sr_ActionState req = ST_SUCCESS → progress (S k) st'.
Proof.
  intros Hp Hs. destruct P as [Pi Pl Pd Pt Pn Pc]. destruct concerns_flat as (Ha & Hid & _). split.
  - by rewrite report_ids.
  - rewrite report_flat, length_insert. rewrite Hp in Ha. apply lookup_lt_Some in Ha. lia.
  - intros i x [[-> ->]|[? Hi]]%report_lookup Hlt; [simpl; by rewrite Hs|]. eapply Pd; [done|lia].
  - intros i x [[-> ->]|[? Hi]]%report_lookup Hlt; [lia|]. eapply Pt; [done|lia].
  - intros x [[? _]|[_ Hi]]%report_lookup; [lia|]. rewrite (Pt _ _ Hi) by lia. unfold unfinished. set_solver.
  - rewrite report_status_CurrentState. right. exists k, (set_report req a). simpl.
    split_and!; [done|rewrite <-Hp; apply report_lookup_eq|done|by rewrite Hs|].
    intros x [[? _]|[_ Hi]]%report_lookup; [lia|]. eapply Pt; [done|lia].
Qed.

(** The success of action [k - 1] is reported again. *)
Lemma report_progress_again k' :
  p = k' → k = S k' → sr_ActionState req = ST_SUCCESS →
  (∀ x, f !! k = Some x → act_State x = WorkflowStatePending) → progress k st'.
Proof.
  intros Hp Hk Hs Hnext. destruct P as [Pi Pl Pd Pt Pn Pc]. destruct concerns_flat as (Ha & Hid & _). split.
  - by rewrite report_ids.
  - by rewrite report_flat, length_insert.
  - intros i x [[-> ->]|[? Hi]]%report_lookup Hlt; [simpl; by rewrite Hs|]. by eapply Pd.
  - intros i x [[-> ->]|[? Hi]]%report_lookup Hlt; [lia|]. by eapply Pt.
  - intros x [[? _]|[_ Hi]]%report_lookup; [lia|]. by apply Pn.
  - rewrite report_status_CurrentState. right. exists k', (set_report req a). simpl.
    split_and!; [done|rewrite <-Hp; apply report_lookup_eq|done|by rewrite Hs|].
    intros x [[? _]|[_ Hi]]%report_lookup; [lia|]. by apply Hnext.
Qed.

Lemma report_last :
  length (st_Tasks st) = ti + 1 → length (task_Actions t) = ai + 1 → S p = length f.
Proof.
  intros Ht Ha. destruct C as (Hti & _). rewrite (flat_split _ _ _ Hti), !length_app.
  rewrite drop_ge by lia. simpl. unfold offset. lia.
Qed.
End report.

Lemma report_inv req o ti ai t a :
  inv o → follows req (wf_Status o) → concerns req (st_Tasks (wf_Status o)) ti ai t a →
  inv (upd_Status (report_status req ti t ai a) o).
Proof.
  intros (k & P & Hst & Hend) (Hin & cs & Hcs & Hid & Hmay) C. unfold inv. cbn [wf_Status upd_Status].
  set (st := wf_Status o) in *. set (p := offset (st_Tasks st) ti + ai).
  destruct (concerns_flat req st ti ai t a C) as (Ha & Haid & _). fold p in Ha.
  assert (∀ j b, flat (st_Tasks st) !! j = Some b → cs_ActionID cs = act_ID b → p = j) as Hpos
    by (intros j b Hj Hb; eapply (progress_inj k st P); [exact Ha|exact Hj|congruence]).
  assert (length (flat (st_Tasks (report_status req ti t ai a st))) = length (flat (st_Tasks st))) as Hlen
    by (by rewrite report_flat, length_insert).
  pose proof (pr_current _ _ P) as Hc. rewrite Hcs in Hc.
  rewrite report_status_CurrentState, report_status_State, Hlen. cbn [fmap option_fmap option_map cs_State].
  destruct (decide (sr_ActionState req = ST_SUCCESS)) as [Hsu|Hsu].
  - rewrite (decide_False (P := sr_ActionState req ≠ ST_SUCCESS)) by tauto. rewrite Hsu. cbn [StateType_String].
    assert (∃ k', progress k' (report_status req ti t ai a st) ∧ k' = S p ∧ (k' = k ∨ k = p)) as (k' & P' & Hk' & Hkk).
    { destruct Hc as [(b & Hb & Hbid & Hbs)|(k' & b & -> & Hb & Hbid & Hbs & Hnext)]; specialize (Hpos _ _ Hb Hbid).
      - exists (S k). split_and!; [by apply report_progress_next|lia|lia].
      - exists (S k'). split_and!; [by eapply report_progress_again|lia|lia]. }
    exists k'. split; [done|]. split; [case_decide; [by_decide|done]|].
    case_decide as Hl; [intros _; split; [rewrite Hk'; by eapply report_last; [exact C|..]; destruct Hl as (? & ?)|done]|].
    intros Hx. destruct (Hend Hx) as [Hk _]. split; [|done].
    apply lookup_lt_Some in Ha. lia.
  - rewrite (decide_True (P := sr_ActionState req ≠ ST_SUCCESS)) by done.
    assert (StateType_String (sr_ActionState req) ∈ unfinished ∧ StateType_String (sr_ActionState req) ∈ states ∧
      StateType_String (sr_ActionState req) ≠ WorkflowStatePost ∧
      StateType_String (sr_ActionState req) ≠ WorkflowStateSuccess) as (Hu & Hs & Hn1 & Hn2).
    { unfold unfinished, states. rewrite !elem_of_cons in Hin.
      destruct Hin as [E|[E|[E|[E|[]%elem_of_nil]]]]; rewrite E in *; split_and!; done || by_decide. }
    exists k. split; [|split; [done|set_solver]]. apply report_progress_same; [done..| |done].
    destruct Hc as [(b & Hb & Hbid & Hbs)|(k' & b & -> & Hb & Hbid & Hbs & Hnext)]; [by eapply Hpos|].
    exfalso. rewrite Hbs in Hmay. destruct Hmay as [[_ H]|[H|H]]; [done..|congruence].
Qed.

Lemma step_inv o o' : inv o → step o o' → inv o'.
Proof.
  intros Hinv Hstep. destruct Hstep as [auto req r o' H|req o' Hf H|u (Hm & Hsp & Hal)].
  - apply cell_get in H as (t & a & Hsel & Hs & -> & _). destruct Hinv as (k & P & Hst & Hend).
    apply (progress_select k _ P) in Hsel as (Ha & _).
    exists k. split; [by apply progress_set_state|]. split; [done|]. simpl. intros Hx.
    destruct Hs as [Hs|Hs]; rewrite Hs in Hx; set_solver.
  - apply cell_report in H as (ti & t & ai & a & C & ->). by apply report_inv.
  - destruct Hinv as (k & P & Hst & Hend). exists k. unfold states in *.
    destruct Hal as [(E & _)|[(E & Hs & Hw)|[(E & Hs & Hw)|[(E & Hs & Hw)|(E & _)]]]].
    + rewrite E in Hst. set_solver.
    + split; [by eapply progress_same_work|]. unfold prepare_states in Hs.
      destruct Hs as [-> |[-> | ->]]; split; set_solver.
    + split; [by eapply progress_same_work|]. destruct Hs as [-> | ->]; split; set_solver.
    + split; [by eapply progress_same_work|]. destruct (Hend ltac:(rewrite E; set_solver)) as [Hk Hc].
      destruct Hw as [Hwt Hwc]. rewrite Hwt, Hwc.
      destruct Hs as [-> |[-> |Hs]]; [split; set_solver..|].
      rewrite Hc in Hs. injection Hs as <-. split; set_solver.
    + rewrite E in Hst. unfold STATE_PENDING in *. set_solver.
Qed.


(** ** Cooperating agents *)

(** The agent [id] on the cell: it reads and reports through the server's
    handlers, and its executions succeed, at [start] and [stop]. *)
Definition cell_agent (id : string) (start : Z) : AgentEnv Workflow := {|
  ae_Wait _ o := (false, o);
  ae_Read o :=
    match doGetAction plain (read_request id None) o with
    | (None, o) => (inl (ErrGrpc Unavailable "connection lost"), o)
    | (Some answer, o) => (read_answer answer, o)
    end;
  ae_Write e o :=
    match doReportActionStatus (write_request e) o with
    | (None, o) => (Some (ErrGrpc Unavailable "connection lost"), o)
    | (Some (inl err), o) => (write_answer (Some err), o)
    | (Some (inr _), o) => (write_answer None, o)
    end;
  ae_Execute _ o := (None, o);
  ae_Now o := (start, o);
  ae_Retry op o := op o;
|}.

(** One turn of the agent the workflow is bound to, then the controller's
    rebinding. *)
Definition round (start : Z) (o : Workflow) : option Workflow :=
  match iteration (AE := cell_agent (st_AgentID (wf_Status o)) start) None o with
  | (Some None, o') => Some (updateAgentIDIfNeeded o').2
  | _ => None
  end.

Fixpoint rounds (n : nat) (start : Z) (o : Workflow) : option Workflow :=
  match n with
  | O => Some o
  | S n => o' ← round start o; rounds n start o'
  end.

(** What the rendering of a template guarantees of tasks, and that none is
    empty. *)
Definition task_ok (t : Task) : Prop :=
  task_Actions t ≠ [] ∧ task_ID t ≠ "" ∧ task_AgentID t ≠ "" ∧ Forall (λ a, act_ID a ≠ "") (task_Actions t).

Definition tasks_ok (tasks : list Task) : Prop := Forall task_ok tasks ∧ NoDup (task_ID <$> tasks).

(** Action [k] is next: it and all after it are pending, and the workflow is
    bound to the agent of its task. *)
Record ready (k : nat) (o : Workflow) : Prop := {
  rd_progress : progress k (wf_Status o);
  rd_pending a : flat (st_Tasks (wf_Status o)) !! k = Some a → act_State a = WorkflowStatePending;
  rd_current cs : st_CurrentState (wf_Status o) = Some cs → cs_State cs = WorkflowStateSuccess;
  rd_state : st_State (wf_Status o) = WorkflowStatePending ∨ st_State (wf_Status o) = WorkflowStateRunning;
  rd_tasks : tasks_ok (st_Tasks (wf_Status o));
  rd_ns : "/"%char ∉ bytes_of (wf_Namespace o);
  rd_agent i t :
    st_Tasks (wf_Status o) !! i = Some t →
    offset (st_Tasks (wf_Status o)) i ≤ k < offset (st_Tasks (wf_Status o)) i + length (task_Actions t) →
    st_AgentID (wf_Status o) = task_AgentID t;
}.

(** Actions are found by their identifier. *)
Lemma find_reported_at req tasks i t j a :
  NoDup (act_ID <$> flat tasks) → tasks !! i = Some t → task_Actions t !! j = Some a →
  task_AgentID t = sr_AgentId req → act_ID a = sr_ActionId req →
  find_reported req tasks = Some (i, t, j, a).
Proof.
  intros Hnd Ht Ha Hag Hid.
  assert (∀ ti u ai b, tasks !! ti = Some u → task_Actions u !! ai = Some b → act_ID b = act_ID a →
    offset tasks ti + ai = offset tasks i + j) as Huniq.
  { intros ti u ai b Hu Hb E.
    assert (flat tasks !! (offset tasks ti + ai) = Some b) as H1
      by (rewrite (flat_lookup _ _ u) by (done || by eapply lookup_lt_Some); done).
    assert (flat tasks !! (offset tasks i + j) = Some a) as H2
      by (rewrite (flat_lookup _ _ t) by (done || by eapply lookup_lt_Some); done).
    eapply (NoDup_lookup (act_ID <$> flat tasks)); [done|..]; rewrite list_lookup_fmap;
      [rewrite H1|rewrite H2]; simpl; [done|congruence]. }
  destruct (find_reported req tasks) as [[[[ti u] ai] b]|] eqn:Ef.
  - apply find_reported_Some in Ef as (Hu & _ & Hb & _). apply list_find_Some in Hb as (Hb & Hbid & _).
    pose proof (Huniq _ _ _ _ Hu Hb ltac:(congruence)) as E.
    assert (ai < length (task_Actions u)) by (by eapply lookup_lt_Some).
    assert (j < length (task_Actions t)) by (by eapply lookup_lt_Some).
    assert (ti = i) as ->.
    { destruct (lt_eq_lt_dec ti i) as [[Hlt| ->]|Hlt]; [|done|].
      - pose proof (offset_le tasks ti i u Hlt Hu). lia.
      - pose proof (offset_le tasks i ti t Hlt Ht). lia. }
    assert (ai = j) as -> by lia. congruence.
  - exfalso. apply list_elem_of_lookup_2 in Ht as Hin. apply (find_reported_None _ _ Ef) in Hin.
    unfold reported in Hin. rewrite decide_True in Hin by done. apply list_find_None in Hin.
    rewrite Forall_forall in Hin. eapply Hin; [by eapply list_elem_of_lookup_2|done].
Qed.

(** The store accepts a report about an action it holds. *)
Lemma cell_report_ok req o i t j a :
  NoDup (act_ID <$> flat (st_Tasks (wf_Status o))) → "/"%char ∉ bytes_of (wf_Namespace o) →
  st_Tasks (wf_Status o) !! i = Some t → task_Actions t !! j = Some a →
  task_AgentID t = sr_AgentId req → act_ID a = sr_ActionId req →
  sr_TaskId req ≠ "" → sr_ActionId req ≠ "" → sr_WorkflowId req = wf_Namespace o +:+ "/" +:+ wf_Name o →
  doReportActionStatus req o = (Some (inr tt), upd_Status (report_status req i t j a) o) ∧
  concerns req (st_Tasks (wf_Status o)) i j t a.
Proof.
  intros Hnd Hns Ht Ha Hag Hid Hne1 Hne2 Hw.
  pose proof (find_reported_at req _ i t j a Hnd Ht Ha Hag Hid) as Hf.
  split; [|by apply find_reported_Some]. unfold doReportActionStatus. rewrite Hw.
  rewrite decide_False by (intros E%(f_equal strlen); rewrite !strlen_app in E; simpl in E; lia).
  rewrite !decide_False by done. change ("/" +:+ wf_Name o) with (String "/"%char (wf_Name o)).
  rewrite Cut_app by done. cbn [b_ReadWorkflow Cell_backend]. rewrite decide_True by done. rewrite Hf.
  cbn [b_UpdateWorkflowStatus Cell_backend]. by rewrite decide_True.
Qed.

(** An action of task [i], found by its position. *)
Lemma flat_at tasks i t k a :
  tasks !! i = Some t → offset tasks i ≤ k < offset tasks i + length (task_Actions t) →
  flat tasks !! k = Some a → task_Actions t !! (k - offset tasks i) = Some a.
Proof.
  intros Ht Hk Ha. rewrite <-(flat_lookup tasks i t) by (done || lia).
  by replace (offset tasks i + (k - offset tasks i)) with k by lia.
Qed.

Lemma at_flat tasks i t j a :
  tasks !! i = Some t → task_Actions t !! j = Some a → flat tasks !! (offset tasks i + j) = Some a.
Proof. intros Ht Ha. rewrite (flat_lookup _ _ t) by (done || by eapply lookup_lt_Some). done. Qed.

(** The first task that has not succeeded is that of the next action. *)
Lemma progress_open_task k st i t a :
  progress k st → st_Tasks st !! i = Some t →
  offset (st_Tasks st) i ≤ k < offset (st_Tasks st) i + length (task_Actions t) →
  flat (st_Tasks st) !! k = Some a →
  list_find (λ t, isTaskSuccessful t = false) (st_Tasks st) = Some (i, t).
Proof.
  intros P Ht Hk Ha. apply list_find_Some. split_and!; [done| |].
  - destruct (isTaskSuccessful t) eqn:E; [|done].
    destruct (progress_task_behind k st P i t Ht E) as [H|H]; [lia|]. rewrite H in Hk. simpl in Hk. lia.
  - intros j u Hu Hj Hf. pose proof (progress_task_ahead k st P j u Hu Hf).
    pose proof (offset_le _ _ _ _ Hj Hu). lia.
Qed.

(** A first task whose first action is pending has not succeeded. *)
Lemma progress_first_open k st t0 ts :
  progress k st → st_Tasks st = t0 :: ts → isFirstAction t0 = true → isTaskSuccessful t0 = false.
Proof.
  intros P Ets (a0 & l & E & Hp)%isFirstAction_spec. destruct (isTaskSuccessful t0) eqn:Es; [|done].
  destruct (progress_task_behind k st P 0 t0 ltac:(by rewrite Ets) Es) as [H|H]; [|by rewrite E in H].
  assert (flat (st_Tasks st) !! 0 = Some a0) as Hz by (rewrite Ets; simpl; by rewrite E).
  rewrite E in H. simpl in H. eapply (pr_done _ _ P) in Hz; [by rewrite Hp in Hz|lia].
Qed.

(** The server's choice of task, when action [k] is next. *)
Lemma progress_select_task k st i t a :
  progress k st → st_Tasks st !! i = Some t →
  offset (st_Tasks st) i ≤ k < offset (st_Tasks st) i + length (task_Actions t) →
  flat (st_Tasks st) !! k = Some a → (select_task (st_Tasks st)).2 = Some t.
Proof.
  intros P Ht Hk Ha. pose proof (progress_open_task k st i t a P Ht Hk Ha) as Hfind.
  unfold select_task. destruct (st_Tasks st) as [|t0 ts] eqn:Ets; [done|].
  destruct (isFirstAction t0) eqn:Hf; [|by rewrite Hfind].
  simpl in Hfind. rewrite decide_True in Hfind by (by eapply progress_first_open). simpl. congruence.
Qed.

(** The server's choice of action, when action [k] is next. *)
Lemma ready_resolve k o i t a :
  ready k o → st_Tasks (wf_Status o) !! i = Some t →
  offset (st_Tasks (wf_Status o)) i ≤ k < offset (st_Tasks (wf_Status o)) i + length (task_Actions t) →
  flat (st_Tasks (wf_Status o)) !! k = Some a →
  resolveAction t (st_CurrentState (wf_Status o)) = inr a.
Proof.
  intros [P Hpend Hcur _ _ _ _] Ht Hk Ha. set (st := wf_Status o) in *.
  set (off := offset (st_Tasks st) i) in *.
  pose proof (flat_at _ i t k a Ht Hk Ha) as Hka. fold off in Hka.
  unfold resolveAction. destruct (isFirstAction t) eqn:Hf.
  - apply isFirstAction_spec in Hf as (a0 & l & E & Hp). rewrite E.
    pose proof (at_flat _ i t 0 a0 Ht ltac:(by rewrite E)) as H0. rewrite Nat.add_0_r in H0.
    destruct (decide (off = k)) as [Eo|]; [unfold off in Eo; congruence|].
    eapply (pr_done _ _ P) in H0; [by rewrite Hp in H0|unfold off in *; lia].
  - assert (off ≠ k) as Hne.
    { intros Eo. rewrite Eo, Nat.sub_diag in Hka. destruct (task_Actions t) as [|a0 l] eqn:E; [done|].
      simplify_eq/=. enough (isFirstAction t = true) by congruence. apply isFirstAction_spec. eauto. }
    pose proof (pr_current _ _ P) as Hc. destruct (st_CurrentState st) as [cs|]; [|lia].
    pose proof (Hcur cs eq_refl) as Hs.
    rewrite decide_False by (rewrite Hs; intros [?|?]; done). rewrite decide_False by (rewrite Hs; tauto).
    destruct Hc as [(b & Hb & _ & Hst)|(k' & b & Ek & Hb & Hbid & _)].
    { exfalso. apply (pr_now _ _ P), unfinished_not_success in Hb. congruence. }
    assert (list_find (λ x, act_ID x = cs_ActionID cs) (task_Actions t) = Some (k' - off, b)) as ->.
    { apply list_find_Some. split_and!; [apply (flat_at (st_Tasks st)); [done|unfold off in *; lia|done]|done|].
      intros j x Hx Hj E. apply (at_flat (st_Tasks st) i t) in Hx; [|done].
      pose proof (progress_inj _ _ P _ _ _ _ Hx Hb ltac:(congruence)). unfold off in *. lia. }
    replace (S (k' - off)) with (k - off) by lia. by rewrite Hka.
Qed.

Lemma pos_task tasks k i t i' t' :
  tasks !! i = Some t → offset tasks i ≤ k < offset tasks i + length (task_Actions t) →
  tasks !! i' = Some t' → offset tasks i' ≤ k < offset tasks i' + length (task_Actions t') → i = i'.
Proof.
  intros Ht Hk Ht' Hk'. destruct (lt_eq_lt_dec i i') as [[Hlt|?]|Hlt]; [|done|].
  - pose proof (offset_le tasks i i' t Hlt Ht). lia.
  - pose proof (offset_le tasks i' i t' Hlt Ht'). lia.
Qed.

Lemma offset_S tasks i t : tasks !! i = Some t → offset tasks (S i) = offset tasks i + length (task_Actions t).
Proof.
  intros Ht. unfold offset. rewrite (take_S_r _ _ t) by done. rewrite flat_app, length_app.
  change (flat [t]) with (task_Actions t ++ []). rewrite app_nil_r. done.
Qed.

(** When action [k] ends its task, action [k + 1] is in the task after it. *)
Lemma next_task tasks k i t i' u :
  tasks_ok tasks → tasks !! i = Some t → offset tasks i + length (task_Actions t) = S k →
  tasks !! i' = Some u → offset tasks i' ≤ S k < offset tasks i' + length (task_Actions u) → i' = S i.
Proof.
  intros [Hok _] Ht E Hu Hk'.
  assert (is_Some (tasks !! S i)) as [x Hx].
  { apply lookup_lt_is_Some. destruct (decide (S i < length tasks)) as [|Hge]; [done|]. exfalso.
    assert (i' < i ∨ i' = i) as [Hlt| ->] by (apply lookup_lt_Some in Hu; lia).
    - pose proof (offset_le _ _ _ _ Hlt Hu). lia.
    - simplify_eq. lia. }
  symmetry. apply (pos_task tasks (S k) (S i) x i' u Hx); [|done..].
  rewrite (offset_S _ _ t Ht), E. rewrite Forall_lookup in Hok. destruct (Hok _ _ Hx) as [Hne _].
  destruct (task_Actions x); [done|]. simpl. lia.
Qed.

(** A task is found by its identifier. *)
Lemma find_task tasks i t id :
  tasks_ok tasks → tasks !! i = Some t → id = task_ID t → list_find (λ x, task_ID x = id) tasks = Some (i, t).
Proof.
  intros [_ Hnd] Ht ->. apply list_find_Some. split_and!; [done..|]. intros j x Hx Hj E.
  assert (j = i); [|lia]. eapply (NoDup_lookup (task_ID <$> tasks)); [done|..];
    rewrite list_lookup_fmap; [rewrite Hx|rewrite Ht]; simpl; [done|congruence].
Qed.

Section Handoff.

Context (k : nat) (st : WorkflowStatus) (i : nat) (t : Task) (cs : CurrentState).
Context (P : progress (S k) st) (Hok : tasks_ok (st_Tasks st)).
Context (Hcs : st_CurrentState st = Some cs) (Hs : cs_State cs = WorkflowStateSuccess).
Context (Htid : cs_TaskID cs = task_ID t) (Ht : st_Tasks st !! i = Some t).
Context (Hk : offset (st_Tasks st) i ≤ k < offset (st_Tasks st) i + length (task_Actions t)).

(** A rebinding is to the agent of the task of action [k + 1]. *)
Lemma handoff_sound t' i' u :
  handoff st t' →
  st_Tasks st !! i' = Some u → offset (st_Tasks st) i' ≤ S k < offset (st_Tasks st) i' + length (task_Actions u) →
  t' = u.
Proof.
  intros (cs' & i2 & t2 & a & Hcs' & Hf & Hall & Hn & _) Hu Hk'.
  rewrite Hcs in Hcs'. injection Hcs' as <-. rewrite (find_task _ i t) in Hf by done. injection Hf as <- <-.
  destruct (decide (offset (st_Tasks st) i + length (task_Actions t) = S k)) as [E|E].
  - rewrite (next_task _ _ _ _ _ _ Hok Ht E Hu Hk') in Hu. congruence.
  - exfalso. destruct (task_Actions t !! (S k - offset (st_Tasks st) i)) as [x|] eqn:Hx;
      [|apply lookup_ge_None in Hx; lia].
    pose proof (at_flat _ _ _ _ _ Ht Hx) as Hfx.
    rewrite Forall_forall in Hall. specialize (Hall x ltac:(by eapply list_elem_of_lookup_2)).
    apply (progress_success _ _ P _ _ Hfx) in Hall. lia.
Qed.

(** A rebinding is due when action [k + 1] belongs to another agent. *)
Lemma handoff_complete i' u :
  st_AgentID st = task_AgentID t → st_AgentID st ≠ task_AgentID u →
  st_Tasks st !! i' = Some u → offset (st_Tasks st) i' ≤ S k < offset (st_Tasks st) i' + length (task_Actions u) →
  handoff st u.
Proof.
  intros Hag Hne Hu Hk'. assert (i ≠ i') as Hii by congruence.
  assert (offset (st_Tasks st) i + length (task_Actions t) = S k) as E.
  { destruct (decide (offset (st_Tasks st) i + length (task_Actions t) = S k)); [done|]. exfalso. apply Hii.
    apply (pos_task (st_Tasks st) (S k) i t i' u Ht); [lia|done..]. }
  pose proof (next_task _ _ _ _ _ _ Hok Ht E Hu Hk') as ->.
  destruct (task_Actions u) as [|a l] eqn:Ea; [simpl in Hk'; lia|].
  exists cs, i, t, a. rewrite Ea. split_and!; try done.
  - by apply find_task.
  - apply Forall_lookup. intros j x Hx. apply (progress_success _ _ P (offset (st_Tasks st) i + j) x).
    + by apply at_flat with t.
    + apply lookup_lt_Some in Hx. lia.
  - assert (flat (st_Tasks st) !! S k = Some a) as Ha.
    { pose proof (at_flat _ _ _ 0 a Hu ltac:(by rewrite Ea)) as H.
      by rewrite Nat.add_0_r, (offset_S _ _ t Ht), E in H. }
    pose proof (pr_current _ _ P) as Hc. rewrite Hcs in Hc.
    destruct Hc as [(b & Hb & _ & Hst)|(k' & b & _ & _ & _ & _ & Hp)]; [|by apply Hp].
    exfalso. apply (pr_now _ _ P), unfinished_not_success in Hb. congruence.
Qed.

End Handoff.

(** After the success of action [k], the controller binds the workflow to the
    agent of action [k + 1]. *)
Lemma handoff_agent k o i t cs i' u :
  let st := wf_Status o in
  progress (S k) st → tasks_ok (st_Tasks st) →
  st_CurrentState st = Some cs → cs_State cs = WorkflowStateSuccess → cs_TaskID cs = task_ID t →
  st_Tasks st !! i = Some t → offset (st_Tasks st) i ≤ k < offset (st_Tasks st) i + length (task_Actions t) →
  st_AgentID st = task_AgentID t →
  st_Tasks st !! i' = Some u → offset (st_Tasks st) i' ≤ S k < offset (st_Tasks st) i' + length (task_Actions u) →
  st_AgentID (wf_Status (updateAgentIDIfNeeded o).2) = task_AgentID u.
Proof.
  cbv zeta. intros P Hok Hcs Hs Htid Ht Hk Hag Hu Hk'.
  destruct (updateAgentIDIfNeeded_cases o) as [(t' & Hh & ->)|[Hno ->]]; simpl.
  - f_equal. by eapply (handoff_sound k _ i t cs).
  - destruct (decide (st_AgentID (wf_Status o) = task_AgentID u)) as [|Hne]; [done|].
    exfalso. apply (Hno u). by eapply (handoff_complete k _ i t cs).
Qed.

(** ** A round *)

Lemma cell_get_ok o t a :
  let id := st_AgentID (wf_Status o) in
  id ≠ "" → st_Tasks (wf_Status o) ≠ [] →
  st_State (wf_Status o) = WorkflowStatePending ∨ st_State (wf_Status o) = WorkflowStateRunning →
  (select_task (st_Tasks (wf_Status o))).2 = Some t → task_Actions t ≠ [] → task_AgentID t = id →
  resolveAction t (st_CurrentState (wf_Status o)) = inr a →
  doGetAction plain (read_request id None) o =
    (Some (inr (response id o t a)), upd_Status (set_CurrentState (Some (serving_state id t a))) o).
Proof.
  intros id Hid Hts Hs Hsel Hne Hag Hr. unfold doGetAction, doGetAction_with.
  cbn [b_Done Cell_backend areq_AgentId read_request]. rewrite decide_False by done.
  cbn [auto_Discovery plain b_ListWorkflows Cell_backend wfl_ByAgentID]. rewrite decide_True by done.
  unfold serve. assert (find_workflow [o] = inr (Some o)) as ->.
  { cbn [find_workflow]. destruct (st_Tasks (wf_Status o)); [done|].
    destruct Hs as [Hs|Hs]; rewrite Hs; rewrite decide_False by (intros [_ ?]; done);
      rewrite decide_False by (intros [? ?]; done); done. }
  destruct (select_task _) as [first task]. simpl in Hsel. subst task.
  assert ((if first then resolveAndAnnotateHardware None (spec_HardwareRef (wf_Spec o)) (wf_Namespace o)
    (convert (areq_AgentAttributes (read_request id None))) o else o) = o) as -> by (by destruct first).
  unfold select_action. destruct (task_Actions t) eqn:Ea; [done|]. rewrite Hr.
  rewrite decide_False by tauto. cbn [b_UpdateWorkflowStatus Cell_backend]. by rewrite decide_True.
Qed.

(** A report keeps the tasks well formed. *)
Lemma report_tasks_ok req i t j a st :
  st_Tasks st !! i = Some t → task_Actions t !! j = Some a →
  tasks_ok (st_Tasks st) → tasks_ok (st_Tasks (report_status req i t j a st)).
Proof.
  intros Ht Ha [Hok Hnd]. rewrite report_status_tasks. split.
  - apply Forall_insert; [done|]. rewrite Forall_lookup in Hok. destruct (Hok _ _ Ht) as (H1 & H2 & H3 & H4).
    split_and!; simpl; [|done..|].
    + intros E%(f_equal length). rewrite length_insert in E. by destruct (task_Actions t).
    + apply Forall_insert; [done|]. simpl. rewrite Forall_lookup in H4. by eapply H4.
  - rewrite list_fmap_insert. simpl. rewrite list_insert_id; [done|]. by rewrite list_lookup_fmap, Ht.
Qed.

Lemma offset_insert tasks i t t' n :
  tasks !! i = Some t → length (task_Actions t') = length (task_Actions t) →
  offset (<[i := t']> tasks) n = offset tasks n.
Proof.
  intros Ht Hl. unfold offset, flat.
  assert (∀ l : list Task, length (l ≫= task_Actions) = sum_list ((λ x, length (task_Actions x)) <$> l)) as Hsum.
  { induction l as [|x l IH]; csimpl; [done|]. by rewrite length_app, IH. }
  rewrite !Hsum, !fmap_take. f_equal. f_equal. rewrite list_fmap_insert. apply list_insert_id.
  by rewrite list_lookup_fmap, Ht, Hl.
Qed.

(** One turn of the bound agent executes action [k]. *)
Lemma ready_iteration k o start :
  ready k o → k < length (flat (st_Tasks (wf_Status o))) →
  ∃ o3 i t j a req1 req2,
    let st1 := set_CurrentState (Some (serving_state (st_AgentID (wf_Status o)) t a)) (wf_Status o) in
    let st2 := report_status req1 i t j a st1 in
    let t2 := set_Actions (<[j := set_report req1 a]> (task_Actions t)) t in
    let st3 := report_status req2 i t2 j (set_report req1 a) st2 in
    iteration (AE := cell_agent (st_AgentID (wf_Status o)) start) None o = (Some None, o3) ∧
    o3 = mkWorkflow (wf_Meta o) (wf_Spec o) st3 ∧
    st_Tasks (wf_Status o) !! i = Some t ∧ task_Actions t !! j = Some a ∧
    k = offset (st_Tasks (wf_Status o)) i + j ∧
    sr_ActionState req1 = ST_RUNNING ∧ sr_ActionState req2 = ST_SUCCESS ∧ sr_TaskId req2 = task_ID t ∧
    concerns req1 (st_Tasks st1) i j t a ∧ concerns req2 (st_Tasks st2) i j t2 (set_report req1 a).
Proof.
  intros R Hk. pose proof (rd_progress _ _ R) as P.
  destruct (flat (st_Tasks (wf_Status o)) !! k) as [a|] eqn:Ha; [|apply lookup_ge_None in Ha; lia].
  destruct (flat_lookup_inv _ _ _ Ha) as (i & t & j & Ht & Hj & Ek).
  assert (j < length (task_Actions t)) as Hjl by (by eapply lookup_lt_Some).
  assert (offset (st_Tasks (wf_Status o)) i ≤ k < offset (st_Tasks (wf_Status o)) i + length (task_Actions t)) as Hpos by lia.
  pose proof (progress_select_task k _ i t a P Ht Hpos Ha) as Hsel.
  pose proof (ready_resolve k o i t a R Ht Hpos Ha) as Hres.
  pose proof (rd_agent _ _ R i t Ht Hpos) as Hag. pose proof (rd_tasks _ _ R) as Hok.
  assert (task_ok t) as (Hne & Htid & Htag & Haid) by (destruct Hok as [Hok _]; rewrite Forall_lookup in Hok; eauto).
  assert (act_ID a ≠ "") as Haid' by (rewrite Forall_lookup in Haid; eauto).
  set (id := st_AgentID (wf_Status o)) in *. set (r := response id o t a).
  set (o1 := upd_Status (set_CurrentState (Some (serving_state id t a))) o).
  set (sa := action_of_response r).
  set (req1 := write_request (mkEvent sa "running action" StateRunning)).
  set (req2 := write_request (mkEvent (set_times start start (humanDuration (time_Sub start start) 2) sa)
                                "action completed" StateSuccess)).
  destruct (cell_report_ok req1 o1 i t j a) as [Hr1 C1];
    [apply (pr_ids _ _ P)|apply (rd_ns _ _ R)|done..|].
  set (o2 := upd_Status (report_status req1 i t j a) o1) in *.
  set (t2 := set_Actions (<[j := set_report req1 a]> (task_Actions t)) t).
  assert (st_Tasks (wf_Status o2) !! i = Some t2) as Ht2.
  { unfold o2. cbn [wf_Status upd_Status]. rewrite report_status_tasks. apply list_lookup_insert_eq.
    by eapply lookup_lt_Some. }
  assert (task_Actions t2 !! j = Some (set_report req1 a)) as Hj2 by (by apply list_lookup_insert_eq).
  destruct (cell_report_ok req2 o2 i t2 j (set_report req1 a)) as [Hr2 C2];
    [|apply (rd_ns _ _ R)|done..|].
  { unfold o2. cbn [wf_Status upd_Status]. rewrite report_ids by done. apply (pr_ids _ _ P). }
  exists (upd_Status (report_status req2 i t2 j (set_report req1 a)) o2), i, t, j, a, req1, req2.
  cbv zeta. split_and!; try done. unfold iteration. cbn [ae_Wait ae_Read cell_agent].
  assert (doGetAction plain (read_request id None) o = (Some (inr r), o1)) as ->.
  { apply cell_get_ok; [change (id ≠ ""); by rewrite Hag|intros E; by rewrite E in Ht|apply (rd_state _ _ R)|done..]. }
  cbn [read_answer]. fold sa. cbn [ae_Write cell_agent]. fold req1. rewrite Hr1.
  cbn [write_answer status_Code ae_Now cell_agent].
  unfold execute. change (retries_of _) with 1%Z. cbn [execute_loop Z.to_nat Pos.to_nat Pos.iter_op].
  change (Z.to_nat 1) with 1. cbn [execute_loop]. rewrite decide_True by lia.
  cbn [ae_Execute cell_agent ae_Now ae_Retry ae_Write]. fold req2. by rewrite Hr2.
Qed.

(** The last position is that of the last action of the last task. *)
Lemma last_position tasks i t j :
  tasks_ok tasks → tasks !! i = Some t → j < length (task_Actions t) →
  S (offset tasks i + j) = length (flat tasks) ↔ length tasks = i + 1 ∧ length (task_Actions t) = j + 1.
Proof.
  intros [Hok _] Ht Hj. rewrite (flat_split _ _ _ Ht), !length_app. fold (offset tasks i).
  assert (i < length tasks) as Hi by (by eapply lookup_lt_Some).
  split.
  - intros E. assert (flat (drop (S i) tasks) = []) as Hd by (apply length_zero_iff_nil; lia).
    split; [|lia]. destruct (drop (S i) tasks) as [|u us] eqn:Ed.
    + apply (f_equal length) in Ed. rewrite length_drop in Ed. simpl in Ed. lia.
    + exfalso. assert (u ∈ tasks) as Hu by (rewrite <-(take_drop (S i) tasks), Ed; set_solver).
      rewrite Forall_forall in Hok. destruct (Hok u Hu) as [Hne _]. simpl in Hd. by apply app_eq_nil in Hd as [? _].
  - intros [Hl Ha]. rewrite drop_ge by lia. simpl. lia.
Qed.

(** The two reports of a turn: what they leave of a workflow where action [k],
    the [j]-th of task [i], was next. *)
Section TwoReports.

Context (k : nat) (o : Workflow) (R : ready k o).
Context (i j : nat) (t : Task) (a : Action) (req1 req2 : ActionStatusRequest).
Let st := wf_Status o.
Let st1 := set_CurrentState (Some (serving_state (st_AgentID st) t a)) st.
Let st2 := report_status req1 i t j a st1.
Let t2 := set_Actions (<[j := set_report req1 a]> (task_Actions t)) t.
Let st3 := report_status req2 i t2 j (set_report req1 a) st2.
Let t3 := set_Actions (<[j := set_report req2 (set_report req1 a)]> (task_Actions t2)) t2.
Context (Ht : st_Tasks st !! i = Some t) (Hj : task_Actions t !! j = Some a).
Context (Ek : k = offset (st_Tasks st) i + j).
Context (Hs1 : sr_ActionState req1 = ST_RUNNING) (Hs2 : sr_ActionState req2 = ST_SUCCESS).
Context (C1 : concerns req1 (st_Tasks st1) i j t a) (C2 : concerns req2 (st_Tasks st2) i j t2 (set_report req1 a)).

Lemma reports_tasks : st_Tasks st2 = <[i := t2]> (st_Tasks st) ∧ st_Tasks st3 = <[i := t3]> (st_Tasks st2).
Proof using. unfold st3, st2. by rewrite !report_status_tasks. Qed.

Lemma reports_sizes : length (task_Actions t2) = length (task_Actions t) ∧ length (task_Actions t3) = length (task_Actions t).
Proof using. simpl. by rewrite !length_insert. Qed.

Lemma reports_offset : offset (st_Tasks st2) i = offset (st_Tasks st) i ∧ offset (st_Tasks st3) i = offset (st_Tasks st) i.
Proof using Ht C2.
  destruct reports_tasks as [E2 E3], reports_sizes as [L2 L3].
  assert (offset (st_Tasks st2) i = offset (st_Tasks st) i) as H2 by (rewrite E2; by eapply offset_insert).
  split; [done|]. rewrite E3. erewrite offset_insert; [done|by destruct C2|congruence].
Qed.

Lemma reports_at : st_Tasks st3 !! i = Some t3.
Proof using C2.
  destruct reports_tasks as [_ E3]. rewrite E3. apply list_lookup_insert_eq. eapply lookup_lt_Some. by destruct C2.
Qed.

Lemma reports_length : length (flat (st_Tasks st3)) = length (flat (st_Tasks st)).
Proof using C1 C2.
  unfold st3. rewrite report_flat by done. rewrite length_insert. unfold st2.
  rewrite report_flat by done. by rewrite length_insert.
Qed.

Lemma reports_progress : progress (S k) st3.
Proof using R Ht Hj Ek Hs1 Hs2 C1 C2.
  assert (flat (st_Tasks st) !! k = Some a) as Ha by (rewrite Ek; by apply at_flat with t).
  assert (progress k st1) as P1 by (apply progress_set_state; [apply (rd_progress _ _ R)|done]).
  assert (progress k st2) as P2.
  { eapply report_progress_same; [exact P1|exact C1|done|]. rewrite Hs1. unfold unfinished. set_solver. }
  destruct reports_offset as [Ho2 _].
  eapply report_progress_next; [exact P2|exact C2|rewrite Ho2; lia|done].
Qed.

Lemma reports_tasks_ok : tasks_ok (st_Tasks st3).
Proof using R Ht Hj C2.
  apply report_tasks_ok; [by destruct C2|apply list_lookup_insert_eq; by eapply lookup_lt_Some|].
  apply report_tasks_ok; [done..|]. apply (rd_tasks _ _ R).
Qed.

Lemma reports_state :
  st_State st3 = if decide (S k = length (flat (st_Tasks st))) then WorkflowStatePost else WorkflowStateRunning.
Proof using R Ht Hj Ek Hs1 Hs2.
  unfold st3. rewrite report_status_State, decide_False by congruence.
  assert (st_State st2 = WorkflowStateRunning) as ->
    by (unfold st2; rewrite report_status_State, decide_True by congruence; by rewrite Hs1).
  assert (length (st_Tasks st2) = i + 1 ∧ length (task_Actions t2) = j + 1 ↔ S k = length (flat (st_Tasks st))) as Hiff.
  { destruct reports_tasks as [-> _], reports_sizes as [-> _]. rewrite length_insert, Ek. symmetry.
    apply last_position; [apply (rd_tasks _ _ R)|done|by eapply lookup_lt_Some]. }
  repeat case_decide; tauto.
Qed.

Lemma reports_agent : st_AgentID st3 = task_AgentID t.
Proof using R Ht Hj Ek.
  transitivity (st_AgentID st).
  - unfold st3, st2, report_status. repeat case_decide; done.
  - apply (rd_agent _ _ R i); [done|]. fold st. apply lookup_lt_Some in Hj. lia.
Qed.

Lemma reports_current : ∃ cs, st_CurrentState st3 = Some cs ∧ cs_State cs = WorkflowStateSuccess ∧ cs_TaskID cs = sr_TaskId req2.
Proof using Hs2. unfold st3. rewrite report_status_CurrentState. eexists. split_and!; [done| |done]. simpl. by rewrite Hs2. Qed.

(** The next action is still pending. *)
Lemma reports_pending x : flat (st_Tasks st3) !! S k = Some x → act_State x = WorkflowStatePending.
Proof using R Ht Hj Ek Hs1 Hs2 C1 C2.
  intros Hx. pose proof reports_progress as P3. destruct reports_current as (cs & Hcs & Hs & _).
  pose proof (pr_current _ _ P3) as Hc. rewrite Hcs in Hc.
  destruct Hc as [(y & Hy & _ & Hsy)|(k' & y & _ & _ & _ & _ & Hp)]; [|by apply Hp].
  exfalso. apply (pr_now _ _ P3), unfinished_not_success in Hy. congruence.
Qed.

(** With the controller's rebinding, the workflow is ready for its next action. *)
Lemma reports_ready ag :
  sr_TaskId req2 = task_ID t → S k < length (flat (st_Tasks st)) →
  (updateAgentIDIfNeeded (mkWorkflow (wf_Meta o) (wf_Spec o) st3)).2 =
    mkWorkflow (wf_Meta o) (wf_Spec o) (set_AgentID ag st3) →
  ready (S k) (mkWorkflow (wf_Meta o) (wf_Spec o) (set_AgentID ag st3)).
Proof using R Ht Hj Ek Hs1 Hs2 C1 C2.
  intros Htid Hlt Eu. destruct reports_current as (cs & Hcs & Hs & Ht').
  split; cbn [wf_Status st_Tasks st_CurrentState st_State st_AgentID set_AgentID].
  - apply (progress_same_work _ st3); [done|apply reports_progress].
  - apply reports_pending.
  - intros cs' Hcs'. change (st_CurrentState st3 = Some cs') in Hcs'. congruence.
  - right. change (st_State st3 = WorkflowStateRunning). by rewrite reports_state, decide_False by lia.
  - apply reports_tasks_ok.
  - apply (rd_ns _ _ R).
  - intros i' u Hu Hpos. change (st_Tasks st3 !! i' = Some u) in Hu. change (ag = task_AgentID u).
    replace ag with (st_AgentID (wf_Status (updateAgentIDIfNeeded (mkWorkflow (wf_Meta o) (wf_Spec o) st3)).2)) by (by rewrite Eu).
    eapply (handoff_agent k (mkWorkflow (wf_Meta o) (wf_Spec o) st3) i t3); try done.
    + apply reports_progress.
    + apply reports_tasks_ok.
    + by rewrite Ht'.
    + apply reports_at.
    + cbn [wf_Status]. destruct reports_offset as [_ ->], reports_sizes as [_ ->]. apply lookup_lt_Some in Hj. lia.
    + apply reports_agent.
Qed.

End TwoReports.

(** A round executes action [k] and readies the workflow for the next one, or
    ends its execution. *)
Lemma ready_round k o start :
  ready k o → k < length (flat (st_Tasks (wf_Status o))) →
  ∃ o', round start o = Some o' ∧
    wf_Spec o' = wf_Spec o ∧
    length (flat (st_Tasks (wf_Status o'))) = length (flat (st_Tasks (wf_Status o))) ∧
    progress (S k) (wf_Status o') ∧
    (cs_State <$> st_CurrentState (wf_Status o') = Some WorkflowStateSuccess) ∧
    (S k = length (flat (st_Tasks (wf_Status o))) → st_State (wf_Status o') = WorkflowStatePost) ∧
    (S k < length (flat (st_Tasks (wf_Status o))) → ready (S k) o').
Proof.
  intros R Hk. destruct (ready_iteration k o start R Hk) as (o3 & i & t & j & a & req1 & req2 & H).
  cbv zeta in H. destruct H as (Hit & E3 & Ht & Hj & Ek & Hs1 & Hs2 & Htid & C1 & C2).
  exists (updateAgentIDIfNeeded o3).2. unfold round. rewrite Hit. split; [done|].
  destruct (updateAgentIDIfNeeded_frame o3) as (b & ag & Eu). rewrite Eu, E3.
  cbn [snd wf_Status wf_Meta wf_Spec upd_Status]. split_and!; [done|by apply reports_length|..].
  - eapply progress_same_work; [|by eapply (reports_progress k o R i j t a req1 req2)]. done.
  - destruct (reports_current o i j t a req1 req2 Hs2) as (cs & Hcs & Hs & _).
    cbn [st_CurrentState set_AgentID]. rewrite Hcs. simpl. by rewrite Hs.
  - intros E. cbn [st_State set_AgentID]. rewrite (reports_state k o R i j t a req1 req2) by done. by rewrite decide_True.
  - intros Hlt. apply (reports_ready k o R i j t a req1 req2); try done. rewrite <-E3. by rewrite Eu, E3.
Qed.

(** ** Completion *)

Lemma fresh_ready o t ts :
  fresh (wf_Status o) → st_State (wf_Status o) = WorkflowStatePending →
  tasks_ok (st_Tasks (wf_Status o)) → "/"%char ∉ bytes_of (wf_Namespace o) →
  st_Tasks (wf_Status o) = t :: ts → st_AgentID (wf_Status o) = task_AgentID t → ready 0 o.
Proof.
  intros Hf Hs Hok Hns Ets Hag. destruct Hf as (Hid & Hp & Hc & _). rewrite Forall_lookup in Hp. split; try done.
  - split; [done|lia|..].
    + intros i a _ Hi. lia.
    + intros i a Hi _. eauto.
    + intros a Ha. rewrite (Hp _ _ Ha). unfold unfinished. set_solver.
    + rewrite Hc. split; [done|]. eauto.
  - eauto.
  - congruence.
  - by left.
  - intros i u Hu Hpos. assert (0 = i) as <-; [|rewrite Ets in Hu; by simplify_eq/=].
    assert (st_Tasks (wf_Status o) !! 0 = Some t) as H0 by (by rewrite Ets).
    eapply pos_task; [exact H0| |exact Hu|exact Hpos]. destruct Hok as [Hok _]. rewrite Forall_lookup in Hok.
    destruct (Hok 0 t H0) as [Hne _]. unfold offset; simpl. destruct (task_Actions t); [done|]. simpl. lia.
Qed.

Lemma rounds_progress n k o start :
  ready k o → k + n ≤ length (flat (st_Tasks (wf_Status o))) →
  ∃ o', rounds n start o = Some o' ∧ wf_Spec o' = wf_Spec o ∧
    length (flat (st_Tasks (wf_Status o'))) = length (flat (st_Tasks (wf_Status o))) ∧
    progress (k + n) (wf_Status o') ∧
    (n ≠ 0 → k + n = length (flat (st_Tasks (wf_Status o))) →
       st_State (wf_Status o') = WorkflowStatePost ∧
       cs_State <$> st_CurrentState (wf_Status o') = Some WorkflowStateSuccess).
Proof.
  revert k o. induction n as [|n IH]; intros k o R Hn; simpl.
  - exists o. rewrite Nat.add_0_r. split_and!; [done..|apply (rd_progress _ _ R)|done].
  - destruct (ready_round k o start R) as (o1 & -> & Hsp & Hl & P1 & Hc & Hend & Hnext); [lia|]. simpl.
    destruct (decide (n = 0)) as [->|Hn0].
    + simpl. exists o1. rewrite Nat.add_1_r in *. split_and!; try done. intros _ E. split; [by apply Hend|done].
    + destruct (IH (S k) o1) as (o' & -> & Hsp' & Hl' & P' & Hend'); [apply Hnext; lia|lia|].
      exists o'. replace (k + S n) with (S k + n) by lia. rewrite Hsp', Hl', Hsp. split_and!; try done.
      intros _ E. apply Hend'; [done|lia].
Qed.


(** A workflow whose last task has no action never finishes. The end of a
    workflow is the success of the last action of its last task; the template
    validation accepts an empty task, so a template can end with one, and then
    no interleaving takes the workflow to POST or SUCCESS. *)
Theorem empty_last_task_never_done o o' ts t :
  fresh (wf_Status o) → st_Tasks (wf_Status o) = ts ++ [t] → task_Actions t = [] →
  rtc step o o' → st_State (wf_Status o') ∉ [WorkflowStatePost; WorkflowStateSuccess].
Proof.
  intros (_ & _ & _ & Hs) Ets Ht Hr.
  set (J := λ o : Workflow, st_State (wf_Status o) ∈ states ∧
    (∃ u, last (st_Tasks (wf_Status o)) = Some u ∧ task_Actions u = []) ∧
    st_State (wf_Status o) ∉ [WorkflowStatePost; WorkflowStateSuccess]).
  enough (J o') as (_ & _ & H) by done.
  assert (J o) as HJ.
  { split_and!; [unfold states; destruct Hs as [-> | ->]; set_solver| |destruct Hs as [-> | ->]; set_solver].
    rewrite Ets, last_snoc. eauto. }
  clear Hs Ets Ht. induction Hr as [|o o1 o' Hstep _ IH]; [done|]. apply IH. clear IH.
  destruct HJ as (Hst & (u & Hu & Hnil) & Hne). unfold states in *.
  destruct Hstep as [auto req r o1 H|req o1 [Hin _] H|o1 (_ & _ & Hal)].
  - apply cell_get in H as (t' & a & _ & _ & -> & _). unfold J. simpl. eauto.
  - apply cell_report in H as (ti & t' & ai & a & C & ->). unfold J. cbn [wf_Status upd_Status].
    destruct (concerns_flat _ _ _ _ _ _ C) as (_ & _ & Hai). destruct C as (Ht' & _).
    assert (ti + 1 ≠ length (st_Tasks (wf_Status o))) as Hlast.
    { intros E. rewrite last_lookup, <-E, Nat.add_1_r in Hu. simpl in Hu. assert (u = t') by congruence. subst.
      rewrite Hnil in Hai. simpl in Hai. lia. }
    assert (ti < length (st_Tasks (wf_Status o))) as Hti by (by eapply lookup_lt_Some).
    rewrite report_status_State, report_status_tasks. split_and!.
    + rewrite !elem_of_cons in Hin. destruct Hin as [E|[E|[E|[E|[]%elem_of_nil]]]]; rewrite E;
        repeat case_decide; naive_solver (set_solver || lia).
    + exists u. split; [|done]. rewrite last_lookup in *. rewrite length_insert, list_lookup_insert_ne by lia. done.
    + rewrite !elem_of_cons in Hin. destruct Hin as [E|[E|[E|[E|[]%elem_of_nil]]]]; rewrite E;
        repeat case_decide; naive_solver (set_solver || lia).
  - unfold allowed, prepare_states, post_states, STATE_PENDING in Hal. unfold J.
    destruct Hal as [(E & _)|[(E & Hs & [-> _])|[(E & Hs & [-> _])|[(E & _)|(E & _)]]]];
      [rewrite E in Hst; set_solver| | |rewrite E in Hne; set_solver|rewrite E in Hst; set_solver].
    + destruct Hs as [-> |[-> | ->]]; split_and!; eauto; set_solver.
    + destruct Hs as [-> | ->]; split_and!; eauto; set_solver.
Qed.
