(* ===== verification/Rufio.v ===== *)
(** * Rufio: jobs and tasks on baseboard management controllers

    rufio/internal/controller: the Job and Task reconcilers (job.go, task.go),
    credentials and power states (kube.go, [retrieveHMACSecrets] of machine.go)
    and the translation of provider options (client.go). The Kubernetes client,
    the clock and the BMC library are the environment [RufioClient]. A
    reconciliation is [None] when it panics. *)
From S2P Require Import Prelude GoStrings BmcTypes Api BmcApi WorkflowJob.

(** The connection options handed to the BMC library. *)
Record BMCOptions := mkBMCOptions {
  bmco_ProviderOptions : option ProviderOptions;
  bmco_rpcSecrets : option (gmap string (list string));
}.

Inductive bmc_command :=
| SetPowerState (state : string)
| SetBootDevice (device : string) (persistent efiBoot : bool)
| SetVirtualMedia (kind url : string).

Class RufioClient (W : Type) := {
  rc_GetJob (name ns : string) : W → res Job * W;
  rc_PatchJobStatus (original updated : Job) : W → option error * W;
  rc_GetMachine (name ns : string) : W → res Machine * W;
  (** the tasks whose controller owner is the Job [owner], in [ns] *)
  rc_ListTasks (owner ns : string) : W → res (list bmc_Task) * W;
  rc_CreateTask : bmc_Task → W → option error * W;
  rc_GetTask (name ns : string) : W → res bmc_Task * W;
  rc_PatchTaskStatus (original updated : bmc_Task) : W → option error * W;
  (** the data of a Secret *)
  rc_GetSecret (name ns : string) : W → res (gmap string string) * W;
  rc_Now : W → Z * W;
  (** [bmcClientFactory]: open a connection *)
  rc_Open (host username password : string) (opts : BMCOptions) : W → option error * W;
  rc_Close : W → W;
  rc_Command : bmc_command → W → bool * option error * W;
  rc_GetPowerState : W → res string * W;
}.

(** ** kube.go *)

Definition toPowerState (state : string) : string :=
  let state := ToLower state in
  if Contains state "on" then On
  else if Contains state "off" then Off
  else PowerUnknown.

Definition key_str (ns name : string) : string := ns +:+ "/" +:+ name.

(** The verb [%s] on a reference, a struct. *)
Definition ref_str (r : SecretReference) : string := "{" +:+ sr_Name r +:+ " " +:+ sr_Namespace r +:+ "}".

(** The names a Task is indexed under: its controlling Job. *)
Definition GetControllerOf (m : ObjectMeta) : option OwnerReference :=
  snd <$> list_find (λ o, or_Controller o = Some true) (om_OwnerReferences m).

Definition TaskOwnerIndexFunc (task : bmc_Task) : list string :=
  match GetControllerOf (bt_Meta task) with
  | None => []
  | Some owner =>
      if decide (or_Kind owner ≠ "Job" ∨ or_APIVersion owner ≠ "bmc.tinkerbell.org/v1alpha1") then []
      else [or_Name owner]
  end.

Section controllers.
Context `{RC : RufioClient W}.

Definition resolveAuthSecretRef (ref : SecretReference) (w : W) : res (string * string) * W :=
  match rc_GetSecret (sr_Name ref) (sr_Namespace ref) w with
  | (inl err, w) =>
      (inl (if IsNotFound err
            then ErrWrap ("secret " +:+ key_str (sr_Namespace ref) (sr_Name ref) +:+ " not found: ") err
            else ErrWrap ("failed to retrieve secret " +:+ ref_str ref +:+ " : ") err), w)
  | (inr data, w) =>
      match data !! "username" with
      | None => (inl (ErrNew "'username' required in Machine secret"), w)
      | Some username =>
          match data !! "password" with
          | None => (inl (ErrNew "'password' required in Machine secret"), w)
          | Some password => (inr (username, password), w)
          end
      end
  end.

(** ** machine.go: HMAC secrets *)

Fixpoint hmac_refs (refs : list SecretReference) (w : W) : res (list string) * W :=
  match refs with
  | [] => (inr [], w)
  | s :: refs' =>
      match rc_GetSecret (sr_Name s) (sr_Namespace s) w with
      | (inl err, w) =>
          (inl (if IsNotFound err
                then ErrWrap ("secret " +:+ key_str (sr_Namespace s) (sr_Name s) +:+ " not found: ") err
                else ErrWrap ("failed to retrieve secret " +:+ ref_str s +:+ " : ") err), w)
      | (inr data, w) =>
          match hmac_refs refs' w with
          | (inl err, w) => (inl err, w)
          | (inr l, w) => (inr (default "" (data !! "secret") :: l), w)
          end
      end
  end.

(** The loops over the map, in the order [range] visits it; an algorithm
    without references gets no entry. *)
Fixpoint hmac_loop (entries : list (string * list SecretReference)) (sec : gmap string (list string)) (w : W)
    : res (gmap string (list string)) * W :=
  match entries with
  | [] => (inr sec, w)
  | (k, refs) :: entries' =>
      match hmac_refs refs w with
      | (inl err, w) => (inl err, w)
      | (inr [], w) => hmac_loop entries' sec w
      | (inr l, w) => hmac_loop entries' (<[k := default [] (sec !! k) ++ l]> sec) w
      end
  end.

(** [map_to_list] stands for one order of [range]; without an error the result
    does not depend on it, the algorithms being distinct. *)
Definition retrieveHMACSecrets (secrets : gmap string (list SecretReference)) (w : W)
    : res (gmap string (list string)) * W :=
  hmac_loop (map_to_list secrets) ∅ w.

(** ** job.go *)

Definition set_StartTime (t : Z) (j : Job) : Job :=
  mkJob (job_Meta j) (job_Spec j)
    (mkbmc_JobStatus (jst_Conditions (job_Status j)) (Some t) (jst_CompletionTime (job_Status j))).
Definition set_CompletionTime (t : Z) (j : Job) : Job :=
  mkJob (job_Meta j) (job_Spec j)
    (mkbmc_JobStatus (jst_Conditions (job_Status j)) (jst_StartTime (job_Status j)) (Some t)).

Definition job_Name (j : Job) : string := om_Name (job_Meta j).
Definition job_Namespace (j : Job) : string := om_Namespace (job_Meta j).
Definition bt_Name (t : bmc_Task) : string := om_Name (bt_Meta t).
Definition bt_Namespace (t : bmc_Task) : string := om_Namespace (bt_Meta t).

Definition getMachine (ref : MachineRef) (w : W) : res Machine * W :=
  match rc_GetMachine (mref_Name ref) (mref_Namespace ref) w with
  | (inr m, w) => (inr m, w)
  | (inl err, w) =>
      let key := key_str (mref_Namespace ref) (mref_Name ref) in
      (inl (if IsNotFound err then ErrWrap ("machine " +:+ key +:+ " not found: ") err
            else ErrWrap ("failed to get Machine " +:+ key +:+ ": ") err), w)
  end.

(** The loop over the tasks of the job: all completed, the first failed one, or
    one still in progress. *)
Inductive scan := ScanDone (completed : nat) | ScanFailed (t : bmc_Task) | ScanBusy.

Fixpoint scan_tasks (completed : nat) (tasks : list bmc_Task) : scan :=
  match tasks with
  | [] => ScanDone completed
  | t :: tasks' =>
      if Task_HasCondition t TaskCompleted ConditionTrue then scan_tasks (S completed) tasks'
      else if Task_HasCondition t TaskFailed ConditionTrue then ScanFailed t
      else ScanBusy
  end.

Definition task_for (job : Job) (index : nat) (action : bmc_Action) (conn : Connection) : bmc_Task :=
  let m := job_Meta job in
  mkbmc_Task
    (mkObjectMeta "" "" (FormatTaskName job index) (om_Namespace m) "" {[ "owner-name" := om_Name m ]} ∅
       [mkOwnerReference (om_APIVersion m) (om_Kind m) (om_Name m) (om_UID m) (Some true)] None)
    (mkTaskSpec action conn) zero_TaskStatus.

(** [None]: the index is out of range. *)
Definition createTaskWithOwner (job : Job) (index : nat) (conn : Connection) (w : W)
    : option (option error * W) :=
  match jspec_Tasks (job_Spec job) !! index with
  | None => None
  | Some action =>
      let task := task_for job index action conn in
      Some (match rc_CreateTask task w with
            | (Some err, w) =>
                (Some (ErrWrap ("failed to create Task " +:+ key_str (bt_Namespace task) (bt_Name task) +:+ ": ") err), w)
            | (None, w) => (None, w)
            end)
  end.

Definition Job_patchStatus (original updated : Job) (w : W) : option error * W :=
  match rc_PatchJobStatus original updated w with
  | (Some err, w) =>
      (Some (ErrWrap ("failed to patch Job " +:+ key_str (job_Namespace updated) (job_Name updated) +:+ " status: ") err), w)
  | (None, w) => (None, w)
  end.

(** Record a failure: the patch error, if any, comes first. *)
Definition fail_job (original job : Job) (err : error) (w : W) : Result * option error * W :=
  let job := Job_SetCondition JobFailed ConditionTrue [WithJobConditionMessage (error_msg err)] job in
  match Job_patchStatus original job w with
  | (Some perr, w) => (zero_Result, Some (ErrJoin perr err), w)
  | (None, w) => (zero_Result, Some err, w)
  end.

Definition Job_doReconcile (original : Job) (w : W) : option (Result * option error) * W :=
  let '(job, w) :=
    if Job_HasCondition original JobRunning ConditionTrue then (original, w)
    else
      let '(now, w) := rc_Now w in
      (Job_SetCondition JobRunning ConditionTrue [] (set_StartTime now original), w) in
  match getMachine (jspec_MachineRef (job_Spec job)) w with
  | (inl err, w) =>
      (Some (zero_Result, Some (ErrWrap ("get Job " +:+ key_str (job_Namespace job) (job_Name job)
                                         +:+ " MachineRef: ") err)), w)
  | (inr machine, w) =>
      match rc_ListTasks (job_Name job) (job_Namespace job) w with
      | (inl err, w) =>
          (Some (zero_Result, Some (ErrWrap ("failed to list owned Tasks for Job "
                                             +:+ key_str (job_Namespace job) (job_Name job) +:+ ": ") err)), w)
      | (inr tasks, w) =>
          match scan_tasks 0 tasks with
          | ScanBusy => (Some (zero_Result, None), w)
          | ScanFailed t =>
              let '(r, e, w) :=
                fail_job original job (ErrNew ("task " +:+ key_str (bt_Namespace t) (bt_Name t) +:+ " failed")) w in
              (Some (r, e), w)
          | ScanDone completed =>
              if decide (completed = length (jspec_Tasks (job_Spec job))) then
                let job := Job_SetCondition JobCompleted ConditionTrue [] job in
                let '(now, w) := rc_Now w in
                let '(e, w) := Job_patchStatus original (set_CompletionTime now job) w in
                (Some (zero_Result, e), w)
              else
                match createTaskWithOwner job completed (m_Connection machine) w with
                | None => (None, w)
                | Some (Some err, w) => let '(r, e, w) := fail_job original job err w in (Some (r, e), w)
                | Some (None, w) => let '(e, w) := Job_patchStatus original job w in (Some (zero_Result, e), w)
                end
          end
      end
  end.

Definition Job_Reconcile (name ns : string) (w : W) : option (Result * option error) * W :=
  match rc_GetJob name ns w with
  | (inl err, w) => (Some (zero_Result, if IsNotFound err then None else Some err), w)
  | (inr job, w) =>
      match om_DeletionTimestamp (job_Meta job) with
      | Some _ => (Some (zero_Result, None), w)
      | None =>
          if Job_HasCondition job JobCompleted ConditionTrue || Job_HasCondition job JobFailed ConditionTrue
          then (Some (zero_Result, None), w)
          else Job_doReconcile job w
      end
  end.

(** ** task.go *)

Definition powerActionRequeueAfter : Z := (3 * time_Second)%Z.

(** [None]: the list of devices is empty. *)
Definition runTask (task : bmc_Action) (w : W) : option (option error) * W :=
  match ba_PowerAction task with
  | Some a =>
      let '(_, e, w) := rc_Command (SetPowerState a) w in
      (Some (ErrWrap "failed to perform PowerAction: " <$> e), w)
  | None =>
  match ba_OneTimeBootDeviceAction task with
  | Some o =>
      match otb_Devices o with
      | [] => (None, w)
      | d :: _ =>
          let '(_, e, w) := rc_Command (SetBootDevice d false (otb_EFIBoot o)) w in
          (Some (ErrWrap "failed to perform OneTimeBootDeviceAction: " <$> e), w)
      end
  | None =>
  match ba_BootDevice task with
  | Some b =>
      let '(ok, e, w) := rc_Command (SetBootDevice (bdc_Device b) (bdc_Persistent b) (bdc_EFIBoot b)) w in
      (Some (match e with
             | Some err => Some (ErrWrap ("failed to set BootDevice, ok: " +:+ bool_str ok +:+ ", err: ") err)
             | None =>
                 if (ok : bool) then None
                 else Some (ErrNew "failed to set BootDevice, ok: false, err: %!w(<nil>)")
             end), w)
  | None =>
  match ba_VirtualMediaAction task with
  | Some v =>
      let '(_, e, w) := rc_Command (SetVirtualMedia (vma_Kind v) (vma_MediaURL v)) w in
      (Some (ErrWrap "failed to perform SetVirtualMedia: " <$> e), w)
  | None => (Some (Some (ErrNew "no action specified in Task, nothing to do")), w)
  end end end end.

Definition checkTaskStatus (task : bmc_Action) (w : W) : Result * option error * W :=
  match ba_PowerAction task with
  | None => (zero_Result, None, w)
  | Some a =>
      match rc_GetPowerState w with
      | (inl err, w) => (zero_Result, Some (ErrWrap "failed to get power state: " err), w)
      | (inr raw, w) =>
          let state := toPowerState raw in
          if decide ((a = PowerOn ∧ state ≠ On) ∨ ((a = PowerHardOff ∨ a = PowerSoftOff) ∧ state ≠ Off))
          then (mkResult false powerActionRequeueAfter, None, w)
          else (zero_Result, None, w)
      end
  end.

Definition Task_patchStatus (original updated : bmc_Task) (w : W) : option error * W :=
  match rc_PatchTaskStatus original updated w with
  | (Some err, w) =>
      (Some (ErrWrap ("failed to patch Task " +:+ key_str (bt_Namespace updated) (bt_Name updated) +:+ " status: ") err), w)
  | (None, w) => (None, w)
  end.

Definition set_task_times (start completion : option Z) (t : bmc_Task) : bmc_Task :=
  mkbmc_Task (bt_Meta t) (bt_Spec t) (mkTaskStatus (tst_Conditions (bt_Status t)) start completion).

Definition fail_task (original task : bmc_Task) (msg : string) (err : error) (w : W) : Result * option error * W :=
  let task := Task_SetCondition TaskFailed ConditionTrue [WithTaskConditionMessage msg] task in
  match Task_patchStatus original task w with
  | (Some perr, w) => (zero_Result, Some (ErrJoin perr err), w)
  | (None, w) => (zero_Result, Some err, w)
  end.

(** The credentials or secrets of a connection. *)
Definition connection_options (t : bmc_Task) (w : W) : res (string * string * BMCOptions) * W :=
  let conn := tspec_Connection (bt_Spec t) in
  let opts := conn_ProviderOptions conn in
  match po ← opts; po_RPC po with
  | Some rpc =>
      match rpc_HMAC rpc with
      | Some h =>
          if decide (hmac_Secrets h = ∅) then (inr ("", "", mkBMCOptions opts None), w)
          else
            match retrieveHMACSecrets (hmac_Secrets h) w with
            | (inl err, w) => (inl (ErrWrap "unable to get hmac secrets: " err), w)
            | (inr se, w) => (inr ("", "", mkBMCOptions opts (Some se)), w)
            end
      | None => (inr ("", "", mkBMCOptions opts None), w)
      end
  | None =>
      match resolveAuthSecretRef (conn_AuthSecretRef conn) w with
      | (inl err, w) =>
          (inl (ErrWrap ("resolving connection secret for task " +:+ key_str (bt_Namespace t) (bt_Name t)
                         +:+ ": ") err), w)
      | (inr (u, p), w) => (inr (u, p, mkBMCOptions opts None), w)
      end
  end.

(** With the connection open: check a started task, or start it. *)
Definition run_or_check (task : bmc_Task) (w : W) : option (Result * option error) * W :=
  match tst_StartTime (bt_Status task) with
  | Some start =>
      let '(now, w) := rc_Now w in
      let running := time_Sub now start in
      if decide (10 * time_Minute ≤ running)%Z then
        let err := ErrNew ("bmc task timeout: " +:+ Itoa running) in
        let '(r, e, w) := fail_task task task (error_msg err) err w in (Some (r, e), w)
      else
        match checkTaskStatus (tspec_Task (bt_Spec task)) w with
        | (r, Some err, w) => (Some (r, Some (ErrWrap "bmc task status check: " err)), w)
        | (r, None, w) =>
            if decide (RequeueAfter r ≠ 0%Z) then (Some (r, None), w)
            else
              let '(now, w) := rc_Now w in
              let task' :=
                Task_SetCondition TaskCompleted ConditionTrue []
                  (set_task_times (tst_StartTime (bt_Status task)) (Some now) task) in
              let '(e, w) := Task_patchStatus task task' w in
              (Some (r, e), w)
        end
  | None =>
      let '(now, w) := rc_Now w in
      let task' := set_task_times (Some now) (tst_CompletionTime (bt_Status task)) task in
      match runTask (tspec_Task (bt_Spec task)) w with
      | (None, w) => (None, w)
      | (Some (Some err), w) =>
          let '(r, e, w) := fail_task task task' (error_msg err) err w in (Some (r, e), w)
      | (Some None, w) => let '(e, w) := Task_patchStatus task task' w in (Some (zero_Result, e), w)
      end
  end.

Definition Task_doReconcile (task : bmc_Task) (w : W) : option (Result * option error) * W :=
  match connection_options task w with
  | (inl err, w) => (Some (zero_Result, Some err), w)
  | (inr (u, p, opts), w) =>
      match rc_Open (conn_Host (tspec_Connection (bt_Spec task))) u p opts w with
      | (Some err, w) =>
          let '(r, e, w) := fail_task task task ("Failed to connect to BMC: " +:+ error_msg err) err w in
          (Some (r, e), w)
      | (None, w) => let '(r, w) := run_or_check task w in (r, rc_Close w)
      end
  end.

Definition Task_Reconcile (name ns : string) (w : W) : option (Result * option error) * W :=
  match rc_GetTask name ns w with
  | (inl err, w) => (Some (zero_Result, if IsNotFound err then None else Some err), w)
  | (inr task, w) =>
      match om_DeletionTimestamp (bt_Meta task) with
      | Some _ => (Some (zero_Result, None), w)
      | None =>
          if Task_HasCondition task TaskFailed ConditionTrue || Task_HasCondition task TaskCompleted ConditionTrue
          then (Some (zero_Result, None), w)
          else Task_doReconcile task w
      end
  end.
End controllers.
