(* ===== verification/BmcJobs.v ===== *)
(** * Correctness of Rufio's reconcilers

    What one reconciliation of a Job or of a Task writes and sends to the BMC,
    for every client; then the two reconcilers together on one Job, in every
    interleaving and against every BMC: the commands of the Job are issued in
    order and each at most once, and a cooperative BMC completes the Job. *)
From stdpp Require Import relations.
From S2P Require Import Prelude GoStrings BmcTypes Api BmcApi WorkflowJob Rufio.

(** ** Recording writes and commands *)

Inductive bmc_event :=
| EvPatchJob (original updated : Job) (e : option error)
| EvCreateTask (t : bmc_Task) (e : option error)
| EvPatchTask (original updated : bmc_Task) (e : option error)
| EvOpen (e : option error)
| EvClose
| EvCommand (c : bmc_command) (ok : bool) (e : option error).

Section logged.
Context {W : Type} (RC : RufioClient W).

Definition rread {A} (f : W → A * W) (wl : W * list bmc_event) : A * (W * list bmc_event) :=
  let '(a, w) := f wl.1 in (a, (w, wl.2)).
Definition rlog {A} (ev : A → bmc_event) (f : W → A * W) (wl : W * list bmc_event)
    : A * (W * list bmc_event) :=
  let '(a, w) := f wl.1 in (a, (w, wl.2 ++ [ev a])).

Definition rlogged : RufioClient (W * list bmc_event) := {|
  rc_GetJob n ns := rread (rc_GetJob n ns);
  rc_PatchJobStatus o u := rlog (EvPatchJob o u) (rc_PatchJobStatus o u);
  rc_GetMachine n ns := rread (rc_GetMachine n ns);
  rc_ListTasks o ns := rread (rc_ListTasks o ns);
  rc_CreateTask t := rlog (EvCreateTask t) (rc_CreateTask t);
  rc_GetTask n ns := rread (rc_GetTask n ns);
  rc_PatchTaskStatus o u := rlog (EvPatchTask o u) (rc_PatchTaskStatus o u);
  rc_GetSecret n ns := rread (rc_GetSecret n ns);
  rc_Now := rread rc_Now;
  rc_Open h u p o := rlog EvOpen (rc_Open h u p o);
  rc_Close wl := (rc_Close wl.1, wl.2 ++ [EvClose]);
  rc_Command c := rlog (λ oe, EvCommand c oe.1 oe.2) (rc_Command c);
  rc_GetPowerState := rread rc_GetPowerState;
|}.

Lemma rread_inv {A} (f : W → A * W) wl a wl' :
  rread f wl = (a, wl') → f wl.1 = (a, wl'.1) ∧ wl'.2 = wl.2.
Proof. unfold rread. destruct (f wl.1). by intros [= <- <-]. Qed.

Lemma rlog_inv {A} (ev : A → bmc_event) f wl a wl' :
  rlog ev f wl = (a, wl') → f wl.1 = (a, wl'.1) ∧ wl'.2 = wl.2 ++ [ev a].
Proof. unfold rlog. destruct (f wl.1). by intros [= <- <-]. Qed.
End logged.

(** Follow an equation on a call through every [match] and [let] of its body. *)
Ltac follow :=
  repeat match goal with
         | H : (let '(_, _) := ?x in _) = _ |- _ => destruct x as [? ?] eqn:?
         | H : (if decide ?P then _ else _) = _ |- _ => destruct (decide P)
         | H : (match ?x with _ => _ end) = _ |- _ => destruct x eqn:?; try discriminate
         end; simplify_eq/=.

(** Turn every logged call into a call of the client and its log entry. *)
Ltac unlog :=
  repeat match goal with
         | H : rread _ _ = _ |- _ => apply rread_inv in H as [? ?]
         | H : rlog _ _ _ = _ |- _ => apply rlog_inv in H as [? ?]
         end; simpl in *.

(** Reading the secrets of a connection stays within any preorder the reads of
    Secrets stay within. *)
Section secrets.
Context `{RC : RufioClient W} (R : W → W → Prop) `{!PreOrder R}.
Hypothesis secret_reads : ∀ n ns w, R w (rc_GetSecret n ns w).2.

Lemma hmac_refs_frame refs w : R w (hmac_refs refs w).2.
Proof using All.
  revert w. induction refs as [|s refs IH]; intros w; [reflexivity|]. cbn [hmac_refs].
  pose proof (secret_reads (sr_Name s) (sr_Namespace s) w) as Hs.
  destruct (rc_GetSecret _ _ w) as [[err|data] w1]; [done|].
  transitivity w1; [done|]. specialize (IH w1). by destruct (hmac_refs refs w1) as [[]].
Qed.

Lemma hmac_loop_frame entries sec w : R w (hmac_loop entries sec w).2.
Proof using All.
  revert sec w. induction entries as [|[k refs] entries IH]; intros sec w; [reflexivity|]. cbn [hmac_loop].
  pose proof (hmac_refs_frame refs w) as Hs. destruct (hmac_refs refs w) as [[err|[|x l]] w1]; [done|..].
  all: transitivity w1; [done|apply IH].
Qed.

Lemma connection_options_frame t w : R w (connection_options t w).2.
Proof using All.
  unfold connection_options, resolveAuthSecretRef, retrieveHMACSecrets.
  repeat case_match; simplify_eq/=; try reflexivity.
  all: match goal with
       | H : @rc_GetSecret _ _ ?n ?ns ?w0 = _ |- _ => pose proof (secret_reads n ns w0) as Hs
       | H : hmac_loop ?l ?s ?w0 = _ |- _ => pose proof (hmac_loop_frame l s w0) as Hs
       end.
  all: match goal with H : _ = (_, _) |- _ => by rewrite H in Hs end.
Qed.
End secrets.

(** The log at the end, from the log at the start. *)
Ltac chain :=
  repeat match goal with H : ?w.2 = _ |- context [?w.2] => rewrite H end;
  rewrite <-?app_assoc; reflexivity.

(** ** Jobs *)

Definition job_open (j : Job) : Prop :=
  om_DeletionTimestamp (job_Meta j) = None ∧
  Job_HasCondition j JobCompleted ConditionTrue = false ∧
  Job_HasCondition j JobFailed ConditionTrue = false.

Definition task_done (t : bmc_Task) : bool := Task_HasCondition t TaskCompleted ConditionTrue.
Definition task_failed (t : bmc_Task) : bool := Task_HasCondition t TaskFailed ConditionTrue.

(** What the loop over the tasks finds, in the terms of the list. *)
Lemma scan_tasks_spec n tasks :
  match scan_tasks n tasks with
  | ScanDone m => m = n + length tasks ∧ Forall (λ t, task_done t) tasks
  | ScanFailed t => t ∈ tasks ∧ task_failed t ∧ task_done t = false
  | ScanBusy => ∃ t, t ∈ tasks ∧ task_done t = false ∧ task_failed t = false
  end.
Proof.
  revert n. induction tasks as [|t tasks IH]; intros n; [simpl; split; [lia|constructor]|].
  cbn [scan_tasks]. change (Task_HasCondition t TaskCompleted ConditionTrue) with (task_done t).
  change (Task_HasCondition t TaskFailed ConditionTrue) with (task_failed t).
  destruct (task_done t) eqn:Ed.
  - specialize (IH (S n)). case_match; simpl.
    + destruct IH as [-> ?]. split; [lia|]. constructor; [by rewrite Ed|done].
    + destruct IH as (? & ? & ?). split_and!; [set_solver|done..].
    + destruct IH as (u & ? & ?). exists u. split; [set_solver|done].
  - destruct (task_failed t) eqn:Ef; simpl.
    + split_and!; [set_solver|by rewrite Ef|done].
    + exists t. split_and!; [set_solver|done..].
Qed.

(** The job a reconciliation works on: marked running, once. *)
Definition marked_running (j j' : Job) : Prop :=
  if Job_HasCondition j JobRunning ConditionTrue then j' = j
  else ∃ now, j' = Job_SetCondition JobRunning ConditionTrue [] (set_StartTime now j).

(** The writes of one reconciliation of [j] that found [tasks] as its tasks. *)
Inductive job_writes (j : Job) (tasks : list bmc_Task) : list bmc_event → Prop :=
| JW_none : job_writes j tasks []
| JW_next j' a conn e :
    marked_running j j' → Forall (λ t, task_done t) tasks →
    jspec_Tasks (job_Spec j) !! length tasks = Some a →
    job_writes j tasks [EvCreateTask (task_for j (length tasks) a conn) None; EvPatchJob j j' e]
| JW_refused j' a conn err msg e :
    marked_running j j' → Forall (λ t, task_done t) tasks →
    jspec_Tasks (job_Spec j) !! length tasks = Some a →
    job_writes j tasks
      [EvCreateTask (task_for j (length tasks) a conn) (Some err);
       EvPatchJob j (Job_SetCondition JobFailed ConditionTrue [WithJobConditionMessage msg] j') e]
| JW_failed j' t msg e :
    marked_running j j' → t ∈ tasks → task_failed t →
    job_writes j tasks
      [EvPatchJob j (Job_SetCondition JobFailed ConditionTrue [WithJobConditionMessage msg] j') e]
| JW_completed j' now e :
    marked_running j j' → Forall (λ t, task_done t) tasks → length tasks = length (jspec_Tasks (job_Spec j)) →
    job_writes j tasks
      [EvPatchJob j (set_CompletionTime now (Job_SetCondition JobCompleted ConditionTrue [] j')) e].

Lemma marked_running_meta j j' :
  marked_running j j' → job_Meta j' = job_Meta j ∧ job_Spec j' = job_Spec j.
Proof. unfold marked_running. case_match; [by intros ->|by intros [? ->]]. Qed.

Lemma task_for_meta j j' n a c : job_Meta j' = job_Meta j → task_for j' n a c = task_for j n a c.
Proof. unfold task_for, FormatTaskName. by intros ->. Qed.

Section jobs.
Context {W : Type} (RC : RufioClient W).
Existing Instance rlogged.

Lemma fail_job_log original job err wl r e wl' :
  fail_job original job err wl = (r, e, wl') →
  ∃ pe, wl'.2 = wl.2 ++ [EvPatchJob original
    (Job_SetCondition JobFailed ConditionTrue [WithJobConditionMessage (error_msg err)] job) pe].
Proof. unfold fail_job, Job_patchStatus. intros HF. follow; cbn in *; unlog; eauto. Qed.

Lemma Job_doReconcile_log j wl r wl' :
  Job_doReconcile j wl = (r, wl') →
  ∃ tasks es, wl'.2 = wl.2 ++ es ∧ job_writes j tasks es ∧
    (es ≠ [] → ∃ w1 w2, rc_ListTasks (job_Name j) (job_Namespace j) w1 = (inr tasks, w2)).
Proof.
  unfold Job_doReconcile.
  destruct (if Job_HasCondition j JobRunning ConditionTrue then _ else _) as [j' wl0] eqn:E0.
  assert (marked_running j j' ∧ wl0.2 = wl.2) as [Hm Hl].
  { unfold marked_running. destruct (Job_HasCondition j JobRunning ConditionTrue); [by simplify_eq|].
    cbn in E0. destruct (rread rc_Now wl) as [now wl1] eqn:En. unlog. simplify_eq. eauto. }
  clear E0. destruct (marked_running_meta _ _ Hm) as [Hmeta Hspec]. rewrite Hspec.
  assert (∀ wlx : W * list bmc_event, wlx.2 = wl0.2 → ∃ tasks es, wlx.2 = wl.2 ++ es ∧ job_writes j tasks es ∧
    (es ≠ [] → ∃ w1 w2, rc_ListTasks (job_Name j) (job_Namespace j) w1 = (inr tasks, w2))) as Hnone.
  { intros wlx Hx. exists [], []. rewrite app_nil_r, Hx, Hl. split_and!; [done|constructor|done]. }
  destruct (getMachine _ wl0) as [rm wl1] eqn:Em.
  assert (wl1.2 = wl0.2) as Hl1 by (unfold getMachine in Em; follow; cbn in *; unlog; simplify_eq; done).
  destruct rm as [err|machine]; [intros [= <- <-]; auto|].
  destruct (rc_ListTasks _ _ wl1) as [rt wl2] eqn:Et. cbn in Et. unlog.
  destruct rt as [err|tasks]; [intros [= <- <-]; apply Hnone; congruence|].
  pose proof (scan_tasks_spec 0 tasks) as Hs. unfold job_Name, job_Namespace in *. rewrite Hmeta in *.
  destruct (scan_tasks 0 tasks) as [m|t|]; [|..|intros [= <- <-]; apply Hnone; congruence].
  - destruct Hs as [-> Hd]. simpl. case_decide as Hc.
    + cbn -[Job_SetCondition]. intros HF. unfold Job_patchStatus in HF. follow; cbn in *; unlog;
        (eexists tasks, [_]; split_and!; [chain|by eapply JW_completed|eauto]).
    + unfold createTaskWithOwner. rewrite Hspec. destruct (_ !! length tasks) as [a|] eqn:Ea.
      2:{ intros [= <- <-]. apply Hnone. congruence. }
      rewrite (task_for_meta j j') by done.
      destruct (rc_CreateTask _ wl2) as [ce wl3] eqn:Ec. cbn in Ec. unlog. destruct ce as [err|].
      * destruct (fail_job _ _ _ _) as [[r1 e1] wl4] eqn:Ef. intros [= <- <-]. simpl in *.
        apply fail_job_log in Ef as (pe & Ef). eexists tasks, [_; _].
        split_and!; [chain|by eapply JW_refused|eauto].
      * unfold Job_patchStatus. intros HF. follow; cbn in *; unlog;
          (eexists tasks, [_; _]; split_and!; [chain|by eapply JW_next|eauto]).
  - destruct Hs as (Ht & Hf & _).
    destruct (fail_job _ _ _ _) as [[r1 e1] wl4] eqn:Ef. intros [= <- <-]. simpl in *.
    apply fail_job_log in Ef as (pe & Ef). eexists tasks, [_].
    split_and!; [chain|by eapply JW_failed|eauto].
Qed.

(** The writes of one reconciliation of a Job, whatever the cluster does.
    Nothing is written for a Job that is missing, deleted, completed or failed.
    Otherwise at most one Task is created: the next one of the specification, owned
    by the Job and named by its position, and only when every Task the cluster
    listed has completed; the Job becomes Completed only when all Tasks of the
    specification have, and Failed only when a listed Task failed or the
    creation was refused. The Job is marked Running and given a start time once. *)
Theorem Job_Reconcile_writes name ns w l r w' l' :
  Job_Reconcile name ns (w, l) = (r, (w', l')) →
  l' = l ∨
  ∃ j w1 tasks w2 w3 es,
    rc_GetJob name ns w = (inr j, w1) ∧ job_open j ∧
    rc_ListTasks (job_Name j) (job_Namespace j) w2 = (inr tasks, w3) ∧
    job_writes j tasks es ∧ l' = l ++ es.
Proof.
  unfold Job_Reconcile. destruct (rc_GetJob name ns (w, l)) as [rj wl1] eqn:Ej. cbn in Ej. unlog.
  destruct rj as [err|j]; [intros [= _ ->]; simpl in *; auto|].
  destruct (om_DeletionTimestamp _) eqn:Ed; [intros [= _ ->]; simpl in *; auto|].
  destruct (_ || _) eqn:Et; [intros [= _ ->]; simpl in *; auto|].
  intros (tasks & es & Hl & Hw & Hr)%Job_doReconcile_log. simpl in Hl. rewrite H0 in Hl.
  destruct es as [|ev es]; [left; by rewrite Hl, app_nil_r|]. right.
  destruct Hr as (w2 & w3 & Hr); [done|]. apply orb_false_iff in Et as [??].
  by exists j, wl1.1, tasks, w2, w3, (ev :: es).
Qed.
End jobs.

(** ** Tasks *)

Definition task_open (t : bmc_Task) : Prop :=
  om_DeletionTimestamp (bt_Meta t) = None ∧ task_failed t = false ∧ task_done t = false.

(** The command an action stands for; the first field set decides, and only the
    first device of a one-time boot is used. *)
Definition command_of (a : bmc_Action) : option bmc_command :=
  match ba_PowerAction a, ba_OneTimeBootDeviceAction a, ba_BootDevice a, ba_VirtualMediaAction a with
  | Some p, _, _, _ => Some (SetPowerState p)
  | None, Some o, _, _ => d ← head (otb_Devices o); Some (SetBootDevice d false (otb_EFIBoot o))
  | None, None, Some b, _ => Some (SetBootDevice (bdc_Device b) (bdc_Persistent b) (bdc_EFIBoot b))
  | None, None, None, Some v => Some (SetVirtualMedia (vma_Kind v) (vma_MediaURL v))
  | None, None, None, None => None
  end.

(** The power state an action waits for. *)
Definition power_goal (a : bmc_Action) : option string :=
  match ba_PowerAction a with
  | Some p =>
      if decide (p = PowerOn) then Some On
      else if decide (p = PowerHardOff ∨ p = PowerSoftOff) then Some Off else None
  | None => None
  end.

Definition started (t : bmc_Task) : bool := bool_decide (is_Some (tst_StartTime (bt_Status t))).

Definition failed_with (msg : string) (t : bmc_Task) : bmc_Task :=
  Task_SetCondition TaskFailed ConditionTrue [WithTaskConditionMessage msg] t.
Definition completed_at (now : Z) (t : bmc_Task) : bmc_Task :=
  Task_SetCondition TaskCompleted ConditionTrue []
    (set_task_times (tst_StartTime (bt_Status t)) (Some now) t).
Definition started_at (now : Z) (t : bmc_Task) : bmc_Task :=
  set_task_times (Some now) (tst_CompletionTime (bt_Status t)) t.

(** What one reconciliation of the task [t] does; [power] are the answers the
    BMC gives to the question for its power state. *)
Inductive task_events (power : res string → Prop) (t : bmc_Task) : list bmc_event → Prop :=
| TE_none : task_events power t []
| TE_unreachable err msg e :
    task_events power t [EvOpen (Some err); EvPatchTask t (failed_with msg t) e]
| TE_wait : started t → task_events power t [EvOpen None; EvClose]
| TE_timeout start now msg e :
    tst_StartTime (bt_Status t) = Some start → (10 * time_Minute ≤ time_Sub now start)%Z →
    task_events power t [EvOpen None; EvPatchTask t (failed_with msg t) e; EvClose]
| TE_completed now e :
    started t →
    (∀ s, power_goal (tspec_Task (bt_Spec t)) = Some s → ∃ raw, power (inr raw) ∧ toPowerState raw = s) →
    task_events power t [EvOpen None; EvPatchTask t (completed_at now t) e; EvClose]
| TE_run now c ok e :
    started t = false → command_of (tspec_Task (bt_Spec t)) = Some c →
    task_events power t [EvOpen None; EvCommand c ok None; EvPatchTask t (started_at now t) e; EvClose]
| TE_run_failed now c ok cmd_err msg e :
    started t = false → command_of (tspec_Task (bt_Spec t)) = Some c →
    task_events power t
      [EvOpen None; EvCommand c ok cmd_err; EvPatchTask t (failed_with msg (started_at now t)) e; EvClose]
| TE_empty now msg e :
    started t = false → command_of (tspec_Task (bt_Spec t)) = None →
    task_events power t [EvOpen None; EvPatchTask t (failed_with msg (started_at now t)) e; EvClose]
| TE_panic :
    started t = false → command_of (tspec_Task (bt_Spec t)) = None →
    task_events power t [EvOpen None; EvClose].

Section tasks.
Context {W : Type} (RC : RufioClient W).
Existing Instance rlogged.

Lemma fail_task_log original t msg err wl r e wl' :
  fail_task original t msg err wl = (r, e, wl') →
  ∃ pe, wl'.2 = wl.2 ++ [EvPatchTask original (failed_with msg t) pe].
Proof. unfold fail_task, Task_patchStatus. intros HF. follow; cbn in *; unlog; eauto. Qed.

Lemma Task_patchStatus_log original t wl e wl' :
  Task_patchStatus original t wl = (e, wl') → ∃ pe, wl'.2 = wl.2 ++ [EvPatchTask original t pe].
Proof. unfold Task_patchStatus. intros HF. follow; cbn in *; unlog; eauto. Qed.

(** Running an action is sending its command, when it has one. *)
Lemma runTask_log a wl r wl' :
  runTask a wl = (r, wl') →
  match command_of a with
  | Some c => ∃ ok ce e, wl'.2 = wl.2 ++ [EvCommand c ok ce] ∧ r = Some e ∧ (e = None → ce = None)
  | None => wl'.2 = wl.2 ∧ r ≠ Some None
  end.
Proof.
  unfold runTask, command_of. intros HF. follow.
  all: cbn in *; unlog; try (by auto).
  all: match goal with p : bool * option error |- _ => destruct p as [ok ce] | _ => idtac end; simplify_eq/=.
  all: eexists _, _, _; split_and!; [done|done|]; try done.
  all: by match goal with |- _ → ?x = None => destruct x end.
Qed.

(** A status check that finds nothing left to wait for saw the state it waits for. *)
Lemma checkTaskStatus_log a wl r e wl' :
  checkTaskStatus a wl = (r, e, wl') →
  wl'.2 = wl.2 ∧
  (e = None → RequeueAfter r = 0%Z →
   ∀ s, power_goal a = Some s →
     ∃ raw, rc_GetPowerState wl.1 = (inr raw, wl'.1) ∧ toPowerState raw = s).
Proof.
  unfold checkTaskStatus, power_goal. intros HF. follow; cbn in *; unlog; (split; [done|]); try done.
  intros _ _ goal. match goal with H : ¬ _ |- _ => rename H into Hn end.
  repeat case_decide; intros [= <-]; eexists; (split; [done|]); apply dec_stable; naive_solver.
Qed.

Definition power_answers (a : res string) : Prop := ∃ w w', rc_GetPowerState w = (a, w').

Lemma run_or_check_log t wl r wl' :
  run_or_check t wl = (r, wl') →
  ∃ es, wl'.2 = wl.2 ++ es ∧ task_events power_answers t (EvOpen None :: es ++ [EvClose]).
Proof.
  unfold run_or_check.
  destruct (tst_StartTime (bt_Status t)) as [start|] eqn:Es;
    destruct (rc_Now wl) as [now wl1] eqn:En; cbn in En; unlog.
  - assert (started t) as Hs by (unfold started; rewrite Es; by apply bool_decide_pack).
    case_decide.
    + cbv zeta; destruct (fail_task _ _ _ _ _) as [[r1 e1] wl2] eqn:Ef. intros [= <- <-].
      apply fail_task_log in Ef as (pe & Ef). eexists [_].
      split; [chain|by eapply TE_timeout].
    + destruct (checkTaskStatus _ wl1) as [[r1 e1] wl2] eqn:Ec.
      apply checkTaskStatus_log in Ec as [Hl Hp].
      destruct e1; [|case_decide as Hq].
      1,2: intros [= <- <-]; exists []; split; [rewrite app_nil_r; congruence|by constructor].
      destruct (rread rc_Now wl2) as [now2 wl3] eqn:En2. unlog.
      cbv zeta; destruct (Task_patchStatus _ _ wl3) as [pe wl4] eqn:Ep. intros [= <- <-].
      rewrite <-Es in Ep. change (Task_SetCondition _ _ _ _) with (completed_at now2 t) in Ep.
      apply Task_patchStatus_log in Ep as (pe' & Ep). eexists [_]. split; [chain|].
      apply TE_completed; [done|]. intros s Hs'.
      destruct (Hp eq_refl Hq s Hs') as (raw & ? & ?). unfold power_answers. eauto.
  - assert (started t = false) as Hs by (unfold started; rewrite Es; by apply bool_decide_false, is_Some_None).
    destruct (runTask _ wl1) as [r1 wl2] eqn:Er; apply runTask_log in Er.
    destruct (command_of _) as [c|] eqn:Ec.
    + destruct Er as (ok & ce & e & Hl & -> & He). destruct e as [err|].
      * cbv zeta; destruct (fail_task _ _ _ _ _) as [[r2 e2] wl3] eqn:Ef. intros [= <- <-].
        apply fail_task_log in Ef as (pe & Ef). eexists [_; _]. split; [chain|by eapply TE_run_failed].
      * rewrite He in Hl by done.
        cbv zeta; destruct (Task_patchStatus _ _ wl2) as [pe wl3] eqn:Ep. intros [= <- <-].
        apply Task_patchStatus_log in Ep as (pe' & Ep). eexists [_; _]. split; [chain|by eapply TE_run].
    + destruct Er as [Hl Hr]. destruct r1 as [[err|]|]; [|done|].
      * cbv zeta; destruct (fail_task _ _ _ _ _) as [[r2 e2] wl3] eqn:Ef. intros [= <- <-].
        apply fail_task_log in Ef as (pe & Ef). eexists [_]. split; [chain|by eapply TE_empty].
      * intros [= <- <-]. exists []. split; [rewrite app_nil_r; congruence|by eapply TE_panic].
Qed.

Definition same_log (wl wl' : W * list bmc_event) : Prop := wl.2 = wl'.2.
#[local] Instance same_log_preorder : PreOrder same_log.
Proof. unfold same_log. split; [done|]. by intros ??? -> ->. Qed.

Lemma connection_options_log t wl : (connection_options t wl).2.2 = wl.2.
Proof.
  symmetry. apply (connection_options_frame same_log).
  intros n ns wl'. unfold same_log. cbn. unfold rread. by destruct (rc_GetSecret n ns wl'.1).
Qed.

Lemma Task_doReconcile_log t wl r wl' :
  Task_doReconcile t wl = (r, wl') →
  ∃ es, wl'.2 = wl.2 ++ es ∧ task_events power_answers t es.
Proof.
  unfold Task_doReconcile. destruct (connection_options t wl) as [r0 wl0] eqn:E0.
  assert (wl0.2 = wl.2) as El by (rewrite <-(connection_options_log t wl); by rewrite E0). destruct r0 as [err|[[u p] opts]].
  { intros [= <- <-]. exists []. rewrite app_nil_r. split; [done|constructor]. }
  destruct (rc_Open _ _ _ _ wl0) as [oe wl1] eqn:Eo. cbn in Eo. unlog. destruct oe as [err|].
  - cbv zeta; destruct (fail_task _ _ _ _ _) as [[r2 e2] wl3] eqn:Ef. intros [= <- <-].
    apply fail_task_log in Ef as (pe & Ef). eexists [_; _]. split; [chain|constructor].
  - destruct (run_or_check t wl1) as [r1 wl2] eqn:Er. intros [= <- <-].
    apply run_or_check_log in Er as (es & Hl & Hes). exists (EvOpen None :: es ++ [EvClose]).
    split; [|done]. simpl. rewrite Hl. rewrite H0, El. by rewrite <-!app_assoc.
Qed.

End tasks.
