(* ===== verification/BmcSystem.v ===== *)
(** * Rufio: a Job, its Tasks and the BMC together

    A store with one Job and its Tasks, in which both reconcilers run, each
    reconciliation whole, in any order, for any Task and any number of times; the
    BMC, the clock, the Machines and the Secrets are an arbitrary environment
    [Bmc]. The store accepts every write and its reads are current: a status
    patch that fails after a command would have the command sent again. *)
From stdpp Require Import relations.
From S2P Require Import Prelude GoStrings BmcTypes Api BmcApi WorkflowJob Rufio BmcJobs.

Class Bmc (B : Type) := {
  bmc_Machine (name ns : string) : B → res Machine * B;
  bmc_Secret (name ns : string) : B → res (gmap string string) * B;
  bmc_Now : B → Z * B;
  bmc_Open (host username password : string) (opts : BMCOptions) : B → option error * B;
  bmc_Close : B → B;
  bmc_Command : bmc_command → B → bool * option error * B;
  bmc_Power : B → res string * B;
}.

Record BmcCell (B : Type) := mkBmcCell {
  bc_job : Job;
  bc_tasks : list bmc_Task;
  (** the commands sent so far *)
  bc_sent : list bmc_command;
  bc_env : B;
}.
Arguments mkBmcCell {B}.
Arguments bc_job {B}.
Arguments bc_tasks {B}.
Arguments bc_sent {B}.
Arguments bc_env {B}.

Definition named_as (o t : bmc_Task) : Prop := bt_Name t = bt_Name o ∧ bt_Namespace t = bt_Namespace o.
#[export] Instance named_as_dec o t : Decision (named_as o t).
Proof. unfold named_as. apply _. Defined.

Definition with_status (st : TaskStatus) (t : bmc_Task) : bmc_Task := mkbmc_Task (bt_Meta t) (bt_Spec t) st.

Section cell.
Context `{BM : Bmc B}.

(** An operation of the environment, lifted to the store. *)
Definition on_env {A} (f : B → A * B) (w : BmcCell B) : A * BmcCell B :=
  let '(a, b) := f (bc_env w) in (a, mkBmcCell (bc_job w) (bc_tasks w) (bc_sent w) b).

Definition bc_missing : error := ErrStatus StatusReasonNotFound "not found".

#[export] Instance Cell_rufio : RufioClient (BmcCell B) := {|
  rc_GetJob name ns w :=
    (if decide (name = job_Name (bc_job w) ∧ ns = job_Namespace (bc_job w)) then inr (bc_job w)
     else inl bc_missing, w);
  rc_PatchJobStatus _ u w :=
    (None, mkBmcCell (mkJob (job_Meta (bc_job w)) (job_Spec (bc_job w)) (job_Status u))
             (bc_tasks w) (bc_sent w) (bc_env w));
  rc_GetMachine name ns := on_env (bmc_Machine name ns);
  rc_ListTasks owner ns w :=
    (inr (filter (λ t, owner ∈ TaskOwnerIndexFunc t ∧ bt_Namespace t = ns) (bc_tasks w)), w);
  rc_CreateTask t w :=
    if decide (Exists (named_as t) (bc_tasks w))
    then (Some (ErrStatus StatusReasonAlreadyExists "already exists"), w)
    else (None, mkBmcCell (bc_job w) (bc_tasks w ++ [t]) (bc_sent w) (bc_env w));
  rc_GetTask name ns w :=
    (match list_find (λ t, bt_Name t = name ∧ bt_Namespace t = ns) (bc_tasks w) with
     | Some (_, t) => inr t
     | None => inl bc_missing
     end, w);
  rc_PatchTaskStatus o u w :=
    (None, mkBmcCell (bc_job w)
             ((λ t, if decide (named_as o t) then with_status (bt_Status u) t else t) <$> bc_tasks w)
             (bc_sent w) (bc_env w));
  rc_GetSecret name ns := on_env (bmc_Secret name ns);
  rc_Now := on_env bmc_Now;
  rc_Open h u p o := on_env (bmc_Open h u p o);
  rc_Close w := mkBmcCell (bc_job w) (bc_tasks w) (bc_sent w) (bmc_Close (bc_env w));
  rc_Command c w :=
    let '(r, b) := bmc_Command c (bc_env w) in
    (r, mkBmcCell (bc_job w) (bc_tasks w) (bc_sent w ++ [c]) b);
  rc_GetPowerState := on_env bmc_Power;
|}.

(** One reconciliation of the Job or of some Task, or the environment moving. *)
Inductive bstep (w : BmcCell B) : BmcCell B → Prop :=
| BS_job : bstep w (Job_Reconcile (job_Name (bc_job w)) (job_Namespace (bc_job w)) w).2
| BS_task name ns : bstep w (Task_Reconcile name ns w).2
| BS_env b : bstep w (mkBmcCell (bc_job w) (bc_tasks w) (bc_sent w) b).

(** ** Invariant *)

(** The commands of a list of actions. *)
Definition commands (l : list bmc_Action) : list bmc_command := omap command_of l.

Definition sent_by (t : bmc_Task) : list bmc_command :=
  if started t then commands [tspec_Task (bt_Spec t)] else [].

Definition is_task (j : Job) (i : nat) (t : bmc_Task) : Prop :=
  ∃ a c, jspec_Tasks (job_Spec j) !! i = Some a ∧ bt_Meta t = bt_Meta (task_for j i a c) ∧
    tspec_Task (bt_Spec t) = a.

Record task_ok (t : bmc_Task) : Prop := {
  ok_done : task_done t → started t;
  ok_excl : task_done t → task_failed t = false;
}.

Record binv (j0 : Job) (w : BmcCell B) : Prop := {
  bi_meta : job_Meta (bc_job w) = job_Meta j0;
  bi_spec : job_Spec (bc_job w) = job_Spec j0;
  bi_task i t : bc_tasks w !! i = Some t → is_task j0 i t;
  bi_ok i t : bc_tasks w !! i = Some t → task_ok t;
  (** all Tasks but the last are done *)
  bi_order i t : bc_tasks w !! i = Some t → S i < length (bc_tasks w) → task_done t;
  bi_sent : bc_sent w = bc_tasks w ≫= sent_by;
  bi_complete : Job_HasCondition (bc_job w) JobCompleted ConditionTrue →
    length (bc_tasks w) = length (jspec_Tasks (job_Spec j0)) ∧ Forall (λ t, task_done t) (bc_tasks w);
}.

Lemma FormatTaskName_inj j i k : FormatTaskName j i = FormatTaskName j k → i = k.
Proof. unfold FormatTaskName. intros E. do 2 apply (inj (String.append _)) in E. apply Itoa_inj in E. lia. Qed.

Lemma is_task_name j i t : is_task j i t → bt_Name t = FormatTaskName j i ∧ bt_Namespace t = job_Namespace j.
Proof. intros (a & c & _ & Hm & _). unfold bt_Name, bt_Namespace. by rewrite Hm. Qed.

Lemma is_task_inj j i k t u : is_task j i t → is_task j k u → named_as t u → i = k.
Proof.
  intros [H1 _]%is_task_name [H2 _]%is_task_name [H3 _]. rewrite H1, H2 in H3. symmetry. by eapply FormatTaskName_inj.
Qed.

Lemma patched_insert j (tasks : list bmc_Task) i t st :
  (∀ i t, tasks !! i = Some t → is_task j i t) → tasks !! i = Some t →
  (λ u, if decide (named_as t u) then with_status st u else u) <$> tasks = <[i := with_status st t]> tasks.
Proof.
  intros Ht Hi. apply list_eq. intros k. rewrite list_lookup_fmap.
  destruct (decide (k = i)) as [->|Hk].
  - rewrite list_lookup_insert_eq by (by eapply lookup_lt_Some). rewrite Hi. simpl. by rewrite decide_True by done.
  - rewrite list_lookup_insert_ne by done. destruct (tasks !! k) as [u|] eqn:Eu; [|done]. simpl.
    rewrite decide_False; [done|]. intros Hn. destruct Hk. symmetry. eapply is_task_inj; eauto.
Qed.

(** ** Tasks *)

(** What a reconciliation makes of an open Task, and the commands it sends. *)
Inductive advance (t : bmc_Task) : bmc_Task → list bmc_command → Prop :=
| Adv_none : advance t t []
| Adv_failed msg : advance t (failed_with msg t) []
| Adv_completed now : started t → advance t (completed_at now t) []
| Adv_run now : started t = false → advance t (started_at now t) (commands [tspec_Task (bt_Spec t)])
| Adv_run_failed now msg :
    started t = false → advance t (failed_with msg (started_at now t)) (commands [tspec_Task (bt_Spec t)]).

Definition frame (w w' : BmcCell B) : Prop :=
  bc_job w' = bc_job w ∧ bc_tasks w' = bc_tasks w ∧ bc_sent w' = bc_sent w.
#[local] Instance frame_preorder : PreOrder frame.
Proof. unfold frame. split; [done|]. intros ??? (->&->&->) (->&->&->). done. Qed.

Lemma on_env_frame {A} (f : B → A * B) w : frame w (on_env f w).2.
Proof. unfold on_env. by destruct (f (bc_env w)). Qed.

Lemma on_env_inv {A} (f : B → A * B) w a w' :
  on_env f w = (a, w') → f (bc_env w) = (a, bc_env w') ∧ frame w w'.
Proof. unfold on_env. destruct (f (bc_env w)). by intros [= <- <-]. Qed.

(** The store after the Task at [i] has moved. *)
Definition moved (i : nat) (t' : bmc_Task) (sent : list bmc_command) (w w' : BmcCell B) : Prop :=
  bc_job w' = bc_job w ∧ bc_tasks w' = <[i := t']> (bc_tasks w) ∧ bc_sent w' = bc_sent w ++ sent.

Section task_step.
Context (j0 : Job) (i : nat) (t : bmc_Task).

(** The Task at [i] of the store is [t], and names tell Tasks apart. *)
Definition current (w : BmcCell B) : Prop :=
  (∀ i t, bc_tasks w !! i = Some t → is_task j0 i t) ∧ bc_tasks w !! i = Some t.

Lemma current_frame w w' : frame w w' → current w → current w'.
Proof. intros (_ & H & _). unfold current. by rewrite H. Qed.

Lemma cell_moved_frame t' sent w1 w2 w3 w4 :
  frame w1 w2 → moved i t' sent w2 w3 → frame w3 w4 → moved i t' sent w1 w4.
Proof. unfold frame, moved. intros (->&->&->) (->&->&->) (->&->&->). done. Qed.

Lemma moved_same w : current w → moved i t [] w w.
Proof. intros [_ H]. unfold moved. by rewrite app_nil_r, list_insert_id. Qed.

Lemma Task_patchStatus_cell t' w e w' :
  current w → bt_Meta t' = bt_Meta t → bt_Spec t' = bt_Spec t →
  Task_patchStatus t t' w = (e, w') → moved i t' [] w w'.
Proof.
  intros [Ht Hi] Hm Hs. unfold Task_patchStatus. cbn. intros [= <- <-]. unfold moved. cbn. rewrite app_nil_r.
  split_and!; [done| |done]. rewrite (patched_insert j0 _ i t) by done. f_equal.
  destruct t, t'. cbn in *. by subst.
Qed.

Lemma fail_task_cell t' msg err w r e w' :
  current w → bt_Meta t' = bt_Meta t → bt_Spec t' = bt_Spec t →
  fail_task t t' msg err w = (r, e, w') → moved i (failed_with msg t') [] w w'.
Proof.
  intros Hc Hm Hs. unfold fail_task. destruct (Task_patchStatus _ _ w) as [pe w1] eqn:E.
  apply Task_patchStatus_cell in E; [|done..]. by destruct pe; intros [= <- <- <-].
Qed.

(** Sending the command of the action, if any. *)
Lemma runTask_cell a w r w' :
  runTask a w = (r, w') →
  bc_job w' = bc_job w ∧ bc_tasks w' = bc_tasks w ∧ bc_sent w' = bc_sent w ++ commands [a] ∧
  (r = None → commands [a] = []).
Proof.
  unfold runTask, commands. cbn. unfold command_of. intros HF.
  follow; cbn in *; simplify_eq/=; repeat case_match; simplify_eq/=; rewrite ?app_nil_r; done.
Qed.

Lemma run_or_check_cell w r w' :
  current w → run_or_check t w = (r, w') → ∃ t' sent, advance t t' sent ∧ moved i t' sent w w'.
Proof.
  intros Hc. unfold run_or_check.
  destruct (tst_StartTime (bt_Status t)) as [start|] eqn:Es;
    destruct (rc_Now w) as [now w1] eqn:En; cbn in En; apply on_env_inv in En as [_ Hf];
    pose proof (current_frame _ _ Hf Hc) as Hc1; cbv zeta.
  - assert (started t) as Hs by (unfold started; rewrite Es; by apply bool_decide_pack).
    case_decide.
    { destruct (fail_task _ _ _ _ w1) as [[r1 e1] w2] eqn:E. intros [= <- <-].
      apply fail_task_cell in E; [|done..]. eexists _, []. split; [apply Adv_failed|].
      eapply cell_moved_frame; [done|exact E|reflexivity]. }
    assert (∀ wx, frame w1 wx → ∃ t' sent, advance t t' sent ∧ moved i t' sent w wx) as Hsame.
    { intros wx Hx. exists t, []. split; [constructor|].
      eapply cell_moved_frame; [done|by apply moved_same|done]. }
    unfold checkTaskStatus. destruct (ba_PowerAction _) as [a|].
    + destruct (rc_GetPowerState w1) as [rp w2] eqn:Ep. cbn in Ep. apply on_env_inv in Ep as [_ Hf2].
      destruct rp as [err|raw]; [intros [= <- <-]; eauto|]. case_decide; cbn -[on_env Task_patchStatus].
      { intros [= <- <-]. eauto. }
      destruct (on_env bmc_Now w2) as [now2 w3] eqn:En2. apply on_env_inv in En2 as [_ Hf3].
      destruct (Task_patchStatus _ _ w3) as [pe w4] eqn:E4. intros [= <- <-].
      rewrite <-Es in E4. apply Task_patchStatus_cell in E4; [|eauto using current_frame|done..].
      exists (completed_at now2 t), []. split; [by constructor|].
      eapply cell_moved_frame; [|exact E4|reflexivity]. by do 2 (etrans; [done|]).
    + cbn -[on_env Task_patchStatus].
      destruct (on_env bmc_Now w1) as [now2 w3] eqn:En2. apply on_env_inv in En2 as [_ Hf3].
      destruct (Task_patchStatus _ _ w3) as [pe w4] eqn:E4. intros [= <- <-].
      rewrite <-Es in E4. apply Task_patchStatus_cell in E4; [|eauto using current_frame|done..].
      exists (completed_at now2 t), []. split; [by constructor|].
      eapply cell_moved_frame; [|exact E4|reflexivity]. by etrans.
  - assert (started t = false) as Hs by (unfold started; rewrite Es; by apply bool_decide_false, is_Some_None).
    destruct (runTask _ w1) as [r1 w2] eqn:Er. apply runTask_cell in Er as (Hj & Ht & Hl & Hn).
    assert (current w2) as Hc2 by (unfold current; by rewrite Ht).
    destruct Hf as (Hf1 & Hf2 & Hf3).
    assert (∀ t' w3, moved i t' [] w2 w3 → moved i t' (commands [tspec_Task (bt_Spec t)]) w w3) as Hmv.
    { unfold moved. intros t' w3. rewrite Hj, Ht, Hl, Hf1, Hf2, Hf3, app_nil_r. done. }
    destruct r1 as [[err|]|].
    + destruct (fail_task _ _ _ _ w2) as [[r2 e2] w3] eqn:E. intros [= <- <-].
      apply fail_task_cell, Hmv in E; [|done..]. eexists _, _. split; [|exact E]. by apply Adv_run_failed.
    + destruct (Task_patchStatus _ _ w2) as [pe w3] eqn:E. intros [= <- <-].
      apply Task_patchStatus_cell, Hmv in E; [|done..]. eexists _, _. split; [|exact E]. by apply Adv_run.
    + intros [= <- <-]. exists t, []. split; [constructor|]. specialize (Hn eq_refl). rewrite Hn in Hmv.
      by apply Hmv, moved_same.
Qed.

Lemma Task_doReconcile_cell w r w' :
  current w → Task_doReconcile t w = (r, w') → ∃ t' sent, advance t t' sent ∧ moved i t' sent w w'.
Proof.
  intros Hc. unfold Task_doReconcile.
  pose proof (connection_options_frame frame (λ n ns, on_env_frame (bmc_Secret n ns)) t w) as Hf0.
  destruct (connection_options t w) as [r0 w0] eqn:E0. simpl in Hf0.
  pose proof (current_frame _ _ Hf0 Hc) as Hc0.
  destruct r0 as [err|[[u p] opts]].
  { intros [= <- <-]. exists t, []. split; [constructor|].
    eapply cell_moved_frame; [done|by apply moved_same|done]. }
  destruct (rc_Open _ _ _ _ w0) as [oe w1] eqn:Eo. cbn in Eo. apply on_env_inv in Eo as [_ Hf1].
  pose proof (current_frame _ _ Hf1 Hc0) as Hc1. destruct oe as [err|].
  - destruct (fail_task _ _ _ _ w1) as [[r1 e1] w2] eqn:E. intros [= <- <-].
    apply fail_task_cell in E; [|done..]. eexists _, []. split; [apply Adv_failed|].
    eapply cell_moved_frame; [|exact E|reflexivity]. by etrans.
  - destruct (run_or_check t w1) as [r1 w2] eqn:E. intros [= <- <-].
    apply run_or_check_cell in E as (t' & sent & Ha & Hm); [|done]. exists t', sent. split; [done|].
    eapply cell_moved_frame; [|exact Hm|done]. by etrans.
Qed.
End task_step.

(** ** The invariant is kept *)

Lemma task_done_set_failed msg t : task_done (failed_with msg t) = task_done t.
Proof. unfold task_done, failed_with. rewrite Task_HasCondition_set by eauto with tink. done. Qed.
Lemma task_done_completed now t : task_done (completed_at now t) = true.
Proof. unfold task_done, completed_at. rewrite Task_HasCondition_set by eauto with tink. done. Qed.
Lemma task_failed_completed now t : task_failed (completed_at now t) = task_failed t.
Proof. unfold task_failed, completed_at. rewrite Task_HasCondition_set by eauto with tink. done. Qed.

(** An open Task that advances stays what it is; once started it stays started,
    and the commands it sends are those its start accounts for. *)
Lemma advance_ok t t' sent :
  task_open t → advance t t' sent →
  bt_Meta t' = bt_Meta t ∧ bt_Spec t' = bt_Spec t ∧ task_ok t' ∧ sent_by t' = sent_by t ++ sent.
Proof.
  intros (_ & Hf & Hd) Ha. unfold sent_by.
  assert (∀ u, task_done u = false → task_ok u) as Hok by (intros u Hu; split; rewrite Hu; done).
  destruct Ha as [|msg|now Hs|now Hs|now msg Hs]; (split; [done|split; [done|]]).
  - rewrite app_nil_r. auto.
  - rewrite app_nil_r. split; [|done]. apply Hok. by rewrite task_done_set_failed.
  - rewrite app_nil_r. split; [|done]. split; [done|]. by rewrite task_failed_completed.
  - rewrite Hs. split; [|done]. by apply Hok.
  - rewrite Hs. split; [|done]. apply Hok. by rewrite task_done_set_failed.
Qed.

Lemma is_task_same j i t t' :
  bt_Meta t' = bt_Meta t → bt_Spec t' = bt_Spec t → is_task j i t → is_task j i t'.
Proof. unfold is_task. by intros -> ->. Qed.

Lemma binv_moved j0 i t t' sent w w' :
  binv j0 w → bc_tasks w !! i = Some t → task_open t → advance t t' sent → moved i t' sent w w' → binv j0 w'.
Proof.
  intros I Hi Ho Ha (Hj & Ht & Hs). pose proof (advance_ok _ _ _ Ho Ha) as (Hm & Hsp & Hok & Hby).
  assert (i < length (bc_tasks w)) as Hlt by (by eapply lookup_lt_Some).
  assert (S i = length (bc_tasks w)) as Hlast.
  { destruct (decide (S i = length (bc_tasks w))); [done|].
    pose proof (bi_order _ _ I i t Hi ltac:(lia)) as Hd. destruct Ho as (_ & _ & Ho). by rewrite Ho in Hd. }
  assert (∀ k u, <[i:=t']> (bc_tasks w) !! k = Some u → k = i ∧ u = t' ∨ bc_tasks w !! k = Some u) as Hk.
  { intros k u Hu. apply list_lookup_insert_Some in Hu. naive_solver. }
  split; rewrite ?Hj, ?Ht, ?Hs, ?length_insert.
  - apply I.
  - apply I.
  - intros k u [[-> ->]|Hu]%Hk; [|by apply I]. eapply is_task_same; [done..|]. by apply I.
  - intros k u [[-> ->]|Hu]%Hk; [done|]. by eapply I.
  - intros k u [[-> ->]|Hu]%Hk Hl; [lia|]. by eapply I.
  - rewrite (bi_sent _ _ I).
    assert (bc_tasks w = take i (bc_tasks w) ++ [t]) as E.
    { rewrite <-(take_S_r _ _ t) by done. by rewrite take_ge by lia. }
    rewrite insert_take_drop, drop_ge by lia. rewrite E at 1. rewrite !bind_app. csimpl.
    by rewrite !app_nil_r, Hby, app_assoc.
  - intros Hc. apply (bi_complete _ _ I) in Hc as [_ Hd]. rewrite Forall_lookup in Hd.
    destruct Ho as (_ & _ & Ho). pose proof (Hd _ _ Hi) as Hx. cbv beta in Hx. by rewrite Ho in Hx.
Qed.

Lemma binv_frame j0 w w' : frame w w' → binv j0 w → binv j0 w'.
Proof. intros (Hj & Ht & Hs) I. split; rewrite ?Hj, ?Ht, ?Hs; apply I. Qed.

Lemma binv_task_step j0 name ns w : binv j0 w → binv j0 (Task_Reconcile name ns w).2.
Proof.
  intros I. unfold Task_Reconcile. cbn -[Task_doReconcile].
  destruct (list_find _ _) as [[i t]|] eqn:El; [|done]. apply list_find_Some in El as (Hi & _ & _).
  destruct (om_DeletionTimestamp _) eqn:Ed; [done|]. destruct (_ || _) eqn:Eo; [done|].
  apply orb_false_iff in Eo as [??]. destruct (Task_doReconcile t w) as [r w'] eqn:E.
  eapply (Task_doReconcile_cell j0 i t) in E as (t' & sent & Ha & Hm); [|split; [apply I|done]].
  by eapply binv_moved.
Qed.

Definition is_job (j : Job) : Prop :=
  om_Kind (job_Meta j) = "Job" ∧ om_APIVersion (job_Meta j) = "bmc.tinkerbell.org/v1alpha1".

Lemma listed_all j0 w :
  is_job j0 → binv j0 w →
  filter (λ t, job_Name j0 ∈ TaskOwnerIndexFunc t ∧ bt_Namespace t = job_Namespace j0) (bc_tasks w) = bc_tasks w.
Proof.
  intros [Hk Hv] I. apply filter_all, Forall_lookup. intros i t (a & c & _ & Hm & _)%(bi_task _ _ I).
  unfold TaskOwnerIndexFunc, GetControllerOf, bt_Namespace. rewrite Hm. simpl.
  rewrite decide_False by (rewrite Hk, Hv; naive_solver). split; [set_solver|done].
Qed.

Lemma fresh_name j0 w a c :
  binv j0 w → ¬ Exists (named_as (task_for j0 (length (bc_tasks w)) a c)) (bc_tasks w).
Proof.
  intros I (t & Ht & Hn & _)%Exists_exists. apply list_elem_of_lookup in Ht as [i Hi].
  pose proof (bi_task _ _ I i t Hi) as [Hname _]%is_task_name. unfold bt_Name in *. rewrite Hname in Hn. simpl in Hn.
  apply FormatTaskName_inj in Hn. apply lookup_lt_Some in Hi. lia.
Qed.

(** The Job of the store changes its conditions and times only. *)
Definition job_same (j j' : Job) : Prop := job_Meta j' = job_Meta j ∧ job_Spec j' = job_Spec j.

Definition completed_job (j : Job) : bool := Job_HasCondition j JobCompleted ConditionTrue.

Definition jset (j : Job) (w : BmcCell B) : BmcCell B := mkBmcCell j (bc_tasks w) (bc_sent w) (bc_env w).

Lemma binv_jset j0 j w :
  binv j0 w → job_same j0 j → (completed_job j → length (bc_tasks w) = length (jspec_Tasks (job_Spec j0)) ∧
    Forall (λ t, task_done t) (bc_tasks w)) → binv j0 (jset j w).
Proof. intros I [Hm Hs] Hc. split; simpl; try apply I; done. Qed.

Lemma Job_patchStatus_cell o u w :
  job_same (bc_job w) u → Job_patchStatus o u w = (None, jset u w).
Proof.
  intros [Hm Hs]. unfold Job_patchStatus, jset. cbn. destruct u. cbn in *. by subst.
Qed.

Lemma job_same_set cond opts j : job_same j (Job_SetCondition cond ConditionTrue opts j).
Proof. done. Qed.

Lemma completed_job_set cond opts j :
  Forall (keeps jc_Type jc_Status) opts → cond ≠ JobCompleted →
  completed_job (Job_SetCondition cond ConditionTrue opts j) = completed_job j.
Proof. intros Ho Hc. unfold completed_job. rewrite Job_HasCondition_set by done. by rewrite decide_False. Qed.

Lemma fail_job_cell o job err w r e w' :
  job_same (bc_job w) job → fail_job o job err w = (r, e, w') →
  w' = jset (Job_SetCondition JobFailed ConditionTrue [WithJobConditionMessage (error_msg err)] job) w.
Proof. intros Hs. unfold fail_job. rewrite Job_patchStatus_cell by done. by intros [= _ _ <-]. Qed.

(** The next Task has been created. *)
Lemma binv_create j0 w a c :
  binv j0 w → Forall (λ t, task_done t) (bc_tasks w) → completed_job (bc_job w) = false →
  jspec_Tasks (job_Spec j0) !! length (bc_tasks w) = Some a →
  binv j0 (mkBmcCell (bc_job w) (bc_tasks w ++ [task_for j0 (length (bc_tasks w)) a c]) (bc_sent w) (bc_env w)).
Proof.
  intros I Hd Hc Ha. set (t := task_for _ _ _ _).
  assert (∀ i u, (bc_tasks w ++ [t]) !! i = Some u →
    bc_tasks w !! i = Some u ∨ (i = length (bc_tasks w) ∧ u = t)) as Hk.
  { intros i u [Hi|[Hi Hu]]%lookup_app_Some; [by left|].
    apply list_lookup_singleton_Some in Hu as [? <-]. right. split; [lia|done]. }
  split; simpl; rewrite ?length_app; simpl.
  - apply I.
  - apply I.
  - intros i u [Hi|[-> ->]]%Hk; [by apply I|]. by exists a, c.
  - intros i u [Hi|[-> ->]]%Hk; [by eapply I|done].
  - intros i u [Hi|[-> ->]]%Hk Hl; [|lia]. rewrite Forall_lookup in Hd. by eapply Hd.
  - rewrite bind_app, (bi_sent _ _ I). csimpl. by rewrite app_nil_r.
  - unfold completed_job in Hc. by rewrite Hc.
Qed.

Lemma binv_job_step j0 w : is_job j0 → binv j0 w → binv j0 (Job_Reconcile (job_Name (bc_job w)) (job_Namespace (bc_job w)) w).2.
Proof.
  intros HJ I. unfold Job_Reconcile. cbn -[Job_doReconcile]. rewrite decide_True by done.
  destruct (om_DeletionTimestamp _) eqn:Ed; [done|]. destruct (_ || _) eqn:Eo; [done|].
  apply orb_false_iff in Eo as [Hnc _]. unfold Job_doReconcile.
  set (j := bc_job w) in *.
  destruct (if Job_HasCondition j JobRunning ConditionTrue then _ else _) as [j' w0] eqn:E0.
  assert (job_same j0 j' ∧ completed_job j' = false ∧ frame w w0) as (Hsame & Hnc' & Hf).
  { assert (job_same j0 j) as Hj by (split; apply I).
    destruct (Job_HasCondition j JobRunning ConditionTrue); [by simplify_eq|]. revert E0. cbn -[Job_SetCondition].
    destruct (on_env bmc_Now w) as [now wx] eqn:En. apply on_env_inv in En as [_ Hf]. intros [= <- <-].
    rewrite completed_job_set by (done || constructor). split_and!; [apply Hj|done|apply Hf]. }
  clear E0. pose proof (binv_frame _ _ _ Hf I) as I0. destruct Hsame as [Hm Hs].
  destruct (getMachine _ w0) as [rm w1] eqn:Em.
  assert (frame w0 w1) as Hf1.
  { unfold getMachine in Em. cbn in Em. destruct (on_env _ w0) as [[err|m] wx] eqn:Ex;
      apply on_env_inv in Ex as [_ Hx]; simplify_eq; done. }
  pose proof (binv_frame _ _ _ Hf1 I0) as I1.
  destruct rm as [err|machine]; [done|].
  assert (job_same (bc_job w1) j') as Hsame1 by (split; rewrite ?(bi_meta _ _ I1), ?(bi_spec _ _ I1); done).
  assert (completed_job (bc_job w1) = false) as Hnc1 by (destruct Hf as [Hf _], Hf1 as [-> _]; by rewrite Hf).
  assert (job_same j0 j') as Hsame0 by done.
  cbn -[Job_SetCondition Job_patchStatus set_CompletionTime on_env fail_job createTaskWithOwner filter scan_tasks].
  unfold job_Name, job_Namespace in *. rewrite Hm, Hs. pose proof (listed_all _ _ HJ I1) as Hl.
  unfold job_Name, job_Namespace in Hl. rewrite Hl.
  pose proof (scan_tasks_spec 0 (bc_tasks w1)) as Hsc.
  destruct (scan_tasks 0 (bc_tasks w1)) as [m|t|]; [|..|done].
  - destruct Hsc as [-> Hd]. case_decide as Hc.
    + destruct (on_env bmc_Now w1) as [now w2] eqn:En. apply on_env_inv in En as [_ Hf2].
      pose proof (binv_frame _ _ _ Hf2 I1) as I2. destruct Hf2 as (Hj2 & Ht2 & _).
      rewrite Job_patchStatus_cell by (unfold job_same; rewrite Hj2; done). simpl.
      apply binv_jset; [done|done|]. by rewrite Ht2.
    + unfold createTaskWithOwner. rewrite Hs. destruct (_ !! _) as [a|] eqn:Ea; [|done].
      rewrite (task_for_meta j0 j') by done.
      cbn -[fail_job Job_patchStatus task_for]. rewrite decide_False by (by apply fresh_name). simpl.
      pose proof (binv_create _ _ a (m_Connection machine) I1 Hd Hnc1 Ea) as I2.
      destruct Hsame1 as [<- <-].
      match goal with |- context [mkJob ?m ?s ?st] => replace (mkJob m s st) with j' by (by destruct j') end.
      apply (binv_jset j0 j' _ I2); [done|]. by rewrite Hnc'.
  - destruct (fail_job _ _ _ w1) as [[r1 e1] w2] eqn:Ef. apply fail_job_cell in Ef as ->; [|done]. simpl.
    apply binv_jset; [done|done|]. by rewrite completed_job_set, Hnc' by eauto with tink.
Qed.

(** ** Main results *)

(** The store a Job starts from: no Task, nothing sent. *)
Definition new_job (w : BmcCell B) : Prop :=
  is_job (bc_job w) ∧ bc_tasks w = [] ∧ bc_sent w = [] ∧ completed_job (bc_job w) = false.

Lemma binv_new w : new_job w → binv (bc_job w) w.
Proof.
  intros (_ & Ht & Hs & Hc). split; rewrite ?Ht, ?Hs; try done.
  unfold completed_job in Hc. by rewrite Hc.
Qed.

Lemma bstep_inv j0 w w' : is_job j0 → binv j0 w → rtc bstep w w' → binv j0 w'.
Proof.
  intros HJ I. induction 1 as [|w w1 w2 H1 _ IH]; [done|]. apply IH. destruct H1.
  - by apply binv_job_step.
  - by apply binv_task_step.
  - by eapply binv_frame; [|exact I].
Qed.

(** Started Tasks account for the commands of their actions. *)
Lemma sent_all j0 (l : list bmc_Task) :
  (∀ i t, l !! i = Some t → is_task j0 i t ∧ started t) →
  l ≫= sent_by = commands (take (length l) (jspec_Tasks (job_Spec j0))).
Proof.
  induction l as [|t l IH] using rev_ind; intros Hl; [done|].
  destruct (Hl (length l) t) as [(a & c & Ha & _ & Hta) Hst]; [by rewrite lookup_app_r, Nat.sub_diag by lia|].
  rewrite bind_app, IH by (intros i u Hi; apply Hl; by apply lookup_app_l_Some).
  rewrite length_app, Nat.add_1_r, (take_S_r _ _ a) by done. csimpl. rewrite app_nil_r.
  unfold commands, sent_by. rewrite omap_app, Hta. by destruct (started t).
Qed.

(** The actions whose commands have been sent: all, or all but the last Task's. *)
Lemma binv_prefix j0 w :
  binv j0 w → ∃ k, k ≤ length (bc_tasks w) ∧ bc_sent w = commands (take k (jspec_Tasks (job_Spec j0))).
Proof.
  intros I. destruct (bc_tasks w) as [|t l] eqn:El using rev_ind.
  { exists 0. split; [done|]. rewrite (bi_sent _ _ I), El. done. }
  clear IHl.
  assert (∀ i u, l !! i = Some u → is_task j0 i u ∧ started u) as Hl.
  { intros i u Hi. assert (bc_tasks w !! i = Some u) as Hw by (rewrite El; by apply lookup_app_l_Some).
    split; [by apply I|]. apply (ok_done u), (bi_order _ _ I i u Hw); [by eapply I|].
    rewrite El, length_app. simpl. apply lookup_lt_Some in Hi. lia. }
  destruct (started t) eqn:Est.
  - exists (length (l ++ [t])). split; [done|]. rewrite (bi_sent _ _ I), El. apply sent_all.
    intros i u [Hi|[Hi Hu]]%lookup_app_Some; [by apply Hl|]. apply list_lookup_singleton_Some in Hu as [? <-].
    split; [|by rewrite Est]. apply I. rewrite El. by apply lookup_app_Some; right; rewrite list_lookup_singleton_Some.
  - exists (length l). split; [rewrite length_app; lia|]. rewrite (bi_sent _ _ I), El, bind_app. csimpl.
    unfold sent_by at 2. rewrite Est, !app_nil_r. by apply sent_all.
Qed.

Lemma binv_completed_sent j0 w :
  binv j0 w → completed_job (bc_job w) → bc_sent w = commands (jspec_Tasks (job_Spec j0)).
Proof.
  intros I Hc. apply (bi_complete _ _ I) in Hc as [Hlen Hd].
  rewrite (bi_sent _ _ I), <-(take_ge (jspec_Tasks _) _ (Nat.eq_le_incl _ _ (eq_sym Hlen))).
  apply sent_all. intros i t Hi. split; [by apply I|]. apply (ok_done t); [by eapply I|].
  rewrite Forall_lookup in Hd. by eapply Hd.
Qed.

(** C4: Rufio commands a BMC in order. Whatever the order in which the Job and
    its Tasks are reconciled, and whatever the BMC answers, the commands sent for
    a Job are those of an initial part of its actions, in order and each once; a
    Task sends its command only when all Tasks before it have completed, and
    when the Job is Completed every command of it has been sent. *)
Theorem job_commands_in_order w0 w :
  new_job w0 → rtc bstep w0 w →
  let actions := jspec_Tasks (job_Spec (bc_job w0)) in
  (∃ k, k ≤ length (bc_tasks w) ∧ bc_sent w = commands (take k actions)) ∧
  length (bc_tasks w) ≤ length actions ∧
  (∀ i t, bc_tasks w !! i = Some t → S i < length (bc_tasks w) → task_done t) ∧
  (completed_job (bc_job w) → bc_sent w = commands actions ∧ length (bc_tasks w) = length actions).
Proof.
  intros Hn Hr actions. pose proof (bstep_inv _ _ _ (proj1 Hn) (binv_new _ Hn) Hr) as I.
  split_and!; [by apply binv_prefix| |by apply I|].
  - destruct (decide (bc_tasks w = [])) as [->|Hne]; [simpl; lia|].
    destruct (bc_tasks w !! pred (length (bc_tasks w))) as [t|] eqn:E.
    + apply (bi_task _ _ I) in E as (a & c & Ha%lookup_lt_Some & _). subst actions. lia.
    + apply lookup_ge_None in E. destruct (bc_tasks w); simpl in *; [done|lia].
  - intros Hc. split; [by eapply binv_completed_sent|]. by apply (bi_complete _ _ I).
Qed.

(** ** A cooperative BMC *)

(** [G a t b]: a command for [a] was accepted at time [t] and the machine has
    reached, and keeps, the power state it asks for. *)
Record cooperative (G : bmc_Action → Z → B → Prop) : Prop := {
  co_machine n ns b : ∃ m, (bmc_Machine n ns b).1 = inr m;
  co_secret n ns b : ∃ data u p, (bmc_Secret n ns b).1 = inr data ∧
    data !! "username" = Some u ∧ data !! "password" = Some p;
  co_secret_keeps n ns a t b : G a t b → G a t (bmc_Secret n ns b).2;
  co_open h u p o b : (bmc_Open h u p o b).1 = None;
  co_open_keeps h u p o a t b : G a t b → G a t (bmc_Open h u p o b).2;
  co_close_keeps a t b : G a t b → G a t (bmc_Close b);
  co_command a c b :
    command_of a = Some c →
    ∃ b', bmc_Command c (bmc_Now b).2 = (true, None, b') ∧ G a (bmc_Now b).1 b';
  co_now a t b : G a t b → (time_Sub (bmc_Now b).1 t < 10 * time_Minute)%Z ∧ G a t (bmc_Now b).2;
  co_power a t b : G a t b →
    ∃ raw, (bmc_Power b).1 = inr raw ∧ (∀ s, power_goal a = Some s → toPowerState raw = s);
}.

Section live.
Context (G : bmc_Action → Z → B → Prop) (CO : cooperative G).

Lemma connection_options_coop t w : ∃ u p opts, (connection_options t w).1 = inr (u, p, opts).
Proof using CO.
  assert (∀ refs w, ∃ l, (hmac_refs refs w).1 = inr l) as Hrefs.
  { intros refs. induction refs as [|s refs IH]; intros v; [by exists []|]. cbn [hmac_refs].
    destruct (rc_GetSecret _ _ v) as [rd v1] eqn:E. cbn in E. apply on_env_inv in E as [E _].
    destruct (co_secret _ CO (sr_Name s) (sr_Namespace s) (bc_env v)) as (data & _ & _ & Hd & _).
    rewrite E in Hd. simpl in Hd. subst rd. destruct (IH v1) as (l & Hl).
    destruct (hmac_refs refs v1) as [[err|l'] v2]; simpl in *; [done|eauto]. }
  assert (∀ entries sec w, ∃ m, (hmac_loop entries sec w).1 = inr m) as Hloop.
  { intros entries. induction entries as [|[k refs] entries IH]; intros sec v; [by exists sec|]. cbn [hmac_loop].
    destruct (Hrefs refs v) as (l & Hl). destruct (hmac_refs refs v) as [[err|[|x l']] v1]; [done|..]; apply IH. }
  unfold connection_options. destruct (_ ≫= _) as [rpc|].
  - destruct (rpc_HMAC rpc) as [h|]; [|simpl; eauto]. case_decide; [simpl; eauto|]. unfold retrieveHMACSecrets.
    destruct (Hloop (map_to_list (hmac_Secrets h)) ∅ w) as (m & Hm).
    destruct (hmac_loop _ _ w) as [[err|se] w1]; [done|]. simpl. eauto.
  - unfold resolveAuthSecretRef. set (ref := conn_AuthSecretRef _).
    destruct (co_secret _ CO (sr_Name ref) (sr_Namespace ref) (bc_env w)) as (data & u & p & Hd & Hu & Hp).
    destruct (rc_GetSecret _ _ w) as [rd w1] eqn:E. cbn in E. apply on_env_inv in E as [E _].
    rewrite E in Hd. simpl in Hd. subst rd. rewrite Hu, Hp. simpl. eauto.
Qed.

Definition keepsG (w w' : BmcCell B) : Prop :=
  frame w w' ∧ ∀ a t, G a t (bc_env w) → G a t (bc_env w').
#[local] Instance keepsG_preorder : PreOrder keepsG.
Proof.
  split; [by intros w; split|]. intros w1 w2 w3 [F1 H1] [F2 H2]. split; [by etrans|]. auto.
Qed.

(** The connection of a Task opens. *)
Lemma connect_coop t w :
  ∃ w1 w2 u p opts, connection_options t w = (inr (u, p, opts), w1) ∧
    rc_Open (conn_Host (tspec_Connection (bt_Spec t))) u p opts w1 = (None, w2) ∧ keepsG w w2.
Proof using CO.
  destruct (connection_options_coop t w) as (u & p & opts & E).
  assert (keepsG w (connection_options t w).2) as Hk.
  { apply (connection_options_frame keepsG). intros n ns v. cbn. split; [apply on_env_frame|].
    unfold on_env. intros a s HG. pose proof (co_secret_keeps _ CO n ns a s _ HG) as H.
    by destruct (bmc_Secret n ns (bc_env v)). }
  destruct (connection_options t w) as [r w1]. simpl in *. subst r.
  destruct (rc_Open (conn_Host (tspec_Connection (bt_Spec t))) u p opts w1) as [e w2] eqn:Eo.
  cbn in Eo. apply on_env_inv in Eo as [Eo Ho].
  pose proof (co_open _ CO (conn_Host (tspec_Connection (bt_Spec t))) u p opts (bc_env w1)) as Hn.
  rewrite Eo in Hn. simpl in Hn. subst e. exists w1, w2, u, p, opts. split_and!; [done| |].
  - cbn. unfold on_env. rewrite Eo. destruct Ho as (Hj & Ht & Hs). destruct w2. cbn in *. by subst.
  - destruct Hk as [Hk1 Hk2]. split; [by etrans|]. intros a s HG. apply Hk2 in HG.
    pose proof (co_open_keeps _ CO (conn_Host (tspec_Connection (bt_Spec t))) u p opts a s _ HG) as H.
    by rewrite Eo in H.
Qed.

(** [k] Tasks, all done, and a Job that is neither completed, failed nor deleted. *)
Definition ready_for (j0 : Job) (k : nat) (w : BmcCell B) : Prop :=
  binv j0 w ∧ length (bc_tasks w) = k ∧ Forall (λ t, task_done t) (bc_tasks w) ∧ job_open (bc_job w).

Lemma getMachine_coop ref w : ∃ m w1, getMachine ref w = (inr m, w1) ∧ frame w w1.
Proof using CO.
  unfold getMachine. destruct (rc_GetMachine _ _ w) as [rm w1] eqn:E. cbn in E. apply on_env_inv in E as [E Hf].
  destruct (co_machine _ CO (mref_Name ref) (mref_Namespace ref) (bc_env w)) as (m & Hm).
  rewrite E in Hm. simpl in Hm. subst rm. eauto.
Qed.

Lemma scan_all_done n tasks : Forall (λ t, task_done t) tasks → scan_tasks n tasks = ScanDone (n + length tasks).
Proof.
  intros H. revert n. induction H as [|t tasks Ht _ IH]; intros n; simpl; [by rewrite Nat.add_0_r|].
  unfold task_done in Ht. destruct (Task_HasCondition t TaskCompleted ConditionTrue); [|done].
  rewrite IH. f_equal. lia.
Qed.

Definition job_turn (w : BmcCell B) : BmcCell B :=
  (Job_Reconcile (job_Name (bc_job w)) (job_Namespace (bc_job w)) w).2.

(** A reconciliation of a Job whose Tasks are done creates the next, or completes. *)
Lemma job_turn_ready j0 k w :
  is_job j0 → ready_for j0 k w →
  match jspec_Tasks (job_Spec j0) !! k with
  | Some a => job_open (bc_job (job_turn w)) ∧ ∃ c, bc_tasks (job_turn w) = bc_tasks w ++ [task_for j0 k a c]
  | None => k = length (jspec_Tasks (job_Spec j0)) → completed_job (bc_job (job_turn w))
  end.
Proof using CO.
  intros HJ (I & Hlen & Hd & Ho & Hnc & Hnf).
  unfold job_turn, Job_Reconcile. cbn -[Job_doReconcile].
  rewrite decide_True, Ho, Hnc, Hnf by done. simpl.
  unfold Job_doReconcile. set (j := bc_job w) in *.
  destruct (if Job_HasCondition j JobRunning ConditionTrue then _ else _) as [j' w0] eqn:E0.
  assert (job_Meta j' = job_Meta j ∧ job_Spec j' = job_Spec j ∧ job_open j' ∧ frame w w0) as (Hm & Hs & Hop & Hf).
  { destruct (Job_HasCondition j JobRunning ConditionTrue); [by simplify_eq|]. revert E0. cbn -[Job_SetCondition].
    destruct (on_env bmc_Now w) as [now wx] eqn:En. apply on_env_inv in En as [_ Hf]. intros [= <- <-].
    unfold job_open. rewrite !Job_HasCondition_set by constructor.
    rewrite !decide_False by done. split_and!; done. }
  clear E0. destruct (getMachine_coop (jspec_MachineRef (job_Spec j')) w0) as (m & w1 & -> & Hf1).
  pose proof (binv_frame _ _ _ Hf1 (binv_frame _ _ _ Hf I)) as I1.
  assert (bc_tasks w1 = bc_tasks w) as Ht1 by (destruct Hf as (_&Hf&_), Hf1 as (_&Hf1&_); congruence).
  assert (job_same (bc_job w1) j') as Hs1
    by (split; [rewrite (bi_meta _ _ I1), Hm|rewrite (bi_spec _ _ I1), Hs]; apply I).
  cbn -[Job_SetCondition Job_patchStatus set_CompletionTime on_env fail_job createTaskWithOwner filter scan_tasks].
  pose proof (listed_all _ _ HJ I1) as Hl. unfold job_Name, job_Namespace in *.
  rewrite Hm, Hs. subst j. rewrite (bi_meta _ _ I), (bi_spec _ _ I), Hl, scan_all_done by (by rewrite Ht1).
  rewrite Ht1, Hlen, Nat.add_0_l. cbv iota beta. destruct (_ !! k) as [a|] eqn:Ea.
  - rewrite decide_False by (apply lookup_lt_Some in Ea; lia). unfold createTaskWithOwner.
    rewrite Hs, (bi_spec _ _ I), Ea, (task_for_meta j0 j') by (rewrite Hm; apply I).
    cbn -[fail_job Job_patchStatus task_for].
    pose proof (fresh_name j0 w1 a (m_Connection m) I1) as Hfr. rewrite Ht1, Hlen in Hfr.
    rewrite decide_False by (by rewrite Ht1). cbn. destruct Hs1 as [<- <-]. split; [by destruct j'|].
    rewrite Ht1. eauto.
  - intros Hk. rewrite decide_True by done.
    destruct (on_env bmc_Now w1) as [now w2] eqn:En. apply on_env_inv in En as [_ Hf2].
    rewrite Job_patchStatus_cell by (unfold job_same; destruct Hf2 as [-> _]; done). simpl.
    unfold completed_job. change (Job_HasCondition (set_CompletionTime now ?x)) with (Job_HasCondition x).
    rewrite Job_HasCondition_set by constructor. done.
Qed.

Definition task_turn (j0 : Job) (k : nat) (w : BmcCell B) : BmcCell B :=
  (Task_Reconcile (FormatTaskName j0 k) (job_Namespace j0) w).2.

Lemma task_turn_open j0 k t w :
  binv j0 w → bc_tasks w !! k = Some t → task_open t → task_turn j0 k w = (Task_doReconcile t w).2.
Proof.
  intros I Hk (Hdel & Hf & Hd). unfold task_turn, Task_Reconcile. cbn -[Task_doReconcile].
  assert (is_task j0 k t) as [Hn Hns]%is_task_name by (by apply I).
  destruct (list_find _ _) as [[i u]|] eqn:El.
  - apply list_find_Some in El as (Hi & [Hu Huns] & _).
    assert (i = k) as ->. { apply (is_task_inj j0 i k u t); [by apply I..|]. unfold named_as. by rewrite Hn, Hns. }
    simplify_eq. rewrite Hdel. unfold task_failed in Hf. unfold task_done in Hd. by rewrite Hf, Hd.
  - apply list_find_None in El. rewrite Forall_lookup in El. destruct (El k t Hk). done.
Qed.

(** A new Task sends its command. *)
Lemma task_turn_starts j0 k t a w :
  binv j0 w → bc_tasks w !! k = Some t → task_open t → tst_StartTime (bt_Status t) = None →
  tspec_Task (bt_Spec t) = a → is_Some (command_of a) →
  ∃ now, bc_tasks (task_turn j0 k w) = <[k := started_at now t]> (bc_tasks w) ∧
    bc_job (task_turn j0 k w) = bc_job w ∧ G a now (bc_env (task_turn j0 k w)).
Proof using CO.
  intros I Hk Ho Hs Ha [c Hc]. rewrite (task_turn_open j0 k t) by done. unfold Task_doReconcile.
  destruct (connect_coop t w) as (w1 & w2 & u & p & opts & -> & -> & (Hj & Ht & Hse) & _).
  unfold run_or_check. rewrite Hs.
  destruct (rc_Now w2) as [now w3] eqn:En. cbn in En. apply on_env_inv in En as [En (Hj3 & Ht3 & _)].
  destruct (co_command _ CO a c (bc_env w2) Hc) as (b & Hb & HG). rewrite En in Hb, HG. simpl in Hb, HG.
  assert (∃ w4, runTask (tspec_Task (bt_Spec t)) w3 = (Some None, w4) ∧ bc_env w4 = b ∧ bc_tasks w4 = bc_tasks w3 ∧
    bc_job w4 = bc_job w3) as (w4 & -> & He4 & Ht4 & Hj4).
  { rewrite Ha. unfold runTask. cbn. unfold command_of in Hc.
    repeat case_match; simplify_eq/=; rewrite ?Hb in *; simplify_eq/=; eauto. }
  assert (is_task j0 k t) as Hit by (by apply I).
  assert (current j0 k t w4) as Hc4 by (unfold current; rewrite Ht4, Ht3, Ht; split; [apply I|done]).
  cbv zeta. destruct (Task_patchStatus _ _ w4) as [pe w5] eqn:E5.
  assert (bc_env w5 = b) as He5 by (rewrite <-He4; unfold Task_patchStatus in E5; cbn in E5; by simplify_eq).
  apply (Task_patchStatus_cell j0 k) in E5 as (Hj5 & Ht5 & _); [|done..]. exists now. cbn.
  rewrite Ht5, Hj5, He5, Ht4, Ht3, Ht, Hj4, Hj3, Hj. split_and!; [done|done|]. by apply co_close_keeps.
Qed.

(** A started Task is completed. *)
Lemma task_turn_completes j0 k t start w :
  binv j0 w → bc_tasks w !! k = Some t → task_open t → tst_StartTime (bt_Status t) = Some start →
  G (tspec_Task (bt_Spec t)) start (bc_env w) →
  ∃ now, bc_tasks (task_turn j0 k w) = <[k := completed_at now t]> (bc_tasks w) ∧
    bc_job (task_turn j0 k w) = bc_job w.
Proof using CO.
  intros I Hk Ho Hs HG. rewrite (task_turn_open j0 k t) by done. unfold Task_doReconcile.
  destruct (connect_coop t w) as (w1 & w2 & u & p & opts & -> & -> & (Hj & Ht & Hse) & Hkeep).
  apply Hkeep in HG. unfold run_or_check. rewrite Hs.
  destruct (rc_Now w2) as [now w3] eqn:En. cbn in En. apply on_env_inv in En as [En (Hj3 & Ht3 & _)].
  destruct (co_now _ CO _ _ _ HG) as [Hlt HG3]. rewrite En in Hlt, HG3. simpl in Hlt, HG3.
  cbv zeta. rewrite decide_False by lia.
  assert (∃ w4, checkTaskStatus (tspec_Task (bt_Spec t)) w3 = (zero_Result, None, w4) ∧ frame w3 w4)
    as (w4 & -> & (Hj4 & Ht4 & _)).
  { unfold checkTaskStatus. destruct (ba_PowerAction (tspec_Task (bt_Spec t))) as [pa|] eqn:Epa; [|by exists w3].
    destruct (rc_GetPowerState w3) as [rp w4] eqn:Ep. cbn in Ep. apply on_env_inv in Ep as [Ep Hf4].
    destruct (co_power _ CO _ _ _ HG3) as (raw & Hraw & Hgoal). rewrite Ep in Hraw. simpl in Hraw. subst rp.
    unfold power_goal in Hgoal. rewrite Epa in Hgoal. exists w4. rewrite decide_False; [done|].
    intros [[-> Hne]|[Hp Hne]].
    - rewrite decide_True in Hgoal by done. by apply Hne, Hgoal.
    - rewrite decide_False in Hgoal by (by destruct Hp as [-> | ->]). rewrite decide_True in Hgoal by done.
      by apply Hne, Hgoal. }
  rewrite decide_False by (intros []; done).
  destruct (rc_Now w4) as [now2 w5] eqn:En2. cbn in En2. apply on_env_inv in En2 as [_ (Hj5 & Ht5 & _)].
  rewrite <-Hs. destruct (Task_patchStatus _ _ w5) as [pe w6] eqn:E6.
  apply (Task_patchStatus_cell j0 k) in E6 as (Hj6 & Ht6 & _); [|split; rewrite Ht5, Ht4, Ht3, Ht; [apply I|done]|done..].
  exists now2. cbn -[completed_at]. rewrite Ht6, Hj6, Hj5, Ht5, Hj4, Ht4, Hj3, Ht3, Hj, Ht. done.
Qed.

(** One round: the Job, then its last Task twice. *)
Definition bround (j0 : Job) (k : nat) (w : BmcCell B) : BmcCell B :=
  task_turn j0 k (task_turn j0 k (job_turn w)).

Lemma bround_ready j0 k w a :
  is_job j0 → ready_for j0 k w → jspec_Tasks (job_Spec j0) !! k = Some a → is_Some (command_of a) →
  ready_for j0 (S k) (bround j0 k w).
Proof using CO.
  intros HJ R Ha Hc. pose proof (job_turn_ready j0 k w HJ R) as H. rewrite Ha in H. destruct H as (Ho & c & Ht).
  destruct R as (I & Hlen & Hd & _).
  pose proof (binv_job_step j0 w HJ I) as I1. fold (job_turn w) in I1. set (w1 := job_turn w) in *.
  set (t := task_for j0 k a c) in *.
  assert (bc_tasks w1 !! k = Some t) as Hk by (rewrite Ht, lookup_app_r, Hlen, Nat.sub_diag by lia; done).
  destruct (task_turn_starts j0 k t a w1 I1 Hk) as (now & Ht2 & Hj2 & HG); [done..|].
  assert (binv j0 (task_turn j0 k w1)) as I2 by (by apply binv_task_step). set (w2 := task_turn j0 k w1) in *.
  assert (k < length (bc_tasks w1)) as Hlt by (by eapply lookup_lt_Some).
  destruct (task_turn_completes j0 k (started_at now t) now w2 I2) as (now2 & Ht3 & Hj3); [|done..|].
  { by rewrite Ht2, list_lookup_insert_eq. }
  assert (binv j0 (task_turn j0 k w2)) as I3 by (by apply binv_task_step).
  unfold bround. fold w1 w2. split_and!; [done|..].
  - rewrite Ht3, Ht2, !length_insert, Ht, length_app. simpl. lia.
  - rewrite Ht3, Ht2, list_insert_insert_eq, Ht.
    rewrite insert_app_r_alt, Hlen, Nat.sub_diag by lia. simpl. apply Forall_app. split; [done|].
    constructor; [by rewrite task_done_completed|done].
  - by rewrite Hj3, Hj2.
Qed.

Fixpoint brounds (j0 : Job) (k n : nat) (w : BmcCell B) : BmcCell B :=
  match n with
  | O => job_turn w
  | S n => brounds j0 (S k) n (bround j0 k w)
  end.

Lemma task_turn_step j0 k w : bstep w (task_turn j0 k w).
Proof. apply BS_task. Qed.

Lemma brounds_steps j0 n k w : rtc bstep w (brounds j0 k n w).
Proof.
  revert k w. induction n as [|n IH]; intros k w; [apply rtc_once, BS_job|]. cbn [brounds].
  unfold bround. eapply rtc_l; [apply BS_job|]. do 2 (eapply rtc_l; [apply task_turn_step|]). apply IH.
Qed.

Lemma brounds_complete j0 n k w :
  is_job j0 → ready_for j0 k w → k + n = length (jspec_Tasks (job_Spec j0)) →
  Forall (λ a, is_Some (command_of a)) (jspec_Tasks (job_Spec j0)) →
  completed_job (bc_job (brounds j0 k n w)).
Proof using CO.
  intros HJ R Hn Hall. revert k w R Hn. induction n as [|n IH]; intros k w R Hn; cbn [brounds].
  - pose proof (job_turn_ready j0 k w HJ R) as H. rewrite lookup_ge_None_2 in H by lia. apply H. lia.
  - destruct (lookup_lt_is_Some_2 (jspec_Tasks (job_Spec j0)) k) as [a Ha]; [lia|].
    apply IH; [|lia]. eapply bround_ready; [done..|]. rewrite Forall_lookup in Hall. by eapply Hall.
Qed.

End live.
End cell.
