(* ===== verification/MachineCtl.v ===== *)
(** * Rufio: the Machine reconciler

    rufio/internal/controller/machine.go, and of inventory.go the collection of
    a machine's inventory: the power state of a BMC and whether it answers are
    recorded in the status of the Machine, and, when due, the inventory of the
    BMC in the status of the Hardware that refers to it.

    Objects the code mutates in place are passed and returned. Logs are not
    modelled; the Warning events of the recorder are calls of the environment. *)
From S2P Require Import Prelude GoStrings BmcTypes InventoryTypes Api BmcApi WorkflowJob Rufio BmcJobs Float64 Inventory.

(** ** The environment *)

Class InventoryClient (W : Type) := {
  (** the Hardware of a namespace indexed under [hardwareBMCRefIndexKey] *)
  ic_ListHardware (ns bmcRef : string) : W → res (list Hardware) * W;
  (** [Status().Apply] of [status.attributes.outOfBand], forced, by the field
      owner machine-controller *)
  ic_ApplyOutOfBand (name ns : string) (a : inv_Attributes) : W → option error * W;
  (** [Patch] and [Status().Patch]; the former updates the object with the
      server's answer *)
  ic_PatchMachine (original updated : Machine) : W → res Machine * W;
  ic_PatchMachineStatus (original updated : Machine) : W → option error * W;
  (** [bmcClient.Inventory] and [bmcClient.GetMetadata().SuccessfulProvider] *)
  ic_Inventory : W → res (option c_Device) * W;
  ic_SuccessfulProvider : W → string * W;
  ic_Eventf (reason action note : string) : W → W;
  (** [retry.Do(op, retry.Attempts(n), ...)] *)
  ic_Retry {S : Type} (n : nat) (op : S → option error * S) : S → option error * S;
}.

(** ** Constants *)

Definition machineRequeueInterval : Z := (3 * time_Minute)%Z.
Definition refreshInventoryAnnotation : string := "tinkerbell.org/refresh-inventory".
Definition disableOutOfBandInventoryAnnotation : string := "tinkerbell.org/disable-outofband-inventory".
Definition trueString : string := "true".

(** ** The reconciler *)

Record MachineReconciler := mkMachineReconciler {
  mr_powerCheckInterval : Z;
  mr_inventoryRefreshInterval : Z;
  mr_inventoryCollectionEnabled : bool;
}.

Definition NewMachineReconciler (powerCheckInterval inventoryRefreshInterval : Z) (inventoryCollectionEnabled : bool)
    : MachineReconciler :=
  mkMachineReconciler
    (if decide (0 < powerCheckInterval)%Z then powerCheckInterval else machineRequeueInterval)
    (if decide (0 < inventoryRefreshInterval)%Z then inventoryRefreshInterval else defaultInventoryRefreshInterval)
    inventoryCollectionEnabled.

Definition m_Name (m : Machine) : string := om_Name (m_Meta m).
Definition m_Namespace (m : Machine) : string := om_Namespace (m_Meta m).

Definition annotation (k : string) (m : ObjectMeta) : string := default "" (om_Annotations m !! k).

Definition set_Power (p : string) (m : Machine) : Machine :=
  mkMachine (m_Meta m) (m_Connection m) (mkMachineStatus p (mst_Conditions (m_Status m))).

Definition delete_annotation (k : string) (bm : Machine) : Machine :=
  let m := m_Meta bm in
  mkMachine (mkObjectMeta (om_APIVersion m) (om_Kind m) (om_Name m) (om_Namespace m) (om_UID m) (om_Labels m)
      (delete k (om_Annotations m)) (om_OwnerReferences m) (om_DeletionTimestamp m))
    (m_Connection bm) (m_Status bm).

Definition hardwareBMCRefIndexFunc (hw : Hardware) : list string :=
  match hs_BMCRef (hw_Spec hw) with None => [] | Some name => [name] end.

Definition outOfBandAttributes (hw : Hardware) : option inv_Attributes :=
  match hst_Attributes (hw_Status hw) with None => None | Some a => ha_OutOfBand a end.

Definition set_OutOfBand (a : inv_Attributes) (hw : Hardware) : Hardware :=
  mkHardware (hw_Meta hw) (hw_Spec hw)
    (mkHardwareStatus (hst_State (hw_Status hw)) (Some (mkHardwareAttributes (Some a)))).

Section Machines.
Context {W : Type} `{RufioClient W} `{InventoryClient W} `{Safecast}.

(** *** inventory.go *)

Definition dueForInventoryRefresh (hw : Hardware) (bm : Machine) (interval : Z) (w : W) : bool * W :=
  if decide (annotation refreshInventoryAnnotation (m_Meta bm) = trueString) then (true, w)
  else
    match inv ← outOfBandAttributes hw; ia_LastUpdated inv with
    | None => (true, w)
    | Some t =>
        let '(now, w) := rc_Now w in
        (bool_decide (wrap64 (interval + inventoryJitter (m_Namespace bm) (m_Name bm) interval) < time_Sub now t)%Z, w)
    end.

Definition findLinkedHardware (bm : Machine) (w : W) : res (option Hardware) * W :=
  match ic_ListHardware (m_Namespace bm) (m_Name bm) w with
  | (inl err, w) =>
      (inl (ErrWrap ("failed to list Hardware for Machine " +:+ key_str (m_Namespace bm) (m_Name bm) +:+ ": ") err), w)
  | (inr items, w) =>
      match items with
      | [] => (inr None, w)
      | [hw] => (inr (Some hw), w)
      | _ => (inl (ErrNew ("ambiguous Hardware link for Machine " +:+ key_str (m_Namespace bm) (m_Name bm) +:+ ": "
                +:+ Itoa (Z.of_nat (length items)) +:+ " Hardware objects reference it via spec.bmcRef, want at most 1")), w)
      end
  end.

Definition applyHardwareOutOfBand (hw : Hardware) (newInventory : inv_Attributes) (w : W) : option error * Hardware * W :=
  match ic_ApplyOutOfBand (hw_Name hw) (hw_Namespace hw) newInventory w with
  | (Some err, w) =>
      (Some (ErrWrap ("failed to apply Hardware " +:+ key_str (hw_Namespace hw) (hw_Name hw)
                      +:+ " status.attributes.outOfBand: ") err), hw, w)
  | (None, w) => (None, set_OutOfBand newInventory hw, w)
  end.

(** [DeepEqual] after the times are dropped; a nil existing subtree differs. *)
Definition unchanged (existing : option inv_Attributes) (new : inv_Attributes) : bool :=
  bool_decide (set_LastUpdated None <$> existing = Some (set_LastUpdated None new)).

Definition applyOutOfBandAttributes (hw : Hardware) (device : option c_Device) (collectionMethod : string) (w : W)
    : option error * Hardware * W :=
  let '(now, w) := rc_Now w in
  match attributesFromDevice device collectionMethod (Some now) with
  | None =>
      applyHardwareOutOfBand hw
        (match outOfBandAttributes hw with
         | None => bare_Attributes (Some now) collectionMethod
         | Some existing => set_CollectionMethod collectionMethod (set_LastUpdated (Some now) existing)
         end) w
  | Some newInventory =>
      if unchanged (outOfBandAttributes hw) newInventory then (None, hw, w)
      else applyHardwareOutOfBand hw newInventory w
  end.

Definition reconcileInventory (hw : Hardware) (w : W) : option error * Hardware * W :=
  match ic_Inventory w with
  | (inl err, w) => (Some (ErrWrap "get BMC inventory: " err), hw, w)
  | (inr device, w) =>
      let '(provider, w) := ic_SuccessfulProvider w in
      applyOutOfBandAttributes hw (sortDevice device) provider w
  end.

Definition clearRefreshInventoryAnnotation (bm : Machine) (w : W) : Machine * W :=
  if decide (annotation refreshInventoryAnnotation (m_Meta bm) ≠ trueString) then (bm, w)
  else
    let attempt '(b, w) :=
      match ic_PatchMachine bm b w with
      | (inl err, w) => (Some err, (b, w))
      | (inr b', w) => (None, (b', w))
      end in
    match ic_Retry 3 attempt (delete_annotation refreshInventoryAnnotation bm, w) with
    | (None, (b, w)) => (b, w)
    | (Some err, (b, w)) =>
        (b, ic_Eventf "ClearRefreshAnnotationFailed" "ClearRefreshInventoryAnnotation"
              ("clear refresh-inventory annotation: " +:+ error_msg err) w)
    end.

(** *** machine.go *)

Definition updatePowerState (bm : Machine) (w : W) : option error * Machine * W :=
  match rc_GetPowerState w with
  | (inl err, w) =>
      (Some (ErrWrap "get power state: " err), set_Power PowerUnknown bm,
       ic_Eventf "GetPowerStateFailed" "GetPowerState" ("get power state: " +:+ error_msg err) w)
  | (inr rawState, w) => (None, set_Power (toPowerState rawState) bm, w)
  end.

Definition reconcileInventoryIfDue (r : MachineReconciler) (bm : Machine) (w : W) : Machine * W :=
  if negb (mr_inventoryCollectionEnabled r) then (bm, w)
  else
    match findLinkedHardware bm w with
    | (inl err, w) =>
        (bm, ic_Eventf "HardwareLookupFailed" "FindLinkedHardware" ("find linked Hardware: " +:+ error_msg err) w)
    | (inr None, w) => (bm, w)
    | (inr (Some hw), w) =>
        if decide (annotation disableOutOfBandInventoryAnnotation (hw_Meta hw) = trueString) then (bm, w)
        else
          let '(due, w) := dueForInventoryRefresh hw bm (mr_inventoryRefreshInterval r) w in
          if due then
            match reconcileInventory hw w with
            | (Some err, _, w) =>
                (bm, ic_Eventf "InventoryUnreachable" "GetInventory" ("get BMC inventory: " +:+ error_msg err) w)
            | (None, _, w) => clearRefreshInventoryAnnotation bm w
            end
          else (bm, w)
    end.

Definition Machine_patchStatus (original bm : Machine) (w : W) : option error * W :=
  match ic_PatchMachineStatus original bm w with
  | (Some err, w) =>
      (Some (ErrWrap ("failed to patch Machine " +:+ key_str (m_Namespace bm) (m_Name bm) +:+ " status: ") err), w)
  | (None, w) => (None, w)
  end.

(** The credentials or secrets of the connection. *)
Definition machine_options (bm : Machine) (w : W) : res (string * string * BMCOptions) * W :=
  let conn := m_Connection bm in
  let opts := conn_ProviderOptions conn in
  match po ← opts; po_RPC po with
  | Some rpc =>
      match rpc_HMAC rpc with
      | Some h =>
          if decide (hmac_Secrets h = ∅) then (inr ("", "", mkBMCOptions opts None), w)
          else
            match retrieveHMACSecrets (hmac_Secrets h) w with
            | (inl err, w) => (inl (ErrWrap "unable to get hmac secrets: " err), w)
            | (inr se, w) => (inr ("", "", mkBMCOptions opts (Some se)), w)
            end
      | None => (inr ("", "", mkBMCOptions opts None), w)
      end
  | None =>
      match resolveAuthSecretRef (conn_AuthSecretRef conn) w with
      | (inl err, w) =>
          (inl (ErrWrap ("resolving Machine " +:+ key_str (m_Namespace bm) (m_Name bm) +:+ " SecretReference: ") err), w)
      | (inr (u, p), w) => (inr (u, p, mkBMCOptions opts None), w)
      end
  end.

(** [bm.SetCondition], at the time of the clock. *)
Definition set_contactable (status msg : string) (bm : Machine) (w : W) : Machine * W :=
  let '(now, w) := rc_Now w in
  (Machine_SetCondition now Contactable status [WithMachineConditionMessage msg] bm, w).

(** With the connection open. *)
Definition Machine_report (r : MachineReconciler) (original : Machine) (w : W) : Result * option error * W :=
  let '(pErr, bm, w) := updatePowerState original w in
  let '(bm, w) :=
    match pErr with
    | None => set_contactable ConditionTrue "" bm w
    | Some err => set_contactable ConditionFalse (error_msg err) bm w
    end in
  let '(bm, w) := reconcileInventoryIfDue r bm w in
  match Machine_patchStatus original bm w with
  | (Some err, w) =>
      (zero_Result, Some (match pErr with None => err | Some e => ErrJoin e err end), w)
  | (None, w) => (mkResult false (mr_powerCheckInterval r), None, w)
  end.

Definition Machine_doReconcile (r : MachineReconciler) (original : Machine) (w : W) : Result * option error * W :=
  match machine_options original w with
  | (inl err, w) => (zero_Result, Some err, w)
  | (inr (username, password, opts), w) =>
      match rc_Open (conn_Host (m_Connection original)) username password opts w with
      | (Some err, w) =>
          let '(bm, w) := set_contactable ConditionFalse (error_msg err) original w in
          match Machine_patchStatus original (set_Power PowerUnknown bm) w with
          | (Some patchErr, w) => (zero_Result, Some (ErrJoin patchErr err), w)
          | (None, w) => (mkResult false (mr_powerCheckInterval r), None, w)
          end
      | (None, w) =>
          let '(res, e, w) := Machine_report r original w in (res, e, rc_Close w)
      end
  end.

Definition Machine_Reconcile (r : MachineReconciler) (name ns : string) (w : W) : Result * option error * W :=
  match rc_GetMachine name ns w with
  | (inl err, w) => (zero_Result, if IsNotFound err then None else Some err, w)
  | (inr machine, w) =>
      match om_DeletionTimestamp (m_Meta machine) with
      | Some _ => (zero_Result, None, w)
      | None => Machine_doReconcile r machine w
      end
  end.

End Machines.

(** ** When inventory is due *)

Section Due.
Context {W : Type} `{RufioClient W}.


End Due.

(** ** What a reconciliation does *)

Inductive mach_event :=
| MOpen (e : option error)
| MClose
| MCommand (c : bmc_command)
| MPower (r : res string)
| MInventory (r : res (option c_Device))
| MApply (name ns : string) (a : inv_Attributes) (e : option error)
| MPatchMachine (original updated : Machine) (r : res Machine)
| MPatchStatus (original updated : Machine) (e : option error)
| MOther.

Section Logged.
Context {W : Type} (RC : RufioClient W) (IC : InventoryClient W).

Definition mread {A} (f : W → A * W) (wl : W * list mach_event) : A * (W * list mach_event) :=
  let '(a, w) := f wl.1 in (a, (w, wl.2)).

Definition mlog {A} (ev : A → mach_event) (f : W → A * W) (wl : W * list mach_event) : A * (W * list mach_event) :=
  let '(a, w) := f wl.1 in (a, (w, wl.2 ++ [ev a])).

Definition mlogged_rufio : RufioClient (W * list mach_event) := {|
  rc_GetJob n ns := mread (rc_GetJob n ns);
  rc_PatchJobStatus o u := mlog (λ _, MOther) (rc_PatchJobStatus o u);
  rc_GetMachine n ns := mread (rc_GetMachine n ns);
  rc_ListTasks o ns := mread (rc_ListTasks o ns);
  rc_CreateTask t := mlog (λ _, MOther) (rc_CreateTask t);
  rc_GetTask n ns := mread (rc_GetTask n ns);
  rc_PatchTaskStatus o u := mlog (λ _, MOther) (rc_PatchTaskStatus o u);
  rc_GetSecret n ns := mread (rc_GetSecret n ns);
  rc_Now := mread rc_Now;
  rc_Open h u p o := mlog MOpen (rc_Open h u p o);
  rc_Close wl := (rc_Close wl.1, wl.2 ++ [MClose]);
  rc_Command c := mlog (λ _, MCommand c) (rc_Command c);
  rc_GetPowerState := mlog MPower rc_GetPowerState;
|}.

Definition mlogged : InventoryClient (W * list mach_event) := {|
  ic_ListHardware ns b := mread (ic_ListHardware ns b);
  ic_ApplyOutOfBand n ns a := mlog (MApply n ns a) (ic_ApplyOutOfBand n ns a);
  ic_PatchMachine o u := mlog (MPatchMachine o u) (ic_PatchMachine o u);
  ic_PatchMachineStatus o u := mlog (MPatchStatus o u) (ic_PatchMachineStatus o u);
  ic_Inventory := mlog MInventory ic_Inventory;
  ic_SuccessfulProvider := mread ic_SuccessfulProvider;
  ic_Eventf r a n wl := (ic_Eventf r a n wl.1, wl.2);
  ic_Retry S := ic_Retry;
|}.

Lemma mread_inv {A} (f : W → A * W) wl a wl' : mread f wl = (a, wl') → f wl.1 = (a, wl'.1) ∧ wl'.2 = wl.2.
Proof. unfold mread. destruct (f wl.1). by intros [= <- <-]. Qed.

Lemma mlog_inv {A} (ev : A → mach_event) f wl a wl' :
  mlog ev f wl = (a, wl') → f wl.1 = (a, wl'.1) ∧ wl'.2 = wl.2 ++ [ev a].
Proof. unfold mlog. destruct (f wl.1). by intros [= <- <-]. Qed.

End Logged.

(** What the documentation of [retry.Do] promises: at most [n] attempts, until
    one succeeds or the context ends. *)
Inductive retry_upto {S} (op : S → option error * S) : nat → S → option error → S → Prop :=
| upto_cancelled n s err : retry_upto op n s (Some err) s
| upto_ok n s s' : op s = (None, s') → retry_upto op (Datatypes.S n) s None s'
| upto_again n s err s1 e s' :
    op s = (Some err, s1) → retry_upto op n s1 e s' → retry_upto op (Datatypes.S n) s e s'.

Class RetryLaw (W : Type) `{InventoryClient W} :=
  retry_law : ∀ (S : Type) n (op : S → option error * S) s e s', ic_Retry n op s = (e, s') → retry_upto op n s e s'.

(** *** Inventory *)

(** The events of a collection: the report of the BMC, then at most one write of
    attributes, converted from it or those before it with a new time. *)
Inductive collection : list mach_event → bool → Prop :=
| col_failed err : collection [MInventory (inl err)] false
| col_unchanged d : collection [MInventory (inr d)] true
| col_applied d name ns a e : collection [MInventory (inr d); MApply name ns a e] (bool_decide (e = None)).

(** The patches that remove the annotation from [m], all but the last refused. *)
Inductive clearing (m : Machine) : nat → list mach_event → option Machine → Prop :=
| clr_none n : clearing m n [] None
| clr_ok n u b : clearing m (S n) [MPatchMachine m u (inr b)] (Some b)
| clr_again n u err es b : clearing m n es b → clearing m (S n) (MPatchMachine m u (inl err) :: es) b.

(** The events of [reconcileInventoryIfDue] on the Machine [m], and the Machine
    it leaves. *)
Inductive inventory_events (r : MachineReconciler) (m : Machine) : list mach_event → Machine → Prop :=
| inv_none : inventory_events r m [] m
| inv_collected es ok : mr_inventoryCollectionEnabled r = true → collection es ok →
    (ok = true → annotation refreshInventoryAnnotation (m_Meta m) ≠ trueString) → inventory_events r m es m
| inv_cleared es cs b : mr_inventoryCollectionEnabled r = true → collection es true →
    annotation refreshInventoryAnnotation (m_Meta m) = trueString → clearing m 3 cs b →
    inventory_events r m (es ++ cs) (default (delete_annotation refreshInventoryAnnotation m) b).

Section Events.
Context {W : Type} (RC : RufioClient W) (IC : InventoryClient W) `{!RetryLaw W} `{Safecast}.
Existing Instance mlogged_rufio.
Existing Instance mlogged.

Ltac munlog :=
  simpl in *;
  repeat match goal with
         | H : mread _ _ = _ |- _ => apply mread_inv in H as [? ?]
         | H : mlog _ _ _ = _ |- _ => apply mlog_inv in H as [? ?]
         end; simpl in *.

Lemma applyOutOfBand_log hw d p wl e hw' wl' :
  applyOutOfBandAttributes hw d p wl = (e, hw', wl') →
  (e = None ∧ wl'.2 = wl.2) ∨ (∃ name ns a e', wl'.2 = wl.2 ++ [MApply name ns a e'] ∧ bool_decide (e' = None) = bool_decide (e = None)).
Proof.
  unfold applyOutOfBandAttributes, applyHardwareOutOfBand. intros E. follow; munlog.
  all: try (left; split; [done|congruence]).
  all: right; do 4 eexists; split; [etrans; [eassumption|by f_equal]|done].
Qed.

Lemma reconcileInventory_log hw wl e hw' wl' :
  reconcileInventory hw wl = (e, hw', wl') →
  ∃ es, wl'.2 = wl.2 ++ es ∧ collection es (bool_decide (e = None)).
Proof.
  unfold reconcileInventory. intros E. destruct (ic_Inventory wl) as [[err|d] wl1] eqn:Ei.
  - simplify_eq/=. munlog. eexists. split; [eassumption|]. apply col_failed.
  - destruct (ic_SuccessfulProvider wl1) as [p wl2] eqn:Ep. munlog.
    apply applyOutOfBand_log in E as [[-> E]|(name & ns & a & e' & E & Hb)].
    + exists [MInventory (inr d)]. split; [congruence|]. apply col_unchanged.
    + exists [MInventory (inr d); MApply name ns a e']. rewrite <-Hb. split; [|apply col_applied].
      rewrite E. chain.
Qed.

(** The attempts to remove the annotation. *)
Lemma clearing_log m b0 n wl e s' :
  retry_upto (λ '(b, w), match ic_PatchMachine m b w with
                         | (inl err, w) => (Some err, (b, w)) | (inr b', w) => (None, (b', w)) end) n (b0, wl) e s' →
  ∃ cs b, s'.2.2 = wl.2 ++ cs ∧ clearing m n cs b ∧ s'.1 = default b0 b ∧ (e = None ↔ is_Some b).
Proof.
  remember (b0, wl) as s eqn:Es. intros Hr. revert b0 wl Es.
  induction Hr as [n s err|n s s' Hop|n s err s1 e s' Hop Hr IH]; intros b0 wl ->.
  - exists [], None. split_and!; [by rewrite app_nil_r|constructor|done|by split; [|intros []]].
  - destruct (ic_PatchMachine m b0 wl) as [[err|b'] wl1] eqn:Ep; simplify_eq/=. munlog.
    eexists [_], (Some b'). split_and!; [eassumption|constructor|done|done].
  - destruct (ic_PatchMachine m b0 wl) as [[err'|b'] wl1] eqn:Ep; simplify_eq/=. munlog.
    destruct (IH b0 wl1 eq_refl) as (cs & b & E & Hc & Hb & He).
    eexists (_ :: cs), b. split_and!; [|by constructor|done|done]. rewrite E, H1, <-app_assoc. done.
Qed.

Lemma clearRefresh_log bm wl b' wl' :
  clearRefreshInventoryAnnotation bm wl = (b', wl') →
  annotation refreshInventoryAnnotation (m_Meta bm) = trueString →
  ∃ cs b, wl'.2 = wl.2 ++ cs ∧ clearing bm 3 cs b ∧ b' = default (delete_annotation refreshInventoryAnnotation bm) b.
Proof.
  unfold clearRefreshInventoryAnnotation. intros E Ha. rewrite decide_False in E by naive_solver.
  destruct (ic_Retry 3 _ _) as [e [b1 wl1]] eqn:Er. apply (retry_law (W := W)) in Er.
  apply clearing_log in Er as (cs & b & El & Hc & Hb & _). exists cs, b. simpl in *.
  destruct e; simplify_eq/=; by split_and!.
Qed.

Lemma clearing_answer m n cs b o x b' : clearing m n cs b → MPatchMachine o x (inr b') ∈ cs → b = Some b'.
Proof. induction 1; set_solver. Qed.

Lemma inventory_answer r m inv u o x b : inventory_events r m inv u → MPatchMachine o x (inr b) ∈ inv → u = b.
Proof.
  assert (∀ es ok, collection es ok → MPatchMachine o x (inr b) ∉ es) as Hc by (destruct 1; set_solver).
  destruct 1 as [|es ok _ Hes _|es cs b' _ Hes _ Hcs]; [set_solver|by intros ?%(Hc _ _ Hes)|].
  intros [?|Hin]%elem_of_app; [by destruct (Hc _ _ Hes)|]. by rewrite (clearing_answer _ _ _ _ _ _ _ Hcs Hin).
Qed.

Lemma findLinked_log bm wl fr wl' : findLinkedHardware bm wl = (fr, wl') → wl'.2 = wl.2.
Proof. unfold findLinkedHardware. intros E. follow; munlog; congruence. Qed.

Lemma due_log hw bm interval wl b wl' : dueForInventoryRefresh hw bm interval wl = (b, wl') → wl'.2 = wl.2.
Proof. unfold dueForInventoryRefresh. intros E. follow; munlog; congruence. Qed.

Lemma inventoryIfDue_log r bm wl b wl' :
  reconcileInventoryIfDue r bm wl = (b, wl') → ∃ es, wl'.2 = wl.2 ++ es ∧ inventory_events r bm es b.
Proof.
  unfold reconcileInventoryIfDue. intros E.
  destruct (mr_inventoryCollectionEnabled r) eqn:Hen; simpl in E; [|simplify_eq; exists []; by rewrite app_nil_r; split; [|constructor]].
  destruct (findLinkedHardware bm wl) as [fr wl1] eqn:Ef. apply findLinked_log in Ef as El1.
  destruct fr as [err|[hw|]]; [simplify_eq/=; exists []; rewrite app_nil_r; split; [done|constructor]| |
    simplify_eq; exists []; rewrite app_nil_r; split; [done|constructor]].
  case_decide; [simplify_eq; exists []; rewrite app_nil_r; split; [done|constructor]|].
  destruct (dueForInventoryRefresh _ _ _ wl1) as [due wl2] eqn:Ed. apply due_log in Ed as El2.
  destruct due; [|simplify_eq; exists []; rewrite app_nil_r; split; [congruence|constructor]].
  destruct (reconcileInventory hw wl2) as [[e hw'] wl3] eqn:Er. apply reconcileInventory_log in Er as (es & El3 & Hc).
  destruct e as [err|].
  { simplify_eq/=. exists es. split; [congruence|]. by eapply inv_collected. }
  destruct (decide (annotation refreshInventoryAnnotation (m_Meta bm) = trueString)) as [Ha|Ha].
  - apply clearRefresh_log in E as (cs & b0 & El4 & Hcs & ->); [|done]. exists (es ++ cs). split.
    + rewrite El4, El3, El2, El1, app_assoc. done.
    + by apply inv_cleared.
  - unfold clearRefreshInventoryAnnotation in E. rewrite decide_True in E by done. simplify_eq.
    exists es. split; [congruence|]. by eapply inv_collected.
Qed.

(** What the status patched in the end says of the power read. *)
Definition reports (p : res string) (u : Machine) : Prop :=
  match p with
  | inr raw => mst_Power (m_Status u) = toPowerState raw ∧ Machine_HasCondition u Contactable ConditionTrue = true
  | inl _ => mst_Power (m_Status u) = PowerUnknown ∧ Machine_HasCondition u Contactable ConditionFalse = true
  end.

Lemma set_contactable_spec status msg bm wl u wl' :
  set_contactable status msg bm wl = (u, wl') →
  wl'.2 = wl.2 ∧ mst_Power (m_Status u) = mst_Power (m_Status bm) ∧ Machine_HasCondition u Contactable status = true ∧
  m_Meta u = m_Meta bm.
Proof.
  unfold set_contactable. destruct (rc_Now wl) as [now wl1] eqn:En. intros [= <- <-]. munlog.
  split_and!; [done|done| |done]. rewrite Machine_HasCondition_set by (repeat constructor).
  by rewrite decide_True, bool_decide_true.
Qed.

(** The events of [Machine_report]; without a successful removal of the
    annotation the patch says what was read. *)
Lemma Machine_report_log r m wl res e wl' :
  Machine_report r m wl = (res, e, wl') →
  ∃ p m1 inv u pe, wl'.2 = wl.2 ++ MPower p :: inv ++ [MPatchStatus m u pe] ∧ reports p m1 ∧ m_Meta m1 = m_Meta m ∧
    inventory_events r m1 inv u ∧ (pe = None → e = None ∧ res = mkResult false (mr_powerCheckInterval r)) ∧ (is_Some pe → is_Some e).
Proof.
  unfold Machine_report. intros E.
  destruct (updatePowerState m wl) as [[pErr m0] wl1] eqn:Ep.
  assert (∃ p, wl1.2 = wl.2 ++ [MPower p] ∧ m_Meta m0 = m_Meta m ∧
    match p with inr raw => pErr = None ∧ mst_Power (m_Status m0) = toPowerState raw
               | inl _ => is_Some pErr ∧ mst_Power (m_Status m0) = PowerUnknown end) as (p & El1 & Em0 & Hp).
  { unfold updatePowerState in Ep. destruct (rc_GetPowerState wl) as [[err|raw] wl0] eqn:Eg; simplify_eq/=; munlog.
    - exists (inl err). by split_and!.
    - exists (inr raw). by split_and!. }
  destruct (match pErr with None => _ | Some err => _ end) as [m1 wl2] eqn:Ec.
  assert (wl2.2 = wl1.2 ∧ reports p m1 ∧ m_Meta m1 = m_Meta m) as (El2 & Hr & Em1).
  { destruct p as [err|raw].
    - destruct Hp as [[pe ->] Hp]. apply set_contactable_spec in Ec as (? & E2 & ? & ?). unfold reports. rewrite E2.
      split_and!; [done|done|done|congruence].
    - destruct Hp as [-> Hp]. apply set_contactable_spec in Ec as (? & E2 & ? & ?). unfold reports. rewrite E2.
      split_and!; [done|done|done|congruence]. }
  destruct (reconcileInventoryIfDue r m1 wl2) as [u wl3] eqn:Ei. apply inventoryIfDue_log in Ei as (inv & El3 & Hi).
  unfold Machine_patchStatus in E. destruct (ic_PatchMachineStatus m u wl3) as [pe wl4] eqn:Es. munlog.
  exists p, m1, inv, u, pe. split_and!; [|done..| |].
  - assert (wl' = wl4) as -> by (by destruct pe; simplify_eq). rewrite H1, El3, El2, El1. by rewrite <-!app_assoc.
  - intros ->. by simplify_eq.
  - intros [x ->]. simplify_eq. eauto.
Qed.

Definition same_mlog (wl wl' : W * list mach_event) : Prop := wl.2 = wl'.2.

#[local] Instance same_mlog_preorder : PreOrder same_mlog.
Proof. split; [done|]. unfold same_mlog. intros ???. congruence. Qed.

Lemma secret_mread n ns wl : same_mlog wl (rc_GetSecret n ns wl).2.
Proof. unfold same_mlog. destruct (rc_GetSecret n ns wl) as [r wl'] eqn:E. munlog. congruence. Qed.

Lemma machine_options_log m wl r wl' : machine_options m wl = (r, wl') → wl'.2 = wl.2.
Proof.
  intros E. symmetry. assert (same_mlog wl (machine_options m wl).2) as Hs; [|by rewrite E in Hs]. clear E.
  unfold machine_options, resolveAuthSecretRef, retrieveHMACSecrets.
  repeat case_match; simplify_eq; try reflexivity.
  all: match goal with
       | H : @rc_GetSecret _ _ ?n ?ns ?w0 = _ |- _ => pose proof (secret_mread n ns w0) as Hs
       | H : hmac_loop ?l ?s ?w0 = _ |- _ => pose proof (hmac_loop_frame same_mlog secret_mread l s w0) as Hs
       end.
  all: match goal with H : _ = (_, _) |- _ => by rewrite H in Hs end.
Qed.

(** C18: a reconciliation of a Machine only looks. It sends no command to the BMC,
    closes the connection it opened, and patches the status of the Machine at
    most once, last: with the power unknown and the Machine not contactable when
    the connection fails, and otherwise with the power that was read. The
    inventory in between is collected at most once and only when enabled; the one
    exception to the status is a removal of the refresh annotation: then the
    status is that of the server's answer to it, and what was read is lost. *)
Theorem Machine_Reconcile_events r name ns w l res e w' l' :
  Machine_Reconcile r name ns (w, l) = (res, e, (w', l')) →
  ∃ es, l' = l ++ es ∧
    (es = [] ∨
     (∃ m u err pe, es = [MOpen (Some err); MPatchStatus m u pe] ∧
        mst_Power (m_Status u) = PowerUnknown ∧ Machine_HasCondition u Contactable ConditionFalse = true ∧
        (pe = None → e = None ∧ res = mkResult false (mr_powerCheckInterval r))) ∨
     (∃ m p m1 inv u pe, es = MOpen None :: MPower p :: inv ++ [MPatchStatus m u pe; MClose] ∧
        reports p m1 ∧ inventory_events r m1 inv u ∧
        (annotation refreshInventoryAnnotation (m_Meta m) ≠ trueString → reports p u) ∧
        (∀ o x b, MPatchMachine o x (inr b) ∈ inv → u = b) ∧
        (pe = None → e = None ∧ res = mkResult false (mr_powerCheckInterval r)))).
Proof.
  unfold Machine_Reconcile. intros E. destruct (rc_GetMachine name ns (w, l)) as [[err|m] wl1] eqn:Eg; munlog; subst.
  { simplify_eq/=. exists []. rewrite app_nil_r. auto. }
  destruct (om_DeletionTimestamp (m_Meta m)); [simplify_eq/=; exists []; rewrite app_nil_r; auto|].
  unfold Machine_doReconcile in E. destruct (machine_options m wl1) as [[err|[[u p] opts]] wl2] eqn:Eo;
    apply machine_options_log in Eo; [simplify_eq/=; exists []; rewrite app_nil_r; split; [congruence|auto]|].
  destruct (rc_Open _ u p opts wl2) as [[err|] wl3] eqn:Eop; munlog.
  - destruct (set_contactable _ _ m wl3) as [m1 wl4] eqn:Ec. apply set_contactable_spec in Ec as (El4 & _ & Hc & _).
    unfold Machine_patchStatus in E. destruct (ic_PatchMachineStatus _ _ wl4) as [pe wl5] eqn:Ep. munlog.
    eexists [_; MPatchStatus m (set_Power PowerUnknown m1) pe]. split; [|right; left; do 4 eexists; split; [done|]].
    + replace l' with wl5.2 by (by destruct pe; simplify_eq). chain.
    + split_and!; [done..|]. intros ->. by simplify_eq.
  - destruct (Machine_report r m wl3) as [[res' e'] wl4] eqn:Er. simplify_eq/=.
    apply Machine_report_log in Er as (pw & m1 & inv & um & pe & El & Hr & Hm & Hi & He & _).
    exists ([MOpen None] ++ (MPower pw :: inv ++ [MPatchStatus m um pe]) ++ [MClose]). split; [chain|].
    right; right. exists m, pw, m1, inv, um, pe. split_and!; [simpl; by rewrite <-app_assoc|done|done| | |done].
    + intros Ha. rewrite <-Hm in Ha. by destruct Hi.
    + intros o x b. by apply (inventory_answer r m1).
Qed.
End Events.

(** ** Inventory that does not change *)

Section Unchanged.
Context {W : Type} `{RufioClient W} `{InventoryClient W} `{Safecast}.

Lemma attributes_time dev p t t' a :
  attributesFromDevice dev p t = Some a →
  ∃ a', attributesFromDevice dev p t' = Some a' ∧ set_LastUpdated None a' = set_LastUpdated None a.
Proof. destruct dev as [d|]; [|done]. intros [= <-]. by eexists. Qed.

Lemma due_monotone hw bm interval (wa wa' wb wb' : W) now now' :
  rc_Now wa = (now, wa') → rc_Now wb = (now', wb') → (now ≤ now')%Z →
  (dueForInventoryRefresh hw bm interval wa).1 = true → (dueForInventoryRefresh hw bm interval wb).1 = true.
Proof.
  unfold dueForInventoryRefresh. intros Ea Eb Hle. case_decide; [done|]. destruct (_ ≫= _) as [t|]; [|done].
  rewrite Ea, Eb. simpl. rewrite !bool_decide_eq_true. unfold time_Sub. lia.
Qed.


End Unchanged.
