(* ===== verification/BmcClient.v ===== *)
(** * Rufio: options of the BMC library

    rufio/internal/controller/client.go: the provider options of a Machine are
    translated to the options of bmclib, and a connection is opened with them.
    The library's client is the class [BmcLib], mergo the class [Mergo]; the
    records [p_...] are the parts of bmclib's rpc provider the code sets. *)
From S2P Require Import Prelude GoStrings BmcTypes Api BmcApi WorkflowJob Rufio Inventory.

(** ** The library *)

Record p_RequestOpts := mkp_RequestOpts {
  prq_HTTPContentType : string;
  prq_HTTPMethod : string;
  prq_StaticHeaders : gmap string (list string);
  prq_TimestampFormat : string;
  prq_TimestampHeader : string;
}.

Record p_SignatureOpts := mkp_SignatureOpts {
  psg_HeaderName : string;
  psg_AppendAlgoToHeaderDisabled : bool;
  psg_IncludedPayloadHeaders : list string;
}.

Record p_HMACOpts := mkp_HMACOpts {
  phm_PrefixSigDisabled : bool;
  phm_Secrets : gmap string (list string);
}.

Record p_Experimental := mkp_Experimental {
  pex_CustomRequestPayload : string;
  pex_DotPath : string;
}.

Record p_Opts := mkp_Opts {
  po_Request : p_RequestOpts;
  po_Signature : p_SignatureOpts;
  po_HMAC : p_HMACOpts;
  po_Experimental : p_Experimental;
}.

Record p_Provider := mkp_Provider {
  pp_ConsumerURL : string;
  pp_Host : string;
  pp_Opts : p_Opts;
}.

Definition zero_p_RequestOpts : p_RequestOpts := mkp_RequestOpts "" "" ∅ "" "".
Definition zero_p_SignatureOpts : p_SignatureOpts := mkp_SignatureOpts "" false [].
Definition zero_p_HMACOpts : p_HMACOpts := mkp_HMACOpts false ∅.
Definition zero_p_Experimental : p_Experimental := mkp_Experimental "" "".
Definition zero_p_Opts : p_Opts :=
  mkp_Opts zero_p_RequestOpts zero_p_SignatureOpts zero_p_HMACOpts zero_p_Experimental.

Record HomeAssistantConfig := mkHomeAssistantConfig {
  hac_SwitchEntityID : string;
  hac_PowerOperationDelaySeconds : Z;
}.

Inductive bmclib_Option :=
| WithRedfishPort (port : string)
| WithRedfishUseBasicAuth (b : bool)
| WithRedfishSystemName (name : string)
| WithIpmitoolPort (port : string)
| WithIpmitoolCipherSuite (suite : string)
| WithIntelAMTPort (port : Z)
| WithIntelAMTHostScheme (scheme : string)
| WithRPCOpt (p : p_Provider)
| WithHomeAssistantOpt (c : HomeAssistantConfig)
| WithLogger.

(** [mergo.Merge(&dst, &src, mergo.WithOverride, ...)] on providers. *)
Class Mergo := { mergo_Merge (dst src : p_Provider) : p_Provider }.

(** [bmclib.NewClient] with its options, the drivers preferred, and [Open]. *)
Class BmcLib (W : Type) := {
  bl_Open (host username password : string) (o : list bmclib_Option) (preferred : list string) : W → option error * W;
}.

(** ** Translation *)

Definition toRequestOpts (r : option RequestOpts) : p_RequestOpts :=
  match r with
  | None => zero_p_RequestOpts
  | Some r => mkp_RequestOpts (rq_HTTPContentType r) (rq_HTTPMethod r) (rq_StaticHeaders r) (rq_TimestampFormat r)
                (rq_TimestampHeader r)
  end.

Definition toSignatureOpts (s : option SignatureOpts) : p_SignatureOpts :=
  match s with
  | None => zero_p_SignatureOpts
  | Some s => mkp_SignatureOpts (sg_HeaderName s) (sg_AppendAlgoToHeaderDisabled s) (sg_IncludedPayloadHeaders s)
  end.

Definition toHMACOpts (h : option HMACOpts) : p_HMACOpts :=
  match h with None => zero_p_HMACOpts | Some h => mkp_HMACOpts (hmac_PrefixSigDisabled h) ∅ end.

Definition toExperimentalOpts (e : option ExperimentalOpts) : p_Experimental :=
  match e with
  | None => zero_p_Experimental
  | Some e => mkp_Experimental (exp_CustomRequestPayload e) (exp_DotPath e)
  end.

Definition toRPCOpts (r : option RPCOptions) : p_Opts :=
  match r with
  | None => zero_p_Opts
  | Some r => mkp_Opts (toRequestOpts (rpc_Request r)) (toSignatureOpts (rpc_Signature r)) (toHMACOpts (rpc_HMAC r))
                (toExperimentalOpts (rpc_Experimental r))
  end.

(** The provider the code merges into the one of the Machine. *)
Definition rpc_defaults : p_Provider :=
  mkp_Provider "" ""
    (mkp_Opts (mkp_RequestOpts "" "" ∅ "" "X-Rufio-Timestamp")
       (mkp_SignatureOpts "X-Rufio-Signature" false ["X-Rufio-Timestamp"]) zero_p_HMACOpts zero_p_Experimental).

Definition set_Secrets (s : gmap string (list string)) (o : p_Opts) : p_Opts :=
  mkp_Opts (po_Request o) (po_Signature o) (mkp_HMACOpts (phm_PrefixSigDisabled (po_HMAC o)) s) (po_Experimental o).

Definition translateHomeAssistant (h : HomeAssistantOptions) : HomeAssistantConfig :=
  mkHomeAssistantConfig (ha_SwitchEntityID h) (ha_PowerOperationDelaySeconds h).

Section Translate.
Context `{Mergo} `{Safecast}.

Definition translateRPC (rpcSecrets : option (gmap string (list string))) (r : RPCOptions) (host : string) : p_Provider :=
  let s := default ∅ rpcSecrets in
  let opts := toRPCOpts (Some r) in
  mergo_Merge (mkp_Provider (rpc_ConsumerURL r) host (if decide (s = ∅) then opts else set_Secrets s opts)) rpc_defaults.

Definition when_some {A B} (o : option A) (f : A → list B) : list B := match o with Some a => f a | None => [] end.
Definition when_b {B} (b : bool) (l : list B) : list B := if b then l else [].

Definition Translate (b : BMCOptions) (host : string) : list bmclib_Option :=
  match bmco_ProviderOptions b with
  | None => []
  | Some po =>
      when_some (po_Redfish po) (λ r,
        when_b (bool_decide (rf_Port r ≠ 0%Z)) [WithRedfishPort (Itoa (rf_Port r))]
        ++ when_b (rf_UseBasicAuth r) [WithRedfishUseBasicAuth true]
        ++ when_b (bool_decide (rf_SystemName r ≠ "")) [WithRedfishSystemName (rf_SystemName r)])
      ++ when_some (po_IPMITOOL po) (λ i,
        when_b (bool_decide (ipmi_Port i ≠ 0%Z)) [WithIpmitoolPort (Itoa (ipmi_Port i))]
        ++ when_b (bool_decide (ipmi_CipherSuite i ≠ "")) [WithIpmitoolCipherSuite (ipmi_CipherSuite i)])
      ++ when_some (po_IntelAMT po) (λ a,
        [WithIntelAMTPort (match Convert_uint32 (amt_Port a) with (p, None) => p | (_, Some _) => 16992%Z end);
         WithIntelAMTHostScheme (amt_HostScheme a)])
      ++ when_some (po_RPC po) (λ r, [WithRPCOpt (translateRPC (bmco_rpcSecrets b) r host)])
      ++ when_some (po_HomeAssistant po) (λ h, [WithHomeAssistantOpt (translateHomeAssistant h)])
  end.

(** [toStringSlice] is the identity on names. *)
Definition preferred_drivers (opts : option BMCOptions) : list string :=
  match opts with
  | Some b => match bmco_ProviderOptions b with Some po => po_PreferredOrder po | None => [] end
  | None => []
  end.

(** The function [NewClientFunc] returns. *)
Definition NewClientFunc {W} `{BmcLib W} (hostIP username password : string) (opts : option BMCOptions) (w : W)
    : option error * W :=
  let o := match opts with Some b => Translate b hostIP | None => [] end ++ [WithLogger] in
  match bl_Open hostIP username password o (preferred_drivers opts) w with
  | (Some err, w) => (Some (ErrWrap "failed to open connection to BMC: " err), w)
  | (None, w) => (None, w)
  end.

End Translate.

(** ** The documented behaviour of mergo

    With [WithOverride] the attributes of the source that are not empty replace
    those of the destination, and the others stay. *)

Definition override {A} `{EqDecision A} (zero dst src : A) : A := if decide (src = zero) then dst else src.

Definition merged_Request (d s : p_RequestOpts) : p_RequestOpts :=
  mkp_RequestOpts (override "" (prq_HTTPContentType d) (prq_HTTPContentType s)) (override "" (prq_HTTPMethod d) (prq_HTTPMethod s))
    (prq_StaticHeaders s ∪ prq_StaticHeaders d) (override "" (prq_TimestampFormat d) (prq_TimestampFormat s))
    (override "" (prq_TimestampHeader d) (prq_TimestampHeader s)).

Definition merged_Signature (d s : p_SignatureOpts) : p_SignatureOpts :=
  mkp_SignatureOpts (override "" (psg_HeaderName d) (psg_HeaderName s))
    (override false (psg_AppendAlgoToHeaderDisabled d) (psg_AppendAlgoToHeaderDisabled s))
    (override [] (psg_IncludedPayloadHeaders d) (psg_IncludedPayloadHeaders s)).

Class MergoLaws `{Mergo} := {
  law_url d s : pp_ConsumerURL (mergo_Merge d s) = override "" (pp_ConsumerURL d) (pp_ConsumerURL s);
  law_host d s : pp_Host (mergo_Merge d s) = override "" (pp_Host d) (pp_Host s);
  law_request d s : po_Request (pp_Opts (mergo_Merge d s)) = merged_Request (po_Request (pp_Opts d)) (po_Request (pp_Opts s));
  law_signature d s :
    po_Signature (pp_Opts (mergo_Merge d s)) = merged_Signature (po_Signature (pp_Opts d)) (po_Signature (pp_Opts s));
  law_prefix d s : phm_PrefixSigDisabled (po_HMAC (pp_Opts (mergo_Merge d s))) =
    override false (phm_PrefixSigDisabled (po_HMAC (pp_Opts d))) (phm_PrefixSigDisabled (po_HMAC (pp_Opts s)));
  law_secrets d s : phm_Secrets (po_HMAC (pp_Opts (mergo_Merge d s))) =
    phm_Secrets (po_HMAC (pp_Opts s)) ∪ phm_Secrets (po_HMAC (pp_Opts d));
}.

(** The provider of a Machine keeps its consumer URL, its host, its request
    method, content type and headers and its secrets; but the headers of the
    timestamp and of the signature are always those of Rufio, whatever the
    Machine asks for: the defaults are merged over its settings. *)
Theorem translateRPC_headers `{MergoLaws} secrets r host :
  let p := translateRPC secrets r host in
  pp_ConsumerURL p = rpc_ConsumerURL r ∧ pp_Host p = host ∧
  (∀ q, rpc_Request r = Some q →
     prq_HTTPMethod (po_Request (pp_Opts p)) = rq_HTTPMethod q ∧
     prq_HTTPContentType (po_Request (pp_Opts p)) = rq_HTTPContentType q ∧
     prq_StaticHeaders (po_Request (pp_Opts p)) = rq_StaticHeaders q ∧
     prq_TimestampFormat (po_Request (pp_Opts p)) = rq_TimestampFormat q) ∧
  (∀ h, rpc_HMAC r = Some h → phm_PrefixSigDisabled (po_HMAC (pp_Opts p)) = hmac_PrefixSigDisabled h) ∧
  phm_Secrets (po_HMAC (pp_Opts p)) = default ∅ secrets ∧
  prq_TimestampHeader (po_Request (pp_Opts p)) = "X-Rufio-Timestamp" ∧
  psg_HeaderName (po_Signature (pp_Opts p)) = "X-Rufio-Signature" ∧
  psg_IncludedPayloadHeaders (po_Signature (pp_Opts p)) = ["X-Rufio-Timestamp"].
Proof.
  intros p. unfold p, translateRPC.
  set (d := mkp_Provider _ host _).
  assert (po_Request (pp_Opts d) = toRequestOpts (rpc_Request r)) as Eq by (unfold d; by case_decide).
  assert (phm_PrefixSigDisabled (po_HMAC (pp_Opts d)) = phm_PrefixSigDisabled (toHMACOpts (rpc_HMAC r))) as Eh
    by (unfold d; by case_decide).
  assert (phm_Secrets (po_HMAC (pp_Opts d)) = default ∅ secrets) as Es.
  { unfold d. case_decide as Ed; [|done]. rewrite Ed. simpl. by destruct (rpc_HMAC r). }
  rewrite law_url, law_host, law_request, law_signature, law_prefix, law_secrets, Eq, Eh, Es. simpl.
  split_and!; [done|done| | | |done|done|done].
  - intros q ->. simpl. unfold override. simpl. by rewrite (map_empty_union (rq_StaticHeaders q)).
  - intros h ->. done.
  - by rewrite map_empty_union.
Qed.
