(* ===== verification/JsonLog.v ===== *)
(** * The log file of a container

    tink/agent/internal/runtime/containerd/jsonlog.go: the two streams of a
    container are cut into lines, and each line is one record of a file that
    both streams share. The encoder and the file are those of Go; [encode] is
    [Encode] of one record, which the shared mutex makes one step. *)
From S2P Require Import Prelude GoStrings.

Definition newline : ascii := ascii_of_nat 10.

Inductive stream := Stdout | Stderr.

#[export] Instance stream_eq_dec : EqDecision stream.
Proof. solve_decision. Defined.

(** The record without its time. *)
Record jsonLogEntry := mkjsonLogEntry { je_Log : list ascii; je_Stream : stream }.

(** [bytes.IndexByte]. *)
Fixpoint IndexByte (l : list ascii) (c : ascii) : option nat :=
  match l with
  | [] => None
  | x :: l' => if decide (x = c) then Some 0 else S <$> IndexByte l' c
  end.

Section JsonLog.
Context {W : Type} (encode : jsonLogEntry → W → option error * W) (close_file : W → option error * W).

(** The loop of [Write] over the buffer: every line is taken out of it before it
    is encoded. A turn that goes on takes a byte at least, so the length of the
    buffer bounds the turns. *)
Fixpoint write_lines (fuel : nat) (s : stream) (buf : list ascii) (w : W) : option error * list ascii * W :=
  match fuel with
  | 0 => (None, buf, w)
  | S fuel =>
      match IndexByte buf newline with
      | None => (None, buf, w)
      | Some i =>
          let line := take (i + 1) buf in
          let buf := drop (i + 1) buf in
          match encode (mkjsonLogEntry line s) w with
          | (Some err, w) => (Some err, buf, w)
          | (None, w) => write_lines fuel s buf w
          end
      end
  end.

(** [Write]: the count and the error, the buffer after it. *)
Definition log_Write (s : stream) (p : list ascii) (buf : list ascii) (w : W) : nat * option error * list ascii * W :=
  if decide (p = []) then (0, None, buf, w)
  else
    let buf := buf ++ p in
    let '(err, buf, w) := write_lines (length buf) s buf w in
    (length p, err, buf, w).

Definition log_flush (s : stream) (buf : list ascii) (w : W) : option error * list ascii * W :=
  if decide (buf = []) then (None, buf, w)
  else
    let '(err, w) := encode (mkjsonLogEntry buf s) w in
    (err, [], w).

(** The pair: the two buffers, and whether the file is open. *)
Record jsonLogPair := mkjsonLogPair { jp_Stdout : list ascii; jp_Stderr : list ascii; jp_open : bool }.

Definition newJSONLogPair : jsonLogPair := mkjsonLogPair [] [] true.

Definition pair_Write (s : stream) (p : list ascii) (j : jsonLogPair) (w : W) : nat * option error * jsonLogPair * W :=
  match s with
  | Stdout => let '(n, err, buf, w) := log_Write Stdout p (jp_Stdout j) w in (n, err, mkjsonLogPair buf (jp_Stderr j) (jp_open j), w)
  | Stderr => let '(n, err, buf, w) := log_Write Stderr p (jp_Stderr j) w in (n, err, mkjsonLogPair (jp_Stdout j) buf (jp_open j), w)
  end.

Definition pair_Close (j : jsonLogPair) (w : W) : option error * jsonLogPair * W :=
  if jp_open j then
    let '(e1, out, w) := log_flush Stdout (jp_Stdout j) w in
    let '(e2, err, w) := log_flush Stderr (jp_Stderr j) w in
    let '(e3, w) := close_file w in
    (errors_Join (errors_Join e1 e2) e3, mkjsonLogPair out err false, w)
  else (None, j, w).

(** What the two copy goroutines write, in the order the mutex lets them. *)
Fixpoint pair_writes (ps : list (stream * list ascii)) (j : jsonLogPair) (w : W) : list (nat * option error) * jsonLogPair * W :=
  match ps with
  | [] => ([], j, w)
  | (s, p) :: rest =>
      let '(n, err, j, w) := pair_Write s p j w in
      let '(answers, j, w) := pair_writes rest j w in
      ((n, err) :: answers, j, w)
  end.
End JsonLog.

(** ** The reference

    The records of a text: its lines, each with its newline, and what follows
    the last one. *)
Fixpoint lines_from (cur l : list ascii) : list (list ascii) * list ascii :=
  match l with
  | [] => ([], cur)
  | c :: l' =>
      if decide (c = newline) then let '(ls, rest) := lines_from [] l' in ((cur ++ [c]) :: ls, rest)
      else lines_from (cur ++ [c]) l'
  end.

Definition records (s : stream) (text : list ascii) : list jsonLogEntry :=
  let '(ls, rest) := lines_from [] text in
  (λ l, mkjsonLogEntry l s) <$> (ls ++ (if decide (rest = []) then [] else [rest])).

(** What a stream wrote. *)
Definition written (s : stream) (ps : list (stream * list ascii)) : list ascii :=
  concat (snd <$> filter (λ p, p.1 = s) ps).
Definition of_stream (s : stream) (es : list jsonLogEntry) : list jsonLogEntry := filter (λ e, je_Stream e = s) es.

Lemma IndexByte_None l c : IndexByte l c = None ↔ c ∉ l.
Proof.
  induction l as [|x l IH]; simpl; [split; [intros _ Hc; by apply not_elem_of_nil in Hc|done]|].
  rewrite elem_of_cons. case_decide as Hx; [subst; split; [done|tauto]|]. rewrite fmap_None, IH. naive_solver.
Qed.

Lemma IndexByte_Some l c i : IndexByte l c = Some i → ∃ a b, l = a ++ c :: b ∧ length a = i ∧ c ∉ a.
Proof.
  revert i. induction l as [|x l IH]; intros i; [done|]. simpl. case_decide as Hx.
  - intros [= <-]. subst. exists [], l. split_and!; [done|done|]. apply not_elem_of_nil.
  - rewrite fmap_Some. intros (j & (a & b & -> & <- & Ha)%IH & ->). exists (x :: a), b. split_and!; [done|done|].
    rewrite elem_of_cons. naive_solver.
Qed.

Lemma lines_from_app_line cur a l : newline ∉ a →
  lines_from cur (a ++ newline :: l) = let '(ls, rest) := lines_from [] l in ((cur ++ a ++ [newline]) :: ls, rest).
Proof.
  revert cur. induction a as [|x a IH]; intros cur Ha; simpl.
  - done.
  - rewrite elem_of_cons in Ha. rewrite decide_False by naive_solver. rewrite IH by naive_solver. destruct (lines_from [] l). by rewrite <-(assoc (++) cur).
Qed.

Lemma lines_from_none cur a : newline ∉ a → lines_from cur a = ([], cur ++ a).
Proof.
  revert cur. induction a as [|x a IH]; intros cur Ha; simpl; [by rewrite app_nil_r|].
  rewrite elem_of_cons in Ha. rewrite decide_False by naive_solver. rewrite IH by naive_solver. by rewrite <-(assoc (++) cur).
Qed.

Lemma lines_from_rest cur l : newline ∉ cur → newline ∉ (lines_from cur l).2.
Proof.
  revert cur. induction l as [|c l IH]; intros cur Hc; simpl; [done|]. case_decide as Hn.
  - specialize (IH [] (not_elem_of_nil _)). by destruct (lines_from [] l).
  - apply IH. rewrite elem_of_app, list_elem_of_singleton. naive_solver.
Qed.

Lemma lines_from_cat cur l k : newline ∉ cur →
  lines_from cur (l ++ k) = let '(ls, rest) := lines_from cur l in let '(ls', rest') := lines_from [] (rest ++ k) in (ls ++ ls', rest').
Proof.
  revert cur. induction l as [|c l IH]; intros cur Hc; simpl.
  - assert (lines_from cur k = lines_from [] (cur ++ k)) as ->; [|by destruct (lines_from [] (cur ++ k))].
    clear -Hc. assert (∀ pre, lines_from (pre ++ cur) k = lines_from pre (cur ++ k)) as E; [|by specialize (E [])].
    revert Hc. induction cur as [|x cur IH]; intros Hc pre; simpl; [by rewrite app_nil_r|].
    rewrite elem_of_cons in Hc. rewrite decide_False by naive_solver. rewrite <- IH by naive_solver. by rewrite <-(assoc (++) pre).
  - case_decide as Hn.
    + rewrite IH by apply not_elem_of_nil. destruct (lines_from [] l) as [ls rest]. by destruct (lines_from [] (rest ++ k)).
    + apply IH. rewrite elem_of_app, list_elem_of_singleton. naive_solver.
Qed.

(** ** No line is lost

    With an encoder that does not fail, recording what it is given. *)
Section Recorded.
Let enc (e : jsonLogEntry) (es : list jsonLogEntry) : option error * list jsonLogEntry := (None, es ++ [e]).
Let close (es : list jsonLogEntry) : option error * list jsonLogEntry := (None, es).

Lemma write_lines_ref fuel s buf es : length buf ≤ fuel →
  write_lines enc fuel s buf es =
    let '(ls, rest) := lines_from [] buf in (None, rest, es ++ ((λ l, mkjsonLogEntry l s) <$> ls)).
Proof.
  revert buf es. induction fuel as [|fuel IH]; intros buf es Hl.
  { destruct buf; [|simpl in Hl; lia]. simpl. by rewrite app_nil_r. }
  cbn [write_lines]. destruct (IndexByte buf newline) as [i|] eqn:E.
  - apply IndexByte_Some in E as (a & b & -> & <- & Ha). rewrite length_app in Hl. simpl in Hl.
    replace (take (length a + 1) (a ++ newline :: b)) with (a ++ [newline])
      by (rewrite take_app; replace (length a + 1 - length a) with 1 by lia; rewrite take_ge by lia; done).
    replace (drop (length a + 1) (a ++ newline :: b)) with b
      by (rewrite drop_app; replace (length a + 1 - length a) with 1 by lia; rewrite drop_ge by lia; done).
    cbn [enc]. rewrite IH by lia. rewrite lines_from_app_line by done. destruct (lines_from [] b) as [ls rest].
    rewrite fmap_cons. by rewrite <- (assoc (++)).
  - apply IndexByte_None in E. rewrite lines_from_none by done. simpl. by rewrite app_nil_r.
Qed.

Lemma log_Write_ref s p buf es :
  log_Write enc s p buf es =
    let '(ls, rest) := lines_from [] (buf ++ p) in
    if decide (p = []) then (0, None, buf, es) else (length p, None, rest, es ++ ((λ l, mkjsonLogEntry l s) <$> ls)).
Proof.
  unfold log_Write. case_decide; [by destruct (lines_from [] (buf ++ p))|]. rewrite write_lines_ref by done.
  by destruct (lines_from [] (buf ++ p)).
Qed.

Definition buf_of (s : stream) (j : jsonLogPair) : list ascii := match s with Stdout => jp_Stdout j | Stderr => jp_Stderr j end.

Lemma of_stream_app s es es' : of_stream s (es ++ es') = of_stream s es ++ of_stream s es'.
Proof. apply filter_app. Qed.

Lemma of_stream_entries s t ls :
  of_stream s ((λ l, mkjsonLogEntry l t) <$> ls) = if decide (t = s) then (λ l, mkjsonLogEntry l t) <$> ls else [].
Proof.
  induction ls as [|l ls IH]; [by destruct (decide _)|]. rewrite fmap_cons. unfold of_stream in *. rewrite filter_cons. simpl.
  rewrite IH. by repeat case_decide.
Qed.

Lemma pair_Write_ref t p j es n err j' es' :
  pair_Write enc t p j es = (n, err, j', es') → newline ∉ buf_of t j →
  n = length p ∧ err = None ∧ jp_open j' = jp_open j ∧
  ∀ s, let '(ls, rest) := lines_from [] (buf_of s j ++ (if decide (t = s) then p else [])) in
    (newline ∉ buf_of s j → buf_of s j' = rest) ∧
    (newline ∉ buf_of s j → of_stream s es' = of_stream s es ++ ((λ l, mkjsonLogEntry l s) <$> ls)).
Proof.
  assert (∀ t, log_Write enc t p (buf_of t j) es = (n, err, buf_of t j', es') → newline ∉ buf_of t j →
    (∀ s, s ≠ t → buf_of s j' = buf_of s j) → jp_open j' = jp_open j → n = length p ∧ err = None ∧ jp_open j' = jp_open j ∧
    ∀ s, let '(ls, rest) := lines_from [] (buf_of s j ++ (if decide (t = s) then p else [])) in
      (newline ∉ buf_of s j → buf_of s j' = rest) ∧
      (newline ∉ buf_of s j → of_stream s es' = of_stream s es ++ ((λ l, mkjsonLogEntry l s) <$> ls))) as Hgen.
  { clear t. intros t. rewrite log_Write_ref. intros Hw Hn Hne Ho. destruct (lines_from [] (buf_of t j ++ p)) as [ls rest] eqn:El.
    case_decide as Hp; injection Hw as <- <- Hb <-; (split_and!; [by rewrite ?Hp|done|done|]); intros s;
      destruct (decide (t = s)) as [->|Hts].
    - subst p. rewrite El. rewrite app_nil_r, lines_from_none in El by done. injection El as <- <-. simpl. rewrite app_nil_r. done.
    - rewrite app_nil_r. destruct (lines_from [] (buf_of s j)) as [ls' rest'] eqn:E'.
      split; intros Hs; rewrite lines_from_none in E' by done; injection E' as <- <-; simpl; rewrite ?app_nil_r; auto.
    - rewrite El, of_stream_app, of_stream_entries, decide_True by done. done.
    - rewrite app_nil_r. destruct (lines_from [] (buf_of s j)) as [ls' rest'] eqn:E'.
      split; intros Hs; rewrite lines_from_none in E' by done; injection E' as <- <-; simpl; auto.
      rewrite of_stream_app, of_stream_entries, decide_False by done. by rewrite !app_nil_r. }
  unfold pair_Write. destruct t.
  - destruct (log_Write enc Stdout p (jp_Stdout j) es) as [[[n0 e0] b0] w0] eqn:E. intros [= <- <- <- <-] Hn.
    apply Hgen; [done|done|by intros []|done].
  - destruct (log_Write enc Stderr p (jp_Stderr j) es) as [[[n0 e0] b0] w0] eqn:E. intros [= <- <- <- <-] Hn.
    apply Hgen; [done|done|by intros []|done].
Qed.

Lemma pair_writes_ref ps j es answers j' es' :
  pair_writes enc ps j es = (answers, j', es') → (∀ s, newline ∉ buf_of s j) →
  answers = (λ p, (length p.2, None)) <$> ps ∧ jp_open j' = jp_open j ∧
  ∀ s, newline ∉ buf_of s j' ∧ ∃ ls, lines_from [] (buf_of s j ++ written s ps) = (ls, buf_of s j') ∧
    of_stream s es' = of_stream s es ++ ((λ l, mkjsonLogEntry l s) <$> ls).
Proof.
  revert j es answers. induction ps as [|[t p] ps IH]; intros j es answers; cbn [pair_writes].
  - intros [= <- <- <-] Hn. split; [done|]. split; [done|]. intros s. split; [done|]. exists []. unfold written. simpl.
    by rewrite !app_nil_r, lines_from_none by done.
  - destruct (pair_Write enc t p j es) as [[[n err] j1] es1] eqn:E1.
    destruct (pair_writes enc ps j1 es1) as [[answers1 j2] es2] eqn:E2. intros [= <- <- <-] Hn.
    apply pair_Write_ref in E1 as (-> & -> & Ho & Hs1); [|done].
    assert (∀ s, newline ∉ buf_of s j1) as Hn1.
    { intros s. specialize (Hs1 s). pose proof (lines_from_rest [] (buf_of s j ++ (if decide (t = s) then p else [])) (not_elem_of_nil _)) as Hr.
      destruct (lines_from [] _) as [ls rest]. destruct Hs1 as [-> _]; done. }
    apply IH in E2 as (-> & Ho2 & Hs2); [|done]. split; [done|]. split; [congruence|]. intros s.
    destruct (Hs2 s) as (Hn2 & ls2 & El & Ees2). split; [done|]. specialize (Hs1 s).
    assert (written s ((t, p) :: ps) = (if decide (t = s) then p else []) ++ written s ps) as ->.
    { unfold written. rewrite filter_cons. simpl. by case_decide. }
    assert (∀ x y : list ascii, buf_of s j ++ x ++ y = (buf_of s j ++ x) ++ y) as -> by (intros; apply (assoc_L (++))).
    rewrite lines_from_cat by apply not_elem_of_nil. destruct (lines_from [] (buf_of s j ++ _)) as [ls rest].
    destruct Hs1 as [Eb Ees1]. rewrite Eb in El by done. exists (ls ++ ls2). rewrite El. split; [done|].
    by rewrite Ees2, (Ees1 (Hn s)), fmap_app, (assoc_L (++)).
Qed.

End Recorded.

(** A record that cannot be encoded is lost, and the lines behind it wait: closing
    the pair then writes both of them as one record. *)
Example failed_record :
  let lines := bytes_of "a" ++ [newline] ++ bytes_of "b" ++ [newline] ++ bytes_of "c" ++ [newline] ++ bytes_of "d" ++ [newline] in
  let enc (e : jsonLogEntry) (w : nat * list jsonLogEntry) :=
    match w with (0, es) => (Some (ErrNew "no space left"), (1, es)) | (n, es) => (None, (n - 1, es ++ [e])) end in
  let '(answers, j, w) := pair_writes enc [(Stdout, lines)] newJSONLogPair (1, []) in
  let '(err, _, w) := pair_Close enc (λ w, (None, w)) j (9, snd w) in
  answers = [(8, Some (ErrNew "no space left"))] ∧
  snd w = [mkjsonLogEntry (bytes_of "a" ++ [newline]) Stdout; mkjsonLogEntry (bytes_of "c" ++ [newline] ++ bytes_of "d" ++ [newline]) Stdout].
Proof. by vm_compute. Qed.
