(* ===== verification/ContainerdFiles.v ===== *)
(** * The files of a container

    tink/agent/internal/runtime/containerd/{conv,dns,datastore}.go: the volumes
    of an action as mounts, the resolver and host files that are mounted into a
    container, and the directories nerdctl reads. The file system is the class
    [HostOs]. *)
From S2P Require Import Prelude GoStrings GoPath GoNet GoNetip.

(** What the code asks of the operating system. [os_Stat] answers [None] when the
    file is there, and otherwise the error and whether it says so. *)
Class HostOs (W : Type) := {
  os_ReadFile : string → W → res string * W;
  os_WriteFile : string → string → W → option error * W;
  os_MkdirAll : string → W → option error * W;
  os_MkdirTemp : string → W → res string * W;
  os_RemoveAll : string → W → option error * W;
  os_Stat : string → W → option (bool * error) * W;
  os_Hostname : W → res string * W;
  filepath_Abs : string → W → res string * W;
  EvalSymlinks : string → W → res string * W;
  sha256_Sum256 : string → list Z;
}.

(** ** Strings *)

Definition nl : string := String (ascii_of_nat 10) "".
Definition tab : string := String (ascii_of_nat 9) "".

(** [strings.Fields]. *)
Fixpoint fields_on (l cur : list ascii) : list (list ascii) :=
  match l with
  | [] => if decide (cur = []) then [] else [cur]
  | c :: l' =>
      if Ascii.is_space c then (if decide (cur = []) then [] else [cur]) ++ fields_on l' []
      else fields_on l' (cur ++ [c])
  end.
Definition Fields (s : string) : list string := of_bytes <$> fields_on (bytes_of s) [].

(** [strings.SplitN(s, sep, 3)]. *)
Definition SplitN3 (s : string) (sep : ascii) : list string :=
  let '(a, rest, found) := Cut s sep in
  if found then let '(b, c, found) := Cut rest sep in if found then [a; b; c] else [a; rest]
  else [s].

Definition TrimPrefix (s p : string) : string :=
  if HasPrefix s p then of_bytes (drop (strlen p) (bytes_of s)) else s.

(** The lines a [bufio.Scanner] returns: no line of 64 KiB or more, nor any
    behind it, a carriage return at the end dropped, and nothing behind the last
    newline when that is empty. *)
Definition MaxScanTokenSize : nat := 64 * 1024.
Definition dropCR (l : list ascii) : list ascii :=
  match reverse l with c :: r => if decide (c = ascii_of_nat 13) then reverse r else l | [] => l end.
Fixpoint scan_lines (ls : list (list ascii)) : list (list ascii) :=
  match ls with
  | [] => []
  | [l] => if decide (l = []) then [] else if decide (length l < MaxScanTokenSize) then [dropCR l] else []
  | l :: rest => if decide (length l < MaxScanTokenSize) then dropCR l :: scan_lines rest else []
  end.
Definition Scan (s : string) : list string := of_bytes <$> scan_lines (split_on (ascii_of_nat 10) (bytes_of s) []).

Definition filepath_IsAbs (s : string) : bool := HasPrefix s "/".

(** ** conv.go *)

Record Mount := mkMount { mt_Type : string; mt_Source : string; mt_Destination : string; mt_Options : list string }.

Definition rwOption : string := "rw".

(** The loop over the options: those passed on, and the last of ro and rw. *)
Definition volume_option (acc : list string * string) (opt : string) : list string * string :=
  let '(options, rwMode) := acc in
  let trimmed := TrimSpace opt in
  if decide (trimmed = "ro") then (options, "ro")
  else if decide (trimmed = rwOption) then (options, rwOption)
  else if decide (trimmed ≠ "") then (options ++ [trimmed], rwMode)
  else acc.

Definition volume_options (opts : string) : list string :=
  let '(options, rwMode) := foldl volume_option (["rbind"], "") (Split opts ","%char) in
  options ++ [if decide (rwMode = "") then rwOption else rwMode].

Definition parseVolume (volume : string) : option Mount :=
  match SplitN3 volume ":"%char with
  | source :: destination :: rest =>
      if decide (destination = "" ∨ filepath_IsAbs destination = false) then None
      else if decide (filepath_IsAbs source = false ∧ HasPrefix source "." = false) then None
      else Some (mkMount "bind" source destination (match rest with opts :: _ => volume_options opts | [] => ["rbind"; rwOption] end))
  | _ => None
  end.

Section Os.
Context {W : Type} `{HostOs W}.

Definition create_source (source : string) (w : W) : res string * W :=
  match os_Stat source w with
  | (None, w) => (inr source, w)
  | (Some (true, _), w) =>
      match os_MkdirAll source w with
      | (Some err, w) => (inl (ErrWrap ("failed to create bind mount source directory " +:+ dquote source +:+ ": ") err), w)
      | (None, w) => (inr source, w)
      end
  | (Some (false, err), w) => (inl (ErrWrap ("failed to stat " +:+ dquote source +:+ ": ") err), w)
  end.

Definition ensureBindMountSource (source : string) (w : W) : res string * W :=
  if filepath_IsAbs source then create_source source w
  else
    match filepath_Abs source w with
    | (inl err, w) => (inl (ErrWrap ("failed to resolve absolute path for " +:+ dquote source +:+ ": ") err), w)
    | (inr abs, w) => create_source abs w
    end.

Fixpoint parseVolumes (volumes : list string) (w : W) : list Mount * W :=
  match volumes with
  | [] => ([], w)
  | v :: rest =>
      match parseVolume v with
      | None => parseVolumes rest w
      | Some m =>
          let '(r, w) := ensureBindMountSource (mt_Source m) w in
          let '(ms, w) := parseVolumes rest w in
          (match r with inl _ => ms | inr source => mkMount (mt_Type m) source (mt_Destination m) (mt_Options m) :: ms end, w)
      end
  end.

(** ** dns.go *)

Definition resolvConfPath : string := "/etc/resolv.conf".
Definition systemdResolvedPath : string := "/run/systemd/resolve/resolv.conf".
Definition fallbackNameservers : list string := ["8.8.8.8"; "8.8.4.4"; "2001:4860:4860::8888"; "2001:4860:4860::8844"].

Definition truncateHostname (id : string) : string := of_bytes (take 12 (bytes_of id)).

Record dnsFiles := mkdnsFiles { df_dir : string; df_resolvConf : string; df_hosts : string; df_hostname : string }.

Definition df_cleanup (d : dnsFiles) (w : W) : option error * W :=
  if decide (df_dir d = "") then (None, w) else os_RemoveAll (df_dir d) w.

(** [IP.IsLoopback]. *)
Definition IP_IsLoopback (ip : list Z) : bool :=
  match To4 ip with
  | o :: _ => bool_decide (o = 127%Z)
  | [] => IP_Equal ip (replicate 15 0 ++ [1])%Z
  end.

Definition isLocalhost (ip : string) : bool :=
  match ParseIP ip with [] => false | parsed => IP_IsLoopback parsed end.

(** One line of the file, added to what was read before. *)
Definition resolv_line (acc : list string * list string * list string) (text : string) : list string * list string * list string :=
  let line := TrimSpace text in
  let '(nameservers, searchDomains, options) := acc in
  if decide (line = "") then acc
  else if HasPrefix line "#" || HasPrefix line ";" then acc
  else
    match Fields line with
    | key :: value :: more =>
        if decide (key = "nameserver") then (nameservers ++ [value], searchDomains, options)
        else if decide (key = "search") then (nameservers, searchDomains ++ value :: more, options)
        else if decide (key = "options") then (nameservers, searchDomains, options ++ value :: more)
        else acc
    | _ => acc
    end.

Definition parseResolvConf (content : string) : list string * list string * list string :=
  foldl resolv_line ([], [], []) (Scan content).

Definition parseNameservers (content : string) : list string := fst (fst (parseResolvConf content)).

(** The text [writeResolvConf] writes. *)
Definition resolv_conf (nameservers searchDomains options : list string) : string :=
  "# Generated by tink-agent for container DNS" +:+ nl +:+
  (if decide (searchDomains = []) then "" else "search " +:+ Join searchDomains " " +:+ nl) +:+
  String.concat "" ((λ ns, "nameserver " +:+ ns +:+ nl) <$> nameservers) +:+
  (if decide (options = []) then "" else "options " +:+ Join options " " +:+ nl).

Definition writeResolvConf (path : string) (nameservers searchDomains options : list string) (w : W) : option error * W :=
  os_WriteFile path (resolv_conf nameservers searchDomains options) w.

(** The resolv.conf to read: systemd's own when the host's one names its stub. *)
Definition host_resolv_conf (allowLocalhostDNS : bool) (w : W) : string * W :=
  if allowLocalhostDNS then (resolvConfPath, w)
  else
    match os_ReadFile resolvConfPath w with
    | (inl _, w) => (resolvConfPath, w)
    | (inr content, w) =>
        if existsb (λ ns, bool_decide (ns = "127.0.0.53")) (parseNameservers content) then
          match os_Stat systemdResolvedPath w with
          | (None, w) => (systemdResolvedPath, w)
          | (Some _, w) => (resolvConfPath, w)
          end
        else (resolvConfPath, w)
    end.

Definition reachable_nameservers (nameservers : list string) : list string :=
  let filtered := filter (λ ns, isLocalhost ns = false) nameservers in
  if decide (filtered = []) then fallbackNameservers else filtered.

Definition buildResolvConf (dst : string) (allowLocalhostDNS : bool) (w : W) : option error * W :=
  let '(hostResolvConf, w) := host_resolv_conf allowLocalhostDNS w in
  match os_ReadFile hostResolvConf w with
  | (inl _, w) => writeResolvConf dst fallbackNameservers [] [] w
  | (inr content, w) =>
      let '(nameservers, searchDomains, options) := parseResolvConf content in
      writeResolvConf dst (if allowLocalhostDNS then nameservers else reachable_nameservers nameservers) searchDomains options w
  end.

Definition hosts_text (hostname : string) : string :=
  "# Generated by tink-agent" +:+ nl +:+ "127.0.0.1" +:+ tab +:+ "localhost" +:+ nl +:+
  "::1" +:+ tab +:+ tab +:+ "localhost ip6-localhost ip6-loopback" +:+ nl +:+ "fe00::0" +:+ tab +:+ tab +:+ "ip6-localnet" +:+ nl +:+
  "ff00::0" +:+ tab +:+ tab +:+ "ip6-mcastprefix" +:+ nl +:+ "ff02::1" +:+ tab +:+ tab +:+ "ip6-allnodes" +:+ nl +:+
  "ff02::2" +:+ tab +:+ tab +:+ "ip6-allrouters" +:+ nl +:+ "127.0.0.1" +:+ tab +:+ hostname +:+ nl +:+
  "::1" +:+ tab +:+ tab +:+ hostname +:+ nl.

Definition buildHosts (dst hostname : string) (w : W) : option error * W := os_WriteFile dst (hosts_text hostname) w.

(** The files, made one after the other; a failure removes the directory. *)
Definition prepareDNSFiles (allowLocalhostDNS : bool) (w : W) : res dnsFiles * W :=
  match os_MkdirTemp "tink-dns-" w with
  | (inl err, w) => (inl (ErrWrap "failed to create DNS temp dir: " err), w)
  | (inr dir, w) =>
      let df := mkdnsFiles dir (path_Join [dir; "resolv.conf"]) (path_Join [dir; "hosts"]) (path_Join [dir; "hostname"]) in
      let fail pre err (w : W) := let '(_, w) := df_cleanup df w in (inl (ErrWrap pre err), w) in
      match buildResolvConf (df_resolvConf df) allowLocalhostDNS w with
      | (Some err, w) => fail "failed to build resolv.conf: " err w
      | (None, w) =>
          match os_WriteFile (df_hosts df) "" w with
          | (Some err, w) => fail "failed to create hosts placeholder: " err w
          | (None, w) =>
              match os_WriteFile (df_hostname df) "" w with
              | (Some err, w) => fail "failed to create hostname placeholder: " err w
              | (None, w) => (inr df, w)
              end
          end
      end
  end.

Definition wrap_err (pre : string) (r : option error * W) : option error * W :=
  match r with (Some err, w) => (Some (ErrWrap pre err), w) | r => r end.

Definition setHostnameHost (d : dnsFiles) (name : string) (w : W) : option error * W :=
  match
    (match os_ReadFile "/etc/hosts" w with
     | (inl _, w) => wrap_err "failed to write hosts: " (buildHosts (df_hosts d) name w)
     | (inr hostContent, w) => wrap_err "failed to copy host /etc/hosts: " (os_WriteFile (df_hosts d) hostContent w)
     end) with
  | (Some err, w) => (Some err, w)
  | (None, w) => wrap_err "failed to write hostname: " (os_WriteFile (df_hostname d) (name +:+ nl) w)
  end.

Definition setHostnameIsolated (d : dnsFiles) (name : string) (w : W) : option error * W :=
  match wrap_err "failed to write hosts: " (buildHosts (df_hosts d) (truncateHostname name) w) with
  | (Some err, w) => (Some err, w)
  | (None, w) => wrap_err "failed to write hostname: " (os_WriteFile (df_hostname d) (truncateHostname name +:+ nl) w)
  end.

Definition setHostname (d : dnsFiles) (name : string) (useHostNetwork : bool) (w : W) : option error * W :=
  if useHostNetwork then setHostnameHost d name w else setHostnameIsolated d name w.

Definition withBindMount (src dest : string) : Mount := mkMount "bind" src dest ["bind"; "rprivate"; "rw"].
Definition dnsSpecOpts (df : dnsFiles) : list Mount :=
  [withBindMount (df_resolvConf df) "/etc/resolv.conf"; withBindMount (df_hosts df) "/etc/hosts"; withBindMount (df_hostname df) "/etc/hostname"].

(** ** datastore.go *)

Definition defaultDataRoot : string := "/var/lib/nerdctl".

Definition hex_EncodeToString (b : list Z) : string := of_bytes (concat (octet_bytes <$> b)).

Definition addrHash (address : string) (w : W) : res string * W :=
  let addr := TrimPrefix address "unix://" in
  match EvalSymlinks addr w with
  | (inl err, w) => (inl (ErrWrap ("eval symlinks for " +:+ dquote addr +:+ ": ") err), w)
  | (inr resolved, w) => (inr (of_bytes (take 8 (bytes_of (hex_EncodeToString (sha256_Sum256 resolved))))), w)
  end.

Definition dataStoreDir (dataRoot address : string) (w : W) : res string * W :=
  let dataRoot := if decide (dataRoot = "") then defaultDataRoot else dataRoot in
  match os_MkdirAll dataRoot w with
  | (Some err, w) => (inl (ErrWrap ("create data root " +:+ dquote dataRoot +:+ ": ") err), w)
  | (None, w) =>
      match addrHash address w with
      | (inl err, w) => (inl err, w)
      | (inr suffix, w) =>
          let dir := path_Join [dataRoot; suffix] in
          match os_MkdirAll dir w with
          | (Some err, w) => (inl (ErrWrap ("create data store " +:+ dquote dir +:+ ": ") err), w)
          | (None, w) => (inr dir, w)
          end
      end
  end.

Definition containerLogDir (dataStore namespace id : string) : string := path_Join [dataStore; "containers"; namespace; id].
Definition containerLogFile (dataStore namespace id : string) : string :=
  path_Join [containerLogDir dataStore namespace id; id +:+ "-json.log"].

(** [json.Marshal] of the three fields; an address without quotes, backslashes or
    control characters is written as it is. *)
Definition log_config (address : string) : string :=
  "{" +:+ dquote "driver" +:+ ":" +:+ dquote "json-file" +:+ "," +:+ dquote "address" +:+ ":" +:+ dquote address +:+ "}".

Definition writeLogConfig (dir address : string) (w : W) : option error * W :=
  match os_MkdirAll dir w with
  | (Some err, w) => (Some (ErrWrap ("create log dir " +:+ dquote dir +:+ ": ") err), w)
  | (None, w) =>
      let address := if Contains address "://" then address else "unix://" +:+ address in
      let path := path_Join [dir; "log-config.json"] in
      wrap_err ("write " +:+ dquote path +:+ ": ") (os_WriteFile path (log_config address) w)
  end.
End Os.

(** ** What is written is read *)

Definition nonspace (c : ascii) : Prop := Ascii.is_space c = false.
Definition word (s : string) : Prop := bytes_of s ≠ [] ∧ Forall nonspace (bytes_of s).

#[export] Instance word_dec s : Decision (word s).
Proof. unfold word, nonspace. apply _. Defined.

Lemma fields_on_word b cur rest : Forall nonspace b → fields_on (b ++ rest) cur = fields_on rest (cur ++ b).
Proof.
  intros Hb. revert cur. induction Hb as [|c b Hc _ IH]; intros cur; simpl; [by rewrite app_nil_r|].
  rewrite Hc, IH. by rewrite <- (assoc_L (++)).
Qed.

Lemma fields_on_words l cur : Forall nonspace cur → Forall (λ f, f ≠ [] ∧ Forall nonspace f) (fields_on l cur).
Proof.
  revert cur. induction l as [|c l IH]; intros cur Hcur; simpl.
  - case_decide; repeat constructor; done.
  - destruct (Ascii.is_space c) eqn:Ec.
    + apply Forall_app. split; [case_decide; repeat constructor; done|]. apply IH. constructor.
    + apply IH. apply Forall_app. split; [done|]. by constructor.
Qed.

Lemma Fields_words s : Forall word (Fields s).
Proof.
  unfold Fields, word. apply Forall_fmap. eapply Forall_impl; [by apply (fields_on_words _ []); constructor|].
  intros f Hf. simpl. by rewrite bytes_of_of_bytes.
Qed.

Lemma bytes_Join_cons s l : l ≠ [] → bytes_of (Join (s :: l) " ") = bytes_of s ++ " "%char :: bytes_of (Join l " ").
Proof. intros Hl. destruct l as [|t l]; [done|]. cbn [Join]. by rewrite !bytes_of_app. Qed.

Lemma Fields_Join l : Forall word l → Fields (Join l " ") = l.
Proof.
  intros HF. unfold Fields. induction HF as [|s l [Hne Hs] HF IH]; [done|]. destruct (decide (l = [])) as [->|Hl].
  - cbn [Join]. rewrite <- (app_nil_r (bytes_of s)), fields_on_word by done. simpl. rewrite decide_False by done.
    cbn [fmap list_fmap]. by rewrite of_bytes_bytes_of.
  - rewrite bytes_Join_cons by done. rewrite fields_on_word by done. cbn [fields_on app].
    change (Ascii.is_space " ") with true. cbn iota. rewrite decide_False by done. rewrite fmap_app, IH. simpl. by rewrite of_bytes_bytes_of.
Qed.

(** A line of words: no newline, and no space at its ends. *)
Record plain_line (l : list ascii) : Prop := mkplain_line {
  pl_newline : ascii_of_nat 10 ∉ l;
  pl_head : ∀ c, head l = Some c → nonspace c;
  pl_last : ∀ c, last l = Some c → nonspace c;
}.

Lemma word_plain s : word s → plain_line (bytes_of s).
Proof.
  intros [_ HF]. constructor.
  - intros Hn. by apply (proj1 (Forall_forall _ _) HF) in Hn.
  - intros c Hc. apply (proj1 (Forall_forall _ _) HF). destruct (bytes_of s); simplify_eq/=. by left.
  - intros c Hc. apply (proj1 (Forall_forall _ _) HF). apply last_Some in Hc as [l' ->]. rewrite elem_of_app, list_elem_of_singleton. by right.
Qed.

Lemma Join_plain l : Forall word l → plain_line (bytes_of (Join l " ")).
Proof.
  intros HF. induction HF as [|s l Hw HF IH]; [by constructor; [apply not_elem_of_nil|..]|].
  destruct (decide (l = [])) as [->|Hl]; [cbn [Join]; by apply word_plain|]. rewrite bytes_Join_cons by done.
  pose proof (word_plain s Hw) as [Hn Hh _]. destruct IH as [Hn' _ Hl']. destruct Hw as [Hne _]. constructor.
  - rewrite elem_of_app, elem_of_cons. intros [?|[Hc|?]]; [done| |done]. by vm_compute in Hc.
  - intros c Hc. apply Hh. destruct (bytes_of s); [done|]. done.
  - intros c Hc. apply Hl'. rewrite last_app, last_cons in Hc. destruct (last (bytes_of (Join l " "))) eqn:E; [done|].
    exfalso. apply last_None in E. inversion HF as [|t k [Ht _] _]; subst; [done|]. destruct k; simpl in E; [done|]. rewrite bytes_of_app in E. by destruct (bytes_of t).
Qed.

Lemma TrimSpace_plain s : plain_line (bytes_of s) → TrimSpace s = s.
Proof.
  intros [_ Hh Hl]. unfold TrimSpace, trim_list. rewrite (drop_while_false _ (bytes_of s)); [|exact Hh].
  rewrite drop_while_false; [by rewrite reverse_involutive, of_bytes_bytes_of|]. intros c Hc. apply Hl. by rewrite <- head_reverse.
Qed.

Lemma dropCR_plain l : plain_line l → dropCR l = l.
Proof.
  intros [_ _ Hl]. unfold dropCR. destruct (reverse l) as [|c r] eqn:E; [done|]. case_decide as Hc; [|done].
  specialize (Hl c). rewrite <- head_reverse, E in Hl. subst c. by specialize (Hl eq_refl).
Qed.

Definition nl_char : ascii := ascii_of_nat 10.

Lemma split_on_lines ls : Forall plain_line ls → split_on nl_char (concat ((λ l, l ++ [nl_char]) <$> ls)) [] = ls ++ [[]].
Proof.
  assert (∀ l cur rest, nl_char ∉ l → split_on nl_char (l ++ nl_char :: rest) cur = (cur ++ l) :: split_on nl_char rest []) as E.
  { induction l as [|c l IH]; intros cur rest Hl; cbn [app split_on].
    - rewrite decide_True by done. by rewrite app_nil_r.
    - rewrite elem_of_cons in Hl. rewrite decide_False by naive_solver. rewrite IH by naive_solver. by rewrite <- (assoc_L (++)). }
  induction 1 as [|l ls [Hn _ _] _ IH]; [done|]. rewrite fmap_cons. cbn [concat]. rewrite <- (assoc_L (++)). cbn [app].
  rewrite E by done. by rewrite IH.
Qed.

Lemma scan_lines_plain ls : Forall (λ l, plain_line l ∧ length l < MaxScanTokenSize) ls → scan_lines (ls ++ [[]]) = ls.
Proof.
  induction 1 as [|l ls [Hp Hlen] _ IH]; [done|]. cbn [app].
  assert (∃ x xs, ls ++ [[]] = x :: xs) as (x & xs & E) by (destruct ls; simpl; eauto). rewrite E in *.
  change (scan_lines (l :: x :: xs)) with (if decide (length l < MaxScanTokenSize) then dropCR l :: scan_lines (x :: xs) else []).
  rewrite decide_True by done. by rewrite dropCR_plain, IH.
Qed.

(** The lines of a written resolv.conf. *)
Definition resolv_lines (nameservers searchDomains options : list string) : list string :=
  ["# Generated by tink-agent for container DNS"] ++ (if decide (searchDomains = []) then [] else [Join ("search" :: searchDomains) " "]) ++
  ((λ ns, Join ["nameserver"; ns] " ") <$> nameservers) ++ (if decide (options = []) then [] else [Join ("options" :: options) " "]).

Lemma resolv_conf_lines ns sd opts :
  bytes_of (resolv_conf ns sd opts) = concat ((λ l, bytes_of l ++ [nl_char]) <$> resolv_lines ns sd opts).
Proof.
  assert (∀ k l, l ≠ [] → bytes_of (k +:+ " " +:+ Join l " " +:+ nl) = bytes_of (Join (k :: l) " ") ++ [nl_char]) as E.
  { intros k l Hl. rewrite bytes_Join_cons by done. rewrite !bytes_of_app. by rewrite <- (assoc_L (++)). }
  assert (∀ k l, bytes_of (if decide (l = []) then "" else (k +:+ " ") +:+ Join l " " +:+ nl) =
    concat ((λ l, bytes_of l ++ [nl_char]) <$> (if decide (l = []) then [] else [Join (k :: l) " "]))) as E2.
  { intros k l. case_decide; [done|]. cbn [fmap list_fmap concat]. by rewrite app_nil_r, <- E, <- string_app_assoc. }
  assert (bytes_of (String.concat "" ((λ n, "nameserver " +:+ n +:+ nl) <$> ns)) =
    concat ((λ l, bytes_of l ++ [nl_char]) <$> ((λ n, Join ["nameserver"; n] " ") <$> ns))) as E3.
  { clear. induction ns as [|n ns IH]; [done|]. rewrite !fmap_cons. cbn [concat]. rewrite <- IH.
    assert (∀ x xs, String.concat "" (x :: xs) = x +:+ String.concat "" xs) as ->
      by (intros x [|y ys]; cbn [String.concat]; [by rewrite string_app_nil_r|done]).
    rewrite bytes_of_app. f_equal. cbn [Join]. rewrite !bytes_of_app. by rewrite <- !(assoc_L (++)). }
  unfold resolv_conf, resolv_lines. rewrite !bytes_of_app, !fmap_app, !concat_app.
  change "search " with ("search" +:+ " "). change "options " with ("options" +:+ " "). rewrite E2, E2, E3. done.
Qed.

Lemma HasPrefix_char s c : HasPrefix s (String c "") = bool_decide (head (bytes_of s) = Some c).
Proof.
  unfold HasPrefix. destruct s as [|d s]; [done|]. simpl. destruct (ascii_dec c d) as [->|Hne].
  - rewrite bool_decide_eq_true_2 by done. by destruct s.
  - rewrite bool_decide_eq_false_2; [done|]. intros [= ->]. done.
Qed.

Lemma resolv_line_words k ws acc : k ∈ ["nameserver"; "search"; "options"] → ws ≠ [] → Forall word ws →
  resolv_line acc (Join (k :: ws) " ") =
    let '(nameservers, searchDomains, options) := acc in
    if decide (k = "nameserver") then (nameservers ++ [default "" (head ws)], searchDomains, options)
    else if decide (k = "search") then (nameservers, searchDomains ++ ws, options)
    else (nameservers, searchDomains, options ++ ws).
Proof.
  intros Hk Hne Hw. assert (word k ∧ (∃ c, head (bytes_of k) = Some c ∧ c ≠ "#"%char ∧ c ≠ ";"%char)) as (Hwk & c & Hc & Hc1 & Hc2).
  { repeat (apply elem_of_cons in Hk as [->|Hk]; [split; [by_decide|by eexists]|]). by apply not_elem_of_nil in Hk. }
  assert (Forall word (k :: ws)) as HF by (by constructor). unfold resolv_line.
  rewrite TrimSpace_plain by (by apply Join_plain). destruct acc as [[a b] d].
  assert (head (bytes_of (Join (k :: ws) " ")) = Some c) as Hh.
  { rewrite bytes_Join_cons by done. destruct (bytes_of k); [done|]. done. }
  rewrite decide_False by (intros E; by rewrite E in Hh). rewrite !HasPrefix_char, Hh.
  rewrite !bool_decide_eq_false_2 by congruence. cbn [orb]. rewrite Fields_Join by done. destruct ws as [|w ws]; [done|]. cbn [head default].
  repeat (apply elem_of_cons in Hk as [->|Hk]; [done|]). by apply not_elem_of_nil in Hk.
Qed.

(** The file an isolated or a host container is given reads back as the servers,
    the domains and the options it was written from. *)
Theorem resolv_conf_roundtrip ns sd opts :
  Forall word ns → Forall word sd → Forall word opts → Forall (λ l, strlen l < MaxScanTokenSize) (resolv_lines ns sd opts) →
  parseResolvConf (resolv_conf ns sd opts) = (ns, sd, opts).
Proof.
  intros Hns Hsd Hopts Hlen. unfold parseResolvConf, Scan. rewrite resolv_conf_lines.
  assert (Forall plain_line (bytes_of <$> resolv_lines ns sd opts)) as Hp.
  { apply Forall_fmap. unfold resolv_lines. rewrite !Forall_app. split_and!.
    - constructor; [|done]. constructor; [by_decide|by intros ? [= <-]|by intros ? [= <-]].
    - case_decide; [done|]. constructor; [|done]. apply Join_plain. constructor; [by_decide|done].
    - apply Forall_fmap. eapply Forall_impl; [exact Hns|]. intros n Hn. apply (Join_plain ["nameserver"; n]). repeat constructor; [by_decide..|apply Hn|apply Hn].
    - case_decide; [done|]. constructor; [|done]. apply Join_plain. constructor; [by_decide|done]. }
  replace ((λ l, bytes_of l ++ [nl_char]) <$> resolv_lines ns sd opts) with ((λ l, l ++ [nl_char]) <$> (bytes_of <$> resolv_lines ns sd opts))
    by (by rewrite <- list_fmap_compose).
  change (ascii_of_nat 10) with nl_char. rewrite split_on_lines by done. rewrite scan_lines_plain.
  2:{ apply Forall_forall. intros l Hl. split; [by apply (proj1 (Forall_forall _ _) Hp)|]. apply list_elem_of_fmap in Hl as (s & -> & Hs).
      apply (proj1 (Forall_forall _ _) Hlen) in Hs. by rewrite <- strlen_bytes. }
  rewrite <- list_fmap_compose, (list_fmap_ext _ id), list_fmap_id by (intros; apply of_bytes_bytes_of).
  unfold resolv_lines. rewrite !foldl_app. cbn [foldl]. change (resolv_line ([], [], []) "# Generated by tink-agent for container DNS") with (@nil string, @nil string, @nil string).
  assert (foldl resolv_line ([], [], []) (if decide (sd = []) then [] else [Join ("search" :: sd) " "]) = ([], sd, [])) as ->.
  { case_decide as E; [by subst|]. cbn [foldl]. rewrite resolv_line_words; [done|set_solver|done|done]. }
  assert (foldl resolv_line ([], sd, []) ((λ n, Join ["nameserver"; n] " ") <$> ns) = (ns, sd, [])) as ->.
  { assert (∀ pre, foldl resolv_line (pre, sd, []) ((λ n, Join ["nameserver"; n] " ") <$> ns) = (pre ++ ns, sd, [])) as E; [|apply E].
    clear -Hns. induction Hns as [|n ns Hn _ IH]; intros pre; [by rewrite app_nil_r|]. rewrite fmap_cons. cbn [foldl].
    rewrite resolv_line_words; [|set_solver|done|by constructor]. cbn [decide]. rewrite decide_True by done. rewrite IH.
    cbn [head default]. by rewrite <- (assoc_L (++)). }
  case_decide as E; [by subst|]. cbn [foldl]. rewrite resolv_line_words; [done|set_solver|done|done].
Qed.

Lemma resolv_line_wf acc text :
  Forall word acc.1.1 ∧ Forall word acc.1.2 ∧ Forall word acc.2 →
  Forall word (resolv_line acc text).1.1 ∧ Forall word (resolv_line acc text).1.2 ∧ Forall word (resolv_line acc text).2.
Proof.
  destruct acc as [[a b] c]. simpl. intros (Ha & Hb & Hc). unfold resolv_line. case_decide; [done|]. destruct (_ || _); [done|].
  pose proof (Fields_words (TrimSpace text)) as HF. destruct (Fields _) as [|k [|v more]]; [done..|].
  inversion HF as [|? ? _ HF1]. inversion HF1 as [|? ? Hv Hmore]. subst.
  repeat case_decide; simpl; rewrite ?Forall_app, ?Forall_singleton; split_and!; done.
Qed.

Lemma parseResolvConf_wf content ns sd opts :
  parseResolvConf content = (ns, sd, opts) → Forall word ns ∧ Forall word sd ∧ Forall word opts.
Proof.
  unfold parseResolvConf. generalize (Scan content). intros ls E.
  assert (∀ acc, Forall word acc.1.1 ∧ Forall word acc.1.2 ∧ Forall word acc.2 →
    let r := foldl resolv_line acc ls in Forall word r.1.1 ∧ Forall word r.1.2 ∧ Forall word r.2) as Hg.
  { clear. induction ls as [|l ls IH]; intros acc Ha; [done|]. cbn [foldl]. by apply IH, resolv_line_wf. }
  specialize (Hg ([], [], [])). rewrite E in Hg. by apply Hg.
Qed.

Lemma fallback_reachable : Forall (λ ns, isLocalhost ns = false ∧ word ns) fallbackNameservers.
Proof. by_decide. Qed.

Lemma reachable_spec ns : Forall word ns →
  reachable_nameservers ns ≠ [] ∧ Forall (λ n, isLocalhost n = false ∧ word n) (reachable_nameservers ns) ∧
  (∀ n, n ∈ ns → isLocalhost n = false → n ∈ reachable_nameservers ns).
Proof.
  intros Hw. unfold reachable_nameservers. case_decide as E.
  - split_and!; [done|apply fallback_reachable|]. intros n Hn Hl. assert (n ∈ filter (λ n, isLocalhost n = false) ns) as Hf by (by apply list_elem_of_filter).
    rewrite E in Hf. by apply not_elem_of_nil in Hf.
  - split_and!; [done| |].
    + apply Forall_forall. intros n [Hl Hn]%list_elem_of_filter. split; [done|]. by apply (proj1 (Forall_forall _ _) Hw).
    + intros n Hn Hl. by apply list_elem_of_filter.
Qed.

(** The resolver file of a container with a network of its own: it is written
    once, names at least one server, and none that is an address of the host's
    loopback; the servers of the host that can be reached, its search domains
    and its options are kept. *)
Theorem buildResolvConf_isolated {W} `{HostOs W} dst (w : W) :
  ∃ ns sd opts w1,
    buildResolvConf dst false w = os_WriteFile dst (resolv_conf ns sd opts) w1 ∧
    ns ≠ [] ∧ Forall (λ n, isLocalhost n = false) ns ∧ Forall word ns ∧ Forall word sd ∧ Forall word opts ∧
    ((ns, sd, opts) = (fallbackNameservers, [], []) ∨
     ∃ path content w0 ns0, os_ReadFile path w0 = (inr content, w1) ∧ (path = resolvConfPath ∨ path = systemdResolvedPath) ∧
       parseResolvConf content = (ns0, sd, opts) ∧ ns = reachable_nameservers ns0).
Proof.
  pose proof fallback_reachable as Hfb. apply Forall_and in Hfb as [Hfb Hfw].
  unfold buildResolvConf. assert (∃ path w0, host_resolv_conf false w = (path, w0) ∧ (path = resolvConfPath ∨ path = systemdResolvedPath)) as (path & w0 & -> & Hpath).
  { unfold host_resolv_conf. repeat case_match; eexists _, _; eauto. }
  destruct (os_ReadFile path w0) as [[err|content] w1] eqn:Er.
  { exists fallbackNameservers, [], [], w1. split_and!; [done|done|done|done|constructor|constructor|by left]. }
  destruct (parseResolvConf content) as [[ns0 sd] opts] eqn:Ep. apply parseResolvConf_wf in Ep as Hw. destruct Hw as (Hns & Hsd & Hopts).
  destruct (reachable_spec ns0 Hns) as (Hne & HF & _). apply Forall_and in HF as [Hl Hw].
  exists (reachable_nameservers ns0), sd, opts, w1. split_and!; try done. right. by exists path, content, w0, ns0.
Qed.

(** ** Volumes *)

(** The mode of a volume is the last one named, and to write when none is. *)
Definition is_mode (o : string) : Prop := o = "ro" ∨ o = rwOption.
#[export] Instance is_mode_dec o : Decision (is_mode o).
Proof. unfold is_mode. apply _. Defined.

Lemma volume_option_fold opts acc :
  foldl volume_option acc opts =
    (acc.1 ++ filter (λ o, o ≠ "" ∧ ¬ is_mode o) (TrimSpace <$> opts),
     default acc.2 (last (filter is_mode (TrimSpace <$> opts)))).
Proof.
  revert acc. induction opts as [|o opts IH]; intros [os m]; [simpl; by rewrite app_nil_r|]. cbn [foldl]. rewrite IH, fmap_cons, !filter_cons.
  unfold volume_option, is_mode. set (t := TrimSpace o). clearbody t.
  destruct (decide (t = "ro")) as [->|H1]; [|destruct (decide (t = rwOption)) as [->|H2]; [|destruct (decide (t = "")) as [->|H3]]].
  - rewrite (decide_False (P := "ro" ≠ "" ∧ _)) by tauto. rewrite (decide_True (P := "ro" = "ro" ∨ _)) by tauto. cbn [fst snd]. by rewrite last_cons; destruct (last _).
  - rewrite (decide_False (P := rwOption ≠ "" ∧ _)) by tauto. rewrite (decide_True (P := rwOption = "ro" ∨ _)) by tauto. cbn [fst snd]. by rewrite last_cons; destruct (last _).
  - rewrite decide_False by tauto. done.
  - rewrite (decide_True (P := t ≠ "")) by done. rewrite (decide_True (P := t ≠ "" ∧ _)) by tauto. rewrite (decide_False (P := t = "ro" ∨ _)) by tauto. cbn [fst snd].
    by rewrite <- (assoc_L (++)).
Qed.

(** Every volume that becomes a mount is a bind of an absolute path of the
    container from a path of the host, with exactly one mode, the last: the last
    one the volume names, or the one to write. *)
Theorem parseVolume_spec v m :
  parseVolume v = Some m →
  mt_Type m = "bind" ∧ filepath_IsAbs (mt_Destination m) = true ∧
  (filepath_IsAbs (mt_Source m) = true ∨ HasPrefix (mt_Source m) "." = true) ∧
  (∃ passed mode, mt_Options m = "rbind" :: passed ++ [mode] ∧ is_mode mode ∧ Forall (λ o, ¬ is_mode o ∧ o ≠ "") passed ∧
     ((∃ a b opts, SplitN3 v ":"%char = [a; b; opts] ∧ mode = default rwOption (last (filter is_mode (TrimSpace <$> Split opts ","%char)))) ∨
      (∃ a b, SplitN3 v ":"%char = [a; b] ∧ mode = rwOption ∧ passed = []))).
Proof.
  unfold parseVolume. assert (∃ a b, SplitN3 v ":"%char = [a] ∨ SplitN3 v ":"%char = [a; b] ∨ ∃ c, SplitN3 v ":"%char = [a; b; c]) as (a & b & Hs).
  { unfold SplitN3. repeat case_match; [eauto 10|eauto 10|exists v, "x"; auto]. }
  destruct Hs as [->|[->|(c & ->)]]; [done|..]; (case_decide as H1; [done|]); (case_decide as H2; [done|]); intros [= <-]; simpl;
    apply Decidable.not_or in H1 as [_ H1]; apply not_false_is_true in H1; (split_and!; [done|done| |]).
  1,3: destruct (filepath_IsAbs a); [by left|]; destruct (HasPrefix a "."); [by right|]; naive_solver.
  - exists [], rwOption. split_and!; [done|by right|done|]. right. by exists a, b.
  - unfold volume_options. rewrite volume_option_fold. cbn [fst snd]. set (mode := default "" _).
    set (l := TrimSpace <$> Split c ","%char) in *.
    assert ((if decide (mode = "") then rwOption else mode) = default rwOption (last (filter is_mode l))) as ->.
    { unfold mode. destruct (last (filter is_mode l)) as [o|] eqn:E; simpl; [|done].
      apply last_Some_elem_of, list_elem_of_filter in E as [[->| ->] _]; done. }
    eexists _, _. split; [done|]. split; [|split; [|left; eauto 10]].
    + destruct (last (filter is_mode l)) as [o|] eqn:E; simpl; [|by right]. by apply last_Some_elem_of, list_elem_of_filter in E as [? _].
    + apply Forall_forall. intros o [[? ?] _]%list_elem_of_filter. done.
Qed.
