(* ===== verification/Containerd.v ===== *)
(** * The containerd runtime of the agent

    tink/agent/internal/runtime/containerd/containerd.go: an action is a
    container with one task. The containerd client, the CNI plugin and the log
    file are the class [ContainerdClient], the file system is [HostOs]; a
    context that is done is an answer of [task_Select]. *)
From S2P Require Import Prelude GoStrings GoPath GoNet GoNetip Attributes ServerNames Server Agent ContainerdFiles.

(** ** Containers *)

(** The options of the OCI specification of a container, in the order they are applied. *)
Inductive SpecOpt :=
| WithImageConfig (image : string)
| WithPrivileged
| WithAllDevicesAllowed
| WithHostDevices
| WithEnv (env : list string)
| WithProcessArgs (args : list string)
| EntrypointOverride (image cmd : string)
| WithImageConfigArgs (image : string) (args : list string)
| WithMounts (mounts : list Mount)
| WithHostNamespace (ns : string)
| WithHostname (name : string).

Record ContainerSpec := mkContainerSpec {
  cs_ID : string;
  cs_Snapshot : string;
  cs_Image : string;
  cs_Opts : list SpecOpt;
  cs_Labels : list (string * string);
}.

(** The end of the wait for a task: its exit status, or the context is done. *)
Inductive TaskEnd := TaskExited (code : Z) (err : option error) | TaskCtxDone (k : ctxErr).

Class ContainerdClient (W : Type) := {
  cd_New : string → W → option error * W;
  cni_New : bool → W → option error * W;
  shortnames_Resolve : string → option string;
  cd_GetImage : string → W → res string * W;
  cd_Pull : string → string → W → res string * W;
  rand_Read : W → res (list Z) * W;
  cd_NewContainer : ContainerSpec → W → option error * W;
  cd_Delete : string → W → option error * W;
  log_Open : string → W → option error * W;
  log_Close : W → option error * W;
  task_New : string → W → res Z * W;
  task_Wait : string → W → option error * W;
  task_Start : string → W → option error * W;
  task_Select : string → W → TaskEnd * W;
  task_Kill : string → W → option error * W;
  task_Drain : string → W → unit * W;
  task_Delete : string → W → option error * W;
  cni_Setup : string → string → W → option error * W;
  cni_Remove : string → string → W → option error * W;
}.

(** ** Configuration *)

Record ContainerdConfig := mkContainerdConfig {
  cc_Namespace : string;
  cc_Client : bool;
  cc_SocketPath : string;
  cc_RegistryConfigPath : string;
  cc_CNI : bool;
  cc_DataRoot : string;
}.

Definition defaultNamespace : string := "tinkerbell".
Definition defaultSocketPath : string := "/run/containerd/containerd.sock".
Definition defaultRegistryConfigPath : string := "/etc/containerd/certs.d".

Definition WithNamespace (namespace : string) (c : ContainerdConfig) : ContainerdConfig :=
  mkContainerdConfig namespace (cc_Client c) (cc_SocketPath c) (cc_RegistryConfigPath c) (cc_CNI c) (cc_DataRoot c).
Definition WithClient (client : bool) (c : ContainerdConfig) : ContainerdConfig :=
  mkContainerdConfig (cc_Namespace c) client (cc_SocketPath c) (cc_RegistryConfigPath c) (cc_CNI c) (cc_DataRoot c).
Definition WithSocketPath (socketPath : string) (c : ContainerdConfig) : ContainerdConfig :=
  mkContainerdConfig (cc_Namespace c) (cc_Client c) socketPath (cc_RegistryConfigPath c) (cc_CNI c) (cc_DataRoot c).
Definition WithDataRoot (dataRoot : string) (c : ContainerdConfig) : ContainerdConfig :=
  mkContainerdConfig (cc_Namespace c) (cc_Client c) (cc_SocketPath c) (cc_RegistryConfigPath c) (cc_CNI c) dataRoot.
Definition WithRegistryConfigPath (path : string) (c : ContainerdConfig) : ContainerdConfig :=
  mkContainerdConfig (cc_Namespace c) (cc_Client c) (cc_SocketPath c) path (cc_CNI c) (cc_DataRoot c).

(** [retry.Do]: at most [n] attempts, all errors kept when none succeeds. *)
Fixpoint retry_Do {W A} (n : nat) (op : W → res A * W) (errs : list error) (w : W) : res A * W :=
  match n with
  | 0 => (inl (ErrWrap "All attempts fail: " (foldr ErrJoin (ErrNew "") errs)), w)
  | S n =>
      match op w with
      | (inr a, w) => (inr a, w)
      | (inl err, w) => retry_Do n op (errs ++ [err]) w
      end
  end.

(** The specification option of an image whose configuration is read as
    described: the entrypoint replaced, the command of the image kept. *)
Definition withEntrypointOverride (config : res string) (is_config : string → bool) (blob : res string)
    (unmarshal : string → res (list string)) (cmd : string) : res (list string) :=
  match config with
  | inl err => inl (ErrWrap "failed to get image config: " err)
  | inr mediaType =>
      if is_config mediaType then
        match blob with
        | inl err => inl (ErrWrap "failed to read image config: " err)
        | inr bytes =>
            match unmarshal bytes with
            | inl err => inl (ErrWrap "failed to unmarshal image config: " err)
            | inr imageCmd => inr (cmd :: imageCmd)
            end
        end
      else inl (ErrNew ("unknown image config media type " +:+ mediaType))
  end.

Section Containerd.
Context {W : Type} `{HostOs W} `{ContainerdClient W}.
Implicit Types (a : spec_Action) (w : W).

Definition isIPForwardingEnabled w : res bool * W :=
  match os_ReadFile "/proc/sys/net/ipv4/ip_forward" w with
  | (inl err, w) => (inl (ErrWrap "failed to read /proc/sys/net/ipv4/ip_forward: " err), w)
  | (inr current, w) => (inr (bool_decide (head (bytes_of current) = Some "1"%char)), w)
  end.

Definition containerd_NewConfig (opts : list (ContainerdConfig → ContainerdConfig)) w : res ContainerdConfig * W :=
  let c := foldl (λ c o, o c) (mkContainerdConfig defaultNamespace false defaultSocketPath defaultRegistryConfigPath false defaultDataRoot) opts in
  let '(err, w) := if cc_Client c then (None, w) else cd_New (cc_SocketPath c) w in
  match err with
  | Some err => (inl (ErrWrap "error creating containerd client: " err), w)
  | None =>
      let '(cni, w) :=
        if cc_CNI c then (true, w)
        else
          match cni_New true w with
          | (None, w) => (true, w)
          | (Some _, w) => match cni_New false w with (None, w) => (true, w) | (Some _, w) => (false, w) end
          end in
      let '(_, w) := if cni then isIPForwardingEnabled w else (inr false, w) in
      (inr (mkContainerdConfig (cc_Namespace c) true (cc_SocketPath c) (cc_RegistryConfigPath c) cni (cc_DataRoot c)), w)
  end.

Definition generateID w : res string * W :=
  match rand_Read w with
  | (inl err, w) => (inl (ErrWrap "failed to generate random ID: " err), w)
  | (inr b, w) => (inr (hex_EncodeToString b), w)
  end.

(** The options for the process of an action. *)
Definition args_opts (image : string) a : list SpecOpt :=
  if decide (sa_Cmd a ≠ "" ∧ sa_Args a ≠ []) then [WithProcessArgs (sa_Cmd a :: sa_Args a)]
  else if decide (sa_Cmd a ≠ "") then [EntrypointOverride image (sa_Cmd a)]
  else if decide (sa_Args a ≠ []) then [WithImageConfigArgs image (sa_Args a)]
  else [].

Definition container_hostname (useHostNetwork : bool) (containerID : string) w : string * W :=
  if useHostNetwork then
    match os_Hostname w with
    | (inl _, w) => (truncateHostname containerID, w)
    | (inr h, w) => (h, w)
    end
  else (truncateHostname containerID, w).

Definition container_labels (c : ContainerdConfig) (displayName hostname dataStore containerID : string) : list (string * string) :=
  [("nerdctl/namespace", cc_Namespace c); ("nerdctl/name", displayName); ("nerdctl/extraHosts", "[]"); ("nerdctl/hostname", hostname);
   ("nerdctl/log-uri", "json-file://" +:+ containerLogFile dataStore (cc_Namespace c) containerID);
   ("nerdctl/state-dir", containerLogDir dataStore (cc_Namespace c) containerID)].

(** The options of the container of an action, in their order. *)
Definition container_opts (image : string) a (mounts : list Mount) (useHostNetwork : bool) (df : dnsFiles) (hostname : string) : list SpecOpt :=
  [WithImageConfig image; WithPrivileged; WithAllDevicesAllowed; WithHostDevices; WithEnv (ParseEnv (sa_Env a))] ++
  args_opts image a ++
  (if decide (mounts = []) then [] else [WithMounts mounts]) ++
  (if decide (nsp_PID (sa_Namespaces a) = "host") then [WithHostNamespace "pid"] else []) ++
  (if useHostNetwork then [WithHostNamespace "network"] else []) ++
  ((λ m, WithMounts [m]) <$> dnsSpecOpts df) ++
  [WithHostname hostname].

Definition createContainer (c : ContainerdConfig) (image : string) a (useHostNetwork : bool) (df : dnsFiles) (dataStore : string) w
    : res (string * string) * W :=
  let '(mounts, w) := if decide (sa_Volumes a = []) then ([], w) else parseVolumes (sa_Volumes a) w in
  match generateID w with
  | (inl err, w) => (inl (ErrWrap "failed to generate container ID: " err), w)
  | (inr containerID, w) =>
      let displayName := ParseName (sa_ID a) (sa_Name a) in
      let snapshotID := displayName +:+ "-" +:+ of_bytes (take 8 (bytes_of containerID)) in
      let '(hostname, w) := container_hostname useHostNetwork containerID w in
      let spec := mkContainerSpec containerID snapshotID image (container_opts image a mounts useHostNetwork df hostname)
                    (container_labels c displayName hostname dataStore containerID) in
      match cd_NewContainer spec w with
      | (Some err, w) => (inl err, w)
      | (None, w) => (inr (containerID, hostname), w)
      end
  end.

(** ** Execute

    A function per deferred cleanup, each around the next one. *)

(** From the wait to the end of the task. *)
Definition run_task (id : string) w : option error * W :=
  match task_Wait id w with
  | (Some err, w) => (Some (ErrWrap "error waiting on task: " err), w)
  | (None, w) =>
      match task_Start id w with
      | (Some err, w) => let '(_, w) := task_Delete id w in (Some (ErrWrap "error starting task: " err), w)
      | (None, w) =>
          match task_Select id w with
          | (TaskExited code err, w) =>
              if decide (code ≠ 0)%Z then
                (Some (match err with
                       | Some e => ErrWrap ("task exited with non-zero code: " +:+ Itoa code +:+ ", error: ") e
                       | None => ErrNew ("task exited with non-zero code: " +:+ Itoa code +:+ ", error: %!w(<nil>)")
                       end), w)
              else (None, w)
          | (TaskCtxDone k, w) =>
              let '(_, w) := task_Kill id w in
              let '(_, w) := task_Drain id w in
              (Some (ErrWrap "context cancelled while waiting for task: " (ErrCtx k)), w)
          end
      end
  end.

Definition with_network (c : ContainerdConfig) (useHostNetwork : bool) (id : string) (pid : Z) w : option error * W :=
  if negb useHostNetwork && cc_CNI c then
    let netns := "/proc/" +:+ Itoa pid +:+ "/ns/net" in
    let '(_, w) := cni_Setup id netns w in
    let '(r, w) := run_task id w in
    let '(_, w) := cni_Remove id netns w in
    (r, w)
  else run_task id w.

Definition with_task (c : ContainerdConfig) (useHostNetwork : bool) (id : string) w : option error * W :=
  match task_New id w with
  | (inl err, w) => let '(_, w) := log_Close w in (Some (ErrWrap "error creating task: " err), w)
  | (inr pid, w) =>
      let '(r, w) := with_network c useHostNetwork id pid w in
      let '(_, w) := task_Delete id w in
      let '(_, w) := log_Close w in
      (r, w)
  end.

Definition with_log (c : ContainerdConfig) (useHostNetwork : bool) (df : dnsFiles) (dataStore id hostname : string) w : option error * W :=
  let '(_, w) := setHostname df hostname useHostNetwork w in
  let logDir := containerLogDir dataStore (cc_Namespace c) id in
  match writeLogConfig logDir (cc_SocketPath c) w with
  | (Some err, w) => (Some (ErrWrap "failed to write log-config.json: " err), w)
  | (None, w) =>
      match log_Open (containerLogFile dataStore (cc_Namespace c) id) w with
      | (Some err, w) => (Some (ErrWrap "failed to open container log file: " err), w)
      | (None, w) =>
          let '(r, w) := with_task c useHostNetwork id w in
          match r with
          | None => let '(_, w) := os_RemoveAll logDir w in (None, w)
          | Some err => (Some err, w)
          end
      end
  end.

Definition with_container (c : ContainerdConfig) a (image : string) (useHostNetwork : bool) (df : dnsFiles) w : option error * W :=
  match dataStoreDir (cc_DataRoot c) (cc_SocketPath c) w with
  | (inl err, w) => (Some (ErrWrap "failed to compute data store: " err), w)
  | (inr dataStore, w) =>
      match createContainer c image a useHostNetwork df dataStore w with
      | (inl err, w) => (Some (ErrWrap "error creating container: " err), w)
      | (inr (id, hostname), w) =>
          let '(r, w) := with_log c useHostNetwork df dataStore id hostname w in
          match r with
          | None => let '(_, w) := cd_Delete id w in (None, w)
          | Some err => (Some err, w)
          end
      end
  end.

(** The image, pulled when it is not there. *)
Definition pull_image (c : ContainerdConfig) a w : res string * W :=
  let imageName := default (sa_Image a) (shortnames_Resolve (sa_Image a)) in
  match cd_GetImage imageName w with
  | (inr image, w) => (inr image, w)
  | (inl _, w) =>
      retry_Do 5 (λ w, match cd_Pull (cc_RegistryConfigPath c) imageName w with
                       | (inl err, w) => (inl (ErrWrap "error pulling image: " err), w)
                       | r => r
                       end) [] w
  end.

Definition containerd_Execute (c : ContainerdConfig) a w : option error * W :=
  match pull_image c a w with
  | (inl err, w) => (Some err, w)
  | (inr image, w) =>
      let useHostNetwork := bool_decide (nsp_Network (sa_Namespaces a) = "host") in
      match prepareDNSFiles useHostNetwork w with
      | (inl err, w) => (Some (ErrWrap "failed to build DNS files: " err), w)
      | (inr df, w) =>
          let '(r, w) := with_container c a image useHostNetwork df w in
          let '(_, w) := df_cleanup df w in
          (r, w)
      end
  end.
End Containerd.

(** ** What an execution leaves behind

    The calls that make or release something of the host, in their order. *)
Inductive cevent :=
| CMkTemp (r : res string)
| CRemoveAll (path : string)
| CCreate (spec : ContainerSpec) (err : option error)
| CDelete (id : string)
| CLogOpen (path : string) (err : option error)
| CLogClose
| CTaskNew (id : string) (r : res Z)
| CStart (id : string) (err : option error)
| CEnd (id : string) (e : TaskEnd)
| CKill (id : string)
| CTaskDelete (id : string)
| CSetup (id : string)
| CRemove (id : string).

Section Recorded.
Context {W : Type} (OS : HostOs W) (CD : ContainerdClient W).
Local Abbreviation silent f := (recorded (λ _, []) f).

Definition recorded_os : HostOs (W * list cevent) := {|
  os_ReadFile p := silent (os_ReadFile p);
  os_WriteFile p s := silent (os_WriteFile p s);
  os_MkdirAll p := silent (os_MkdirAll p);
  os_MkdirTemp p := recorded (λ r, [CMkTemp r]) (os_MkdirTemp p);
  os_RemoveAll p := recorded (λ _, [CRemoveAll p]) (os_RemoveAll p);
  os_Stat p := silent (os_Stat p);
  os_Hostname := silent os_Hostname;
  filepath_Abs p := silent (filepath_Abs p);
  EvalSymlinks p := silent (EvalSymlinks p);
  sha256_Sum256 := sha256_Sum256;
|}.

Definition recorded_cd : ContainerdClient (W * list cevent) := {|
  cd_New p := silent (cd_New p);
  cni_New b := silent (cni_New b);
  shortnames_Resolve := shortnames_Resolve;
  cd_GetImage n := silent (cd_GetImage n);
  cd_Pull p n := silent (cd_Pull p n);
  rand_Read := silent rand_Read;
  cd_NewContainer s := recorded (λ r, [CCreate s r]) (cd_NewContainer s);
  cd_Delete id := recorded (λ _, [CDelete id]) (cd_Delete id);
  log_Open p := recorded (λ r, [CLogOpen p r]) (log_Open p);
  log_Close := recorded (λ _, [CLogClose]) log_Close;
  task_New id := recorded (λ r, [CTaskNew id r]) (task_New id);
  task_Wait id := silent (task_Wait id);
  task_Start id := recorded (λ r, [CStart id r]) (task_Start id);
  task_Select id := recorded (λ e, [CEnd id e]) (task_Select id);
  task_Kill id := recorded (λ _, [CKill id]) (task_Kill id);
  task_Drain id := silent (task_Drain id);
  task_Delete id := recorded (λ _, [CTaskDelete id]) (task_Delete id);
  cni_Setup id n := recorded (λ _, [CSetup id]) (cni_Setup id n);
  cni_Remove id n := recorded (λ _, [CRemove id]) (cni_Remove id n);
|}.
Existing Instance recorded_os.
Existing Instance recorded_cd.

(** The shape of the record, from the inside out: a task, its network, its log
    file, its container, its DNS files. The result is that of the execution. *)
Inductive run_trace (id : string) : option error → list cevent → Prop :=
| rt_wait e : run_trace id (Some e) []
| rt_start e e' : run_trace id (Some e) [CStart id (Some e'); CTaskDelete id]
| rt_done err : run_trace id None [CStart id None; CEnd id (TaskExited 0 err)]
| rt_failed e code err : code ≠ 0%Z → is_ctx DeadlineExceeded e = match err with Some e' => is_ctx DeadlineExceeded e' | None => false end →
    run_trace id (Some e) [CStart id None; CEnd id (TaskExited code err)]
| rt_ctx k : run_trace id (Some (ErrWrap "context cancelled while waiting for task: " (ErrCtx k))) [CStart id None; CEnd id (TaskCtxDone k); CKill id].

Inductive net_trace (id : string) (network : bool) : option error → list cevent → Prop :=
| nt_host r es : network = false → run_trace id r es → net_trace id network r es
| nt_cni r es : network = true → run_trace id r es → net_trace id network r (CSetup id :: es ++ [CRemove id]).

Inductive task_trace (id : string) (network : bool) : option error → list cevent → Prop :=
| tt_none e e' : task_trace id network (Some e) [CTaskNew id (inl e'); CLogClose]
| tt_run pid r es : net_trace id network r es → task_trace id network r (CTaskNew id (inr pid) :: es ++ [CTaskDelete id; CLogClose]).

Inductive log_trace (id file dir : string) (network : bool) : option error → list cevent → Prop :=
| lt_config e : log_trace id file dir network (Some e) []
| lt_open e e' : log_trace id file dir network (Some e) [CLogOpen file (Some e')]
| lt_task r es : task_trace id network r es →
    log_trace id file dir network r (CLogOpen file None :: es ++ (if decide (r = None) then [CRemoveAll dir] else [])).

Inductive container_trace (c : ContainerdConfig) (network : bool) : option error → list cevent → Prop :=
| ct_early e : container_trace c network (Some e) []
| ct_refused e spec e' : container_trace c network (Some e) [CCreate spec (Some e')]
| ct_run spec dataStore r es :
    log_trace (cs_ID spec) (containerLogFile dataStore (cc_Namespace c) (cs_ID spec)) (containerLogDir dataStore (cc_Namespace c) (cs_ID spec)) network r es →
    container_trace c network r (CCreate spec None :: es ++ (if decide (r = None) then [CDelete (cs_ID spec)] else [])).

Inductive execute_trace (c : ContainerdConfig) (network : bool) : option error → list cevent → Prop :=
| et_pull e : execute_trace c network (Some e) []
| et_temp e e' : execute_trace c network (Some e) [CMkTemp (inl e')]
| et_dns e dir : execute_trace c network (Some e) [CMkTemp (inr dir); CRemoveAll dir]
| et_run dir r es : container_trace c network r es → execute_trace c network r (CMkTemp (inr dir) :: es ++ [CRemoveAll dir]).

(** Take the next call of the goal and what it recorded. *)
Ltac next_call :=
  lazymatch goal with
  | |- context [match ?t with pair _ _ => _ end] =>
      let r := fresh "r" in let w := fresh "w" in let E := fresh "E" in
      destruct t as [r w] eqn:E;
      first [ apply recorded_inv in E as [_ E]; cbn beta in E; rewrite ?app_nil_r in E | idtac ]
  end.
Ltac quiet := repeat (first [next_call | case_match]); intros; simplify_eq; congruence.

Implicit Types (wl : W * list cevent).

Lemma quiet_create_source s wl r wl' : create_source s wl = (r, wl') → wl'.2 = wl.2.
Proof. unfold create_source. quiet. Qed.

Lemma quiet_ensure s wl r wl' : ensureBindMountSource s wl = (r, wl') → wl'.2 = wl.2.
Proof.
  unfold ensureBindMountSource. destruct (filepath_IsAbs s); [apply quiet_create_source|]. next_call. destruct r0; [by intros [= <- <-]|].
  intros Hs%quiet_create_source. congruence.
Qed.

Lemma quiet_volumes vs wl ms wl' : parseVolumes vs wl = (ms, wl') → wl'.2 = wl.2.
Proof.
  revert wl ms. induction vs as [|v vs IH]; intros wl ms; cbn [parseVolumes]; [by intros [= <- <-]|]. destruct (parseVolume v); [|apply IH].
  destruct (ensureBindMountSource _ wl) as [r w1] eqn:E1. destruct (parseVolumes vs w1) as [ms1 w2] eqn:E2. intros [= <- <-].
  apply quiet_ensure in E1. apply IH in E2. congruence.
Qed.

Lemma quiet_host_resolv b wl r wl' : host_resolv_conf b wl = (r, wl') → wl'.2 = wl.2.
Proof. unfold host_resolv_conf. quiet. Qed.

Lemma quiet_buildResolvConf dst b wl r wl' : buildResolvConf dst b wl = (r, wl') → wl'.2 = wl.2.
Proof.
  unfold buildResolvConf. destruct (host_resolv_conf b wl) as [p w1] eqn:E1. apply quiet_host_resolv in E1.
  next_call. destruct r0 as [e|content]; [|destruct (parseResolvConf content) as [[? ?] ?]]; intros [_ E2]%recorded_inv; rewrite app_nil_r in E2; congruence.
Qed.

Lemma quiet_write p t wl r wl' : os_WriteFile p t wl = (r, wl') → wl'.2 = wl.2.
Proof. intros [_ E]%recorded_inv. by rewrite app_nil_r in E. Qed.

Lemma quiet_wrap pre x r (wl : W * list cevent) l :
  (∀ r wl', x = (r, wl') → wl'.2 = l) → wrap_err pre x = (r, wl) → wl.2 = l.
Proof. intros Hx. destruct x as [[e|] w]; simpl; intros [= <- <-]; by eapply Hx. Qed.

Lemma quiet_setHostname d n b wl r wl' : setHostname d n b wl = (r, wl') → wl'.2 = wl.2.
Proof.
  unfold setHostname. destruct b.
  - unfold setHostnameHost. destruct (os_ReadFile "/etc/hosts" wl) as [[e|content] w0] eqn:E0; apply recorded_inv in E0 as [_ E0]; rewrite app_nil_r in E0.
    all: destruct (wrap_err _ _) as [[e1|] w1] eqn:E1;
      (eapply quiet_wrap in E1; [|intros; by eapply quiet_write]); [intros [= <- <-]; congruence|];
      intros E2; (eapply quiet_wrap in E2; [|intros; by eapply quiet_write]); congruence.
  - unfold setHostnameIsolated. destruct (wrap_err _ _) as [[e1|] w1] eqn:E1;
      (eapply quiet_wrap in E1; [|intros; by eapply quiet_write]); [intros [= <- <-]; congruence|];
      intros E2; (eapply quiet_wrap in E2; [|intros; by eapply quiet_write]); congruence.
Qed.

Lemma quiet_addrHash addr wl r wl' : addrHash addr wl = (r, wl') → wl'.2 = wl.2.
Proof. unfold addrHash. quiet. Qed.

Lemma quiet_dataStoreDir root addr wl r wl' : dataStoreDir root addr wl = (r, wl') → wl'.2 = wl.2.
Proof.
  unfold dataStoreDir. next_call. destruct r0; [by intros [= <- <-]|].
  destruct (addrHash addr w) as [[e|x] w1] eqn:E1; apply quiet_addrHash in E1; [intros [= <- <-]; congruence|].
  next_call. destruct r0; intros [= <- <-]; congruence.
Qed.

Lemma quiet_writeLogConfig dir addr wl r wl' : writeLogConfig dir addr wl = (r, wl') → wl'.2 = wl.2.
Proof.
  unfold writeLogConfig. next_call. destruct r0; [by intros [= <- <-]|].
  intros E2; (eapply quiet_wrap in E2; [|intros; by eapply quiet_write]); congruence.
Qed.

Lemma quiet_retry {A} n (op : W * list cevent → res A * (W * list cevent)) errs wl r wl' :
  (∀ wl r wl', op wl = (r, wl') → wl'.2 = wl.2) → retry_Do n op errs wl = (r, wl') → wl'.2 = wl.2.
Proof.
  intros Hop. revert errs wl. induction n as [|n IH]; intros errs wl; cbn [retry_Do]; [by intros [= <- <-]|].
  destruct (op wl) as [[e|x] w1] eqn:E; apply Hop in E; [|by intros [= <- <-]]. intros Hr%IH. congruence.
Qed.

Lemma quiet_pull c a wl r wl' : pull_image c a wl = (r, wl') → wl'.2 = wl.2.
Proof.
  unfold pull_image. next_call. destruct r0; [|by intros [= <- <-]].
  intros Hr. apply quiet_retry in Hr; [congruence|]. clear. intros wl r wl'. next_call. destruct r0; intros [= <- <-]; done.
Qed.

(** ** Every execution has such a record *)

Lemma run_task_trace id wl r wl' : run_task id wl = (r, wl') → ∃ es, wl'.2 = wl.2 ++ es ∧ run_trace id r es.
Proof.
  unfold run_task. next_call. destruct r0 as [e|].
  { intros [= <- <-]. exists []. rewrite app_nil_r. by split; [|constructor]. }
  next_call. destruct r0 as [e|].
  { next_call. intros [= <- <-]. eexists. split; [|apply rt_start]. rewrite E1, E0, E. by rewrite <- (assoc_L (++)). }
  next_call. destruct r0 as [code err|k].
  - assert (wl'.2 = w1.2 → wl'.2 = wl.2 ++ [CStart id None; CEnd id (TaskExited code err)]) as Hl
      by (intros ->; rewrite E1, E0, E; by rewrite <- (assoc_L (++))).
    case_decide as Hc; intros [= <- <-]; (eexists; split; [by apply Hl|]).
    + apply rt_failed; [done|]. by destruct err.
    + assert (code = 0%Z) as -> by lia. constructor.
  - next_call. next_call. intros [= <- <-]. eexists. split; [|apply rt_ctx]. rewrite E3, E2, E1, E0, E. by rewrite <- !(assoc_L (++)).
Qed.

Lemma with_network_trace c b id pid wl r wl' :
  with_network c b id pid wl = (r, wl') → ∃ es, wl'.2 = wl.2 ++ es ∧ net_trace id (negb b && cc_CNI c) r es.
Proof.
  unfold with_network. destruct (negb b && cc_CNI c).
  - next_call. destruct (run_task id w) as [r1 w1] eqn:E1. next_call. intros [= <- <-].
    apply run_task_trace in E1 as (es & E1 & Ht). eexists. split; [|by apply nt_cni]. rewrite E0, E1, E. by rewrite <- !(assoc_L (++)).
  - intros (es & E1 & Ht)%run_task_trace. eexists. split; [done|]. by apply nt_host.
Qed.

Lemma with_task_trace c b id wl r wl' :
  with_task c b id wl = (r, wl') → ∃ es, wl'.2 = wl.2 ++ es ∧ task_trace id (negb b && cc_CNI c) r es.
Proof.
  unfold with_task. next_call. destruct r0 as [e|pid].
  - next_call. intros [= <- <-]. eexists. split; [|apply tt_none]. rewrite E0, E. by rewrite <- (assoc_L (++)).
  - destruct (with_network c b id pid w) as [r1 w1] eqn:E1. next_call. next_call. intros [= <- <-].
    apply with_network_trace in E1 as (es & E1 & Ht). eexists. split; [|by apply tt_run]. rewrite E2, E0, E1, E. by rewrite <- !(assoc_L (++)).
Qed.

Lemma with_log_trace c b df ds id h wl r wl' :
  with_log c b df ds id h wl = (r, wl') →
  ∃ es, wl'.2 = wl.2 ++ es ∧ log_trace id (containerLogFile ds (cc_Namespace c) id) (containerLogDir ds (cc_Namespace c) id) (negb b && cc_CNI c) r es.
Proof.
  unfold with_log. destruct (setHostname df h b wl) as [r1 w1] eqn:E1. apply quiet_setHostname in E1.
  destruct (writeLogConfig _ _ w1) as [[e|] w2] eqn:E2; apply quiet_writeLogConfig in E2.
  { intros [= <- <-]. exists []. rewrite app_nil_r. split; [congruence|constructor]. }
  next_call. destruct r0 as [e|].
  { intros [= <- <-]. eexists. split; [|apply lt_open]. rewrite E, E2, E1. done. }
  destruct (with_task c b id w) as [r2 w3] eqn:E3. apply with_task_trace in E3 as (es & E3 & Ht).
  assert (w3.2 = wl.2 ++ CLogOpen (containerLogFile ds (cc_Namespace c) id) None :: es) as Hl
    by (rewrite E3, E, E2, E1; by rewrite <- (assoc_L (++))).
  destruct r2 as [e|].
  - intros [= <- <-]. eexists. split; [|by apply lt_task]. rewrite decide_False by done. by rewrite app_nil_r.
  - next_call. intros [= <- <-]. eexists. split; [|by apply lt_task]. rewrite decide_True by done. rewrite E0, Hl. by rewrite <- (assoc_L (++)).
Qed.

Lemma createContainer_trace c img a b df ds wl r wl' :
  createContainer c img a b df ds wl = (r, wl') →
  (wl'.2 = wl.2 ∧ ∃ e, r = inl e) ∨ ∃ spec err, wl'.2 = wl.2 ++ [CCreate spec err] ∧
    match r with inl _ => err ≠ None | inr (id, _) => err = None ∧ id = cs_ID spec end.
Proof.
  unfold createContainer. destruct (if decide (sa_Volumes a = []) then _ else _) as [ms w1] eqn:E1.
  assert (w1.2 = wl.2) as Hw1 by (case_decide; [by simplify_eq|by eapply quiet_volumes]). clear E1.
  unfold generateID. destruct (rand_Read w1) as [[e|bs] w2] eqn:E2; apply recorded_inv in E2 as [_ E2]; rewrite app_nil_r in E2.
  { intros [= <- <-]. left. split; [congruence|eauto]. }
  destruct (container_hostname _ _ w2) as [h w3] eqn:E3.
  assert (w3.2 = w2.2) as Hw3. { unfold container_hostname in E3. revert E3. quiet. }
  next_call. destruct r0 as [e|]; intros [= <- <-]; right; eexists _, _; (split; [rewrite E, Hw3, E2, Hw1; done|]); done.
Qed.

Lemma with_container_trace c a img b df wl r wl' :
  with_container c a img b df wl = (r, wl') → ∃ es, wl'.2 = wl.2 ++ es ∧ container_trace c (negb b && cc_CNI c) r es.
Proof.
  unfold with_container. destruct (dataStoreDir _ _ wl) as [[e|ds] w1] eqn:E1; apply quiet_dataStoreDir in E1.
  { intros [= <- <-]. exists []. rewrite app_nil_r. split; [done|constructor]. }
  destruct (createContainer c img a b df ds w1) as [[e|[id h]] w2] eqn:E2; apply createContainer_trace in E2 as [[E2 (e' & He)]|(spec & err & E2 & He)]; try done.
  - intros [= <- <-]. exists []. rewrite app_nil_r. split; [congruence|constructor].
  - intros [= <- <-]. destruct err as [e'|]; [|done]. eexists. split; [|apply ct_refused]. rewrite E2, E1. done.
  - destruct He as [-> ->]. destruct (with_log c b df ds (cs_ID spec) h w2) as [r3 w3] eqn:E3. apply with_log_trace in E3 as (es & E3 & Ht).
    assert (w3.2 = wl.2 ++ CCreate spec None :: es) as Hl by (rewrite E3, E2, E1; by rewrite <- (assoc_L (++))).
    destruct r3 as [e|].
    + intros [= <- <-]. eexists. split; [|by eapply ct_run]. rewrite decide_False by done. by rewrite app_nil_r.
    + next_call. intros [= <- <-]. eexists. split; [|by eapply ct_run]. rewrite decide_True by done. rewrite E, Hl. by rewrite <- (assoc_L (++)).
Qed.

(** What the documentation of [os.MkdirTemp] promises. *)
Hypothesis MkdirTemp_named : ∀ p (w : W) d w', os_MkdirTemp p w = (inr d, w') → d ≠ "".

Lemma prepareDNSFiles_trace b wl r wl' :
  prepareDNSFiles b wl = (r, wl') →
  match r with
  | inr df => wl'.2 = wl.2 ++ [CMkTemp (inr (df_dir df))] ∧ df_dir df ≠ ""
  | inl _ => (∃ e, wl'.2 = wl.2 ++ [CMkTemp (inl e)]) ∨ ∃ d, wl'.2 = wl.2 ++ [CMkTemp (inr d); CRemoveAll d]
  end.
Proof.
  unfold prepareDNSFiles. destruct (os_MkdirTemp _ wl) as [[e|d] w1] eqn:E1; apply recorded_inv in E1 as [E0 E1].
  { intros [= <- <-]. left. eauto. }
  apply MkdirTemp_named in E0. cbn zeta. set (df := mkdnsFiles d _ _ _).
  assert (∀ pre e w2 (x : res dnsFiles), w2.2 = w1.2 → (let '(_, w) := df_cleanup df w2 in (inl (ErrWrap pre e), w)) = (x, wl') →
    (∃ e, x = inl e) ∧ wl'.2 = wl.2 ++ [CMkTemp (inr d); CRemoveAll d]) as Hfail.
  { intros pre e w2 x Hw. unfold df_cleanup. rewrite decide_False by done. next_call. intros [= <- <-]. split; [eauto|].
    rewrite E, Hw, E1. by rewrite <- (assoc_L (++)). }
  destruct (buildResolvConf _ b w1) as [[e|] w2] eqn:E2; apply quiet_buildResolvConf in E2.
  { intros Hf. apply Hfail in Hf as [[x ->] Hf]; [|done]. by right; exists d. }
  destruct (os_WriteFile (df_hosts df) "" w2) as [[e|] w3] eqn:E3; apply quiet_write in E3.
  { intros Hf. apply Hfail in Hf as [[x ->] Hf]; [|congruence]. by right; exists d. }
  destruct (os_WriteFile (df_hostname df) "" w3) as [[e|] w4] eqn:E4; apply quiet_write in E4.
  { intros Hf. apply Hfail in Hf as [[x ->] Hf]; [|congruence]. by right; exists d. }
  intros [= <- <-]. split; [|done]. by rewrite E4, E3, E2, E1.
Qed.

Lemma containerd_Execute_trace c a wl r wl' :
  containerd_Execute c a wl = (r, wl') →
  ∃ es, wl'.2 = wl.2 ++ es ∧ execute_trace c (negb (bool_decide (nsp_Network (sa_Namespaces a) = "host")) && cc_CNI c) r es.
Proof.
  unfold containerd_Execute. destruct (pull_image c a wl) as [[e|img] w1] eqn:E1; apply quiet_pull in E1.
  { intros [= <- <-]. exists []. rewrite app_nil_r. split; [done|constructor]. }
  destruct (prepareDNSFiles _ w1) as [[e|df] w2] eqn:E2; apply prepareDNSFiles_trace in E2.
  { intros [= <- <-]. destruct E2 as [[e' E2]|[d E2]]; eexists; (split; [rewrite E2, E1; done|constructor]). }
  destruct E2 as [E2 Hd]. destruct (with_container _ _ _ _ _ w2) as [r3 w3] eqn:E3. apply with_container_trace in E3 as (es & E3 & Ht).
  unfold df_cleanup. rewrite decide_False by done. next_call. intros [= <- <-]. eexists. split; [|by apply et_run].
  rewrite E, E3, E2, E1. by rewrite <- !(assoc_L (++)).
Qed.

(** ** Nothing is left but a failed container *)

Inductive resource := RDir (path : string) | RContainer (id : string) | RLog | RTask (id : string) | RNet (id : string).

Definition acquires (e : cevent) (x : resource) : bool :=
  match e, x with
  | CMkTemp (inr d), RDir d' => bool_decide (d = d')
  | CCreate s None, RContainer id => bool_decide (cs_ID s = id)
  | CLogOpen _ None, RLog => true
  | CTaskNew id (inr _), RTask id' | CSetup id, RNet id' => bool_decide (id = id')
  | _, _ => false
  end.
Definition gives_up (e : cevent) (x : resource) : bool :=
  match e, x with
  | CRemoveAll d, RDir d' => bool_decide (d = d')
  | CDelete id, RContainer id' | CTaskDelete id, RTask id' | CRemove id, RNet id' => bool_decide (id = id')
  | CLogClose, RLog => true
  | _, _ => false
  end.

(** Whether [x] is held after [es], [h] telling whether it was before. *)
Fixpoint holds (x : resource) (es : list cevent) (h : bool) : bool :=
  match es with
  | [] => h
  | e :: es => holds x es (if acquires e x then true else if gives_up e x then false else h)
  end.

Lemma holds_app x es es' h : holds x (es ++ es') h = holds x es' (holds x es h).
Proof. revert h. induction es as [|e es IH]; intros h; [done|]. apply IH. Qed.

(** What a part of the record does not give up by its end it did not acquire. *)
Definition neutral (P : resource → Prop) (es : list cevent) : Prop := ∀ x h, P x → holds x es h = true → h = true.

Lemma neutral_bracket P e f es :
  (∀ x, acquires f x = false) → (∀ x, acquires e x = true → gives_up f x = true) → neutral P es → neutral P (e :: es ++ [f]).
Proof.
  intros Hf Hef Hn x h HP. cbn [holds]. rewrite holds_app. cbn [holds]. rewrite Hf. destruct (gives_up f x) eqn:E; [done|].
  intros Hh%Hn; [|done]. destruct (acquires e x) eqn:Ea; [apply Hef in Ea; congruence|]. by destruct (gives_up e x).
Qed.

Lemma neutral_app P es es' : neutral P es → neutral P es' → neutral P (es ++ es').
Proof. intros H1 H2 x h HP. rewrite holds_app. intros Hh. eapply H1, H2; done. Qed.

Lemma neutral_silent P es : (∀ e x, e ∈ es → acquires e x = false) → neutral P es.
Proof.
  intros He x h _. revert h. induction es as [|e es IH]; intros h; [done|]. cbn [holds]. rewrite He by set_solver. intros Hh.
  apply IH in Hh; [by destruct (gives_up e x)|]. intros. apply He. set_solver.
Qed.

Lemma run_neutral P id r es : run_trace id r es → neutral P es.
Proof. destruct 1; apply neutral_silent; intros ev x He; repeat (apply elem_of_cons in He as [->|He]; [done|]); by apply not_elem_of_nil in He. Qed.

Lemma net_neutral P id b r es : net_trace id b r es → neutral P es.
Proof. inversion 1 as [? ? _ Hr|? ? _ Hr]; subst; [by eapply run_neutral|]. apply neutral_bracket; [by intros []|by intros []|by eapply run_neutral]. Qed.

Lemma task_neutral P id b r es : task_trace id b r es → neutral P es ∧ ∃ es', es = es' ++ [CLogClose].
Proof.
  destruct 1 as [e e1|pid r es0 Hn].
  - split; [|by exists [CTaskNew id (inl e1)]]. apply neutral_silent. intros e2 x He.
    repeat (apply elem_of_cons in He as [->|He]; [done|]). by apply not_elem_of_nil in He.
  - split; [|exists (CTaskNew id (inr pid) :: es0 ++ [CTaskDelete id]); cbn [app]; by rewrite <- (assoc_L (++))].
    replace (CTaskNew id (inr pid) :: es0 ++ [CTaskDelete id; CLogClose]) with ((CTaskNew id (inr pid) :: es0 ++ [CTaskDelete id]) ++ [CLogClose])
      by (cbn [app]; by rewrite <- (assoc_L (++))).
    apply neutral_app; [|by apply neutral_silent; intros ? ? ->%list_elem_of_singleton].
    apply neutral_bracket; [by intros []|by intros []|by eapply net_neutral].
Qed.

Lemma tail_neutral P (b : bool) f : (∀ x, acquires f x = false) → neutral P (if b then [f] else []).
Proof. intros Hf. apply neutral_silent. destruct b; [by intros ? ? ->%list_elem_of_singleton|by intros ? ? ?%not_elem_of_nil]. Qed.

Lemma log_neutral P id file dir b r es : log_trace id file dir b r es → neutral P es.
Proof.
  destruct 1 as [e|e e'|r es Ht]; [by intros x h|by apply neutral_silent; intros ? ? ->%list_elem_of_singleton|].
  apply task_neutral with (P := P) in Ht as [Hn (es' & ->)]. rewrite app_comm_cons. apply neutral_app; [|by destruct (decide (r = None)); apply neutral_silent; [intros ? ? ->%list_elem_of_singleton|intros ? ? ?%not_elem_of_nil]].
  intros x h HP. cbn [holds]. destruct x; try (intros Hh%Hn; done). by rewrite holds_app.
Qed.

Lemma container_held c b r es x : container_trace c b r es → holds x es false = true → r ≠ None ∧ ∃ id, x = RContainer id.
Proof.
  destruct 1 as [e|e spec e'|spec ds r es Ht]; [done|by destruct x|]. intros Hh. cbn [holds] in Hh. rewrite holds_app in Hh.
  destruct (decide (r = None)) as [->|Hr].
  - cbn [holds] in Hh. destruct (gives_up (CDelete (cs_ID spec)) x) eqn:E; [done|].
    change (acquires (CDelete (cs_ID spec)) x) with false in Hh. apply (log_neutral (λ _, True)) in Ht. apply Ht in Hh; [|done].
    destruct x; try done. simpl in Hh, E. rewrite E in Hh. done.
  - cbn [holds] in Hh. split; [done|]. apply (log_neutral (λ _, True)) in Ht. apply Ht in Hh; [|done]. destruct x; try done. eauto.
Qed.

Lemma execute_held c b r es x : execute_trace c b r es → holds x es false = true → r ≠ None ∧ ∃ id, x = RContainer id.
Proof.
  destruct 1 as [e|e e'|e dir|dir r es Ht]; [done|by destruct x| |].
  - destruct x; simpl; try done. by case_bool_decide.
  - cbn [holds]. rewrite holds_app. cbn [holds]. change (acquires (CRemoveAll dir) x) with false.
    destruct (gives_up (CRemoveAll dir) x) eqn:E; [done|]. intros Hh. eapply container_held; [done|].
    destruct x; try done. simpl in Hh, E. by rewrite E in Hh.
Qed.

(** ** Success *)

(** A task was waited for to its end, and its status was 0. *)
Definition exited_zero (es : list cevent) : Prop := ∃ id err, CEnd id (TaskExited 0 err) ∈ es.

Lemma exited_zero_app es es' : exited_zero (es ++ es') ↔ exited_zero es ∨ exited_zero es'.
Proof. unfold exited_zero. setoid_rewrite elem_of_app. naive_solver. Qed.

Lemma exited_zero_cons e es : (∀ id x, e ≠ CEnd id x) → exited_zero (e :: es) ↔ exited_zero es.
Proof. unfold exited_zero. intros He. setoid_rewrite elem_of_cons. naive_solver. Qed.

Lemma exited_zero_nil : ¬ exited_zero [].
Proof. intros (? & ? & ?%not_elem_of_nil). done. Qed.

Lemma run_exited id r es : run_trace id r es → r = None ↔ exited_zero es.
Proof.
  destruct 1 as [e|e e'|err|e code err Hc _|k].
  - split; [done|by intros ?%exited_zero_nil].
  - split; [done|]. rewrite !exited_zero_cons by done. by intros ?%exited_zero_nil.
  - split; [|done]. intros _. exists id, err. set_solver.
  - split; [done|]. rewrite exited_zero_cons by done. intros (i & e2 & He%list_elem_of_singleton). by simplify_eq.
  - split; [done|]. rewrite exited_zero_cons by done. intros (i & e2 & [He|He]%elem_of_cons); [done|]. set_solver.
Qed.

Lemma task_exited id b r es : task_trace id b r es → r = None ↔ exited_zero es.
Proof.
  destruct 1 as [e e'|pid r es Hn].
  - split; [done|]. rewrite !exited_zero_cons by done. by intros ?%exited_zero_nil.
  - rewrite exited_zero_cons, exited_zero_app by done. rewrite !exited_zero_cons by done.
    assert (r = None ↔ exited_zero es) as <-; [|pose proof exited_zero_nil; tauto].
    destruct Hn as [r es _ Hr|r es _ Hr]; [by eapply run_exited|]. rewrite exited_zero_cons, exited_zero_app, exited_zero_cons by done.
    rewrite (run_exited id r es) by done. pose proof exited_zero_nil. tauto.
Qed.

Lemma tail_not_exited `{Decision P} f : (∀ id x, f ≠ CEnd id x) → ¬ exited_zero (if decide P then [f] else []).
Proof. intros Hf. destruct (decide P); [rewrite exited_zero_cons by done|]; apply exited_zero_nil. Qed.

Lemma execute_exited c b r es : execute_trace c b r es → r = None ↔ exited_zero es.
Proof.
  destruct 1 as [e|e e'|e dir|dir r es Ht].
  1-3: split; [done|]; rewrite ?exited_zero_cons by done; by intros ?%exited_zero_nil.
  rewrite exited_zero_cons, exited_zero_app, exited_zero_cons by done.
  assert (r = None ↔ exited_zero es) as <-; [|pose proof exited_zero_nil; tauto].
  destruct Ht as [e|e spec e'|spec ds r es Ht].
  1-2: split; [done|]; rewrite ?exited_zero_cons by done; by intros ?%exited_zero_nil.
  rewrite exited_zero_cons, exited_zero_app by done.
  pose proof (tail_not_exited (P := r = None) (CDelete (cs_ID spec)) ltac:(done)) as Hn1.
  assert (r = None ↔ exited_zero es) as <-; [|tauto].
  destruct Ht as [e|e e'|r es Ht].
  1-2: split; [done|]; rewrite ?exited_zero_cons by done; by intros ?%exited_zero_nil.
  rewrite exited_zero_cons, exited_zero_app by done. assert (r = None ↔ exited_zero es) as Hr by (by eapply task_exited).
  pose proof (tail_not_exited (P := r = None) (CRemoveAll (containerLogDir ds (cc_Namespace c) (cs_ID spec))) ltac:(done)) as Hn2.
  tauto.
Qed.

(** C11: An execution succeeds exactly when the task of the action was waited for and
    ended with status 0. Whatever fails on the way, the DNS files, the task, its
    network and its log file are given up again; after a success the container
    is too, and only after a failure it is kept. *)
Theorem containerd_lifecycle c a w l r w' l' :
  containerd_Execute c a (w, l) = (r, (w', l')) →
  ∃ es, l' = l ++ es ∧ (r = None ↔ exited_zero es) ∧
    ∀ x, holds x es false = true → r ≠ None ∧ ∃ id, x = RContainer id.
Proof.
  intros (es & El & Ht)%containerd_Execute_trace. exists es. simpl in El. split; [done|]. split; [by eapply execute_exited|].
  intros x Hx. by eapply execute_held.
Qed.

(** The ends of tasks in a record. *)
Definition ends (es : list cevent) : list TaskEnd := omap (λ e, match e with CEnd _ x => Some x | _ => None end) es.

Lemma ends_app es es' : ends (es ++ es') = ends es ++ ends es'.
Proof. apply omap_app. Qed.

Lemma execute_ends c b r es :
  execute_trace c b r es → (ends es = [] ∧ r ≠ None) ∨ ∃ id run, run_trace id r run ∧ ends es = ends run.
Proof.
  destruct 1 as [e|e e'|e dir|dir r es Ht]; [by left..|].
  destruct Ht as [e|e spec e'|spec ds r es Ht]; [by left..|].
  destruct Ht as [e|e e'|r es Ht]; [by left..|].
  destruct Ht as [e e'|pid r es Ht]; [by left|]. right.
  assert (∃ run, run_trace (cs_ID spec) r run ∧ ends es = ends run) as (run & Hr & E).
  { destruct Ht as [r es _ Hr|r es _ Hr]; [by exists es|]. exists es. split; [done|]. change (ends (CSetup (cs_ID spec) :: es ++ [CRemove (cs_ID spec)])) with (ends (es ++ [CRemove (cs_ID spec)])).
    rewrite ends_app. cbn. by rewrite app_nil_r. }
  exists (cs_ID spec), run. split; [done|]. rewrite <- E.
  assert (∀ f, ends [f] = [] → ends (if decide (r = None) then [f] else []) = []) as Hif by (intros f ?; by destruct (decide (r = None))).
  assert (∀ e es, (∀ i x, e ≠ CEnd i x) → ends (e :: es) = ends es) as Hcons by (intros e es' He; destruct e; try done; by destruct (He id e)).
  repeat first [rewrite Hcons by done | rewrite ends_app | rewrite Hif by done]. by rewrite ?app_nil_r.
Qed.

(** What the agent makes of the result: a success exactly when the task ended with
    status 0, a timeout when the deadline of the action ended the wait, and a
    failure when the task ended with another status. *)
Theorem containerd_outcome c a w l r w' l' :
  containerd_Execute c a (w, l) = (r, (w', l')) →
  ∃ es, l' = l ++ es ∧ (outcome r = StateSuccess ↔ ∃ err, TaskExited 0 err ∈ ends es) ∧
    (TaskCtxDone DeadlineExceeded ∈ ends es → outcome r = StateTimeout) ∧
    (∀ code, TaskExited code None ∈ ends es → code ≠ 0%Z → outcome r = StateFailure).
Proof.
  intros (es & El & Ht)%containerd_Execute_trace. exists es. simpl in El. split; [done|].
  assert (∀ r, outcome r = StateSuccess ↔ r = None) as Ho by (intros [e|]; simpl; [case_match; split; done|done]). rewrite Ho.
  apply execute_ends in Ht as [[-> Hr]|(id & run & Hr & ->)].
  { split_and!; [split; [done|]; by intros (? & ?%not_elem_of_nil)|by intros ?%not_elem_of_nil|by intros ? ?%not_elem_of_nil]. }
  destruct Hr as [e|e e'|err|e code err Hc He|k]; cbn [ends omap list_omap].
  1,2: split_and!; [split; [done|]; by intros (? & ?%not_elem_of_nil)|by intros ?%not_elem_of_nil|by intros ? ?%not_elem_of_nil].
  - split_and!; [split; [|done]; intros _; exists err; by left|by intros ?%list_elem_of_singleton|by intros ? [= -> ->]%list_elem_of_singleton].
  - split_and!; [split; [done|]; intros (? & [= <- _]%list_elem_of_singleton); done|by intros ?%list_elem_of_singleton|].
    intros code' [= -> <-]%list_elem_of_singleton _. simpl. by rewrite He.
  - split_and!; [split; [done|]; by intros (? & ?%list_elem_of_singleton)|by intros [= <-]%list_elem_of_singleton|by intros ? ?%list_elem_of_singleton].
Qed.
End Recorded.
