(* ===== verification/DockerRt.v ===== *)
(** * The Docker runtime of the agent

    tink/agent/internal/runtime/docker/{docker,registry}.go: an action is a
    container of the Docker engine. The engine, the parser of image references
    and the Unicode normal form are the class [DockerClient]. *)
From S2P Require Import Prelude GoStrings Base64 Attributes ServerNames Server Agent Containerd.

Record AuthConfig := mkAuthConfig { ac_Username : string; ac_Password : string; ac_ServerAddress : string }.

(** The parts of the container and its host configuration that are set. *)
Record ContainerCreate := mkContainerCreate {
  cr_Name : string;
  cr_Image : string;
  cr_Env : list string;
  cr_Entrypoint : list string;
  cr_Cmd : list string;
  cr_Binds : list string;
  cr_Privileged : bool;
  cr_PidMode : string;
  cr_NetworkMode : string;
}.

(** The end of the wait: a status, an error of the wait, or the context is done. *)
Inductive DockerEnd := DExited (code : Z) | DWaitError (err : error) | DCtxDone (k : ctxErr).

Class DockerClient (W : Type) := {
  ref_Domain : string → option string;
  norm_NFC : string → string;
  auth_Marshal : AuthConfig → res string;
  dk_ImagePull : string → option string → W → option error * W;
  dk_CopyPull : W → option error * W;
  dk_ClosePull : W → unit * W;
  dk_ImageInspect : string → W → option error * W;
  dk_Create : ContainerCreate → W → res string * W;
  dk_Wait : string → W → unit * W;
  dk_Start : string → W → option error * W;
  dk_Attach : string → W → option error * W;
  dk_AttachClose : string → W → unit * W;
  dk_Select : string → W → DockerEnd * W;
  dk_Stop : string → W → option error * W;
  dk_Remove : string → W → option error * W;
}.

(** [base64.URLEncoding]. *)
Definition url_letter (c : ascii) : ascii := if decide (c = "+"%char) then "-"%char else if decide (c = "/"%char) then "_"%char else c.
Definition URLEncoding_EncodeToString (s : string) : string := of_bytes (url_letter <$> encode64 (bytes_of s)).

Section Docker.
Context {W : Type} `{DockerClient W}.
Implicit Types (a : spec_Action) (w : W).

Definition useAuth (imageRef registryHost : string) : bool :=
  if decide (registryHost = "") then false
  else
    match ref_Domain imageRef with
    | None => false
    | Some imageHost => bool_decide (norm_NFC imageHost = norm_NFC registryHost)
    end.

(** The credentials that go with a pull. *)
Definition pull_auth (RegistryAuth : option AuthConfig) (image : string) : res (option string) :=
  match RegistryAuth with
  | Some auth =>
      if useAuth image (ac_ServerAddress auth) then
        match auth_Marshal auth with
        | inl err => inl (ErrWrap "unable to encode auth config: " err)
        | inr encodedJSON => inr (Some (URLEncoding_EncodeToString encodedJSON))
        end
      else inr None
  | None => inr None
  end.

Definition docker_pullImage (RegistryAuth : option AuthConfig) (image : string) w : res unit * W :=
  match pull_auth RegistryAuth image with
  | inl err => (inl err, w)
  | inr auth =>
      match dk_ImagePull image auth w with
      | (Some err, w) =>
          match dk_ImageInspect image w with
          | (None, w) => (inr tt, w)
          | (Some _, w) => (inl (ErrWrap "docker: " err), w)
          end
      | (None, w) =>
          let '(err, w) := dk_CopyPull w in
          let '(_, w) := dk_ClosePull w in
          (match err with Some err => inl (ErrWrap "docker: " err) | None => inr tt end, w)
      end
  end.

Definition docker_container a : ContainerCreate := {|
  cr_Name := ParseName (sa_ID a) (sa_Name a);
  cr_Image := sa_Image a;
  cr_Env := ParseEnv (sa_Env a);
  cr_Entrypoint := if decide (sa_Cmd a ≠ "") then [sa_Cmd a] else [];
  cr_Cmd := sa_Args a;
  cr_Binds := sa_Volumes a;
  cr_Privileged := true;
  cr_PidMode := nsp_PID (sa_Namespaces a);
  cr_NetworkMode := nsp_Network (sa_Namespaces a);
|}.

Definition docker_select (id : string) w : option error * W :=
  match dk_Select id w with
  | (DExited code, w) =>
      (if decide (code = 0)%Z then None else Some (ErrNew "got non 0 exit status, see the logs for more information"), w)
  | (DWaitError err, w) => (Some (ErrWrap "error while waiting for container: " err), w)
  | (DCtxDone k, w) => let '(_, w) := dk_Stop id w in (Some (ErrWrap "context error: " (ErrCtx k)), w)
  end.

Definition docker_run (id : string) w : option error * W :=
  let '(_, w) := dk_Wait id w in
  match dk_Start id w with
  | (Some err, w) => (Some (ErrWrap "error starting container: " err), w)
  | (None, w) =>
      match dk_Attach id w with
      | (Some err, w) => (Some (ErrWrap "error attaching to container: " err), w)
      | (None, w) =>
          let '(r, w) := docker_select id w in
          let '(_, w) := dk_AttachClose id w in
          (r, w)
      end
  end.

Definition docker_Execute (RegistryAuth : option AuthConfig) a w : option error * W :=
  match retry_Do 5 (docker_pullImage RegistryAuth (sa_Image a)) [] w with
  | (inl err, w) => (Some err, w)
  | (inr _, w) =>
      match dk_Create (docker_container a) w with
      | (inl err, w) => (Some (ErrWrap "error creating container: " err), w)
      | (inr id, w) =>
          let '(r, w) := docker_run id w in
          let '(_, w) := dk_Remove id w in
          (r, w)
      end
  end.
End Docker.

(** ** What an execution does *)

Inductive devent :=
| DPull (image : string) (auth : option string)
| DCreate (c : ContainerCreate) (r : res string)
| DStart (id : string) (err : option error)
| DEnd (id : string) (e : DockerEnd)
| DStop (id : string)
| DRemove (id : string).

Section Recorded.
Context {W : Type} (DK : DockerClient W).
Local Abbreviation silent f := (recorded (λ _, []) f).

Definition recorded_docker : DockerClient (W * list devent) := {|
  ref_Domain := ref_Domain;
  norm_NFC := norm_NFC;
  auth_Marshal := auth_Marshal;
  dk_ImagePull i au := recorded (λ _, [DPull i au]) (dk_ImagePull i au);
  dk_CopyPull := silent dk_CopyPull;
  dk_ClosePull := silent dk_ClosePull;
  dk_ImageInspect i := silent (dk_ImageInspect i);
  dk_Create c := recorded (λ r, [DCreate c r]) (dk_Create c);
  dk_Wait id := silent (dk_Wait id);
  dk_Start id := recorded (λ r, [DStart id r]) (dk_Start id);
  dk_Attach id := silent (dk_Attach id);
  dk_AttachClose id := silent (dk_AttachClose id);
  dk_Select id := recorded (λ e, [DEnd id e]) (dk_Select id);
  dk_Stop id := recorded (λ _, [DStop id]) (dk_Stop id);
  dk_Remove id := recorded (λ _, [DRemove id]) (dk_Remove id);
|}.
Existing Instance recorded_docker.
Implicit Types (wl : W * list devent).

Lemma pullImage_log auth image wl r wl' :
  docker_pullImage auth image wl = (r, wl') →
  ∃ es, wl'.2 = wl.2 ++ es ∧ Forall (λ e, ∃ x, e = DPull image x ∧ pull_auth (W := W) auth image = inr x) es ∧ length es ≤ 1.
Proof.
  unfold docker_pullImage. change (@pull_auth _ recorded_docker auth image) with (@pull_auth _ DK auth image).
  destruct (pull_auth auth image) as [e|x] eqn:Ea.
  { intros [= <- <-]. exists []. rewrite app_nil_r. split_and!; [done|done|simpl; lia]. }
  assert (Forall (λ e, ∃ x', e = DPull image x' ∧ inr x = inr (A := error) x') [DPull image x]) as HF by (constructor; [eauto|done]).
  destruct (dk_ImagePull image x wl) as [[e|] w1] eqn:E1; apply recorded_inv in E1 as [_ E1].
  - destruct (dk_ImageInspect image w1) as [[e'|] w2] eqn:E2; apply recorded_inv in E2 as [_ E2]; rewrite app_nil_r in E2;
      intros [= <- <-]; exists [DPull image x]; (split_and!; [congruence|done|simpl; lia]).
  - destruct (dk_CopyPull w1) as [err w2] eqn:E2; apply recorded_inv in E2 as [_ E2]; rewrite app_nil_r in E2.
    destruct (dk_ClosePull w2) as [u w3] eqn:E3; apply recorded_inv in E3 as [_ E3]; rewrite app_nil_r in E3.
    intros [= <- <-]; exists [DPull image x]; (split_and!; [congruence|done|simpl; lia]).
Qed.

Lemma retry_log n auth image errs wl r wl' :
  retry_Do n (docker_pullImage auth image) errs wl = (r, wl') →
  ∃ es, wl'.2 = wl.2 ++ es ∧ Forall (λ e, ∃ x, e = DPull image x ∧ pull_auth (W := W) auth image = inr x) es ∧ length es ≤ n.
Proof.
  revert errs wl. induction n as [|n IH]; intros errs wl; cbn [retry_Do].
  { intros [= <- <-]. exists []. rewrite app_nil_r. split_and!; [done|done|simpl; lia]. }
  destruct (docker_pullImage auth image wl) as [[e|x] w1] eqn:E; apply pullImage_log in E as (es1 & E & HF & Hl).
  - intros (es2 & E2 & HF2 & Hl2)%IH. exists (es1 ++ es2). rewrite E2, E, <- (assoc_L (++)). split_and!; [done|by apply Forall_app|rewrite length_app; lia].
  - intros [= <- <-]. exists es1. split_and!; [done|done|lia].
Qed.

(** The record of a container from its start to its end. *)
Definition docker_run_trace (id : string) (r : option error) (es : list devent) : Prop :=
  (∃ e err, es = [DStart id err] ∧ r = Some e) ∨
  (∃ e, es = [DStart id None; DEnd id e] ∧ match e with DExited c => r = None ↔ c = 0%Z | DWaitError _ => r ≠ None | DCtxDone _ => False end) ∨
  (∃ k, es = [DStart id None; DEnd id (DCtxDone k); DStop id] ∧ r = Some (ErrWrap "context error: " (ErrCtx k))).

Lemma docker_run_log id wl r wl' : docker_run id wl = (r, wl') → ∃ es, wl'.2 = wl.2 ++ es ∧ docker_run_trace id r es.
Proof.
  unfold docker_run. destruct (dk_Wait id wl) as [u w1] eqn:E1; apply recorded_inv in E1 as [_ E1]; rewrite app_nil_r in E1.
  destruct (dk_Start id w1) as [[e|] w2] eqn:E2; apply recorded_inv in E2 as [_ E2].
  { intros [= <- <-]. eexists. split; [rewrite E2, E1; done|]. left. eauto. }
  destruct (dk_Attach id w2) as [[e|] w3] eqn:E3; apply recorded_inv in E3 as [_ E3]; rewrite app_nil_r in E3.
  { intros [= <- <-]. eexists. split; [rewrite E3, E2, E1; done|]. left. eauto. }
  destruct (docker_select id w3) as [r4 w4] eqn:E4. destruct (dk_AttachClose id w4) as [u5 w5] eqn:E5; apply recorded_inv in E5 as [_ E5]; rewrite app_nil_r in E5.
  intros [= <- <-]. unfold docker_select in E4. destruct (dk_Select id w3) as [[code|err|k] w6] eqn:E6; apply recorded_inv in E6 as [_ E6].
  - injection E4 as <- <-. eexists. split; [rewrite E5, E6, E3, E2, E1, <- (assoc_L (++)); done|]. right; left. eexists. split; [done|]. by case_decide.
  - injection E4 as <- <-. eexists. split; [rewrite E5, E6, E3, E2, E1, <- (assoc_L (++)); done|]. right; left. eexists. split; [done|]. done.
  - destruct (dk_Stop id w6) as [r7 w7] eqn:E7; apply recorded_inv in E7 as [_ E7]. injection E4 as <- <-.
    eexists. split; [rewrite E5, E7, E6, E3, E2, E1, <- !(assoc_L (++)); done|]. right; right. eauto.
Qed.

(** C14: An execution pulls at most five times, with credentials only when the host of
    the image is the registry they are for; it creates at most one container,
    the one of the action, which it removes last whatever happened; it succeeds
    exactly when that container ended with status 0. *)
Theorem docker_lifecycle auth a w l r w' l' :
  docker_Execute auth a (w, l) = (r, (w', l')) →
  ∃ pulls es, l' = l ++ pulls ++ es ∧ length pulls ≤ 5 ∧
    Forall (λ e, ∃ x, e = DPull (sa_Image a) x ∧
      (x ≠ None → ∃ au host, auth = Some au ∧ ref_Domain (sa_Image a) = Some host ∧ norm_NFC host = norm_NFC (ac_ServerAddress au))) pulls ∧
    ((r ≠ None ∧ (es = [] ∨ ∃ e, es = [DCreate (docker_container a) (inl e)])) ∨
     ∃ id run, es = DCreate (docker_container a) (inr id) :: run ++ [DRemove id] ∧ docker_run_trace id r run ∧
       (r = None ↔ DEnd id (DExited 0) ∈ run)).
Proof.
  assert (∀ es, Forall (λ e, ∃ x, e = DPull (sa_Image a) x ∧ pull_auth (W := W) auth (sa_Image a) = inr x) es →
    Forall (λ e, ∃ x, e = DPull (sa_Image a) x ∧
      (x ≠ None → ∃ au host, auth = Some au ∧ ref_Domain (sa_Image a) = Some host ∧ norm_NFC host = norm_NFC (ac_ServerAddress au))) es) as Hauth.
  { intros es HF. eapply Forall_impl; [exact HF|]. intros e (x & -> & Hx). exists x. split; [done|]. intros Hne. unfold pull_auth in Hx.
    destruct auth as [au|]; [|by simplify_eq]. destruct (useAuth _ _) eqn:Eu; [|by simplify_eq]. unfold useAuth in Eu. case_decide; [done|].
    destruct (ref_Domain (sa_Image a)) as [host|] eqn:Ed; [|done]. apply bool_decide_eq_true_1 in Eu. eauto. }
  unfold docker_Execute. destruct (retry_Do 5 _ [] (w, l)) as [[e|u] w1] eqn:E1; apply retry_log in E1 as (pulls & E1 & HF & Hl); simpl in E1.
  { intros [= <- ->]. exists pulls, []. simpl in E1. rewrite app_nil_r. split_and!; [done|done|by apply Hauth|]. left. auto. }
  destruct (dk_Create (docker_container a) w1) as [[e|id] w2] eqn:E2; apply recorded_inv in E2 as [_ E2].
  { intros [= <- ->]. simpl in E2. exists pulls, [DCreate (docker_container a) (inl e)]. rewrite E2, E1, <- (assoc_L (++)). split_and!; [done|done|by apply Hauth|]. left. eauto. }
  destruct (docker_run id w2) as [r3 w3] eqn:E3. apply docker_run_log in E3 as (run & E3 & Ht).
  destruct (dk_Remove id w3) as [r4 w4] eqn:E4; apply recorded_inv in E4 as [_ E4]. intros [= <- ->]. simpl in E4.
  exists pulls, (DCreate (docker_container a) (inr id) :: run ++ [DRemove id]). split_and!; [|done|by apply Hauth|].
  { rewrite E4, E3, E2, E1. by rewrite <- !(assoc_L (++)). }
  right. exists id, run. split_and!; [done|done|].
  destruct Ht as [(e & err & -> & ->)|[(e & -> & He)|(k & -> & ->)]].
  - split; [done|]. intros Hin%list_elem_of_singleton. done.
  - split.
    + intros ->. destruct e as [code| |]; [|done|done]. destruct He as [He _]. rewrite He by done. set_solver.
    + intros Hin. apply elem_of_cons in Hin as [?|Hin%list_elem_of_singleton]; [done|]. injection Hin as <-. by apply He.
  - split; [done|]. intros Hin. apply elem_of_cons in Hin as [?|Hin]; [done|]. apply elem_of_cons in Hin as [?|Hin%list_elem_of_singleton]; done.
Qed.
End Recorded.
