(* ===== verification/KubeRt.v ===== *)
(** * The Kubernetes runtime of the agent

    tink/agent/internal/runtime/kubernetes/kubernetes.go: an action is a Job of
    the cluster. The API server is the class [KubeJobs]; a watch is the events
    it delivers. *)
From S2P Require Import Prelude GoStrings Attributes ServerNames Server Agent.

Definition actionIDLabel : string := "tinkerbell.org/action-id".
Definition actionContainerName : string := "action".

(** ** Objects *)

Record EnvVar := mkEnvVar { ev_Name : string; ev_Value : string }.

Record JobContainer := mkJobContainer {
  jc_Name : string; jc_Image : string; jc_Command : list string; jc_Args : list string; jc_Env : list EnvVar }.

Record KJob := mkKJob {
  kj_Name : string;
  kj_Namespace : string;
  kj_Labels : gmap string string;
  kj_BackoffLimit : Z;
  kj_ActiveDeadlineSeconds : option Z;
  kj_PodLabels : gmap string string;
  kj_RestartPolicy : string;
  kj_Containers : list JobContainer;
  kj_ServiceAccountName : string;
  kj_Automount : bool;
}.

Record Terminated := mkTerminated { tm_ExitCode : Z; tm_Reason : string }.
Record ContainerStatus := mkContainerStatus { cst_Name : string; cst_Terminated : option Terminated }.
Record Pod := mkPod { pod_Name : string; pod_Phase : string; pod_Statuses : list ContainerStatus }.

(** An event of a watch: the channel is closed, an error, an object that is not a
    pod, a pod; or the context is done first. *)
Inductive WatchEvent := WClosed | WError | WOther | WPod (p : Pod) | WCtxDone (k : ctxErr).

Class KubeJobs (W : Type) := {
  j_Create : KJob → W → res KJob * W;
  j_Get : string → W → res KJob * W;
  j_Delete : string → W → option error * W;
  (** between two polls: whether the context of the cleanup is done *)
  j_Tick : W → bool * W;
  p_List : string → W → res (list Pod * string) * W;
  p_Watch : string → string → W → option error * W;
  p_Next : W → WatchEvent * W;
  p_Stop : W → unit * W;
  (** the pause before the next list: whether the context is done *)
  p_Backoff : W → option ctxErr * W;
  p_Logs : string → W → unit * W;
}.

(** ** Names *)

Definition job_char (c : ascii) : ascii := if is_digit c || is_lower c || is_hyphen c then c else "-"%char.
Definition trim_hyphens (l : list ascii) : list ascii := trim_list is_hyphen l.
Definition maxLen : nat := 63.

Definition jobName_of (actionID name : string) : string :=
  let base := trim_hyphens (job_char <$> bytes_of (ToLower ("tinkerbell-" +:+ name +:+ "-" +:+ actionID))) in
  let base := if decide (maxLen < length base) then trim_hyphens (take maxLen base) else base in
  if decide (base = []) then "tinkerbell-action" else of_bytes base.

(** ** The Job of an action *)

Definition convEnv (envs : list Env) : list EnvVar := (λ e, mkEnvVar (env_Key e) (env_Value e)) <$> envs.

Definition activeDeadlineSeconds (a : spec_Action) : option Z :=
  if decide (sa_TimeoutSeconds a ≤ 0)%Z then None else Some (sa_TimeoutSeconds a).

Record KubeConfig := mkKubeConfig { kc_Namespace : string; kc_ServiceAccountName : string }.

Definition jobFor (c : KubeConfig) (a : spec_Action) : res KJob :=
  if decide (nsp_PID (sa_Namespaces a) ≠ "" ∨ nsp_Network (sa_Namespaces a) ≠ "") then
    inl (ErrNew "kubernetes runtime: host PID/network namespaces are not supported")
  else if decide (sa_Volumes a ≠ []) then inl (ErrNew "kubernetes runtime: volumes are not supported")
  else
    inr {|
      kj_Name := jobName_of (sa_ID a) (sa_Name a);
      kj_Namespace := kc_Namespace c;
      kj_Labels := {[ actionIDLabel := sa_ID a ]};
      kj_BackoffLimit := 0;
      kj_ActiveDeadlineSeconds := activeDeadlineSeconds a;
      kj_PodLabels := {[ actionIDLabel := sa_ID a ]};
      kj_RestartPolicy := "Never";
      kj_Containers := [mkJobContainer actionContainerName (sa_Image a) (if decide (sa_Cmd a ≠ "") then [sa_Cmd a] else []) (sa_Args a) (convEnv (sa_Env a))];
      kj_ServiceAccountName := kc_ServiceAccountName c;
      kj_Automount := false;
    |}.

(** ** The end of a pod *)

(** The state of the action's own container: the first status with its name. *)
Definition actionContainerStatus (pod : Pod) : option Terminated :=
  match list_find (λ cs, cst_Name cs = actionContainerName) (pod_Statuses pod) with
  | Some (_, cs) => cst_Terminated cs
  | None => None
  end.

Definition podTerminated (pod : Pod) : bool :=
  bool_decide (pod_Phase pod = "Failed" ∨ pod_Phase pod = "Succeeded") || bool_decide (is_Some (actionContainerStatus pod)).

Definition exitError (pod : Pod) : option error :=
  match actionContainerStatus pod with
  | Some t =>
      if decide (tm_ExitCode t = 0)%Z then None
      else Some (ErrNew ("kubernetes: container exited " +:+ Itoa (tm_ExitCode t) +:+ ": " +:+ tm_Reason t))
  | None => Some (ErrNew ("kubernetes: pod " +:+ pod_Name pod +:+ " ended in phase " +:+ pod_Phase pod +:+ " with no terminated container status"))
  end.

Section Kube.
Context {W : Type} `{KubeJobs W}.
Implicit Types (w : W).

(** The loop over the events of a watch, at most [fuel] of them; [None] when all
    were used. [Some None] is a watch that closed. *)
Fixpoint watch_loop (fuel : nat) w : option (res (option Pod)) * W :=
  match fuel with
  | 0 => (None, w)
  | S fuel =>
      match p_Next w with
      | (WCtxDone k, w) => (Some (inl (ErrCtx k)), w)
      | (WClosed, w) | (WError, w) => (Some (inr None), w)
      | (WOther, w) => watch_loop fuel w
      | (WPod pod, w) => if podTerminated pod then (Some (inr (Some pod)), w) else watch_loop fuel w
      end
  end.

Definition watchForTerminatedPod (fuel : nat) (selector resourceVersion : string) w : option (res (option Pod)) * W :=
  match p_Watch selector resourceVersion w with
  | (Some err, w) => (Some (inl (ErrWrap "kubernetes: watching pods: " err)), w)
  | (None, w) =>
      let '(r, w) := watch_loop fuel w in
      let '(_, w) := p_Stop w in
      (r, w)
  end.

(** [waitForPod]: [n] lists, each followed by a watch of at most [m] events. *)
Fixpoint wait_loop (n m : nat) (selector : string) w : option (res Pod) * W :=
  match n with
  | 0 => (None, w)
  | S n =>
      match p_List selector w with
      | (inl err, w) => (Some (inl (ErrWrap "kubernetes: listing pods: " err)), w)
      | (inr (items, rv), w) =>
          match list_find (λ p, podTerminated p = true) items with
          | Some (_, pod) => (Some (inr pod), w)
          | None =>
              match watchForTerminatedPod m selector rv w with
              | (None, w) => (None, w)
              | (Some (inl err), w) => (Some (inl err), w)
              | (Some (inr (Some pod)), w) => (Some (inr pod), w)
              | (Some (inr None), w) =>
                  match p_Backoff w with
                  | (Some k, w) => (Some (inl (ErrCtx k)), w)
                  | (None, w) => wait_loop n m selector w
                  end
              end
          end
      end
  end.

Definition waitForPod (n m : nat) (actionID : string) w : option (res Pod) * W :=
  wait_loop n m (actionIDLabel +:+ "=" +:+ actionID) w.

Definition adoptExistingJob (name actionID : string) (createErr : error) w : res KJob * W :=
  match j_Get name w with
  | (inl _, w) => (inl createErr, w)
  | (inr existing, w) =>
      if decide (default "" (kj_Labels existing !! actionIDLabel) ≠ actionID) then (inl createErr, w) else (inr existing, w)
  end.

(** The polls of [deleteJob]: every half second for half a minute, the first one
    at once. *)
Definition polls : nat := 61.
Fixpoint poll_gone (fuel : nat) (name : string) w : unit * W :=
  match fuel with
  | 0 => (tt, w)
  | S fuel =>
      match j_Get name w with
      | (inl _, w) => (tt, w)
      | (inr _, w) =>
          let '(done, w) := j_Tick w in
          if (done : bool) then (tt, w) else poll_gone fuel name w
      end
  end.

Definition deleteJob (name : string) w : unit * W :=
  match j_Delete name w with
  | (Some err, w) => if IsNotFound err then poll_gone polls name w else (tt, w)
  | (None, w) => poll_gone polls name w
  end.

(** [Execute], [None] when the pod has not ended within [n] lists and [m] events of each watch. *)
Definition kube_Execute (n m : nat) (c : KubeConfig) (a : spec_Action) w : option (option error) * W :=
  match jobFor c a with
  | inl err => (Some (Some err), w)
  | inr job =>
      let '(created, w) :=
        match j_Create job w with
        | (inl err, w) => if IsAlreadyExists err then adoptExistingJob (kj_Name job) (sa_ID a) err w else (inl err, w)
        | r => r
        end in
      match created with
      | inl err => (Some (Some (ErrWrap "kubernetes: creating job: " err)), w)
      | inr created =>
          match waitForPod n m (sa_ID a) w with
          | (None, w) => (None, w)
          | (Some (inl err), w) => let '(_, w) := deleteJob (kj_Name created) w in (Some (Some err), w)
          | (Some (inr pod), w) =>
              let '(_, w) := p_Logs (pod_Name pod) w in
              let '(_, w) := deleteJob (kj_Name created) w in
              (Some (exitError pod), w)
          end
      end
  end.
End Kube.

(** ** Names are valid, and may collide *)

Definition name_char (c : ascii) : bool := is_digit c || is_lower c || is_hyphen c.

Lemma trim_hyphens_Forall (P : ascii → Prop) l : Forall P l → Forall P (trim_hyphens l).
Proof.
  intros HF. unfold trim_hyphens, trim_list. apply Forall_reverse.
  destruct (drop_while_suffix is_hyphen (reverse (drop_while is_hyphen l))) as (k & E & _).
  destruct (drop_while_suffix is_hyphen l) as (k' & E' & _). rewrite E' in HF. apply Forall_app in HF as [_ HF].
  apply Forall_reverse in HF. rewrite E in HF. by apply Forall_app in HF as [_ HF].
Qed.

Lemma trim_hyphens_length l : length (trim_hyphens l) ≤ length l.
Proof.
  unfold trim_hyphens, trim_list. rewrite length_reverse.
  destruct (drop_while_suffix is_hyphen (reverse (drop_while is_hyphen l))) as (k & E & _). apply (f_equal length) in E.
  destruct (drop_while_suffix is_hyphen l) as (k' & E' & _). apply (f_equal length) in E'. rewrite !length_app, ?length_reverse in *. lia.
Qed.

Lemma job_char_valid c : name_char (job_char c) = true.
Proof. unfold job_char, name_char. by destruct (is_digit c || is_lower c || is_hyphen c) eqn:E. Qed.

(** A Job name is a DNS label: of 1 to 63 letters, digits and hyphens, with no
    hyphen at its ends. *)
Theorem jobName_valid actionID name :
  let l := bytes_of (jobName_of actionID name) in
  l ≠ [] ∧ length l ≤ 63 ∧ Forall (λ c, name_char c = true) l ∧
  (∀ c, head l = Some c → is_hyphen c = false) ∧ (∀ c, last l = Some c → is_hyphen c = false).
Proof.
  unfold jobName_of. set (base := trim_hyphens (job_char <$> _)).
  assert (Forall (λ c, name_char c = true) base) as HF
    by (apply trim_hyphens_Forall, Forall_fmap, Forall_true; intros; apply job_char_valid).
  set (cut := if decide _ then _ else base).
  assert (Forall (λ c, name_char c = true) cut ∧ length cut ≤ 63 ∧ ∃ l, cut = trim_hyphens l) as (HF' & Hl & l & El).
  { unfold cut. case_decide as Hd.
    - split_and!; [by apply trim_hyphens_Forall, Forall_take|pose proof (trim_hyphens_length (take maxLen base)) as Ht;
        rewrite length_take in Ht; unfold maxLen in *; lia|eauto].
    - split_and!; [done|unfold maxLen in *; lia|unfold base; eauto]. }
  cbn zeta. case_decide as Hc.
  { split_and!; [by_decide|by_decide|by_decide|by intros ? [= <-]|by intros ? [= <-]]. } rewrite bytes_of_of_bytes. split_and!; [done|done|done|..]; rewrite El.
  - apply (trim_list_ends is_hyphen l).
  - apply (trim_list_ends is_hyphen l).
Qed.

Lemma lower_bytes s : bytes_of (ToLower s) = lower_char <$> bytes_of s.
Proof. unfold ToLower. by rewrite bytes_of_of_bytes. Qed.

Lemma drop_while_app p (l k : list ascii) : (∀ x, head k = Some x → p x = false) → drop_while p (l ++ k) = drop_while p l ++ k.
Proof. intros Hk. induction l as [|x l IH]; cbn [app drop_while]; [by apply drop_while_false|]. by destruct (p x). Qed.

Lemma trim_hyphens_keeps l r :
  (∀ c, head l = Some c → is_hyphen c = false) → (∀ c, last l = Some c → is_hyphen c = false) → l ≠ [] →
  ∃ r', trim_hyphens (l ++ r) = l ++ r'.
Proof.
  intros Hh Hl Hne. unfold trim_hyphens, trim_list. rewrite (drop_while_false _ (l ++ r)) by (destruct l; [done|]; exact Hh).
  rewrite reverse_app, drop_while_app by (intros x; rewrite head_reverse; apply Hl). rewrite reverse_app, reverse_involutive. eauto.
Qed.

(** The identifier of an action comes behind its name: of a name whose 52nd
    character is a letter or a digit nothing of it is left, and all executions of
    that action share the name of their Jobs. *)
Theorem jobName_collides id id' name c :
  bytes_of (ToLower name) !! 51 = Some c → is_hyphen (job_char c) = false → jobName_of id name = jobName_of id' name.
Proof.
  intros Hn Hc. set (n52 := take 52 (job_char <$> bytes_of (ToLower name))).
  assert (length n52 = 52) as Hlen.
  { unfold n52. rewrite length_take, length_fmap. apply lookup_lt_Some in Hn. lia. }
  assert (∀ i, jobName_of i name = of_bytes (bytes_of "tinkerbell-" ++ n52)) as E; [|by rewrite !E].
  intros i. set (pre := bytes_of "tinkerbell-" ++ n52).
  assert ((∀ c, head pre = Some c → is_hyphen c = false) ∧ (∀ c, last pre = Some c → is_hyphen c = false) ∧ length pre = 63) as (Hh & Hl & H63).
  { unfold pre. split_and!; [by intros ? [= <-]| |by rewrite length_app, Hlen]. intros x. rewrite last_app. unfold n52.
    rewrite last_lookup. fold n52. rewrite Hlen. unfold n52. rewrite lookup_take_lt by (simpl; lia). cbn [Init.Nat.pred]. rewrite list_lookup_fmap, Hn. by intros [= <-]. }
  assert (∃ r, job_char <$> bytes_of (ToLower ("tinkerbell-" +:+ name +:+ "-" +:+ i)) = pre ++ r) as [r Er].
  { rewrite !lower_bytes, !bytes_of_app, !fmap_app. exists (drop 52 (job_char <$> bytes_of (ToLower name)) ++ (job_char <$> (lower_char <$> bytes_of ("-" +:+ i)))).
    unfold pre, n52. rewrite <- (assoc_L (++)). f_equal. rewrite (bytes_of_app "-" i), !fmap_app, <- lower_bytes.
    by rewrite (assoc_L (++) (take 52 _)), take_drop. }
  unfold jobName_of. rewrite Er. destruct (trim_hyphens_keeps pre r Hh Hl) as [r' ->]; [by destruct pre|].
  assert ((if decide (maxLen < length (pre ++ r')) then trim_hyphens (take maxLen (pre ++ r')) else pre ++ r') = pre) as ->.
  { rewrite length_app, H63. case_decide as Hd.
    - replace maxLen with (length pre) by done. rewrite take_app_length. destruct (trim_hyphens_keeps pre [] Hh Hl) as [r2 E2]; [by destruct pre|].
      pose proof (trim_hyphens_length pre) as Ht. rewrite app_nil_r in E2. rewrite E2, length_app in *. destruct r2; [by rewrite app_nil_r|simpl in Ht; lia].
    - unfold maxLen in Hd. assert (length r' = 0) as ->%nil_length_inv by lia. by rewrite app_nil_r. }
  cbn zeta. by rewrite decide_False by (by intros E; rewrite E in H63).
Qed.

(** ** The action's own container *)

(** Containers that were put next to the action's have no say in its end. *)
Theorem sidecars_ignored name phase statuses statuses' :
  filter (λ cs, cst_Name cs = actionContainerName) statuses = filter (λ cs, cst_Name cs = actionContainerName) statuses' →
  exitError (mkPod name phase statuses) = exitError (mkPod name phase statuses') ∧
  podTerminated (mkPod name phase statuses) = podTerminated (mkPod name phase statuses').
Proof.
  intros E. assert (∀ l, actionContainerStatus (mkPod name phase l) = head (filter (λ cs, cst_Name cs = actionContainerName) l) ≫= cst_Terminated) as Ha.
  { clear. intros l. unfold actionContainerStatus. cbn [pod_Statuses]. induction l as [|cs l IH]; [done|]. rewrite filter_cons.
    cbn [list_find]. destruct (decide (cst_Name cs = actionContainerName)); [done|]. rewrite <- IH. by destruct (list_find _ l) as [[? ?]|]. }
  unfold exitError, podTerminated. by rewrite !Ha, E.
Qed.

(** ** Waiting ends

    The bounds on lists and events do not change a result that is reached, and
    are enough when watches end and the context has a deadline. *)
Section Waiting.
Context {W : Type} `{KubeJobs W}.
Implicit Types (w : W).

Lemma watch_loop_more m m' w r w' : m ≤ m' → watch_loop m w = (Some r, w') → watch_loop m' w = (Some r, w').
Proof.
  revert m' w. induction m as [|m IH]; intros m' w Hm; [done|]. destruct m' as [|m']; [lia|]. cbn [watch_loop].
  destruct (p_Next w) as [[| | |pod|k] w1]; try done; [|destruct (podTerminated pod); [done|]]; apply IH; lia.
Qed.

Lemma wait_loop_more n n' m m' sel w r w' :
  n ≤ n' → m ≤ m' → wait_loop n m sel w = (Some r, w') → wait_loop n' m' sel w = (Some r, w').
Proof.
  intros Hn Hm. revert n' w Hn. induction n as [|n IH]; intros n' w Hn; [done|]. destruct n' as [|n']; [lia|]. cbn [wait_loop].
  destruct (p_List sel w) as [[e|[items rv]] w1]; [done|]. destruct (list_find _ items) as [[? ?]|]; [done|].
  unfold watchForTerminatedPod. destruct (p_Watch sel rv w1) as [[e|] w2]; [done|].
  destruct (watch_loop m w2) as [[x|] w3] eqn:E; [rewrite (watch_loop_more m m' _ _ _ Hm E)|].
  - destruct (p_Stop w3) as [u w4]. destruct x as [e|[pod|]]; [done|done|]. destruct (p_Backoff w4) as [[k|] w5]; [done|]. apply IH. lia.
  - by destruct (p_Stop w3).
Qed.

(** A deadline: every event of a watch and every pause before another list comes
    closer to it, no other call moves it away, and at the deadline the context is
    done. *)
Context (left : W → nat).
Context (left_Create : ∀ job w r w', j_Create job w = (r, w') → left w' ≤ left w).
Context (left_Get : ∀ name w r w', j_Get name w = (r, w') → left w' ≤ left w).
Context (left_List : ∀ sel w r w', p_List sel w = (r, w') → left w' ≤ left w).
Context (left_Watch : ∀ sel rv w r w', p_Watch sel rv w = (r, w') → left w' ≤ left w).
Context (left_Next : ∀ w e w', p_Next w = (e, w') →
  match e with WOther | WPod _ => left w' < left w | _ => left w' ≤ left w end).
Context (left_Stop : ∀ w u w', p_Stop w = (u, w') → left w' ≤ left w).
Context (left_Backoff : ∀ w r w', p_Backoff w = (r, w') → r ≠ None ∨ left w' < left w).

Lemma watch_loop_ends k w : left w < k → ∃ r w', watch_loop k w = (Some r, w') ∧ left w' ≤ left w.
Proof.
  revert w. induction k as [|k IH]; intros w Hk; [lia|]. cbn [watch_loop]. destruct (p_Next w) as [e w1] eqn:E. apply left_Next in E.
  destruct e as [| | |pod|x]; [eauto|eauto| | |eauto]; [|destruct (podTerminated pod); [eauto with lia|]];
    (destruct (IH w1) as (r & w' & -> & Hw); [lia|]; exists r, w'; split; [done|lia]).
Qed.

Lemma wait_loop_ends n m sel w : left w < n → left w < m → ∃ r w', wait_loop n m sel w = (Some r, w').
Proof.
  revert w. induction n as [|n IH]; intros w Hn Hm; [lia|]. cbn [wait_loop].
  destruct (p_List sel w) as [[e|[items rv]] w1] eqn:E1; [eauto|]. apply left_List in E1.
  destruct (list_find _ items) as [[? ?]|]; [eauto|]. unfold watchForTerminatedPod.
  destruct (p_Watch sel rv w1) as [[e|] w2] eqn:E2; [eauto|]. apply left_Watch in E2.
  destruct (watch_loop_ends m w2) as (x & w3 & -> & E3); [lia|].
  destruct (p_Stop w3) as [u w4] eqn:E4. apply left_Stop in E4. destruct x as [e|[pod|]]; [eauto|eauto|].
  destruct (p_Backoff w4) as [[k|] w5] eqn:E5; [eauto|]. apply left_Backoff in E5 as [?|E5]; [done|]. apply IH; lia.
Qed.

(** C13: Under a deadline an execution returns, whatever the cluster answers. *)
Theorem kube_returns n m c a w : left w < n → left w < m → ∃ r w', kube_Execute n m c a w = (Some r, w').
Proof.
  intros Hn Hm. unfold kube_Execute. destruct (jobFor c a) as [e|job]; [eauto|].
  set (cr := match j_Create job w with (inl err, w) => _ | r => r end).
  assert (left cr.2 ≤ left w) as Hc.
  { subst cr. destruct (j_Create job w) as [[e|created] w1] eqn:E; apply left_Create in E; [|done].
    destruct (IsAlreadyExists e); [|done]. unfold adoptExistingJob. destruct (j_Get _ w1) as [[e'|ex] w2] eqn:E2; apply left_Get in E2; [simpl; lia|].
    case_decide; simpl; lia. }
  destruct cr as [[e|created] w1]; [eauto|]. simpl in Hc. destruct (wait_loop_ends n m (actionIDLabel +:+ "=" +:+ sa_ID a) w1) as (r & w2 & E); [lia..|].
  unfold waitForPod. rewrite E. destruct r as [e|pod]; [|destruct (p_Logs _ w2)]; destruct (deleteJob _ _); eauto.
Qed.
End Waiting.

(** ** What an execution does *)

Inductive kevent :=
| KCreate (job : KJob) (r : res KJob)
| KGet (name : string) (r : res KJob)
| KSeen (selector : string) (pods : list Pod)
| KDelete (name : string).

(** A list or a watch shows the pods of its selector; the event of a watch is
    recorded without it. *)
Definition seen (es : list kevent) : list Pod := concat (omap (λ e, match e with KSeen _ l => Some l | _ => None end) es).

Section Recorded.
Context {W : Type} (KJ : KubeJobs W).

Definition recorded_kube : KubeJobs (W * list kevent) := {|
  j_Create j := recorded (λ r, [KCreate j r]) (j_Create j);
  j_Get n := recorded (λ r, [KGet n r]) (j_Get n);
  j_Delete n := recorded (λ _, [KDelete n]) (j_Delete n);
  j_Tick := recorded (λ _, []) j_Tick;
  p_List s := recorded (λ r, match r with inr (items, _) => [KSeen s items] | inl _ => [] end) (p_List s);
  p_Watch s rv := recorded (λ _, []) (p_Watch s rv);
  p_Next := recorded (λ e, match e with WPod p => [KSeen "" [p]] | _ => [] end) p_Next;
  p_Stop := recorded (λ _, []) p_Stop;
  p_Backoff := recorded (λ _, []) p_Backoff;
  p_Logs n := recorded (λ _, []) (p_Logs n);
|}.
Existing Instance recorded_kube.
Implicit Types (wl : W * list kevent).

(** The first pod seen that has ended. *)
Definition first_ended (es : list kevent) : option Pod := snd <$> list_find (λ p, podTerminated p = true) (seen es).
Definition only_seen (es : list kevent) : Prop := Forall (λ e, ∃ s l, e = KSeen s l) es.

Lemma seen_app es es' : seen (es ++ es') = seen es ++ seen es'.
Proof. unfold seen. by rewrite omap_app, concat_app. Qed.

Lemma first_ended_app es es' : first_ended (es ++ es') = match first_ended es with Some p => Some p | None => first_ended es' end.
Proof.
  unfold first_ended. rewrite seen_app. destruct (list_find _ (seen es)) as [[i p]|] eqn:E.
  - by rewrite (list_find_app_l _ _ _ _ _ E).
  - rewrite list_find_app_r by done. by destruct (list_find _ (seen es')) as [[? ?]|].
Qed.

Lemma watch_loop_log m wl r wl' :
  watch_loop m wl = (r, wl') → ∃ es, wl'.2 = wl.2 ++ es ∧ only_seen es ∧
    first_ended es = match r with Some (inr p) => p | _ => None end.
Proof.
  revert wl. induction m as [|m IH]; intros wl; cbn [watch_loop].
  { intros [= <- <-]. exists []. rewrite app_nil_r. split_and!; [done|constructor|done]. }
  destruct (p_Next wl) as [e w1] eqn:E. apply recorded_inv in E as [_ E]. destruct e as [| | |pod|k].
  1,2,5: rewrite app_nil_r in E; intros [= <- <-]; exists []; rewrite app_nil_r; (split_and!; [done|constructor|done]).
  - rewrite app_nil_r in E. intros (es & E2 & HF & Hf)%IH. exists es. rewrite E2, E. done.
  - destruct (podTerminated pod) eqn:Ep.
    + intros [= <- <-]. exists [KSeen "" [pod]]. split_and!; [done|by constructor; [eauto|constructor]|].
      unfold first_ended. simpl. rewrite decide_True by done. done.
    + intros (es & E2 & HF & Hf)%IH. exists (KSeen "" [pod] :: es). rewrite E2, E, <- (assoc_L (++)). split_and!; [done|by constructor; [eauto|]|].
      change (KSeen "" [pod] :: es) with ([KSeen "" [pod]] ++ es). rewrite first_ended_app.
      assert (first_ended [KSeen "" [pod]] = None) as ->; [|done]. unfold first_ended. simpl. rewrite decide_False by congruence. done.
Qed.

Lemma wait_loop_log n m sel wl r wl' :
  wait_loop n m sel wl = (r, wl') → ∃ es, wl'.2 = wl.2 ++ es ∧ only_seen es ∧
    first_ended es = match r with Some (inr p) => Some p | _ => None end.
Proof.
  revert wl. induction n as [|n IH]; intros wl; cbn [wait_loop].
  { intros [= <- <-]. exists []. rewrite app_nil_r. split_and!; [done|constructor|done]. }
  destruct (p_List sel wl) as [[e|[items rv]] w1] eqn:E1; apply recorded_inv in E1 as [_ E1].
  { rewrite app_nil_r in E1. intros [= <- <-]. exists []. rewrite app_nil_r. split_and!; [done|constructor|done]. }
  assert (only_seen [KSeen sel items]) as HF1 by (constructor; [eauto|constructor]).
  assert (first_ended [KSeen sel items] = snd <$> list_find (λ p, podTerminated p = true) items) as Hf1
    by (unfold first_ended, seen; simpl; by rewrite app_nil_r).
  destruct (list_find _ items) as [[i pod]|].
  { intros [= <- <-]. exists [KSeen sel items]. done. }
  unfold watchForTerminatedPod. destruct (p_Watch sel rv w1) as [[e|] w2] eqn:E2; apply recorded_inv in E2 as [_ E2]; rewrite app_nil_r in E2.
  { intros [= <- <-]. exists [KSeen sel items]. split_and!; [congruence|done|done]. }
  destruct (watch_loop m w2) as [x w3] eqn:E3. apply watch_loop_log in E3 as (es & E3 & HF & Hf).
  destruct (p_Stop w3) as [u w4] eqn:E4; apply recorded_inv in E4 as [_ E4]; rewrite app_nil_r in E4.
  assert (w4.2 = wl.2 ++ KSeen sel items :: es) as Hl by (rewrite E4, E3, E2, E1, <- (assoc_L (++)); done).
  assert (only_seen (KSeen sel items :: es)) as HF2 by (constructor; [eauto|done]).
  assert (first_ended (KSeen sel items :: es) = match x with Some (inr p) => p | _ => None end) as Hf2.
  { change (KSeen sel items :: es) with ([KSeen sel items] ++ es). by rewrite first_ended_app, Hf1. }
  destruct x as [[e|[pod|]]|].
  1,2,4: intros [= <- <-]; exists (KSeen sel items :: es); done.
  destruct (p_Backoff w4) as [[k|] w5] eqn:E5; apply recorded_inv in E5 as [_ E5]; rewrite app_nil_r in E5.
  { intros [= <- <-]. exists (KSeen sel items :: es). split_and!; [congruence|done|done]. }
  intros (es2 & E6 & HF3 & Hf3)%IH. exists ((KSeen sel items :: es) ++ es2). rewrite E6, E5, Hl, <- (assoc_L (++)).
  split_and!; [done|by apply Forall_app|]. by rewrite first_ended_app, Hf2.
Qed.

Lemma poll_log fuel name wl u wl' : poll_gone fuel name wl = (u, wl') → ∃ es, wl'.2 = wl.2 ++ es ∧ Forall (λ e, ∃ r, e = KGet name r) es.
Proof.
  revert wl. induction fuel as [|fuel IH]; intros wl; cbn [poll_gone]; [intros [= <- <-]; exists []; rewrite app_nil_r; by split; [|constructor]|].
  destruct (j_Get name wl) as [[e|j] w1] eqn:E1; apply recorded_inv in E1 as [_ E1].
  { intros [= <- <-]. eexists. split; [exact E1|]. by constructor; [eauto|constructor]. }
  destruct (j_Tick w1) as [d w2] eqn:E2; apply recorded_inv in E2 as [_ E2]; rewrite app_nil_r in E2. destruct d.
  { intros [= <- <-]. eexists. split; [rewrite E2; exact E1|]. by constructor; [eauto|constructor]. }
  intros (es & E3 & HF)%IH. eexists (_ :: es). split; [rewrite E3, E2, E1, <- (assoc_L (++)); done|]. by constructor; [eauto|].
Qed.

Lemma deleteJob_log name wl u wl' :
  deleteJob name wl = (u, wl') → ∃ es, wl'.2 = wl.2 ++ KDelete name :: es ∧ Forall (λ e, ∃ r, e = KGet name r) es.
Proof.
  unfold deleteJob. destruct (j_Delete name wl) as [[e|] w1] eqn:E1; apply recorded_inv in E1 as [_ E1]; [destruct (IsNotFound e)|].
  1,3: intros (es & E2 & HF)%poll_log; exists es; rewrite E2, E1, <- (assoc_L (++)); done.
  intros [= <- <-]. exists []. by split; [|constructor].
Qed.

(** A Job that the action may use: the one it created, or one it found under the
    name of its own with the identifier of the action on it. *)
Definition owned (job : KJob) (a : spec_Action) (created : KJob) (es : list kevent) : Prop :=
  es = [KCreate job (inr created)] ∨
  ∃ e, IsAlreadyExists e = true ∧ es = [KCreate job (inl e); KGet (kj_Name job) (inr created)] ∧
       default "" (kj_Labels created !! actionIDLabel) = sa_ID a.

End Recorded.
