(* ===== verification/Runtimes.v ===== *)
(** * The runtimes of the agent compared

    The three runtimes promise the agent the same: to run the container of an
    action, and to return nil when it ended with status 0. Here is what they
    have in common and where they differ. *)
From S2P Require Import Prelude GoStrings Attributes ServerNames Server Agent ContainerdFiles Containerd DockerRt KubeRt.

(** ** The process of a container

    An image has an entrypoint and a command of its own. What the Docker engine,
    the kubelet and the options of containerd make of them and of the fields
    they are given is documented behaviour of those programs; the option for the
    entrypoint alone is code of the agent. *)
Section Process.
Context (entrypoint cmd : list string).

(** The Docker engine: the entrypoint and the command of a container. *)
Context (docker_args : list string → list string → list string).
Context (docker_default : docker_args [] [] = entrypoint ++ cmd).
Context (docker_cmd : ∀ c, c ≠ [] → docker_args [] c = entrypoint ++ c).
Context (docker_entrypoint : ∀ e c, e ≠ [] → docker_args e c = e ++ c).

(** Kubernetes: the command and the arguments of a container. *)
Context (kube_args : list string → list string → list string).
Context (kube_default : kube_args [] [] = entrypoint ++ cmd).
Context (kube_only_args : ∀ a, a ≠ [] → kube_args [] a = entrypoint ++ a).
Context (kube_command : ∀ c a, c ≠ [] → kube_args c a = c ++ a).

(** The options of containerd's oci package: the arguments after an option. *)
Context (oci : SpecOpt → list string → list string).
Context (oci_image : ∀ i args, oci (WithImageConfig i) args = entrypoint ++ cmd).
Context (oci_process : ∀ l args, oci (WithProcessArgs l) args = l).
Context (oci_image_args : ∀ i l args, l ≠ [] → oci (WithImageConfigArgs i l) args = entrypoint ++ l).
Context (oci_override : ∀ i c args, oci (EntrypointOverride i c) args =
  match withEntrypointOverride (inr "") (λ _, true) (inr "") (λ _, inr cmd) c with inr l => l | inl _ => args end).
Context (oci_other : ∀ o args, match o with
  | WithImageConfig _ | WithProcessArgs _ | WithImageConfigArgs _ _ | EntrypointOverride _ _ => True
  | _ => oci o args = args end).

Definition docker_process (a : spec_Action) : list string := docker_args (cr_Entrypoint (docker_container a)) (cr_Cmd (docker_container a)).
Definition containerd_process (opts : list SpecOpt) : list string := foldl (λ args o, oci o args) [] opts.
Definition kube_process (job : KJob) : list (list string) := (λ c, kube_args (jc_Command c) (jc_Args c)) <$> kj_Containers job.

Lemma oci_skip opts args :
  Forall (λ o, match o with WithImageConfig _ | WithProcessArgs _ | WithImageConfigArgs _ _ | EntrypointOverride _ _ => False | _ => True end) opts →
  foldl (λ args o, oci o args) args opts = args.
Proof.
  intros HF. revert args. induction HF as [|o opts Ho _ IH]; intros args; [done|]. cbn [foldl]. rewrite IH.
  specialize (oci_other o args). by destruct o.
Qed.

Lemma containerd_process_args image a mounts b df h :
  containerd_process (container_opts image a mounts b df h) = foldl (λ args o, oci o args) (entrypoint ++ cmd) (args_opts image a).
Proof.
  unfold containerd_process, container_opts. rewrite !foldl_app. cbn [foldl]. rewrite oci_image.
  rewrite (oci_other WithPrivileged), (oci_other WithAllDevicesAllowed), (oci_other WithHostDevices), (oci_other (WithEnv _)).
  rewrite (oci_other (WithHostname h)). rewrite !(oci_skip (_ <$> _)) by (repeat constructor).
  rewrite (oci_skip (if b then _ else _)) by (destruct b; repeat constructor).
  rewrite (oci_skip (if decide (nsp_PID _ = _) then _ else _)) by (case_decide; repeat constructor).
  by rewrite (oci_skip (if decide (mounts = []) then _ else _)) by (case_decide; repeat constructor).
Qed.

End Process.
