(* ===== verification/AgentCmd.v ===== *)
(** * The command of the agent

    cmd/agent (main.go, flags.go) and [ConfigureAndRun] of tink/agent/agent.go: from
    the command line and the environment to the transport and the runtime the agent
    is made of, and the exit code of the process.

    The parser of the command line is a parameter: it is given the configuration with
    its defaults and returns it with the flags set. So are the clients of gRPC, Docker
    and Kubernetes as far as making them can fail. *)
From S2P Require Import Prelude GoStrings GoNet GoNetip Attributes ServerNames Server Agent ContainerdFiles Containerd DockerRt KubeRt.

(** ** Options *)

Record GRPCTransport := mkGRPCTransport {
  go_ServerAddrPort : string; go_TLSEnabled : bool; go_TLSInsecure : bool; go_RetryInterval : Z }.
Record NATSTransport := mkNATSTransport {
  no_ServerAddrPort : AddrPort; no_StreamName : string; no_EventsSubject : string; no_ActionsSubject : string }.
Record ContainerdRuntime := mkContainerdRuntime {
  co_Namespace : string; co_SocketPath : string; co_DataRoot : string; co_RegistryConfigPath : string }.
Record KubernetesRuntime := mkKubernetesRuntime { ko_Namespace : string; ko_Kubeconfig : string; ko_ServiceAccountName : string }.

(** The proxies of [Options] are never read. *)
Record agent_Options := mkagent_Options {
  op_GRPC : GRPCTransport;
  op_File_WorkflowPath : string;
  op_NATS : NATSTransport;
  op_Docker_SocketPath : string;
  op_Containerd : ContainerdRuntime;
  op_Kubernetes : KubernetesRuntime;
  (** [Registry]: name, user and password *)
  op_Registry_Name : string;
  op_Registry_User : string;
  op_Registry_Pass : string;
  op_TransportSelected : string;
  op_RuntimeSelected : string;
  op_AttributeDetectionEnabled : bool;
  op_MaxInterval : Z;
}.

Record agent_config := mkagent_config {
  ac_AgentID : string;
  ac_LogLevel : Z;
  ac_PrintVersion : bool;
  ac_Options : agent_Options;
}.

Definition set_GRPC (g : GRPCTransport) (c : agent_config) : agent_config :=
  let o := ac_Options c in
  mkagent_config (ac_AgentID c) (ac_LogLevel c) (ac_PrintVersion c)
    (mkagent_Options g (op_File_WorkflowPath o) (op_NATS o) (op_Docker_SocketPath o) (op_Containerd o) (op_Kubernetes o) (op_Registry_Name o)
       (op_Registry_User o) (op_Registry_Pass o) (op_TransportSelected o) (op_RuntimeSelected o) (op_AttributeDetectionEnabled o) (op_MaxInterval o)).
Definition set_Registry (name user pass : string) (c : agent_config) : agent_config :=
  let o := ac_Options c in
  mkagent_config (ac_AgentID c) (ac_LogLevel c) (ac_PrintVersion c)
    (mkagent_Options (op_GRPC o) (op_File_WorkflowPath o) (op_NATS o) (op_Docker_SocketPath o) (op_Containerd o) (op_Kubernetes o) name user pass
       (op_TransportSelected o) (op_RuntimeSelected o) (op_AttributeDetectionEnabled o) (op_MaxInterval o)).
Definition set_AgentID (id : string) (c : agent_config) : agent_config :=
  mkagent_config id (ac_LogLevel c) (ac_PrintVersion c) (ac_Options c).

(** ** flags.go *)

(** The configuration after [RegisterAllFlags]: [main]'s, in which each registration
    has set its default; [-transport] and [-runtime] keep what [main] chose. *)
Definition RegisterAllFlags (transport runtime : string) (nats : AddrPort) : agent_config := {|
  ac_AgentID := ""; ac_LogLevel := 0; ac_PrintVersion := false;
  ac_Options := {|
    op_GRPC := mkGRPCTransport "" false false (5 * time_Second);
    op_File_WorkflowPath := "";
    op_NATS := mkNATSTransport nats "tinkerbell" "workflow_status" "workflow_actions";
    op_Docker_SocketPath := "/var/run/docker.sock";
    op_Containerd := mkContainerdRuntime "tinkerbell" "/run/containerd/containerd.sock" "/var/lib/nerdctl" "/etc/containerd/certs.d";
    op_Kubernetes := mkKubernetesRuntime "tinkerbell" "" "";
    op_Registry_Name := ""; op_Registry_User := ""; op_Registry_Pass := "";
    op_TransportSelected := transport; op_RuntimeSelected := runtime;
    op_AttributeDetectionEnabled := true;
    op_MaxInterval := time_Second * 5;
  |};
|}.

(** [strconv.ParseBool]. *)
Definition ParseBool (s : string) : option bool :=
  if decide (s ∈ ["1"; "t"; "T"; "TRUE"; "true"; "True"]) then Some true
  else if decide (s ∈ ["0"; "f"; "F"; "FALSE"; "false"; "False"]) then Some false
  else None.

(** One variable of the environment that is not empty. *)
Definition set_env (env v : string) (c : agent_config) : agent_config :=
  let o := ac_Options c in
  let g := op_GRPC o in
  if decide (env = "REGISTRY_USERNAME") then set_Registry (op_Registry_Name o) v (op_Registry_Pass o) c
  else if decide (env = "REGISTRY_PASSWORD") then set_Registry (op_Registry_Name o) (op_Registry_User o) v c
  else if decide (env = "DOCKER_REGISTRY") then set_Registry v (op_Registry_User o) (op_Registry_Pass o) c
  else if decide (env = "TINKERBELL_GRPC_AUTHORITY") then set_GRPC (mkGRPCTransport v (go_TLSEnabled g) (go_TLSInsecure g) (go_RetryInterval g)) c
  else if decide (env = "TINKERBELL_TLS") then
    match ParseBool v with
    | Some b => set_GRPC (mkGRPCTransport (go_ServerAddrPort g) b (go_TLSInsecure g) (go_RetryInterval g)) c
    | None => c
    end
  else if decide (env = "TINKERBELL_INSECURE_TLS") then
    match ParseBool v with
    | Some b => set_GRPC (mkGRPCTransport (go_ServerAddrPort g) (go_TLSEnabled g) b (go_RetryInterval g)) c
    | None => c
    end
  else if decide (env = "ID" ∨ env = "WORKER_ID") then set_AgentID v c
  else c.

Definition legacy_envs : list string :=
  ["REGISTRY_USERNAME"; "REGISTRY_PASSWORD"; "DOCKER_REGISTRY"; "TINKERBELL_GRPC_AUTHORITY"; "TINKERBELL_TLS"; "TINKERBELL_INSECURE_TLS"; "ID"; "WORKER_ID"].

Definition SetFromEnvLegacy (Getenv : string → string) (c : agent_config) : agent_config :=
  foldl (λ c env, if decide (Getenv env ≠ "") then set_env env (Getenv env) c else c) c legacy_envs.

(** ** agent.go, [ConfigureAndRun] *)

(** The credentials of the gRPC connection: TLS, with or without verification, or none. *)
Inductive grpc_creds := GrpcTLS (InsecureSkipVerify : bool) | GrpcInsecure.

Inductive transport_made :=
| MadeFile (FileLoc : string)
| MadeNATS (n : NATSTransport) (agentID : string)
| MadeGRPC (authority : string) (creds : grpc_creds) (agentID : string) (attrs : option AgentAttributes).

Inductive docker_opt := FromEnv | WithHost (host : string).

Inductive runtime_made :=
| MadeKubernetes (c : KubeConfig) (kubeconfig : string)
| MadeContainerd (c : ContainerdConfig)
| MadeDocker (opts : list docker_opt) (auth : option AuthConfig).

(** What the agent runs with; [NewExponentialBackOff] with its longest interval. *)
Record made := mkmade { ma_transport : transport_made; ma_runtime : runtime_made; ma_MaxInterval : Z }.

Class AgentCmdEnv (W : Type) := {
  (** [grpc.NewClient] *)
  env_GrpcClient : string → grpc_creds → W → option error * W;
  (** [attribute.DiscoverAll] *)
  env_Discover : W → AgentAttributes * W;
  (** [restConfig] and [kubernetes.NewForConfig] *)
  env_restConfig : string → W → option error * W;
  env_KubeClient : string → W → option error * W;
  (** [client.New] of Docker *)
  env_DockerClient : list docker_opt → W → option error * W;
}.

Section Configure.
Context {W : Type} `{AgentCmdEnv W} `{HostOs W} `{ContainerdClient W}.
Implicit Types (o : agent_Options) (w : W).

Definition creds_of (tlsEnabled tlsInsecure : bool) : grpc_creds := if tlsEnabled then GrpcTLS tlsInsecure else GrpcInsecure.

Definition NewClientConn (authority : string) (tlsEnabled tlsInsecure : bool) w : res grpc_creds * W :=
  if decide (authority = "") then (inl (ErrNew "the Tinkerbell server address is required, none provided"), w)
  else
    let creds := creds_of tlsEnabled tlsInsecure in
    match env_GrpcClient authority creds w with
    | (Some err, w) => (inl (ErrWrap "dial tinkerbell server: " err), w)
    | (None, w) => (inr creds, w)
    end.

Definition kube_NewConfig (namespace kubeconfig serviceAccount : string) w : res KubeConfig * W :=
  match env_restConfig kubeconfig w with
  | (Some err, w) => (inl (ErrWrap "kubernetes: " err), w)
  | (None, w) =>
      match env_KubeClient kubeconfig w with
      | (Some err, w) => (inl (ErrWrap "kubernetes: " err), w)
      | (None, w) => (inr (mkKubeConfig namespace serviceAccount), w)
      end
  end.

Definition make_transport o (id : string) w : res transport_made * W :=
  let t := op_TransportSelected o in
  if decide (t = FileTransportType) then (inr (MadeFile "./example/file_template.yaml"), w)
  else if decide (t = NATSTransportType) then (inr (MadeNATS (op_NATS o) id), w)
  else
    let g := op_GRPC o in
    match NewClientConn (go_ServerAddrPort g) (go_TLSEnabled g) (go_TLSInsecure g) w with
    | (inl err, w) => (inl (ErrWrap "unable to create gRPC client: " err), w)
    | (inr creds, w) =>
        let '(attrs, w) := if op_AttributeDetectionEnabled o then let '(a, w) := env_Discover w in (Some a, w) else (None, w) in
        (inr (MadeGRPC (go_ServerAddrPort g) creds id attrs), w)
    end.

Definition containerd_opts (c : ContainerdRuntime) : list (ContainerdConfig → ContainerdConfig) :=
  (if decide (co_Namespace c ≠ "") then [WithNamespace (co_Namespace c)] else []) ++
  (if decide (co_SocketPath c ≠ "") then [WithSocketPath (co_SocketPath c)] else []) ++
  (if decide (co_DataRoot c ≠ "") then [WithDataRoot (co_DataRoot c)] else []) ++
  (if decide (co_RegistryConfigPath c ≠ "") then [WithRegistryConfigPath (co_RegistryConfigPath c)] else []).

Definition docker_opts (socket : string) : list docker_opt :=
  FromEnv :: (if decide (socket ≠ "") then [WithHost ("unix://" +:+ socket)] else []).

Definition make_runtime o w : res runtime_made * W :=
  let r := op_RuntimeSelected o in
  if decide (r = KubernetesRuntimeType) then
    let k := op_Kubernetes o in
    match kube_NewConfig (ko_Namespace k) (ko_Kubeconfig k) (ko_ServiceAccountName k) w with
    | (inl err, w) => (inl (ErrWrap "unable to create Kubernetes config: " err), w)
    | (inr c, w) => (inr (MadeKubernetes c (ko_Kubeconfig k)), w)
    end
  else if decide (r = ContainerdRuntimeType) then
    match containerd_NewConfig (containerd_opts (op_Containerd o)) w with
    | (inl err, w) => (inl (ErrWrap "unable to create Containerd config: " err), w)
    | (inr c, w) => (inr (MadeContainerd c), w)
    end
  else
    let opts := docker_opts (op_Docker_SocketPath o) in
    match env_DockerClient opts w with
    | (Some err, w) => (inl (ErrWrap "unable to create Docker client: " err), w)
    | (None, w) => (inr (MadeDocker opts (Some (mkAuthConfig (op_Registry_User o) (op_Registry_Pass o) (op_Registry_Name o)))), w)
    end.

(** The first error of the goroutines of the group: the loop of the agent returns
    none, the [Start] of a file or NATS transport may. *)
Definition wait_result (started : option error) : option error :=
  match started with
  | Some err => if is_ctx Canceled err then None else Some err
  | None => None
  end.

(** [run] is the group of goroutines, with the first error they return. *)
Definition ConfigureAndRun (run : made → W → option error * W) o (id : string) w : option error * W :=
  match make_transport o id w with
  | (inl err, w) => (Some err, w)
  | (inr t, w) =>
      match make_runtime o w with
      | (inl err, w) => (Some err, w)
      | (inr r, w) => let '(e, w) := run (mkmade t r (op_MaxInterval o)) w in (wait_result e, w)
      end
  end.

(** ** main.go *)

Definition default_config : agent_config :=
  RegisterAllFlags GRPCTransportType DockerRuntimeType (mkAddrPort (Addr4 [0; 0; 0; 0]%Z) 0).

(** [main]: the exit code. [Parse] sets the flags of the command line; [print_ok]
    is whether the version could be written. *)
Definition agent_main (Parse : agent_config → res agent_config) (Getenv : string → string) (print_ok : bool)
    (run : made → W → option error * W) w : Z * W :=
  match Parse default_config with
  | inl _ => (1, w)%Z
  | inr c =>
      if ac_PrintVersion c then (if print_ok then 0 else 1, w)%Z
      else
        let c := SetFromEnvLegacy Getenv c in
        match ConfigureAndRun run (ac_Options c) (ac_AgentID c) w with
        | (Some _, w) => (1, w)%Z
        | (None, w) => (0, w)%Z
        end
  end.

(** ** What the agent is made of *)

Definition transport_kind (t : transport_made) : string :=
  match t with MadeFile _ => FileTransportType | MadeNATS _ _ => NATSTransportType | MadeGRPC _ _ _ _ => GRPCTransportType end.
Definition runtime_kind (r : runtime_made) : string :=
  match r with MadeKubernetes _ _ => KubernetesRuntimeType | MadeContainerd _ => ContainerdRuntimeType | MadeDocker _ _ => DockerRuntimeType end.

(** A gRPC connection is to the given server, encrypted when that is asked for, and the
    agent sends attributes exactly when it is to detect them. *)
Definition connected_as o (id : string) (t : transport_made) : Prop :=
  match t with
  | MadeGRPC a c i attrs =>
      a = go_ServerAddrPort (op_GRPC o) ∧ a ≠ "" ∧ i = id ∧
      c = (if go_TLSEnabled (op_GRPC o) then GrpcTLS (go_TLSInsecure (op_GRPC o)) else GrpcInsecure) ∧
      (is_Some attrs ↔ op_AttributeDetectionEnabled o = true)
  | MadeNATS n i => n = op_NATS o ∧ i = id
  | MadeFile _ => True
  end.

(** The credentials of the registry go to Docker alone. *)
Definition given_to o (r : runtime_made) : Prop :=
  match r with
  | MadeDocker opts auth =>
      head opts = Some FromEnv ∧ auth = Some (mkAuthConfig (op_Registry_User o) (op_Registry_Pass o) (op_Registry_Name o))
  | MadeContainerd c =>
      (co_Namespace (op_Containerd o) ≠ "" → cc_Namespace c = co_Namespace (op_Containerd o)) ∧
      (co_SocketPath (op_Containerd o) ≠ "" → cc_SocketPath c = co_SocketPath (op_Containerd o)) ∧
      (co_DataRoot (op_Containerd o) ≠ "" → cc_DataRoot c = co_DataRoot (op_Containerd o)) ∧
      (co_RegistryConfigPath (op_Containerd o) ≠ "" → cc_RegistryConfigPath c = co_RegistryConfigPath (op_Containerd o)) ∧
      cc_Client c = true
  | MadeKubernetes c k =>
      c = mkKubeConfig (ko_Namespace (op_Kubernetes o)) (ko_ServiceAccountName (op_Kubernetes o)) ∧ k = ko_Kubeconfig (op_Kubernetes o)
  end.

Lemma make_transport_made o id w t w' :
  make_transport o id w = (inr t, w') → transport_kind t = transport_used (op_TransportSelected o) ∧ connected_as o id t.
Proof.
  unfold make_transport, transport_used, NewClientConn, creds_of. intros E. repeat case_match; simplify_eq; simpl; split_and!; try done.
  all: try (match goal with H : go_TLSEnabled _ = _ |- _ => rewrite H end; done).
  all: split; [by intros [? ?]|intros ?; by (congruence || eexists)].
Qed.

Lemma containerd_opts_made c w r w' :
  containerd_NewConfig (containerd_opts c) w = (inr r, w') →
  (co_Namespace c ≠ "" → cc_Namespace r = co_Namespace c) ∧ (co_SocketPath c ≠ "" → cc_SocketPath r = co_SocketPath c) ∧
  (co_DataRoot c ≠ "" → cc_DataRoot r = co_DataRoot c) ∧ (co_RegistryConfigPath c ≠ "" → cc_RegistryConfigPath r = co_RegistryConfigPath c) ∧
  cc_Client r = true.
Proof.
  unfold containerd_NewConfig, containerd_opts. intros E.
  destruct (decide (co_Namespace c ≠ "")), (decide (co_SocketPath c ≠ "")), (decide (co_DataRoot c ≠ "")), (decide (co_RegistryConfigPath c ≠ ""));
    cbn [app foldl] in E; unfold WithNamespace, WithSocketPath, WithDataRoot, WithRegistryConfigPath in E; cbn in E;
    repeat case_match; simplify_eq; by split_and!.
Qed.

Lemma make_runtime_made o w r w' :
  make_runtime o w = (inr r, w') → runtime_kind r = runtime_used (op_RuntimeSelected o) ∧ given_to o r.
Proof.
  unfold make_runtime, runtime_used. intros E. repeat case_decide; try done.
  - unfold kube_NewConfig in E. repeat case_match; by simplify_eq.
  - destruct (containerd_NewConfig _ w) as [[err|c] w1] eqn:Ec; simplify_eq. split; [done|]. by eapply containerd_opts_made.
  - destruct (env_DockerClient _ w) as [[err|] w1]; simplify_eq. done.
Qed.

(** The agent runs with the transport and the runtime that were selected, made of
    their options, or, when one cannot be made, not at all, and reports why. A
    cancelled agent reports no error. *)
Theorem ConfigureAndRun_made run o id w r w' :
  ConfigureAndRun run o id w = (r, w') →
  (r ≠ None ∧ ∀ run', ConfigureAndRun run' o id w = (r, w')) ∨
  ∃ m w1 e, run m w1 = (e, w') ∧ (r = None ↔ ∀ err, e = Some err → is_ctx Canceled err = true) ∧
    transport_kind (ma_transport m) = transport_used (op_TransportSelected o) ∧ connected_as o id (ma_transport m) ∧
    runtime_kind (ma_runtime m) = runtime_used (op_RuntimeSelected o) ∧ given_to o (ma_runtime m) ∧ ma_MaxInterval m = op_MaxInterval o.
Proof.
  unfold ConfigureAndRun. destruct (make_transport o id w) as [[err|t] w1] eqn:Et; [intros [= <- <-]; by left|].
  destruct (make_runtime o w1) as [[err|rt] w2] eqn:Er; [intros [= <- <-]; by left|].
  destruct (run _ w2) as [e w3] eqn:Erun. intros [= <- <-]. right. exists (mkmade t rt (op_MaxInterval o)), w2, e. split; [done|].
  destruct (make_transport_made _ _ _ _ _ Et) as [??]. destruct (make_runtime_made _ _ _ _ Er) as [??]. split; [|done].
  unfold wait_result. destruct e as [err|]; [|by split]. destruct (is_ctx Canceled err) eqn:Ec.
  - split; [by intros _ ? [= <-]|done].
  - split; [done|]. intros H'. by rewrite H' in Ec.
Qed.

(** Neither the path of the workflow file nor the retry interval of gRPC has any
    effect. *)
Lemma ConfigureAndRun_ignores run o o' id w :
  (∀ t r,
    o = mkagent_Options (op_GRPC o) (op_File_WorkflowPath o) (op_NATS o) (op_Docker_SocketPath o) (op_Containerd o) (op_Kubernetes o)
          (op_Registry_Name o) (op_Registry_User o) (op_Registry_Pass o) t r (op_AttributeDetectionEnabled o) (op_MaxInterval o) →
    o' = mkagent_Options (mkGRPCTransport (go_ServerAddrPort (op_GRPC o)) (go_TLSEnabled (op_GRPC o)) (go_TLSInsecure (op_GRPC o)) (go_RetryInterval (op_GRPC o')))
          (op_File_WorkflowPath o') (op_NATS o) (op_Docker_SocketPath o) (op_Containerd o) (op_Kubernetes o)
          (op_Registry_Name o) (op_Registry_User o) (op_Registry_Pass o) t r (op_AttributeDetectionEnabled o) (op_MaxInterval o) →
    ConfigureAndRun run o id w = ConfigureAndRun run o' id w).
Proof. intros t r -> ->. reflexivity. Qed.

(** Printing the version does nothing else; so does a command line that is refused. *)
Lemma agent_main_version Parse Getenv print_ok run w :
  (∀ c, Parse default_config = inr c → ac_PrintVersion c = true) → (agent_main Parse Getenv print_ok run w).2 = w.
Proof. unfold agent_main. destruct (Parse default_config) as [|c]; [done|]. intros Hc. by rewrite Hc. Qed.

End Configure.

(** ** The legacy environment *)

(** The identifier of the agent is the last of the flag, [ID] and [WORKER_ID] that is
    given. *)
Definition legacy_id (Getenv : string → string) (flag : string) : string :=
  if decide (Getenv "WORKER_ID" ≠ "") then Getenv "WORKER_ID" else if decide (Getenv "ID" ≠ "") then Getenv "ID" else flag.

Definition legacy_string (v flag : string) : string := if decide (v ≠ "") then v else flag.

(** A value that is not a boolean counts as none. *)
Definition legacy_bool (v : string) (flag : bool) : bool := default flag (ParseBool v).

(** One variable, with the fields it may change. *)
Lemma set_env_given env v id lvl pv addr tls insecure ri path nats ds cd kb name user pass t r ad mi :
  let mk id name user pass addr tls insecure :=
    mkagent_config id lvl pv (mkagent_Options (mkGRPCTransport addr tls insecure ri) path nats ds cd kb name user pass t r ad mi) in
  let on X {A} (f : A → A) (a : A) := if String.eqb env X then f a else a in
  (if decide (v ≠ "") then set_env env v (mk id name user pass addr tls insecure) else mk id name user pass addr tls insecure) =
  mk (if String.eqb env "ID" || String.eqb env "WORKER_ID" then legacy_string v id else id)
     (on "DOCKER_REGISTRY" (legacy_string v) name) (on "REGISTRY_USERNAME" (legacy_string v) user) (on "REGISTRY_PASSWORD" (legacy_string v) pass)
     (on "TINKERBELL_GRPC_AUTHORITY" (legacy_string v) addr) (on "TINKERBELL_TLS" (legacy_bool v) tls) (on "TINKERBELL_INSECURE_TLS" (legacy_bool v) insecure).
Proof.
  cbv zeta. unfold legacy_string, legacy_bool.
  destruct (decide (v ≠ "")) as [Hv|Hv%dec_stable]; [|subst v; repeat case_match; reflexivity]. unfold set_env.
  destruct (decide (env = "REGISTRY_USERNAME")) as [->|?%String.eqb_neq]; [reflexivity|].
  destruct (decide (env = "REGISTRY_PASSWORD")) as [->|?%String.eqb_neq]; [reflexivity|].
  destruct (decide (env = "DOCKER_REGISTRY")) as [->|?%String.eqb_neq]; [reflexivity|].
  destruct (decide (env = "TINKERBELL_GRPC_AUTHORITY")) as [->|?%String.eqb_neq]; [reflexivity|].
  destruct (decide (env = "TINKERBELL_TLS")) as [->|?%String.eqb_neq]; [by destruct (ParseBool v)|].
  destruct (decide (env = "TINKERBELL_INSECURE_TLS")) as [->|?%String.eqb_neq]; [by destruct (ParseBool v)|].
  destruct (decide (env = "ID" ∨ env = "WORKER_ID")) as [[->| ->]|[?%String.eqb_neq ?%String.eqb_neq]%Decidable.not_or]; [reflexivity..|].
  by repeat match goal with E : String.eqb env _ = false |- _ => rewrite E; clear E end.
Qed.

(** The environment goes before the flags, variable by variable; everything else is
    as the flags say. *)
Theorem SetFromEnvLegacy_spec Getenv c :
  let o := ac_Options c in
  let g := op_GRPC o in
  SetFromEnvLegacy Getenv c =
    mkagent_config (legacy_id Getenv (ac_AgentID c)) (ac_LogLevel c) (ac_PrintVersion c)
      (mkagent_Options
         (mkGRPCTransport (legacy_string (Getenv "TINKERBELL_GRPC_AUTHORITY") (go_ServerAddrPort g))
            (legacy_bool (Getenv "TINKERBELL_TLS") (go_TLSEnabled g)) (legacy_bool (Getenv "TINKERBELL_INSECURE_TLS") (go_TLSInsecure g))
            (go_RetryInterval g))
         (op_File_WorkflowPath o) (op_NATS o) (op_Docker_SocketPath o) (op_Containerd o) (op_Kubernetes o)
         (legacy_string (Getenv "DOCKER_REGISTRY") (op_Registry_Name o)) (legacy_string (Getenv "REGISTRY_USERNAME") (op_Registry_User o))
         (legacy_string (Getenv "REGISTRY_PASSWORD") (op_Registry_Pass o)) (op_TransportSelected o) (op_RuntimeSelected o)
         (op_AttributeDetectionEnabled o) (op_MaxInterval o)).
Proof.
  destruct c as [id lvl pv [[] ? ? ? ? ? ? ? ? ? ? ? ?]]. cbv zeta. unfold SetFromEnvLegacy, legacy_envs. cbn [foldl].
  do 8 (rewrite set_env_given; cbn [String.eqb Ascii.eqb Bool.eqb orb]). reflexivity.
Qed.
