(* ===== verification/Transports.v ===== *)
(** * The file and the NATS transport of the agent

    tink/agent/internal/transport/{file/file.go,nats/nats.go}. [Start] is a
    goroutine that sends the actions of a batch, a file or a message, over an
    unbuffered channel, which the agent reads; a failed action makes the agent
    replace the channel, and with NATS also send on the channel [cancel]. The two
    goroutines are a step function on events, each event one thing that happens
    next. *)
From S2P Require Import Prelude GoStrings Attributes ServerNames Server Agent.

(** [Start]: waiting for a message, before the select of the next action, in the
    select with the channel it evaluated, returned. *)
Inductive sender :=
| SWait
| SLoop (batch : list spec_Action)
| SSelect (ch : nat) (a : spec_Action) (rest : list spec_Action)
| SDone.

(** The agent: between two turns, in the select of [Read], executing an action,
    in [c.cancel <- true], at the publication of a result. *)
Inductive reader :=
| RIdle
| RReading (ch : nat)
| RRunning (a : spec_Action)
| RCancelling (a : spec_Action) (state : State)
| RPublishing (a : spec_Action) (state : State).

Record Transport := mkTransport {
  t_Actions : nat;                           (** the channel [c.Actions] *)
  t_sender : sender;
  t_reader : reader;
  t_read : list spec_Action;                 (** the actions read, oldest first *)
  t_published : list (spec_Action * State);
}.

Inductive tevent :=
| EvMessage (batch : list spec_Action)
| EvSender
| EvRead
| EvMeet
| EvResult (state : State)
| EvCancel
| EvPublish (ok : bool).

Definition failed (s : State) : bool := match s with StateFailure | StateTimeout => true | _ => false end.

Section Step.
(** Whether the transport is NATS: it takes message after message, and [Write] sends on [cancel]. *)
Context (nats : bool).

Definition set_sender (s : sender) (t : Transport) : Transport := mkTransport (t_Actions t) s (t_reader t) (t_read t) (t_published t).
Definition set_reader (r : reader) (t : Transport) : Transport := mkTransport (t_Actions t) (t_sender t) r (t_read t) (t_published t).

(** [Write] of the result of an action, to its first blocking operation. *)
Definition Write_result (a : spec_Action) (state : State) (t : Transport) : Transport :=
  if failed state then
    mkTransport (S (t_Actions t)) (t_sender t) (if nats then RCancelling a state else RPublishing a state) (t_read t) (t_published t)
  else set_reader (RPublishing a state) t.

Definition tstep (e : tevent) (t : Transport) : option Transport :=
  match e, t_sender t, t_reader t with
  | EvMessage batch, SWait, _ => Some (set_sender (SLoop batch) t)
  | EvSender, SLoop [], _ => Some (set_sender (if nats then SWait else SDone) t)
  | EvSender, SLoop (a :: rest), _ => Some (set_sender (SSelect (t_Actions t) a rest) t)
  | EvRead, _, RIdle => Some (set_reader (RReading (t_Actions t)) t)
  | EvMeet, SSelect ch a rest, RReading ch' =>
      if decide (ch = ch') then Some (mkTransport (t_Actions t) (SLoop rest) (RRunning a) (t_read t ++ [a]) (t_published t)) else None
  | EvResult state, _, RRunning a => Some (Write_result a state t)
  | EvCancel, SSelect _ _ _, RCancelling a state =>
      if nats then Some (set_reader (RPublishing a state) (set_sender SWait t)) else None
  | EvPublish true, _, RPublishing a state =>
      Some (mkTransport (t_Actions t) (t_sender t) RIdle (t_read t) (t_published t ++ [(a, state)]))
  | EvPublish false, _, RPublishing a state => if nats then Some (Write_result a state t) else None
  | _, _, _ => None
  end.

Fixpoint trun (es : list tevent) (t : Transport) : option Transport :=
  match es with
  | [] => Some t
  | e :: es => t ← tstep e t; trun es t
  end.

Definition tinit : Transport := mkTransport 0 SWait RIdle [] [].
End Step.

(** The two transports. *)
Definition file_step : tevent → Transport → option Transport := tstep false.
Definition nats_step : tevent → Transport → option Transport := tstep true.

(** ** A file is read in its order and to its first failure *)

Definition sender_channel (s : sender) : option nat := match s with SSelect ch _ _ => Some ch | _ => None end.
Definition reader_channel (r : reader) : option nat := match r with RReading ch => Some ch | _ => None end.

(** When the sender was already in its select at the time of the failure, it waits
    on a channel nobody reads any more: no further action is read. *)
Definition stale (t : Transport) : Prop :=
  ∃ ch a rest, t_sender t = SSelect ch a rest ∧ ch < t_Actions t ∧ ∀ ch', t_reader t = RReading ch' → ch < ch'.

Lemma stale_step e t t' : stale t → tstep false e t = Some t' → stale t' ∧ t_read t' = t_read t.
Proof.
  intros (ch & a & rest & Hs & Hlt & Hr). unfold tstep, Write_result. rewrite Hs. intros Ht.
  destruct e as [batch| | | |state| |[]]; destruct (t_reader t) as [|ch'|b|b st|b st] eqn:Er; try done; try (destruct (failed state)); try case_decide; simplify_eq/=.
  all: try (split; [|done]; exists ch, a, rest; rewrite ?Hs; split_and!; simpl; try done; try lia; intros ? [=]; subst; lia).
  all: specialize (Hr _ eq_refl); lia.
Qed.

(** A file transport stops at a failure once the next action is on offer. *)
Theorem file_stops es t t' : stale t → trun false es t = Some t' → t_read t' = t_read t.
Proof.
  revert t. induction es as [|e es IH]; intros t Hs; cbn [trun]; [by intros [= <-]|].
  destruct (tstep false e t) as [t1|] eqn:E; [|done]. simpl. apply stale_step in E as [Hs1 <-]; [|done]. by apply IH.
Qed.

(** A sender that had not reached its select yet takes the new channel, and the
    action behind the failed one is read and run. *)
Section Race.
Let action (id : string) : spec_Action := mkspec_Action "" "" "" id id "img" "" [] [] [] (mkNamespaces "" "") 0 0 0 0 "".
Let file : Transport := mkTransport 0 (SLoop [action "a"; action "b"]) RIdle [] [].

Example file_stops_ex :
  (t_read <$> trun false [EvRead; EvSender; EvMeet; EvSender; EvResult StateFailure; EvPublish true; EvRead] file) = Some [action "a"] ∧
  (t ← trun false [EvRead; EvSender; EvMeet; EvSender; EvResult StateFailure; EvPublish true; EvRead] file; tstep false EvMeet t) = None.
Proof. by vm_compute. Qed.
Example file_race :
  (t_read <$> trun false [EvRead; EvSender; EvMeet; EvResult StateFailure; EvPublish true; EvSender; EvRead; EvMeet] file) = Some [action "a"; action "b"].
Proof. by vm_compute. Qed.
End Race.

(** ** Messages *)

(** With NATS the actions behind a failed one of the same message are never read:
    while the agent waits in [cancel] the sender can only give them up. *)
Definition batch_of (s : sender) : list spec_Action :=
  match s with SLoop l => l | SSelect _ a rest => a :: rest | _ => [] end.

Lemma cancelling_step e t t' a st :
  t_reader t = RCancelling a st → tstep true e t = Some t' →
  t_read t' = t_read t ∧ t_published t' = t_published t ∧
  ((t_reader t' = RCancelling a st ∧ (batch_of (t_sender t') = batch_of (t_sender t) ∨ t_sender t = SWait)) ∨
   (e = EvCancel ∧ t_reader t' = RPublishing a st ∧ t_sender t' = SWait)).
Proof.
  intros Hr. unfold tstep. rewrite Hr. destruct e as [batch| | | |state| |[]]; destruct (t_sender t) as [|[|b l]|ch b l|] eqn:Es; try done;
    intros [= <-]; simpl; rewrite ?Hr, ?Es; (split_and!; [done|done|]); auto.
Qed.

(** While the failure of an action is not taken from the agent nothing is read and
    nothing is published, its own failure included: a message must come in first,
    and none of its actions is run. *)
Theorem nats_failure_waits es t t' a st :
  t_reader t = RCancelling a st → trun true es t = Some t' → EvCancel ∉ es →
  t_read t' = t_read t ∧ t_published t' = t_published t ∧ t_reader t' = RCancelling a st.
Proof.
  revert t. induction es as [|e es IH]; intros t Hr; cbn [trun]; [by intros [= <-]|].
  destruct (tstep true e t) as [t1|] eqn:E; [|done]. simpl. intros Ht Hn. apply cancelling_step with (a := a) (st := st) in E as (E1 & E2 & E3); [|done].
  rewrite elem_of_cons in Hn. destruct E3 as [[E3 _]|(-> & _)]; [|tauto].
  destruct (IH t1 E3 Ht) as (I1 & I2 & I3); [tauto|]. by rewrite I1, I2.
Qed.

(** When the last action of a message fails, the agent is stuck in the report of
    it until another message comes, and that message is dropped. *)
Theorem nats_next_message_dropped t a st batch b rest :
  t_reader t = RCancelling a st → t_sender t = SLoop [] → batch = b :: rest →
  (∀ e t', tstep true EvSender t = Some t' → tstep true e t' ≠ None → ∃ m, e = EvMessage m) ∧
  ∃ t', trun true [EvSender; EvMessage batch; EvSender; EvCancel; EvPublish true] t = Some t' ∧
    t_sender t' = SWait ∧ t_reader t' = RIdle ∧ t_read t' = t_read t ∧ t_published t' = t_published t ++ [(a, st)].
Proof.
  intros Hr Hs ->. split.
  - intros e t'. unfold tstep at 1. rewrite Hs. intros [= <-]. unfold tstep. simpl. rewrite Hr. destruct e as [m| | | |state| |[]]; try done. eauto.
  - destruct t as [ch s r rd pb]. simpl in *. subst. eexists. split; [reflexivity|done].
Qed.

(** ** Order *)

(** What is read is a part of what was sent, in its order: the rest of the batch
    on offer is a suffix of the message, and only its first action can be read. *)
Fixpoint messages (es : list tevent) : list (list spec_Action) :=
  match es with
  | [] => []
  | EvMessage b :: es => b :: messages es
  | _ :: es => messages es
  end.

Lemma tstep_order nats e t t' sent :
  tstep nats e t = Some t' → t_read t ++ batch_of (t_sender t) `sublist_of` sent →
  t_read t' ++ batch_of (t_sender t') `sublist_of` sent ++ concat (messages [e]).
Proof.
  unfold tstep, Write_result. intros Ht Hs. destruct e as [batch| | | |state| |[]]; destruct (t_sender t) as [|[|b l]|ch b l|] eqn:Es;
    destruct (t_reader t) as [|ch'|c|c st|c st] eqn:Er; try done; repeat case_match; simplify_eq/=; rewrite ?app_nil_r in *; try done; rewrite ?Es; try done.
  all: try (rewrite ?app_nil_r; apply sublist_app; done).
  all: try (by rewrite <- (assoc_L (++))).
  all: try (simpl; by rewrite ?app_nil_r).
  all: etrans; [|exact Hs]; apply sublist_inserts_r; done.
Qed.

(** The actions read are among those sent, each at most as often and in the order
    they were sent. *)
Theorem transport_order nats es t : trun nats es tinit = Some t → t_read t `sublist_of` concat (messages es).
Proof.
  assert (∀ es t sent, t_read t ++ batch_of (t_sender t) `sublist_of` sent → ∀ t', trun nats es t = Some t' →
    t_read t' ++ batch_of (t_sender t') `sublist_of` sent ++ concat (messages es)) as Hg.
  { clear. induction es as [|e es IH]; intros t sent Hs t'; cbn [trun]; [intros [= <-]; by rewrite app_nil_r|].
    destruct (tstep nats e t) as [t1|] eqn:E; [|done]. cbn [mbind option_bind]. intros Ht. eapply tstep_order in E; [|exact Hs]. eapply IH in Ht; [|exact E].
    replace (sent ++ concat (messages (e :: es))) with ((sent ++ concat (messages [e])) ++ concat (messages es)); [exact Ht|].
    rewrite <- (assoc_L (++)). f_equal. destruct e; simpl; by rewrite ?app_nil_r. }
  intros Ht. eapply (Hg es tinit []) in Ht; [|done]. etrans; [|exact Ht]. by apply sublist_inserts_r.
Qed.

(** While no failure is given up to, every action sent is read or on offer. *)
Theorem transport_complete nats es t :
  trun nats es tinit = Some t → EvCancel ∉ es → t_read t ++ batch_of (t_sender t) = concat (messages es).
Proof.
  assert (∀ es t sent, t_read t ++ batch_of (t_sender t) = sent → ∀ t', trun nats es t = Some t' → EvCancel ∉ es →
    t_read t' ++ batch_of (t_sender t') = sent ++ concat (messages es)) as Hg; [|intros Ht Hn; by apply (Hg es tinit [])].
  clear. induction es as [|e es IH]; intros t sent Hs t'; cbn [trun]; [intros [= <-]; by rewrite app_nil_r|].
  destruct (tstep nats e t) as [t1|] eqn:E; [|done]. cbn [mbind option_bind]. rewrite elem_of_cons. intros Ht Hn.
  replace (sent ++ concat (messages (e :: es))) with ((sent ++ concat (messages [e])) ++ concat (messages es))
    by (rewrite <- (assoc_L (++)); f_equal; destruct e; simpl; by rewrite ?app_nil_r).
  apply (IH t1); [|done|tauto]. subst sent. clear Ht IH. unfold tstep, Write_result in E.
  destruct e as [batch| | | |state| |[]]; destruct (t_sender t) as [|[|b l]|ch b l|] eqn:Es;
    destruct (t_reader t) as [|ch'|c|c st|c st] eqn:Er; try done; repeat case_match; simplify_eq/=; rewrite ?app_nil_r in *; try done; rewrite ?Es; try done.
  all: try (by rewrite <- (assoc_L (++))).
  all: try (simpl; by rewrite ?app_nil_r).
  all: tauto.
Qed.
