(* ===== verification/Discovery.v ===== *)
(** * The hardware discovery of the agent

    tink/agent/internal/attribute/attribute.go: what the library ghw reports of a
    machine as the attributes the agent sends. Each function is given the answer
    of the library, an error or a pointer that may be nil. *)
From S2P Require Import Prelude GoStrings Float64 Attributes.
Local Open Scope Z_scope.

(** ** What ghw reports *)

Record ghw_Processor := mkghw_Processor {
  gp_ID : Z; gp_TotalCores : Z; gp_TotalHardwareThreads : Z; gp_Vendor : string; gp_Model : string; gp_Capabilities : list string }.
Record ghw_CPU := mkghw_CPU { gc_TotalCores : Z; gc_TotalHardwareThreads : Z; gc_Processors : list (option ghw_Processor) }.
Record ghw_Memory := mkghw_Memory { gm_TotalPhysicalBytes : Z; gm_TotalUsableBytes : Z }.
Record ghw_Disk := mkghw_Disk {
  gd_Name : string; gd_StorageController : string; gd_DriveType : string; gd_SizeBytes : Z; gd_PhysicalBlockSizeBytes : Z;
  gd_Vendor : string; gd_Model : string; gd_WWN : string; gd_SerialNumber : string }.
Record ghw_NIC := mkghw_NIC { gn_Name : string; gn_MACAddress : string; gn_Speed : string; gn_Capabilities : list (string * bool) }.
Record ghw_PCIDevice := mkghw_PCIDevice { gpd_Vendor : option string; gpd_Product : option string; gpd_Class : option string; gpd_Driver : string }.
Record ghw_Chassis := mkghw_Chassis { gch_SerialNumber : string; gch_Vendor : string }.
Record ghw_BIOS := mkghw_BIOS { gb_Vendor : string; gb_Version : string; gb_Date : string }.
Record ghw_Baseboard := mkghw_Baseboard { gbb_Vendor : string; gbb_Product : string; gbb_Version : string; gbb_SerialNumber : string }.
Record ghw_Product := mkghw_Product { gpr_Name : string; gpr_Vendor : string; gpr_SerialNumber : string }.

Definition StorageControllerLoop : string := "loop".
Definition StorageControllerUnknown : string := "Unknown".

(** ** Sizes *)

Definition kb : Z := 1024.
Definition mb : Z := kb * 1024.
Definition gb : Z := mb * 1024.
Definition tb : Z := gb * 1024.
Definition pb : Z := tb * 1024.
Definition eb : Z := pb * 1024.

Definition amountString (size : Z) : Z * string :=
  if decide (size < kb) then (1, "B")
  else if decide (size < mb) then (kb, "KB")
  else if decide (size < gb) then (mb, "MB")
  else if decide (size < tb) then (gb, "GB")
  else if decide (size < pb) then (tb, "TB")
  else if decide (size < eb) then (pb, "PB")
  else (eb, "EB").

Section Discover.
(** The conversion to [int64] of a float that does not fit is left to the implementation. *)
Context (int_of_big : Z).

Definition humanReadable (byts : Z) : string :=
  if decide (0 < byts) then
    let '(unit, unitString) := amountString (wrap64 byts) in
    let c := float_ceil (float_div (float_of_int byts) (float_of_int unit)) in
    let tpb := if decide (min_int64 ≤ c ≤ max_int64) then c else int_of_big in
    Itoa (if decide (tpb < 0) then 0 else tpb) +:+ unitString
  else "".

(** ** The parts of a machine *)

Definition uint32_or_zero (z : Z) : Z := if decide (0 ≤ z < 2 ^ 32) then z else 0.

Definition processor_of (p : ghw_Processor) : data_Processor :=
  mkdata_Processor (Some (uint32_or_zero (gp_ID p))) (Some (gp_TotalCores p)) (Some (gp_TotalHardwareThreads p)) (Some (gp_Vendor p))
    (Some (gp_Model p)) (gp_Capabilities p).

(** An answer that is an error gives nothing, a nil pointer the zero value. *)
Definition discover {A B} (zero : B) (f : A → B) (r : res (option A)) : option B :=
  match r with
  | inl _ => None
  | inr None => Some zero
  | inr (Some a) => Some (f a)
  end.

Definition DiscoverCPU : res (option ghw_CPU) → option data_CPU :=
  discover (mkdata_CPU None None []) (λ cpu,
    mkdata_CPU (Some (gc_TotalCores cpu)) (Some (gc_TotalHardwareThreads cpu)) (omap (fmap processor_of) (gc_Processors cpu))).

Definition DiscoverMemory : res (option ghw_Memory) → option data_Memory :=
  discover (mkdata_Memory None None) (λ m,
    mkdata_Memory (Some (humanReadable (gm_TotalPhysicalBytes m))) (Some (humanReadable (gm_TotalUsableBytes m)))).

Definition block_of (d : ghw_Disk) : option data_Block :=
  if decide (gd_StorageController d ≠ StorageControllerLoop ∧ gd_StorageController d ≠ StorageControllerUnknown) then
    Some (mkdata_Block (Some (gd_Name d)) (Some (gd_StorageController d)) (Some (gd_DriveType d)) (Some (humanReadable (gd_SizeBytes d)))
      (Some (humanReadable (gd_PhysicalBlockSizeBytes d))) (Some (gd_Vendor d)) (Some (gd_Model d)) (Some (gd_WWN d)) (Some (gd_SerialNumber d)))
  else None.

(** The lists: the devices of an answer that are not nil and that [f] keeps. *)
Definition devices {A B} (f : A → option B) (r : res (list (option A))) : list B :=
  match r with inl _ => [] | inr l => omap (λ d, d ≫= f) l end.

Definition DiscoverBlockDevices : res (list (option ghw_Disk)) → list data_Block := devices block_of.

Definition network_of (n : ghw_NIC) : data_Network :=
  mkdata_Network (Some (gn_Name n)) (Some (gn_MACAddress n)) (Some (gn_Speed n)) (omap (λ c : string * bool, if c.2 then Some c.1 else None) (gn_Capabilities n)).
Definition DiscoverNetworks : res (list (option ghw_NIC)) → list data_Network := devices (λ n, Some (network_of n)).

Definition driver_of (s : string) : option string := if decide (s = "") then None else Some s.
Definition value_found (d : ghw_PCIDevice) : bool :=
  bool_decide (is_Some (gpd_Vendor d)) || bool_decide (is_Some (gpd_Product d)) || bool_decide (is_Some (gpd_Class d)) || bool_decide (gpd_Driver d ≠ "").
Definition pci_of (d : ghw_PCIDevice) : option data_PCI :=
  if value_found d then Some (mkdata_PCI (gpd_Vendor d) (gpd_Product d) (gpd_Class d) (driver_of (gpd_Driver d))) else None.
Definition DiscoverPCI : res (list (option ghw_PCIDevice)) → list data_PCI := devices pci_of.

Definition gpu_of (d : ghw_PCIDevice) : option data_GPU :=
  if value_found d then Some (mkdata_GPU (gpd_Vendor d) (gpd_Product d) (gpd_Class d) (driver_of (gpd_Driver d))) else None.
(** A graphics card may have no device information. *)
Definition DiscoverGPU : res (list (option (option ghw_PCIDevice))) → list data_GPU := devices (λ info, info ≫= gpu_of).

Definition DiscoverChassis : res (option ghw_Chassis) → option data_Chassis :=
  discover (mkdata_Chassis None None) (λ c, mkdata_Chassis (Some (gch_SerialNumber c)) (Some (gch_Vendor c))).
Definition DiscoverBIOS : res (option ghw_BIOS) → option data_BIOS :=
  discover (mkdata_BIOS None None None) (λ b, mkdata_BIOS (Some (gb_Vendor b)) (Some (gb_Version b)) (Some (gb_Date b))).
Definition DiscoverBaseboard : res (option ghw_Baseboard) → option data_Baseboard :=
  discover (mkdata_Baseboard None None None None) (λ b,
    mkdata_Baseboard (Some (gbb_Vendor b)) (Some (gbb_Product b)) (Some (gbb_Version b)) (Some (gbb_SerialNumber b))).
Definition DiscoverProduct : res (option ghw_Product) → option data_Product :=
  discover (mkdata_Product None None None) (λ p, mkdata_Product (Some (gpr_Name p)) (Some (gpr_Vendor p)) (Some (gpr_SerialNumber p))).

(** What the library answers on one machine. *)
Record ghw_Host := mkghw_Host {
  gh_CPU : res (option ghw_CPU); gh_Memory : res (option ghw_Memory); gh_Block : res (list (option ghw_Disk));
  gh_Network : res (list (option ghw_NIC)); gh_PCI : res (list (option ghw_PCIDevice)); gh_GPU : res (list (option (option ghw_PCIDevice)));
  gh_Chassis : res (option ghw_Chassis); gh_BIOS : res (option ghw_BIOS); gh_Baseboard : res (option ghw_Baseboard); gh_Product : res (option ghw_Product) }.

Definition DiscoverAll (h : ghw_Host) : AgentAttributes := {|
  attr_CPU := DiscoverCPU (gh_CPU h);
  attr_Memory := DiscoverMemory (gh_Memory h);
  attr_BlockDevices := DiscoverBlockDevices (gh_Block h);
  attr_NetworkInterfaces := DiscoverNetworks (gh_Network h);
  attr_PCIDevices := DiscoverPCI (gh_PCI h);
  attr_GPUDevices := DiscoverGPU (gh_GPU h);
  attr_Chassis := DiscoverChassis (gh_Chassis h);
  attr_BIOS := DiscoverBIOS (gh_BIOS h);
  attr_Baseboard := DiscoverBaseboard (gh_Baseboard h);
  attr_Product := DiscoverProduct (gh_Product h);
|}.

(** ** Sizes read back *)

Lemma amountString_unit n : 0 < n →
  let '(u, s) := amountString n in (u = 1 ∧ n < 1024 ∨ 1024 ≤ u ∧ u ≤ n) ∧ (n < eb → n < 1024 * u) ∧ 0 < u.
Proof. intros Hn. unfold amountString, eb, pb, tb, gb, mb, kb. repeat case_decide; lia. Qed.

(** Up to four pebibytes the number is the size in its unit, rounded up: at least
    1, at most 1024, and the size lies in the last unit counted. *)
Theorem humanReadable_exact n :
  0 < n < 2 ^ 52 →
  ∃ v u s, amountString n = (u, s) ∧ humanReadable n = Itoa v +:+ s ∧ (v - 1) * u < n ≤ v * u ∧ 1 ≤ v ≤ 1024.
Proof.
  intros Hn. unfold humanReadable. rewrite decide_True by lia.
  rewrite wrap64_id by (unfold int64, min_int64, max_int64; lia).
  pose proof (amountString_unit n ltac:(lia)) as Hu. destruct (amountString n) as [u s] eqn:Ea. destruct Hu as (Hcase & Hlt & Hpos).
  assert (n < 1024 * u) as Hlt' by (apply Hlt; unfold eb, pb, tb, gb, mb, kb; lia).
  rewrite float_ceil_exact by lia. set (v := - (- n / u)).
  assert ((v - 1) * u < n ≤ v * u) as Hv.
  { unfold v. pose proof (Z.div_mod (- n) u ltac:(lia)) as E. pose proof (Z.mod_pos_bound (- n) u Hpos) as E2.
    generalize dependent ((- n) / u). generalize dependent ((- n) mod u). clear. intros r Hr q Hq. nia. }
  assert (1 ≤ v ≤ 1024) as Hv'.
  { clearbody v. clear -Hv Hlt' Hpos Hn. split.
    - assert (0 < v); [|lia]. apply (Z.mul_lt_mono_pos_r u); lia.
    - assert (v - 1 < 1024); [|lia]. apply (Z.mul_lt_mono_pos_r u); lia. }
  exists v, u, s. rewrite !(decide_True (P := min_int64 ≤ v ≤ max_int64)) by (unfold min_int64, max_int64; lia).
  by rewrite decide_False by lia.
Qed.

(** What the server is told of the disks: no loop device and none it knows nothing of. *)
Theorem disks_reported r b :
  b ∈ DiscoverBlockDevices r → ∃ l d, r = inr l ∧ Some d ∈ l ∧ gd_StorageController d ≠ StorageControllerLoop ∧
    gd_StorageController d ≠ StorageControllerUnknown ∧ blk_Name b = Some (gd_Name d) ∧ blk_Size b = Some (humanReadable (gd_SizeBytes d)).
Proof.
  unfold DiscoverBlockDevices, devices. destruct r as [e|l]; [by intros ?%not_elem_of_nil|].
  intros ([d|] & Hd & E)%list_elem_of_omap; [|done]. simpl in E. unfold block_of in E. case_decide as H; [|done]. injection E as <-.
  exists l, d. destruct H. done.
Qed.
End Discover.

Example humanReadable_ex :
  humanReadable 0 512 = "512B" ∧ humanReadable 0 1024 = "1KB" ∧ humanReadable 0 (1024 * 1024 - 1) = "1024KB" ∧ humanReadable 0 500107862016 = "466GB".
Proof. vm_compute. done. Qed.
