(* ===== verification/Flags.v ===== *)
(** * Command-line flag values

    pkg/flag/netip/netip.go, pkg/flag/delimitedlist/delimitedlist.go and
    pkg/flag/url/url.go. A flag's target is a pointer: [None] is the nil one,
    [Set] returns the error and the target afterwards. *)
From S2P Require Import Prelude GoStrings GoStrconv GoNet GoNetip Tootles HttpCommon.

(** ** netip.ParseAddrPort and netip.ParsePrefix *)

(** [strconv.ParseUint(s, 10, 16)]. *)
Definition ParseUint16 (l : list ascii) : option Z :=
  match ParseUint l with (n, None) => if decide (n ≤ 65535)%Z then Some n else None | _ => None end.

Definition addrport_error (s msg : string) : error := ErrNew ("invalid ip:port " +:+ dquote s +:+ ", " +:+ msg).

Definition ParseAddrPort (s : string) : res AddrPort :=
  let l := bytes_of s in
  match LastIndexByte colon l with
  | None => inl (ErrNew "not an ip:port")
  | Some i =>
      let '(ip, port) := (take i l, drop (i + 1) l) in
      if decide (ip = []) then inl (ErrNew "no IP")
      else if decide (port = []) then inl (ErrNew "no port")
      else
        let v6 := bool_decide (head ip = Some lbracket) in
        if v6 && bool_decide (length ip < 2 ∨ last ip ≠ Some rbracket) then inl (ErrNew "missing ]")
        else
          let ip := if v6 then take (length ip - 2) (drop 1 ip) else ip in
          match ParseUint16 port with
          | None => inl (addrport_error s "invalid port")
          | Some p =>
              match ParseAddr (of_bytes ip) with
              | inl e => inl e
              | inr a =>
                  if v6 && Is4 a then inl (addrport_error s "square brackets can only be used with IPv6 addresses")
                  else if negb v6 && Is6 a then inl (addrport_error s "IPv6 addresses must be surrounded by square brackets")
                  else inr (mkAddrPort a p)
              end
          end
  end.

Record Prefix := mkPrefix { pf_Addr : Addr; pf_Bits : Z }.

Definition prefix_error (s msg : string) : error := ErrNew ("netip.ParsePrefix(" +:+ dquote s +:+ "): " +:+ msg).

Definition ParsePrefix (s : string) : res Prefix :=
  let l := bytes_of s in
  match LastIndexByte "/"%char l with
  | None => inl (prefix_error s "no '/'")
  | Some i =>
      match ParseAddr (of_bytes (take i l)) with
      | inl e => inl e
      | inr a =>
          let bitsStr := drop (i + 1) l in
          if decide (Is6 a = true ∧ Addr_Zone a ≠ "") then inl (prefix_error s "IPv6 zones cannot be present in a prefix")
          else if decide (1 < length bitsStr ∧ head bitsStr ≠ None ∧ negb (ascii_between "1"%char "9"%char (default "0"%char (head bitsStr))) = true)
          then inl (prefix_error s "bad bits after slash")
          else
            let '(bits, err) := Atoi (of_bytes bitsStr) in
            if err then inl (prefix_error s "bad bits after slash")
            else if decide (bits < 0 ∨ BitLen a < bits)%Z then inl (prefix_error s "prefix length out of range")
            else inr (mkPrefix a bits)
      end
  end.

Definition Prefix_IsValid (p : Prefix) : bool := IsValid (pf_Addr p) && bool_decide (0 ≤ pf_Bits p ≤ BitLen (pf_Addr p))%Z.
Definition Prefix_String (p : Prefix) : string :=
  if Prefix_IsValid p then Addr_String (pf_Addr p) +:+ "/" +:+ Itoa (pf_Bits p) else "invalid Prefix".

(** ** pkg/flag/netip *)

Definition AddrPort_Set (a : option AddrPort) (s : string) : option error * option AddrPort :=
  match a with
  | None => (Some (ErrNew "AddrPort is nil"), a)
  | Some _ =>
      if decide (s = "") then (None, a)
      else
        match ParseAddrPort (TrimSpace s) with
        | inl e => (Some (ErrNew ("failed to parse Addr:Port: " +:+ dquote s +:+ ": err: " +:+ error_msg e)), a)
        | inr v => if IsValid (ap_Addr v) then (None, Some v)
                   else (Some (ErrNew ("failed to parse Addr:Port: " +:+ dquote s +:+ ": err: <nil>")), a)
        end
  end.
Definition AddrPort_Reset (a : option AddrPort) : option error * option AddrPort :=
  match a with None => (Some (ErrNew "AddrPort is nil"), None) | Some _ => (None, Some (mkAddrPort AddrNone 0)) end.
Definition AddrPort_flag_String (a : option AddrPort) : string :=
  match a with Some v => if IsValid (ap_Addr v) then AddrPort_String v else "" | None => "" end.

Definition Addr_Set (a : option Addr) (s : string) : option error * option Addr :=
  match a with
  | None => (Some (ErrNew "Addr is nil"), a)
  | Some _ =>
      if decide (s = "") then (None, a)
      else
        match ParseAddr s with
        | inr v => if IsValid v then (None, Some v) else (Some (ErrNew ("failed to parse Address: " +:+ dquote s)), a)
        | inl _ => (Some (ErrNew ("failed to parse Address: " +:+ dquote s)), a)
        end
  end.
Definition Addr_Reset (a : option Addr) : option error * option Addr :=
  match a with None => (Some (ErrNew "Addr is nil"), None) | Some _ => (None, Some AddrNone) end.
Definition Addr_flag_String (a : option Addr) : string :=
  match a with Some v => if IsValid v then Addr_String v else "" | None => "" end.

Definition prefix_flag_error (s : string) : error := ErrNew ("failed to parse Prefix: " +:+ dquote s).

Definition Prefix_Set (p : option Prefix) (s : string) : option error * option Prefix :=
  match p with
  | None => (Some (ErrNew "Prefix is nil"), p)
  | Some _ =>
      if decide (s = "") then (None, p)
      else
        match ParsePrefix s with
        | inr v => if Prefix_IsValid v then (None, Some v) else (Some (prefix_flag_error s), p)
        | inl _ => (Some (prefix_flag_error s), p)
        end
  end.
Definition Prefix_Reset (p : option Prefix) : option error * option Prefix :=
  match p with None => (Some (ErrNew "Prefix is nil"), None) | Some _ => (None, Some (mkPrefix AddrNone 0)) end.
Definition Prefix_flag_String (p : option Prefix) : string :=
  match p with Some v => if Prefix_IsValid v then Prefix_String v else "" | None => "" end.

(** The loop of [PrefixList.Set]: the prefixes, or the text that is none. *)
Fixpoint parse_prefixes (l : list string) : string + list Prefix :=
  match l with
  | [] => inr []
  | s :: rest =>
      match ParsePrefix s with
      | inr v => if Prefix_IsValid v then match parse_prefixes rest with inl e => inl e | inr r => inr (v :: r) end else inl s
      | inl _ => inl s
      end
  end.
Definition PrefixList_Set (p : option (list Prefix)) (s : string) : option error * option (list Prefix) :=
  match p with
  | None => (Some (ErrNew "PrefixList is nil"), p)
  | Some _ =>
      if decide (s = "") then (None, p)
      else
        match parse_prefixes (Split s ","%char) with
        | inl bad => (Some (prefix_flag_error bad), p)
        | inr results => (None, Some results)
        end
  end.
Definition PrefixList_Reset (p : option (list Prefix)) : option error * option (list Prefix) :=
  match p with None => (Some (ErrNew "PrefixList is nil"), None) | Some _ => (None, Some []) end.
Definition prefixesToStrings (p : option (list Prefix)) : list string := match p with Some l => Prefix_String <$> l | None => [] end.
Definition PrefixList_String (p : option (list Prefix)) : string := Join (prefixesToStrings p) ",".

(** ** pkg/flag/delimitedlist *)

(** [strings.FieldsFunc]: the parts between delimiters that are not empty. *)
Definition FieldsFunc (d : ascii) (s : string) : list string := filter (λ f, f ≠ "") (Split s d).
Definition delimited_Set (d : ascii) (target : list string) (s : string) : list string := target ++ FieldsFunc d s.
Definition delimited_String (d : ascii) (target : option (list string)) : string :=
  match target with Some l => Join l (String d "") | None => "" end.

(** ** pkg/flag/url *)

Section UrlFlag.
Context {URL : Type} (valid_http_url : string → bool) (url_Parse : string → res URL) (url_String : URL → string) (zero_URL : URL).

Definition url_Set (u : URL) (s : string) : option error * URL :=
  if decide (s = "") then (None, u)
  else if negb (valid_http_url s) then (Some (ErrNew ("invalid URL: " +:+ dquote s)), u)
  else match url_Parse s with
       | inl _ => (Some (ErrNew ("failed to parse URL: " +:+ dquote s)), u)
       | inr v => (None, v)
       end.
Definition url_flag_String (u : option URL) : string := match u with Some u => url_String u | None => "" end.
Definition url_Reset (u : URL) : URL := zero_URL.
End UrlFlag.

(** ** Splitting what was joined *)

Lemma split_on_sep sep a t cur : sep ∉ a → split_on sep (a ++ sep :: t) cur = (cur ++ a) :: split_on sep t [].
Proof.
  revert cur. induction a as [|c a IH]; intros cur Ha; simpl.
  - by rewrite decide_True, app_nil_r.
  - rewrite decide_False by set_solver. rewrite IH by set_solver. by rewrite <- (assoc (++)).
Qed.

Lemma split_on_none sep a cur : sep ∉ a → split_on sep a cur = [cur ++ a].
Proof.
  revert cur. induction a as [|c a IH]; intros cur Ha; simpl; [by rewrite app_nil_r|].
  rewrite decide_False by set_solver. rewrite IH by set_solver. by rewrite <- (assoc (++)).
Qed.

Lemma Split_Join_sep sep l : l ≠ [] → Forall (λ s, sep ∉ bytes_of s) l → Split (Join l (String sep "")) sep = l.
Proof.
  intros Hne HF. unfold Split. induction HF as [|s l Hs HF IH]; [done|]. destruct l as [|t l].
  - simpl Join. rewrite split_on_none by done. simpl. by rewrite of_bytes_bytes_of.
  - change (Join (s :: t :: l) (String sep "")) with (s +:+ String sep "" +:+ Join (t :: l) (String sep "")).
    rewrite !bytes_of_app. change (bytes_of (String sep "")) with [sep]. cbn [app]. rewrite split_on_sep by done.
    cbn [app fmap list_fmap]. rewrite of_bytes_bytes_of. f_equal. by apply IH.
Qed.

(** A list of values without the delimiter is read back. *)
Theorem delimited_roundtrip d target l :
  l ≠ [] → Forall (λ s, s ≠ "" ∧ d ∉ bytes_of s) l → delimited_Set d target (delimited_String d (Some l)) = target ++ l.
Proof.
  intros Hne HF. unfold delimited_Set, delimited_String, FieldsFunc. f_equal.
  rewrite Split_Join_sep; [|done|by eapply Forall_impl; [exact HF|intros s [_ Hs]]].
  clear Hne. induction HF as [|s l [Hs _] _ IH]; [done|]. rewrite filter_cons, decide_True by done. by rewrite IH.
Qed.

(** ** Prefixes *)

Definition v4_prefix (p : Prefix) : Prop :=
  match pf_Addr p with Addr4 ip => length ip = 4 ∧ Forall octet ip ∧ (0 ≤ pf_Bits p ≤ 32)%Z | _ => False end.

Lemma bits_text n : (0 ≤ n ≤ 32)%Z →
  Atoi (Itoa n) = (n, false) ∧ "/"%char ∉ bytes_of (Itoa n) ∧ ","%char ∉ bytes_of (Itoa n) ∧
  ¬ (1 < length (bytes_of (Itoa n)) ∧ head (bytes_of (Itoa n)) ≠ None ∧
     negb (ascii_between "1"%char "9"%char (default "0"%char (head (bytes_of (Itoa n))))) = true).
Proof.
  intros Hn. assert (n ∈ Z.of_nat <$> seq 0 33) as Hin.
  { apply list_elem_of_fmap. exists (Z.to_nat n). split; [lia|apply elem_of_seq; lia]. }
  assert (Forall (λ n, Atoi (Itoa n) = (n, false) ∧ "/"%char ∉ bytes_of (Itoa n) ∧ ","%char ∉ bytes_of (Itoa n) ∧
    ¬ (1 < length (bytes_of (Itoa n)) ∧ head (bytes_of (Itoa n)) ≠ None ∧
     negb (ascii_between "1"%char "9"%char (default "0"%char (head (bytes_of (Itoa n))))) = true)) (Z.of_nat <$> seq 0 33)) as HF by by_decide.
  exact (proj1 (Forall_forall _ _) HF n Hin).
Qed.

Lemma v4_string_chars ip : length ip = 4 → Forall octet ip → "/"%char ∉ bytes_of (v4_string ip) ∧ ","%char ∉ bytes_of (v4_string ip).
Proof.
  intros Hl Ho. assert (ParseIP (v4_string ip) ≠ []) as Hp%ParseIP_chars by (by rewrite ParseIP_v4_string).
  split; intros Hc; by apply (proj1 (Forall_forall _ _) Hp) in Hc.
Qed.

Lemma ParsePrefix_v4 p : v4_prefix p → ParsePrefix (Prefix_String p) = inr p ∧ Prefix_IsValid p = true ∧ ","%char ∉ bytes_of (Prefix_String p).
Proof.
  destruct p as [[|ip|] n]; try done. unfold v4_prefix. simpl. intros (Hl & Ho & Hn).
  assert (Prefix_IsValid (mkPrefix (Addr4 ip) n) = true) as Hv.
  { unfold Prefix_IsValid. simpl. by rewrite bool_decide_eq_true_2. }
  unfold Prefix_String. rewrite Hv. cbn [pf_Addr pf_Bits Addr_String].
  destruct (bits_text n Hn) as (E1 & E2 & E3 & E4). destruct (v4_string_chars ip Hl Ho) as [C1 C2]. split_and!; [|done|].
  - unfold ParsePrefix. rewrite !bytes_of_app. change (bytes_of "/") with ["/"%char]. cbn [app].
    rewrite LastIndexByte_app by done. rewrite take_app_length, of_bytes_bytes_of, ParseAddr_v4_string by done.
    replace (drop (length (bytes_of (v4_string ip)) + 1) (bytes_of (v4_string ip) ++ "/"%char :: bytes_of (Itoa n))) with (bytes_of (Itoa n)).
    + cbn [Is6 Addr_Zone BitLen]. rewrite decide_False by (intros [? _]; done). rewrite decide_False by exact E4. rewrite of_bytes_bytes_of, E1.
      by rewrite decide_False by lia.
    + replace (bytes_of (v4_string ip) ++ "/"%char :: bytes_of (Itoa n)) with ((bytes_of (v4_string ip) ++ ["/"%char]) ++ bytes_of (Itoa n)) by (by rewrite <- (assoc (++))).
      replace (length (bytes_of (v4_string ip)) + 1) with (length (bytes_of (v4_string ip) ++ ["/"%char])) by (rewrite length_app; simpl; lia).
      by rewrite drop_app_length.
  - rewrite !bytes_of_app, !elem_of_app. intros [?|[Hc|?]]; [done| |done]. by apply list_elem_of_singleton in Hc.
Qed.

(** The text of a list of IPv4 prefixes sets the flag to that list. *)
Theorem PrefixList_roundtrip old l :
  l ≠ [] → Forall v4_prefix l → PrefixList_Set (Some old) (PrefixList_String (Some l)) = (None, Some l).
Proof.
  intros Hne HF. unfold PrefixList_Set, PrefixList_String, prefixesToStrings.
  assert (Split (Join (Prefix_String <$> l) ",") ","%char = Prefix_String <$> l) as Es.
  { apply Split_Join_sep; [by destruct l|]. apply Forall_fmap. eapply Forall_impl; [exact HF|]. intros p Hp. by apply ParsePrefix_v4. }
  rewrite decide_False.
  2:{ intros E. rewrite E in Es. destruct l as [|p [|]]; try done. simpl in Es. inversion HF as [|? ? Hp _]; subst.
      destruct (ParsePrefix_v4 p Hp) as (E1 & _ & _). injection Es as Es'. rewrite <- Es' in E1. done. }
  rewrite Es. assert (parse_prefixes (Prefix_String <$> l) = inr l) as ->; [|done].
  clear Hne Es. induction HF as [|p l Hp _ IH]; [done|]. cbn [fmap list_fmap parse_prefixes].
  destruct (ParsePrefix_v4 p Hp) as (E1 & E2 & _). by rewrite E1, E2, IH.
Qed.

(** A text that cannot be read leaves a flag as it was, and a flag is only ever
    set to a valid value. *)
Theorem flags_all_or_nothing :
  (∀ a s e a', AddrPort_Set a s = (Some e, a') → a' = a) ∧
  (∀ a s e a', Addr_Set a s = (Some e, a') → a' = a) ∧
  (∀ p s e p', Prefix_Set p s = (Some e, p') → p' = p) ∧
  (∀ p s e p', PrefixList_Set p s = (Some e, p') → p' = p) ∧
  (∀ p s l, s ≠ "" → PrefixList_Set p s = (None, Some l) → Forall (λ v, Prefix_IsValid v = true) l ∧ length l = length (Split s ","%char)).
Proof.
  split_and!.
  - intros a s e a'. unfold AddrPort_Set. repeat case_match; congruence.
  - intros a s e a'. unfold Addr_Set. repeat case_match; congruence.
  - intros p s e p'. unfold Prefix_Set. repeat case_match; congruence.
  - intros p s e p'. unfold PrefixList_Set. repeat case_match; congruence.
  - intros p s l Hs. unfold PrefixList_Set. destruct p; [|done]. rewrite decide_False by done.
    destruct (parse_prefixes _) as [bad|r] eqn:E; [done|]. intros [= ->]. revert l E. induction (Split s ","%char) as [|x xs IH]; intros l; simpl.
    + intros [= <-]. by split.
    + destruct (ParsePrefix x) as [|v]; [done|]. destruct (Prefix_IsValid v) eqn:Ev; [|done].
      destruct (parse_prefixes xs) as [|r]; [done|]. intros [= <-]. destruct (IH r eq_refl). simpl. split; [by constructor|lia].
Qed.
