(* ===== verification/SmeeConfig.v ===== *)
(** * Smee: its configuration and its start

    smee/smee.go: the configuration with its defaults, the handlers made from it
    and the services [Start] runs. [mergo.Merge] is a parameter of [NewConfig];
    the fields of a [url.URL] are the class [UrlStruct]. *)
From S2P Require Import Prelude GoStrings GoPath GoNet GoNetip BmcTypes Api Dhcp DhcpConv DhcpHandler Backends Tootles IpxeScript GoHttp ReverseProxy Iso IpxeBinary.

(** ** The configuration *)

Definition DHCPModeProxy : string := "proxy".
Definition DHCPModeReservation : string := "reservation".
Definition DHCPModeAutoProxy : string := "auto-proxy".
Definition isoMagicString : string := "464vn90e7rbj08xbwdjejmdf4it17c5zfzjyfhthbh19eij201hjgit021bmpdb9ctrc87x2ymc8e7icu4ffi15x1hah9iyaiz38ckyap8hwx2vt5rm44ixv4hau8iw718q5yd019um5dt2xpqqa2rjtdypzr5v1gun8un110hhwp8cex7pqrh2ivh0ynpm4zkkwc8wcn367zyethzy7q8hzudyeyzx3cgmxqbkh825gcak7kxzjbgjajwizryv7ec1xm2h0hh7pz29qmvtgfjj1vphpgq1zcbiiehv52wrjy9yq473d9t1rvryy6929nk435hfx55du3ih05kn5tju3vijreru1p6knc988d4gfdz28eragvryq5x8aibe5trxd0t6t7jwxkde34v6pj1khmp50k6qqj3nzgcfzabtgqkmeqhdedbvwf3byfdma4nkv3rcxugaj2d0ru30pa2fqadjqrtjnv8bu52xzxv7irbhyvygygxu1nt5z4fh9w1vwbdcmagep26d298zknykf2e88kumt59ab7nq79d8amnhhvbexgh48e8qc61vq2e9qkihzt1twk1ijfgw70nwizai15iqyted2dt9gfmf2gg7amzufre79hwqkddc1cd935ywacnkrnak6r7xzcz7zbmq3kt04u2hg1iuupid8rt4nyrju51e6uejb2ruu36g9aibmz3hnmvazptu8x5tyxk820g2cdpxjdij766bt2n3djur7v623a2v44juyfgz80ekgfb9hkibpxh3zgknw8a34t4jifhf116x15cei9hwch0fye3xyq0acuym8uhitu5evc4rag3ui0fny3qg4kju7zkfyy8hwh537urd5uixkzwu5bdvafz4jmv7imypj543xg5em8jk8cgk7c4504xdd5e4e71ihaumt6u5u2t1w7um92fepzae8p0vq93wdrd1756npu1pziiur1payc7kmdwyxg3hj5n4phxbc29x0tcddamjrwt260b0w".

Definition DefaultPXEHTTPPathPrefix : string := "/tftp/".
Definition DefaultTFFTPPort : Z := 69.
Definition DefaultTFFTPBlockSize : Z := 512.
Definition DefaultTFFTPTimeout : Z := 10 * time_Second.
Definition DefaultDHCPPort : Z := 67.
Definition DefaultSyslogPort : Z := 514.
Definition DefaultTinkServerPort : Z := 42113.
Definition IPXEBinaryURI : string := "/ipxe/binary/".
Definition IPXEScriptURI : string := "/ipxe/script/".
Definition ISOURI : string := "/iso/".

(** [DHCPMode.Set]: the value after it, and the error. *)
Definition DHCPMode_Set (s d : string) : option error * string :=
  if decide (ToLower s ∈ [DHCPModeProxy; DHCPModeReservation; DHCPModeAutoProxy]) then (None, s)
  else (Some (ErrNew ("invalid DHCP mode: " +:+ dquote s +:+ ", must be one of [" +:+ DHCPModeReservation +:+ ", " +:+ DHCPModeProxy +:+ ", " +:+ DHCPModeAutoProxy +:+ "]")), d).

Record smee_Syslog := mksmee_Syslog { sy_BindAddr : Addr; sy_BindPort : Z; sy_Enabled : bool }.
Record smee_TFTP := mksmee_TFTP {
  tf_AssetDir : string; tf_BindAddr : Addr; tf_BindPort : Z; tf_BlockSize : Z; tf_SinglePort : bool; tf_Timeout : Z; tf_Enabled : bool }.
Record smee_PXEHTTP := mksmee_PXEHTTP { px_Enabled : bool; px_PathPrefix : string }.
Record smee_OTEL := mksmee_OTEL { ot_Endpoint : string; ot_InsecureEndpoint : bool }.
Record smee_TinkServer := mksmee_TinkServer { tk_UseTLS : bool; tk_InsecureTLS : bool; tk_AddrPort : string }.
Record IPXEHTTPBinary := mkIPXEHTTPBinary { ib_InjectMacAddrFormat : string; ib_IPXEArchMapping : gmap Z string }.

Section Config.
Context `{DhcpLib} `{UrlStruct}.

Record IPXEHTTPScriptServer := mkIPXEHTTPScriptServer {
  iss_Enabled : bool;
  iss_Retries : Z;
  iss_RetryDelay : Z;
  iss_OSIEURL : URL;
  iss_TrustedProxies : list string;
  iss_ExtraKernelArgs : list string;
  iss_KernelName : string;
  iss_InitrdName : string;
  iss_SyslogFQDN : string;
}.

Record smee_IPXE := mksmee_IPXE {
  ipx_EmbeddedScriptPatch : string;
  ipx_HTTPBinaryServer : bool;
  ipx_HTTPScriptServer : IPXEHTTPScriptServer;
  ipx_IPXEBinary : IPXEHTTPBinary;
}.

Record IPXEHTTPScript := mkIPXEHTTPScript { hs_URL : option URL; hs_InjectMacAddress : bool }.

Record smee_DHCPConfig := mksmee_DHCPConfig {
  dh_Enabled : bool;
  dh_EnableNetbootOptions : bool;
  dh_Mode : string;
  dh_BindAddr : Addr;
  dh_BindPort : Z;
  dh_BindInterface : string;
  dh_IPForPacket : Addr;
  dh_SyslogIP : Addr;
  dh_TFTPIP : Addr;
  dh_TFTPPort : Z;
  dh_IPXEHTTPBinaryURL : URL;
  dh_IPXEHTTPScript : IPXEHTTPScript;
}.

Record smee_ISO := mksmee_ISO { is_Enabled : bool; is_UpstreamURL : URL; is_PatchMagicString : string; is_StaticIPAMEnabled : bool }.

(** The backend is the class the handlers are written against; here it is only
    whether there is one. *)
Record smee_Config := mksmee_Config {
  sc_Backend : bool;
  sc_DHCP : smee_DHCPConfig;
  sc_IPXE : smee_IPXE;
  sc_ISO : smee_ISO;
  sc_OTEL : smee_OTEL;
  sc_PXEHTTP : smee_PXEHTTP;
  sc_Syslog : smee_Syslog;
  sc_TFTP : smee_TFTP;
  sc_TinkServer : smee_TinkServer;
}.

Definition smee_defaults : smee_Config := {|
  sc_Backend := false;
  sc_DHCP := {|
    dh_Enabled := true; dh_EnableNetbootOptions := true; dh_Mode := DHCPModeReservation; dh_BindAddr := Addr4 [0; 0; 0; 0]%Z;
    dh_BindPort := DefaultDHCPPort; dh_BindInterface := ""; dh_IPForPacket := AddrNone; dh_SyslogIP := AddrNone; dh_TFTPIP := AddrNone;
    dh_TFTPPort := DefaultTFFTPPort; dh_IPXEHTTPBinaryURL := url_fields "http" "" IPXEBinaryURI;
    dh_IPXEHTTPScript := mkIPXEHTTPScript (Some (url_fields "http" "" (path_Join [IPXEScriptURI; "auto.ipxe"]))) true |};
  sc_IPXE := mksmee_IPXE "" true (mkIPXEHTTPScriptServer true 1 1 (url_fields "" "" "") [] [] "" "" "") (mkIPXEHTTPBinary MacAddrFormatColon ∅);
  sc_ISO := mksmee_ISO false (url_fields "" "" "") "" false;
  sc_OTEL := mksmee_OTEL "" false;
  sc_PXEHTTP := mksmee_PXEHTTP false DefaultPXEHTTPPathPrefix;
  sc_Syslog := mksmee_Syslog AddrNone DefaultSyslogPort true;
  sc_TFTP := mksmee_TFTP "" AddrNone DefaultTFFTPPort DefaultTFFTPBlockSize true DefaultTFFTPTimeout true;
  sc_TinkServer := mksmee_TinkServer false false "";
|}.

(** [NewConfig]; [None] is the panic of a merge that fails. *)
Definition smee_NewConfig (mergo_Merge : smee_Config → smee_Config → res smee_Config) (c : smee_Config) : option smee_Config :=
  match mergo_Merge smee_defaults c with inl _ => None | inr c => Some c end.

(** [Transformer]: what a field of the destination becomes for the types it is
    asked for. *)
Definition transform_Addr (dst src : Addr) : Addr := if decide (src ≠ AddrNone) then src else dst.
Definition transform_int (dst src : Z) : Z := if decide (src ≠ 0%Z) then src else dst.

(** ** Handlers *)

Implicit Types (c : smee_Config).

Definition syslogHost c : string :=
  let fqdn := iss_SyslogFQDN (ipx_HTTPScriptServer (sc_IPXE c)) in
  if decide (fqdn ≠ "") then fqdn else Addr_String (dh_SyslogIP (sc_DHCP c)).

(** The patch of the binaries that are served. *)
Definition BinaryHandler c : option string :=
  if ipx_HTTPBinaryServer (sc_IPXE c) then Some (ipx_EmbeddedScriptPatch (sc_IPXE c)) else None.

(** The asset directory and the prefix. *)
Definition PXEHTTPHandler c : option (string * string) :=
  if px_Enabled (sc_PXEHTTP c) then Some (tf_AssetDir (sc_TFTP c), px_PathPrefix (sc_PXEHTTP c)) else None.

Definition smee_ScriptHandler c : option ScriptHandler :=
  let s := ipx_HTTPScriptServer (sc_IPXE c) in
  if iss_Enabled s then
    Some {|
      sh_OSIEURL := URL_String (iss_OSIEURL s);
      sh_ExtraKernelParams := iss_ExtraKernelArgs s;
      sh_PublicSyslogFQDN := syslogHost c;
      sh_TinkServerTLS := tk_UseTLS (sc_TinkServer c);
      sh_TinkServerInsecureTLS := tk_InsecureTLS (sc_TinkServer c);
      sh_TinkServerGRPCAddr := tk_AddrPort (sc_TinkServer c);
      sh_IPXEScriptRetries := iss_Retries s;
      sh_IPXEScriptRetryDelay := iss_RetryDelay s;
      sh_StaticIPXEEnabled := bool_decide (dh_Mode (sc_DHCP c) = DHCPModeAutoProxy);
      sh_KernelName := iss_KernelName s;
      sh_InitrdName := iss_InitrdName s;
    |}
  else None.

(** The handler of ISO images is the proxy [iso_proxy] of its patch and source. *)
Definition ISOHandler c : res (option (iso_Patch * URL)) :=
  if is_Enabled (sc_ISO c) then
    let p := {|
      ip_KernelParams := {|
        kp_ExtraParams := iss_ExtraKernelArgs (ipx_HTTPScriptServer (sc_IPXE c));
        kp_Syslog := syslogHost c;
        kp_TinkServerTLS := tk_UseTLS (sc_TinkServer c);
        kp_TinkServerGRPCAddr := tk_AddrPort (sc_TinkServer c) |};
      ip_MagicString := if decide (is_PatchMagicString (sc_ISO c) = "") then isoMagicString else is_PatchMagicString (sc_ISO c);
      ip_SourceISO := URL_String (is_UpstreamURL (sc_ISO c));
      ip_StaticIPAMEnabled := is_StaticIPAMEnabled (sc_ISO c) |} in
    match iso_source p with
    | inl e => inl (ErrWrap "failed to create iso handler: " e)
    | inr source => inr (Some (p, source))
    end
  else inr None.

(** ** Start *)

Inductive dhcp_server := ReservationServer (h : ReservationHandler) | ProxyServer (h : ProxyHandler).

(** The URL a packet is answered with. *)
Definition ipxeScript (s : IPXEHTTPScript) (u : URL) : DHCPv4 → option URL :=
  if hs_InjectMacAddress s then λ d, Some (set_Path (inject_mac (uf_Path u) (pk_ClientHWAddr d)) u) else λ _, Some u.

Definition dhcpHandler c : res dhcp_server :=
  let d := sc_DHCP c in
  let tftpIP := mkAddrPort (dh_TFTPIP d) (dh_TFTPPort d) in
  if negb (IsValid (ap_Addr tftpIP)) then
    inl (ErrNew ("invalid TFTP bind address: IP: " +:+ Addr_String (ap_Addr tftpIP) +:+ ", Port: " +:+ Itoa (ap_Port tftpIP)))
  else
    match hs_URL (dh_IPXEHTTPScript d) with
    | None => inl (ErrNew "http ipxe script url is required")
    | Some u =>
        match url_Parse (URL_String u) with
        | inl e => inl (ErrWrap "invalid http ipxe script url: " e)
        | inr _ =>
            let netboot := {|
              nc_IPXEBinServerTFTP := tftpIP;
              nc_IPXEBinServerHTTP := Some (dh_IPXEHTTPBinaryURL d);
              nc_IPXEScriptURL := Some (ipxeScript (dh_IPXEHTTPScript d) u);
              nc_Enabled := dh_EnableNetbootOptions d;
              nc_UserClass := "";
              nc_InjectMacAddrFormat := ib_InjectMacAddrFormat (ipx_IPXEBinary (sc_IPXE c));
              nc_IPXEArchMapping := ib_IPXEArchMapping (ipx_IPXEBinary (sc_IPXE c)) |} in
            if decide (dh_Mode d = DHCPModeReservation) then
              inr (ReservationServer (mkReservationHandler (dh_IPForPacket d) netboot true (dh_SyslogIP d)))
            else if decide (dh_Mode d = DHCPModeProxy) then inr (ProxyServer (mkProxyHandler (dh_IPForPacket d) netboot false))
            else if decide (dh_Mode d = DHCPModeAutoProxy) then inr (ProxyServer (mkProxyHandler (dh_IPForPacket d) netboot true))
            else inl (ErrNew "invalid dhcp mode")
        end
    end.

Definition noServicesEnabled c : bool :=
  negb (dh_Enabled (sc_DHCP c)) && negb (tf_Enabled (sc_TFTP c)) && negb (sy_Enabled (sc_Syslog c)) && negb (is_Enabled (sc_ISO c))
  && negb (ipx_HTTPBinaryServer (sc_IPXE c)) && negb (iss_Enabled (ipx_HTTPScriptServer (sc_IPXE c))) && negb (px_Enabled (sc_PXEHTTP c)).

(** A service that runs: its address and what it serves. *)
Inductive service :=
| SyslogService (addr : AddrPort)
| TftpService (addr : AddrPort) (singlePort : bool) (timeout blockSize : Z) (patch assetDir : string)
| DhcpService (addr : AddrPort) (iface : string) (h : dhcp_server).

Definition bind_error (what : string) (a : AddrPort) : error :=
  ErrNew ("invalid " +:+ what +:+ " bind address: IP: " +:+ Addr_String (ap_Addr a) +:+ ", Port: " +:+ Itoa (ap_Port a)).

(** One service after the other: those started, and the error that ends [Start];
    without one it waits for them. *)
Definition start_syslog c : res (list service) :=
  if sy_Enabled (sc_Syslog c) then
    let addr := mkAddrPort (sy_BindAddr (sc_Syslog c)) (sy_BindPort (sc_Syslog c)) in
    if IsValid (ap_Addr addr) then inr [SyslogService addr] else inl (bind_error "syslog" addr)
  else inr [].
Definition start_tftp c : res (list service) :=
  let t := sc_TFTP c in
  if tf_Enabled t then
    let addr := mkAddrPort (tf_BindAddr t) (tf_BindPort t) in
    if IsValid (ap_Addr addr)
    then inr [TftpService addr (tf_SinglePort t) (tf_Timeout t) (tf_BlockSize t) (ipx_EmbeddedScriptPatch (sc_IPXE c)) (tf_AssetDir t)]
    else inl (bind_error "TFTP" addr)
  else inr [].
Definition start_dhcp c : res (list service) :=
  let d := sc_DHCP c in
  if dh_Enabled d then
    match dhcpHandler c with
    | inl e => inl (ErrWrap "failed to create dhcp listener: " e)
    | inr h =>
        let addr := mkAddrPort (dh_BindAddr d) (dh_BindPort d) in
        if IsValid (ap_Addr addr) then inr [DhcpService addr (dh_BindInterface d) h] else inl (bind_error "DHCP" addr)
    end
  else inr [].

Fixpoint start_all (l : list (res (list service))) (started : list service) : list service * option error :=
  match l with
  | [] => (started, None)
  | inl e :: _ => (started, Some e)
  | inr s :: rest => start_all rest (started ++ s)
  end.

Definition Start c : list service * option error :=
  if negb (sc_Backend c) then ([], Some (ErrNew "no backend provided"))
  else if noServicesEnabled c then ([], Some (ErrNew "all Smee services are disabled (DHCP, TFTP, syslog, iPXE binary, iPXE script, ISO)"))
  else start_all [start_syslog c; start_tftp c; start_dhcp c] [].

(** What [Start] returns after the services have ended with the first of their errors. *)
Definition Start_result (err : option error) : option error :=
  match err with
  | Some e => if is_ctx Canceled e then None else Some (ErrWrap "failed running all Smee services: " e)
  | None => None
  end.

(** ** What is started *)

(** Whether the addresses and the URL a handler needs are there. *)
Definition dhcp_ready c : Prop :=
  IsValid (dh_TFTPIP (sc_DHCP c)) = true ∧ ∃ u v, hs_URL (dh_IPXEHTTPScript (sc_DHCP c)) = Some u ∧ url_Parse (URL_String u) = inr v.

(** A mode that the flag accepts makes a handler only when it is written in lower
    case: the flag compares it without regard to case and keeps it as it is. *)
Theorem DHCPMode_Set_case s d m c :
  DHCPMode_Set s d = (None, m) → dh_Mode (sc_DHCP c) = m → dhcp_ready c →
  (is_Some (match dhcpHandler c with inr h => Some h | inl _ => None end) ↔ s = ToLower s).
Proof.
  unfold DHCPMode_Set. case_decide as Hm; [|done]. intros [= <-] Hc (Hv & u & v & Hu & Hp).
  unfold dhcpHandler. cbn [ap_Addr]. rewrite Hv, Hu, Hp, Hc. cbn [negb].
  assert (∀ x, x ∈ [DHCPModeProxy; DHCPModeReservation; DHCPModeAutoProxy] → ToLower x = x) as Hl.
  { intros x Hx. repeat (apply elem_of_cons in Hx as [->|Hx]; [reflexivity|]). by apply not_elem_of_nil in Hx. }
  split.
  - intros [h Hh]. symmetry. apply Hl. repeat case_decide; simplify_eq/=; set_solver.
  - intros E. rewrite <- E in Hm. repeat (case_decide; [by eexists|]). set_solver.
Qed.

(** The handler answers in the mode of the configuration, with its addresses, and
    names a script with the path of the URL and the address of the client in it. *)
Lemma dhcpHandler_script c server :
  dhcpHandler c = inr server →
  let nb := match server with ReservationServer h => rh_Netboot h | ProxyServer h => ph_Netboot h end in
  ∃ u, hs_URL (dh_IPXEHTTPScript (sc_DHCP c)) = Some u ∧ nc_IPXEScriptURL nb = Some (ipxeScript (dh_IPXEHTTPScript (sc_DHCP c)) u) ∧
    nc_Enabled nb = dh_EnableNetbootOptions (sc_DHCP c).
Proof.
  unfold dhcpHandler. destruct (negb _); [done|]. destruct (hs_URL _) as [u|]; [|done]. destruct (url_Parse _); [done|].
  repeat case_decide; intros; simplify_eq/=; eauto.
Qed.

(** Every service that runs is enabled and bound to an address; without an error
    every enabled one runs. *)
Theorem Start_services c started err :
  Start c = (started, err) →
  (∀ x, x ∈ started → match x with
    | SyslogService a => sy_Enabled (sc_Syslog c) = true ∧ IsValid (ap_Addr a) = true
    | TftpService a _ _ _ _ _ => tf_Enabled (sc_TFTP c) = true ∧ IsValid (ap_Addr a) = true
    | DhcpService a _ h => dh_Enabled (sc_DHCP c) = true ∧ IsValid (ap_Addr a) = true ∧ dhcpHandler c = inr h
    end) ∧
  (err = None → length started =
    Nat.b2n (sy_Enabled (sc_Syslog c)) + Nat.b2n (tf_Enabled (sc_TFTP c)) + Nat.b2n (dh_Enabled (sc_DHCP c))).
Proof.
  unfold Start. destruct (negb (sc_Backend c)); [intros [= <- <-]; split; [by intros x Hx%not_elem_of_nil|done]|].
  destruct (noServicesEnabled c); [intros [= <- <-]; split; [by intros x Hx%not_elem_of_nil|done]|].
  unfold start_all, start_syslog, start_tftp, start_dhcp. cbn [ap_Addr].
  destruct (sy_Enabled (sc_Syslog c)) eqn:E1, (IsValid (sy_BindAddr (sc_Syslog c))) eqn:V1,
    (tf_Enabled (sc_TFTP c)) eqn:E2, (IsValid (tf_BindAddr (sc_TFTP c))) eqn:V2,
    (dh_Enabled (sc_DHCP c)) eqn:E3; try destruct (dhcpHandler c) as [e|h] eqn:Eh; try destruct (IsValid (dh_BindAddr (sc_DHCP c))) eqn:V3;
    cbn; intros [= <- <-]; (split; [intros x Hx; set_unfold; naive_solver|done]).
Qed.

End Config.
