(* ===== verification/Command.v ===== *)
(** * The command: flags, routes and helpers

    cmd/tinkerbell: how the flags become the configurations of the services
    (flag/smee.go, flag/url.go, flag/tink_server.go), the routes of the one HTTP
    server (http.go), the helpers and defaults (helpers.go, defaults.go). *)
From S2P Require Import Prelude GoStrings GoStrconv GoPath GoNet GoNetip BmcTypes Api Dhcp DhcpConv DhcpHandler Backends Tootles IpxeScript GoHttp ReverseProxy Iso IpxeBinary DhcpStore BootChain HttpCommon Flags SmeeConfig.

(** ** flag/url.go *)

Definition validOptionalPort (port : list ascii) : bool :=
  match port with
  | [] => true
  | c :: digits => if decide (c = ":"%char) then forallb is_digit digits else false
  end.

(** [host[1 : len(host)-1]] when the host is in brackets. A single bracket does
    not end with a closing one, so the slice is in range. *)
Definition unbracket (host : list ascii) : list ascii :=
  if decide (head host = Some "["%char ∧ last host = Some "]"%char) then take (length host - 2) (drop 1 host) else host.

Definition splitHostPort (hostPort : string) : string * string :=
  let l := bytes_of hostPort in
  let '(host, port) :=
    match LastIndexByte ":"%char l with
    | Some i => if validOptionalPort (drop i l) then (take i l, drop (i + 1) l) else (l, [])
    | None => (l, [])
    end in
  (of_bytes (unbracket host), of_bytes port).

(** ** flag/smee.go *)

Record URLBuilder := mkURLBuilder { ub_Host : string; ub_Port : Z }.

Section Flags.
Context `{DhcpLib} `{UrlStruct}.

Record SmeeConfig := mkSmeeConfig {
  sf_Config : smee_Config;
  sf_DHCPIPXEBinary : URLBuilder;
  sf_DHCPIPXEScript : URLBuilder;
  sf_LogLevel : Z;
}.

Definition usable (a : Addr) : bool := negb (Addr_IsUnspecified a) && IsValid a.

(** The closure that makes the host of a URL. *)
Definition url_host (publicIP : Addr) (defaultPort : Z) (b : URLBuilder) : string :=
  let addr := if usable publicIP then Addr_String publicIP else "" in
  let addr := if decide (ub_Host b ≠ "") then ub_Host b else addr in
  let port := if decide (ub_Port b ≠ 0%Z) then Itoa (ub_Port b) else Itoa defaultPort in
  if decide (port ≠ "") then addr +:+ ":" +:+ port else addr.

(** The closure that makes the address of the Tink server. *)
Definition tink_server_addr (publicIP : Addr) (given : string) : string :=
  let '(host, port) := splitHostPort given in
  let port := if decide (port = "") then Itoa DefaultTinkServerPort else port in
  let host := if decide (host = "") then (if IsValid publicIP && negb (Addr_IsUnspecified publicIP) then Addr_String publicIP else host) else host in
  if decide (host = "") then "" else JoinHostPort host port.

Definition or_addr (a d : Addr) : Addr := if IsValid a then a else d.
Definition or_public (publicIP a : Addr) : Addr := if Addr_IsUnspecified a || negb (IsValid a) then publicIP else a.

Definition smee_Convert (trustedProxies : list Prefix) (publicIP bindAddr : Addr) (defaultPort : Z) (s : SmeeConfig) : SmeeConfig :=
  let c := sf_Config s in
  let d := sc_DHCP c in
  let i := ipx_HTTPScriptServer (sc_IPXE c) in
  let public a := if usable publicIP then or_public publicIP a else a in
  let bind a := if IsValid bindAddr then or_addr a bindAddr else a in
  mkSmeeConfig {|
    sc_Backend := sc_Backend c;
    sc_DHCP := {|
      dh_Enabled := dh_Enabled d; dh_EnableNetbootOptions := dh_EnableNetbootOptions d; dh_Mode := dh_Mode d;
      dh_BindAddr := dh_BindAddr d; dh_BindPort := dh_BindPort d; dh_BindInterface := dh_BindInterface d;
      dh_IPForPacket := public (dh_IPForPacket d); dh_SyslogIP := public (dh_SyslogIP d); dh_TFTPIP := public (dh_TFTPIP d);
      dh_TFTPPort := dh_TFTPPort d;
      dh_IPXEHTTPBinaryURL := set_Host (url_host publicIP defaultPort (sf_DHCPIPXEBinary s)) (dh_IPXEHTTPBinaryURL d);
      dh_IPXEHTTPScript :=
        mkIPXEHTTPScript (set_Host (url_host publicIP defaultPort (sf_DHCPIPXEScript s)) <$> hs_URL (dh_IPXEHTTPScript d))
          (hs_InjectMacAddress (dh_IPXEHTTPScript d)) |};
    sc_IPXE := mksmee_IPXE (ipx_EmbeddedScriptPatch (sc_IPXE c)) (ipx_HTTPBinaryServer (sc_IPXE c))
      (mkIPXEHTTPScriptServer (iss_Enabled i) (iss_Retries i) (iss_RetryDelay i) (iss_OSIEURL i) (Prefix_String <$> trustedProxies)
         (iss_ExtraKernelArgs i) (iss_KernelName i) (iss_InitrdName i) (iss_SyslogFQDN i))
      (ipx_IPXEBinary (sc_IPXE c));
    sc_ISO := sc_ISO c;
    sc_OTEL := sc_OTEL c;
    sc_PXEHTTP := sc_PXEHTTP c;
    sc_Syslog := mksmee_Syslog (bind (sy_BindAddr (sc_Syslog c))) (sy_BindPort (sc_Syslog c)) (sy_Enabled (sc_Syslog c));
    sc_TFTP := let t := sc_TFTP c in
      mksmee_TFTP (tf_AssetDir t) (bind (tf_BindAddr t)) (tf_BindPort t) (tf_BlockSize t) (tf_SinglePort t) (tf_Timeout t) (tf_Enabled t);
    sc_TinkServer := let t := sc_TinkServer c in
      mksmee_TinkServer (tk_UseTLS t) (tk_InsecureTLS t) (tink_server_addr publicIP (tk_AddrPort t));
  |} (sf_DHCPIPXEBinary s) (sf_DHCPIPXEScript s) (sf_LogLevel s).

(** The parser of the architecture mapping. *)
Definition arch_error (what key : string) : error :=
  ErrNew ("invalid architecture in IPXEArchMapping: " +:+ dquote key +:+ ", must be a number" +:+ what +:+
    ", see the iPXE Architecture Mapping documentation for more details").

Fixpoint parse_arch_pairs (pairs : list string) (m : gmap Z string) : res (gmap Z string) :=
  match pairs with
  | [] => inr m
  | p :: rest =>
      match Cut p "="%char with
      | (k, v, true) =>
          match Atoi (TrimSpace k) with
          | (_, true) => inl (arch_error "" k)
          | (key, false) =>
              if decide (0 ≤ key < 2 ^ 16)%Z then parse_arch_pairs rest (<[key := TrimSpace v]> m) else inl (arch_error " (uint16)" k)
          end
      | (_, _, false) =>
          inl (ErrNew ("invalid format for IPXEArchMapping: [" +:+ p +:+
            "], expected <arch>=<binary>, see the iPXE Architecture Mapping documentation for more details"))
      end
  end.
Definition parse_arch_mapping (s : string) : res (gmap Z string) := if decide (s = "") then inr ∅ else parse_arch_pairs (Split s ","%char) ∅.

Definition macAddrFormatParser (s : string) : res string :=
  if decide (s ∈ [MacAddrFormatColon; MacAddrFormatDot; MacAddrFormatDash; MacAddrFormatNoDelimiter]) then inr s
  else if decide (s = "") then inr MacAddrFormatColon
  else inl (ErrNew ("invalid mac address format: " +:+ s +:+ ", must be one of: [" +:+
    Join [MacAddrFormatColon; MacAddrFormatDot; MacAddrFormatDash; MacAddrFormatNoDelimiter] ", " +:+ "]")).

(** ** flag/tink_server.go *)

Definition tink_server_Convert (flagAddr : Addr) (bindPort : Z) (bindAddr : Addr) : AddrPort :=
  mkAddrPort (if IsValid flagAddr then flagAddr else bindAddr) bindPort.

(** ** flag/global.go *)

Record GlobalConfig := mkGlobalConfig {
  gl_LogLevel : Z;
  gl_Backend : string;
  gl_BackendKubeNamespace : string;
  gl_TrustedProxies : list Prefix;
  gl_PublicIP : Addr;
  gl_BindAddr : Addr;
  gl_HTTPPort : Z;
  gl_HTTPSPort : Z;
  gl_EnableSmee : bool;
  gl_EnableTootles : bool;
  gl_EnableTinkServer : bool;
  gl_EnableTinkController : bool;
  gl_EnableRufio : bool;
  gl_EnableSecondStar : bool;
  gl_EnableUI : bool;
  gl_EnableCRDMigrations : bool;
  gl_EnableKubeAPIServer : bool;
  gl_EnableETCD : bool;
  gl_CertFile : string;
  gl_KeyFile : string;
  gl_DisableHTTPToHTTPSRedirect : bool;
  gl_PrintVersion : bool;
}.

(** ** helpers.go *)

Definition numEnabled (g : GlobalConfig) : nat :=
  Nat.b2n (gl_EnableSmee g) + Nat.b2n (gl_EnableTootles g) + Nat.b2n (gl_EnableTinkServer g) + Nat.b2n (gl_EnableTinkController g)
  + Nat.b2n (gl_EnableRufio g) + Nat.b2n (gl_EnableSecondStar g) + Nat.b2n (gl_EnableUI g).

Definition normalizeURLPrefix (prefix : string) : string :=
  let pattern := TrimSpace prefix in
  let pattern := if HasPrefix pattern "/" then pattern else "/" +:+ pattern in
  let pattern := path_Clean pattern in
  if HasSuffix_slash pattern then pattern else pattern +:+ "/".

Definition defaultLeaderElectionNamespace : string := "default".
Definition leaderElectionNamespace (inCluster enabled : bool) (namespace : string) : string :=
  if decide (inCluster = false ∧ enabled = true ∧ namespace = "") then defaultLeaderElectionNamespace else namespace.

(** ** http.go *)

Inductive http_handler :=
| BinaryH (patch : string)
| ScriptH (h : ScriptHandler)
| IsoH (p : iso_Patch * URL)
| PxeH (assetDir prefix : string)
| EC2MetadataH
| HackMetadataH
| UiH
| MetricsH (registries : list string)
| HealthcheckH
| HealthzH
| ReadyzH.

Definition routeEC2Metadata : string := "/2009-04-04/".
Definition routeTootles : string := "/tootles/".
Definition routeHackMetadata : string := "/metadata".

Definition smee_routes (g : GlobalConfig) (c : smee_Config) (tlsEnabled : bool) (rs : list (hRoute http_handler)) : res (list (hRoute http_handler)) :=
  if gl_EnableSmee g then
    let rs := match BinaryHandler c with
              | Some patch => routes_Register IPXEBinaryURI (BinaryH patch) "smee iPXE binary handler" [] rs
              | None => rs end in
    let rs := match smee_ScriptHandler c with
              | Some h => routes_Register IPXEScriptURI (ScriptH h) "smee iPXE script handler" [] rs
              | None => rs end in
    match ISOHandler c with
    | inl e => inl (ErrWrap "failed to create smee iso handler: " e)
    | inr iso =>
        let rs := match iso with
                  | Some p => routes_Register ISOURI (IsoH p) "smee ISO handler" [WithHTTPSEnabled tlsEnabled] rs
                  | None => rs end in
        inr (match PXEHTTPHandler c with
             | Some (dir, prefix) =>
                 routes_Register (normalizeURLPrefix (px_PathPrefix (sc_PXEHTTP c))) (PxeH dir prefix) "smee PXE-over-HTTP handler" [] rs
             | None => rs end)
    end
  else inr rs.

Definition secured (tlsEnabled : bool) : list (hRoute http_handler → hRoute http_handler) :=
  [WithHTTPSEnabled tlsEnabled; WithRewriteHTTPToHTTPS tlsEnabled].

Definition tootles_routes (g : GlobalConfig) (instanceEndpoint tlsEnabled : bool) (rs : list (hRoute http_handler)) : list (hRoute http_handler) :=
  if gl_EnableTootles g then
    let rs := routes_Register routeEC2Metadata EC2MetadataH "EC2 metadata handler" (secured tlsEnabled) rs in
    let rs := if instanceEndpoint then routes_Register routeTootles EC2MetadataH "EC2 instance endpoint handler" (secured tlsEnabled) rs else rs in
    routes_Register routeHackMetadata HackMetadataH "Hack metadata handler" (secured tlsEnabled) rs
  else rs.

Definition ui_routes (g : GlobalConfig) (ui : res bool) (urlPrefix : string) (tlsEnabled : bool) (rs : list (hRoute http_handler)) : res (list (hRoute http_handler)) :=
  if gl_EnableUI g then
    match ui with
    | inl e => inl (ErrWrap "failed to create ui handler: " e)
    | inr true => inr (routes_Register (normalizeURLPrefix urlPrefix) UiH "UI handler" (secured tlsEnabled) rs)
    | inr false => inr rs
    end
  else inr rs.

Definition metrics_routes (g : GlobalConfig) (rs : list (hRoute http_handler)) : list (hRoute http_handler) :=
  let rs := if gl_EnableSmee g then routes_Register "/smee/metrics" (MetricsH ["smee"]) "Smee metrics handler" [] rs else rs in
  let rs := if gl_EnableTinkServer g then routes_Register "/tink-server/metrics" (MetricsH ["tink-server"]) "Tink server metrics handler" [] rs else rs in
  let controllers := gl_EnableTinkController g || gl_EnableRufio g in
  let rs := if controllers then routes_Register "/controllers/metrics" (MetricsH ["controller-runtime"])
              "Controller-runtime metrics handler (tink-controller + rufio)" [] rs else rs in
  let gatherers := ["default"] ++ (if gl_EnableSmee g then ["smee"] else []) ++ (if gl_EnableTinkServer g then ["tink-server"] else [])
    ++ (if controllers then ["controller-runtime, filtered"] else []) ++ ["http"] in
  let rs := routes_Register "/http/metrics" (MetricsH ["http"]) "HTTP middleware metrics handler" [] rs in
  let rs := routes_Register "/metrics" (MetricsH gatherers) "Combined Prometheus metrics handler" [] rs in
  let rs := routes_Register "/healthcheck" HealthcheckH "Healthcheck handler" [] rs in
  let rs := routes_Register "/healthz" HealthzH "Liveness probe handler" [] rs in
  routes_Register "/readyz" ReadyzH "Readiness probe handler" [] rs.

(** All routes, in the order they are registered. *)
Definition routeList (g : GlobalConfig) (c : smee_Config) (instanceEndpoint : bool) (ui : res bool) (urlPrefix : string) (tlsEnabled : bool)
    : res (list (hRoute http_handler)) :=
  match smee_routes g c tlsEnabled [] with
  | inl e => inl e
  | inr rs =>
      match ui_routes g ui urlPrefix tlsEnabled (tootles_routes g instanceEndpoint tlsEnabled rs) with
      | inl e => inl e
      | inr rs => inr (metrics_routes g rs)
      end
  end.

(** The middleware of a handler, from the outermost to the innermost. *)
Inductive middleware := SourceIPM | XffM (x : string → string → string) | RequestMetricsM | RecoveryM | LoggingM | OTelM (name : string).

Definition wrap_middleware (proxies : list string) (name : string) : res (list middleware) :=
  let inner := [RequestMetricsM; RecoveryM; LoggingM; OTelM name] in
  if decide (proxies = []) then inr (SourceIPM :: inner)
  else
    match XFF proxies with
    | inl e => inl (ErrWrap "failed to create XFF middleware: " e)
    | inr x => inr (SourceIPM :: XffM x :: inner)
    end.

Definition addMiddleware (trustedProxies : list Prefix) (https : bool) : res (list middleware * option (list middleware)) :=
  let proxies := Prefix_String <$> trustedProxies in
  match wrap_middleware proxies "tinkerbell-http" with
  | inl e => inl e
  | inr h =>
      if https then match wrap_middleware proxies "tinkerbell-https" with inl e => inl e | inr hs => inr (h, Some hs) end
      else inr (h, None)
  end.

(** [startHTTPServer] up to [Serve]: the patterns of the two muxes, the second
    only when there are HTTPS routes, and the middleware around them. *)
Record http_server := mkhttp_server {
  hv_http : list (string * mux_target http_handler);
  hv_https : option (list (string * mux_target http_handler));
  hv_middleware : list middleware * option (list middleware);
  hv_config : ServerConfig;
}.

Definition startHTTPServer (g : GlobalConfig) (c : smee_Config) (certs : bool) (instanceEndpoint : bool) (ui : res bool) (urlPrefix : string)
    : res http_server :=
  match routeList g c instanceEndpoint ui urlPrefix certs with
  | inl e => inl e
  | inr rs =>
      let '(http, https) := Muxes (gl_HTTPSPort g) (negb (gl_DisableHTTPToHTTPSRedirect g) && certs) rs in
      match addMiddleware (gl_TrustedProxies g) (HasHTTPSRoutes rs) with
      | inl e => inl (ErrWrap "failed to add middleware: " e)
      | inr m =>
          inr (mkhttp_server http (if HasHTTPSRoutes rs then Some https else None) m
            (server_NewConfig [λ c, mkServerConfig (Addr_String (gl_BindAddr g)) (gl_HTTPPort g) certs (gl_HTTPSPort g) (sc_ReadTimeout c)
               (sc_ReadHeaderTimeout c) (sc_WriteTimeout c) (sc_IdleTimeout c) (sc_MaxHeaderBytes c) (sc_ShutdownTimeout c)]))
      end
  end.

(** [filteredGatherer.Gather]: the names of the metric families. *)
Definition Gather (excluded : list string) (r : list string * option error) : list string * option error :=
  (filter (λ name, existsb (HasPrefix name) excluded = false) r.1, r.2).
End Flags.

(** ** http.ServeMux

    On a clean path, with patterns that have no method, host or wildcard: a
    pattern with a slash at its end matches what begins with it, any other its
    own path, and the longest pattern wins. Two equal patterns make the
    registration panic. *)
Definition pattern_matches (p path : string) : bool := if HasSuffix_slash p then HasPrefix path p else bool_decide (path = p).

Definition mux_better {T} (path : string) (best : option (string * T)) (pt : string * T) : option (string * T) :=
  if pattern_matches pt.1 path then
    match best with
    | Some b => if decide (strlen b.1 < strlen pt.1) then Some pt else best
    | None => Some pt
    end
  else best.
Definition mux_lookup {T} (l : list (string * T)) (path : string) : option (string * T) := foldl (mux_better path) None l.

Definition register_panics {T} (l : list (string * T)) : bool := negb (bool_decide (NoDup l.*1)).

Lemma HasPrefix_iff s p : HasPrefix s p = true ↔ ∃ t, s = p +:+ t.
Proof.
  split; [intros E; eexists; by apply HasPrefix_split|]. intros [t ->]. unfold HasPrefix.
  induction p as [|c p IH]; [by destruct t|]. simpl. destruct (ascii_dec c c); [done|congruence].
Qed.

(** Of two prefixes of a text the shorter is a prefix of the longer. *)
Lemma HasPrefix_chain s p q : HasPrefix s p = true → HasPrefix s q = true → strlen p ≤ strlen q → HasPrefix q p = true.
Proof.
  rewrite !HasPrefix_iff. intros [t ->] [u E] Hl. apply (f_equal bytes_of) in E. rewrite !bytes_of_app in E. rewrite !strlen_bytes in Hl.
  exists (of_bytes (take (length (bytes_of q) - length (bytes_of p)) (bytes_of t))). apply bytes_of_inj. rewrite bytes_of_app, bytes_of_of_bytes.
  apply (f_equal (take (length (bytes_of q)))) in E. rewrite take_app_length, take_app, (take_ge (bytes_of p)) in E by done. by symmetry.
Qed.

Lemma matches_prefix q path : pattern_matches q path = true → HasPrefix path q = true.
Proof. unfold pattern_matches. destruct (HasSuffix_slash q); [done|]. intros ->%bool_decide_eq_true. apply HasPrefix_iff. exists "". by rewrite string_app_nil_r. Qed.

Lemma mux_lookup_prefix {T} (a b : list (string * T)) p t path :
  HasSuffix_slash p = true → HasPrefix path p = true → Forall (λ x, HasPrefix x.1 p = false) (a ++ b) →
  mux_lookup (a ++ (p, t) :: b) path = Some (p, t).
Proof.
  intros Hs Hp HF. unfold mux_lookup. rewrite foldl_app. cbn [foldl]. apply Forall_app in HF as [Ha Hb].
  assert (∀ x : string * T, HasPrefix x.1 p = false → pattern_matches x.1 path = true → strlen x.1 < strlen p) as Hshort.
  { intros x Hx Hm%matches_prefix. destruct (decide (strlen x.1 < strlen p)) as [?|Hn]; [done|].
    rewrite (HasPrefix_chain path p x.1 Hp Hm) in Hx; [done|lia]. }
  set (best := foldl _ _ a).
  assert (∀ x, best = Some x → strlen x.1 < strlen p) as Hbest.
  { subst best. clear Hb.
    assert (∀ acc : option (string * T), (∀ x, acc = Some x → strlen x.1 < strlen p) →
      ∀ x, foldl (mux_better path) acc a = Some x → strlen x.1 < strlen p) as Hg; [|by apply (Hg None)].
    induction Ha as [|y a Hy _ IH]; intros acc Hacc; [done|]. cbn [foldl]. apply IH. intros x. unfold mux_better.
    destruct (pattern_matches y.1 path) eqn:E; [|apply Hacc]. destruct acc as [z|]; [case_decide|]; try (intros [= <-]; by apply Hshort); apply Hacc. }
  assert (mux_better path best (p, t) = Some (p, t)) as ->.
  { unfold mux_better. cbn [fst]. unfold pattern_matches. rewrite Hs, Hp. destruct best as [x|]; [|done]. rewrite decide_True; [done|by apply Hbest]. }
  induction Hb as [|y b Hy _ IH]; [done|]. cbn [foldl]. assert (mux_better path (Some (p, t)) y = Some (p, t)) as ->; [|done].
  unfold mux_better. destruct (pattern_matches y.1 path) eqn:E; [|done]. rewrite decide_False; [done|]. specialize (Hshort y Hy E). cbn [fst]. lia.
Qed.

(** ** What the server exposes *)

Section Exposure.
Context `{DhcpLib} `{UrlStruct}.
Implicit Types (rs : list (hRoute http_handler)).

(** The handlers of the services that hold data of users and machines. *)
Definition sensitive (h : http_handler) : bool :=
  match h with EC2MetadataH | HackMetadataH | UiH => true | _ => false end.

Definition https_handler (h : http_handler) : bool := sensitive h || match h with IsoH _ => true | _ => false end.

(** With a certificate they are served over HTTPS, and rewritten over HTTP. *)
Definition guarded (tls : bool) (r : hRoute http_handler) : Prop :=
  hr_HTTPEnabled r = true ∧ hr_HTTPSEnabled r = https_handler (hr_Handler r) && tls ∧
  hr_RewriteHTTPToHTTPS r = sensitive (hr_Handler r) && tls.

Lemma register_guarded tls pattern h desc options rs :
  options = (if sensitive h then secured tls else if https_handler h then [WithHTTPSEnabled tls] else []) →
  Forall (guarded tls) rs → Forall (guarded tls) (routes_Register pattern h desc options rs).
Proof.
  intros -> HF. unfold routes_Register. apply Forall_app. split; [done|]. apply Forall_singleton. by destruct h.
Qed.

Lemma routeList_guarded g c ie ui prefix tls rs : routeList g c ie ui prefix tls = inr rs → Forall (guarded tls) rs.
Proof.
  unfold routeList. destruct (smee_routes g c tls []) as [|l] eqn:E1; [done|]. destruct (ui_routes _ _ _ _ _) as [|l0] eqn:E2; [done|].
  intros [= <-].
  assert (Forall (guarded tls) l) as F1.
  { unfold smee_routes in E1. destruct (gl_EnableSmee g); [|by simplify_eq]. destruct (ISOHandler c) as [|iso]; [done|]. simplify_eq.
    destruct (PXEHTTPHandler c) as [[]|], iso, (smee_ScriptHandler c), (BinaryHandler c); repeat (apply register_guarded; [done|]); done. }
  assert (Forall (guarded tls) l0) as F2.
  { unfold ui_routes, tootles_routes in E2.
    destruct (gl_EnableTootles g), ie; (destruct (gl_EnableUI g); [destruct ui as [|[]]; [done|..]|]; simplify_eq;
      repeat (apply register_guarded; [done|]); done). }
  unfold metrics_routes. destruct (gl_EnableSmee g), (gl_EnableTinkServer g), (gl_EnableTinkController g || gl_EnableRufio g);
    repeat (apply register_guarded; [done|]); done.
Qed.

Lemma secured_HTTPS rs r : r ∈ rs → hr_HTTPSEnabled r = true → HasHTTPSRoutes rs = true.
Proof. intros Hr Hh. apply existsb_exists. exists r. split; [by apply list_elem_of_In|done]. Qed.

End Exposure.

(** ** From the flags to the script of a machine *)

Section NetbootChain.
Context `{DhcpLib} `{UrlStruct} {W : Type} `{BackendReader W} `{!HardwareLookup W}.
Implicit Types (rs : list (hRoute http_handler)).

Definition apart (p : string) : Prop := HasPrefix p IPXEScriptURI = false.

(** The route of the scripts is there, and no other pattern is below it. *)
Definition has_script (h : ScriptHandler) rs : Prop :=
  ∃ a r b, rs = a ++ r :: b ∧ Forall (λ x, apart (hr_Pattern x)) (a ++ b) ∧
    hr_Pattern r = IPXEScriptURI ∧ hr_Handler r = ScriptH h.

Lemma option_pattern options (r : hRoute http_handler) tls :
  options ∈ [[]; [WithHTTPSEnabled tls]; secured tls] → hr_Pattern (foldl (λ r o, o r) r options) = hr_Pattern r.
Proof. intros Ho. repeat (apply elem_of_cons in Ho as [->|Ho]; [done|]). by apply not_elem_of_nil in Ho. Qed.

Lemma register_apart tls pattern h desc options rs :
  options ∈ [[]; [WithHTTPSEnabled tls]; secured tls] → apart pattern →
  Forall (λ x, apart (hr_Pattern x)) rs → Forall (λ x, apart (hr_Pattern x)) (routes_Register pattern h desc options rs).
Proof. intros Ho Hp HF. apply Forall_app. split; [done|]. apply Forall_singleton. by rewrite (option_pattern _ _ tls). Qed.

Lemma register_script tls h pattern h' desc options rs :
  options ∈ [[]; [WithHTTPSEnabled tls]; secured tls] → apart pattern →
  has_script h rs → has_script h (routes_Register pattern h' desc options rs).
Proof.
  intros Ho Hp (a & r & b & -> & HF & Hr). exists a, r, (b ++ [foldl (λ r o, o r) (mkhRoute pattern (if decide (desc = "") then "No description provided" else desc) false true false h') options]).
  unfold routes_Register. rewrite <- (assoc_L (++)). split; [done|]. split; [|done]. rewrite (assoc_L (++)). apply Forall_app. split; [done|].
  apply Forall_singleton. by rewrite (option_pattern _ _ tls).
Qed.

Lemma routeList_script g c ie ui prefix tls rs h :
  gl_EnableSmee g = true → smee_ScriptHandler c = Some h → apart (normalizeURLPrefix prefix) →
  (px_Enabled (sc_PXEHTTP c) = true → apart (normalizeURLPrefix (px_PathPrefix (sc_PXEHTTP c)))) →
  routeList g c ie ui prefix tls = inr rs → has_script h rs.
Proof.
  intros Hs Hh Hu Hp. unfold routeList. destruct (smee_routes g c tls []) as [|l] eqn:E1; [done|].
  destruct (ui_routes _ _ _ _ _) as [|l0] eqn:E2; [done|]. intros [= <-].
  assert (has_script h l) as F1.
  { unfold smee_routes in E1. rewrite Hs, Hh in E1. destruct (ISOHandler c) as [|iso]; [done|]. simplify_eq.
    assert (∀ rs', has_script h rs' → has_script h (match PXEHTTPHandler c with
       | Some (dir, prefix) => routes_Register (normalizeURLPrefix (px_PathPrefix (sc_PXEHTTP c))) (PxeH dir prefix) "smee PXE-over-HTTP handler" [] rs'
       | None => rs' end)) as Hx.
    { intros rs' Hr'. unfold PXEHTTPHandler. destruct (px_Enabled _) eqn:Ep; [|done]. apply (register_script tls); [set_solver|by apply Hp|done]. }
    apply Hx. assert (∀ rs', Forall (λ x, apart (hr_Pattern x)) rs' → has_script h (routes_Register IPXEScriptURI (ScriptH h) "smee iPXE script handler" [] rs')) as Hb.
    { intros rs' HF. eexists rs', _, []. split; [reflexivity|]. rewrite app_nil_r. by split. }
    destruct iso; [apply (register_script tls); [set_solver|done|]|]; apply Hb; (destruct (BinaryHandler c); [apply (register_apart tls); [set_solver|done|]|]; constructor). }
  assert (has_script h l0) as F2.
  { unfold ui_routes, tootles_routes in E2.
    destruct (gl_EnableTootles g), ie; (destruct (gl_EnableUI g); [destruct ui as [|[]]; [done|..]|]; simplify_eq;
      repeat (apply (register_script tls); [set_solver|done|]); done). }
  unfold metrics_routes. destruct (gl_EnableSmee g), (gl_EnableTinkServer g), (gl_EnableTinkController g || gl_EnableRufio g);
    repeat (apply (register_script tls); [set_solver|done|]); done.
Qed.

Lemma mux_script h rs port tls redirect path :
  has_script h rs → Forall (guarded tls) rs → HasPrefix path IPXEScriptURI = true →
  mux_lookup (Muxes port redirect rs).1 path = Some (IPXEScriptURI, Serve (ScriptH h)).
Proof.
  intros (a & r & b & -> & HF & Hp & Hh) HG Hpath. apply Forall_app in HG as [_ [[G1 [_ G3]] _]%Forall_cons].
  unfold Muxes. cbn [fst]. rewrite omap_app. cbn [omap list_omap].
  rewrite G1, G3, Hh, Hp. cbn [sensitive andb]. apply mux_lookup_prefix; [reflexivity|done|].
  rewrite <- omap_app. apply Forall_forall. intros [q t] (x & Hx & E)%list_elem_of_omap.
  pose proof (proj1 (Forall_forall _ _) HF x Hx) as Ha. cbn [fst]. repeat (case_match; try done); by simplify_eq.
Qed.

Definition netboot_of (server : dhcp_server) : NetbootConfig :=
  match server with ReservationServer h => rh_Netboot h | ProxyServer h => ph_Netboot h end.

Lemma script_path_below dirs mac name :
  Forall proper dirs → Forall octet mac → mac_length mac → proper name →
  HasPrefix (inject_mac (rooted_path (("ipxe" :: "script" :: dirs) ++ [name])) mac) IPXEScriptURI = true.
Proof.
  intros Hd Ho Hl Hn. rewrite inject_mac_path; [|..|done|unfold mac_length in Hl; lia].
  - apply HasPrefix_iff. exists (Join ((dirs ++ [HardwareAddr_String mac]) ++ [name]) "/").
    unfold rooted_path. cbn [app]. by destruct dirs.
  - apply Forall_app. split; [|by constructor]. constructor; [by_decide|]. constructor; [by_decide|done].
Qed.

(** C39: From the flags to the script of a machine. The URL that a DHCP answer
    names, as the flags configure it, has the address and the port the HTTP
    server listens on; a request for its path reaches the script handler over
    plain HTTP, with or without TLS and whatever else is enabled, unless another
    service is mounted below it; and is answered with the script of that machine. *)
Theorem netboot_chain g s certs ie ui prefix sv server dirs u0 pkt trace remoteAddr w :
  let c := sf_Config (smee_Convert (gl_TrustedProxies g) (gl_PublicIP g) (gl_BindAddr g) (gl_HTTPPort g) s) in
  let mac := pk_ClientHWAddr pkt in
  hs_URL (dh_IPXEHTTPScript (sc_DHCP (sf_Config s))) = Some u0 → hs_InjectMacAddress (dh_IPXEHTTPScript (sc_DHCP (sf_Config s))) = true →
  uf_Path u0 = rooted_path (("ipxe" :: "script" :: dirs) ++ ["auto.ipxe"]) → Forall proper dirs →
  gl_EnableSmee g = true → iss_Enabled (ipx_HTTPScriptServer (sc_IPXE (sf_Config s))) = true →
  apart (normalizeURLPrefix prefix) → apart (normalizeURLPrefix (px_PathPrefix (sc_PXEHTTP (sf_Config s)))) →
  dhcpHandler c = inr server → startHTTPServer g c certs ie ui prefix = inr sv →
  hl_ok w → Forall octet mac → mac_length mac →
  ∃ f u h resp, nc_IPXEScriptURL (netboot_of server) = Some f ∧ f pkt = Some u ∧
    (ub_Host (sf_DHCPIPXEScript s) = "" → ub_Port (sf_DHCPIPXEScript s) = 0%Z → usable (gl_PublicIP g) = true →
       uf_Host u = Addr_String (gl_PublicIP g) +:+ ":" +:+ Itoa (sc_BindPort (hv_config sv))) ∧
    mux_lookup (hv_http sv) (uf_Path u) = Some (IPXEScriptURI, Serve (ScriptH h)) ∧
    script_Handle uf_Scheme h trace (uf_Path u) remoteAddr w = (resp, w) ∧
    match boot_info (hl_objects w) mac with
    | Some i =>
        (hi_AllowNetboot i = true →
           (hr_Code resp = 200%Z ∧ machine_script uf_Scheme h trace i (hr_Body resp)) ∨
           (resp = mkhttp_response 500 "" ∧ has_own_script i)) ∧
        (hi_AllowNetboot i = false → resp = mkhttp_response 404 "")
    | None =>
        resp = if decide (dh_Mode (sc_DHCP (sf_Config s)) = DHCPModeAutoProxy)
               then mkhttp_response 200 (StaticScript (static_hook h)) else mkhttp_response 404 ""
    end.
Proof.
  intros c mac Hu0 Hi Hp0 Hd Hs He Hux Hpx Hsrv Hsv Hok Ho Hl.
  apply dhcpHandler_script in Hsrv as (u1 & Hu1 & Hf & _). fold (netboot_of server) in Hf.
  unfold c, smee_Convert in Hu1. cbn in Hu1. rewrite Hu0 in Hu1. injection Hu1 as <-.
  unfold startHTTPServer in Hsv. destruct (routeList g c ie ui prefix certs) as [|rs] eqn:Er; [done|].
  destruct (smee_ScriptHandler c) as [h|] eqn:Eh; [|unfold smee_ScriptHandler, c in Eh; cbn in Eh; by rewrite He in Eh].
  pose proof (routeList_guarded _ _ _ _ _ _ _ Er) as HG. pose proof (routeList_script _ _ _ _ _ _ _ h Hs Eh Hux (λ _, Hpx) Er) as HS.
  set (u := set_Path (inject_mac (uf_Path u0) mac) (set_Host (url_host (gl_PublicIP g) (gl_HTTPPort g) (sf_DHCPIPXEScript s)) u0)).
  assert (uf_Path u = inject_mac (rooted_path (("ipxe" :: "script" :: dirs) ++ ["auto.ipxe"])) mac) as Hu by (unfold u; by rewrite uf_Path_set, Hp0).
  assert (Forall proper ("ipxe" :: "script" :: dirs)) as Hd' by (do 2 (constructor; [by_decide|]); done).
  destruct (boot_script_of_machine uf_Scheme h trace ("ipxe" :: "script" :: dirs) remoteAddr mac w Hok Ho Hl Hd') as (resp & Hr & Hb).
  rewrite <- Hu in Hr. eexists _, u, h, resp. split; [exact Hf|]. split_and!; [| | |exact Hr|].
  - unfold ipxeScript, c, smee_Convert. cbn. rewrite Hi, uf_Path_set_Host. done.
  - intros Hh Hpt Hus. unfold u. rewrite uf_Host_set_Path, uf_Host_set. unfold url_host. rewrite Hus, Hh, Hpt.
    destruct (Muxes _ _ rs), (addMiddleware _ _); [done|]. injection Hsv as <-. cbn [hv_config sc_BindPort server_NewConfig foldl].
    rewrite (decide_False (P := "" ≠ "")) by (by intros []). rewrite (decide_False (P := 0%Z ≠ 0%Z)) by (by intros []).
    rewrite decide_True; [done|]. intros E. pose proof (Itoa_nonempty (gl_HTTPPort g)) as Hne. by rewrite E in Hne.
  - pose proof (mux_script h rs (gl_HTTPSPort g) certs (negb (gl_DisableHTTPToHTTPSRedirect g) && certs) (uf_Path u) HS HG) as Hm.
    destruct (Muxes _ _ rs), (addMiddleware _ _); [done|]. injection Hsv as <-. cbn [hv_http fst] in *. apply Hm.
    rewrite Hu. apply script_path_below; [done..|by_decide].
  - destruct (boot_info _ mac) as [i|]; [done|]. rewrite Hb. unfold smee_ScriptHandler, c in Eh. cbn in Eh. rewrite He in Eh. injection Eh as <-. cbn.
    case_bool_decide; case_decide; done.
Qed.
End NetbootChain.

(** ** Addresses in flags *)

Definition bracketed (h : string) : Prop := head (bytes_of h) = Some "["%char ∧ last (bytes_of h) = Some "]"%char.

Lemma splitHostPort_Join h p :
  Forall (λ c, is_digit c = true) (bytes_of p) → (bracketed h → False) → splitHostPort (JoinHostPort h p) = (h, p).
Proof.
  intros Hp Hb. assert (":"%char ∉ bytes_of p) as Hc.
  { intros Hin. by pose proof (proj1 (Forall_forall _ _) Hp _ Hin). }
  assert (∀ x, splitHostPort (of_bytes (x ++ ":"%char :: bytes_of p)) = (of_bytes (unbracket x), p)) as Hx.
  { intros x. unfold splitHostPort. rewrite bytes_of_of_bytes, LastIndexByte_app by done. rewrite drop_app_length, take_app_length.
    assert (validOptionalPort (":"%char :: bytes_of p) = true) as ->.
    { cbn [validOptionalPort]. rewrite decide_True by done. apply forallb_forall. intros c Hin. apply (proj1 (Forall_forall _ _) Hp). by apply list_elem_of_In. }
    rewrite drop_app, drop_ge by lia. replace (length x + 1 - length x) with 1 by lia. rewrite skipn_cons, drop_0, app_nil_l. by rewrite of_bytes_bytes_of. }
  unfold JoinHostPort. case_decide as Hcol.
  - replace ("[" +:+ h +:+ "]:" +:+ p) with (of_bytes (("["%char :: bytes_of h ++ ["]"%char]) ++ ":"%char :: bytes_of p)).
    2:{ apply bytes_of_inj. rewrite bytes_of_of_bytes, !bytes_of_app. cbn. by rewrite <- (assoc_L (++)). }
    rewrite Hx. f_equal. unfold unbracket. rewrite decide_True by (cbn [head]; split; [done|]; change (last ((["["%char] ++ bytes_of h) ++ ["]"%char]) = Some "]"%char); by rewrite last_snoc).
    cbn [drop length]. rewrite length_app. cbn [length]. replace (S (length (bytes_of h) + 1) - 2) with (length (bytes_of h)) by lia.
    by rewrite drop_0, take_app_length, of_bytes_bytes_of.
  - replace (h +:+ ":" +:+ p) with (of_bytes (bytes_of h ++ ":"%char :: bytes_of p)) by (apply bytes_of_inj; by rewrite bytes_of_of_bytes, !bytes_of_app).
    rewrite Hx. f_equal. unfold unbracket. rewrite decide_False by done. by rewrite of_bytes_bytes_of.
Qed.

(** An address and a port that are given are kept, IPv6 addresses too; a missing
    port is the default one. *)
Theorem tink_server_addr_kept publicIP h p :
  h ≠ "" → Forall (λ c, is_digit c = true) (bytes_of p) → (bracketed h → False) →
  tink_server_addr publicIP (JoinHostPort h p) = JoinHostPort h (if decide (p = "") then Itoa DefaultTinkServerPort else p).
Proof.
  intros Hh Hp Hb. unfold tink_server_addr. rewrite splitHostPort_Join by done. by rewrite !(decide_False (P := h = "")) by done.
Qed.

(** An IPv6 address without brackets is cut at its last colon; the URLs of the
    DHCP answers have no brackets around one. *)
Example ipv6_flags :
  tink_server_addr AddrNone "2001:db8::1" = "[2001:db8:]:1" ∧
  tink_server_addr AddrNone "[2001:db8::1]" = "[2001:db8::1]:42113" ∧
  url_host (Addr6 (replicate 15 0 ++ [1])%Z "") 7080 (mkURLBuilder "" 0) = "::1:7080" ∧
  url_host AddrNone 7080 (mkURLBuilder "" 0) = ":7080".
Proof. vm_compute. done. Qed.

(** The usage of the flag lists a format its parser refuses. *)
Example mac_format_empty : ∃ e, macAddrFormatParser MacAddrFormatEmpty = inl e.
Proof. eexists. vm_compute. reflexivity. Qed.

(** The prefix that is mounted is the one that the handler strips. *)
Theorem mounted_prefix_stripped prefix : normalizeURLPrefix prefix = normalizePathPrefix prefix.
Proof. done. Qed.

(** ** Architectures *)

(** Every key of a mapping is an architecture number, and the last pair of one wins. *)
Lemma parse_arch_pairs_keys pairs m m' :
  (∀ k v, m !! k = Some v → (0 ≤ k < 2 ^ 16)%Z) → parse_arch_pairs pairs m = inr m' → ∀ k v, m' !! k = Some v → (0 ≤ k < 2 ^ 16)%Z.
Proof.
  revert m. induction pairs as [|p pairs IH]; intros m Hm; cbn [parse_arch_pairs]; [by intros [= <-]|].
  destruct (Cut p "="%char) as [[k v] []]; [|done]. destruct (Atoi (TrimSpace k)) as [key []]; [done|]. case_decide as Hk; [|done].
  apply IH. intros k' v' [[<- _]|[_ Hl]]%lookup_insert_Some; [done|by eapply Hm].
Qed.

Definition arch_pair (kv : Z * string) : string := Itoa kv.1 +:+ "=" +:+ kv.2.

Lemma TrimSpace_digits s : Forall (λ c, is_digit c = true) (bytes_of s) → TrimSpace s = s.
Proof.
  intros HF. assert (∀ c, c ∈ bytes_of s → Ascii.is_space c = false) as Hd.
  { intros c Hc. pose proof (proj1 (Forall_forall _ _) HF c Hc) as Hx. by destruct c as [[] [] [] [] [] [] [] []]. }
  unfold TrimSpace, trim_list. rewrite (drop_while_false _ (bytes_of s)); [|intros x Hx; by apply Hd, head_Some_elem_of].
  rewrite drop_while_false; [by rewrite reverse_involutive, of_bytes_bytes_of|].
  intros x Hx. apply Hd, elem_of_reverse. by apply head_Some_elem_of.
Qed.

Lemma parse_arch_pairs_print l m :
  NoDup l.*1 → Forall (λ kv, (0 ≤ kv.1 < 2 ^ 16)%Z ∧ TrimSpace kv.2 = kv.2) l →
  parse_arch_pairs (arch_pair <$> l) m = inr (list_to_map l ∪ m).
Proof.
  intros Hn HF. revert m Hn. induction HF as [|[k v] l [Hk Hv] _ IH]; intros m Hn; [by rewrite fmap_nil, list_to_map_nil, (left_id_L ∅ (∪))|].
  apply NoDup_cons in Hn as [Hnk Hn]. cbn [fmap list_fmap parse_arch_pairs]. unfold arch_pair at 1. cbn [fst snd] in *.
  pose proof (Itoa_digits k ltac:(lia)) as Hd. change (Itoa k +:+ "=" +:+ v) with (Itoa k +:+ String "="%char v).
  rewrite Cut_app by (intros Hin; by pose proof (proj1 (Forall_forall _ _) Hd _ Hin)).
  assert (Atoi (Itoa k) = (k, false)) as Ea.
  { destruct (decide (k = 0%Z)) as [->|Hk0]; [done|]. apply Atoi_Itoa. unfold max_int64. lia. }
  rewrite (TrimSpace_digits (Itoa k)) by done. rewrite Ea, Hv. rewrite decide_True by done.
  rewrite IH by done. f_equal. rewrite list_to_map_cons, <- insert_union_r, insert_union_l; [done|]. by apply not_elem_of_list_to_map_1.
Qed.

(** A mapping of architectures is read back from its text. *)
Theorem arch_mapping_roundtrip (m : gmap Z string) :
  map_Forall (λ k v, (0 ≤ k < 2 ^ 16)%Z ∧ TrimSpace v = v ∧ ","%char ∉ bytes_of v) m →
  parse_arch_mapping (Join (arch_pair <$> map_to_list m) ",") = inr m.
Proof.
  intros HF. unfold parse_arch_mapping. destruct (decide (m = ∅)) as [->|Hm]; [by rewrite map_to_list_empty|].
  assert (arch_pair <$> map_to_list m ≠ []) as Hne by (intros E%fmap_nil_inv; by apply map_to_list_empty_iff in E).
  assert (Forall (λ s, ","%char ∉ bytes_of s) (arch_pair <$> map_to_list m)) as Hc.
  { apply Forall_fmap, Forall_forall. intros [k v] Hkv%elem_of_map_to_list. destruct (HF k v Hkv) as (Hk & _ & Hv).
    unfold arch_pair. cbn. rewrite !bytes_of_app, !not_elem_of_app. split_and!; [|by_decide|done].
    intros Hin. by pose proof (proj1 (Forall_forall _ _) (Itoa_digits k ltac:(lia)) _ Hin). }
  rewrite decide_False. 2:{
    intros E. pose proof (Split_Join_sep ","%char _ Hne Hc) as Es. change (String ","%char "") with "," in Es. rewrite E in Es.
    assert ("" ∈ arch_pair <$> map_to_list m) as ([k v] & Ek & _)%list_elem_of_fmap by (rewrite <- Es; left).
    pose proof (Itoa_nonempty k). unfold arch_pair in Ek. apply (f_equal strlen) in Ek. rewrite !strlen_app in Ek. simpl in *. lia. }
  change "," with (String ","%char ""). rewrite Split_Join_sep by done. rewrite parse_arch_pairs_print.
  - by rewrite list_to_map_to_list, (right_id_L ∅ (∪)).
  - apply NoDup_fst_map_to_list.
  - apply Forall_forall. intros [k v] Hkv%elem_of_map_to_list. destruct (HF k v Hkv) as (? & ? & _). done.
Qed.
