(* ===== verification/Startup.v ===== *)
(** * The command: starting up

    crd/crd.go (the custom resource definitions), pkg/backend/kube/apiserver.go
    (waiting for the API server), the indexes of the backend (kube.go, flag/*.go,
    helpers.go) and the sequence of cmd/tinkerbell/cmd.go that puts the services
    together. What reads files, opens connections and talks to the API server
    are the classes [CrdApi], [ApiHealth] and [CmdEnv]. *)
From S2P Require Import Prelude GoStrings GoPath GoNet GoNetip BmcTypes Api Attributes ServerNames Server Dhcp DhcpConv DhcpHandler Backends Tootles IpxeScript GoHttp ReverseProxy Iso IpxeBinary HttpCommon Flags SmeeConfig Command.

(** ** Indexes *)

Definition IndexTypeMACAddr : string := MACAddrIndex.
Definition IndexTypeIPAddr : string := IPAddrIndex.
Definition IndexTypeHardwareName : string := "hardware.metadata.name".
Definition IndexTypeMachineName : string := "machine.metadata.name".
Definition IndexTypeWorkflowAgentID : string := WorkflowAgentIDIndex.
Definition IndexTypeHardwareAgentID : string := HardwareAgentIDIndex.
Definition IndexTypeInstanceID : string := InstanceIDIndex.

Inductive indexed_kind := IxHardware | IxMachine | IxWorkflow.
#[export] Instance indexed_kind_eq_dec : EqDecision indexed_kind.
Proof. solve_decision. Defined.

(** The kind of object and the field of an index that is known. *)
Definition known_indexes : gmap string (indexed_kind * string) :=
  list_to_map [(IndexTypeMACAddr, (IxHardware, MACAddrIndex)); (IndexTypeIPAddr, (IxHardware, IPAddrIndex));
    (IndexTypeHardwareName, (IxHardware, NameIndex)); (IndexTypeMachineName, (IxMachine, NameIndex));
    (IndexTypeWorkflowAgentID, (IxWorkflow, WorkflowAgentIDIndex)); (IndexTypeHardwareAgentID, (IxHardware, HardwareAgentIDIndex));
    (IndexTypeInstanceID, (IxHardware, InstanceIDIndex))].

Definition KubeIndexesSmee : list string := [IndexTypeMACAddr; IndexTypeIPAddr].
Definition KubeIndexesTootles : list string := [IndexTypeIPAddr; IndexTypeInstanceID].
Definition KubeIndexesTinkServer : list string := [IndexTypeWorkflowAgentID; IndexTypeHardwareAgentID].
Definition KubeIndexesSecondStar : list string := [IndexTypeHardwareName; IndexTypeMachineName].

(** The keys of the map that [enabledIndexes] returns. *)
Definition enabledIndexes (smeeEnabled tootlesEnabled tinkServerEnabled secondStarEnabled : bool) : gset string :=
  (if smeeEnabled then list_to_set KubeIndexesSmee else ∅) ∪ (if tootlesEnabled then list_to_set KubeIndexesTootles else ∅)
  ∪ (if tinkServerEnabled then list_to_set KubeIndexesTinkServer else ∅) ∪ (if secondStarEnabled then list_to_set KubeIndexesSecondStar else ∅).

(** What the services list by field: the filters of their calls. *)
Inductive query := QHardware (f : HardwareFilter) | QWorkflows (f : WorkflowFilter) | QMachines (name : string).

Inductive service_query : bool → bool → bool → bool → query → Prop :=
| smee_by_mac b c d mac : service_query true b c d (QHardware (by_mac mac))
| smee_by_ip b c d ip : service_query true b c d (QHardware (by_ip ip))
| tootles_by_ip a c d ip : service_query a true c d (QHardware (mkHardwareFilter "" "" "" "" ip ""))
| tootles_by_instance a c d id : service_query a true c d (QHardware (mkHardwareFilter "" "" "" "" "" id))
| server_by_agent a b d id ns : service_query a b true d (QHardware (by_agent id ns))
| server_workflows a b d id : service_query a b true d (QWorkflows (mkWorkflowFilter "" id))
| secondstar_by_name a b c user : service_query a b c true (QHardware (mkHardwareFilter "" user "" "" "" ""))
| secondstar_machine a b c name : service_query a b c true (QMachines name).

Definition option_fields (k : indexed_kind) (l : list ListOption) : list (indexed_kind * string) :=
  omap (λ o, match o with MatchingFields f _ => Some (k, f) | _ => None end) l.
Definition fields_of (q : query) : list (indexed_kind * string) :=
  match q with
  | QHardware f => option_fields IxHardware (hardwareListOptions f)
  | QWorkflows f => option_fields IxWorkflow (workflowListOptions f)
  | QMachines name => option_fields IxMachine [MatchingFields NameIndex name]
  end.

Lemma enabled_of a b c d t :
  (a = true ∧ t ∈ KubeIndexesSmee) ∨ (b = true ∧ t ∈ KubeIndexesTootles) ∨ (c = true ∧ t ∈ KubeIndexesTinkServer) ∨
  (d = true ∧ t ∈ KubeIndexesSecondStar) → t ∈ enabledIndexes a b c d.
Proof.
  unfold enabledIndexes. rewrite !elem_of_union.
  intros [[-> Ht]|[[-> Ht]|[[-> Ht]|[-> Ht]]]]; rewrite elem_of_list_to_set; tauto.
Qed.

Lemma list_option_fields k f o v x : x ∈ option_fields k (list_option (MatchingFields f v) o) → x = (k, f).
Proof. unfold option_fields, list_option. case_decide; cbn; [by intros ?%not_elem_of_nil|by intros ?%list_elem_of_singleton]. Qed.

Lemma option_fields_app k l l' x : x ∈ option_fields k (l ++ l') ↔ x ∈ option_fields k l ∨ x ∈ option_fields k l'.
Proof. unfold option_fields. by rewrite omap_app, elem_of_app. Qed.

(** The one field of a filter with one value. *)
Lemma selector_field ns sel v x : x ∈ fields_of (QHardware (filter_by ns sel v)) → x = (IxHardware, selector_index sel).
Proof.
  cbn [fields_of]. unfold hardwareListOptions. rewrite !option_fields_app.
  intros [Hx|Hx]; [unfold option_fields, list_option in Hx; case_decide; by apply not_elem_of_nil in Hx|].
  destruct sel; cbn [filter_by hf_ByName hf_ByAgentID hf_ByMACAddress hf_ByIPAddress hf_ByInstanceID selector_index] in *;
    destruct_or! Hx; first [by apply not_elem_of_nil in Hx | by apply list_option_fields in Hx].
Qed.

(** Every field a service lists by is indexed in the backend that is made for the
    services that are enabled: the client has no list that fails for want of an
    index. *)
Theorem indexes_sufficient a b c d q k f :
  service_query a b c d q → (k, f) ∈ fields_of q → ∃ t, t ∈ enabledIndexes a b c d ∧ known_indexes !! t = Some (k, f).
Proof.
  intros Hq Hf. destruct Hq as [b c d mac|b c d ip|a c d ip|a c d id|a b d id ns|a b d id|a b c user|a b c name].
  - apply (selector_field "" SelMAC) in Hf as [= -> ->]. exists IndexTypeMACAddr. split; [apply enabled_of; left|]; by_decide.
  - apply (selector_field "" SelIP) in Hf as [= -> ->]. exists IndexTypeIPAddr. split; [apply enabled_of; left|]; by_decide.
  - apply (selector_field "" SelIP) in Hf as [= -> ->]. exists IndexTypeIPAddr. split; [apply enabled_of; right; left|]; by_decide.
  - apply (selector_field "" SelInstanceID) in Hf as [= -> ->]. exists IndexTypeInstanceID. split; [apply enabled_of; right; left|]; by_decide.
  - apply (selector_field ns SelAgentID) in Hf as [= -> ->]. exists IndexTypeHardwareAgentID. split; [apply enabled_of; do 2 right; left|]; by_decide.
  - cbn [fields_of] in Hf. unfold workflowListOptions in Hf. apply option_fields_app in Hf as [Hf|Hf]; [by apply not_elem_of_nil in Hf|].
    apply list_option_fields in Hf as [= -> ->]. exists IndexTypeWorkflowAgentID. split; [apply enabled_of; do 2 right; left|]; by_decide.
  - apply (selector_field "" SelName) in Hf as [= -> ->]. exists IndexTypeHardwareName. split; [apply enabled_of; do 3 right|]; by_decide.
  - apply list_elem_of_singleton in Hf as [= -> ->]. exists IndexTypeMachineName. split; [apply enabled_of; do 3 right|]; by_decide.
Qed.

(** ** crd.go *)

(** A custom resource definition: its name, the rest of its content, what the
    server assigned, its conditions. *)
Record CRD := mkCRD {
  cd_Name : string; cd_Content : string; cd_ResourceVersion : string; cd_UID : string; cd_Created : Z; cd_Conditions : list (string * string) }.

Class CrdApi (W : Type) := {
  Unstructured : Type;
  crd_Decode : string → res Unstructured;
  to_ApplyConfiguration : Unstructured → option error;
  to_CRD : Unstructured → res CRD;
  a_Apply : Unstructured → W → option error * W;
  a_Get : string → W → res CRD * W;
  a_Update : CRD → W → option error * W;
  a_Create : CRD → W → option error * W;
  (** the pause of [retry.Do]: the error of a context that is done *)
  a_Delay : W → option error * W;
}.

Definition Established : string := "Established".
Definition NamesAccepted : string := "NamesAccepted".

Definition getCondition (crd : CRD) (conditionType : string) : option string := snd <$> head (filter (λ c, c.1 = conditionType) (cd_Conditions crd)).

Section Crd.
Context {W : Type} `{CrdApi W}.
Implicit Types (w : W) (obj : Unstructured).

Definition wrap_result (pre : string) (r : option error * W) : option error * W := (ErrWrap pre <$> r.1, r.2).

Definition crd_apply obj w : option error * W :=
  match to_ApplyConfiguration obj with
  | Some e => (Some (ErrWrap "failed to convert unstructured to CRD: " e), w)
  | None => wrap_result "failed to apply CRD: " (a_Apply obj w)
  end.

(** The new content under the identity of the existing object. *)
Definition adopt (existing crdef : CRD) : CRD :=
  mkCRD (cd_Name crdef) (cd_Content crdef) (cd_ResourceVersion existing) (cd_UID existing) (cd_Created existing) (cd_Conditions crdef).

Definition crd_update obj w : option error * W :=
  match to_CRD obj with
  | inl e => (Some (ErrWrap "failed to convert unstructured to CRD: " e), w)
  | inr crdef =>
      match a_Get (cd_Name crdef) w with
      | (inl e, w) => (Some (ErrWrap ("failed to get existing CRD " +:+ cd_Name crdef +:+ ": ") e), w)
      | (inr existing, w) => wrap_result "failed to update CRD: " (a_Update (adopt existing crdef) w)
      end
  end.

Definition crd_create obj w : option error * W :=
  match to_CRD obj with
  | inl e => (Some (ErrWrap "failed to convert unstructured to CRD: " e), w)
  | inr crdef => wrap_result "failed to create CRD: " (a_Create crdef w)
  end.

(** One definition: applied, or else updated, or else created. *)
Definition migrate_one obj w : option error * W :=
  match crd_apply obj w with
  | (None, w) => (None, w)
  | (Some errApply, w) =>
      match crd_update obj w with
      | (None, w) => (None, w)
      | (Some errUpdate, w) =>
          match crd_create obj w with
          | (None, w) => (None, w)
          | (Some errCreate, w) => (Some (ErrJoin errApply (ErrJoin errUpdate errCreate)), w)
          end
      end
  end.

(** The loop over the map, in the order the range takes. *)
Fixpoint Migrate (crds : list (string * string)) w : option error * W :=
  match crds with
  | [] => (None, w)
  | (_, raw) :: rest =>
      match crd_Decode raw with
      | inl e => (Some (ErrWrap "failed to decode YAML: " e), w)
      | inr obj =>
          match migrate_one obj w with
          | (Some e, w) => (Some e, w)
          | (None, w) => Migrate rest w
          end
      end
  end.

Definition crd_ready (crd : CRD) : option error :=
  if decide (getCondition crd Established ≠ Some "True") then Some (ErrNew ("CRD " +:+ cd_Name crd +:+ " is not established yet"))
  else if decide (getCondition crd NamesAccepted ≠ Some "True") then Some (ErrNew ("CRD " +:+ cd_Name crd +:+ " names are not accepted yet"))
  else None.

Definition ready_once (name : string) w : option error * W :=
  match a_Get name w with
  | (inl e, w) => (Some (ErrWrap ("failed to get CRD " +:+ name +:+ ": ") e), w)
  | (inr crd, w) => (crd_ready crd, w)
  end.

(** [retry.Do] with a number of attempts and a context. *)
Fixpoint retry_ready (n : nat) (name : string) w : option error * W :=
  match n with
  | 0 => (Some (ErrNew "All attempts fail"), w)
  | S n =>
      match ready_once name w with
      | (None, w) => (None, w)
      | (Some e, w) =>
          match a_Delay w with
          | (Some ctx, w) => (Some (ErrJoin e ctx), w)
          | (None, w) => retry_ready n name w
          end
      end
  end.

Fixpoint Ready (crds : list (string * string)) w : option error * W :=
  match crds with
  | [] => (None, w)
  | (name, _) :: rest =>
      match retry_ready 5 name w with
      | (Some e, w) => (Some (ErrWrap ("failed waiting for CRD " +:+ name +:+ " to be ready: ") e), w)
      | (None, w) => Ready rest w
      end
  end.

Definition MigrateAndReady (crds : list (string * string)) w : option error * W :=
  match Migrate crds w with
  | (Some e, w) => (Some e, w)
  | (None, w) => Ready crds w
  end.
End Crd.

(** *** What a migration that succeeds has done *)

Inductive mevent (U : Type) :=
| MApply (obj : U) (err : option error)
| MGet (name : string) (r : res CRD)
| MUpdate (crd : CRD) (err : option error)
| MCreate (crd : CRD) (err : option error).
Arguments MApply {U}. Arguments MGet {U}. Arguments MUpdate {U}. Arguments MCreate {U}.

Section Migrated.
Context {W : Type} (A : CrdApi W).

Local Abbreviation U := (@Unstructured W A).

Definition recorded_crd : CrdApi (W * list (mevent U)) := {|
  crd_Decode := crd_Decode;
  to_ApplyConfiguration := to_ApplyConfiguration;
  to_CRD := to_CRD;
  a_Apply o := recorded (λ e, [MApply o e]) (a_Apply o);
  a_Get n := recorded (λ r, [MGet n r]) (a_Get n);
  a_Update c := recorded (λ e, [MUpdate c e]) (a_Update c);
  a_Create c := recorded (λ e, [MCreate c e]) (a_Create c);
  a_Delay := recorded (λ _, []) a_Delay;
|}.
#[local] Existing Instance recorded_crd.

(** The server took the definition, in one of the three ways. *)
Definition accepted (obj : U) (es : list (mevent U)) : Prop :=
  MApply obj None ∈ es ∨
  ∃ crd, @to_CRD W A obj = inr crd ∧ ((∃ existing, MGet (cd_Name crd) (inr existing) ∈ es ∧ MUpdate (adopt existing crd) None ∈ es) ∨ MCreate crd None ∈ es).

Lemma accepted_mono obj (es es' : list (mevent U)) : es ⊆ es' → accepted obj es → accepted obj es'.
Proof. unfold accepted. intros Hs [Ha|(crd & Hc & [(x & Hx & Hu)|Ha])]; [left|right; exists crd; split; [done|]..]; set_solver. Qed.

Lemma migrate_one_log (obj : U) (wl : W * list (mevent U)) r wl' :
  @migrate_one _ recorded_crd obj wl = (r, wl') → ∃ es, wl'.2 = wl.2 ++ es ∧ (r = None → accepted obj es).
Proof.
  unfold migrate_one. destruct (@crd_apply _ recorded_crd obj wl) as [ra wa] eqn:Ea.
  assert (∃ es, wa.2 = wl.2 ++ es ∧ (ra = None → accepted obj es)) as (ea & Ha & Ga).
  { unfold crd_apply in Ea. destruct (@to_ApplyConfiguration _ recorded_crd obj); [injection Ea as <- <-; exists []; by rewrite app_nil_r|].
    unfold wrap_result in Ea. destruct (@a_Apply _ recorded_crd obj wl) as [e w1] eqn:E1. apply recorded_inv in E1 as [_ E1]. injection Ea as <- <-. cbn.
    exists [MApply obj e]. split; [done|]. intros Hn. destruct e; [done|]. left. left. }
  destruct ra as [e1|]; [|intros [= <- <-]; eauto].
  destruct (@crd_update _ recorded_crd obj wa) as [ru wu] eqn:Eu.
  assert (∃ es, wu.2 = wa.2 ++ es ∧ (ru = None → accepted obj es)) as (eu & Hu & Gu).
  { unfold crd_update in Eu. destruct (@to_CRD _ recorded_crd obj) as [e|crd] eqn:Ec; [injection Eu as <- <-; exists []; by rewrite app_nil_r|].
    destruct (a_Get _ wa) as [[e|x] w1] eqn:E1; apply recorded_inv in E1 as [_ E1]; [injection Eu as <- <-; eexists; by split|].
    unfold wrap_result in Eu. destruct (a_Update _ w1) as [e w2] eqn:E2. apply recorded_inv in E2 as [_ E2]. injection Eu as <- <-. cbn [snd].
    exists [MGet (cd_Name crd) (inr x); MUpdate (adopt x crd) e]. split; [by rewrite E2, E1, <- (assoc_L (++))|].
    intros Hn. destruct e; [done|]. right. exists crd. split; [done|]. left. exists x. set_solver. }
  destruct ru as [e2|].
  2:{ intros [= <- <-]. exists (ea ++ eu). split; [by rewrite Hu, Ha, <- (assoc_L (++))|]. intros _. eapply accepted_mono, Gu; set_solver. }
  destruct (@crd_create _ recorded_crd obj wu) as [rc wc] eqn:Ec.
  assert (∃ es, wc.2 = wu.2 ++ es ∧ (rc = None → accepted obj es)) as (ec & Hc & Gc).
  { unfold crd_create in Ec. destruct (@to_CRD _ recorded_crd obj) as [e|crd] eqn:Et; [injection Ec as <- <-; exists []; by rewrite app_nil_r|].
    unfold wrap_result in Ec. destruct (a_Create _ wu) as [e w2] eqn:E2. apply recorded_inv in E2 as [_ E2]. injection Ec as <- <-. cbn [snd].
    exists [MCreate crd e]. split; [done|]. intros Hn. destruct e; [done|]. right. exists crd. split; [done|]. right. left. }
  assert (wc.2 = wl.2 ++ (ea ++ eu ++ ec)) as Hl by (by rewrite Hc, Hu, Ha, <- !(assoc_L (++))).
  destruct rc as [e3|]; intros [= <- <-]; (exists (ea ++ eu ++ ec); split; [done|]); [done|].
  intros _. eapply accepted_mono, Gc; [set_solver|done].
Qed.

Lemma Migrate_log crds (wl : W * list (mevent U)) r wl' :
  Migrate crds wl = (r, wl') →
  ∃ es, wl'.2 = wl.2 ++ es ∧ (r = None → ∀ n raw, (n, raw) ∈ crds → ∃ obj : U, @crd_Decode W A raw = inr obj ∧ accepted obj es).
Proof.
  revert wl. induction crds as [|[n raw] crds IH]; intros wl; cbn [Migrate].
  { intros [= <- <-]. exists []. rewrite app_nil_r. split; [done|]. by intros _ n raw ?%not_elem_of_nil. }
  destruct (@crd_Decode _ recorded_crd raw) as [e|obj] eqn:Ed; [intros [= <- <-]; exists []; by rewrite app_nil_r|].
  destruct (@migrate_one _ recorded_crd obj wl) as [r1 w1] eqn:E1. apply migrate_one_log in E1 as (es1 & H1 & G1).
  destruct r1 as [e|]; [intros [= <- <-]; by exists es1|]. intros (es2 & H2 & G2)%IH. exists (es1 ++ es2).
  split; [by rewrite H2, H1, <- (assoc_L (++))|]. intros Hn n' raw' [[= -> ->]|Hin]%elem_of_cons.
  - exists obj. split; [done|]. eapply accepted_mono, G1; [set_solver|done].
  - destruct (G2 Hn n' raw' Hin) as (o & Ho & Ha). exists o. split; [done|]. eapply accepted_mono, Ha. set_solver.
Qed.

Lemma retry_ready_log k n (wl : W * list (mevent U)) r wl' :
  retry_ready k n wl = (r, wl') →
  ∃ es, wl'.2 = wl.2 ++ es ∧ length es ≤ k ∧ (r = None → ∃ crd, MGet n (inr crd) ∈ es ∧ crd_ready crd = None).
Proof.
  revert wl. induction k as [|k IH]; intros wl; cbn [retry_ready]; [intros [= <- <-]; exists []; by rewrite app_nil_r|].
  unfold ready_once. destruct (a_Get n wl) as [g w1] eqn:E1. apply recorded_inv in E1 as [_ E1].
  assert (∀ e, (match a_Delay w1 with (Some ctx, w) => (Some (ErrJoin e ctx), w) | (None, w) => retry_ready k n w end) = (r, wl') →
    ∃ es, wl'.2 = wl.2 ++ es ∧ length es ≤ S k ∧ (r = None → ∃ crd, MGet n (inr crd) ∈ es ∧ crd_ready crd = None)) as Hd.
  { intros e. destruct (a_Delay w1) as [[ctx|] w2] eqn:E2; apply recorded_inv in E2 as [_ E2]; rewrite app_nil_r in E2.
    - intros [= <- <-]. exists [MGet n g]. rewrite E2, E1. split; [done|]. simpl. split; [lia|done].
    - intros (es & H2 & Hl & G2)%IH. exists (MGet n g :: es). rewrite H2, E2, E1, <- (assoc_L (++)). split; [done|]. simpl. split; [lia|].
      intros Hn. destruct (G2 Hn) as (crd & Hc & Hr). exists crd. split; [by right|done]. }
  destruct g as [e|crd]; [apply Hd|]. destruct (crd_ready crd) as [e|] eqn:Er; [apply Hd|].
  intros [= <- <-]. exists [MGet n (inr crd)]. split; [done|]. simpl. split; [lia|]. intros _. exists crd. split; [left|done].
Qed.

Lemma Ready_log crds (wl : W * list (mevent U)) r wl' :
  Ready crds wl = (r, wl') →
  ∃ es, wl'.2 = wl.2 ++ es ∧ length es ≤ 5 * length crds ∧
    (r = None → ∀ n raw, (n, raw) ∈ crds → ∃ crd, MGet n (inr crd) ∈ es ∧ crd_ready crd = None).
Proof.
  revert wl. induction crds as [|[n raw] crds IH]; intros wl; cbn [Ready].
  { intros [= <- <-]. exists []. rewrite app_nil_r. split; [done|]. split; [simpl; lia|]. by intros _ n raw ?%not_elem_of_nil. }
  destruct (retry_ready 5 n wl) as [r1 w1] eqn:E1. apply retry_ready_log in E1 as (es1 & H1 & L1 & G1). cbn [length].
  destruct r1 as [e|]; [intros [= <- <-]; exists es1; split; [done|]; split; [lia|done]|].
  intros (es2 & H2 & L2 & G2)%IH. exists (es1 ++ es2). split; [by rewrite H2, H1, <- (assoc_L (++))|]. rewrite length_app. split; [lia|].
  intros Hn n' raw' [[= -> ->]|Hin]%elem_of_cons.
  - destruct G1 as (crd & Hc & Hr); [done|]. exists crd. split; [set_solver|done].
  - destruct (G2 Hn n' raw' Hin) as (crd & Hc & Hr). exists crd. split; [set_solver|done].
Qed.

(** A migration that succeeds has had every definition accepted by the API
    server, applied, updated under the identity of the one that was there, or
    created, before it looked at any of them; and has then seen each of them
    established with its names accepted, with at most five looks at each. *)
Theorem migrations_done crds w w' (log : list (mevent U)) :
  MigrateAndReady crds (w, []) = (None, (w', log)) →
  ∃ writes looks, log = writes ++ looks ∧ length looks ≤ 5 * length crds ∧
    ∀ n raw, (n, raw) ∈ crds →
      (∃ obj : U, @crd_Decode W A raw = inr obj ∧ accepted obj writes) ∧ (∃ crd, MGet n (inr crd) ∈ looks ∧ crd_ready crd = None).
Proof.
  unfold MigrateAndReady. destruct (Migrate crds (w, [])) as [r1 w1] eqn:E1. apply Migrate_log in E1 as (es1 & H1 & G1).
  destruct r1 as [e|]; [done|]. intros (es2 & H2 & L2 & G2)%Ready_log. simpl in *. exists es1, es2. split; [by rewrite H2, H1|]. split; [done|].
  intros n raw Hin. split; [by eapply G1|by eapply G2].
Qed.
End Migrated.

(** ** apiserver.go *)

Class ApiHealth (W : Type) := {
  h_Get : string → W → res string * W;
  h_Now : W → Z * W;
  (** the wait for the poll interval: whether the context is done first *)
  h_After : Z → W → option error * W;
}.

Definition endpointLivez : string := "/livez".
Definition endpointReady : string := "/readyz".

Section Wait.
Context {W : Type} `{ApiHealth W}.
Implicit Types (w : W).

(** [strings.EqualFold] on the answer of an endpoint, which is ASCII. *)
Definition checkEndpoint (endpoint response : string) w : option error * W :=
  match h_Get endpoint w with
  | (inl e, w) => (Some (ErrWrap "API server not ready yet, error: " e), w)
  | (inr resp, w) =>
      if decide (resp ≠ "" ∧ ToLower resp = ToLower response) then (None, w) else (Some (ErrNew "API server not ready yet"), w)
  end.

(** Both endpoints, the second also when the first fails. *)
Definition check_both w : bool * W :=
  let '(errHealth, w) := checkEndpoint endpointLivez "ok" w in
  let '(errReady, w) := checkEndpoint endpointReady "ok" w in
  (bool_decide (errHealth = None ∧ errReady = None), w).

Definition wait_timeout : error := ErrNew "timed out waiting for API server to be healthy and ready".

(** The loop until the deadline; [None] when the turns are used up. *)
Fixpoint wait_api (fuel : nat) (pollInterval deadline : Z) w : option (option error) * W :=
  match fuel with
  | 0 => (None, w)
  | S fuel =>
      let '(now, w) := h_Now w in
      if decide (now < deadline)%Z then
        match h_After pollInterval w with
        | (Some err, w) => (Some (Some err), w)
        | (None, w) =>
            let '(ok, w) := check_both w in
            if (ok : bool) then (Some None, w) else wait_api fuel pollInterval deadline w
        end
      else (Some (Some wait_timeout), w)
  end.

Definition WaitForAPIServer (fuel : nat) (maxWaitTime pollInterval : Z) w : option (option error) * W :=
  let '(ok, w) := check_both w in
  if (ok : bool) then (Some None, w)
  else
    let '(now, w) := h_Now w in
    wait_api fuel pollInterval (now + maxWaitTime)%Z w.

(** A clock: no call turns it back, and a wait that is not cut short lasts its interval. *)
Context (clock : W → Z).
Context (clock_Now : ∀ w t w', h_Now w = (t, w') → t = clock w ∧ (clock w ≤ clock w')%Z).
Context (clock_Get : ∀ e w r w', h_Get e w = (r, w') → (clock w ≤ clock w')%Z).
Context (clock_After : ∀ d w r w', h_After d w = (r, w') → (clock w ≤ clock w')%Z ∧ (r = None → clock w + d ≤ clock w')%Z).

Lemma check_both_clock w b w' : check_both w = (b, w') → (clock w ≤ clock w')%Z.
Proof.
  assert (∀ e s w r w', checkEndpoint e s w = (r, w') → (clock w ≤ clock w')%Z) as Hc.
  { intros e s w0 r w1. unfold checkEndpoint. destruct (h_Get e w0) as [[x|x] w2] eqn:E; apply clock_Get in E; [|case_decide]; by intros [= _ <-]. }
  unfold check_both. destruct (checkEndpoint endpointLivez "ok" w) as [e1 w1] eqn:E1. destruct (checkEndpoint endpointReady "ok" w1) as [e2 w2] eqn:E2.
  intros [= _ <-]. apply Hc in E1, E2. lia.
Qed.

Lemma wait_api_ends poll deadline fuel w :
  (0 < poll)%Z → (deadline - clock w ≤ poll * Z.of_nat fuel)%Z → ∃ r w', wait_api (S fuel) poll deadline w = (Some r, w').
Proof.
  intros Hp. revert w. induction fuel as [|fuel IH]; intros w Hf; cbn [wait_api].
  { destruct (h_Now w) as [now w1] eqn:E1. apply clock_Now in E1 as [-> E1]. rewrite decide_False by lia. eauto. }
  destruct (h_Now w) as [now w1] eqn:E1. apply clock_Now in E1 as [-> E1]. case_decide as Hd; [|eauto].
  destruct (h_After poll w1) as [r2 w2] eqn:E2. apply clock_After in E2 as [E2 E2']. destruct r2 as [e|]; [eauto|].
  destruct (check_both w2) as [b w3] eqn:E3. apply check_both_clock in E3. destruct b; [eauto|]. specialize (E2' eq_refl). apply IH. lia.
Qed.

(** The wait ends: after as many turns as the interval fits into the time, and one. *)
Theorem wait_returns maxWait poll w :
  (0 < poll)%Z → (0 ≤ maxWait)%Z → ∃ r w', WaitForAPIServer (S (Z.to_nat (maxWait / poll + 1))) maxWait poll w = (Some r, w').
Proof.
  intros Hp Hm. unfold WaitForAPIServer. destruct (check_both w) as [b w1]. destruct b; [eauto|].
  destruct (h_Now w1) as [now w2] eqn:E2. apply clock_Now in E2 as [-> E2]. apply wait_api_ends; [done|].
  pose proof (Z.div_mod maxWait poll ltac:(lia)). pose proof (Z.mod_pos_bound maxWait poll Hp). pose proof (Z.div_pos maxWait poll ltac:(lia) ltac:(lia)). nia.
Qed.
End Wait.

(** ** defaults.go: the address of the host *)

(** An interface address is an IP network, or something else. *)
Record NetInterface := mkNetInterface { ni_Name : string; ni_Addrs : res (list (option (list Z))) }.
Record NetRoute := mkNetRoute { nr_Dst : option (list Z); nr_Gw : bool; nr_Interface : res NetInterface }.

Definition addr_from4 (ip : list Z) : option Addr := if decide (To4 ip = []) then None else Some (Addr4 (To4 ip)).

(** The loops over the addresses: the first one of the network that is wanted. *)
Definition first_v4 (ok : list Z → bool) (addrs : list (option (list Z))) : option Addr :=
  head (omap (λ a, match a with Some ip => if ok ip then addr_from4 ip else None | None => None end) addrs).

Definition ipByInterface (interfaces : list NetInterface) (name : string) : Addr :=
  match list_find (λ i, ni_Name i = name) interfaces with
  | None => AddrNone
  | Some (_, iface) => match ni_Addrs iface with inl _ => AddrNone | inr addrs => default AddrNone (first_v4 (λ _, true) addrs) end
  end.

(** [IP.IsGlobalUnicast] of an IPv4 address. *)
Definition IsGlobalUnicast4 (ip : list Z) : bool :=
  match ip with
  | [a; b; c; d] =>
      negb (bool_decide (ip = [255; 255; 255; 255]%Z)) && negb (bool_decide (ip = [0; 0; 0; 0]%Z)) && negb (bool_decide (a = 127%Z))
      && negb (bool_decide (224 ≤ a < 240)%Z) && negb (bool_decide (a = 169%Z ∧ b = 254%Z))
  | _ => false
  end.

Definition autoDetectPublicIPv4 (addrs : res (list (option (list Z)))) : res Addr :=
  match addrs with
  | inl e => inl (ErrWrap "unable to auto-detect public IPv4: " e)
  | inr l => match first_v4 (λ ip, IsGlobalUnicast4 (To4 ip)) l with Some a => inr a | None => inl (ErrNew "unable to auto-detect public IPv4") end
  end.

Definition loopback4 (ip : list Z) : bool :=
  match To4 ip with o :: _ => bool_decide (o = 127%Z) | [] => IP_Equal ip (replicate 15 0 ++ [1])%Z end.

(** [a || b && c] of the route: the gateway counts only for the zero destination. *)
Definition default_route (r : NetRoute) : bool :=
  match nr_Dst r with None => true | Some dst => IP_Equal dst IPv4zero && nr_Gw r end.

Fixpoint gateway_address (routes : list NetRoute) : res Addr :=
  match routes with
  | [] => inl (ErrNew "no default gateway found")
  | r :: rest =>
      if default_route r then
        match nr_Interface r with
        | inl e => inl (ErrNew ("failed to get interface by index: " +:+ error_msg e))
        | inr iface =>
            match ni_Addrs iface with
            | inl e => inl (ErrNew ("failed to get addresses for interface " +:+ ni_Name iface +:+ ": " +:+ error_msg e))
            | inr addrs => match first_v4 (λ ip, negb (loopback4 ip)) addrs with Some a => inr a | None => gateway_address rest end
            end
        end
      else gateway_address rest
  end.
Definition autoDetectPublicIpv4WithDefaultGateway (routes : res (list NetRoute)) : res Addr :=
  match routes with inl e => inl (ErrNew ("failed to list routes: " +:+ error_msg e)) | inr l => gateway_address l end.

Definition detectPublicIPv4 (env : string) (interfaces : list NetInterface) (routes : res (list NetRoute)) (addrs : res (list (option (list Z)))) : Addr :=
  let ip := if decide (env ≠ "") then ipByInterface interfaces env else AddrNone in
  if IsValid ip then ip
  else
    match autoDetectPublicIpv4WithDefaultGateway routes with
    | inr a => a
    | inl _ => match autoDetectPublicIPv4 addrs with inr a => a | inl _ => AddrNone end
    end.

Lemma first_v4_sound ok l a : first_v4 ok l = Some a → ∃ ip, Some ip ∈ l ∧ ok ip = true ∧ To4 ip ≠ [] ∧ a = Addr4 (To4 ip).
Proof.
  unfold first_v4. intros Ha%head_Some_elem_of. apply list_elem_of_omap in Ha as ([ip|] & Hin & E); [|done].
  destruct (ok ip) eqn:Eo; [|done]. unfold addr_from4 in E. case_decide; simplify_eq. eauto.
Qed.

(** The addresses of the host, wherever they are read from. *)
Definition host_addresses (interfaces : list NetInterface) (routes : res (list NetRoute)) (addrs : res (list (option (list Z)))) : list (option (list Z)) :=
  let of_res {A} (r : res (list A)) : list A := match r with inr l => l | inl _ => [] end in
  concat (of_res ∘ ni_Addrs <$> interfaces) ++ of_res addrs ++
  concat ((λ r, match nr_Interface r with inr i => of_res (ni_Addrs i) | inl _ => [] end) <$> of_res routes).

Lemma gateway_address_sound routes a :
  gateway_address routes = inr a →
  ∃ r i l ip, r ∈ routes ∧ nr_Interface r = inr i ∧ ni_Addrs i = inr l ∧ Some ip ∈ l ∧ To4 ip ≠ [] ∧ a = Addr4 (To4 ip).
Proof.
  induction routes as [|r routes IH]; cbn [gateway_address]; [done|].
  assert (gateway_address routes = inr a → ∃ r0 i l ip, r0 ∈ r :: routes ∧ nr_Interface r0 = inr i ∧ ni_Addrs i = inr l ∧ Some ip ∈ l ∧ To4 ip ≠ [] ∧ a = Addr4 (To4 ip)) as Hn.
  { intros (r0 & i & l & ip & Hr & ?)%IH. exists r0, i, l, ip. split; [by right|done]. }
  destruct (default_route r); [|done]. destruct (nr_Interface r) as [e|i] eqn:Ei; [done|]. destruct (ni_Addrs i) as [e|l] eqn:El; [done|].
  destruct (first_v4 _ l) as [x|] eqn:Ef; [|done]. intros [= <-]. apply first_v4_sound in Ef as (ip & Hin & _ & Hne & ->).
  exists r, i, l, ip. split; [left|done].
Qed.

(** The public address, when one is found, is an IPv4 address of the host. *)
Theorem public_address_local env interfaces routes addrs a :
  detectPublicIPv4 env interfaces routes addrs = a → IsValid a = true →
  ∃ ip, Some ip ∈ host_addresses interfaces routes addrs ∧ To4 ip ≠ [] ∧ a = Addr4 (To4 ip).
Proof.
  unfold detectPublicIPv4, host_addresses. set (ip0 := if decide _ then _ else _). destruct (IsValid ip0) eqn:E0; intros <- Hv.
  - subst ip0. case_decide; [|done]. unfold ipByInterface in *. destruct (list_find _ interfaces) as [[k iface]|] eqn:Ef; [|done].
    apply list_find_Some in Ef as (Hk & _ & _). destruct (ni_Addrs iface) as [|l] eqn:El; [done|].
    destruct (first_v4 _ l) as [x|] eqn:E1; [|done]. apply first_v4_sound in E1 as (ip & Hin & _ & Hne & ->). exists ip. split; [|done].
    apply elem_of_app. left. apply list_elem_of_In, in_concat. exists l. split; [|by apply list_elem_of_In].
    apply list_elem_of_In, list_elem_of_fmap. exists iface. simpl. rewrite El. split; [done|by eapply list_elem_of_lookup_2].
  - destruct (autoDetectPublicIpv4WithDefaultGateway routes) as [e|x] eqn:Eg.
    + destruct (autoDetectPublicIPv4 addrs) as [e'|x] eqn:Ea; [done|]. unfold autoDetectPublicIPv4 in Ea. destruct addrs as [|l]; [done|].
      destruct (first_v4 _ l) as [y|] eqn:E1; [|done]. simplify_eq. apply first_v4_sound in E1 as (ip & Hin & _ & Hne & ->). exists ip. set_solver.
    + unfold autoDetectPublicIpv4WithDefaultGateway in Eg. destruct routes as [|rs]; [done|].
      apply gateway_address_sound in Eg as (r & i & l & ip & Hr & Hi & Hl & Hin & Hne & ->). exists ip. split; [|done].
      rewrite !elem_of_app. do 2 right. apply list_elem_of_In, in_concat. exists l. split; [|by apply list_elem_of_In].
      apply list_elem_of_In, list_elem_of_fmap. exists r. rewrite Hi. simpl. by rewrite Hl.
Qed.

(** ** cmd.go: the sequence *)

Class CmdEnv (W : Type) := {
  e_LoadX509KeyPair : string → string → W → option error * W;
  e_NewServerTLSFromFile : string → string → W → option error * W;
  e_inCluster : W → bool * W;
  e_HostKey : W → option error * W;
  e_otelInit : W → option error * W;
  e_newKubeBackend : option (gset string) → W → option error * W;
  e_WaitForAPIServer : W → option error * W;
  e_NewTinkerbell : W → option error * W;
  e_MigrateAndReady : W → option error * W;
  e_newFileBackend : W → option error * W;
}.

(** The settings of the services other than Smee that the sequence reads. *)
Record CmdFlags := mkCmdFlags {
  cf_TinkBindAddr : Addr; cf_TinkBindPort : Z;
  cf_ControllerLeader : bool; cf_ControllerLeaderNamespace : string;
  cf_RufioLeader : bool; cf_RufioLeaderNamespace : string;
  cf_UIAutoLogin : bool;
}.

(** Who has a backend; the controllers have the configuration of its client. *)
Record wiring := mkwiring { wi_Smee : bool; wi_Tootles : bool; wi_TinkServer : bool; wi_Controllers : bool; wi_SecondStar : bool; wi_AutoLogin : option string }.

Section Sequence.
Context `{DhcpLib} `{UrlStruct} {W : Type} `{CmdEnv W}.
Implicit Types (w : W).

Record plan := mkplan {
  pl_Smee : smee_Config;
  pl_Certs : bool;
  pl_TinkBind : AddrPort;
  pl_TinkTLS : bool;
  pl_ControllerLeaderNamespace : string;
  pl_RufioLeaderNamespace : string;
  pl_SecondStarBind : Addr;
  pl_Wiring : wiring;
}.

Definition set_runtime (backend useTLS : bool) (endpoint : smee_OTEL) (c : smee_Config) : smee_Config :=
  mksmee_Config backend (sc_DHCP c) (sc_IPXE c) (sc_ISO c) endpoint (sc_PXEHTTP c) (sc_Syslog c) (sc_TFTP c)
    (mksmee_TinkServer (useTLS || tk_UseTLS (sc_TinkServer c)) (tk_InsecureTLS (sc_TinkServer c)) (tk_AddrPort (sc_TinkServer c))).

Definition tls_given (g : GlobalConfig) : bool := bool_decide (gl_CertFile g ≠ "" ∧ gl_KeyFile g ≠ "").

(** The certificate and the key, read once for HTTP and once for gRPC. *)
Definition load_tls (g : GlobalConfig) w : option error * W :=
  if tls_given g then
    match e_LoadX509KeyPair (gl_CertFile g) (gl_KeyFile g) w with
    | (Some e, w) => (Some (ErrWrap "failed to load TLS certificates for Smee HTTP: " e), w)
    | (None, w) =>
        match e_NewServerTLSFromFile (gl_CertFile g) (gl_KeyFile g) w with
        | (Some e, w) => (Some (ErrWrap "failed to load TLS credentials for Tink Server gRPC: " e), w)
        | (None, w) => (None, w)
        end
    end
  else (None, w).

(** The migrations, on a backend without indexes. *)
Definition migrate_step w : option error * W :=
  match e_newKubeBackend None w with
  | (Some e, w) => (Some (ErrWrap "failed to create kube backend with no indexes: " e), w)
  | (None, w) =>
      match e_WaitForAPIServer w with
      | (Some e, w) => (Some (ErrWrap "failed to wait for API server health: " e), w)
      | (None, w) =>
          match e_NewTinkerbell w with
          | (Some e, w) => (Some (ErrWrap "failed to create CRD migrator: " e), w)
          | (None, w) =>
              match e_MigrateAndReady w with
              | (Some e, w) => (Some (ErrWrap "CRD migrations failed: " e), w)
              | (None, w) => (None, w)
              end
          end
      end
  end.

Definition backend_of (g : GlobalConfig) : string := if decide (numEnabled g = 0) then "pass" else gl_Backend g.

Definition backend_indexes (g : GlobalConfig) : gset string :=
  enabledIndexes (gl_EnableSmee g) (gl_EnableTootles g) (gl_EnableTinkServer g) (gl_EnableSecondStar g).

Definition select_backend (g : GlobalConfig) (f : CmdFlags) w : res wiring * W :=
  let b := backend_of g in
  if decide (b = "kube") then
    let '(e, w) := if gl_EnableCRDMigrations g then migrate_step w else (None, w) in
    match e with
    | Some e => (inl e, w)
    | None =>
        match e_newKubeBackend (Some (backend_indexes g)) w with
        | (Some e, w) => (inl (ErrWrap "failed to create kube backend: " e), w)
        | (None, w) => (inr (mkwiring true true true true true (if cf_UIAutoLogin f then Some (gl_BackendKubeNamespace g) else None)), w)
        end
    end
  else if decide (b = "file") then
    match e_newFileBackend w with
    | (Some e, w) => (inl (ErrWrap "failed to create file backend: " e), w)
    | (None, w) => (inr (mkwiring true false false false false None), w)
    end
  else if decide (b = "none") then (inr (mkwiring true true false false false None), w)
  else if decide (b = "pass") then (inr (mkwiring false false false false false None), w)
  else (inl (ErrNew ("unknown backend " +:+ dquote b)), w).

(** From the parsed flags to the services, which are started with the plan. *)
Definition configure (g : GlobalConfig) (s : SmeeConfig) (f : CmdFlags) (otel : smee_OTEL) w : res plan * W :=
  let s := smee_Convert (gl_TrustedProxies g) (gl_PublicIP g) (gl_BindAddr g) (gl_HTTPPort g) s in
  match load_tls g w with
  | (Some e, w) => (inl e, w)
  | (None, w) =>
      let bind := tink_server_Convert (cf_TinkBindAddr f) (cf_TinkBindPort f) (gl_BindAddr g) in
      let '(inc, w) := e_inCluster w in
      let controllerNs := leaderElectionNamespace inc (cf_ControllerLeader f) (cf_ControllerLeaderNamespace f) in
      let '(inc, w) := e_inCluster w in
      let rufioNs := leaderElectionNamespace inc (cf_RufioLeader f) (cf_RufioLeaderNamespace f) in
      match e_HostKey w with
      | (Some e, w) => (inl (ErrWrap "failed to convert secondstar config: " e), w)
      | (None, w) =>
          match e_otelInit w with
          | (Some e, w) => (inl (ErrWrap "failed to initialize OpenTelemetry: " e), w)
          | (None, w) =>
              match select_backend g f w with
              | (inl e, w) => (inl e, w)
              | (inr wi, w) =>
                  (inr (mkplan (set_runtime (wi_Smee wi) (tls_given g) otel (sf_Config s)) (tls_given g) bind (tls_given g) controllerNs rufioNs
                     (gl_BindAddr g) wi), w)
              end
          end
      end
  end.

(** The services that run, in the order they are started. *)
Definition services (g : GlobalConfig) : list string :=
  (if gl_EnableETCD g then ["etcd"] else []) ++ (if gl_EnableKubeAPIServer g then ["kube-apiserver"; "kube-controller-manager"] else []) ++
  (if gl_EnableSmee g then ["smee"] else []) ++ ["http"] ++ (if gl_EnableTinkServer g then ["tink-server"] else []) ++
  (if gl_EnableTinkController g then ["tink-controller"] else []) ++ (if gl_EnableRufio g then ["rufio"] else []) ++
  (if gl_EnableSecondStar g then ["secondstar"] else []).

(** What the command returns when the first of them to fail has failed. *)
Definition execute_result (err : option error) : option error :=
  match err with Some e => if is_ctx Canceled e then None else Some e | None => None end.
End Sequence.

(** *** What has happened before the services run *)

Inductive sevent :=
| STls (err : option error)
| SBackend (indexes : option (gset string)) (err : option error)
| SHealthy (err : option error)
| SMigrate (err : option error)
| SFile (err : option error).

Section Prepared.
Context `{DhcpLib} `{UrlStruct} {W : Type} (E : CmdEnv W).
Local Abbreviation silent f := (recorded (λ _, []) f).

Definition recorded_env : CmdEnv (W * list sevent) := {|
  e_LoadX509KeyPair c k := recorded (λ e, [STls e]) (e_LoadX509KeyPair c k);
  e_NewServerTLSFromFile c k := recorded (λ e, [STls e]) (e_NewServerTLSFromFile c k);
  e_inCluster := silent e_inCluster;
  e_HostKey := silent e_HostKey;
  e_otelInit := silent e_otelInit;
  e_newKubeBackend i := recorded (λ e, [SBackend i e]) (e_newKubeBackend i);
  e_WaitForAPIServer := recorded (λ e, [SHealthy e]) e_WaitForAPIServer;
  e_NewTinkerbell := silent e_NewTinkerbell;
  e_MigrateAndReady := recorded (λ e, [SMigrate e]) e_MigrateAndReady;
  e_newFileBackend := recorded (λ e, [SFile e]) e_newFileBackend;
|}.
#[local] Existing Instance recorded_env.

Lemma load_tls_log g (wl wl' : W * list sevent) :
  load_tls g wl = (None, wl') → wl'.2 = wl.2 ++ (if tls_given g then [STls None; STls None] else []).
Proof.
  unfold load_tls. destruct (tls_given g); [|intros [= <-]; by rewrite app_nil_r].
  destruct (e_LoadX509KeyPair _ _ wl) as [[e|] w1] eqn:E1; [done|]. apply recorded_inv in E1 as [_ E1].
  destruct (e_NewServerTLSFromFile _ _ w1) as [[e|] w2] eqn:E2; [done|]. apply recorded_inv in E2 as [_ E2].
  intros [= <-]. by rewrite E2, E1, <- (assoc_L (++)).
Qed.

Lemma migrate_step_log (wl wl' : W * list sevent) :
  migrate_step wl = (None, wl') → wl'.2 = wl.2 ++ [SBackend None None; SHealthy None; SMigrate None].
Proof.
  unfold migrate_step. destruct (e_newKubeBackend None wl) as [[e|] w1] eqn:E1; [done|]. apply recorded_inv in E1 as [_ E1].
  destruct (e_WaitForAPIServer w1) as [[e|] w2] eqn:E2; [done|]. apply recorded_inv in E2 as [_ E2].
  destruct (e_NewTinkerbell w2) as [[e|] w3] eqn:E3; [done|]. apply recorded_inv in E3 as [_ E3].
  destruct (e_MigrateAndReady w3) as [[e|] w4] eqn:E4; [done|]. apply recorded_inv in E4 as [_ E4].
  intros [= <-]. by rewrite E4, E3, E2, E1, app_nil_r, <- !(assoc_L (++)).
Qed.

End Prepared.
