(* ===== verification/Secondstar.v ===== *)
(** * Secondstar: the serial console over SSH

    secondstar/internal (handler.go, multi.go, store.go, key.go) and
    secondstar.go. An SSH user is the name of a Hardware; the first session of a
    user runs `ipmitool sol activate` against the BMC of that Hardware, later
    sessions share its console until the first one closes.

    The goroutines of the sessions interleave at the operations on the shared
    state (the store, the counters, the wait group, the channel and the list of
    writers), each of which is atomic. A session is therefore a program counter
    into [Handler], [initialSession] or [additionalSession], and [sstep] is one
    such operation of one session.

    The SSH library, the keys' parser and the processes are outside: what they
    decide is an event of the system or a parameter. *)
From S2P Require Import Prelude GoStrings Api BmcApi GoNetip Backends Tootles.

(** ** multi.go *)

Section MultiWriter.
Context {W : Type} `{EqDecision W}.

Record MultiWriter := mkMultiWriter { mw_writers : list W }.

Definition NewMultiWriter (writers : list W) : MultiWriter := mkMultiWriter writers.
Definition mw_Add (w : W) (mw : MultiWriter) : MultiWriter := mkMultiWriter (mw_writers mw ++ [w]).
Definition mw_Remove (w : W) (mw : MultiWriter) : MultiWriter := mkMultiWriter (filter (λ ew, ew ≠ w) (mw_writers mw)).

Definition ErrShortWrite : error := ErrNew "short write".

(** [Write]: what the writer [w] does with the bytes is [write w p]; the result is
    the count and the error, and the writers that were written to. *)
Fixpoint write_loop (write : W → string → nat * option error) (p : string) (ws : list W) : nat * option error * list W :=
  match ws with
  | [] => (strlen p, None, [])
  | w :: ws' =>
      match write w p with
      | (n, Some e) => (n, Some e, [w])
      | (n, None) =>
          if decide (n < strlen p) then (n, Some ErrShortWrite, [w])
          else let '(r, l) := write_loop write p ws' in (r, w :: l)
      end
  end.
Definition mw_Write (write : W → string → nat * option error) (p : string) (mw : MultiWriter) : nat * option error * list W :=
  write_loop write p (mw_writers mw).

(** A write that returns no error reached every writer, in the order they were added. *)
Lemma mw_Write_all write p mw n l :
  mw_Write write p mw = (n, None, l) → n = strlen p ∧ l = mw_writers mw.
Proof.
  unfold mw_Write. revert n l. induction (mw_writers mw) as [|w ws IH]; intros n l; simpl; [by intros [= <- <-]|].
  destruct (write w p) as [m [e|]]; [done|]. case_decide; [done|].
  destruct (write_loop write p ws) as [[r e] l'] eqn:E. intros [= -> -> <-].
  destruct (IH n l' eq_refl) as [-> ->]. done.
Qed.

(** The writers behind the first one that fails get nothing. *)
Lemma mw_Write_stops write p mw n e l :
  mw_Write write p mw = (n, Some e, l) → ∃ k w rest, mw_writers mw = k ++ w :: rest ∧ l = k ++ [w] ∧
    (snd (write w p) = Some e ∨ e = ErrShortWrite ∧ fst (write w p) = n ∧ n < strlen p).
Proof.
  unfold mw_Write. revert n e l. induction (mw_writers mw) as [|w ws IH]; intros n e l; simpl; [done|].
  destruct (write w p) as [m [e'|]] eqn:Ew.
  - intros [= -> -> <-]. exists [], w, ws. rewrite Ew. naive_solver.
  - case_decide.
    + intros [= -> <- <-]. exists [], w, ws. rewrite Ew. naive_solver.
    + destruct (write_loop write p ws) as [[r e2] l'] eqn:E. intros [= -> -> <-].
      destruct (IH n e l' eq_refl) as (k & w' & rest & -> & -> & Hw). by exists (w :: k), w', rest.
Qed.
End MultiWriter.
Arguments MultiWriter : clear implicits.

(** ** The escape sequence

    The goroutine that reads the input byte by byte and looks for [~.]; a tilde
    takes the byte after it with it. *)
Definition tilde : ascii := "~"%char.
Definition dot : ascii := "."%char.

Fixpoint escape_scan (l : list ascii) : bool :=
  match l with
  | b :: l' =>
      if decide (b = tilde) then
        match l' with
        | c :: l'' => if decide (c = dot) then true else escape_scan l''
        | [] => false
        end
      else escape_scan l'
  | [] => false
  end.

(** ** key.go *)

Section PubkeyAuth.
Context {PublicKey : Type} (ParseAuthorizedKey : string → res PublicKey) (KeysEqual : PublicKey → PublicKey → bool).

(** The machine the key opens, which is what the handler then finds in the context. *)
Definition PubkeyAuth (hw : res (option BMCMachine)) (key : PublicKey) : option BMCMachine :=
  match hw with
  | inl _ => None
  | inr None => None
  | inr (Some hw) =>
      if existsb (λ k, match ParseAuthorizedKey k with inl _ => false | inr pkey => KeysEqual key pkey end) (bm_SSHPublicKeys hw)
      then Some hw else None
  end.
End PubkeyAuth.

(** ** store.go: the key-value store

    The values are pointers: a state is named by its address in the heap. *)
Definition KeyValueStore : Type := gmap string nat.
Definition store_Get (key : string) (s : KeyValueStore) : option nat := s !! key.
Definition store_Set (key : string) (value : nat) (s : KeyValueStore) : KeyValueStore := <[key := value]> s.
Definition store_Delete (key : string) (s : KeyValueStore) : KeyValueStore := delete key s.
Definition store_List (s : KeyValueStore) : list (string * nat) := map_to_list s.

(** ** handler.go: the commands *)

Record command := mkcommand { cmd_Args : list string; cmd_Env : list string }.

Definition sol_args (ipmitoolPath : string) (bmc : BMCMachine) (verb : string) : list string :=
  [ipmitoolPath; "-I"; "lanplus"; "-E"; "-H"; bm_Host bmc; "-U"; bm_User bmc; "-p"; Itoa (bm_Port bmc); "sol"; verb].

Definition activateCmd (ipmitoolPath term : string) (bmc : BMCMachine) : command :=
  mkcommand (sol_args ipmitoolPath bmc "activate")
    ["TERM=" +:+ term; "IPMITOOL_PASSWORD=" +:+ bm_Pass bmc; "IPMITOOL_USERNAME=" +:+ bm_User bmc;
     "IPMITOOL_CIPHER_SUITE=" +:+ bm_CipherSuite bmc; "IPMITOOL_PORT=" +:+ Itoa (bm_Port bmc); "IPMITOOL_HOST=" +:+ bm_Host bmc].

Definition deactivateCmd (ipmitoolPath : string) (bmc : BMCMachine) : command :=
  mkcommand (sol_args ipmitoolPath bmc "deactivate") ["IPMITOOL_PASSWORD=" +:+ bm_Pass bmc].

(** ** handler.go: the sessions *)

(** [State]: the channel is named by the state itself, the wait group is its
    counter, [stdin] is the input of the process the owner started. *)
Record State := mkState {
  st_wg : Z;
  st_additionalSessions : Z;
  st_multiwriter : MultiWriter nat;
  st_stdin : nat;
}.

(** [atomic.Int32]. *)
Definition wrap32 (z : Z) : Z := ((z + 2 ^ 31) mod 2 ^ 32 - 2 ^ 31)%Z.

(** Where a session is; the argument is the state it holds a pointer to. *)
Inductive pc :=
| Handling                           (** [Handler], before [globalState.Get] *)
| Initial                            (** [initialSession], before the process is started *)
| Started                            (** the process runs, the state is not yet set *)
| Running                            (** [cmd.Wait] *)
| Closing                            (** before the first [Get] of the end *)
| Counting (v : option nat)          (** before [additionalSessions.Load] *)
| Getting (v : nat)                  (** before the second [Get] *)
| Sending (v s : nat)                (** [s.initialClosed <- struct{}{}] *)
| Waiting (v : option nat)           (** [v.wg.Wait] *)
| Deleting                           (** [globalState.Delete] *)
| Deactivating                       (** before the deactivate command *)
| Found (st : nat)                   (** [additionalSession], before [additionalSessions.Add(1)] *)
| Counted (st : nat)                 (** before [wg.Add(1)] *)
| Registered (st : nat)              (** before [multiwriter.Add] *)
| Attached (st : nat)                (** [select] *)
| Ending (st : nat)                  (** before [multiwriter.Remove] *)
| Removed (st : nat)                 (** before [additionalSessions.Add(-1)] *)
| Uncounted (st : nat)               (** before [wg.Done] *)
| Done                               (** the handler has returned *)
| Panicked.                          (** nil pointer dereference *)

#[export] Instance pc_eq_dec : EqDecision pc.
Proof. solve_decision. Defined.

(** A session: its user, its terminal, the machine of its context. *)
Record Session := mkSession { s_User : string; s_Term : string; s_BMC : option BMCMachine; s_pc : pc }.

Inductive effect :=
| Run (i : nat) (c : command)
| Exit (i : nat) (code : Z).

Record Sys := mkSys {
  y_store : KeyValueStore;
  y_heap : list State;
  y_sessions : list Session;
  y_effects : list effect;
}.

Definition init : Sys := mkSys ∅ [] [] [].

(** What happens next. *)
Inductive event :=
| Connect (user term : string) (bmc : option BMCMachine)   (** a new session is handled *)
| Step (i : nat)                                            (** the next operation of a session *)
| StartFails (i : nat)                                      (** a pipe or the process cannot be made *)
| CmdEnds (i : nat)                                         (** [cmd.Wait] returns *)
| Rendezvous (i j : nat)                                    (** a send meets the select of another session *)
| Leave (j : nat).                                          (** context done, or the escape sequence *)

Definition set_pc (i : nat) (p : pc) (y : Sys) : Sys :=
  mkSys (y_store y) (y_heap y)
    (alter (λ s, mkSession (s_User s) (s_Term s) (s_BMC s) p) i (y_sessions y)) (y_effects y).
Definition set_store (st : KeyValueStore) (y : Sys) : Sys := mkSys st (y_heap y) (y_sessions y) (y_effects y).
Definition on_state (v : nat) (f : State → State) (y : Sys) : Sys :=
  mkSys (y_store y) (alter f v (y_heap y)) (y_sessions y) (y_effects y).
Definition emit (e : effect) (y : Sys) : Sys := mkSys (y_store y) (y_heap y) (y_sessions y) (y_effects y ++ [e]).

Definition add_wg (d : Z) (s : State) : State :=
  mkState (st_wg s + d) (st_additionalSessions s) (st_multiwriter s) (st_stdin s).
Definition add_sessions (d : Z) (s : State) : State :=
  mkState (st_wg s) (wrap32 (st_additionalSessions s + d)) (st_multiwriter s) (st_stdin s).
Definition on_writers (f : MultiWriter nat → MultiWriter nat) (s : State) : State :=
  mkState (st_wg s) (st_additionalSessions s) (f (st_multiwriter s)) (st_stdin s).

Section sstep.
Context (ipmitoolPath : string).

(** The next operation of session [i]; [None] when it is blocked or finished. *)
Definition session_step (i : nat) (s : Session) (y : Sys) : option Sys :=
  match s_pc s with
  | Handling =>
      match store_Get (s_User s) (y_store y) with
      | Some st => Some (set_pc i (Found st) y)
      | None => Some (set_pc i Initial y)
      end
  | Initial =>
      match s_BMC s with
      | None => Some (set_pc i Done (emit (Exit i 1) y))
      | Some bmc => Some (set_pc i Started (emit (Run i (activateCmd ipmitoolPath (s_Term s) bmc)) y))
      end
  | Started =>
      let st := mkState 0 0 (NewMultiWriter []) i in
      Some (set_pc i Running
        (mkSys (store_Set (s_User s) (length (y_heap y)) (y_store y)) (y_heap y ++ [st]) (y_sessions y) (y_effects y)))
  | Running => None
  | Closing => Some (set_pc i (Counting (store_Get (s_User s) (y_store y))) y)
  | Counting (Some v) =>
      st ← y_heap y !! v;
      if decide (0 < st_additionalSessions st)%Z then Some (set_pc i (Getting v) y) else Some (set_pc i (Waiting (Some v)) y)
  | Counting None => Some (set_pc i (Waiting None) y)
  | Getting v =>
      match store_Get (s_User s) (y_store y) with
      | Some v' => Some (set_pc i (Sending v v') y)
      | None => Some (set_pc i (Waiting (Some v)) y)
      end
  | Sending _ _ => None
  | Waiting (Some v) =>
      st ← y_heap y !! v;
      if decide (st_wg st = 0%Z) then Some (set_pc i Deleting y) else None
  | Waiting None => Some (set_pc i Panicked y)
  | Deleting => Some (set_pc i Deactivating (set_store (store_Delete (s_User s) (y_store y)) y))
  | Deactivating =>
      bmc ← s_BMC s;
      Some (set_pc i Done (emit (Run i (deactivateCmd ipmitoolPath bmc)) y))
  | Found v => Some (set_pc i (Counted v) (on_state v (add_sessions 1) y))
  | Counted v => Some (set_pc i (Registered v) (on_state v (add_wg 1) y))
  | Registered v => Some (set_pc i (Attached v) (on_state v (on_writers (mw_Add i)) y))
  | Attached _ => None
  | Ending v => Some (set_pc i (Removed v) (on_state v (on_writers (mw_Remove i)) y))
  | Removed v => Some (set_pc i (Uncounted v) (on_state v (add_sessions (-1)) y))
  | Uncounted v => Some (set_pc i Done (on_state v (add_wg (-1)) y))
  | Done => None
  | Panicked => None
  end.

(** A panic in the handler of a session ends the whole program. *)
Definition crashed (y : Sys) : bool := existsb (λ s, bool_decide (s_pc s = Panicked)) (y_sessions y).

Definition sstep (e : event) (y : Sys) : option Sys :=
  if crashed y then None
  else
    match e with
    | Connect user term bmc =>
        Some (mkSys (y_store y) (y_heap y) (y_sessions y ++ [mkSession user term bmc Handling]) (y_effects y))
    | Step i => s ← y_sessions y !! i; session_step i s y
    | StartFails i =>
        s ← y_sessions y !! i;
        if decide (s_pc s = Initial ∧ s_BMC s ≠ None) then Some (set_pc i Done (emit (Exit i 2) y)) else None
    | CmdEnds i =>
        s ← y_sessions y !! i;
        if decide (s_pc s = Running) then Some (set_pc i Closing y) else None
    | Rendezvous i j =>
        s ← y_sessions y !! i; t ← y_sessions y !! j;
        match s_pc s, s_pc t with
        | Sending v c, Attached c' =>
            if decide (c = c') then Some (set_pc i (Waiting (Some v)) (emit (Exit j 0) (set_pc j (Ending c') y))) else None
        | _, _ => None
        end
    | Leave j =>
        t ← y_sessions y !! j;
        match s_pc t with
        | Attached v => Some (emit (Exit j 0) (set_pc j (Ending v) y))
        | _ => None
        end
    end.

(** A schedule of events. *)
Fixpoint srun (es : list event) (y : Sys) : option Sys :=
  match es with
  | [] => Some y
  | e :: es' => y' ← sstep e y; srun es' y'
  end.

Inductive reachable : Sys → Prop :=
| reachable_init : reachable init
| reachable_step e y y' : reachable y → sstep e y = Some y' → reachable y'.
End sstep.

(** ** Who shares a console

    The owner of a state is the session whose process is behind it. *)

(** The states a session holds a pointer to. *)
Definition refs (p : pc) : list nat :=
  match p with
  | Counting (Some v) | Getting v | Waiting (Some v) | Found v | Counted v | Registered v | Attached v | Ending v
  | Removed v | Uncounted v => [v]
  | Sending v s => [v; s]
  | _ => []
  end.

Definition owner (y : Sys) (v : nat) : option string :=
  st ← y_heap y !! v; o ← y_sessions y !! st_stdin st; Some (s_User o).

(** Pointers, in the store and in the sessions, lead to states of the same user. *)
Definition Owned (y : Sys) : Prop :=
  (∀ u v, y_store y !! u = Some v → owner y v = Some u) ∧
  (∀ i s v, y_sessions y !! i = Some s → v ∈ refs (s_pc s) → owner y v = Some (s_User s)).

Lemma set_pc_lookup i p y k :
  y_sessions (set_pc i p y) !! k =
    if decide (k = i) then (λ s, mkSession (s_User s) (s_Term s) (s_BMC s) p) <$> y_sessions y !! k else y_sessions y !! k.
Proof.
  simpl. case_decide; [subst; by rewrite list_lookup_alter_eq|by rewrite list_lookup_alter_ne].
Qed.

Lemma owner_set_pc i p y v : owner (set_pc i p y) v = owner y v.
Proof.
  unfold owner. simpl. destruct (y_heap y !! v) as [st|]; [|done]. simpl. destruct (decide (i = st_stdin st)) as [->|Hne].
  - rewrite list_lookup_alter_eq. by destruct (y_sessions y !! _).
  - by rewrite list_lookup_alter_ne.
Qed.

Lemma owner_on_state k f y v : (∀ s, st_stdin (f s) = st_stdin s) → owner (on_state k f y) v = owner y v.
Proof.
  intros Hf. unfold owner. simpl. destruct (decide (k = v)) as [->|Hne].
  - rewrite list_lookup_alter_eq. destruct (y_heap y !! v); simpl; [by rewrite Hf|done].
  - by rewrite list_lookup_alter_ne.
Qed.

Lemma owner_grow y st heap sessions eff v u :
  owner y v = Some u → owner (mkSys st (y_heap y ++ heap) (y_sessions y ++ sessions) eff) v = Some u.
Proof.
  unfold owner. simpl. destruct (y_heap y !! v) as [s|] eqn:E; [|done]. simpl.
  rewrite (lookup_app_l_Some _ _ _ _ E). simpl. destruct (y_sessions y !! _) as [o|] eqn:E2; [|done].
  by rewrite (lookup_app_l_Some _ _ _ _ E2).
Qed.

(** A session that moves to [p] keeps the invariant when what [p] points to is its own. *)
Lemma Owned_set_pc i s p y :
  Owned y → y_sessions y !! i = Some s → (∀ v, v ∈ refs p → owner y v = Some (s_User s)) → Owned (set_pc i p y).
Proof.
  intros [Hst Hr] Hi Hp. split; [intros u v Hv; rewrite owner_set_pc; by apply Hst|].
  intros k t v. rewrite set_pc_lookup, owner_set_pc. case_decide; subst; [|apply Hr].
  rewrite Hi. intros [= <-]. simpl. apply Hp.
Qed.

Lemma Owned_on_state k f y : (∀ s, st_stdin (f s) = st_stdin s) → Owned y → Owned (on_state k f y).
Proof.
  intros Hf [Hst Hr]. split; [intros u v Hv; rewrite owner_on_state by done; by apply Hst|].
  intros i s v Hi Hv. rewrite owner_on_state by done. by eapply Hr.
Qed.

Lemma Owned_emit e y : Owned y → Owned (emit e y).
Proof. done. Qed.

Lemma Owned_delete u y : Owned y → Owned (set_store (store_Delete u (y_store y)) y).
Proof.
  intros [Hst Hr]. split; [|done]. intros u' v Hv. simpl in Hv. unfold store_Delete in Hv. apply lookup_delete_Some in Hv as [_ Hv]. by apply Hst in Hv.
Qed.

Lemma Owned_set i s y st eff :
  Owned y → y_sessions y !! i = Some s → st_stdin st = i →
  Owned (mkSys (store_Set (s_User s) (length (y_heap y)) (y_store y)) (y_heap y ++ [st]) (y_sessions y) eff).
Proof.
  intros [Hst Hr] Hi Hin.
  assert (∀ stt v u, owner y v = Some u → owner (mkSys stt (y_heap y ++ [st]) (y_sessions y) eff) v = Some u) as Hg.
  { intros stt v u. rewrite <- (app_nil_r (y_sessions y)). apply owner_grow. }
  split; [|intros k t v Hk Hv; by eapply Hg, Hr]. intros u v. simpl. unfold store_Set. intros [[<- <-]|[_ Hv]]%lookup_insert_Some.
  - unfold owner. simpl. rewrite list_lookup_middle by done. simpl. by rewrite Hin, Hi.
  - by apply Hg, Hst.
Qed.

Lemma Owned_connect s y :
  Owned y → refs (s_pc s) = [] → Owned (mkSys (y_store y) (y_heap y) (y_sessions y ++ [s]) (y_effects y)).
Proof.
  intros [Hst Hr] Hs.
  assert (∀ v u, owner y v = Some u → owner (mkSys (y_store y) (y_heap y) (y_sessions y ++ [s]) (y_effects y)) v = Some u) as Hg.
  { intros v u. rewrite <- (app_nil_r (y_heap y)). apply owner_grow. }
  split; [intros u v Hv; by apply Hg, Hst|]. intros i t v. simpl. rewrite lookup_app_Some.
  intros [Hi|[_ Hi]] Hv; [by eapply Hg, Hr|]. apply list_lookup_singleton_Some in Hi as [_ <-]. rewrite Hs in Hv. by apply not_elem_of_nil in Hv.
Qed.

Create HintDb sstar.
#[export] Hint Resolve Owned_emit Owned_delete Owned_on_state Owned_set : sstar.

Lemma session_step_Owned path i s y y' :
  Owned y → y_sessions y !! i = Some s → session_step path i s y = Some y' → Owned y'.
Proof.
  intros HO Hi. assert (∀ v, v ∈ refs (s_pc s) → owner y v = Some (s_User s)) as Hr by (intros; by eapply HO).
  unfold session_step, store_Get.
  destruct (s_pc s) as [| | | | |[v|]|v| |[v|]| | |v|v|v| |v|v|v| |] eqn:Hpc; simpl in Hr; intros Hs; simplify_option_eq;
    repeat case_match; simplify_option_eq;
    (eapply Owned_set_pc; [eauto with sstar|exact Hi|]);
    intros w Hw; simpl in Hw; repeat case_match; rewrite ?owner_on_state by done; try (by apply not_elem_of_nil in Hw);
    repeat (apply elem_of_cons in Hw as [->|Hw]); try (by apply not_elem_of_nil in Hw);
    first [by apply Hr; set_solver | by apply HO].
Qed.

Lemma sstep_Owned path e y y' : Owned y → sstep path e y = Some y' → Owned y'.
Proof.
  intros HO. unfold sstep. destruct (crashed y); [done|]. destruct e as [u t b|i|i|i|i j|j]; intros Hs.
  - simplify_eq. by apply Owned_connect.
  - destruct (y_sessions y !! i) as [s|] eqn:Hi; [|done]. by eapply session_step_Owned.
  - simplify_option_eq. eapply Owned_set_pc; [by apply Owned_emit|done|]. intros v Hv. by apply not_elem_of_nil in Hv.
  - simplify_option_eq. eapply Owned_set_pc; [done|done|]. intros v Hv. by apply not_elem_of_nil in Hv.
  - destruct (y_sessions y !! i) as [s|] eqn:Hi; [|done]. destruct (y_sessions y !! j) as [t|] eqn:Hj; [|done]. simpl in Hs.
    destruct (s_pc s) eqn:Hps; try done. destruct (s_pc t) eqn:Hpt; try done. case_decide; [|done]. simplify_eq.
    assert (i ≠ j) by congruence.
    eapply Owned_set_pc; [apply Owned_emit; eapply Owned_set_pc; [done|done|]| |].
    + intros w Hw. eapply HO; [done|]. by rewrite Hpt.
    + cbn [emit y_sessions]. rewrite set_pc_lookup, decide_False by done. done.
    + intros w Hw. change (owner (set_pc j (Ending st) y) w = Some (s_User s)). rewrite owner_set_pc. eapply HO; [done|].
      rewrite Hps. simpl in *. set_solver.
  - destruct (y_sessions y !! j) as [t|] eqn:Hj; [|done]. simpl in Hs. destruct (s_pc t) eqn:Hpt; try done. simplify_eq.
    apply Owned_emit. eapply Owned_set_pc; [done|done|]. intros w Hw. eapply HO; [done|]. by rewrite Hpt.
Qed.

Lemma reachable_Owned path y : reachable path y → Owned y.
Proof. induction 1; [split; [done|intros ? ? ? ?; done]|by eapply sstep_Owned]. Qed.

(** ** The counters of a state

    The wait group, the number of additional sessions and the writers of a state
    are determined by where the sessions are. *)

Definition in_wg (v : nat) (p : pc) : bool :=
  match p with
  | Registered w | Attached w | Ending w | Removed w | Uncounted w => bool_decide (w = v)
  | _ => false
  end.
Definition in_count (v : nat) (p : pc) : bool :=
  match p with
  | Counted w | Registered w | Attached w | Ending w | Removed w => bool_decide (w = v)
  | _ => false
  end.
Definition writes (v : nat) (p : pc) : bool :=
  match p with
  | Attached w | Ending w => bool_decide (w = v)
  | _ => false
  end.

Definition count (q : pc → bool) (l : list Session) : Z := foldr (λ s n, Z.b2z (q (s_pc s)) + n)%Z 0%Z l.

Record tallied (y : Sys) (v : nat) (st : State) : Prop := mktallied {
  tallied_wg : st_wg st = count (in_wg v) (y_sessions y);
  tallied_add : st_additionalSessions st = wrap32 (count (in_count v) (y_sessions y));
  tallied_NoDup : NoDup (mw_writers (st_multiwriter st));
  tallied_writers i : i ∈ mw_writers (st_multiwriter st) ↔ ∃ s, y_sessions y !! i = Some s ∧ writes v (s_pc s) = true;
}.

Definition Tallies (y : Sys) : Prop := ∀ v st, y_heap y !! v = Some st → tallied y v st.

Lemma count_app q l k : count q (l ++ k) = (count q l + count q k)%Z.
Proof. unfold count. induction l; simpl; lia. Qed.

Lemma count_nonneg q l : (0 ≤ count q l)%Z.
Proof. unfold count. induction l as [|s l IH]; simpl; [lia|]. destruct (q _); simpl; lia. Qed.

Lemma count_pos q l : (0 < count q l)%Z ↔ ∃ i s, l !! i = Some s ∧ q (s_pc s) = true.
Proof.
  unfold count. induction l as [|s l IH]; simpl; [split; [lia|by intros (? & ? & ? & ?)]|].
  pose proof (count_nonneg q l) as Hn. unfold count in Hn. destruct (q (s_pc s)) eqn:E; simpl.
  - split; [intros _; by exists 0, s|lia].
  - rewrite Z.add_0_l, IH. split.
    + intros (i & t & ? & ?). by exists (S i), t.
    + intros ([|i] & t & ? & ?); simplify_eq/=; [congruence|]. by exists i, t.
Qed.

Lemma count_le q q' l : (∀ p, q p = true → q' p = true) → (count q l ≤ count q' l)%Z.
Proof.
  intros Hq. unfold count. induction l as [|s l IH]; simpl; [lia|].
  pose proof (Hq (s_pc s)). destruct (q (s_pc s)), (q' (s_pc s)); simpl; naive_solver lia.
Qed.

Lemma count_set_pc q i s p y :
  y_sessions y !! i = Some s →
  count q (y_sessions (set_pc i p y)) = (count q (y_sessions y) - Z.b2z (q (s_pc s)) + Z.b2z (q p))%Z.
Proof.
  simpl. generalize (y_sessions y) as l. intros l. revert i. unfold count.
  induction l as [|t l IH]; intros [|i] Hi; simplify_eq/=; [lia|]. rewrite IH by done. lia.
Qed.

Lemma wrap32_add z d : wrap32 (wrap32 z + d) = wrap32 (z + d).
Proof.
  unfold wrap32. f_equal.
  replace ((z + 2 ^ 31) mod 2 ^ 32 - 2 ^ 31 + d + 2 ^ 31)%Z with ((z + 2 ^ 31) mod 2 ^ 32 + d)%Z by lia.
  rewrite Zplus_mod_idemp_l. f_equal. lia.
Qed.

Lemma wrap32_id z : (- 2 ^ 31 ≤ z < 2 ^ 31)%Z → wrap32 z = z.
Proof. unfold wrap32. intros ?. rewrite Z.mod_small; lia. Qed.

(** A session that points to no state is in no tally. *)
Lemma count_unreferenced q y v :
  Owned y → owner y v = None → (∀ p, q p = true → v ∈ refs p) → count q (y_sessions y) = 0%Z.
Proof.
  intros [_ Hr] Hn Hq. destruct (decide (0 < count q (y_sessions y))%Z) as [Hp|Hp].
  - apply count_pos in Hp as (i & s & Hi & Hs). specialize (Hr i s v Hi (Hq _ Hs)). congruence.
  - pose proof (count_nonneg q (y_sessions y)). lia.
Qed.

Lemma in_wg_refs v p : in_wg v p = true → v ∈ refs p.
Proof. destruct p; simpl; try done; intros ->%bool_decide_eq_true; set_solver. Qed.
Lemma in_count_refs v p : in_count v p = true → v ∈ refs p.
Proof. destruct p; simpl; try done; intros ->%bool_decide_eq_true; set_solver. Qed.
Lemma writes_in_wg v p : writes v p = true → in_wg v p = true.
Proof. by destruct p. Qed.

(** Moving a session without a change of the state: the tallies of the two places agree. *)
Lemma tallied_set_pc i s p y v st :
  y_sessions y !! i = Some s → in_wg v p = in_wg v (s_pc s) → in_count v p = in_count v (s_pc s) →
  writes v p = writes v (s_pc s) → tallied y v st → tallied (set_pc i p y) v st.
Proof.
  intros Hi Hw Hc Hr [T1 T2 T3 T4]. split; [|rewrite T2; f_equal|done|].
  - rewrite (count_set_pc _ i s) by done. rewrite Hw. lia.
  - rewrite (count_set_pc _ i s) by done. rewrite Hc. lia.
  - intros k. rewrite T4, set_pc_lookup. case_decide; [subst|done]. rewrite Hi. simpl. naive_solver.
Qed.

Lemma Tallies_set_pc i s p y :
  y_sessions y !! i = Some s → (∀ v, in_wg v p = in_wg v (s_pc s) ∧ in_count v p = in_count v (s_pc s) ∧ writes v p = writes v (s_pc s)) →
  Tallies y → Tallies (set_pc i p y).
Proof. intros Hi Hp HT v st Hv. destruct (Hp v) as (? & ? & ?). by eapply tallied_set_pc; [..|apply HT]. Qed.

(** Moving a session together with a change of the state [k] it is about. *)
Lemma Tallies_on_state i s p k f y :
  y_sessions y !! i = Some s →
  (∀ v, v ≠ k → in_wg v p = in_wg v (s_pc s) ∧ in_count v p = in_count v (s_pc s) ∧ writes v p = writes v (s_pc s)) →
  (∀ st, tallied y k st → tallied (set_pc i p y) k (f st)) →
  Tallies y → Tallies (set_pc i p (on_state k f y)).
Proof.
  intros Hi Hne Hk HT v st. cbn [set_pc on_state y_heap]. destruct (decide (v = k)) as [->|Hv].
  - rewrite list_lookup_alter_eq. destruct (y_heap y !! k) as [st0|] eqn:E; intros [= <-].
    destruct (Hk st0 (HT _ _ E)). by split.
  - rewrite list_lookup_alter_ne by done. intros E. destruct (Hne v Hv) as (? & ? & ?).
    destruct (tallied_set_pc i s p y v st Hi) as [? ? ? ?]; [done..|by apply HT|]. by split.
Qed.

Lemma tallied_add_wg i s p d y k st :
  y_sessions y !! i = Some s → (Z.b2z (in_wg k p) = Z.b2z (in_wg k (s_pc s)) + d)%Z →
  in_count k p = in_count k (s_pc s) → writes k p = writes k (s_pc s) →
  tallied y k st → tallied (set_pc i p y) k (add_wg d st).
Proof.
  intros Hi Hw Hc Hr [T1 T2 T3 T4]. split; [simpl st_wg|simpl; rewrite T2; f_equal|done|].
  - rewrite (count_set_pc _ i s) by done. lia.
  - change (count (in_count k) (y_sessions y) = count (in_count k) (y_sessions (set_pc i p y))).
    rewrite (count_set_pc _ i s) by done. rewrite Hc. lia.
  - intros j. simpl st_multiwriter. rewrite T4, set_pc_lookup. case_decide; [subst|done]. rewrite Hi. simpl. naive_solver.
Qed.

Lemma tallied_add_sessions i s p d y k st :
  y_sessions y !! i = Some s → (Z.b2z (in_count k p) = Z.b2z (in_count k (s_pc s)) + d)%Z →
  in_wg k p = in_wg k (s_pc s) → writes k p = writes k (s_pc s) →
  tallied y k st → tallied (set_pc i p y) k (add_sessions d st).
Proof.
  intros Hi Hc Hw Hr [T1 T2 T3 T4]. split; [simpl st_wg|simpl st_additionalSessions|done|].
  - rewrite (count_set_pc _ i s) by done. rewrite Hw. lia.
  - rewrite T2, wrap32_add. f_equal. rewrite (count_set_pc _ i s) by done. lia.
  - intros j. simpl st_multiwriter. rewrite T4, set_pc_lookup. case_decide; [subst|done]. rewrite Hi. simpl. naive_solver.
Qed.

Lemma tallied_on_writers i s p f y k st :
  y_sessions y !! i = Some s → in_count k p = in_count k (s_pc s) → in_wg k p = in_wg k (s_pc s) →
  NoDup (mw_writers (f (st_multiwriter st))) →
  (∀ j, j ∈ mw_writers (f (st_multiwriter st)) ↔ if decide (j = i) then writes k p = true else j ∈ mw_writers (st_multiwriter st)) →
  tallied y k st → tallied (set_pc i p y) k (on_writers f st).
Proof.
  intros Hi Hc Hw Hd Hf [T1 T2 T3 T4]. split; [simpl st_wg|simpl st_additionalSessions|done|].
  - rewrite (count_set_pc _ i s) by done. rewrite Hw. lia.
  - rewrite T2. f_equal. rewrite (count_set_pc _ i s) by done. rewrite Hc. lia.
  - intros j. simpl st_multiwriter. rewrite Hf, set_pc_lookup. case_decide; [subst|apply T4]. rewrite Hi. simpl. naive_solver.
Qed.

Lemma Tallies_same y y' : y_heap y' = y_heap y → y_sessions y' = y_sessions y → Tallies y → Tallies y'.
Proof. intros Eh Es HT v st. rewrite Eh. intros Hv. destruct (HT v st Hv). split; by rewrite ?Es. Qed.

Ltac pc_cases := intros; simpl; repeat case_bool_decide; simplify_eq; done.

Lemma session_step_Tallies path i s y y' :
  Owned y → Tallies y → y_sessions y !! i = Some s → session_step path i s y = Some y' → Tallies y'.
Proof.
  intros HO HT Hi. unfold session_step.
  destruct (s_pc s) as [| | | | |[v|]|v| |[v|]| | |v|v|v| |v|v|v| |] eqn:Hpc; intros Hs; simplify_option_eq;
    repeat case_match; simplify_option_eq;
    try (by eapply (Tallies_set_pc i s); [done|rewrite Hpc; pc_cases|by eapply (Tallies_same y)]).
  - (* Started *)
    eapply (Tallies_set_pc i s); [done|rewrite Hpc; pc_cases|]. intros v st. simpl.
    rewrite lookup_app_Some. intros [Hv|[Hv Hst]]; [destruct (HT _ _ Hv); by split|].
    apply list_lookup_singleton_Some in Hst as [Hl <-]. assert (v = length (y_heap y)) as -> by lia.
    assert (owner y (length (y_heap y)) = None) as Hn by (unfold owner; by rewrite lookup_ge_None_2 by lia).
    split; simpl.
    + symmetry. by eapply count_unreferenced; [..|apply in_wg_refs].
    + erewrite count_unreferenced; [done|done|done|apply in_count_refs].
    + apply NoDup_nil_2.
    + intros j. split; [intros []%not_elem_of_nil|]. intros (t & Ht & Hw%writes_in_wg%in_wg_refs).
      destruct HO as [_ Hr]. specialize (Hr j t _ Ht Hw). congruence.
  - eapply (Tallies_on_state i s); [done|rewrite Hpc; pc_cases| |done].
    intros st. eapply (tallied_add_sessions i s); rewrite ?Hpc; simpl; rewrite ?bool_decide_eq_true_2 by done; done.
  - eapply (Tallies_on_state i s); [done|rewrite Hpc; pc_cases| |done].
    intros st. eapply (tallied_add_wg i s); rewrite ?Hpc; simpl; rewrite ?bool_decide_eq_true_2 by done; done.
  - eapply (Tallies_on_state i s); [done|rewrite Hpc; pc_cases| |done]. intros st Hst.
    assert (i ∉ mw_writers (st_multiwriter st)) as Hni.
    { rewrite (tallied_writers _ _ _ Hst). intros (t & ? & Hw). simplify_eq. by rewrite Hpc in Hw. }
    eapply (tallied_on_writers i s); [done|by rewrite Hpc|by rewrite Hpc| | |done].
    + simpl. apply NoDup_app. split_and!; [by eapply tallied_NoDup|set_solver|apply NoDup_singleton].
    + intros j. simpl. rewrite bool_decide_eq_true_2 by done. case_decide; set_solver.
  - eapply (Tallies_on_state i s); [done|rewrite Hpc; pc_cases| |done]. intros st Hst.
    eapply (tallied_on_writers i s); [done|by rewrite Hpc|by rewrite Hpc| | |done].
    + simpl. apply NoDup_filter. by eapply tallied_NoDup.
    + intros j. simpl. rewrite list_elem_of_filter. case_decide; naive_solver.
  - eapply (Tallies_on_state i s); [done|rewrite Hpc; pc_cases| |done].
    intros st. eapply (tallied_add_sessions i s); rewrite ?Hpc; simpl; rewrite ?bool_decide_eq_true_2 by done; done.
  - eapply (Tallies_on_state i s); [done|rewrite Hpc; pc_cases| |done].
    intros st. eapply (tallied_add_wg i s); rewrite ?Hpc; simpl; rewrite ?bool_decide_eq_true_2 by done; done.
Qed.

Lemma sstep_Tallies path e y y' : Owned y → Tallies y → sstep path e y = Some y' → Tallies y'.
Proof.
  intros HO HT. unfold sstep. destruct (crashed y); [done|]. destruct e as [u t b|i|i|i|i j|j]; intros Hs.
  - simplify_eq. intros v st Hv. destruct (HT v st Hv) as [T1 T2 T3 T4]. split; simpl; rewrite ?count_app; simpl; rewrite ?Z.add_0_r; [done..|].
    intros k. rewrite T4. split; [intros (x & Hx & ?); exists x; by rewrite (lookup_app_l_Some _ _ _ _ Hx)|].
    intros (x & [Hx|[_ Hx]]%lookup_app_Some & Hw); [by exists x|]. by apply list_lookup_singleton_Some in Hx as [_ <-].
  - destruct (y_sessions y !! i) as [s|] eqn:Hi; [|done]. by eapply session_step_Tallies.
  - simplify_option_eq. match goal with H : _ ∧ _ |- _ => destruct H as [Hpc _] end. eapply (Tallies_set_pc i); [done|rewrite Hpc; pc_cases|by eapply (Tallies_same y)].
  - simplify_option_eq. match goal with H : s_pc _ = Running |- _ => rename H into Hpc end.
    eapply (Tallies_set_pc i); [done|rewrite Hpc; pc_cases|done].
  - destruct (y_sessions y !! i) as [s|] eqn:Hi; [|done]. destruct (y_sessions y !! j) as [t|] eqn:Hj; [|done]. simpl in Hs.
    destruct (s_pc s) eqn:Hps; try done. destruct (s_pc t) eqn:Hpt; try done. case_decide; [|done]. simplify_eq.
    assert (i ≠ j) by congruence.
    eapply (Tallies_set_pc i s); [|rewrite Hps; pc_cases|].
    + cbn [emit y_sessions]. rewrite set_pc_lookup, decide_False by done. done.
    + eapply (Tallies_same (set_pc j (Ending st) y)); [done..|]. eapply (Tallies_set_pc j t); [done|rewrite Hpt; pc_cases|done].
  - destruct (y_sessions y !! j) as [t|] eqn:Hj; [|done]. simpl in Hs. destruct (s_pc t) eqn:Hpt; try done. simplify_eq.
    eapply (Tallies_same (set_pc j (Ending st) y)); [done..|]. eapply (Tallies_set_pc j t); [done|rewrite Hpt; pc_cases|done].
Qed.

Lemma reachable_Tallies path y : reachable path y → Tallies y.
Proof.
  induction 1 as [|e y y' Hy IH Hs]; [intros v st; done|]. eapply sstep_Tallies; [by eapply reachable_Owned|done|done].
Qed.

(** ** What the system guarantees *)

Section Guarantees.
Context (path : string).


(** C29: The counters of every state are those of the sessions attached to it. *)
Theorem session_counts y v st :
  reachable path y → y_heap y !! v = Some st →
  st_wg st = count (in_wg v) (y_sessions y) ∧
  st_additionalSessions st = wrap32 (count (in_count v) (y_sessions y)) ∧
  NoDup (mw_writers (st_multiwriter st)) ∧
  ∀ i, i ∈ mw_writers (st_multiwriter st) ↔ ∃ s, y_sessions y !! i = Some s ∧ (s_pc s = Attached v ∨ s_pc s = Ending v).
Proof.
  intros Hy Hv. destruct (reachable_Tallies path y Hy v st Hv) as [T1 T2 T3 T4]. split_and!; [done..|].
  intros i. rewrite T4. split; intros (s & Hi & Hs); exists s; (split; [done|]).
  - destruct (s_pc s); simpl in Hs; try done; case_bool_decide; naive_solver.
  - destruct Hs as [-> | ->]; simpl; by rewrite bool_decide_eq_true_2.
Qed.

(** The first session goes past its wait exactly when no other session is
    between [wg.Add] and [wg.Done]. *)
Theorem wait_for_all y i s v :
  reachable path y → crashed y = false → y_sessions y !! i = Some s → s_pc s = Waiting (Some v) →
  is_Some (sstep path (Step i) y) ↔ ∀ j t, y_sessions y !! j = Some t → in_wg v (s_pc t) = false.
Proof.
  intros Hy Hc Hi Hpc. destruct (reachable_Owned path y Hy) as [_ Hr].
  specialize (Hr i s v Hi ltac:(rewrite Hpc; simpl; set_solver)). unfold owner in Hr.
  destruct (y_heap y !! v) as [st|] eqn:Hv; [|done].
  unfold sstep. rewrite Hc, Hi. simpl. unfold session_step. rewrite Hpc, Hv. simpl.
  rewrite (tallied_wg _ _ _ (reachable_Tallies path y Hy v st Hv)).
  pose proof (count_nonneg (in_wg v) (y_sessions y)) as Hn. pose proof (count_pos (in_wg v) (y_sessions y)) as Hp.
  case_decide as Hz; split.
  - intros _ j t Hj. destruct (in_wg v (s_pc t)) eqn:E; [|done]. assert (0 < count (in_wg v) (y_sessions y))%Z by naive_solver. lia.
  - eauto.
  - by intros [? ?].
  - intros Hall. assert (0 < count (in_wg v) (y_sessions y))%Z as (j & t & Hj & Ht)%Hp by lia. rewrite (Hall j t Hj) in Ht. done.
Qed.

Lemma crashed_set_pc i p y : crashed y = false → p ≠ Panicked → crashed (set_pc i p y) = false.
Proof.
  unfold crashed. simpl. intros Hc Hp. revert i Hc. induction (y_sessions y) as [|s l IH]; intros [|i]; simpl; try done.
  - intros [_ Hl]%orb_false_iff. by rewrite bool_decide_eq_false_2.
  - intros [-> Hl]%orb_false_iff. simpl. by apply IH.
Qed.

(** *** An orderly end *)

(** A session [i] and one other session [j], the only ones counted by state [v]. *)
Record view (y : Sys) (s : Session) (i : nat) (p : pc) (t : Session) (j : nat) (q : pc) (v : nat) : Prop := mkview {
  view_reachable : reachable path y;
  view_crashed : crashed y = false;
  view_ne : i ≠ j;
  view_i : y_sessions y !! i = Some (mkSession (s_User s) (s_Term s) (s_BMC s) p);
  view_j : y_sessions y !! j = Some (mkSession (s_User t) (s_Term t) (s_BMC t) q);
  view_wg : count (in_wg v) (y_sessions y) = (Z.b2z (in_wg v p) + Z.b2z (in_wg v q))%Z;
  view_add : count (in_count v) (y_sessions y) = (Z.b2z (in_count v p) + Z.b2z (in_count v q))%Z;
  view_heap : is_Some (y_heap y !! v);
}.

Lemma view_move_i e y y' s i p t j q v p' :
  view y s i p t j q v → sstep path e y = Some y' → y_sessions y' = y_sessions (set_pc i p' y) → p' ≠ Panicked →
  is_Some (y_heap y' !! v) → view y' s i p' t j q v.
Proof.
  intros [V1 V2 V3 V4 V5 V6 V7 V8] He Es Hp Hh.
  split; [by eapply reachable_step|unfold crashed; rewrite Es; by apply crashed_set_pc|done|..|done]; rewrite Es.
  - by rewrite set_pc_lookup, decide_True, V4 by done.
  - by rewrite set_pc_lookup, decide_False by done.
  - rewrite (count_set_pc _ _ _ _ _ V4), V6. simpl. lia.
  - rewrite (count_set_pc _ _ _ _ _ V4), V7. simpl. lia.
Qed.

Lemma view_move_j e y y' s i p t j q v q' :
  view y s i p t j q v → sstep path e y = Some y' → y_sessions y' = y_sessions (set_pc j q' y) → q' ≠ Panicked →
  is_Some (y_heap y' !! v) → view y' s i p t j q' v.
Proof.
  intros [V1 V2 V3 V4 V5 V6 V7 V8] He Es Hp Hh.
  split; [by eapply reachable_step|unfold crashed; rewrite Es; by apply crashed_set_pc|done|..|done]; rewrite Es.
  - by rewrite set_pc_lookup, decide_False by done.
  - by rewrite set_pc_lookup, decide_True, V5 by done.
  - rewrite (count_set_pc _ _ _ _ _ V5), V6. simpl. lia.
  - rewrite (count_set_pc _ _ _ _ _ V5), V7. simpl. lia.
Qed.

Lemma srun_app es es' y y' : srun path es y = Some y' → srun path (es ++ es') y = srun path es' y'.
Proof. revert y. induction es as [|e es IH]; intros y; simpl; [by intros [= ->]|]. destruct (sstep path e y); [apply IH|done]. Qed.

(** The tallies of a view, read off the places of the two sessions. *)
Lemma view_state y s i p t j q v :
  view y s i p t j q v → ∃ st, y_heap y !! v = Some st ∧ st_wg st = (Z.b2z (in_wg v p) + Z.b2z (in_wg v q))%Z ∧
    st_additionalSessions st = (Z.b2z (in_count v p) + Z.b2z (in_count v q))%Z.
Proof.
  intros V. destruct (view_heap _ _ _ _ _ _ _ _ V) as [st Hst]. exists st. split; [done|].
  destruct (reachable_Tallies path y (view_reachable _ _ _ _ _ _ _ _ V) v st Hst) as [T1 T2 _ _].
  rewrite T1, T2, (view_wg _ _ _ _ _ _ _ _ V), (view_add _ _ _ _ _ _ _ _ V). split; [done|].
  apply wrap32_id. destruct (in_count v p), (in_count v q); simpl; lia.
Qed.

Lemma view_step_i y s i p t j q v p' y' :
  view y s i p t j q v → session_step path i (mkSession (s_User s) (s_Term s) (s_BMC s) p) y = Some y' →
  y_sessions y' = y_sessions (set_pc i p' y) → p' ≠ Panicked → is_Some (y_heap y' !! v) →
  sstep path (Step i) y = Some y' ∧ view y' s i p' t j q v.
Proof.
  intros V Hs Es Hp Hh. assert (sstep path (Step i) y = Some y') as He.
  { unfold sstep. by rewrite (view_crashed _ _ _ _ _ _ _ _ V), (view_i _ _ _ _ _ _ _ _ V). }
  split; [done|]. by eapply view_move_i.
Qed.

Lemma view_step_j y s i p t j q v q' y' :
  view y s i p t j q v → session_step path j (mkSession (s_User t) (s_Term t) (s_BMC t) q) y = Some y' →
  y_sessions y' = y_sessions (set_pc j q' y) → q' ≠ Panicked → is_Some (y_heap y' !! v) →
  sstep path (Step j) y = Some y' ∧ view y' s i p t j q' v.
Proof.
  intros V Hs Es Hp Hh. assert (sstep path (Step j) y = Some y') as He.
  { unfold sstep. by rewrite (view_crashed _ _ _ _ _ _ _ _ V), (view_j _ _ _ _ _ _ _ _ V). }
  split; [done|]. by eapply view_move_j.
Qed.

Lemma heap_alter_Some f k v y : is_Some (y_heap y !! v) → is_Some (y_heap (on_state k f y) !! v).
Proof.
  simpl. destruct (decide (k = v)) as [->|Hne]; [rewrite list_lookup_alter_eq, fmap_is_Some|rewrite list_lookup_alter_ne]; done.
Qed.

(** The first session up to its signal. *)
Lemma close_signals y s i t j v :
  view y s i Closing t j (Attached v) v → y_store y !! s_User s = Some v →
  ∃ y', srun path [Step i; Step i; Step i] y = Some y' ∧ view y' s i (Sending v v) t j (Attached v) v ∧
        y_store y' = y_store y ∧ y_effects y' = y_effects y.
Proof.
  intros V0 Hst.
  edestruct (view_step_i y s i Closing t j (Attached v) v (Counting (Some v))) as [E1 V1];
    [done|unfold session_step, store_Get; simpl; rewrite Hst; reflexivity|done|done|by destruct V0|].
  destruct (view_state _ _ _ _ _ _ _ _ V1) as (st & Hv & _ & Ha). simpl in Ha. rewrite bool_decide_eq_true_2 in Ha by done.
  edestruct view_step_i with (p' := (Getting v)) as [E2 V2];
    [exact V1|unfold session_step; cbn [s_pc]; rewrite Hv; cbn; rewrite decide_True by (rewrite Ha; simpl; lia); reflexivity|done|done|by destruct V1|].
  edestruct view_step_i with (p' := (Sending v v)) as [E3 V3];
    [exact V2|unfold session_step, store_Get; simpl; rewrite Hst; reflexivity|done|done|by destruct V2|].
  eexists. split; [|split; [exact V3|done]]. cbn [srun]. rewrite E1. cbn [mbind option_bind]. rewrite E2. cbn [mbind option_bind].
  rewrite E3. done.
Qed.

(** The signal meets the other session. *)
Lemma signal_received y s i t j v :
  view y s i (Sending v v) t j (Attached v) v →
  ∃ y', sstep path (Rendezvous i j) y = Some y' ∧ view y' s i (Waiting (Some v)) t j (Ending v) v ∧
        y_store y' = y_store y ∧ y_effects y' = y_effects y ++ [Exit j 0].
Proof.
  intros [A1 A2 A3 A4 A5 A6 A7 A8].
  set (y' := set_pc i (Waiting (Some v)) (emit (Exit j 0) (set_pc j (Ending v) y))).
  assert (sstep path (Rendezvous i j) y = Some y') as E by (unfold sstep; rewrite A2, A4; simpl; rewrite A5; simpl; by rewrite decide_True).
  assert (y_sessions (set_pc j (Ending v) y) !! i = Some (mkSession (s_User s) (s_Term s) (s_BMC s) (Sending v v))) as A4'
    by (by rewrite set_pc_lookup, decide_False).
  assert (∀ q, count q (y_sessions y') = count q (y_sessions (set_pc i (Waiting (Some v)) (set_pc j (Ending v) y)))) as Hq by done.
  exists y'. split; [done|]. split; [|done]. split; [by eapply reachable_step| |done|..|done].
  - apply crashed_set_pc; [|done]. change (crashed (set_pc j (Ending v) y) = false). by apply crashed_set_pc.
  - unfold y'. rewrite set_pc_lookup, decide_True by done. cbn [emit y_sessions]. by rewrite A4'.
  - unfold y'. rewrite set_pc_lookup, decide_False by done. cbn [emit y_sessions]. by rewrite set_pc_lookup, decide_True, A5 by done.
  - rewrite Hq, (count_set_pc _ _ _ _ _ A4'), (count_set_pc _ _ _ _ _ A5), A6. simpl. lia.
  - rewrite Hq, (count_set_pc _ _ _ _ _ A4'), (count_set_pc _ _ _ _ _ A5), A7. simpl. lia.
Qed.

(** The other session, once it is on its way out. *)
Lemma attached_leaves y s i p t j v :
  view y s i p t j (Ending v) v →
  ∃ y', srun path [Step j; Step j; Step j] y = Some y' ∧ view y' s i p t j Done v ∧
        y_store y' = y_store y ∧ y_effects y' = y_effects y.
Proof.
  intros V0.
  edestruct (view_step_j y s i p t j (Ending v) v (Removed v)) as [E1 V1]; [done|reflexivity|done|done|apply heap_alter_Some; by destruct V0|].
  edestruct view_step_j with (q' := (Uncounted v)) as [E2 V2]; [exact V1|reflexivity|done|done|apply heap_alter_Some; by destruct V1|].
  edestruct view_step_j with (q' := Done) as [E3 V3]; [exact V2|reflexivity|done|done|apply heap_alter_Some; by destruct V2|].
  eexists. split; [|split; [exact V3|done]]. cbn [srun]. rewrite E1. cbn [mbind option_bind]. rewrite E2. cbn [mbind option_bind].
  rewrite E3. done.
Qed.

(** The first session once nobody is left. *)
Lemma wait_ends y s i t j v bmc :
  view y s i (Waiting (Some v)) t j Done v → s_BMC s = Some bmc →
  ∃ y', srun path [Step i; Step i; Step i] y = Some y' ∧ view y' s i Done t j Done v ∧
        y_store y' = delete (s_User s) (y_store y) ∧ y_effects y' = y_effects y ++ [Run i (deactivateCmd path bmc)].
Proof.
  intros V0 Hb. destruct (view_state _ _ _ _ _ _ _ _ V0) as (st & Hv & Hw & _). simpl in Hw.
  edestruct (view_step_i y s i (Waiting (Some v)) t j Done v Deleting) as [E1 V1];
    [done|unfold session_step; cbn [s_pc]; rewrite Hv; cbn; rewrite decide_True by done; reflexivity|done|done|by destruct V0|].
  edestruct view_step_i with (p' := Deactivating) as [E2 V2]; [exact V1|reflexivity|done|done|by destruct V1|].
  edestruct view_step_i with (p' := Done) as [E3 V3];
    [exact V2|unfold session_step; simpl; rewrite Hb; reflexivity|done|done|by destruct V2|].
  eexists. split; [|split; [exact V3|done]]. cbn [srun]. rewrite E1. cbn [mbind option_bind]. rewrite E2. cbn [mbind option_bind].
  rewrite E3. done.
Qed.


(** *** A signal for one

    The end of the first session is sent once, to one receiver. A second session
    that is attached stays attached, and the first one stays in its wait, until
    that session leaves by itself. *)
Definition releases (j : nat) (e : event) : bool :=
  match e with
  | Leave k => bool_decide (k = j)
  | Rendezvous _ k => bool_decide (k = j)
  | _ => false
  end.

Lemma pc_unmoved i s k p y : y_sessions y !! i = Some s → i ≠ k → y_sessions (set_pc k p y) !! i = Some s.
Proof. intros Hi Hne. by rewrite set_pc_lookup, decide_False. Qed.

Lemma session_step_others k r y y' i s :
  session_step path k r y = Some y' → y_sessions y !! k = Some r → y_sessions y !! i = Some s → i ≠ k → y_sessions y' !! i = Some s.
Proof.
  intros Hs Hk Hi Hne. unfold session_step in Hs. destruct (s_pc r) as [| | | | |[v|]|v| |[v|]| | |v|v|v| |v|v|v| |]; simplify_option_eq;
    repeat case_match; simplify_option_eq; by apply pc_unmoved.
Qed.

Lemma sstep_stuck e y y' i s j t v :
  reachable path y → y_sessions y !! i = Some s → s_pc s = Waiting (Some v) → y_sessions y !! j = Some t → s_pc t = Attached v →
  releases j e = false → sstep path e y = Some y' → y_sessions y' !! i = Some s ∧ y_sessions y' !! j = Some t.
Proof.
  intros Hy Hi Hpi Hj Hpj He Hs. assert (i ≠ j) by congruence.
  pose proof (wait_for_all y i s v Hy) as Hwait.
  unfold sstep in Hs. destruct (crashed y) eqn:Hc; [done|]. destruct e as [u te b|k|k|k|k l|l]; simpl in He.
  - simplify_eq. simpl. by rewrite (lookup_app_l_Some _ _ _ _ Hi), (lookup_app_l_Some _ _ _ _ Hj).
  - destruct (y_sessions y !! k) as [r|] eqn:Hk; [|done]. simpl in Hs.
    destruct (decide (k = i)) as [->|Hki]; [|destruct (decide (k = j)) as [->|Hkj]].
    + exfalso. destruct (Hwait eq_refl Hi Hpi) as [Hw _].
      assert (in_wg v (s_pc t) = false) as Hf; [|rewrite Hpj in Hf; simpl in Hf; by rewrite bool_decide_eq_true_2 in Hf].
      eapply Hw; [|done]. unfold sstep. rewrite Hc, Hk. simpl. by rewrite Hs.
    + simplify_eq. unfold session_step in Hs. by rewrite Hpj in Hs.
    + split; by eapply session_step_others.
  - destruct (y_sessions y !! k) as [r|] eqn:Hk; [|done]. simpl in Hs. case_decide as Hd; [|done]. destruct Hd as [Hd _].
    simplify_eq. split; (apply pc_unmoved; [done|congruence]).
  - destruct (y_sessions y !! k) as [r|] eqn:Hk; [|done]. simpl in Hs. case_decide as Hd; [|done].
    simplify_eq. split; (apply pc_unmoved; [done|congruence]).
  - destruct (y_sessions y !! k) as [r|] eqn:Hk; [|done]. destruct (y_sessions y !! l) as [x|] eqn:Hl; [|done]. simpl in Hs.
    destruct (s_pc r) eqn:Hr; try done. destruct (s_pc x) eqn:Hx; try done. case_decide; [|done]. case_bool_decide; [done|].
    simplify_eq. split; (apply pc_unmoved; [apply pc_unmoved; [done|congruence]|congruence]).
  - destruct (y_sessions y !! l) as [x|] eqn:Hl; [|done]. simpl in Hs. destruct (s_pc x) eqn:Hx; try done. case_bool_decide; [done|].
    simplify_eq. split; (apply pc_unmoved; [done|congruence]).
Qed.

Theorem second_session_left y es y' i s j t v :
  reachable path y → y_sessions y !! i = Some s → s_pc s = Waiting (Some v) → y_sessions y !! j = Some t → s_pc t = Attached v →
  Forall (λ e, releases j e = false) es → srun path es y = Some y' →
  y_sessions y' !! i = Some s ∧ y_sessions y' !! j = Some t.
Proof.
  intros Hy Hi Hpi Hj Hpj Hes. revert y Hy Hi Hj. induction Hes as [|e es He _ IH]; intros y Hy Hi Hj; simpl.
  - by intros [= ->].
  - destruct (sstep path e y) as [y1|] eqn:E; [|done]. intros Hr.
    destruct (sstep_stuck e y y1 i s j t v) as [Hi1 Hj1]; [done..|]. eapply IH; [by eapply reachable_step|done..].
Qed.

(** Every command is run for the machine of the session's own context. *)
Definition Commands (y : Sys) : Prop :=
  ∀ i c, Run i c ∈ y_effects y → ∃ s bmc, y_sessions y !! i = Some s ∧ s_BMC s = Some bmc ∧
    (c = activateCmd path (s_Term s) bmc ∨ c = deactivateCmd path bmc).

Lemma Commands_sessions y y' :
  Commands y → (∀ i s, y_sessions y !! i = Some s → ∃ s', y_sessions y' !! i = Some s' ∧ s_BMC s' = s_BMC s ∧ s_Term s' = s_Term s) →
  (∀ i c, Run i c ∈ y_effects y' → Run i c ∈ y_effects y ∨
     ∃ s bmc, y_sessions y !! i = Some s ∧ s_BMC s = Some bmc ∧ (c = activateCmd path (s_Term s) bmc ∨ c = deactivateCmd path bmc)) →
  Commands y'.
Proof.
  intros HC Hs He i c [Hc%HC|Hc]%He; destruct Hc as (s & bmc & Hi & Hb & Hc); destruct (Hs i s Hi) as (s' & Hi' & Eb & Et);
    exists s', bmc; by rewrite Hi', Eb, Et.
Qed.

Lemma set_pc_keeps k p y i s :
  y_sessions y !! i = Some s → ∃ s', y_sessions (set_pc k p y) !! i = Some s' ∧ s_BMC s' = s_BMC s ∧ s_Term s' = s_Term s.
Proof. intros Hi. rewrite set_pc_lookup. case_decide; [rewrite Hi; by eexists|by exists s]. Qed.

Lemma session_step_Commands i s y y' :
  Commands y → y_sessions y !! i = Some s → session_step path i s y = Some y' → Commands y'.
Proof.
  intros HC Hi Hs. apply (Commands_sessions y); [done|..]; unfold session_step in Hs;
    destruct (s_pc s) as [| | | | |[v|]|v| |[v|]| | |v|v|v| |v|v|v| |]; simplify_option_eq; repeat case_match; simplify_option_eq;
    try (by intros; apply set_pc_keeps); try (by auto);
    (intros k c [Hk|Hk]%elem_of_app; [by left|]); apply list_elem_of_singleton in Hk; simplify_eq; right; eauto 10.
Qed.

Lemma reachable_Commands y : reachable path y → Commands y.
Proof.
  induction 1 as [|e y y' _ IH Hs]; [by intros i c Hc%not_elem_of_nil|].
  unfold sstep in Hs. destruct (crashed y); [done|]. destruct e as [u te b|k|k|k|k l|l].
  - simplify_eq. apply (Commands_sessions y); [done| |by auto].
    intros i s Hi. exists s. simpl. by rewrite (lookup_app_l_Some _ _ _ _ Hi).
  - destruct (y_sessions y !! k) as [r|] eqn:Hk; [|done]. by eapply session_step_Commands.
  - simplify_option_eq. apply (Commands_sessions y); [done|by intros; apply set_pc_keeps|].
    intros i c [Hk|Hk]%elem_of_app; [by left|]. apply list_elem_of_singleton in Hk. done.
  - simplify_option_eq. apply (Commands_sessions y); [done|by intros; apply set_pc_keeps|by auto].
  - simplify_option_eq. repeat case_match; simplify_option_eq. apply (Commands_sessions y); [done| |].
    + intros i s Hi. destruct (set_pc_keeps l (Ending st) y i s Hi) as (s1 & L1 & E1 & E1').
      destruct (set_pc_keeps k (Waiting (Some v)) (set_pc l (Ending st) y) i s1 L1) as (s2 & L2 & E2 & E2').
      exists s2. by rewrite E2, E2'.
    + intros i c [Hk|Hk]%elem_of_app; [by left|]. apply list_elem_of_singleton in Hk. done.
  - simplify_option_eq. repeat case_match; simplify_option_eq. apply (Commands_sessions y); [done|by intros; apply (set_pc_keeps l (Ending st) y)|].
    intros i c [Hk|Hk]%elem_of_app; [by left|]. apply list_elem_of_singleton in Hk. done.
Qed.
End Guarantees.

(** A command of a session is for the machine its key opened; the password is in
    the environment and never among the arguments. *)
Definition with_Pass (p : string) (b : BMCMachine) : BMCMachine :=
  mkBMCMachine (bm_Host b) (bm_User b) p (bm_Port b) (bm_CipherSuite b) (bm_SSHPublicKeys b).

Theorem commands_authentic path y i c :
  reachable path y → Run i c ∈ y_effects y →
  ∃ s bmc verb, y_sessions y !! i = Some s ∧ s_BMC s = Some bmc ∧ (verb = "activate" ∨ verb = "deactivate") ∧
    (∀ pass, cmd_Args c = sol_args path (with_Pass pass bmc) verb) ∧
    filter (λ v, HasPrefix v "IPMITOOL_PASSWORD=" = true) (cmd_Env c) = ["IPMITOOL_PASSWORD=" +:+ bm_Pass bmc].
Proof.
  intros Hy Hc. destruct (reachable_Commands path y Hy i c Hc) as (s & bmc & Hi & Hb & [-> | ->]);
    [exists s, bmc, "activate"|exists s, bmc, "deactivate"]; (split_and!; [done|done|by auto|done|]); cbn [activateCmd deactivateCmd cmd_Env].
  - by destruct (s_Term s), (bm_Pass bmc), (bm_User bmc), (bm_CipherSuite bmc), (Itoa (bm_Port bmc)), (bm_Host bmc).
  - by destruct (bm_Pass bmc).
Qed.

(** ** The escape sequence *)

(** The number of tildes a text ends with. *)
Fixpoint odd_tail (l : list ascii) (odd : bool) : bool :=
  match l with
  | [] => odd
  | c :: l' => odd_tail l' (if decide (c = tilde) then negb odd else false)
  end.

Lemma odd_tail_app l k b : odd_tail (l ++ k) b = odd_tail k (odd_tail l b).
Proof. revert b. induction l as [|c l IH]; intros b; simpl; [done|]. apply IH. Qed.

(** The scanner with its state made explicit. *)
Lemma escape_scan_state l :
  (escape_scan l = true ↔ ∃ pre post, l = pre ++ [tilde; dot] ++ post ∧ odd_tail pre false = false) ∧
  (escape_scan (tilde :: l) = true ↔
     (∃ post, l = dot :: post) ∨ ∃ pre post, l = pre ++ [tilde; dot] ++ post ∧ odd_tail pre true = false).
Proof.
  induction l as [|c l [IH1 IH2]].
  - split; simpl; [split; [done|intros (pre & post & E & _); by destruct pre]|].
    split; [done|]. intros [[post ?]|(pre & post & E & _)]; [done|]. by destruct pre.
  - split.
    + destruct (decide (c = tilde)) as [->|Hc].
      * rewrite IH2. split.
        -- intros [[post ->]|(pre & post & -> & Hp)]; [by exists [], post|]. by exists (tilde :: pre), post.
        -- intros ([|a pre] & post & E & Hp); simplify_eq/=; [left; by eexists|]. right. by exists pre, post.
      * simpl. rewrite decide_False by done. rewrite IH1. split.
        -- intros (pre & post & -> & Hp). exists (c :: pre), post. simpl. by rewrite decide_False.
        -- intros ([|a pre] & post & E & Hp); simplify_eq/=. rewrite decide_False in Hp by done. by exists pre, post.
    + change (escape_scan (tilde :: c :: l)) with (if decide (c = dot) then true else escape_scan l). case_decide as Hd.
      * subst c. split; [|done]. intros _. left. by eexists.
      * rewrite IH1. split.
        -- intros (pre & post & -> & Hp). right. exists (c :: pre), post. simpl. by case_decide.
        -- intros [[post ?]|([|a pre] & post & E & Hp)]; simplify_eq/=. exists pre, post. split; [done|]. by case_decide.
Qed.

(** A session is closed by its input exactly when [~.] occurs behind an even
    number of tildes. *)
Theorem escape_exact l :
  escape_scan l = true ↔ ∃ pre post, l = pre ++ [tilde; dot] ++ post ∧ odd_tail pre false = false.
Proof. apply escape_scan_state. Qed.

Example escape_ex :
  escape_scan (bytes_of "ls~.") = true ∧ escape_scan (bytes_of "~~.") = false ∧ escape_scan (bytes_of "~~~.") = true.
Proof. done. Qed.

(** ** The keys *)

Section Keys.
Context {PublicKey : Type} (ParseAuthorizedKey : string → res PublicKey) (KeysEqual : PublicKey → PublicKey → bool).

(** A key opens a machine exactly when it equals a key of the machine that parses;
    a key that does not parse is skipped. *)
Theorem PubkeyAuth_exact hw key b :
  PubkeyAuth ParseAuthorizedKey KeysEqual hw key = Some b ↔
  hw = inr (Some b) ∧ ∃ k pkey, k ∈ bm_SSHPublicKeys b ∧ ParseAuthorizedKey k = inr pkey ∧ KeysEqual key pkey = true.
Proof.
  unfold PubkeyAuth. destruct hw as [e|[hw|]]; [naive_solver| |naive_solver].
  destruct (existsb _ _) eqn:E; split.
  - intros [= ->]. split; [done|]. apply existsb_exists in E as (k & Hk%list_elem_of_In & Hp).
    destruct (ParseAuthorizedKey k) as [e|pkey] eqn:Ep; [done|]. by exists k, pkey.
  - by intros [[= ->] _].
  - done.
  - intros [[= ->] (k & pkey & Hk & Hp & He)]. assert (existsb (λ k, match ParseAuthorizedKey k with inl _ => false | inr pkey => KeysEqual key pkey end) (bm_SSHPublicKeys b) = true); [|congruence].
    apply existsb_exists. exists k. rewrite Hp. split; [by apply list_elem_of_In|done].
Qed.
End Keys.

(** ** secondstar.go *)

(** The address [Start] listens on. *)
Definition addrPort (BindAddr : Addr) (SSHPort : Z) : string :=
  if IsValid BindAddr && negb (Addr_IsUnspecified BindAddr) then Addr_String BindAddr +:+ ":" +:+ Itoa SSHPort
  else ":" +:+ Itoa SSHPort.

(** An IPv6 address is written without brackets, which no listener can split. *)
Example addrPort_ex :
  RemoteAddrIP (addrPort (Addr4 [10; 0; 0; 1]%Z) 2222) = Some "10.0.0.1" ∧
  RemoteAddrIP (addrPort AddrNone 2222) = Some "" ∧
  RemoteAddrIP (addrPort (Addr6 (replicate 15 0 ++ [1])%Z "") 2222) = None.
Proof. vm_compute. done. Qed.

(** ** Interleavings *)

Section Interleavings.
Let bmc : BMCMachine := mkBMCMachine "10.0.0.9" "admin" "secret" 623 "17" ["k"].
Let connect : event := Connect "node1" "xterm" (Some bmc).
Let sys_pcs (y : option Sys) : option (list pc) := (λ y, s_pc <$> y_sessions y) <$> y.

(** Two sessions of a user that are handled at the same time both take
    themselves for the first one; when one of them has ended, the other finds no
    state and dereferences nil. *)
Definition two_first_sessions : list event :=
  [connect; connect; Step 0; Step 1; Step 0; Step 1; Step 0; Step 1;
   CmdEnds 0; Step 0; Step 0; Step 0; Step 0; Step 0; CmdEnds 1; Step 1; Step 1; Step 1].
Example two_first_sessions_panic : sys_pcs (srun "ipmitool" two_first_sessions init) = Some [Done; Panicked].
Proof. vm_compute. done. Qed.

(** With two further sessions attached, one of them is told and the first session
    waits for the other. *)
Definition three_sessions : list event :=
  [connect; Step 0; Step 0; Step 0; connect; Step 1; Step 1; Step 1; Step 1; connect; Step 2; Step 2; Step 2; Step 2;
   CmdEnds 0; Step 0; Step 0; Step 0; Rendezvous 0 1; Step 1; Step 1; Step 1].
Example three_sessions_stuck :
  sys_pcs (srun "ipmitool" three_sessions init) = Some [Waiting (Some 0); Done; Attached 0] ∧
  (y ← srun "ipmitool" three_sessions init; sstep "ipmitool" (Step 0) y) = None.
Proof. vm_compute. done. Qed.

(** A session that leaves after it was counted and before it was told leaves the
    first session in its send, with nobody to receive. *)
Definition left_before_signal : list event :=
  [connect; Step 0; Step 0; Step 0; connect; Step 1; Step 1; Step 1; Step 1;
   CmdEnds 0; Step 0; Step 0; Leave 1; Step 1; Step 1; Step 1; Step 0].
Example left_before_signal_blocks : sys_pcs (srun "ipmitool" left_before_signal init) = Some [Sending 0 0; Done].
Proof. vm_compute. done. Qed.

(** A session that has found the state but not yet registered is not waited for:
    it attaches to a console whose process has ended. *)
Definition late_registration : list event :=
  [connect; Step 0; Step 0; Step 0; connect; Step 1;
   CmdEnds 0; Step 0; Step 0; Step 0; Step 0; Step 0; Step 1; Step 1; Step 1].
Example late_registration_attaches : sys_pcs (srun "ipmitool" late_registration init) = Some [Done; Attached 0].
Proof. vm_compute. done. Qed.
End Interleavings.
