(* ===== verification/UiPages.v ===== *)
(** * The web UI: pages of a list

    ui/internal/http/pagination.go and the row types of ui/templates/types.go.
    The seven functions of pagination.go have the same body; [paginate] is that
    body and each function is [paginate] with its path and target. *)
From S2P Require Import Prelude Float64.
Local Open Scope Z_scope.

(** ** templates/types.go: the rows of the lists *)

Record ui_Hardware := mkui_Hardware {
  uh_Name : string; uh_Namespace : string; uh_Description : string; uh_MAC : string; uh_IPv4Address : string;
  uh_Status : string; uh_CreatedAt : string }.
Record ui_Workflow := mkui_Workflow {
  uw_Name : string; uw_Namespace : string; uw_TemplateRef : string; uw_State : string; uw_Task : string;
  uw_Action : string; uw_Agent : string; uw_CreatedAt : string }.
Record ui_WorkflowRuleSet := mkui_WorkflowRuleSet {
  ur_Name : string; ur_Namespace : string; ur_Rules : string; ur_TemplateRef : string; ur_CreatedAt : string }.
Record ui_Template := mkui_Template {
  ut_Name : string; ut_Namespace : string; ut_State : string; ut_Data : string; ut_CreatedAt : string }.
Record ui_BMCMachine := mkui_BMCMachine {
  um_Name : string; um_Namespace : string; um_PowerState : string; um_Contactable : string; um_Endpoint : string;
  um_CreatedAt : string }.
Record ui_BMCJob := mkui_BMCJob {
  uj_Name : string; uj_Namespace : string; uj_MachineRef : string; uj_Status : string; uj_CompletedAt : string;
  uj_CreatedAt : string }.
Record ui_BMCTask := mkui_BMCTask {
  uk_Name : string; uk_Namespace : string; uk_JobRef : string; uk_TaskType : string; uk_Status : string;
  uk_CompletedAt : string; uk_CreatedAt : string }.

Record PaginationData := mkPaginationData {
  pd_CurrentPage : Z;
  pd_TotalPages : Z;
  pd_TotalItems : Z;
  pd_ItemsPerPage : Z;
  pd_StartItem : Z;
  pd_EndItem : Z;
  pd_ResourcePath : string;
  pd_TargetID : string;
}.

(** [HardwarePageData] and its siblings. *)
Record PageData (A : Type) := mkPageData { pg_Items : list A; pg_Pagination : PaginationData }.
Arguments mkPageData {A}.
Arguments pg_Items {A}.
Arguments pg_Pagination {A}.

(** The zero value a handler returns on an error. *)
Definition zero_PageData {A} : PageData A := mkPageData [] (mkPaginationData 0 0 0 0 0 0 "" "").

(** ** pagination.go *)

Section paginate.
(** The conversion of an infinity or a NaN to [int] is left to the
    implementation; it is reached only for zero items per page. *)
Context (int_of_Inf : Z).

Definition total_pages (totalItems itemsPerPage : Z) : Z :=
  if decide (totalItems = 0) then 1
  else if decide (itemsPerPage = 0) then int_of_Inf
  else float_ceil (float_div (float_of_int totalItems) (float_of_int itemsPerPage)).

Definition paginate {A} (path target : string) (items : list A) (page itemsPerPage : Z) : PageData A :=
  let totalItems := Z.of_nat (length items) in
  let totalPages := total_pages totalItems itemsPerPage in
  let page := if decide (page < 1) then 1 else page in
  let page := if decide (totalPages < page) then totalPages else page in
  let startIndex := wrap64 ((page - 1) * itemsPerPage) in
  let endIndex := wrap64 (startIndex + itemsPerPage) in
  let startIndex := if decide (startIndex < 0) then 0 else startIndex in
  let endIndex := if decide (totalItems < endIndex) then totalItems else endIndex in
  let startIndex := if decide (totalItems < startIndex) then totalItems else startIndex in
  let slice :=
    if decide (startIndex < totalItems ∧ 0 ≤ startIndex ∧ startIndex ≤ endIndex)
    then take (Z.to_nat (endIndex - startIndex)) (drop (Z.to_nat startIndex) items) else [] in
  let '(startItem, endItem) := if decide (0 < totalItems) then (startIndex + 1, endIndex) else (0, 0) in
  mkPageData slice (mkPaginationData page totalPages totalItems itemsPerPage startItem endItem path target).

Definition GetPaginatedHardware : list ui_Hardware → Z → Z → PageData ui_Hardware := paginate "/hardware" "#hardware-content".
Definition GetPaginatedWorkflows : list ui_Workflow → Z → Z → PageData ui_Workflow := paginate "/workflows" "#workflow-content".
Definition GetPaginatedWorkflowRuleSets : list ui_WorkflowRuleSet → Z → Z → PageData ui_WorkflowRuleSet :=
  paginate "/workflows/rulesets" "#workflowruleset-content".
Definition GetPaginatedTemplates : list ui_Template → Z → Z → PageData ui_Template := paginate "/templates" "#templates-content".
Definition GetPaginatedBMCMachines : list ui_BMCMachine → Z → Z → PageData ui_BMCMachine := paginate "/bmc/machines" "#bmc-machines-content".
Definition GetPaginatedBMCJobs : list ui_BMCJob → Z → Z → PageData ui_BMCJob := paginate "/bmc/jobs" "#bmc-jobs-content".
Definition GetPaginatedBMCTasks : list ui_BMCTask → Z → Z → PageData ui_BMCTask := paginate "/bmc/tasks" "#bmc-tasks-content".

(** ** What a page holds *)

(** The number of pages: the least [p ≥ 1] with [n ≤ p * d]. *)
Definition pages (n d : Z) : Z := Z.max 1 (- ((- n) / d)).

Lemma pages_spec n d : 0 ≤ n → 0 < d → 1 ≤ pages n d ∧ n ≤ pages n d * d ∧ (pages n d - 1) * d ≤ n.
Proof.
  intros Hn Hd. unfold pages. pose proof (Z.div_mod (- n) d ltac:(lia)). pose proof (Z.mod_pos_bound (- n) d Hd). nia.
Qed.

(** No page but the only one of an empty list is empty. *)
Lemma page_nonempty n d p : 0 < n → 0 < d → p ≤ pages n d → (p - 1) * d < n.
Proof.
  intros Hn Hd Hp. unfold pages in Hp. pose proof (Z.div_mod (- n) d ltac:(lia)). pose proof (Z.mod_pos_bound (- n) d Hd). nia.
Qed.

Lemma total_pages_pages n d : 0 ≤ n < 2 ^ 52 → 0 < d → total_pages n d = pages n d.
Proof.
  intros Hn Hd. unfold total_pages, pages. case_decide as H0; [subst n; by destruct d|]. rewrite decide_False by lia.
  rewrite float_ceil_exact by lia. pose proof (Z.div_mod (- n) d ltac:(lia)). pose proof (Z.mod_pos_bound (- n) d Hd). nia.
Qed.

(** The page a request gets: the one asked for, moved into the range. *)
Definition page_of (n d page : Z) : Z := Z.min (pages n d) (Z.max 1 page).

Lemma paginate_eq {A} path target (items : list A) page d :
  let n := Z.of_nat (length items) in
  n < 2 ^ 52 → 0 < d → int64 d →
  let p := page_of n d page in
  let s := (p - 1) * d in
  paginate path target items page d =
    mkPageData (take (Z.to_nat d) (drop (Z.to_nat s) items))
      (mkPaginationData p (pages n d) n d (if decide (0 < n) then s + 1 else 0) (Z.min n (s + d)) path target).
Proof.
  intros n Hn Hd Hd64 p s. unfold paginate. fold n. rewrite total_pages_pages by lia.
  replace (if decide (pages n d < if decide (page < 1) then 1 else page) then pages n d else if decide (page < 1) then 1 else page) with p
    by (unfold p, page_of; pose proof (pages_spec n d); repeat case_decide; lia).
  pose proof (pages_spec n d ltac:(lia) Hd) as (Hp1 & Hp2 & Hp3). assert (1 ≤ p ≤ pages n d) as Hp by (unfold p, page_of; lia).
  assert (0 ≤ s ≤ n) as Hs by (unfold s; nia). fold s.
  assert (0 < n → s < n) as Hlt by (intros; apply page_nonempty; lia).
  rewrite (wrap64_id s) by (unfold int64, min_int64, max_int64 in *; lia). rewrite (decide_False (P := s < 0)) by lia.
  assert (int64 (s + d)) as H64.
  { unfold int64, min_int64, max_int64 in *. assert (p = 1 ∨ 2 ≤ p) as [-> |] by lia; [unfold s; lia|]. assert (d ≤ s) by (unfold s; nia). lia. }
  rewrite (wrap64_id (s + d)) by done. rewrite (decide_False (P := n < s)) by lia.
  destruct (decide (0 < n)) as [H0|H0].
  - rewrite decide_True by (repeat case_decide; lia). f_equal; [|f_equal; case_decide; lia].
    case_decide; [|f_equal; lia]. rewrite !take_ge by (rewrite length_drop; lia). done.
  - rewrite decide_False by lia. assert (items = []) as -> by (apply nil_length_inv; lia).
    rewrite drop_nil, take_nil. f_equal. f_equal. lia.
Qed.

(** Each page number the list has shows its part of the list: the pages in their
    order are the list. *)
Lemma chunks {A} (l : list A) (d k : nat) :
  (0 < d)%nat → (length l ≤ k * d)%nat → concat ((λ i, take d (drop (i * d) l)) <$> seq 0 k) = l.
Proof.
  intros Hd. revert l. induction k as [|k IH]; intros l Hl; simpl; [symmetry; apply nil_length_inv; lia|].
  rewrite drop_0. rewrite <- seq_shift, <- list_fmap_compose.
  transitivity (take d l ++ concat ((λ i, take d (drop (i * d) (drop d l))) <$> seq 0 k)).
  - f_equal. f_equal. apply list_fmap_ext. intros i x _. simpl. rewrite drop_drop. done.
  - rewrite IH by (rewrite length_drop; lia). apply take_drop.
Qed.

Theorem pages_partition {A} path target (items : list A) d :
  let n := Z.of_nat (length items) in
  n < 2 ^ 52 → 0 < d → int64 d →
  concat ((λ i, pg_Items (paginate path target items (Z.of_nat i + 1) d)) <$> seq 0 (Z.to_nat (pages n d))) = items.
Proof.
  intros n Hn Hd Hd64. pose proof (pages_spec n d ltac:(lia) Hd) as (Hp1 & Hp2 & Hp3).
  etrans; [|apply (chunks items (Z.to_nat d) (Z.to_nat (pages n d))); nia]. f_equal.
  apply list_fmap_ext. intros j i Hj. apply lookup_seq in Hj as [-> Hj]. rewrite paginate_eq by done. simpl.
  fold n. f_equal. unfold page_of. f_equal. rewrite Z.max_r, Z.min_r by lia. lia.
Qed.

(** Whatever page is asked for, the page shown exists, the range shown is the
    range of its items in the list, and there are at most as many as asked for. *)
Theorem page_in_bounds {A} path target (items : list A) page d :
  let n := Z.of_nat (length items) in
  n < 2 ^ 52 → 0 < d → int64 d →
  let r := paginate path target items page d in
  let pd := pg_Pagination r in
  1 ≤ pd_CurrentPage pd ≤ pd_TotalPages pd ∧ (1 ≤ page ≤ pd_TotalPages pd → pd_CurrentPage pd = page) ∧
  pd_TotalItems pd = n ∧ Z.of_nat (length (pg_Items r)) ≤ d ∧
  (items ≠ [] → pg_Items r ≠ [] ∧ pg_Items r = take (Z.to_nat (pd_EndItem pd - pd_StartItem pd + 1)) (drop (Z.to_nat (pd_StartItem pd - 1)) items) ∧
     1 ≤ pd_StartItem pd ≤ pd_EndItem pd ∧ pd_EndItem pd ≤ n) ∧
  (items = [] → pg_Items r = [] ∧ pd_StartItem pd = 0 ∧ pd_EndItem pd = 0 ∧ pd_TotalPages pd = 1).
Proof.
  intros n Hn Hd Hd64. cbn zeta. rewrite paginate_eq by done. cbn zeta. fold n. simpl.
  pose proof (pages_spec n d ltac:(lia) Hd) as (Hp1 & Hp2 & Hp3). set (p := page_of n d page).
  assert (1 ≤ p ≤ pages n d) as Hp by (unfold p, page_of; lia).
  assert (0 < n → (p - 1) * d < n) as Hlt by (intros; apply page_nonempty; lia).
  assert (0 ≤ (p - 1) * d) by nia.
  split_and!; [lia|lia|unfold p, page_of; lia|done|rewrite length_take; lia| |].
  - intros Hne. assert (0 < n) as H0 by (unfold n; destruct items; simpl; [done|lia]). specialize (Hlt H0). rewrite decide_True by done.
    split; [intros E%(f_equal length); rewrite length_take, length_drop in E; simpl in E; lia|]. split; [|lia].
    replace ((p - 1) * d + 1 - 1) with ((p - 1) * d) by lia.
    destruct (decide (n ≤ (p - 1) * d + d)).
    + rewrite !take_ge by (rewrite length_drop; lia). done.
    + f_equal. lia.
  - intros ->. subst n. simpl in *. rewrite drop_nil, take_nil. split_and!; [done|done|lia|]. unfold pages. by destruct d.
Qed.
End paginate.
