(* ===== verification/UiTypes.v ===== *)
(** * The web UI: data, requests and answers

    ui/templates/types.go, the parts of a gin context the handlers of
    ui/internal/http use, and what a handler does to its response. The pages
    themselves are generated templates: a page is the component with the data it
    is rendered from. *)
From S2P Require Import Prelude GoStrings Api BmcTypes BmcApi UiPages.

(** ** templates/types.go *)

Record PageConfig := mkPageConfig { pc_BaseURL : string; pc_Namespaces : list string }.

Record HardwareInterface := mkHardwareInterface { hi_MAC : string; hi_IP : string }.

Record AgentProcessor := mkAgentProcessor {
  ap_ID : Z; ap_Cores : Z; ap_Threads : Z; ap_Vendor : string; ap_Model : string; ap_Capabilities : list string }.
Record AgentCPU := mkAgentCPU { ac_TotalCores : Z; ac_TotalThreads : Z; ac_Processors : list AgentProcessor }.
Record AgentMemory := mkAgentMemory { amem_Total : string; amem_Usable : string }.
Record AgentBlockDevice := mkAgentBlockDevice {
  abd_Name : string; abd_Size : string; abd_ControllerType : string; abd_DriveType : string;
  abd_PhysicalBlockSize : string; abd_Vendor : string; abd_Model : string; abd_WWN : string; abd_SerialNumber : string }.
Record AgentNetworkInterface := mkAgentNetworkInterface {
  ani_Name : string; ani_MAC : string; ani_Speed : string; ani_EnabledCapabilities : list string }.
Record AgentPCIDevice := mkAgentPCIDevice { apci_Vendor : string; apci_Product : string; apci_Class : string; apci_Driver : string }.
Record AgentGPUDevice := mkAgentGPUDevice { agpu_Vendor : string; agpu_Product : string; agpu_Class : string; agpu_Driver : string }.
Record AgentChassis := mkAgentChassis { ach_Serial : string; ach_Vendor : string }.
Record AgentBIOS := mkAgentBIOS { abios_Vendor : string; abios_Version : string; abios_ReleaseDate : string }.
Record AgentBaseboard := mkAgentBaseboard { abb_Vendor : string; abb_Product : string; abb_Version : string; abb_SerialNumber : string }.
Record AgentProduct := mkAgentProduct { aprod_Name : string; aprod_Vendor : string; aprod_SerialNumber : string }.
Record ui_AgentAttributes := mkui_AgentAttributes {
  uaa_CPU : AgentCPU; uaa_Memory : AgentMemory; uaa_BlockDevices : list AgentBlockDevice;
  uaa_NetworkInterfaces : list AgentNetworkInterface; uaa_PCIDevices : list AgentPCIDevice;
  uaa_GPUDevices : list AgentGPUDevice; uaa_Chassis : AgentChassis; uaa_BIOS : AgentBIOS;
  uaa_Baseboard : AgentBaseboard; uaa_Product : AgentProduct }.

Record HardwareDetail := mkHardwareDetail {
  hd_Name : string; hd_Namespace : string; hd_Interfaces : list HardwareInterface; hd_Status : string;
  hd_CreatedAt : string; hd_Labels : gmap string string; hd_Annotations : gmap string string;
  hd_AgentAttributes : option ui_AgentAttributes; hd_SpecYAML : string; hd_StatusYAML : string; hd_YAML : string }.
Record WorkflowDetail := mkWorkflowDetail {
  wd_Name : string; wd_Namespace : string; wd_TemplateRef : string; wd_HardwareRef : string; wd_State : string;
  wd_Task : string; wd_Action : string; wd_Agent : string; wd_TemplateRendering : string; wd_CreatedAt : string;
  wd_Labels : gmap string string; wd_Annotations : gmap string string; wd_SpecYAML : string; wd_StatusYAML : string; wd_YAML : string }.
Record TemplateDetail := mkTemplateDetail {
  td_Name : string; td_Namespace : string; td_State : string; td_Data : string; td_CreatedAt : string;
  td_Labels : gmap string string; td_Annotations : gmap string string; td_SpecYAML : string; td_StatusYAML : string; td_YAML : string }.
Record WorkflowRuleSetDetail := mkWorkflowRuleSetDetail {
  rd_Name : string; rd_Namespace : string; rd_YAMLData : string; rd_CreatedAt : string; rd_Labels : gmap string string;
  rd_Annotations : gmap string string; rd_Rules : list string; rd_TemplateRef : string; rd_WorkflowNamespace : string;
  rd_WorkflowDisabled : bool; rd_AddAttributes : bool; rd_AgentValue : string }.
Record BMCMachineDetail := mkBMCMachineDetail {
  md_Name : string; md_Namespace : string; md_PowerState : string; md_Contactable : string; md_Endpoint : string;
  md_CreatedAt : string; md_Labels : gmap string string; md_Annotations : gmap string string; md_SpecYAML : string;
  md_StatusYAML : string; md_YAML : string }.
Record BMCJobDetail := mkBMCJobDetail {
  jd_Name : string; jd_Namespace : string; jd_MachineRef : string; jd_Status : string; jd_CompletedAt : string;
  jd_CreatedAt : string; jd_Labels : gmap string string; jd_Annotations : gmap string string; jd_SpecYAML : string;
  jd_StatusYAML : string; jd_YAML : string }.
Record BMCTaskDetail := mkBMCTaskDetail {
  kd_Name : string; kd_Namespace : string; kd_JobRef : string; kd_TaskType : string; kd_Status : string;
  kd_CompletedAt : string; kd_CreatedAt : string; kd_Labels : gmap string string; kd_Annotations : gmap string string;
  kd_SpecYAML : string; kd_StatusYAML : string; kd_YAML : string }.

Record Permission := mkPermission { pm_Resource : string; pm_APIGroup : string; pm_Namespace : string; pm_Verbs : list string }.
Record ResourceInfo := mkResourceInfo { ri_Resource : string; ri_APIGroup : string }.

(** [SchemaField], the default of an absent value being the empty string. *)
Inductive SchemaField := mkSchemaField {
  sf_Name : string; sf_Type : string; sf_Description : string; sf_Required : bool; sf_Deprecated : bool;
  sf_Children : list SchemaField; sf_Pattern : string; sf_Enum : list string; sf_Default : string; sf_Format : string }.
Record CRDInfo := mkCRDInfo {
  ci_Kind : string; ci_Plural : string; ci_Group : string; ci_Version : string; ci_Description : string; ci_Route : string;
  ci_SpecFields : list SchemaField; ci_StatusFields : list SchemaField }.
Record CRDGroup := mkCRDGroup { cg_Name : string; cg_CRDs : list CRDInfo }.
Record DashboardData := mkDashboardData {
  dd_Groups : list CRDGroup; dd_SelectedVersion : string; dd_AvailableVersions : list string; dd_BaseURL : string }.

(** ** The objects of the API the UI shows

    [li_Created] is the creation timestamp, in seconds, and the string of a
    template is the state in its status. *)
Inductive Kind := KHardware | KWorkflow | KTemplate | KRuleSet | KMachine | KJob | KTask.

#[export] Instance Kind_eq_dec : EqDecision Kind.
Proof. solve_decision. Defined.

Definition obj (k : Kind) : Type :=
  match k with
  | KHardware => Hardware
  | KWorkflow => Workflow
  | KTemplate => Template * string
  | KRuleSet => WorkflowRuleSet
  | KMachine => Machine
  | KJob => Job
  | KTask => bmc_Task
  end.

Definition obj_Meta {k : Kind} : obj k → ObjectMeta :=
  match k with
  | KHardware => hw_Meta
  | KWorkflow => wf_Meta
  | KTemplate => λ t, tpl_Meta t.1
  | KRuleSet => wrs_Meta
  | KMachine => m_Meta
  | KJob => job_Meta
  | KTask => bt_Meta
  end.

Record Listed (k : Kind) := mkListed { li_obj : obj k; li_Created : Z }.
Arguments mkListed {k}.
Arguments li_obj {k}.
Arguments li_Created {k}.

Definition li_Name {k} (x : Listed k) : string := om_Name (obj_Meta (li_obj x)).
Definition li_Namespace {k} (x : Listed k) : string := om_Namespace (obj_Meta (li_obj x)).

(** ** Requests *)

(** The client of a request: one made from a token, or the one of auto-login. *)
Inductive KubeClient :=
| TokenClient (token apiServer : string) (insecureSkipVerify : bool)
| AutoClient.

(** [gin.Context]: the request and the values set on the way. Cookies are as
    [c.Cookie] returns them. *)
Record GinContext := mkGinContext {
  gc_Path : string;
  gc_TLS : bool;
  gc_Header : gmap string string;
  gc_Query : gmap string string;
  gc_Param : gmap string string;
  gc_PostForm : gmap string string;
  gc_Cookie : gmap string string;
  gc_baseURL : option string;
  gc_saNamespace : option string;
  gc_kubeClient : option KubeClient;
}.

Definition Query (c : GinContext) (key : string) : string := default "" (gc_Query c !! key).
Definition DefaultQuery (c : GinContext) (key d : string) : string := default d (gc_Query c !! key).
Definition Param (c : GinContext) (key : string) : string := default "" (gc_Param c !! key).
Definition PostForm (c : GinContext) (key : string) : string := default "" (gc_PostForm c !! key).
Definition GetHeader (c : GinContext) (key : string) : string := default "" (gc_Header c !! key).

(** ** Answers *)

Inductive component :=
| HardwareTableContent (d : PageData ui_Hardware)
| Homepage (cfg : PageConfig) (d : PageData ui_Hardware)
| WorkflowTableContent (d : PageData ui_Workflow)
| WorkflowPage (cfg : PageConfig) (d : PageData ui_Workflow)
| WorkflowRuleSetTableContent (d : PageData ui_WorkflowRuleSet)
| WorkflowRuleSetPage (cfg : PageConfig) (d : PageData ui_WorkflowRuleSet)
| TemplateTableContent (d : PageData ui_Template)
| TemplatePage (cfg : PageConfig) (d : PageData ui_Template)
| BMCMachineTableContent (d : PageData ui_BMCMachine)
| BMCMachinePage (cfg : PageConfig) (d : PageData ui_BMCMachine)
| BMCJobTableContent (d : PageData ui_BMCJob)
| BMCJobPage (cfg : PageConfig) (d : PageData ui_BMCJob)
| BMCTaskTableContent (d : PageData ui_BMCTask)
| BMCTaskPage (cfg : PageConfig) (d : PageData ui_BMCTask)
| HardwareDetailPage (cfg : PageConfig) (d : HardwareDetail)
| WorkflowDetailPage (cfg : PageConfig) (d : WorkflowDetail)
| TemplateDetailPage (cfg : PageConfig) (d : TemplateDetail)
| WorkflowRuleSetDetailPage (cfg : PageConfig) (d : WorkflowRuleSetDetail)
| BMCMachineDetailPage (cfg : PageConfig) (d : BMCMachineDetail)
| BMCJobDetailPage (cfg : PageConfig) (d : BMCJobDetail)
| BMCTaskDetailPage (cfg : PageConfig) (d : BMCTaskDetail)
| NotFoundPage (cfg : PageConfig) (resourceType name namespace listPath listName message : string)
| LoginPage (baseURL : string)
| PermissionsPage (cfg : PageConfig) (resources : list ResourceInfo)
| PermissionRow (p : Permission)
| PermissionRowError (resource group : string)
| DashboardPage (cfg : PageConfig) (d : DashboardData)
| DashboardCRDContent (d : DashboardData).

Record SearchResult := mkSearchResult {
  sr_ResName : string; sr_ResNamespace : string; sr_Type : string; sr_TypeLabel : string; sr_URL : string; sr_Icon : string }.

(** The JSON answers. *)
Inductive json_body :=
| JError (error : string)
| JErrorDetails (error details : string)
| JMessage (message : string)
| JSearch (results : list SearchResult) (query message : string).

Record cookie := mkcookie {
  ck_Name : string; ck_Value : string; ck_MaxAge : Z; ck_Path : string; ck_Secure : bool; ck_HttpOnly : bool }.

(** What a handler does to the response, in the order it does it. *)
Inductive op :=
| Header (key value : string)
| Status (code : Z)
| RedirectTo (code : Z) (location : string)
| JSON (code : Z) (body : json_body)
| Text (code : Z) (body : string)
| Render (c : component)
| SetCookie (c : cookie)
| SetSameSiteStrict
| AbortChain.

(** The operations that write the body. *)
Definition commits (o : op) : bool :=
  match o with
  | RedirectTo _ _ | JSON _ _ | Text _ _ | Render _ => true
  | _ => false
  end.
Definition bodies (ops : list op) : list op := filter (λ o, commits o = true) ops.

Lemma bodies_app a b : bodies (a ++ b) = bodies a ++ bodies b.
Proof. apply filter_app. Qed.
