(* ===== verification/UiKube.v ===== *)
(** * The web UI: the Kubernetes client and what the handlers share

    ui/internal/http/kube.go and ui/templates/constants.go. The API server is
    the class [UiKube]; the functions of kube.go are written against it. *)
From S2P Require Import Prelude GoStrings GoStrconv InventoryTypes Api BmcTypes BmcApi UiPages UiTypes.

(** ** The API server *)

Inductive yaml_value :=
| YObject (k : Kind) (o : obj k)
| YSpec (k : Kind) (o : obj k)
| YStatus (k : Kind) (o : obj k)
| YRules (rules : list string).

(** What the UI calls and does not define: the API, the encoders of YAML and JSON,
    the format of a time in the zone of the process. [k_List] with no namespace
    lists all of them. *)
Class UiKube (W : Type) := {
  k_New : KubeClient → W → option error * W;
  k_ListNamespaces : KubeClient → W → res (list string) * W;
  k_List : ∀ k : Kind, KubeClient → option string → W → res (list (Listed k)) * W;
  k_Get : ∀ k : Kind, KubeClient → string → string → W → res (Listed k) * W;
  k_AccessReview : KubeClient → string → string → string → string → W → res bool * W;
  yaml_Marshal : yaml_value → res string;
  json_AgentAttributes : string → option ui_AgentAttributes;
  local_time : Z → string;
}.

(** ** kube.go *)

Definition DefaultItemsPerPage : Z := 10.
Definition MaxItemsPerPage : Z := 100.
Definition statusUnknown : string := "Unknown".
Definition statusPending : string := "Pending".
Definition statusCompleted : string := "Completed".
Definition statusFailed : string := "Failed".
Definition statusRunning : string := "Running".
Definition groupTinkerbell : string := "tinkerbell.org".
Definition groupBMC : string := "bmc.tinkerbell.org".
Definition verbList : string := "list".
Definition resourceHardware : string := "hardware".
Definition resourceWorkflow : string := "workflow".
Definition resourceTemplate : string := "template".
Definition resourceTasks : string := "tasks".
Definition AllNamespace : string := "All".

Definition ValidateItemsPerPage (itemsPerPage : Z) : Z :=
  if decide (itemsPerPage < 1)%Z then DefaultItemsPerPage
  else if decide (MaxItemsPerPage < itemsPerPage)%Z then MaxItemsPerPage
  else itemsPerPage.

Definition GetBaseURL (c : GinContext) : string := default "" (gc_baseURL c).

(** The name of a kind in the errors of the list and the get functions. *)
Definition list_label (k : Kind) : string :=
  match k with
  | KHardware => "hardware" | KWorkflow => "workflows" | KTemplate => "templates" | KRuleSet => "workflowrulesets"
  | KMachine => "BMC machines" | KJob => "BMC jobs" | KTask => "BMC tasks"
  end.
Definition get_label (k : Kind) : string :=
  match k with
  | KHardware => "hardware" | KWorkflow => "workflow" | KTemplate => "template" | KRuleSet => "workflowruleset"
  | KMachine => "BMC machine" | KJob => "BMC job" | KTask => "BMC task"
  end.

Definition namespace_opt (namespace : string) : option string :=
  if decide (namespace ≠ "" ∧ namespace ≠ AllNamespace) then Some namespace else None.

Section Kube.
Context {W : Type} `{UiKube W}.

Definition wrap_res {A} (pre : string) (r : res A * W) : res A * W :=
  match r with
  | (inl e, w) => (inl (ErrWrap pre e), w)
  | r => r
  end.

Definition ListNamespaces (cl : KubeClient) (w : W) : res (list string) * W :=
  wrap_res "failed to list namespaces: " (k_ListNamespaces cl w).

(** The common body of [ListHardware] and its siblings, and of [GetHardware] and its siblings. *)
Definition ListKind (k : Kind) (cl : KubeClient) (namespace : string) (w : W) : res (list (Listed k)) * W :=
  wrap_res ("failed to list " +:+ list_label k +:+ ": ") (k_List k cl (namespace_opt namespace) w).
Definition GetKind (k : Kind) (cl : KubeClient) (namespace name : string) (w : W) : res (Listed k) * W :=
  wrap_res ("failed to get " +:+ get_label k +:+ ": ") (k_Get k cl namespace name w).

Definition ListHardware := ListKind KHardware.
Definition ListWorkflows := ListKind KWorkflow.
Definition ListTemplates := ListKind KTemplate.
Definition ui_ListWorkflowRuleSets := ListKind KRuleSet.
Definition ListBMCMachines := ListKind KMachine.
Definition ListBMCJobs := ListKind KJob.
Definition ListBMCTasks := ListKind KTask.
Definition ui_GetHardware := GetKind KHardware.
Definition ui_GetWorkflow := GetKind KWorkflow.
Definition GetTemplate := GetKind KTemplate.
Definition GetWorkflowRuleSet := GetKind KRuleSet.
Definition GetBMCMachine := GetKind KMachine.
Definition GetBMCJob := GetKind KJob.
Definition GetBMCTask := GetKind KTask.

Definition errNoClient : error := ErrNew "no kubernetes client found in context".

Definition GetKubeClientFromGinContext (c : GinContext) : res KubeClient :=
  match gc_kubeClient c with
  | Some cl => inr cl
  | None => inl errNoClient
  end.

Definition authIndicators : list string :=
  ["Unauthorized"; "unauthorized"; "provide credentials"; "invalid bearer token"; "token is expired"; "token has expired";
   "certificate"; "tls"; "x509"; "authentication failed"; "not authenticated"; "unauthenticated"].

Definition IsAuthError (err : error) : bool := existsb (λ i, Contains (error_msg err) i) authIndicators.

Definition IsHTMXRequest (c : GinContext) : bool := bool_decide (GetHeader c "HX-Request" = "true").

(** What is written when the error is one of authentication; [None] when it is not. *)
Definition HandleAuthError (c : GinContext) (err : error) : option (list op) :=
  if IsAuthError err then
    Some (if IsHTMXRequest c then [Header "HX-Redirect" "/login"; Status 401; AbortChain] else [RedirectTo 302 "/login"; AbortChain])
  else None.

Definition GetHardwareInterfaces (hw : Hardware) : list HardwareInterface :=
  omap (λ iface,
    match if_DHCP iface with
    | Some d =>
        let ip := match dhcp_IP d with Some i => ip_Address i | None => "" end in
        if decide (dhcp_MAC d ≠ "" ∨ ip ≠ "") then Some (mkHardwareInterface (dhcp_MAC d) ip) else None
    | None => None
    end) (hs_Interfaces (hw_Spec hw)).

Definition GetHardwareStatus (hw : Hardware) : string :=
  if decide (hst_State (hw_Status hw) = "provisioning") then "Provisioning"
  else if decide (hst_State (hw_Status hw) = "failed") then "Offline"
  else "Online".

Definition GetKubeNamespaces (c : GinContext) (cl : option KubeClient) (w : W) : list string * W :=
  match cl with
  | None => ([], w)
  | Some cl =>
      match ListNamespaces cl w with
      | (inl _, w) =>
          (match gc_saNamespace c with
           | Some ns => if decide (ns ≠ "") then [ns] else []
           | None => []
           end, w)
      | (inr namespaces, w) => (namespaces, w)
      end
  end.

Definition GetSelectedNamespace (c : GinContext) (namespaces : list string) : string :=
  if decide (Query c "namespace" ≠ "") then Query c "namespace"
  else match namespaces with [ns] => ns | _ => "" end.

(** The loop of [GetBMCJobStatus], [status] being what it holds so far. *)
Fixpoint job_status (conditions : list JobCondition) (status : string) : string :=
  match conditions with
  | [] => status
  | cond :: rest =>
      if decide (jc_Status cond ≠ ConditionTrue) then job_status rest status
      else if decide (jc_Type cond = JobCompleted) then statusCompleted
      else if decide (jc_Type cond = JobFailed) then statusFailed
      else if decide (jc_Type cond = JobRunning) then job_status rest statusRunning
      else job_status rest status
  end.
Definition GetBMCJobStatus (conditions : list JobCondition) : string := job_status conditions statusPending.
End Kube.
