(* ===== verification/UiLists.v ===== *)
(** * The web UI: lists and details

    ui/internal/http/hardware.go, workflows.go, templates.go, workflowrulesets.go
    and bmc.go. A handler maps a request and the API server to the operations on
    the response and the API server after it. *)
From S2P Require Import Prelude GoStrings GoStrconv GoPath InventoryTypes Api BmcTypes BmcApi UiPages UiTypes UiKube.

Definition AttributesAnnotation : string := "tinkerbell.org/agent-attributes".
Definition nameSingularHardware : string := "Hardware".
Definition namePluralHardware : string := "Hardware".
Definition nameSingularWorkflow : string := "Workflow".
Definition namePluralWorkflow : string := "Workflows".
Definition nameSingularTemplate : string := "Template".
Definition namePluralTemplate : string := "Templates".
Definition nameSingularWorkflowRuleSet : string := "Ruleset".
Definition namePluralWorkflowRuleSet : string := "Rulesets".
Definition nameSingularTask : string := "Task".
Definition namePluralTask : string := "Tasks".
Definition nameSingularJob : string := "Job".
Definition namePluralJob : string := "Jobs".
Definition nameSingularMachine : string := "Machine".
Definition namePluralMachine : string := "Machines".
Definition taskTypeBootDevice : string := "BootDevice".

Definition html (comp : component) : list op := [Header "Content-Type" "text/html"; Render comp].
Definition cfg_of (c : GinContext) (namespaces : list string) : PageConfig := mkPageConfig (GetBaseURL c) namespaces.

(** The page a request asks for, and the number of items per page: one rule for
    the lists of hardware.go, workflows.go, templates.go and workflowrulesets.go,
    another for those of bmc.go. *)
Definition page_query (c : GinContext) : Z :=
  let '(page, err) := Atoi (DefaultQuery c "page" "1") in if err then 1%Z else page.
Definition per_page_query (c : GinContext) : Z :=
  ValidateItemsPerPage (fst (Atoi (DefaultQuery c "per_page" (Itoa DefaultItemsPerPage)))).
Definition bmc_per_page_query (c : GinContext) : Z :=
  let '(n, err) := Atoi (DefaultQuery c "per_page" (Itoa DefaultItemsPerPage)) in
  if err || bool_decide (n < 1)%Z then DefaultItemsPerPage else n.

(** [strings.ReplaceAll(s, "\\" + c, by)] for a two-byte pattern that starts with a backslash. *)
Definition backslash : ascii := "\"%char.
Fixpoint replace_escape (c : ascii) (by_ : ascii) (l : list ascii) : list ascii :=
  match l with
  | a :: ((b :: l'') as l') =>
      if decide (a = backslash ∧ b = c) then by_ :: replace_escape c by_ l'' else a :: replace_escape c by_ l'
  | l => l
  end.
Definition ReplaceEscape (c by_ : ascii) (s : string) : string := of_bytes (replace_escape c by_ (bytes_of s)).

Section Lists.
Context {W : Type} `{UiKube W} (int_of_Inf : Z).
Implicit Types (c : GinContext) (w : W).

(** ** Rows *)

Definition first_mac_ip (hw : Hardware) : string * string :=
  match hs_Interfaces (hw_Spec hw) with
  | iface :: _ =>
      match if_DHCP iface with
      | Some d => (dhcp_MAC d, match dhcp_IP d with Some i => ip_Address i | None => "N/A" end)
      | None => ("N/A", "N/A")
      end
  | [] => ("N/A", "N/A")
  end.

Definition hardware_row (x : Listed KHardware) : ui_Hardware :=
  let '(mac, ip) := first_mac_ip (li_obj x) in
  mkui_Hardware (li_Name x) (li_Namespace x) "" mac ip "" (local_time (li_Created x)).

Definition current_state (wf : Workflow) : string * string * string :=
  match st_CurrentState (wf_Status wf) with
  | Some cs => (cs_TaskName cs, cs_ActionName cs, cs_AgentID cs)
  | None => ("", "", "")
  end.

Definition workflow_row (x : Listed KWorkflow) : ui_Workflow :=
  let wf := li_obj x in
  let '(task, action, agent) := current_state wf in
  mkui_Workflow (wf_Name wf) (wf_Namespace wf) (spec_TemplateRef (wf_Spec wf)) (st_State (wf_Status wf)) task action agent
    (local_time (li_Created x)).

Definition template_row (x : Listed KTemplate) : ui_Template :=
  let '(tpl, state) := li_obj x in
  mkui_Template (li_Name x) (li_Namespace x) state (default "" (tpl_Data tpl)) (local_time (li_Created x)).

Definition yaml_or_empty (v : yaml_value) : string := match yaml_Marshal v with inl _ => "" | inr s => s end.

Definition ruleset_row (x : Listed KRuleSet) : ui_WorkflowRuleSet :=
  let spec := wrs_Spec (li_obj x) in
  let rules := match rs_Rules spec with [] => "N/A" | l => yaml_or_empty (YRules l) end in
  let ref := tc_Ref (rw_Template (rs_Workflow spec)) in
  mkui_WorkflowRuleSet (li_Name x) (li_Namespace x) rules (if decide (ref ≠ "") then ref else "N/A") (local_time (li_Created x)).

Definition contactable (m : Machine) : string :=
  match list_find (λ cond, mcond_Type cond = Contactable) (mst_Conditions (m_Status m)) with
  | Some (_, cond) => mcond_Status cond
  | None => statusUnknown
  end.

Definition machine_row (x : Listed KMachine) : ui_BMCMachine :=
  let m := li_obj x in
  mkui_BMCMachine (li_Name x) (li_Namespace x) (mst_Power (m_Status m)) (contactable m) (conn_Host (m_Connection m))
    (local_time (li_Created x)).

Definition time_or_empty (t : option Z) : string := match t with Some t => local_time t | None => "" end.
Definition machine_ref (j : Job) : string :=
  mref_Namespace (jspec_MachineRef (job_Spec j)) +:+ "/" +:+ mref_Name (jspec_MachineRef (job_Spec j)).

Definition job_row (x : Listed KJob) : ui_BMCJob :=
  let j := li_obj x in
  mkui_BMCJob (li_Name x) (li_Namespace x) (machine_ref j) (GetBMCJobStatus (jst_Conditions (job_Status j)))
    (time_or_empty (jst_CompletionTime (job_Status j))) (local_time (li_Created x)).

(** The loop over the conditions of a task: the status and when it was completed. *)
Fixpoint task_conditions (completion : option Z) (conditions : list TaskCondition) : string * string :=
  match conditions with
  | [] => (statusPending, "")
  | cond :: rest =>
      if decide (tcond_Type cond = TaskCompleted ∧ tcond_Status cond = ConditionTrue) then (statusCompleted, time_or_empty completion)
      else if decide (tcond_Type cond = TaskFailed ∧ tcond_Status cond = ConditionTrue) then (statusFailed, "")
      else task_conditions completion rest
  end.
Definition task_status (t : bmc_Task) : string * string :=
  let st := bt_Status t in
  let '(status, completedAt) := task_conditions (tst_CompletionTime st) (tst_Conditions st) in
  (if bool_decide (status = statusPending) && bool_decide (tst_StartTime st ≠ None) then statusRunning else status, completedAt).

Definition bmcTaskType (action : bmc_Action) : string :=
  if bool_decide (ba_VirtualMediaAction action ≠ None) then "VirtualMedia"
  else if bool_decide (ba_BootDevice action ≠ None) || bool_decide (ba_OneTimeBootDeviceAction action ≠ None) then taskTypeBootDevice
  else if bool_decide (ba_PowerAction action ≠ None) then "Power"
  else "Unknown".

Definition bmcTaskJobRef (namespace : string) (labels : gmap string string) : string :=
  match labels !! "owner-name" with
  | Some name => if decide (TrimSpace name ≠ "") then path_Join [namespace; name] else "N/A"
  | None => "N/A"
  end.

Definition task_row (x : Listed KTask) : ui_BMCTask :=
  let t := li_obj x in
  let '(status, completedAt) := task_status t in
  mkui_BMCTask (li_Name x) (li_Namespace x) (bmcTaskJobRef (li_Namespace x) (om_Labels (bt_Meta t)))
    (bmcTaskType (tspec_Task (bt_Spec t))) status completedAt (local_time (li_Created x)).

(** ** Lists *)

(** A handler that needs the client; [fail] is what it writes without one. *)
Definition with_client c w (fail : list op) (body : KubeClient → W → list op * W) : list op * W :=
  match GetKubeClientFromGinContext c with
  | inl e => (match HandleAuthError c e with Some ops => ops | None => fail end, w)
  | inr cl => body cl w
  end.

Definition internal_error : list op := [Text 500 "Internal server error"].

(** The rows of a list, or what was written when the error was one of authentication. *)
Definition list_rows {A} (k : Kind) (row : Listed k → A) c (cl : KubeClient) (ns : string) w : (list op + list A) * W :=
  match ListKind k cl ns w with
  | (inl e, w) => (match HandleAuthError c e with Some ops => inl ops | None => inr [] end, w)
  | (inr items, w) => (inr (row <$> items), w)
  end.

(** The common body of [HandleWorkflowList] and its siblings: [select] picks the
    namespace, [per_page] the number of items. *)
Definition list_handler {A} (k : Kind) (row : Listed k → A) (paginated : list A → Z → Z → PageData A)
    (table : PageData A → component) (full : PageConfig → PageData A → component)
    (select : GinContext → list string → string) (per_page : GinContext → Z) c w : list op * W :=
  with_client c w internal_error (λ cl w,
    let '(namespaces, w) := GetKubeNamespaces c (Some cl) w in
    match list_rows k row c cl (select c namespaces) w with
    | (inl ops, w) => (ops, w)
    | (inr rows, w) =>
        let d := paginated rows (page_query c) (per_page c) in
        (if IsHTMXRequest c then html (table d) else html (full (cfg_of c namespaces) d), w)
    end).

(** The common body of [HandleWorkflowData] and its siblings. *)
Definition data_handler {A} (k : Kind) (row : Listed k → A) (paginated : list A → Z → Z → PageData A)
    (table : PageData A → component) (per_page : GinContext → Z) c w : list op * W :=
  with_client c w internal_error (λ cl w,
    match list_rows k row c cl (Query c "namespace") w with
    | (inl ops, w) => (ops, w)
    | (inr rows, w) => (html (table (paginated rows (page_query c) (per_page c))), w)
    end).

Definition query_namespace c (namespaces : list string) : string := Query c "namespace".

Definition HandleWorkflowList := list_handler KWorkflow workflow_row (GetPaginatedWorkflows int_of_Inf)
  WorkflowTableContent WorkflowPage GetSelectedNamespace per_page_query.
Definition HandleWorkflowData := data_handler KWorkflow workflow_row (GetPaginatedWorkflows int_of_Inf) WorkflowTableContent per_page_query.
Definition HandleTemplateList := list_handler KTemplate template_row (GetPaginatedTemplates int_of_Inf)
  TemplateTableContent TemplatePage GetSelectedNamespace per_page_query.
Definition HandleTemplateData := data_handler KTemplate template_row (GetPaginatedTemplates int_of_Inf) TemplateTableContent per_page_query.
Definition HandleWorkflowRuleSetList := list_handler KRuleSet ruleset_row (GetPaginatedWorkflowRuleSets int_of_Inf)
  WorkflowRuleSetTableContent WorkflowRuleSetPage GetSelectedNamespace per_page_query.
Definition HandleWorkflowRuleSetData := data_handler KRuleSet ruleset_row (GetPaginatedWorkflowRuleSets int_of_Inf)
  WorkflowRuleSetTableContent per_page_query.
Definition HandleBMCMachineList := list_handler KMachine machine_row (GetPaginatedBMCMachines int_of_Inf)
  BMCMachineTableContent BMCMachinePage query_namespace bmc_per_page_query.
Definition HandleBMCMachineData := data_handler KMachine machine_row (GetPaginatedBMCMachines int_of_Inf) BMCMachineTableContent bmc_per_page_query.
Definition HandleBMCJobList := list_handler KJob job_row (GetPaginatedBMCJobs int_of_Inf)
  BMCJobTableContent BMCJobPage query_namespace bmc_per_page_query.
Definition HandleBMCJobData := data_handler KJob job_row (GetPaginatedBMCJobs int_of_Inf) BMCJobTableContent bmc_per_page_query.
Definition HandleBMCTaskList := list_handler KTask task_row (GetPaginatedBMCTasks int_of_Inf)
  BMCTaskTableContent BMCTaskPage query_namespace bmc_per_page_query.
Definition HandleBMCTaskData := data_handler KTask task_row (GetPaginatedBMCTasks int_of_Inf) BMCTaskTableContent bmc_per_page_query.

(** *** Hardware

    [GetHardwareList] returns to a handler that renders a page whatever happened,
    also when an answer was already written. *)
Definition GetHardwareList c w : list op * list string * PageData ui_Hardware * W :=
  match GetKubeClientFromGinContext c with
  | inl e => (match HandleAuthError c e with Some ops => ops | None => [] end, [], zero_PageData, w)
  | inr cl =>
      let '(namespaces, w) := GetKubeNamespaces c (Some cl) w in
      match ListHardware cl (GetSelectedNamespace c namespaces) w with
      | (inl e, w) =>
          match HandleAuthError c e with
          | Some ops => (ops, namespaces, zero_PageData, w)
          | None => ([], namespaces, GetPaginatedHardware int_of_Inf [] (page_query c) (per_page_query c), w)
          end
      | (inr items, w) =>
          ([], namespaces, GetPaginatedHardware int_of_Inf (hardware_row <$> items) (page_query c) (per_page_query c), w)
      end
  end.

Definition HandleHome c w : list op * W :=
  let '(ops, namespaces, d, w) := GetHardwareList c w in
  (ops ++ (if IsHTMXRequest c then html (HardwareTableContent d) else html (Homepage (cfg_of c namespaces) d)), w).
Definition HandleHardwareList c w : list op * W :=
  let '(ops, namespaces, d, w) := GetHardwareList c w in
  (ops ++ (if IsHTMXRequest c then html (HardwareTableContent d) else html (Homepage (cfg_of c namespaces) d)), w).

Definition HandleHardwareData c w : list op * W :=
  with_client c w [Status 500] (λ cl w,
    let '(items, w) := ListHardware cl (Query c "namespace") w in
    let rows := match items with inl _ => [] | inr l => hardware_row <$> l end in
    (html (HardwareTableContent (GetPaginatedHardware int_of_Inf rows (page_query c) (per_page_query c))), w)).

(** ** Details *)

(** The common body of the detail handlers: [missing] is what is written when the
    object cannot be read. *)
Definition detail_handler (k : Kind) (fail : list op) (missing : PageConfig → string → string → list op)
    (show : PageConfig → Listed k → list op) c w : list op * W :=
  with_client c w fail (λ cl w,
    let '(namespaces, w) := GetKubeNamespaces c (Some cl) w in
    let '(namespace, name) := (Param c "namespace", Param c "name") in
    match GetKind k cl namespace name w with
    | (inl e, w) => (match HandleAuthError c e with Some ops => ops | None => missing (cfg_of c namespaces) namespace name end, w)
    | (inr x, w) => (show (cfg_of c namespaces) x, w)
    end).

Definition not_found (singular listPath plural suffix : string) (cfg : PageConfig) (namespace name : string) : list op :=
  [Header "Content-Type" "text/html"; Status 404;
   Render (NotFoundPage cfg singular name namespace listPath plural ("This " +:+ singular +:+ " may have been deleted" +:+ suffix))].

Definition labels_of {k} (x : Listed k) : gmap string string := om_Labels (obj_Meta (li_obj x)).
Definition annotations_of {k} (x : Listed k) : gmap string string := om_Annotations (obj_Meta (li_obj x)).
Definition yamls {k} (x : Listed k) : string * string * string :=
  (yaml_or_empty (YSpec k (li_obj x)), yaml_or_empty (YStatus k (li_obj x)), yaml_or_empty (YObject k (li_obj x))).

Definition hardware_detail (cfg : PageConfig) (x : Listed KHardware) : list op :=
  let hw := li_obj x in
  match yaml_Marshal (YObject KHardware hw), yaml_Marshal (YSpec KHardware hw), yaml_Marshal (YStatus KHardware hw) with
  | inr yaml, inr spec, inr status =>
      let attrs :=
        match annotations_of x !! AttributesAnnotation with
        | Some j => if decide (j ≠ "") then json_AgentAttributes j else None
        | None => None
        end in
      html (HardwareDetailPage cfg (mkHardwareDetail (li_Name x) (li_Namespace x) (GetHardwareInterfaces hw) (GetHardwareStatus hw)
        (local_time (li_Created x)) (labels_of x) (annotations_of x) attrs spec status yaml))
  | _, _, _ => [Status 500]
  end.
Definition HandleHardwareDetail :=
  detail_handler KHardware [Status 500] (not_found nameSingularHardware "/hardware" namePluralHardware ".") hardware_detail.

Definition workflow_detail (cfg : PageConfig) (x : Listed KWorkflow) : list op :=
  let wf := li_obj x in
  let '(task, action, agent) := current_state wf in
  let '(spec, status, yaml) := yamls x in
  html (WorkflowDetailPage cfg (mkWorkflowDetail (li_Name x) (li_Namespace x) (spec_TemplateRef (wf_Spec wf)) (spec_HardwareRef (wf_Spec wf))
    (st_State (wf_Status wf)) task action agent (st_TemplateRendering (wf_Status wf)) (local_time (li_Created x)) (labels_of x)
    (annotations_of x) spec status yaml)).
Definition HandleWorkflowDetail :=
  detail_handler KWorkflow internal_error (not_found nameSingularWorkflow "/workflows" namePluralWorkflow ".") workflow_detail.

Definition template_detail (cfg : PageConfig) (x : Listed KTemplate) : list op :=
  let '(tpl, state) := li_obj x in
  let '(spec, status, yaml) := yamls x in
  let data :=
    match tpl_Data tpl with
    | Some d => ReplaceEscape "t"%char (ascii_of_nat 9) (ReplaceEscape "n"%char (ascii_of_nat 10) d)
    | None => ""
    end in
  html (TemplateDetailPage cfg (mkTemplateDetail (li_Name x) (li_Namespace x) state data (local_time (li_Created x)) (labels_of x)
    (annotations_of x) spec status yaml)).
Definition HandleTemplateDetail :=
  detail_handler KTemplate internal_error (not_found nameSingularTemplate "/templates" namePluralTemplate ".") template_detail.

(** The page for a missing ruleset is written without a status. *)
Definition ruleset_missing (cfg : PageConfig) (namespace name : string) : list op :=
  html (NotFoundPage cfg nameSingularWorkflowRuleSet name namespace "/workflows/rulesets" namePluralWorkflowRuleSet
          ("This " +:+ nameSingularWorkflowRuleSet +:+ " may have been deleted.")).
Definition ruleset_detail (cfg : PageConfig) (x : Listed KRuleSet) : list op :=
  let spec := wrs_Spec (li_obj x) in
  let rw := rs_Workflow spec in
  let yaml := match yaml_Marshal (YObject KRuleSet (li_obj x)) with inl _ => "Error: Could not marshal data to YAML" | inr s => s end in
  html (WorkflowRuleSetDetailPage cfg (mkWorkflowRuleSetDetail (li_Name x) (li_Namespace x) yaml (local_time (li_Created x)) (labels_of x)
    (annotations_of x) (rs_Rules spec) (tc_Ref (rw_Template rw)) (rw_Namespace rw) (default false (rw_Disabled rw)) (rw_AddAttributes rw)
    (tc_AgentValue (rw_Template rw)))).
Definition HandleWorkflowRuleSetDetail := detail_handler KRuleSet internal_error ruleset_missing ruleset_detail.

Definition machine_detail (cfg : PageConfig) (x : Listed KMachine) : list op :=
  let m := li_obj x in
  let '(spec, status, yaml) := yamls x in
  html (BMCMachineDetailPage cfg (mkBMCMachineDetail (li_Name x) (li_Namespace x) (mst_Power (m_Status m)) (contactable m)
    (conn_Host (m_Connection m)) (local_time (li_Created x)) (labels_of x) (annotations_of x) spec status yaml)).
Definition HandleBMCMachineDetail :=
  detail_handler KMachine internal_error
    (not_found nameSingularMachine "/bmc/machines" namePluralMachine " or the reference is incorrect.") machine_detail.

Definition job_detail (cfg : PageConfig) (x : Listed KJob) : list op :=
  let j := li_obj x in
  let '(spec, status, yaml) := yamls x in
  html (BMCJobDetailPage cfg (mkBMCJobDetail (li_Name x) (li_Namespace x) (machine_ref j) (GetBMCJobStatus (jst_Conditions (job_Status j)))
    (time_or_empty (jst_CompletionTime (job_Status j))) (local_time (li_Created x)) (labels_of x) (annotations_of x) spec status yaml)).
Definition HandleBMCJobDetail :=
  detail_handler KJob internal_error (not_found nameSingularJob "/bmc/jobs" namePluralJob ".") job_detail.

Definition task_detail (cfg : PageConfig) (x : Listed KTask) : list op :=
  let t := li_obj x in
  let '(state, completedAt) := task_status t in
  let '(spec, status, yaml) := yamls x in
  html (BMCTaskDetailPage cfg (mkBMCTaskDetail (li_Name x) (li_Namespace x) (bmcTaskJobRef (li_Namespace x) (labels_of x))
    (bmcTaskType (tspec_Task (bt_Spec t))) state completedAt (local_time (li_Created x)) (labels_of x) (annotations_of x) spec status yaml)).
Definition HandleBMCTaskDetail :=
  detail_handler KTask internal_error (not_found nameSingularTask "/bmc/tasks" namePluralTask ".") task_detail.
End Lists.
