(* ===== verification/UiSearch.v ===== *)
(** * The web UI: search

    ui/internal/http/search.go. *)
From S2P Require Import Prelude GoStrings InventoryTypes Api BmcTypes BmcApi UiPages UiTypes UiKube UiLists.

Definition MaxSearchResults : nat := 20.
Definition MaxSearchResultsPerType : nat := 5.
Definition MinSearchQueryLength : nat := 3.

(** The name or the namespace contains the query. *)
Definition search_matches {k} (query : string) (x : Listed k) : bool :=
  Contains (ToLower (li_Name x)) query || Contains (ToLower (li_Namespace x)) query.

(** What a kind's results look like: type, label, path and icon. *)
Definition search_result (k : Kind) (x : Listed k) : SearchResult :=
  let mk typ label path icon := mkSearchResult (li_Name x) (li_Namespace x) typ label (path +:+ li_Namespace x +:+ "/" +:+ li_Name x) icon in
  match k with
  | KHardware => mk resourceHardware nameSingularHardware "/hardware/" resourceHardware
  | KWorkflow => mk resourceWorkflow nameSingularWorkflow "/workflows/" resourceWorkflow
  | KTemplate => mk resourceTemplate nameSingularTemplate "/templates/" resourceTemplate
  | KMachine => mk "bmc-machine" "BMC Machine" "/bmc/machines/" "bmc"
  | KJob => mk "bmc-job" "BMC Job" "/bmc/jobs/" "bmc"
  | KTask => mk "bmc-task" "BMC Task" "/bmc/tasks/" "bmc"
  | KRuleSet => mk "" "" "" ""
  end.

(** The loop over the items of a kind, with the results so far. *)
Fixpoint search_loop {k} (query : string) (items : list (Listed k)) (results : list SearchResult) : list SearchResult :=
  match items with
  | [] => results
  | x :: rest =>
      if search_matches query x then
        let results := results ++ [search_result k x] in
        if decide (MaxSearchResultsPerType ≤ length results) then results else search_loop query rest results
      else search_loop query rest results
  end.

Section Search.
Context {W : Type} `{UiKube W}.
Implicit Types (c : GinContext) (w : W).

(** The common body of [searchHardware] and its siblings: what it writes, and the
    results. *)
Definition search_kind (k : Kind) c (cl : KubeClient) (query namespace : string) w : list op * list SearchResult * W :=
  match ListKind k cl namespace w with
  | (inl e, w) => (default [] (HandleAuthError c e), [], w)
  | (inr items, w) => ([], search_loop query items [], w)
  end.

Definition searchHardware := search_kind KHardware.
Definition searchWorkflows := search_kind KWorkflow.
Definition searchTemplates := search_kind KTemplate.
Definition searchBMCMachines := search_kind KMachine.
Definition searchBMCJobs := search_kind KJob.
Definition searchBMCTasks := search_kind KTask.

(** The six searches in their order. *)
Definition search_all c cl query namespace w : list op * list SearchResult * W :=
  let '(o1, r1, w) := searchHardware c cl query namespace w in
  let '(o2, r2, w) := searchWorkflows c cl query namespace w in
  let '(o3, r3, w) := searchTemplates c cl query namespace w in
  let '(o4, r4, w) := searchBMCMachines c cl query namespace w in
  let '(o5, r5, w) := searchBMCJobs c cl query namespace w in
  let '(o6, r6, w) := searchBMCTasks c cl query namespace w in
  (o1 ++ o2 ++ o3 ++ o4 ++ o5 ++ o6, r1 ++ r2 ++ r3 ++ r4 ++ r5 ++ r6, w).

Definition search_query c : string := ToLower (TrimSpace (Query c "q")).

Definition HandleGlobalSearch c w : list op * W :=
  let query := search_query c in
  let namespace := Query c "namespace" in
  with_client c w [JSON 500 (JError "Internal server error")] (λ cl w,
    if decide (query = "") then ([JSON 200 (JSearch [] query "")], w)
    else if decide (strlen query < MinSearchQueryLength) then ([JSON 200 (JSearch [] query "Query must be at least 3 characters")], w)
    else
      let '(ops, results, w) := search_all c cl query namespace w in
      let results := if decide (MaxSearchResults < length results) then take MaxSearchResults results else results in
      (ops ++ [JSON 200 (JSearch results query "")], w)).
End Search.

(** ** What a search finds *)

Definition kind_results (k : Kind) (query : string) (items : list (Listed k)) : list SearchResult :=
  take MaxSearchResultsPerType (search_result k <$> filter (λ x, search_matches query x = true) items).

Lemma search_loop_spec k query (items : list (Listed k)) results :
  length results < MaxSearchResultsPerType →
  search_loop query items results =
    take MaxSearchResultsPerType (results ++ (search_result k <$> filter (λ x, search_matches query x = true) items)).
Proof.
  revert results. induction items as [|x items IH]; intros results Hr; simpl.
  - rewrite app_nil_r, take_ge by lia. done.
  - rewrite filter_cons. destruct (search_matches query x) eqn:E.
    + destruct (decide (true = true)); [|done]. rewrite fmap_cons. set (fr := search_result k <$> filter _ items).
      change (results ++ search_result k x :: fr) with (results ++ [search_result k x] ++ fr). rewrite app_assoc. case_decide as Hl.
      * rewrite length_app in Hl. simpl in Hl. rewrite take_app_le by (rewrite length_app; simpl; lia). rewrite take_ge; [done|rewrite length_app; simpl; lia].
      * unfold fr. apply IH. lia.
    + destruct (decide (false = true)); [done|]. by apply IH.
Qed.

Lemma search_loop_nil k query (items : list (Listed k)) : search_loop query items [] = kind_results k query items.
Proof. apply search_loop_spec. unfold MaxSearchResultsPerType. simpl. lia. Qed.

Section Found.
Context {W : Type} `{UiKube W}.

(** A result of a search comes from an object of its kind that the API listed and that matches. *)
Lemma search_kind_results k c cl query ns w o r w' :
  search_kind k c cl query ns w = (o, r, w') →
  length r ≤ MaxSearchResultsPerType ∧
  Forall (λ s, ∃ x items, fst (k_List k cl (namespace_opt ns) w) = inr items ∧ x ∈ items ∧ s = search_result k x ∧ search_matches query x = true) r.
Proof.
  unfold search_kind, ListKind, wrap_res. destruct (k_List k cl (namespace_opt ns) w) as [[e|items] w1] eqn:E; intros [= <- <- <-].
  - split; [simpl; unfold MaxSearchResultsPerType; lia|by constructor].
  - rewrite search_loop_nil. unfold kind_results. split; [rewrite length_take; lia|].
    apply Forall_take, Forall_fmap, Forall_forall. intros x [Hm Hx]%list_elem_of_filter. by exists x, items.
Qed.

(** A search answers with at most twenty results, at most five of a kind, and
    every one of them is an object the API listed for the request's client and
    namespace whose name or namespace contains the query. *)
Theorem search_sound c cl w ops w' :
  gc_kubeClient c = Some cl → MinSearchQueryLength ≤ strlen (search_query c) → HandleGlobalSearch c w = (ops, w') →
  ∃ results, last ops = Some (JSON 200 (JSearch results (search_query c) "")) ∧ length results ≤ MaxSearchResults ∧
    Forall (λ s, ∃ k w0 items (x : Listed k), fst (k_List k cl (namespace_opt (Query c "namespace")) w0) = inr items ∧ x ∈ items ∧
                   s = search_result k x ∧ search_matches (search_query c) x = true) results.
Proof.
  intros Hcl Hq. unfold HandleGlobalSearch, with_client, GetKubeClientFromGinContext. rewrite Hcl.
  unfold MinSearchQueryLength in *. rewrite decide_False by (intros E; rewrite E in Hq; simpl in Hq; lia). rewrite decide_False by lia.
  unfold search_all.
  destruct (searchHardware _ _ _ _ w) as [[o1 r1] w1] eqn:E1. destruct (searchWorkflows _ _ _ _ w1) as [[o2 r2] w2] eqn:E2.
  destruct (searchTemplates _ _ _ _ w2) as [[o3 r3] w3] eqn:E3. destruct (searchBMCMachines _ _ _ _ w3) as [[o4 r4] w4] eqn:E4.
  destruct (searchBMCJobs _ _ _ _ w4) as [[o5 r5] w5] eqn:E5. destruct (searchBMCTasks _ _ _ _ w5) as [[o6 r6] w6] eqn:E6.
  intros [= <- <-]. eexists. split; [by rewrite last_snoc|].
  apply search_kind_results in E1 as [_ E1], E2 as [_ E2], E3 as [_ E3], E4 as [_ E4], E5 as [_ E5], E6 as [_ E6].
  assert (Forall (λ s, ∃ k w0 items (x : Listed k), fst (k_List k cl (namespace_opt (Query c "namespace")) w0) = inr items ∧ x ∈ items ∧
                   s = search_result k x ∧ search_matches (search_query c) x = true) (r1 ++ r2 ++ r3 ++ r4 ++ r5 ++ r6)) as Hall.
  { rewrite !Forall_app. split_and!; (eapply Forall_impl; [eassumption|]); intros s (x & items & ? & ? & ? & ?);
      [exists KHardware, w|exists KWorkflow, w1|exists KTemplate, w2|exists KMachine, w3|exists KJob, w4|exists KTask, w5]; by exists items, x. }
  case_decide; split; [rewrite length_take; lia|by apply Forall_take|lia|done].
Qed.
End Found.
