(* ===== verification/UiAuth.v ===== *)
(** * The web UI: login, sessions and permissions

    ui/internal/http/auth.go and permissions.go. A session is a set of cookies
    in the browser: the token and the API server it is for. *)
From S2P Require Import Prelude GoStrings GoPath Base64 InventoryTypes Api BmcTypes BmcApi UiPages UiTypes UiKube UiLists.

Definition SessionDurationSeconds : Z := 3600 * 8.
Definition cookieNameAuthToken : string := "auth_token".
Definition cookieNameAPIServer : string := "auth_apiserver".
Definition cookieNameSANamespace : string := "sa_namespace".
Definition cookieNameInsecureSkipVerify : string := "insecure_skip_verify".
Definition cookieNameTokenExpiry : string := "token_expiry".
Definition cookieNameAPIServerDisplay : string := "apiserver_display".
Definition cookieNameSANamespaceDisplay : string := "sa_namespace_display".

(** What the code calls and does not define: [url.Parse] with the scheme and the
    host name of the result, and the claims of the JSON in a token. *)
Class TokenEnv := {
  url_Parse : string → res (string * string);
  json_exp : string → option Z;
  json_namespace : string → option string;
}.

(** ** Tokens *)

(** The padding and the two letters that turn the URL alphabet into the standard one. *)
Definition std_payload (l : list ascii) : list ascii :=
  let m := length l `mod` 4 in
  let padded := if decide (m = 0) then l else l ++ replicate (4 - m) pad_char in
  (λ c, if decide (c = "-"%char) then "+"%char else if decide (c = "_"%char) then "/"%char else c) <$> padded.

Section Tokens.
Context `{TokenEnv}.

Definition extractTokenExpiry (token : string) : string :=
  match Split token "."%char with
  | [_; payload; _] =>
      match StdEncoding_DecodeString (of_bytes (std_payload (bytes_of payload))) with
      | Some decoded => match json_exp decoded with Some exp => if decide (exp = 0%Z) then "" else Itoa exp | None => "" end
      | None => ""
      end
  | _ => ""
  end.

Definition extractNamespaceFromToken (token : string) : string :=
  match Split token "."%char with
  | [_; part; _] =>
      match RawURLEncoding_DecodeString part with
      | Some payload => default "" (json_namespace payload)
      | None => ""
      end
  | _ => ""
  end.

Definition validateAPIServerURL (apiServer : string) : option error :=
  if decide (apiServer = "") then Some (ErrNew "API server URL is required")
  else
    match url_Parse apiServer with
    | inl e => Some (ErrWrap "invalid URL format: " e)
    | inr (scheme, host) =>
        if decide (scheme ≠ "https") then Some (ErrNew ("API server must use HTTPS protocol, got: " +:+ scheme))
        else if decide (host = "") then Some (ErrNew "API server URL must include a hostname")
        else None
    end.
End Tokens.

(** ** Login *)

Section Auth.
Context {W : Type} `{UiKube W} `{TokenEnv}.
Implicit Types (c : GinContext) (w : W).

Definition HandleLogin c : list op := html (LoginPage (GetBaseURL c)).

Definition NewKubeClientFromTokenAndServer (token apiServer : string) (insecureSkipVerify : bool) w : res KubeClient * W :=
  let cl := TokenClient token apiServer insecureSkipVerify in
  match k_New cl w with
  | (Some e, w) => (inl e, w)
  | (None, w) => (inr cl, w)
  end.

Definition no_permission : string := "token has no permissions to list Tinkerbell Hardware objects".
Definition contact_admin : string := ". Contact your cluster administrator to grant necessary RBAC permissions".

Definition validateTokenPermissions (cl : KubeClient) (namespace : string) w : option error * W :=
  match k_AccessReview cl verbList groupTinkerbell resourceHardware namespace w with
  | (inl e, w) => (Some (ErrWrap "failed to check permissions: " e), w)
  | (inr true, w) => (None, w)
  | (inr false, w) =>
      (Some (ErrNew (no_permission +:+ (if decide (namespace = "") then "" else " in namespace " +:+ namespace) +:+ contact_admin)), w)
  end.

(** Cluster-wide first, then in the namespace of the token. *)
Definition check_permissions (cl : KubeClient) (saNamespace : string) w : option error * W :=
  match validateTokenPermissions cl "" w with
  | (None, w) => (None, w)
  | (Some e, w) => if decide (saNamespace ≠ "") then validateTokenPermissions cl saNamespace w else (Some e, w)
  end.

Definition login_message (errMsg : string) : string :=
  if Contains errMsg "provide credentials" || Contains errMsg "Unauthorized" then
    "The provided token is invalid or has expired. Generate a new token with: kubectl create token <service-account-name>"
  else if Contains errMsg "Forbidden" || Contains errMsg "forbidden" then
    "The token is valid but has no permissions. Contact your cluster administrator to grant necessary RBAC permissions."
  else if Contains errMsg "connect" || Contains errMsg "connection refused" then
    "Unable to connect to the Kubernetes API server. Please verify the API server URL and ensure the server is accessible."
  else if Contains errMsg "certificate" || Contains errMsg "tls" then
    "TLS certificate verification failed. Try enabling 'Skip TLS verification' if using self-signed certificates."
  else "An error occurred while validating the token. Please check your credentials.".

Definition secure_request c : bool := gc_TLS c || bool_decide (GetHeader c "X-Forwarded-Proto" = "https").

Definition set_cookie (secure httpOnly : bool) (name value : string) (maxAge : Z) : op :=
  SetCookie (mkcookie name value maxAge "/" secure httpOnly).

(** The cookies of a new session. *)
Definition session_cookies c (token apiServer saNamespace insecureStr : string) : list op :=
  let secure := secure_request c in
  let set httpOnly name value := set_cookie secure httpOnly name value SessionDurationSeconds in
  let encodedNamespace := if decide (saNamespace ≠ "") then StdEncoding_EncodeToString saNamespace else "" in
  let expiry := extractTokenExpiry token in
  [SetSameSiteStrict;
   set true cookieNameAuthToken (StdEncoding_EncodeToString token);
   set true cookieNameAPIServer (StdEncoding_EncodeToString apiServer)] ++
  (if decide (encodedNamespace ≠ "")
   then [set true cookieNameSANamespace encodedNamespace; set false cookieNameSANamespaceDisplay saNamespace] else []) ++
  (if decide (expiry ≠ "") then [set false cookieNameTokenExpiry expiry] else []) ++
  [set false cookieNameAPIServerDisplay apiServer; set true cookieNameInsecureSkipVerify insecureStr].

Definition HandleLoginValidate c w : list op * W :=
  if decide (PostForm c "token" = "") then ([JSON 403 (JError "Service account token is required")], w)
  else if decide (PostForm c "apiServer" = "") then ([JSON 403 (JError "Kubernetes API server URL is required")], w)
  else
    let token := TrimSpace (PostForm c "token") in
    let apiServer := TrimSpace (PostForm c "apiServer") in
    match validateAPIServerURL apiServer with
    | Some _ => ([JSON 400 (JError "Invalid API server URL. Must be a valid HTTPS URL.")], w)
    | None =>
        let insecureStr := PostForm c "insecureSkipVerify" in
        match NewKubeClientFromTokenAndServer token apiServer (bool_decide (insecureStr = "true")) w with
        | (inl e, w) => ([JSON 403 (JError ("Failed to create Kubernetes client: " +:+ error_msg e))], w)
        | (inr cl, w) =>
            let saNamespace := extractNamespaceFromToken token in
            match check_permissions cl saNamespace w with
            | (Some e, w) => ([JSON 403 (JErrorDetails (login_message (error_msg e)) (error_msg e))], w)
            | (None, w) =>
                (session_cookies c token apiServer saNamespace insecureStr ++ [JSON 200 (JMessage "Token validated successfully")], w)
            end
        end
    end.

Definition HandleLogout c : list op :=
  let clear httpOnly name := set_cookie (secure_request c) httpOnly name "" (-1) in
  [SetSameSiteStrict;
   clear true cookieNameAuthToken; clear true cookieNameAPIServer; clear true cookieNameSANamespace;
   clear true cookieNameInsecureSkipVerify; clear false cookieNameTokenExpiry; clear false cookieNameAPIServerDisplay;
   clear false cookieNameSANamespaceDisplay; JSON 200 (JMessage "Logged out successfully")].

(** ** Requests of a session *)

Definition decode_cookie c (name : string) : string :=
  match gc_Cookie c !! name with
  | Some v => if decide (v ≠ "") then default "" (StdEncoding_DecodeString v) else ""
  | None => ""
  end.

Definition GetTokenAndAPIServerFromRequest c : string * string * bool :=
  (decode_cookie c cookieNameAuthToken, decode_cookie c cookieNameAPIServer,
   bool_decide (gc_Cookie c !! cookieNameInsecureSkipVerify = Some "true")).

Definition set_values c (ns : option string) (cl : KubeClient) : GinContext :=
  mkGinContext (gc_Path c) (gc_TLS c) (gc_Header c) (gc_Query c) (gc_Param c) (gc_PostForm c) (gc_Cookie c) (gc_baseURL c)
    (match ns with Some ns => Some ns | None => gc_saNamespace c end) (Some cl).

(** The middleware answers itself, or passes the request on with its client. *)
Definition AuthMiddleware (baseURL : string) c w : (list op + GinContext) * W :=
  let '(token, apiServer, insecureSkipVerify) := GetTokenAndAPIServerFromRequest c in
  let login := [RedirectTo 302 (path_Join [baseURL; "login"]); AbortChain] in
  if decide (token = "" ∨ apiServer = "") then (inl login, w)
  else
    match NewKubeClientFromTokenAndServer token apiServer insecureSkipVerify w with
    | (inl _, w) => (inl login, w)
    | (inr cl, w) =>
        let saNamespace := extractNamespaceFromToken token in
        (inr (set_values c (if decide (saNamespace ≠ "") then Some saNamespace else None) cl), w)
    end.

Definition AutoLoginMiddleware (namespace : string) c : GinContext :=
  set_values c (if decide (namespace ≠ "") then Some namespace else None) AutoClient.

(** ** permissions.go *)

Definition TinkerbellResources : list ResourceInfo :=
  [mkResourceInfo resourceHardware groupTinkerbell; mkResourceInfo "templates" groupTinkerbell; mkResourceInfo "workflows" groupTinkerbell;
   mkResourceInfo "workflowrulesets" groupTinkerbell; mkResourceInfo "machines" groupBMC; mkResourceInfo "jobs" groupBMC;
   mkResourceInfo resourceTasks groupBMC].
Definition tinkerbellVerbs : list string := ["get"; verbList; "watch"; "create"; "update"; "patch"; "delete"].

Definition HandlePermissions c w : list op * W :=
  with_client c w internal_error (λ cl w,
    let '(namespaces, w) := GetKubeNamespaces c (Some cl) w in
    (html (PermissionsPage (cfg_of c namespaces) TinkerbellResources), w)).

(** The loop over the verbs: those allowed so far, and the namespace of those that
    are allowed in it only. *)
Fixpoint permission_loop (cl : KubeClient) (resource group namespace : string) (verbs : list string) (acc : list string * string) w
    : list string * string * W :=
  match verbs with
  | [] => (acc, w)
  | verb :: rest =>
      let '(allowed, permNamespace) := acc in
      let next := permission_loop cl resource group namespace rest in
      match k_AccessReview cl verb group resource "" w with
      | (inl _, w) => next acc w
      | (inr true, w) => next (allowed ++ [verb], permNamespace) w
      | (inr false, w) =>
          if decide (namespace ≠ "") then
            match k_AccessReview cl verb group resource namespace w with
            | (inl _, w) => next acc w
            | (inr true, w) => next (allowed ++ [verb], namespace) w
            | (inr false, w) => next acc w
            end
          else next acc w
      end
  end.

Definition getResourcePermissions (cl : KubeClient) (resource group namespace : string) w : Permission * W :=
  let '(allowed, permNamespace, w) := permission_loop cl resource group namespace tinkerbellVerbs ([], "") w in
  (mkPermission resource group permNamespace allowed, w).

Definition HandlePermissionCheck c w : list op * W :=
  let '(resource, group) := (Param c "resource", Query c "group") in
  match GetKubeClientFromGinContext c with
  | inl _ => (html (PermissionRowError resource group), w)
  | inr cl =>
      let '(perm, w) := getResourcePermissions cl resource group (default "" (gc_saNamespace c)) w in
      (html (PermissionRow perm), w)
  end.
End Auth.

(** ** Sessions *)

(** The cookies of a browser after a response: a negative age deletes one. *)
Definition jar_step (jar : gmap string string) (o : op) : gmap string string :=
  match o with
  | SetCookie ck => if decide (ck_MaxAge ck < 0)%Z then delete (ck_Name ck) jar else <[ck_Name ck := ck_Value ck]> jar
  | _ => jar
  end.
Definition jar_after (ops : list op) (jar : gmap string string) : gmap string string := foldl jar_step jar ops.

Lemma jar_after_app a b jar : jar_after (a ++ b) jar = jar_after b (jar_after a jar).
Proof. apply foldl_app. Qed.

Section Sessions.
Context {W : Type} `{UiKube W} `{TokenEnv}.
Implicit Types (c : GinContext) (w : W).

(** The outcomes of a login: an answer with no cookie, or a session. *)
Lemma HandleLoginValidate_cases c w ops w' :
  HandleLoginValidate c w = (ops, w') →
  let token := TrimSpace (PostForm c "token") in
  let apiServer := TrimSpace (PostForm c "apiServer") in
  let insecure := PostForm c "insecureSkipVerify" in
  (∃ code body, ops = [JSON code body] ∧ code ≠ 200%Z) ∨
  (∃ host w1 w2, url_Parse apiServer = inr ("https", host) ∧ host ≠ "" ∧
     NewKubeClientFromTokenAndServer token apiServer (bool_decide (insecure = "true")) w =
       (inr (TokenClient token apiServer (bool_decide (insecure = "true"))), w1) ∧
     check_permissions (TokenClient token apiServer (bool_decide (insecure = "true"))) (extractNamespaceFromToken token) w1 = (None, w2) ∧
     ops = session_cookies c token apiServer (extractNamespaceFromToken token) insecure ++ [JSON 200 (JMessage "Token validated successfully")]).
Proof.
  unfold HandleLoginValidate. intros E. cbv zeta. repeat (case_decide; [simplify_eq; left; by eexists _, _|]).
  destruct (validateAPIServerURL _) as [e|] eqn:Ev; [simplify_eq; left; by eexists _, _|].
  unfold NewKubeClientFromTokenAndServer in *. destruct (k_New _ w) as [[e|] w1] eqn:En; [simplify_eq; left; by eexists _, _|].
  destruct (check_permissions _ _ w1) as [[e|] w2] eqn:Ec; [simplify_eq; left; by eexists _, _|]. simplify_eq. right.
  unfold validateAPIServerURL in Ev. case_decide; [done|]. destruct (url_Parse _) as [e|[scheme host]]; [done|].
  case_decide as Hs; [done|]. case_decide; [done|]. subst. by exists host, w1, w'.
Qed.

Lemma validateTokenPermissions_granted cl ns w w' :
  validateTokenPermissions cl ns w = (None, w') → k_AccessReview cl verbList groupTinkerbell resourceHardware ns w = (inr true, w').
Proof. unfold validateTokenPermissions. destruct (k_AccessReview _ _ _ _ _ w) as [[e|[]] w1]; [done|congruence|done]. Qed.

Lemma check_permissions_granted cl saNamespace w w' :
  check_permissions cl saNamespace w = (None, w') →
  ∃ ns w1 w2, (ns = "" ∨ ns = saNamespace) ∧ k_AccessReview cl verbList groupTinkerbell resourceHardware ns w1 = (inr true, w2).
Proof.
  unfold check_permissions. destruct (validateTokenPermissions cl "" w) as [[e|] w1] eqn:E.
  - case_decide; [|done]. intros Hv%validateTokenPermissions_granted. exists saNamespace, w1, w'. auto.
  - intros _. apply validateTokenPermissions_granted in E. exists "", w, w1. auto.
Qed.

Ltac jar := repeat first [rewrite lookup_insert_eq | rewrite lookup_insert_ne by (vm_compute; done)].

Lemma session_cookies_jar c token apiServer ns insecure jar :
  let j := jar_after (session_cookies c token apiServer ns insecure) jar in
  j !! cookieNameAuthToken = Some (StdEncoding_EncodeToString token) ∧
  j !! cookieNameAPIServer = Some (StdEncoding_EncodeToString apiServer) ∧
  j !! cookieNameInsecureSkipVerify = Some insecure.
Proof.
  unfold session_cookies. cbv zeta. repeat case_decide; cbn [app jar_after foldl jar_step set_cookie ck_MaxAge ck_Name ck_Value];
    repeat (rewrite decide_False by done); split_and!; by jar.
Qed.

(** The flags of the cookies of a session. *)
Definition display_cookies : list string := [cookieNameSANamespaceDisplay; cookieNameTokenExpiry; cookieNameAPIServerDisplay].
Lemma session_cookies_flags c token apiServer ns insecure :
  Forall (λ o, match o with
               | SetCookie ck => ck_Secure ck = secure_request c ∧ (ck_HttpOnly ck = false → ck_Name ck ∈ display_cookies)
               | _ => True
               end) (session_cookies c token apiServer ns insecure).
Proof.
  unfold session_cookies, set_cookie. cbv zeta. repeat case_decide; cbn [app];
    repeat (apply Forall_cons; split; [first [done|simpl; split; [done|]; intros _; unfold display_cookies; by_decide]|]); apply Forall_nil_2.
Qed.

Lemma decode_encode_cookie c name v : gc_Cookie c !! name = Some (StdEncoding_EncodeToString v) → decode_cookie c name = v.
Proof.
  intros E. unfold decode_cookie. rewrite E. case_decide as Hd; [by rewrite StdEncoding_roundtrip|].
  by apply StdEncoding_empty in Hd.
Qed.

(** C26: After a login that succeeds, a request with the browser's cookies is one of the
    session: its token, its API server and its choice about TLS are those of the
    login form, without the spaces around them. *)
Theorem login_roundtrip c w ops w' jar c' :
  HandleLoginValidate c w = (ops, w') → JSON 200 (JMessage "Token validated successfully") ∈ ops →
  gc_Cookie c' = jar_after ops jar →
  GetTokenAndAPIServerFromRequest c' =
    (TrimSpace (PostForm c "token"), TrimSpace (PostForm c "apiServer"), bool_decide (PostForm c "insecureSkipVerify" = "true")).
Proof.
  intros E Hok Hc. apply HandleLoginValidate_cases in E as [(code & body & -> & Hne)|(host & w1 & w2 & _ & _ & _ & _ & ->)].
  { apply list_elem_of_singleton in Hok. congruence. }
  rewrite jar_after_app in Hc. set (ops := session_cookies _ _ _ _ _) in Hc. change (gc_Cookie c' = jar_after ops jar) in Hc. subst ops.
  destruct (session_cookies_jar c (TrimSpace (PostForm c "token")) (TrimSpace (PostForm c "apiServer"))
    (extractNamespaceFromToken (TrimSpace (PostForm c "token"))) (PostForm c "insecureSkipVerify") jar) as (J1 & J2 & J3).
  rewrite <- Hc in J1, J2, J3. unfold GetTokenAndAPIServerFromRequest.
  rewrite (decode_encode_cookie _ _ _ J1), (decode_encode_cookie _ _ _ J2), J3. f_equal. apply bool_decide_ext. split; congruence.
Qed.


(** A request without a session goes to the login page, and nothing is asked of
    any API server. *)
Theorem no_session_no_access baseURL c w :
  decode_cookie c cookieNameAuthToken = "" ∨ decode_cookie c cookieNameAPIServer = "" →
  AuthMiddleware baseURL c w = (inl [RedirectTo 302 (path_Join [baseURL; "login"]); AbortChain], w).
Proof. intros Hc. unfold AuthMiddleware, GetTokenAndAPIServerFromRequest. by rewrite decide_True. Qed.

(** After a logout the browser holds no cookie of the session. *)
Theorem logout_clears c jar name :
  name ∈ [cookieNameAuthToken; cookieNameAPIServer; cookieNameSANamespace; cookieNameInsecureSkipVerify; cookieNameTokenExpiry;
          cookieNameAPIServerDisplay; cookieNameSANamespaceDisplay] →
  jar_after (HandleLogout c) jar !! name = None.
Proof.
  intros Hn. unfold HandleLogout. cbn [jar_after foldl jar_step set_cookie ck_MaxAge ck_Name]. repeat (rewrite decide_True by done).
  repeat (apply elem_of_cons in Hn as [->|Hn]; [rewrite !lookup_delete_None; tauto|]). by apply not_elem_of_nil in Hn.
Qed.
End Sessions.

(** ** The claims of a token

    The expiry and the namespace are read from the same payload, by two decoders:
    wherever the one of the namespace gives a payload, so does the other. *)
Definition std_letter (c : ascii) : ascii :=
  if decide (c = "-"%char) then "+"%char else if decide (c = "_"%char) then "/"%char else c.

Lemma std_letter_facts c v :
  dec_char true c = Some v → dec_char false (std_letter c) = Some v ∧ std_letter c ≠ pad_char ∧ is_newline (std_letter c) = false.
Proof.
  assert (Forall (λ c, dec_char true c = None ∨
    (dec_char false (std_letter c) = dec_char true c ∧ std_letter c ≠ pad_char ∧ is_newline (std_letter c) = false))
    (ascii_of_nat <$> seq 0 256)) as HF by by_decide.
  rewrite Forall_forall in HF. pose proof (nat_ascii_bounded c).
  specialize (HF c). destruct HF as [HF|(E1 & E2 & E3)].
  { apply list_elem_of_fmap. exists (nat_of_ascii c). split; [by rewrite ascii_nat_embedding|apply elem_of_seq; lia]. }
  - congruence.
  - intros E. split; [congruence|done].
Qed.

Lemma std_payload_4 a b c d l : std_payload (a :: b :: c :: d :: l) = std_letter a :: std_letter b :: std_letter c :: std_letter d :: std_payload l.
Proof.
  unfold std_payload. cbn [length]. replace (S (S (S (S (length l)))) `mod` 4) with (length l `mod` 4).
  - case_decide; done.
  - replace (S (S (S (S (length l))))) with (length l + 1 * 4) by lia. by rewrite Nat.Div0.mod_add.
Qed.

Lemma groups4_ind {A} (P : list A → Prop) :
  P [] → (∀ a, P [a]) → (∀ a b, P [a; b]) → (∀ a b c, P [a; b; c]) → (∀ a b c d l, P l → P (a :: b :: c :: d :: l)) → ∀ l, P l.
Proof.
  intros H0 H1 H2 H3 H4. fix IH 1. intros [|a [|b [|c [|d l]]]]; [done|apply H1|apply H2|apply H3|apply H4, IH].
Qed.

(** The letter [c] of the text under decoding, in both alphabets. *)
Ltac letter c :=
  let v := fresh "v" in
  let E := fresh "E" in
  destruct (dec_char true c) as [v|] eqn:E; [|done];
  destruct (std_letter_facts c v E) as (? & ? & ?); cbn [mbind option_bind] in *.

Lemma std_payload_decode l s :
  decode64 false true l = Some s →
  decode64 true false (std_payload l) = Some s ∧ Forall (λ c, is_newline c = false) (std_payload l).
Proof.
  revert s. induction l as [|a|a b|a b c|a b c d l IH] using groups4_ind; intros s Hs; [by simplify_eq/=|done|..]; cbn [decode64 andb] in Hs.
  - letter a. letter b. change (std_payload [a; b]) with [std_letter a; std_letter b; pad_char; pad_char].
    split; [|by repeat constructor]. cbn [decode64]. by repeat (match goal with E : dec_char false _ = _ |- _ => rewrite E; clear E end; cbn [mbind option_bind]).
  - letter a. letter b. letter c. change (std_payload [a; b; c]) with [std_letter a; std_letter b; std_letter c; pad_char].
    split; [|by repeat constructor]. cbn [decode64]. rewrite (bool_decide_eq_false_2 (std_letter c = pad_char)) by done.
    by repeat (match goal with E : dec_char false _ = _ |- _ => rewrite E; clear E end; cbn [mbind option_bind]).
  - letter a. letter b. letter c. letter d. destruct (decode64 false true l) as [rest|]; [|done]. destruct (IH rest eq_refl) as [IH1 IH2].
    rewrite std_payload_4. split; [|by repeat constructor]. cbn [decode64].
    rewrite (bool_decide_eq_false_2 (std_letter c = pad_char)), (bool_decide_eq_false_2 (std_letter d = pad_char)) by done. cbn [andb].
    repeat (match goal with E : dec_char false _ = _ |- _ => rewrite E; clear E end; cbn [mbind option_bind]). by rewrite IH1.
Qed.

Theorem payload_same p s :
  Forall (λ c, is_newline c = false) (bytes_of p) → RawURLEncoding_DecodeString p = Some s →
  StdEncoding_DecodeString (of_bytes (std_payload (bytes_of p))) = Some s.
Proof.
  intros Hn. unfold RawURLEncoding_DecodeString, StdEncoding_DecodeString, decode_string. rewrite bytes_of_of_bytes, (filter_all _ (bytes_of p)) by done.
  destruct (decode64 false true (bytes_of p)) as [d|] eqn:E; [|done]. destruct (std_payload_decode _ _ E) as [E1 E2].
  rewrite filter_all by done. by rewrite E1.
Qed.

(** ** Permissions

    Where the answers of the API do not change during the check, the verbs shown
    are those granted in the cluster or in the namespace, and the permission is
    marked with the namespace exactly when one of them is granted there only. *)
Section Permissions.
Context {W : Type} `{UiKube W} (cl : KubeClient) (resource group namespace : string).
Context (granted : string → string → res bool)
  (steady : ∀ verb ns w, k_AccessReview cl verb group resource ns w = (granted verb ns, w)).

Definition cluster_wide (verb : string) : bool := match granted verb "" with inr b => b | inl _ => false end.
Definition namespace_only (verb : string) : bool :=
  bool_decide (namespace ≠ "") &&
  match granted verb "" with inr false => match granted verb namespace with inr b => b | inl _ => false end | _ => false end.

Lemma filter_true_cons {A} (f : A → bool) x l :
  filter (λ y, f y = true) (x :: l) = if f x then x :: filter (λ y, f y = true) l else filter (λ y, f y = true) l.
Proof. rewrite filter_cons. by destruct (f x). Qed.

Lemma permission_loop_spec verbs allowed pns (w : W) :
  permission_loop cl resource group namespace verbs (allowed, pns) w =
    (allowed ++ filter (λ v, cluster_wide v || namespace_only v = true) verbs,
     if existsb namespace_only verbs then namespace else pns, w).
Proof.
  revert allowed pns. induction verbs as [|v verbs IH]; intros allowed pns; cbn [permission_loop existsb]; [by rewrite app_nil_r|].
  rewrite steady, (filter_true_cons (λ v, cluster_wide v || namespace_only v)). 
  change (cluster_wide v) with (match granted v "" with inr b => b | inl _ => false end).
  change (namespace_only v) with (bool_decide (namespace ≠ "") &&
    match granted v "" with inr false => match granted v namespace with inr b => b | inl _ => false end | _ => false end).
  destruct (granted v "") as [e|[]]; cbn [orb].
  - rewrite andb_false_r. apply IH.
  - rewrite andb_false_r. cbn [orb]. by rewrite IH, <- (assoc (++)).
  - destruct (decide (namespace ≠ "")) as [Hn|Hn].
    + rewrite steady, bool_decide_eq_true_2 by done. cbn [andb orb]. destruct (granted v namespace) as [e|[]]; cbn [orb]; [apply IH| |apply IH].
      rewrite IH, <- (assoc (++)). by destruct (existsb _ _).
    + rewrite bool_decide_eq_false_2 by done. cbn [andb orb]. apply IH.
Qed.

Theorem permissions_exact (w : W) :
  getResourcePermissions cl resource group namespace w =
    (mkPermission resource group (if existsb namespace_only tinkerbellVerbs then namespace else "")
       (filter (λ v, cluster_wide v || namespace_only v = true) tinkerbellVerbs), w).
Proof. unfold getResourcePermissions. by rewrite permission_loop_spec. Qed.
End Permissions.
