(* ===== verification/UiCrd.v ===== *)
(** * The web UI: the CRD browser

    ui/internal/http/crd.go and dashboard.go. The definitions are YAML files of
    the program, read by a library: their parsed form is a parameter. *)
From S2P Require Import Prelude GoStrings InventoryTypes Api BmcTypes BmcApi UiPages UiTypes UiKube UiLists.

Definition schemaTypeString : string := "string".
Definition schemaTypeInteger : string := "integer".
Definition schemaTypeObject : string := "object".
Definition schemaTypeArrayString : string := "array[string]".

(** [apiv1.JSONSchemaProps]: the fields the code reads. [js_Properties] is [None]
    for the nil map, [js_AdditionalProperties] and [js_Items] are the pointers
    with the schema pointer in them. *)
Inductive JSONSchemaProps := mkJSONSchemaProps {
  js_Type : string;
  js_Description : string;
  js_Pattern : string;
  js_Format : string;
  js_Required : list string;
  js_Enum : list string;
  js_Default : option string;
  js_Properties : option (list (string * JSONSchemaProps));
  js_AdditionalProperties : option (option JSONSchemaProps);
  js_Items : option (option JSONSchemaProps);
}.

(** [apiv1.CustomResourceDefinition], with the first of its versions and the
    schema of it. *)
Record CRDDefinition := mkCRDDefinition {
  crd_Kind : string;
  crd_Plural : string;
  crd_Group : string;
  crd_Versions : list (string * option JSONSchemaProps);
}.

Definition GroupTinkerbell : string := "tinkerbell.org".
Definition GroupBMC : string := "bmc.tinkerbell.org".
Definition AvailableVersions : list string := ["v1alpha1"; "v1alpha2"].

(** A Go map with constant entries: the value of an absent key is empty. *)
Definition map_get (m : list (string * string)) (k : string) : string :=
  match list_find (λ kv, kv.1 = k) m with Some (_, kv) => kv.2 | None => "" end.

Definition kindToRoute : list (string * string) := [
  ("Hardware", "/hardware"); ("Workflow", "/workflows"); ("Template", "/templates"); ("WorkflowRuleSet", "/workflows/rulesets");
  ("Job", "/bmc/jobs"); ("Machine", "/bmc/machines"); ("Task", "/bmc/tasks")].

Definition kindDescriptions : list (string * string) := [
  ("v1alpha1/Hardware", "Machines in your infrastructure, with details about network interfaces, disks, and BMC connections.");
  ("v1alpha1/Workflow", "A provisioning workflow that executes a sequence of Actions on Hardware using a referenced Template.");
  ("v1alpha1/Template", "Reusable workflow definitions with templated Actions that can be applied to multiple Hardware resources.");
  ("v1alpha1/WorkflowRuleSet", "Rules for automatic Workflow creation when Hardware matches specific criteria during discovery.");
  ("v1alpha1/Machine", "A BMC (Baseboard Management Controller) connection for out-of-band Hardware management.");
  ("v1alpha1/Job", "A BMC operation request containing one or more Tasks to execute on a target Machine.");
  ("v1alpha1/Task", "An individual BMC operation within a Job, such as power control or boot device configuration.");
  ("v1alpha2/Hardware", "Machines in your infrastructure, with details about network interfaces, disks, BMC connections, and auto-discovery capabilities.");
  ("v1alpha2/Task", "A reusable definition of Actions that can be referenced by Workflows for execution on Hardware.");
  ("v1alpha2/BMC", "BMCs (Baseboard Management Controller) for out-of-band hardware management operations.");
  ("v1alpha2/Workflow", "An ordered sequence of Tasks with boot options, hardware references, and templating for provisioning Hardware.");
  ("v1alpha2/Policy", "Controls Workflow auto-creation rules based on agent attributes and reference access policies for Hardware and Tasks.");
  ("v1alpha2/Job", "A BMC operation request containing one or more operations to execute on a target BMC.")].

Definition workflow_field (name typ description : string) (required : bool) (children : list SchemaField) : SchemaField :=
  mkSchemaField name typ description required false children "" [] "" "".

Definition getWorkflowSchemaFields : list SchemaField := [
  workflow_field "name" schemaTypeString "Workflow name" true [];
  workflow_field "id" schemaTypeString "Unique workflow identifier" false [];
  workflow_field "global_timeout" schemaTypeInteger "Global timeout in seconds for the entire workflow" false [];
  workflow_field resourceTasks "array[object]" "List of tasks to execute in sequence" true [
    workflow_field "name" schemaTypeString "Task name" true [];
    workflow_field "worker" schemaTypeString "Worker address (supports template variables like {{.device_1}})" true [];
    workflow_field "volumes" schemaTypeArrayString "Volume mounts for all actions in this task" false [];
    workflow_field "environment" "object (map[string]string)" "Environment variables for all actions in this task (key-value pairs)" false [];
    workflow_field "actions" "array[object]" "List of actions to execute within this task" true [
      workflow_field "name" schemaTypeString "Action name" true [];
      workflow_field "image" schemaTypeString "Container image to execute" true [];
      workflow_field "timeout" schemaTypeInteger "Action timeout in seconds" false [];
      workflow_field "command" schemaTypeArrayString "Command to execute in the container" false [];
      workflow_field "on-timeout" schemaTypeArrayString "Commands to run if the action times out" false [];
      workflow_field "on-failure" schemaTypeArrayString "Commands to run if the action fails" false [];
      workflow_field "volumes" schemaTypeArrayString "Volume mounts for this action" false [];
      workflow_field "environment" "object (map[string]string)" "Environment variables for this action (key-value pairs)" false [];
      workflow_field "pid" schemaTypeString "PID namespace mode (e.g., 'host')" false []]]].

(** [getRequiredSet] as the membership test it is used for. *)
Definition getRequiredSet (required : list string) (name : string) : bool := bool_decide (name ∈ required).

Definition field_le (a b : SchemaField) : Prop := str_le (sf_Name a) (sf_Name b).
#[export] Instance field_le_dec : RelDecision field_le.
Proof. intros a b. unfold field_le. apply _. Defined.

(** The fields in the order of their names: the keys of the map are sorted. *)
Definition sort_fields (l : list SchemaField) : list SchemaField := merge_sort field_le l.

Definition deprecated (description : string) : bool :=
  HasPrefix description "Deprecated:" || Contains description "deprecated and will be removed".

(** Whether a property list is there, and the item type of a simple array. *)
Definition has_properties (p : JSONSchemaProps) : bool := bool_decide (is_Some (js_Properties p)).

Section Fields.
Context (kind : string).

Fixpoint extractField (name : string) (prop : JSONSchemaProps) (required : bool) {struct prop} : SchemaField :=
  let fields_of (p : JSONSchemaProps) (props : option (list (string * JSONSchemaProps))) : list SchemaField :=
    sort_fields (match props with
    | None => []
    | Some l =>
        (fix go (l : list (string * JSONSchemaProps)) : list SchemaField :=
           match l with
           | [] => []
           | (n, q) :: l' => extractField n q (getRequiredSet (js_Required p) n) :: go l'
           end) l
    end) in
  let typ := js_Type prop in
  if bool_decide (kind = nameSingularTemplate) && bool_decide (name = "data") && bool_decide (typ = schemaTypeString) then
    mkSchemaField name typ "Expand to see the typed structure that this string blob must follow." required
      (deprecated (js_Description prop)) getWorkflowSchemaFields (js_Pattern prop) [] "" (js_Format prop)
  else
    let children := if bool_decide (typ = schemaTypeObject) then fields_of prop (js_Properties prop) else [] in
    let '(ftype, children) :=
      match js_AdditionalProperties prop with
      | Some (Some vs) =>
          if bool_decide (typ = schemaTypeObject) then
            match js_Properties vs with
            | Some l => ("object (map[string]object)", fields_of vs (Some l))
            | None => (if decide (js_Type vs ≠ "") then "object (map[string]" +:+ js_Type vs +:+ ")" else typ, children)
            end
          else (typ, children)
      | _ => (typ, children)
      end in
    let '(ftype, children, description) :=
      match js_Items prop with
      | Some (Some it) =>
          if bool_decide (typ = "array") then
            match js_Properties it with
            | Some l => if bool_decide (js_Type it = schemaTypeObject) then (ftype, fields_of it (Some l), js_Description prop)
                        else ("array[" +:+ js_Type it +:+ "]", children,
                              if bool_decide (js_Description it ≠ "") && bool_decide (js_Description prop = "") then js_Description it else js_Description prop)
            | None => ("array[" +:+ js_Type it +:+ "]", children,
                       if bool_decide (js_Description it ≠ "") && bool_decide (js_Description prop = "") then js_Description it else js_Description prop)
            end
          else (ftype, children, js_Description prop)
      | _ => (ftype, children, js_Description prop)
      end in
    mkSchemaField name ftype description required (deprecated (js_Description prop)) children (js_Pattern prop) (js_Enum prop)
      (default "" (js_Default prop)) (js_Format prop).

Definition extractFields (prop : JSONSchemaProps) : list SchemaField :=
  sort_fields (match js_Properties prop with
  | None => []
  | Some l => (λ nq, extractField nq.1 nq.2 (getRequiredSet (js_Required prop) nq.1)) <$> l
  end).
End Fields.

Definition property (name : string) (p : JSONSchemaProps) : option JSONSchemaProps :=
  l ← js_Properties p; '(_, nq) ← list_find (λ nq, nq.1 = name) l; Some nq.2.

Definition parseSingleCRD (def : option CRDDefinition) : option CRDInfo :=
  def ← def;
  version ← head (crd_Versions def);
  root ← version.2;
  let kind := crd_Kind def in
  let description := map_get kindDescriptions (version.1 +:+ "/" +:+ kind) in
  let description := if bool_decide (description = "") && bool_decide (js_Description root ≠ "") then js_Description root else description in
  let fields name := match property name root with Some p => extractFields kind p | None => [] end in
  Some (mkCRDInfo kind (crd_Plural def) (crd_Group def) version.1 description (map_get kindToRoute kind) (fields "spec") (fields "status")).

Definition crd_le (a b : CRDInfo) : Prop := str_le (ci_Kind a) (ci_Kind b).
#[export] Instance crd_le_dec : RelDecision crd_le.
Proof. intros a b. unfold crd_le. apply _. Defined.

Definition parseCRDsFromSource (crds : list (option CRDDefinition)) : DashboardData :=
  let infos := omap parseSingleCRD crds in
  let tinkerbell := merge_sort crd_le (filter (λ i, ci_Group i ≠ GroupBMC) infos) in
  let bmc := merge_sort crd_le (filter (λ i, ci_Group i = GroupBMC) infos) in
  mkDashboardData (mkCRDGroup GroupTinkerbell tinkerbell :: match bmc with [] => [] | _ => [mkCRDGroup GroupBMC bmc] end)
    "" [] "".

(** The cache: the data of each version, made once. A version that is unknown is
    shown as v1alpha1. *)
Definition GetDashboardDataForVersion (CRDsByVersion : gmap string (list (option CRDDefinition))) (version : string) : DashboardData :=
  let cached := parseCRDsFromSource <$> CRDsByVersion in
  match cached !! version with
  | Some data => data
  | None => default (mkDashboardData [] "" [] "") (cached !! "v1alpha1")
  end.

Definition dashboard_data (CRDsByVersion : gmap string (list (option CRDDefinition))) (c : GinContext) : DashboardData :=
  let version := DefaultQuery c "version" "v1alpha1" in
  mkDashboardData (dd_Groups (GetDashboardDataForVersion CRDsByVersion version)) version AvailableVersions (GetBaseURL c).

Section Dashboard.
Context {W : Type} `{UiKube W} (CRDsByVersion : gmap string (list (option CRDDefinition))).

Definition HandleDashboard (c : GinContext) (w : W) : list op * W :=
  let '(namespaces, w) := GetKubeNamespaces c (gc_kubeClient c) w in
  (html (DashboardPage (cfg_of c namespaces) (dashboard_data CRDsByVersion c)), w).

Definition HandleDashboardData (c : GinContext) (w : W) : list op * W :=
  (html (DashboardCRDContent (dashboard_data CRDsByVersion c)), w).
End Dashboard.

(** ** The order of maps

    The definitions and the properties of a schema come from maps, whose order
    changes from run to run. The page does not. *)

Section sorted_by_key.
Context {A : Type} (key : A → string).

Lemma NoDup_fmap_key l a b : NoDup (key <$> l) → a ∈ l → b ∈ l → key a = key b → a = b.
Proof.
  intros Hn [i Hi]%list_elem_of_lookup [j Hj]%list_elem_of_lookup E.
  assert (i = j) as ->; [|congruence]. apply (NoDup_lookup (key <$> l) i j (key a)); rewrite ?list_lookup_fmap, ?Hi, ?Hj; simpl; congruence.
Qed.

Lemma NoDup_fmap_filter (P : A → Prop) `{∀ x, Decision (P x)} l : NoDup (key <$> l) → NoDup (key <$> filter P l).
Proof.
  induction l as [|a l IH]; [done|]. rewrite filter_cons, fmap_cons, NoDup_cons. intros [Ha Hl]. case_decide; [|by apply IH].
  rewrite fmap_cons, NoDup_cons. split; [|by apply IH]. intros (b & E & [_ Hb]%list_elem_of_filter)%list_elem_of_fmap.
  apply Ha, list_elem_of_fmap. by exists b.
Qed.

Lemma sort_by_key_unique (R : relation A) `{!RelDecision R} l1 l2 :
  (∀ a b, R a b ↔ str_le (key a) (key b)) → l1 ≡ₚ l2 → NoDup (key <$> l1) → merge_sort R l1 = merge_sort R l2.
Proof.
  intros HR Hp Hn.
  assert (Total R) by (intros a b; rewrite !HR; apply (total str_le)).
  assert (Transitive R) by (intros a b c; rewrite !HR; apply (transitivity (R := str_le))).
  apply (StronglySorted_unique_strong R); [|by apply (StronglySorted_merge_sort R)..|by rewrite !merge_sort_Permutation].
  intros a b Ha Hb H1%HR H2%HR. rewrite merge_sort_Permutation in Ha, Hb. rewrite <- Hp in Hb.
  eapply NoDup_fmap_key; [done..|]. by apply (anti_symm str_le).
Qed.
End sorted_by_key.

Lemma extractField_Name kind n q r : sf_Name (extractField kind n q r) = n.
Proof. destruct q. cbn [extractField]. cbv zeta. by repeat case_match. Qed.

(** The fields of an object schema are its properties, each once, in the order of
    their names, and required exactly when the schema says so. *)
Theorem fields_sorted kind p l :
  js_Properties p = Some l → NoDup l.*1 →
  StronglySorted str_le (sf_Name <$> extractFields kind p) ∧ (sf_Name <$> extractFields kind p) ≡ₚ l.*1 ∧
  (∀ f, f ∈ extractFields kind p → ∃ q, (sf_Name f, q) ∈ l ∧ f = extractField kind (sf_Name f) q (getRequiredSet (js_Required p) (sf_Name f))).
Proof.
  intros Hl Hn. unfold extractFields, sort_fields. rewrite Hl.
  assert (Total field_le) by (intros a b; apply (total str_le)).
  assert (Transitive field_le) by (intros a b c; apply (transitivity (R := str_le))).
  split_and!.
  - eapply StronglySorted_fmap; [|by apply (StronglySorted_merge_sort field_le)]. by intros a b.
  - rewrite merge_sort_Permutation, <- list_fmap_compose. erewrite list_fmap_ext; [reflexivity|].
    intros i [n q] _. simpl. apply extractField_Name.
  - intros f Hf. rewrite merge_sort_Permutation in Hf. apply list_elem_of_fmap in Hf as ([n q] & -> & Hq). simpl. rewrite extractField_Name. by exists q.
Qed.

Theorem fields_order_irrelevant kind p p' l l' :
  js_Properties p = Some l → js_Properties p' = Some l' → js_Required p = js_Required p' → l ≡ₚ l' → NoDup l.*1 →
  extractFields kind p = extractFields kind p'.
Proof.
  intros Hl Hl' Hr Hp Hn. unfold extractFields, sort_fields. rewrite Hl, Hl', Hr. apply (sort_by_key_unique sf_Name); [done|by rewrite Hp|].
  rewrite <- list_fmap_compose. erewrite list_fmap_ext; [exact Hn|]. intros i [n q] _. simpl. apply extractField_Name.
Qed.

(** The dashboard of a source does not depend on the order of its definitions
    when their kinds differ. *)
Theorem dashboard_order_irrelevant crds crds' :
  crds ≡ₚ crds' → NoDup (ci_Kind <$> omap parseSingleCRD crds) → parseCRDsFromSource crds = parseCRDsFromSource crds'.
Proof.
  intros Hp Hn. unfold parseCRDsFromSource. assert (omap parseSingleCRD crds ≡ₚ omap parseSingleCRD crds') as Ho by (by rewrite Hp).
  assert (∀ (P : CRDInfo → Prop) `{∀ x, Decision (P x)},
    merge_sort crd_le (filter P (omap parseSingleCRD crds)) = merge_sort crd_le (filter P (omap parseSingleCRD crds'))) as Hs.
  { intros P ?. apply (sort_by_key_unique ci_Kind); [done|by rewrite Ho|].
    by apply NoDup_fmap_filter. }
  by rewrite !Hs.
Qed.
