(* ===== verification/UiRoutes.v ===== *)
(** * The web UI: its routes

    ui/ui.go: the configuration, the headers of every answer, the public and the
    protected routes, and what holds for all of them. *)
From S2P Require Import Prelude GoStrings GoStrconv GoPath InventoryTypes Api BmcTypes BmcApi UiPages UiTypes UiKube UiLists UiSearch UiAuth UiCrd.

Record UiConfig := mkUiConfig { uc_URLPrefix : string; uc_EnableAutoLogin : bool; uc_AutoLoginNamespace : string }.

Definition DefaultURLPrefix : string := "/".
Definition NewConfig (opts : list (UiConfig → UiConfig)) : UiConfig := foldl (λ c o, o c) (mkUiConfig DefaultURLPrefix false "") opts.
Definition WithURLPrefix (prefix : string) (c : UiConfig) : UiConfig := mkUiConfig prefix (uc_EnableAutoLogin c) (uc_AutoLoginNamespace c).

Definition staticCacheMiddleware : list op := [Header "Cache-Control" ("public, max-age=" +:+ Itoa (24 * 3600))].

Definition securityHeadersMiddleware (c : GinContext) : list op :=
  [Header "X-Content-Type-Options" "nosniff"; Header "X-Frame-Options" "DENY"; Header "Referrer-Policy" "strict-origin-when-cross-origin";
   Header "Content-Security-Policy"
     "default-src 'self'; script-src 'self' 'unsafe-inline'; style-src 'self' 'unsafe-inline'; img-src 'self' data:; font-src 'self'"] ++
  (if gc_TLS c then [Header "Strict-Transport-Security" "max-age=31536000; includeSubDomains"] else []).

(** [strings.TrimRight(prefix, "/")]. *)
Definition templateBaseURL (cfg : UiConfig) : string :=
  of_bytes (reverse (drop_while (λ c, bool_decide (c = slash)) (reverse (bytes_of (uc_URLPrefix cfg))))).
Definition set_baseURL (cfg : UiConfig) (c : GinContext) : GinContext :=
  mkGinContext (gc_Path c) (gc_TLS c) (gc_Header c) (gc_Query c) (gc_Param c) (gc_PostForm c) (gc_Cookie c)
    (Some (templateBaseURL cfg)) (gc_saNamespace c) (gc_kubeClient c).

Section Routes.
Context {W : Type} `{UiKube W} `{TokenEnv} (int_of_Inf : Z) (CRDsByVersion : gmap string (list (option CRDDefinition))).

Definition handler : Type := GinContext → W → list op * W.

(** The protected routes, all of them GET. *)
Definition protected_routes : list (string * handler) := [
  ("/", HandleDashboard CRDsByVersion);
  ("/dashboard-data", HandleDashboardData CRDsByVersion);
  ("/hardware", HandleHardwareList int_of_Inf);
  ("/hardware-data", HandleHardwareData int_of_Inf);
  ("/hardware/:namespace/:name", HandleHardwareDetail);
  ("/workflows", HandleWorkflowList int_of_Inf);
  ("/workflows-data", HandleWorkflowData int_of_Inf);
  ("/workflows/:namespace/:name", HandleWorkflowDetail);
  ("/templates", HandleTemplateList int_of_Inf);
  ("/templates-data", HandleTemplateData int_of_Inf);
  ("/templates/:namespace/:name", HandleTemplateDetail);
  ("/workflows/rulesets", HandleWorkflowRuleSetList int_of_Inf);
  ("/workflows/rulesets-data", HandleWorkflowRuleSetData int_of_Inf);
  ("/workflows/rulesets/:namespace/:name", HandleWorkflowRuleSetDetail);
  ("/bmc/machines", HandleBMCMachineList int_of_Inf);
  ("/bmc/machines-data", HandleBMCMachineData int_of_Inf);
  ("/bmc/machines/:namespace/:name", HandleBMCMachineDetail);
  ("/bmc/jobs", HandleBMCJobList int_of_Inf);
  ("/bmc/jobs-data", HandleBMCJobData int_of_Inf);
  ("/bmc/jobs/:namespace/:name", HandleBMCJobDetail);
  ("/bmc/tasks", HandleBMCTaskList int_of_Inf);
  ("/bmc/tasks-data", HandleBMCTaskData int_of_Inf);
  ("/bmc/tasks/:namespace/:name", HandleBMCTaskDetail);
  ("/api/search", HandleGlobalSearch);
  ("/permissions", HandlePermissions);
  ("/permissions/check/:resource", HandlePermissionCheck)].

(** A protected route: the headers, the base URL, the middleware of the group, the handler. *)
Definition serve_protected (cfg : UiConfig) (h : handler) (c : GinContext) (w : W) : list op * W :=
  let c' := set_baseURL cfg c in
  let '(ops, w) :=
    if uc_EnableAutoLogin cfg then h (AutoLoginMiddleware (uc_AutoLoginNamespace cfg) c') w
    else
      match AuthMiddleware (uc_URLPrefix cfg) c' w with
      | (inl ops, w) => (ops, w)
      | (inr c'', w) => h c'' w
      end in
  (securityHeadersMiddleware c ++ ops, w).

(** The routes of the session. *)
Definition serve_login (cfg : UiConfig) (c : GinContext) : list op :=
  securityHeadersMiddleware c ++
  (if uc_EnableAutoLogin cfg then [RedirectTo 302 (path_Join [uc_URLPrefix cfg; "/"])] else HandleLogin (set_baseURL cfg c)).
Definition serve_login_validate (cfg : UiConfig) (c : GinContext) (w : W) : list op * W :=
  let '(ops, w) :=
    if uc_EnableAutoLogin cfg then ([JSON 403 (JError "auto-login enabled, manual login is disabled")], w)
    else HandleLoginValidate (set_baseURL cfg c) w in
  (securityHeadersMiddleware c ++ ops, w).
Definition serve_logout (cfg : UiConfig) (c : GinContext) : list op :=
  securityHeadersMiddleware c ++
  (if uc_EnableAutoLogin cfg then [RedirectTo 302 (path_Join [uc_URLPrefix cfg; "/"])] else HandleLogout (set_baseURL cfg c)).

(** ** Access *)

(** Without a session every protected route answers with the login page's address
    and asks nothing of any API server. *)
Theorem protected_needs_session cfg path h c w :
  (path, h) ∈ protected_routes → uc_EnableAutoLogin cfg = false →
  decode_cookie c cookieNameAuthToken = "" ∨ decode_cookie c cookieNameAPIServer = "" →
  serve_protected cfg h c w =
    (securityHeadersMiddleware c ++ [RedirectTo 302 (path_Join [uc_URLPrefix cfg; "login"]); AbortChain], w).
Proof.
  intros _ Ha Hc. unfold serve_protected. rewrite Ha. by rewrite no_session_no_access.
Qed.

(** With a session the handler runs with the client of the session's token, and no other. *)
Theorem protected_uses_session cfg h c w token server :
  uc_EnableAutoLogin cfg = false →
  decode_cookie c cookieNameAuthToken = token → decode_cookie c cookieNameAPIServer = server → token ≠ "" → server ≠ "" →
  ∀ w1, k_New (TokenClient token server (bool_decide (gc_Cookie c !! cookieNameInsecureSkipVerify = Some "true"))) w = (None, w1) →
  ∃ c', gc_kubeClient c' = Some (TokenClient token server (bool_decide (gc_Cookie c !! cookieNameInsecureSkipVerify = Some "true"))) ∧
    gc_Query c' = gc_Query c ∧ gc_Param c' = gc_Param c ∧
    serve_protected cfg h c w = (securityHeadersMiddleware c ++ fst (h c' w1), snd (h c' w1)).
Proof.
  intros Ha Ht Hs Htn Hsn w1 Hw. unfold serve_protected. rewrite Ha. unfold AuthMiddleware.
  change (GetTokenAndAPIServerFromRequest (set_baseURL cfg c)) with (GetTokenAndAPIServerFromRequest c).
  unfold GetTokenAndAPIServerFromRequest. rewrite Ht, Hs. rewrite decide_False by tauto.
  unfold NewKubeClientFromTokenAndServer. rewrite Hw. match goal with |- context [h ?x w1] => exists x end.
  split; [done|]. split; [done|]. split; [done|]. by destruct (h _ w1).
Qed.

(** ** One answer

    A route writes at most one body, but for the two that go on after an error of
    authentication was answered. *)
Definition one_body (h : handler) : Prop := ∀ c w, length (bodies (fst (h c w))) ≤ 1.

Lemma bodies_auth c e ops : HandleAuthError c e = Some ops → length (bodies ops) ≤ 1.
Proof. unfold HandleAuthError. case_match; [|done]. intros [= <-]. destruct (IsHTMXRequest c); vm_compute; lia. Qed.

Lemma with_client_one c (w : W) fail body :
  length (bodies fail) ≤ 1 → (∀ cl w, length (bodies (fst (body cl w))) ≤ 1) → length (bodies (fst (with_client c w fail body))) ≤ 1.
Proof.
  intros Hf Hb. unfold with_client. destruct (GetKubeClientFromGinContext c); [|apply Hb]. simpl.
  destruct (HandleAuthError c e) eqn:E; [by eapply bodies_auth|done].
Qed.

Lemma list_handler_one {A} k (row : Listed k → A) pg table full select per_page :
  one_body (list_handler k row pg table full select per_page).
Proof.
  intros c w. apply with_client_one; [vm_compute; lia|]. intros cl w1. destruct (GetKubeNamespaces c (Some cl) w1) as [nss w2].
  unfold list_rows. destruct (ListKind k cl _ w2) as [[e|items] w3]; [destruct (HandleAuthError c e) eqn:E|].
  - by eapply bodies_auth.
  - simpl. destruct (IsHTMXRequest c); vm_compute; lia.
  - simpl. destruct (IsHTMXRequest c); vm_compute; lia.
Qed.

Lemma data_handler_one {A} k (row : Listed k → A) pg table per_page : one_body (data_handler k row pg table per_page).
Proof.
  intros c w. apply with_client_one; [vm_compute; lia|]. intros cl w1.
  unfold list_rows. destruct (ListKind k cl _ w1) as [[e|items] w3]; [destruct (HandleAuthError c e) eqn:E|]; [by eapply bodies_auth|vm_compute; lia..].
Qed.

Lemma detail_handler_one k fail missing show :
  length (bodies fail) ≤ 1 → (∀ cfg ns n, length (bodies (missing cfg ns n)) ≤ 1) → (∀ cfg x, length (bodies (show cfg x)) ≤ 1) →
  one_body (detail_handler k fail missing show).
Proof.
  intros Hf Hm Hs c w. apply with_client_one; [done|]. intros cl w1. destruct (GetKubeNamespaces c (Some cl) w1) as [nss w2].
  destruct (GetKind k cl _ _ w2) as [[e|x] w3]; [destruct (HandleAuthError c e) eqn:E|]; simpl; [by eapply bodies_auth|apply Hm|apply Hs].
Qed.

Definition answers_twice (path : string) : bool := bool_decide (path ∈ ["/hardware"; "/api/search"]).

Theorem routes_answer_once path h :
  (path, h) ∈ protected_routes → answers_twice path = false → one_body h.
Proof.
  assert (Forall (λ ph, answers_twice ph.1 = false → one_body ph.2) protected_routes) as HF;
    [|intros Hr; exact (proj1 (Forall_forall _ _) HF (path, h) Hr)].
  unfold protected_routes. repeat (apply Forall_cons; split; [intros Hp; cbn [fst snd] in *; try (by vm_compute in Hp)|]); [..|by apply Forall_nil_2];
    try apply list_handler_one; try apply data_handler_one;
    try (apply detail_handler_one; [vm_compute; lia|intros; vm_compute; lia|]; intros cfg x).
  - intros c w. unfold HandleDashboard. destruct (GetKubeNamespaces _ _ w). vm_compute; lia.
  - intros c w. vm_compute; lia.
  - intros c w. apply with_client_one; [vm_compute; lia|]. intros cl w1. destruct (ListHardware cl _ w1). vm_compute; lia.
  - unfold hardware_detail. repeat case_match; vm_compute; lia.
  - unfold workflow_detail. repeat case_match; vm_compute; lia.
  - unfold template_detail. repeat case_match; vm_compute; lia.
  - vm_compute; lia.
  - vm_compute; lia.
  - vm_compute; lia.
  - unfold task_detail. repeat case_match; vm_compute; lia.
  - intros c w. apply with_client_one; [vm_compute; lia|]. intros cl w1. destruct (GetKubeNamespaces _ _ w1). vm_compute; lia.
  - intros c w. unfold HandlePermissionCheck. destruct (GetKubeClientFromGinContext c); [vm_compute; lia|].
    destruct (getResourcePermissions _ _ _ _ w). vm_compute; lia.
Qed.
End Routes.

(** ** All pages of a list *)

(** The same request for another page. *)
Definition set_page (p : Z) (c : GinContext) : GinContext :=
  mkGinContext (gc_Path c) (gc_TLS c) (gc_Header c) (<["page" := Itoa p]> (gc_Query c)) (gc_Param c) (gc_PostForm c) (gc_Cookie c)
    (gc_baseURL c) (gc_saNamespace c) (gc_kubeClient c).

Lemma page_query_set p c : (0 < p ≤ max_int64)%Z → page_query (set_page p c) = p.
Proof.
  intros Hp. unfold page_query, DefaultQuery, set_page. cbn [gc_Query]. rewrite lookup_insert_eq. change (default "1" (Some (Itoa p))) with (Itoa p). by rewrite Atoi_Itoa.
Qed.

Lemma Query_set_page p c key : key ≠ "page" → Query (set_page p c) key = Query c key.
Proof. intros Hk. unfold Query, set_page. cbn [gc_Query]. by rewrite lookup_insert_ne. Qed.

Lemma per_page_bounds c : (1 ≤ per_page_query c ≤ MaxItemsPerPage)%Z.
Proof. unfold per_page_query, ValidateItemsPerPage, MaxItemsPerPage, DefaultItemsPerPage. repeat case_decide; lia. Qed.

Section Pages.
Context {W : Type} `{UiKube W} (int_of_Inf : Z) (w : W) (cl : KubeClient) (namespaces : list string).
(** An API server whose answers do not change while the pages are read. *)
Context (steady_namespaces : k_ListNamespaces cl w = (inr namespaces, w)).

Lemma list_handler_page {A} k (row : Listed k → A) pg table full select per_page c items :
  gc_kubeClient c = Some cl → k_List k cl (namespace_opt (select c namespaces)) w = (inr items, w) →
  list_handler k row pg table full select per_page c w =
    (let d := pg (row <$> items) (page_query c) (per_page c) in
     if IsHTMXRequest c then html (table d) else html (full (cfg_of c namespaces) d), w).
Proof.
  intros Hc Hl. unfold list_handler, with_client, GetKubeClientFromGinContext. rewrite Hc. unfold GetKubeNamespaces, ListNamespaces.
  rewrite steady_namespaces. simpl. unfold list_rows, ListKind. rewrite Hl. done.
Qed.

(** C27: Reading the pages of the workflow list one after the other shows every
    workflow of the selected namespace once, in the order of the API, and no page
    has more than the number asked for, which is at most a hundred. *)
Theorem workflow_pages_complete c items :
  gc_kubeClient c = Some cl → (Z.of_nat (length items) < 2 ^ 52)%Z →
  k_List KWorkflow cl (namespace_opt (GetSelectedNamespace c namespaces)) w = (inr items, w) →
  let n := pages (Z.of_nat (length items)) (per_page_query c) in
  let shown i := GetPaginatedWorkflows int_of_Inf (workflow_row <$> items) (Z.of_nat i + 1) (per_page_query c) in
  (∀ i, i < Z.to_nat n → HandleWorkflowList int_of_Inf (set_page (Z.of_nat i + 1) c) w =
     (if IsHTMXRequest c then html (WorkflowTableContent (shown i)) else html (WorkflowPage (cfg_of c namespaces) (shown i)), w)) ∧
  concat ((λ i, pg_Items (shown i)) <$> seq 0 (Z.to_nat n)) = workflow_row <$> items ∧
  (∀ i, (Z.of_nat (length (pg_Items (shown i))) ≤ per_page_query c ≤ MaxItemsPerPage)%Z).
Proof.
  intros Hc Hlen Hl n shown. pose proof (per_page_bounds c) as Hb. unfold MaxItemsPerPage in *.
  assert (int64 (per_page_query c)) as H64 by (unfold int64, min_int64, max_int64; lia).
  pose proof (pages_spec (Z.of_nat (length items)) (per_page_query c) ltac:(lia) ltac:(lia)) as Hn. fold n in Hn.
  assert (length (workflow_row <$> items) = length items) as El by apply length_fmap.
  split_and!.
  - intros i Hi. unfold HandleWorkflowList. rewrite (list_handler_page KWorkflow workflow_row _ _ _ _ _ _ items); [|done|].
    + rewrite page_query_set by (unfold max_int64; nia).
      assert (per_page_query (set_page (Z.of_nat i + 1) c) = per_page_query c) as -> by (unfold per_page_query, DefaultQuery, set_page; cbn [gc_Query]; by rewrite lookup_insert_ne).
      done.
    + unfold GetSelectedNamespace in *. by rewrite Query_set_page.
  - unfold n. rewrite <- El. apply pages_partition; [rewrite El|..]; lia || done.
  - intros i. destruct (page_in_bounds int_of_Inf "/workflows" "#workflow-content" (workflow_row <$> items) (Z.of_nat i + 1) (per_page_query c))
      as (_ & _ & _ & Hd & _); [rewrite El; lia|lia|done|]. split; [exact Hd|lia].
Qed.
End Pages.

(** ** Answers after an error of authentication *)

Section AuthErrors.
Context {W : Type} `{UiKube W} (int_of_Inf : Z).

(** The hardware list and the search go on: a redirect and a page, or a redirect
    and a result, in one response. *)
Theorem hardware_list_answers_twice c cl (w : W) w1 w2 namespaces e :
  gc_kubeClient c = Some cl → IsHTMXRequest c = false → k_ListNamespaces cl w = (inr namespaces, w1) →
  k_List KHardware cl (namespace_opt (GetSelectedNamespace c namespaces)) w1 = (inl e, w2) → IsAuthError (ErrWrap "failed to list hardware: " e) = true →
  bodies (fst (HandleHardwareList int_of_Inf c w)) = [RedirectTo 302 "/login"; Render (Homepage (cfg_of c namespaces) zero_PageData)].
Proof.
  intros Hc Hx Hn Hl He. unfold HandleHardwareList, GetHardwareList, GetKubeClientFromGinContext. rewrite Hc. unfold GetKubeNamespaces, ListNamespaces.
  rewrite Hn. simpl. unfold ListHardware, ListKind. rewrite Hl. simpl wrap_res. unfold HandleAuthError.
  change (ErrWrap _ e) with (ErrWrap "failed to list hardware: " e). rewrite He, Hx. done.
Qed.

(** A missing object is answered with a page of status 404, unless the error reads
    like one of authentication. *)
Theorem missing_object k singular listPath plural suffix show c cl (w : W) w1 w2 namespaces e fail :
  gc_kubeClient c = Some cl → k_ListNamespaces cl w = (inr namespaces, w1) →
  k_Get k cl (Param c "namespace") (Param c "name") w1 = (inl e, w2) →
  IsAuthError (ErrWrap ("failed to get " +:+ get_label k +:+ ": ") e) = false →
  detail_handler k fail (not_found singular listPath plural suffix) show c w =
    ([Header "Content-Type" "text/html"; Status 404;
      Render (NotFoundPage (cfg_of c namespaces) singular (Param c "name") (Param c "namespace") listPath plural
                ("This " +:+ singular +:+ " may have been deleted" +:+ suffix))], w2).
Proof.
  intros Hc Hn Hg He. unfold detail_handler, with_client, GetKubeClientFromGinContext. rewrite Hc. unfold GetKubeNamespaces, ListNamespaces.
  rewrite Hn. simpl. unfold GetKind. rewrite Hg. simpl wrap_res. unfold HandleAuthError. by rewrite He.
Qed.
End AuthErrors.

(** A name is enough for that: a workflow called deploy-tls that does not exist
    sends its reader to the login page; and under a prefix that page is elsewhere. *)
Example not_found_reads_as_auth :
  IsAuthError (ErrWrap "failed to get workflow: " (ErrStatus StatusReasonNotFound "workflows.tinkerbell.org deploy-tls not found")) = true ∧
  IsAuthError (ErrWrap "failed to get workflow: " (ErrStatus StatusReasonNotFound "workflows.tinkerbell.org deploy not found")) = false ∧
  path_Join ["/ui"; "login"] = "/ui/login".
Proof. vm_compute. done. Qed.
