(* ===== verification/UiSession.v ===== *)
(** * The web UI: what a session can reach

    A request to a protected route uses the client of its own session and no
    other. This is stated by changing the API server: [others K cl K'] answers
    the client [cl] as [K] does and every other client as [K'] does, and no
    route can tell it from [K] when [cl] is the client of the request. *)
From S2P Require Import Prelude GoStrings GoPath Base64 InventoryTypes Api BmcTypes BmcApi UiPages UiTypes UiKube UiLists UiSearch UiAuth UiCrd UiRoutes.

#[export] Instance KubeClient_eq_dec : EqDecision KubeClient.
Proof. solve_decision. Defined.

Definition others {W} (K : UiKube W) (cl : KubeClient) (K' : UiKube W) : UiKube W := {|
  k_New c w := if decide (c = cl) then @k_New W K c w else @k_New W K' c w;
  k_ListNamespaces c w := if decide (c = cl) then @k_ListNamespaces W K c w else @k_ListNamespaces W K' c w;
  k_List k c ns w := if decide (c = cl) then @k_List W K k c ns w else @k_List W K' k c ns w;
  k_Get k c ns n w := if decide (c = cl) then @k_Get W K k c ns n w else @k_Get W K' k c ns n w;
  k_AccessReview c v g r ns w := if decide (c = cl) then @k_AccessReview W K c v g r ns w else @k_AccessReview W K' c v g r ns w;
  yaml_Marshal := @yaml_Marshal W K;
  json_AgentAttributes := @json_AgentAttributes W K;
  local_time := @local_time W K;
|}.

(** The client of a request: the one of its cookies, or the one of auto-login. *)
Definition client_of (cfg : UiConfig) (c : GinContext) : KubeClient :=
  if uc_EnableAutoLogin cfg then AutoClient
  else
    let '(token, server, skip) := GetTokenAndAPIServerFromRequest c in
    TokenClient token server skip.

Section Confined.
Context {W : Type} `{TokenEnv} (K K' : UiKube W) (cl : KubeClient) (int_of_Inf : Z).
Context (CRDsByVersion : gmap string (list (option CRDDefinition))).
Local Abbreviation KO := (others K cl K').
Implicit Types (c : GinContext) (w : W).

(** A handler of a request with the client [cl] answers the same. *)
Definition confined (h h' : GinContext → W → list op * W) : Prop :=
  ∀ c w, gc_kubeClient c = Some cl → h c w = h' c w.

Lemma GetKubeNamespaces_others c w : @GetKubeNamespaces W KO c (Some cl) w = @GetKubeNamespaces W K c (Some cl) w.
Proof. unfold GetKubeNamespaces, ListNamespaces. simpl. by rewrite decide_True. Qed.

Lemma ListKind_others k ns w : @ListKind W KO k cl ns w = @ListKind W K k cl ns w.
Proof. unfold ListKind. simpl. by rewrite decide_True. Qed.

Lemma GetKind_others k ns n w : @GetKind W KO k cl ns n w = @GetKind W K k cl ns n w.
Proof. unfold GetKind. simpl. by rewrite decide_True. Qed.

Lemma with_client_others c w fail (b b' : KubeClient → W → list op * W) :
  gc_kubeClient c = Some cl → (∀ w, b cl w = b' cl w) → with_client c w fail b = with_client c w fail b'.
Proof. intros Hc Hb. unfold with_client, GetKubeClientFromGinContext. rewrite Hc. apply Hb. Qed.

Lemma list_handler_others {A} k (row : Listed k → A) pg table full select per_page :
  confined (@list_handler W KO A k row pg table full select per_page) (@list_handler W K A k row pg table full select per_page).
Proof.
  intros c w Hc. apply with_client_others; [done|]. intros w1. rewrite GetKubeNamespaces_others.
  destruct (GetKubeNamespaces c (Some cl) w1) as [nss w2]. unfold list_rows. by rewrite ListKind_others.
Qed.

Lemma data_handler_others {A} k (row : Listed k → A) pg table per_page :
  confined (@data_handler W KO A k row pg table per_page) (@data_handler W K A k row pg table per_page).
Proof. intros c w Hc. apply with_client_others; [done|]. intros w1. unfold list_rows. by rewrite ListKind_others. Qed.

Lemma detail_handler_others k fail missing show :
  confined (@detail_handler W KO k fail missing show) (@detail_handler W K k fail missing show).
Proof.
  intros c w Hc. apply with_client_others; [done|]. intros w1. rewrite GetKubeNamespaces_others.
  destruct (GetKubeNamespaces c (Some cl) w1) as [nss w2]. by rewrite GetKind_others.
Qed.

Lemma HandleHardwareList_others : confined (@HandleHardwareList W KO int_of_Inf) (@HandleHardwareList W K int_of_Inf).
Proof.
  intros c w Hc. unfold HandleHardwareList, GetHardwareList, GetKubeClientFromGinContext. rewrite Hc, GetKubeNamespaces_others.
  destruct (GetKubeNamespaces c (Some cl) w) as [nss w1]. unfold ListHardware. by rewrite ListKind_others.
Qed.

Lemma HandleHardwareData_others : confined (@HandleHardwareData W KO int_of_Inf) (@HandleHardwareData W K int_of_Inf).
Proof. intros c w Hc. apply with_client_others; [done|]. intros w1. unfold ListHardware. by rewrite ListKind_others. Qed.

Lemma search_all_others c query ns w : @search_all W KO c cl query ns w = @search_all W K c cl query ns w.
Proof.
  assert (∀ k w, @search_kind W KO k c cl query ns w = @search_kind W K k c cl query ns w) as E.
  { intros k w1. unfold search_kind. by rewrite ListKind_others. }
  unfold search_all, searchHardware, searchWorkflows, searchTemplates, searchBMCMachines, searchBMCJobs, searchBMCTasks.
  repeat (rewrite E; destruct (search_kind _ c cl query ns _) as [[? ?] ?]). done.
Qed.

Lemma HandleGlobalSearch_others : confined (@HandleGlobalSearch W KO) (@HandleGlobalSearch W K).
Proof. intros c w Hc. apply with_client_others; [done|]. intros w1. by rewrite search_all_others. Qed.

Lemma permission_loop_others resource group ns verbs acc w :
  @permission_loop W KO cl resource group ns verbs acc w = @permission_loop W K cl resource group ns verbs acc w.
Proof.
  revert acc w. induction verbs as [|v verbs IH]; intros [allowed p] w; [done|]. cbn [permission_loop].
  assert (∀ v ns w, @k_AccessReview W KO cl v group resource ns w = @k_AccessReview W K cl v group resource ns w) as E.
  { intros. simpl. by rewrite decide_True. }
  rewrite E. destruct (k_AccessReview cl v group resource "" w) as [[e|[]] w1]; [apply IH..|].
  rewrite E. destruct (k_AccessReview cl v group resource ns w1) as [[e|[]] w2]; rewrite ?IH; done.
Qed.

Lemma HandlePermissionCheck_others : confined (@HandlePermissionCheck W KO) (@HandlePermissionCheck W K).
Proof.
  intros c w Hc. unfold HandlePermissionCheck, GetKubeClientFromGinContext, getResourcePermissions. by rewrite Hc, permission_loop_others.
Qed.

Lemma HandlePermissions_others : confined (@HandlePermissions W KO) (@HandlePermissions W K).
Proof. intros c w Hc. apply with_client_others; [done|]. intros w1. by rewrite GetKubeNamespaces_others. Qed.

Lemma HandleDashboard_others : confined (@HandleDashboard W KO CRDsByVersion) (@HandleDashboard W K CRDsByVersion).
Proof. intros c w Hc. unfold HandleDashboard. by rewrite Hc, GetKubeNamespaces_others. Qed.

Lemma routes_confined :
  Forall2 (λ r r', r.1 = r'.1 ∧ confined r.2 r'.2)
    (@protected_routes W KO int_of_Inf CRDsByVersion) (@protected_routes W K int_of_Inf CRDsByVersion).
Proof.
  unfold protected_routes.
  repeat (apply Forall2_cons; split; [split; [done|]; cbn [snd]|]); [..|by apply Forall2_nil_2];
    first [apply HandleDashboard_others | apply HandleHardwareList_others | apply HandleHardwareData_others
          | apply HandleGlobalSearch_others | apply HandlePermissionCheck_others | apply HandlePermissions_others
          | apply list_handler_others | apply data_handler_others | apply detail_handler_others | by intros c w _].
Qed.
End Confined.

(** C24: A protected route answers the same, and has the same effect, whatever the API
    would answer to any client but the one of the request: no token but the one
    in the request's cookies is ever used for it. *)
Theorem session_confined {W} `{TokenEnv} (K K' : UiKube W) int_of_Inf CRDsByVersion cfg i path h h' c w :
  let K1 := others K (client_of cfg c) K' in
  @protected_routes W K int_of_Inf CRDsByVersion !! i = Some (path, h) →
  @protected_routes W K1 int_of_Inf CRDsByVersion !! i = Some (path, h') →
  @serve_protected W K1 _ cfg h' c w = @serve_protected W K _ cfg h c w.
Proof.
  intros K1 Hh Hh'. pose proof (routes_confined K K' (client_of cfg c) int_of_Inf CRDsByVersion) as HF.
  destruct (Forall2_lookup_lr _ _ _ _ _ _ HF Hh' Hh) as [_ Hcf]. cbn [snd] in Hcf. clear HF Hh Hh'.
  unfold serve_protected. destruct (uc_EnableAutoLogin cfg) eqn:Ha.
  { rewrite Hcf; [done|]. unfold client_of. by rewrite Ha. }
  unfold AuthMiddleware. change (GetTokenAndAPIServerFromRequest (set_baseURL cfg c)) with (GetTokenAndAPIServerFromRequest c).
  unfold client_of in *. rewrite Ha in *. destruct (GetTokenAndAPIServerFromRequest c) as [[token server] skip] eqn:Et.
  destruct (decide _); [done|]. unfold NewKubeClientFromTokenAndServer.
  replace (@k_New W K1 (TokenClient token server skip) w) with (@k_New W K (TokenClient token server skip) w).
  2:{ unfold K1. rewrite ?Ha. simpl. by rewrite decide_True. }
  destruct (k_New (TokenClient token server skip) w) as [[e|] w1]; [done|]. by rewrite Hcf.
Qed.
