(* ===== verification/Demo.v ===== *)
(** * A concrete installation

    A toy template engine, one workflow with its template and hardware in the
    in-memory cluster, an agent that succeeds, and a Job with its BMC: the inputs
    on which [Witnesses] applies the theorems. *)
From S2P Require Import Prelude GoStrings BmcTypes InventoryTypes Api BmcApi Template KubeClient WorkflowJob Reconciler Attributes Server Service Agent System Rufio BmcJobs BmcSystem.

(** ** Templates *)

Definition tpl_action (name image : string) : tpl_Action :=
  mktpl_Action name image 60 [] [] [] [] ∅ "" (mkActionNamespaces "" "").

Definition demo_tpl : tpl_Workflow :=
  mktpl_Workflow "0.1" "debian" "" 3600
    [mktpl_Task "os-installation" "agent-1" [tpl_action "stream" "image2disk:v1"; tpl_action "kexec" "kexec:v1"] [] ∅].

(** A template is its text, rendered in two chunks; the text [demo] is the YAML
    of [demo_tpl]. Every rule matches every event. *)
#[export] Instance Toy : TemplateEnv := {|
  json := string;
  tmpl := string;
  data_value := string;
  tmpl_Parse _ text := if decide (text = "") then inl (ErrNew "empty template") else inr text;
  tmpl_Execute t _ := ([t; ""], None);
  yaml_Unmarshal s := if decide (s = "demo") then inr demo_tpl else inl (ErrNew "not yaml");
  ParseNormalizedNamed s := if decide (s = "") then Some (ErrNew "invalid reference format") else None;
  AddPattern _ := None;
  MatchesForEvent rules _ := inr rules;
  json_Marshal_evaluationData ed := inr (ref_Name (ed_Reference ed));
  data_string s := s;
  data_map _ := "map";
  data_hardware _ := "hardware";
  data_json s := s;
  data_templateData _ := "data";
  structToMap _ := inr "{}";
  json_empty := "{}";
  json_nil := "null";
|}.

(** ** The cluster *)

Definition meta (name : string) : ObjectMeta := mkObjectMeta "" "" name "tink" "" ∅ ∅ [] None.

Definition act (id name state : string) (start : option Z) : Action :=
  mkAction id name "img" 60 [] [] "" None ∅ state start None "" "".

(** Two tasks for two agents, the second task with its last action. *)
Definition demo_tasks (s1 s2 s3 : string) : list Task :=
  [mkTask "t1" "install" "agent-1" [act "a1" "stream" s1 None; act "a2" "kexec" s2 None] [] ∅;
   mkTask "t2" "verify" "agent-2" [act "a3" "check" s3 None] [] ∅].

Definition cur (task action state : string) : option CurrentState :=
  Some (mkCurrentState "agent-1" task action state action task).

Definition demo_status (state : WorkflowState) (cs : option CurrentState) (tasks : list Task) : WorkflowStatus :=
  mkWorkflowStatus "agent-1" state zero_BootOptionsStatus "" 3600 None cs tasks [].

Definition spec_with (bo : BootOptions) (disabled : option bool) : WorkflowSpec :=
  mkWorkflowSpec disabled "debian" "hw" ∅ bo.
Definition netboot : BootOptions := mkBootOptions false "" BootModeNetboot zero_CustombootConfig.
Definition customboot : BootOptions := mkBootOptions false "" BootModeCustomboot zero_CustombootConfig.

Definition wf_of (bo : BootOptions) (st : WorkflowStatus) : Workflow :=
  mkWorkflow (meta "wf") (spec_with bo None) st.

Definition demo_hw : Hardware :=
  mkHardware (meta "hw")
    (mkHardwareSpec "agent-1" (mkAutoCapabilities false) (Some "bmc")
       [mkInterface None None (Some zero_DHCP) false] ∅ None 0 [] None None) zero_HardwareStatus.

Definition demo_template : Template := mkTemplate (meta "debian") (Some "demo").

(** A job of the name the netboot mode uses, in a given state. *)
Definition demo_job (conds : list JobCondition) : Job :=
  mkJob (set_UID "uid-7" (meta "netboot-wf")) (mkJobSpec (mkMachineRef "bmc" "tink") []) (mkbmc_JobStatus conds None None).

Definition cluster (jobs : gmap (string * string) Job) (wf : Workflow) : Mem :=
  mkMem {[ ("tink", "wf") := wf ]} {[ ("tink", "debian") := demo_template ]} {[ ("tink", "hw") := demo_hw ]}
    jobs ∅ 1000 0 0.

(** The fresh workflow of the two agents, pending. *)
Definition demo_fresh : Workflow :=
  wf_of zero_BootOptions
    (demo_status WorkflowStatePending None
       (demo_tasks WorkflowStatePending WorkflowStatePending WorkflowStatePending)).

(** ** An agent *)

(** It reads one action, executes it and reports; its world counts the calls. *)
Definition demo_action : spec_Action :=
  action_of_response (response "agent-1" demo_fresh (mkTask "t1" "install" "agent-1" [] [] ∅)
    (act "a1" "stream" WorkflowStatePending None)).

#[export] Instance demo_agent : AgentEnv nat := {|
  ae_Wait _ n := (false, n);
  ae_Read n := (inr demo_action, S n);
  ae_Write _ n := (None, S n);
  ae_Execute _ n := (None, S n);
  ae_Now n := (Z.of_nat n, S n);
  ae_Retry op n := op n;
|}.

(** A retry that gives up after one failure: the context has ended. *)
Definition retry_once {W} (op : W → option error * W) (w : W) : option error * W :=
  match op w with
  | (None, w') => (None, w')
  | (Some err, w') => (Some (ErrCtx Canceled), w')
  end.

Lemma retry_once_runs {W} (op : W → option error * W) w e w' : retry_once op w = (e, w') → retry_runs op w e w'.
Proof.
  unfold retry_once. destruct (op w) as [[err|] w1] eqn:E; intros [= <- <-].
  - by eapply retry_interrupted.
  - by apply retry_ok.
Qed.

(** ** A BMC *)

(** The state of the toy BMC is the power state it is in. *)
Definition obey (c : bmc_command) (power : string) : string :=
  match c with
  | SetPowerState p => if decide (p = PowerOn) then On else if decide (p = PowerHardOff ∨ p = PowerSoftOff) then Off else power
  | _ => power
  end.

Definition demo_machine : Machine := mkMachine (meta "bmc") zero_Connection (mkMachineStatus "" []).

#[export] Instance demo_bmc : Bmc string := {|
  bmc_Machine _ _ b := (inr demo_machine, b);
  bmc_Secret _ _ b := (inr (<["username" := "admin"]> {[ "password" := "secret" ]}), b);
  bmc_Now b := (0%Z, b);
  bmc_Open _ _ _ _ b := (None, b);
  bmc_Close b := b;
  bmc_Command c b := (true, None, obey c b);
  bmc_Power b := (inr b, b);
|}.

Definition demo_actions : list bmc_Action :=
  [power_action PowerHardOff; one_time_boot PXE true; power_action PowerOn].

Definition demo_bmc_job : Job :=
  mkJob (mkObjectMeta "bmc.tinkerbell.org/v1alpha1" "Job" "netboot-wf" "tink" "uid-7" ∅ ∅ [] None)
    (mkJobSpec (mkMachineRef "bmc" "tink") demo_actions) zero_bmc_JobStatus.

Definition demo_cell : BmcCell string := mkBmcCell demo_bmc_job [] [] Off.
