(* ===== verification/DemoNet.v ===== *)
(** * A concrete network

    A toy DHCP library and URLs, two machines in a file and in an API server,
    and the packets of one of them: the inputs on which [WitnessesNet] applies
    the theorems of Smee and of the backends. *)
From S2P Require Import Prelude GoStrings GoNet GoNetip BmcTypes InventoryTypes Api Dhcp DhcpConv DhcpHandler Server Backends Demo.

(** ** The libraries *)

(** A URL is its text. *)
#[export] Instance Toy_url : GoUrl := {|
  URL := string;
  url_Parse s := inr s;
  url_ParseRequestURI s := if decide (s = "") then inl (ErrNew "empty url") else inr s;
  url_make s h := s +:+ "://" +:+ h;
  URL_String u := u;
  URL_Hostname u := u;
  URL_JoinPath u l := foldl (λ acc p, acc +:+ "/" +:+ p) u l;
|}.

(** Two octets per number, the high one first. *)
Fixpoint words (l : list Z) : list Z :=
  match l with a :: b :: l' => (256 * a + b)%Z :: words l' | _ => [] end.

Definition toy_value (v : OptionValue) : list Z :=
  match v with
  | OVBytes b | OVIP b | OVMask b => b
  | OVMessageType t => [t]
  | OVLeaseTime s => [s `div` 16777216 `mod` 256; s `div` 65536 `mod` 256; s `div` 256 `mod` 256; s `mod` 256]%Z
  | OVIPs l => concat l
  | OVLabels l => l ≫= octets_of_str
  | OVRoutes l => l ≫= rt_Router
  end.

#[export] Instance Toy_dhcp : DhcpLib := {|
  MessageType p := default 0%Z (pk_Options p !! OptionDHCPMessageType ≫= head);
  ClientArch p := words (default [] (pk_Options p !! OptionClientSystemArchitectureType));
  Arch_String a := if decide (is_Some (ArchToBootFile !! a)) then "arch " +:+ Itoa a else "unknown architecture type";
  MessageType_String t := "type " +:+ Itoa t;
  value_ToBytes := toy_value;
  Options_ToBytes m := map_to_list m ≫= (λ '(c, v), c :: Z.of_nat (length v) :: v);
  NewReply p := mkDHCPv4 (if decide (pk_OpCode p = OpcodeBootRequest) then OpcodeBootReply else OpcodeBootRequest)
    (pk_TransactionID p) [0; 0; 0; 0]%Z [0; 0; 0; 0]%Z (pk_GatewayIPAddr p) (pk_ClientHWAddr p) "" "" ∅;
|}.

#[export] Instance Toy_dhcp_laws : DhcpLaws.
Proof.
  split; try done.
  - intros p t H _. cbn [MessageType Toy_dhcp]. rewrite H. done.
  - intros p H. cbn [NewReply Toy_dhcp pk_OpCode]. by rewrite decide_True.
Qed.

(** ** Two machines *)

Definition dhcp_of (mac ip host : string) : DHCP :=
  mkDHCP mac host "example.org" 86400 ["192.168.1.1"] [] "x86_64" true "" (Some (mkIP ip "255.255.255.0" "192.168.1.1" 4)) "" [] "" "".

Definition net_hw (name mac ip : string) : Hardware :=
  mkHardware (meta name)
    (mkHardwareSpec name (mkAutoCapabilities false) None
       [mkInterface (Some (mkNetboot (Some true) None None None None None)) None (Some (dhcp_of mac ip name)) false] ∅ None 0 [] None None) zero_HardwareStatus.

Definition hw_a : Hardware := net_hw "node-a" "00:01:02:03:04:05" "192.168.1.10".
Definition hw_b : Hardware := net_hw "node-b" "00:01:02:03:04:06" "192.168.1.11".

Definition mac_a : list Z := [0; 1; 2; 3; 4; 5]%Z.
Definition mac_b : list Z := [0; 1; 2; 3; 4; 6]%Z.

(** The file holds both machines, and so does the API server. *)
#[export] Instance Toy_yaml : HardwareYaml := {|
  unmarshal_Hardware s := if decide (s = "hardware") then inr [hw_a; hw_b] else inl (ErrNew "not yaml");
|}.

Definition demo_watcher : Watcher := mkWatcher "hardware".

Definition list_matches (hw : Hardware) (o : ListOption) : Prop :=
  match o with
  | InNamespace ns => ns = "" ∨ hw_Namespace hw = ns
  | MatchingFields f v => indexed f v hw
  end.
#[export] Instance list_matches_dec hw o : Decision (list_matches hw o).
Proof. destruct o; apply _. Defined.

(** An API server of Hardware alone: its state is the list of objects. *)
#[export] Instance Toy_store : KubeStore (list Hardware) := {|
  ks_Done w := (false, w);
  ks_CreateHardware hw w := (None, w ++ [hw]);
  ks_GetHardware name ns w :=
    (match filter (λ hw, hw_Name hw = name ∧ hw_Namespace hw = ns) w with
     | hw :: _ => inr hw | [] => inl (ErrNotFound name) end, w);
  ks_ListHardware opts w := (inr (filter (λ hw, Forall (list_matches hw) opts) w), w);
  ks_WriteHardware _ _ _ w := (None, w);
  ks_CreateWorkflow _ w := (None, w);
  ks_GetWorkflow name _ w := (inl (ErrNotFound name), w);
  ks_ListWorkflows _ w := (inr [], w);
  ks_WriteWorkflow _ _ _ w := (None, w);
  ks_ListRuleSets _ w := (inr [], w);
  ks_ListMachines _ w := (inr [], w);
  ks_GetSecret name _ w := (inl (ErrNotFound name), w);
|}.

#[export] Instance Toy_lists : KubeLists (list Hardware).
Proof.
  refine (Build_KubeLists _ _ (λ w, w) (λ _, True) _).
  intros ns f v w _. cbn [ks_ListHardware Toy_store]. do 2 f_equal. apply list_filter_iff. intros hw.
  unfold list_option. case_decide as E; rewrite ?Forall_app, ?Forall_cons, ?Forall_nil; naive_solver.
Defined.

(** ** The packets of a PXE client *)

Definition pxe_packet (t : Z) : DHCPv4 :=
  mkDHCPv4 OpcodeBootRequest [1; 2; 3; 4]%Z [0; 0; 0; 0]%Z [0; 0; 0; 0]%Z [0; 0; 0; 0]%Z mac_a "" ""
    (list_to_map [(OptionDHCPMessageType, [t]); (OptionClassIdentifier, octets_of_str "PXEClient:Arch:00007");
      (OptionClientSystemArchitectureType, [0; 7]%Z); (OptionClientNetworkInterfaceIdentifier, [1; 2; 1]%Z)]).

Definition demo_peer : UDPAddr := mkUDPAddr [255; 255; 255; 255]%Z 68.
Definition demo_packet (t : Z) : Packet := mkPacket (NetUDP (Some demo_peer)) (Some (pxe_packet t)) (Some (mkMetadata "eth0" 2)).

Definition demo_netboot : NetbootConfig :=
  mkNetbootConfig (mkAddrPort (Addr4 [192; 168; 1; 1]%Z) 69) (Some "http://192.168.1.1:7171") (Some (λ _, Some "http://192.168.1.1:7171/auto.ipxe"))
    true "" MacAddrFormatColon ∅.
Definition demo_reservations : ReservationHandler :=
  mkReservationHandler (Addr4 [192; 168; 1; 1]%Z) demo_netboot false AddrNone.
Definition demo_proxy : ProxyHandler := mkProxyHandler (Addr4 [192; 168; 1; 1]%Z) demo_netboot false.
Definition demo_span : TraceContext := mkTraceContext "" (replicate 16 0%Z) (replicate 8 0%Z) false.
