(* ===== verification/Witnesses.v ===== *)
(** * The theorems applied

    Every theorem that has hypotheses, applied to the concrete installation of
    [Demo]: the hypotheses hold there. *)
From stdpp Require Import relations.
From S2P Require Import Prelude GoStrings BmcTypes Api BmcApi Template KubeClient WorkflowJob Reconciler Controller GoNet Attributes ServerNames Server Service Agent System Rufio BmcJobs BmcSystem Demo.

(** ** Templates *)

Lemma renderTemplate_exact_witness : renderTemplate "t" "demo" "data" = inr "demo".
Proof. apply (renderTemplate_exact (TE := Toy) "t" "demo" "data" "demo" ["demo"; ""]); reflexivity. Defined.

(** The supply of identifiers counts. *)
Definition count_ids (n : nat) : string * nat := (Itoa (Z.of_nat n), S n).

Lemma draw_count n k : (draw count_ids n k).1 = (λ i, Itoa (Z.of_nat i)) <$> seq k n.
Proof.
  revert k. induction n as [|n IH]; intros k; [done|]. cbn [draw count_ids seq fmap list_fmap].
  specialize (IH (S k)). destruct (draw count_ids n (S k)) as [l w]. simpl in *. by rewrite IH.
Qed.

Definition rendered : WorkflowStatus := (YAMLToStatus count_ids demo_tpl 0).1.

Lemma YAMLToStatus_initial_witness :
  Forall2 same_task (yw_Tasks demo_tpl) (st_Tasks rendered) ∧ NoDup (ids_of_tasks (st_Tasks rendered)) ∧
  (∃ t ts, st_Tasks rendered = t :: ts ∧ st_AgentID rendered = task_AgentID t ∧ st_AgentID rendered ≠ "").
Proof.
  apply (YAMLToStatus_initial (TE := Toy) count_ids "id" "demo" "data" demo_tpl 0); [reflexivity|].
  intros n. rewrite draw_count. apply NoDup_fmap_2; [|apply NoDup_ListNoDup, seq_NoDup].
  intros x y E. apply Itoa_inj in E. lia.
Defined.

(** ** The workflow controller *)

Definition preparing (bo : BootOptions) : Workflow :=
  wf_of bo (demo_status WorkflowStatePreparing None (demo_tasks "PENDING" "PENDING" "PENDING")).

Lemma handleJob_first_job_deleted_witness :
  ∃ r wf' w',
    handleJob (KC := Mem_client) [power_action PowerOn] "netboot-wf" (preparing netboot)
      (cluster {[ ("tink", "netboot-wf") := demo_job [] ]} (preparing netboot)) = (r, None, wf', w') ∧
    js_UID (job_status (wf_Status wf') "netboot-wf") = "uid-7" ∧
    ∀ actions' w2, ∃ r' e' wf'' w'' t,
      handleJob (KC := logged Mem_client) actions' "netboot-wf" wf' (w2, []) =
        (r', e', wf'', (w'', (WDeleteTasksOf "netboot-wf" "tink", t.1)
          :: match IgnoreNotFound t.1 with Some _ => [] | None => [(WDeleteJob "netboot-wf" "tink", t.2)] end)).
Proof.
  eapply (handleJob_first_job_deleted Mem_client [power_action PowerOn] "netboot-wf" (preparing netboot)
    (cluster {[ ("tink", "netboot-wf") := demo_job [] ]} (preparing netboot)) (demo_job []));
    [reflexivity|discriminate|vm_compute; reflexivity|reflexivity].
Defined.

(** The job of [preparing netboot] is recorded and cleaned up. *)
Definition tracked : Workflow :=
  upd_Status (set_job_status "netboot-wf" (mkJobStatus "uid-7" false true)) (preparing netboot).
Definition completed_cluster : Mem :=
  cluster {[ ("tink", "netboot-wf") := demo_job [mkJobCondition JobCompleted ConditionTrue ""] ]} tracked.

Lemma handleJob_complete_witness :
  ∃ rj w1,
    kc_GetJob (KubeClient := Mem_client) "netboot-wf" "tink" completed_cluster = (inr rj, w1) ∧
    Job_HasCondition rj JobCompleted ConditionTrue = true ∧
    Job_HasCondition rj JobFailed ConditionTrue = false ∧
    js_UID (job_status (wf_Status tracked) "netboot-wf") ≠ "".
Proof.
  destruct (handleJob (KC := Mem_client) [power_action PowerOn] "netboot-wf" tracked completed_cluster)
    as [[[r e] wf'] w'] eqn:E.
  destruct (handleJob_complete Mem_client [power_action PowerOn] "netboot-wf" tracked completed_cluster r e wf' w')
    as (rj & w1 & H1 & H2 & H3 & H4 & _); [exact E|reflexivity| |exists rj, w1; exact (conj H1 (conj H2 (conj H3 H4)))].
  replace wf' with (handleJob (KC := Mem_client) [power_action PowerOn] "netboot-wf" tracked completed_cluster).1.2
    by (rewrite E; reflexivity).
  vm_compute; reflexivity.
Defined.

Abbreviation reconcile := (Reconcile (KC := Mem_client) default_ReferenceRules map_to_list "wf" "tink").
Abbreviation reconcile_logged := (Reconcile (KC := logged Mem_client) default_ReferenceRules map_to_list "wf" "tink").

Lemma Reconcile_noop_witness : reconcile (cluster ∅ demo_fresh) = (zero_Result, None, cluster ∅ demo_fresh).
Proof.
  eapply (Reconcile_noop Mem_client default_ReferenceRules map_to_list "wf" "tink" (cluster ∅ demo_fresh) demo_fresh);
    [vm_compute; reflexivity|right; left].
Defined.

Definition disabled_wf : Workflow := mkWorkflow (meta "wf") (spec_with zero_BootOptions (Some true)) zero_WorkflowStatus.

Lemma Reconcile_disabled_witness :
  ∃ e w' es, reconcile_logged (cluster ∅ disabled_wf, []) = (zero_Result, e, (w', es)) ∧
    (es = [] ∨ ∃ a res, es = [(WPatchStatus disabled_wf (upd_Status (set_AgentID a) disabled_wf), res)]).
Proof.
  eapply (Reconcile_disabled Mem_client default_ReferenceRules map_to_list "wf" "tink" (cluster ∅ disabled_wf) []);
    [vm_compute; reflexivity|reflexivity..].
Defined.

(** Running, with a deadline at the instant 500; the cluster's clock says 1000. *)
Definition late : Workflow :=
  wf_of netboot (set_GlobalExecutionStop (Some 500%Z)
    (demo_status WorkflowStateRunning (cur "t1" "a1" "RUNNING") (demo_tasks "RUNNING" "PENDING" "PENDING"))).

Lemma Reconcile_timeout_witness :
  ∃ e w' es, reconcile_logged (cluster ∅ late, []) = (zero_Result, e, (w', es)) ∧
    ∃ r, es = [(WPatchStatus late (upd_Status (set_State WorkflowStateTimeout) late), r)].
Proof.
  destruct (Reconcile_timeout Mem_client default_ReferenceRules map_to_list "wf" "tink" (cluster ∅ late) []
    late (cluster ∅ late) 500 1000 (tick (cluster ∅ late))) as (e & w' & es & E & H);
    [vm_compute; reflexivity|reflexivity|reflexivity|reflexivity|vm_compute; reflexivity|].
  exists e, w', es. split; [exact E|exact H].
Defined.

(** Running, the first action past and without a start time: no deadline. *)
Definition overdue : Workflow :=
  wf_of netboot (demo_status WorkflowStateRunning (cur "t1" "a2" "RUNNING") (demo_tasks "SUCCESS" "RUNNING" "PENDING")).

Lemma Reconcile_timeout_missed_witness :
  ∃ e w' es, reconcile_logged (cluster ∅ overdue, []) = (zero_Result, e, (w', es)) ∧
    Forall (λ en, ∃ u, en.1 = WPatchStatus overdue u ∧ st_GlobalExecutionStop (wf_Status u) = None ∧
                       st_State (wf_Status u) = WorkflowStateRunning) es.
Proof.
  eapply (Reconcile_timeout_missed Mem_client default_ReferenceRules map_to_list "wf" "tink" (cluster ∅ overdue) []
    overdue (cluster ∅ overdue) (act "a1" "stream" "SUCCESS" None));
    [vm_compute; reflexivity|reflexivity|reflexivity|reflexivity|reflexivity|reflexivity|left; discriminate].
Defined.

Lemma Reconcile_customboot_stuck_witness :
  reconcile_logged (cluster ∅ (preparing customboot), []) = (zero_Result, None, (cluster ∅ (preparing customboot), [])).
Proof.
  eapply (Reconcile_customboot_stuck Mem_client default_ReferenceRules map_to_list "wf" "tink"
    (cluster ∅ (preparing customboot)) [] (preparing customboot) _ demo_hw);
    vm_compute; reflexivity.
Defined.

(** The recorded job completes and the workflow becomes pending. *)
Lemma prepareWorkflow_pending_witness :
  ∃ wf' w', prepareWorkflow (KC := Mem_client) tracked completed_cluster = (zero_Result, None, wf', w') ∧
    js_Complete (job_status (wf_Status wf') "netboot-wf") = true.
Proof.
  destruct (prepareWorkflow (KC := Mem_client) tracked completed_cluster) as [[[r e] wf'] w'] eqn:E.
  assert (st_State (wf_Status wf') = WorkflowStatePending ∧ r = zero_Result) as [Hs ->].
  { pose proof (f_equal (λ x, (x.1.1.1, st_State (wf_Status x.1.2))) E) as H. simpl in H.
    assert ((λ x, (x.1.1.1, st_State (wf_Status x.1.2))) (prepareWorkflow (KC := Mem_client) tracked completed_cluster)
      = (zero_Result, WorkflowStatePending)) as H' by (vm_compute; reflexivity).
    cbv beta in H'. rewrite H in H'. split; congruence. }
  destruct (prepareWorkflow_pending Mem_client tracked completed_cluster zero_Result e wf' w' eq_refl E Hs)
    as (-> & _ & Hj). exists wf', w'. split; [reflexivity|]. apply Hj. reflexivity.
Defined.

Definition demo_ref : Reference := mkReference "tink" "vlan" "example.org" "v1" "vlans".

Lemma process_references_permitted_witness :
  (∀ n v, (∅ : gmap string (@json Toy)) !! n = Some v → ∃ rf w1 r err w2,
     (n, rf) ∈ [("net", demo_ref)] ∧ permitted (TE := Toy) (mkReferenceRules [] []) demo_hw rf ∧
     kc_DynamicRead (KubeClient := Mem_client) rf w1 = (r, err, w2) ∧ v = default json_nil r) ∧
  (Some not_found = None → ∀ n rf, (n, rf) ∈ [("net", demo_ref)] →
     permitted (TE := Toy) (mkReferenceRules [] []) demo_hw rf ∧ is_Some ((∅ : gmap string (@json Toy)) !! n)).
Proof.
  apply (process_references_permitted Mem_client (mkReferenceRules [] []) demo_hw [("net", demo_ref)]
    (cluster ∅ late) ∅ (Some not_found) (cluster ∅ late)).
  vm_compute; reflexivity.
Defined.

Lemma default_rules_deny_witness :
  ∃ e, process_references (KC := Mem_client) (NewReconciler []) demo_hw [("net", demo_ref)] ∅ None (cluster ∅ late)
       = (∅, e, cluster ∅ late) ∧ (e = None ↔ [("net", demo_ref)] = []).
Proof.
  apply (default_rules_deny Mem_client); [reflexivity|reflexivity|].
  intros rf. eexists _, _, []. split; reflexivity.
Defined.

Lemma execution_stop_bounds_witness : execution_stop 1000 400 3600 = 3600000001600%Z.
Proof. rewrite execution_stop_bounds by lia. reflexivity. Defined.

(** ** Addresses, durations and names *)

Definition demo_attributes : AgentAttributes :=
  mkAgentAttributes None None
    [mkdata_Block (Some "sda") None None (Some "10GB") None None None None None;
     mkdata_Block None None None None None None None None None]
    [mkdata_Network (Some "eth0") (Some (HardwareAddr_String [0; 37; 144; 255; 10; 1]%Z)) None []] [] [] None None None None.

Lemma updateHardware_discovers_witness :
  ∃ hw', updateHardware demo_hw (Some demo_attributes) = Some hw' ∧ hs_Disks (hw_Spec hw') = [mkDisk "/dev/sda"] ∧
    ((λ i, d ← if_DHCP i; Some (dhcp_MAC d)) <$> hs_Interfaces (hw_Spec hw')) = [Some ""; Some "00:25:90:ff:0a:01"].
Proof.
  destruct (updateHardware_discovers demo_hw demo_attributes) as (hw' & H & _ & _ & _ & Hi & Hd).
  - split.
    + apply Forall_singleton. exists [0; 37; 144; 255; 10; 1]%Z. split; [repeat constructor; lia|].
      split; [by left|reflexivity].
    + repeat constructor; [intros _; by exists "sda"|intros []].
  - exists hw'. split; [exact H|]. split; [rewrite Hd; vm_compute; reflexivity|rewrite Hi; vm_compute; reflexivity].
Defined.

Lemma makeValidName_valid_witness : valid_label "discovery-a-b".
Proof. apply (makeValidName_valid " A_b" "discovery-"); vm_compute; reflexivity. Defined.

Lemma makeValidName_fixed_witness : makeValidName "discovery-a-b" "" = inr "discovery-a-b".
Proof. apply makeValidName_fixed, (makeValidName_label " A_b" "discovery-"). vm_compute; reflexivity. Defined.

Lemma humanDuration_spec_witness : humanDuration 90000000001 2 = "1m30s".
Proof.
  destruct (humanDuration_spec 90000000001 2) as (E & _); [lia|]. rewrite E. vm_compute; reflexivity.
Defined.

(** ** The workflow service *)

Definition hello : ActionRequest := mkActionRequest "agent-1" None.

Lemma GetAction_served_witness :
  ∃ r w', GetAction plain hello demo_fresh = (Some (inr r), w') ∧ served "agent-1" r.
Proof.
  destruct (GetAction plain hello demo_fresh) as [[[err|r]|] w'] eqn:E; [vm_compute in E; discriminate| |vm_compute in E; discriminate].
  exists r, w'. split; [reflexivity|]. apply (GetAction_served plain hello demo_fresh r w'); [|exact E].
  intros A op w a w1 H. exists w. exact H.
Defined.

Definition done_a1 : ActionStatusRequest :=
  mkActionStatusRequest "tink/wf" "agent-1" "t1" "a1" "stream" ST_SUCCESS (Some 5%Z) (Some 9%Z) "4ns" "".


(** ** The agent *)


Lemma environment_received_witness :
  mkEnv "DEST_DISK" "/dev/sda" ∈
    sa_Env (action_of_response (response "agent-1" demo_fresh
      (mkTask "t1" "install" "agent-1" [] [] {[ "DEST_DISK" := "/dev/sda" ]})
      (act "a1" "stream" WorkflowStatePending None))).
Proof.
  apply environment_received.
  - intros k v H. apply lookup_union_Some_raw in H as [H|[_ H]]; [discriminate|].
    simpl in H; apply lookup_singleton_Some in H as [<- _]. vm_compute. intros H.
    repeat (apply elem_of_cons in H as [H|H]; [discriminate|]). inversion H.
  - vm_compute; reflexivity.
Defined.

(** ** The whole *)

Lemma demo_fresh_ok : fresh (wf_Status demo_fresh).
Proof.
  split; [|split; [|split; [reflexivity|right; reflexivity]]].
  - apply (bool_decide_unpack _). vm_compute. exact I.
  - repeat constructor.
Qed.

(** [demo_fresh] after the first action is served. *)
Definition served_once : Workflow := (doGetAction_noauto plain hello demo_fresh).2.



Definition only_task : Task := mkTask "t1" "install" "agent-1" [act "a1" "stream" "PENDING" None] [] ∅.
Definition empty_task : Task := mkTask "t2" "none" "agent-1" [] [] ∅.
Definition empty_end : Workflow :=
  wf_of zero_BootOptions (demo_status WorkflowStatePending None [only_task; empty_task]).
Definition empty_served : Workflow := (doGetAction_noauto plain hello empty_end).2.

Lemma empty_last_task_never_done_witness :
  st_State (wf_Status empty_served) ∉ [WorkflowStatePost; WorkflowStateSuccess].
Proof.
  apply (empty_last_task_never_done empty_end empty_served [only_task] empty_task); [|reflexivity|reflexivity|].
  - split; [|split; [|split; [reflexivity|right; reflexivity]]].
    + apply (bool_decide_unpack _). vm_compute. exact I.
    + repeat constructor.
  - apply rtc_once.
    destruct (doGetAction_noauto plain hello empty_end) as [[[err|r]|] w'] eqn:E;
      [vm_compute in E; discriminate| |vm_compute in E; discriminate].
    unfold empty_served. rewrite E. eapply step_get. exact E.
Defined.

(** ** Rufio *)

Lemma Job_Reconcile_writes_witness :
  (Job_Reconcile (RC := rlogged Cell_rufio) "netboot-wf" "tink" (demo_cell, [])).2.2 ≠ [] ∧
  ∃ j tasks es, job_open j ∧ job_writes j tasks es ∧
    (Job_Reconcile (RC := rlogged Cell_rufio) "netboot-wf" "tink" (demo_cell, [])).2.2 = es.
Proof.
  destruct (Job_Reconcile (RC := rlogged Cell_rufio) "netboot-wf" "tink" (demo_cell, [])) as [r [w' l']] eqn:E.
  assert (l' ≠ []) as Hne by (vm_compute in E; intros ->; discriminate). split; [exact Hne|].
  destruct (Job_Reconcile_writes Cell_rufio "netboot-wf" "tink" demo_cell [] r w' l' E)
    as [->|(j & w1 & tasks & w2 & w3 & es & _ & Ho & _ & Hw & ->)]; [contradiction|].
  exists j, tasks, es. split; [exact Ho|split; [exact Hw|reflexivity]].
Defined.

(** The store with the first Task created. *)
Definition cell_1 : BmcCell string := (Job_Reconcile (RC := Cell_rufio) "netboot-wf" "tink" demo_cell).2.


Lemma demo_cell_new : new_job demo_cell.
Proof. repeat split. Qed.

Lemma job_commands_in_order_witness : ∃ k, bc_sent cell_1 = commands (take k demo_actions).
Proof.
  destruct (job_commands_in_order demo_cell cell_1 demo_cell_new) as ((k & _ & Hk) & _).
  - apply rtc_once. apply (BS_job demo_cell).
  - exists k. exact Hk.
Defined.

(** The power state follows the commands at once, and the clock stands still. *)
Definition obeyed (a : bmc_Action) (t : Z) (power : string) : Prop :=
  t = 0%Z ∧ ∀ s, power_goal a = Some s → toPowerState power = s.

Lemma demo_cooperative : cooperative obeyed.
Proof.
  split; try done.
  - intros n ns b. by exists demo_machine.
  - intros n ns b. by eexists _, "admin", "secret".
  - intros a c b Hc. eexists. split; [done|]. split; [done|].
    unfold command_of, power_goal in *. repeat case_match; simplify_eq/=; try done; repeat case_decide; try naive_solver.
  - intros a t b [-> H]. split; [done|]. by split.
  - intros a t b [-> H]. by exists b.
Qed.


(** ** A timeout is not final

    A late report of the agent takes a timed-out workflow to POST: the handler
    does not look at the state it finds. *)

Definition timed_out : Workflow :=
  wf_of zero_BootOptions (demo_status WorkflowStateTimeout (cur "t1" "a1" "RUNNING")
    [mkTask "t1" "install" "agent-1" [act "a1" "stream" "RUNNING" (Some 5%Z)] [] ∅]).

Example late_report_reopens :
  (doReportActionStatus done_a1 timed_out).1 = Some (inr tt) ∧
  st_State (wf_Status (doReportActionStatus done_a1 timed_out).2) = WorkflowStatePost.
Proof. vm_compute. split; reflexivity. Qed.
