(* ===== verification/WitnessesNet.v ===== *)
(** * The theorems of Smee and of the backends applied

    Every theorem that has hypotheses, applied to the concrete network of
    [DemoNet]. *)
From S2P Require Import Prelude GoStrings GoNet GoNetip BmcTypes Api Dhcp DhcpConv DhcpHandler Server Backends DhcpStore GoPath StaticRoute Tootles IpxeScript BootChain GoHttp ReverseProxy Iso IpxeBinary Syslog SyslogRun Demo DemoNet.

Lemma octets_a : Forall octet mac_a.
Proof. repeat constructor; done. Qed.
Lemma octets_b : Forall octet mac_b.
Proof. repeat constructor; done. Qed.

Lemma macAddrFormat_identifies_witness :
  ParseMAC (macAddrFormat mac_a MacAddrFormatDash) = Some mac_a ∧
  (macAddrFormat mac_a MacAddrFormatDash = macAddrFormat mac_b MacAddrFormatDash → mac_a = mac_b).
Proof.
  destruct (macAddrFormat_identifies MacAddrFormatDash mac_a mac_b) as [H1 H2];
    [discriminate|exact octets_a|exact octets_b|left; reflexivity|left; reflexivity|].
  split; [apply H1; discriminate|exact H2].
Defined.

Lemma reservation_sound_witness :
  ∃ d, toDHCPData (Some (dhcp_of "00:01:02:03:04:05" "192.168.1.10" "node-a")) = inr d ∧ reservation_wf d ∧
    ∃ b, sd_BroadcastAddress d = Addr4 b ∧ zip_with Z.lor b (sd_SubnetMask d) = replicate 4 255%Z.
Proof.
  destruct (toDHCPData (Some (dhcp_of "00:01:02:03:04:05" "192.168.1.10" "node-a"))) as [e|d] eqn:E;
    [vm_compute in E; discriminate|].
  destruct (reservation_sound _ d E) as [H1 H2].
  destruct (H2 [192; 168; 1; 10]%Z) as (b & H3 & _ & _ & H4); [vm_compute in E; injection E as <-; reflexivity|].
  exists d. split; [reflexivity|]. split; [exact H1|]. exists b. split; [exact H3|exact H4].
Defined.

Lemma ConvertByMac_owner_witness :
  ∃ r i d, ConvertByMac mac_a (Some hw_a) = inr r ∧ i ∈ hs_Interfaces (hw_Spec hw_a) ∧ has_mac "00:01:02:03:04:05" i ∧
    sh_DHCP r = Some d ∧ sd_MACAddress d = mac_a.
Proof.
  destruct (ConvertByMac mac_a (Some hw_a)) as [e|r] eqn:E; [vm_compute in E; discriminate|].
  destruct (ConvertByMac_owner mac_a hw_a r) as (i & d & n & H1 & H2 & H3 & _ & H4 & _);
    [exact octets_a|left; reflexivity|exact E|].
  exists r, i, d. split; [reflexivity|]. split; [exact H1|]. split; [exact H2|]. split; [exact H3|exact H4].
Defined.

(** ** Handlers *)

Definition discover_outcome : outcome :=
  (reservation_Handle demo_reservations demo_span true (demo_packet MessageTypeDiscover) demo_watcher).1.


(** The machine may not netboot. *)
Definition demo_no_netboot : smee_Netboot :=
  mksmee_Netboot false None "" "" "" "" (mksmee_OSIE None "" "" []) (mksmee_PXELINUX "") (mksmee_RPI "" "" "").

Lemma pxe_packet_client : netboot_client (pxe_packet MessageTypeDiscover).
Proof. apply IsNetbootClient_spec. vm_compute. reflexivity. Qed.

Lemma reservation_boot_witness :
  ∃ d, toDHCPData (Some (dhcp_of "00:01:02:03:04:05" "192.168.1.10" "node-a")) = inr d ∧
    pk_BootFileName (updateMsg demo_reservations demo_span (pxe_packet MessageTypeDiscover) d demo_no_netboot MessageTypeOffer)
      = "/netboot-not-allowed".
Proof.
  destruct (toDHCPData (Some (dhcp_of "00:01:02:03:04:05" "192.168.1.10" "node-a"))) as [e|d] eqn:E;
    [vm_compute in E; discriminate|].
  exists d. split; [reflexivity|].
  destruct (reservation_boot demo_reservations demo_span (pxe_packet MessageTypeDiscover) d demo_no_netboot MessageTypeOffer)
    as (_ & H & _).
  apply H; [|intros [? _]; discriminate]. split; [reflexivity|]. split; [exact pxe_packet_client|].
  vm_compute in E. injection E as <-. split; reflexivity.
Defined.

Lemma proxy_reply_safe_witness :
  ∃ reply dst, proxy_Handle demo_proxy true (demo_packet MessageTypeRequest) demo_watcher = (Sent reply 2 dst, demo_watcher) ∧
    IP_IsUnspecified (pk_YourIPAddr reply) = true ∧ pk_OpCode reply = OpcodeBootReply.
Proof.
  destruct (proxy_Handle demo_proxy true (demo_packet MessageTypeRequest) demo_watcher) as [[why| |reply ix dst] w'] eqn:E;
    [vm_compute in E; discriminate..|].
  destruct (proxy_reply_safe demo_proxy true (demo_packet MessageTypeRequest) demo_watcher reply ix dst w' E)
    as (pkt & peer & hw & _ & _ & _ & _ & _ & _ & H1 & _ & H2 & _).
  exists reply, dst. split; [|split; [exact H2|exact H1]].
  assert (ix = 2%Z ∧ w' = demo_watcher) as [-> ->] by (vm_compute in E; injection E; intros; subst; split; reflexivity).
  reflexivity.
Defined.

(** ** Backends *)

Lemma demo_file_ok : file_ok demo_watcher.
Proof. exists [hw_a; hw_b]. split; [reflexivity|]. repeat constructor; reflexivity. Qed.


Lemma reservation_refines_witness :
  ∃ reply, reservation_Handle demo_reservations demo_span true (demo_packet MessageTypeDiscover) demo_watcher
      = (Sent reply 2 demo_peer, demo_watcher) ∧
    pk_YourIPAddr reply = [192; 168; 1; 10]%Z.
Proof.
  pose proof (reservation_refines demo_reservations demo_span (demo_packet MessageTypeDiscover) (pxe_packet MessageTypeDiscover)
    demo_peer MessageTypeOffer demo_watcher demo_file_ok eq_refl eq_refl octets_a ltac:(discriminate)) as H.
  destruct (assigned (hl_objects demo_watcher) (pk_ClientHWAddr (pxe_packet MessageTypeDiscover))) as [[d n]|] eqn:E;
    [|vm_compute in E; discriminate].
  destruct H as (reply & H1 & H2 & _). exists reply. split; [exact H1|].
  rewrite H2. vm_compute in E. injection E as <- _. reflexivity.
Defined.

Lemma reservations_unique_witness :
  ∃ d n d' n', assigned [hw_a; hw_b] mac_a = Some (d, n) ∧ assigned [hw_a; hw_b] mac_b = Some (d', n') ∧
    sd_IPAddress d ≠ sd_IPAddress d'.
Proof.
  destruct (assigned [hw_a; hw_b] mac_a) as [[d n]|] eqn:E; [|vm_compute in E; discriminate].
  destruct (assigned [hw_a; hw_b] mac_b) as [[d' n']|] eqn:E'; [|vm_compute in E'; discriminate].
  exists d, n, d', n'. split; [reflexivity|]. split; [reflexivity|]. intros Heq.
  assert (mac_a = mac_b) as Hm; [|discriminate].
  apply (reservations_unique [hw_a; hw_b] mac_a mac_b d n d' n');
    [|exact octets_a|exact octets_b|left; reflexivity|left; reflexivity|exact E|exact E'|exact Heq|].
  - replace (all_addresses [hw_a; hw_b]) with [Addr4 [192; 168; 1; 10]%Z; Addr4 [192; 168; 1; 11]%Z] by (vm_compute; reflexivity).
    apply (bool_decide_unpack _). vm_compute. exact I.
  - vm_compute in E. injection E as <- _. discriminate.
Defined.

(** ** Syslog *)

#[export] Instance Toy_syslog : SyslogTime := {|
  st_Year _ := 2026%Z;
  st_AddYears t years := (t + years)%Z;
  st_ParseStamp _ := None;
  st_ParseRFC b := if decide (b = bytes_of "2026-01-02T15:04:05Z") then Some 77%Z else None;
  st_FormatPrefix _ := bytes_of "2026-01-02 15:04:05 ";
|}.

Definition demo_quote (b : list ascii) : string := "'" +:+ of_bytes b +:+ "'".

(** A message of the pool into which a machine's boot message was read. *)
Definition demo_used : message := with_buf (received (bytes_of "<133>dracut[12]: boot done") fresh) fresh.

Lemma demo_used_pooled : pooled demo_used.
Proof. split; [reflexivity|]. exact (received_length _ _ fresh_pooled). Qed.

Lemma syslog_pool_witness :
  ∃ e m', runParser (λ _, false) demo_quote (receive (bytes_of "<13>a: b") 6 [10; 0; 0; 2]%Z demo_used) = Some (e, m') ∧ pooled m' ∧
    fst <$> runParser (λ _, false) demo_quote (receive (bytes_of "<13>a: b") 6 [10; 0; 0; 2]%Z fresh) = Some e.
Proof.
  pose proof (syslog_pool (λ _, false) demo_quote (bytes_of "<13>a: b") 6 [10; 0; 0; 2]%Z demo_used demo_used_pooled) as H.
  destruct (runParser _ _ (receive _ _ _ demo_used)) as [[e m']|] eqn:E; [|destruct H as [[_ Hl] _]; vm_compute in Hl; lia].
  exists e, m'. exact (conj eq_refl H).
Defined.

(** Three bytes crash the receiver when the fourth byte of the buffer is a
    bracket or the fifth, after a digit. *)
Example syslog_crash : runParser (λ _, false) demo_quote (receive (bytes_of "<99") 6 [10; 0; 0; 2]%Z demo_used) = None.
Proof. vm_compute. reflexivity. Qed.

Lemma syslog_roundtrip_witness :
  ∃ m', sm_parse (receive (syslog_line 165 (bytes_of "2026-01-02T15:04:05Z") (bytes_of "host") (bytes_of "app") (bytes_of "-")
      (bytes_of "id") (bytes_of "some text")) 6 [10; 0; 0; 2]%Z demo_used) = Some (true, m') ∧
    sm_time m' = 77%Z ∧ sm_procid m' = None ∧ sm_msg m' = Some (bytes_of "some text").
Proof.
  destruct (syslog_roundtrip 165 (bytes_of "2026-01-02T15:04:05Z") 77 (bytes_of "host") (bytes_of "app") (bytes_of "-")
    (bytes_of "id") (bytes_of "some text") 6 [10; 0; 0; 2]%Z demo_used) as (m' & E & _ & Et & _ & _ & _ & Ep & _ & Em).
  - lia.
  - by_decide.
  - right. split; [discriminate|]. split; [apply (bool_decide_unpack _); vm_compute; exact I|reflexivity].
  - apply Nat.leb_le. vm_compute. reflexivity.
  - exists m'. split; [exact E|]. split; [exact Et|]. split; [exact Ep|exact Em].
Defined.

(** ** Metadata *)


(** ** Boot scripts and files *)

Definition toy_scheme (u : @URL Toy_url) : string := if HasPrefix u "http:" then "http" else "".

Definition demo_scripts : ScriptHandler :=
  mkScriptHandler "http://192.168.1.1/hook" ["debug=1"] "192.168.1.1" false false "192.168.1.1:42113" 3 5 false "" "".

Lemma boot_script_of_machine_witness :
  ∃ i resp, boot_info (hl_objects demo_watcher) mac_a = Some i ∧
    script_Handle toy_scheme demo_scripts "" "/00:01:02:03:04:05/auto.ipxe" "10.9.9.9:1" demo_watcher = (resp, demo_watcher) ∧
    hr_Code resp = 200%Z ∧ machine_script toy_scheme demo_scripts "" i (hr_Body resp).
Proof.
  destruct (boot_script_of_machine toy_scheme demo_scripts "" [] "10.9.9.9:1" mac_a demo_watcher) as (resp & E & H);
    [exact demo_file_ok|exact octets_a|left; reflexivity|constructor|].
  destruct (boot_info (hl_objects demo_watcher) mac_a) as [i|] eqn:Ei; [|vm_compute in Ei; discriminate].
  exists i, resp. split; [reflexivity|]. split; [exact E|].
  destruct H as [H _]. destruct H as [H|[_ H]].
  - vm_compute in Ei. injection Ei as <-. reflexivity.
  - exact H.
  - exfalso. destruct H as [H|H]; apply H; vm_compute in Ei; injection Ei as <-; reflexivity.
Defined.

Definition Toy_files : FileServer Watcher := {|
  fs_open dir name w := (inl (ErrNew "no such file"), w);
  fs_send b w := (None, w);
  fs_TraceID_ok b := bool_decide (b ≠ replicate 32 "0"%char);
  fs_SpanID_ok b := bool_decide (b ≠ replicate 16 "0"%char);
|}.

Lemma traceparent_stripped_witness :
  extractTraceparentFromFilename (H1 := Toy_files)
    ("ipxe.efi" +:+ "-" +:+ of_bytes (traceparent (bytes_of "00") (replicate 32 "a"%char) (replicate 16 "b"%char) (bytes_of "01")))
  = "ipxe.efi".
Proof.
  apply (traceparent_stripped (H := Toy_files));
    [by_decide|split; reflexivity|split; reflexivity|split; reflexivity|split; reflexivity|reflexivity|reflexivity].
Defined.

(** ** The receiver of the system log: two datagrams, the second read into the message of
    the first *)

Definition boot_datagram : datagram := mkdatagram (bytes_of "<133>dracut[12]: boot done") 6 [10; 0; 0; 2]%Z.
Definition next_datagram : datagram := mkdatagram (bytes_of "<13>a: b") 7 [10; 0; 0; 3]%Z.

(** The second datagram is in the channel when the context is cancelled. *)
Definition receiver_events : list revent :=
  [EGet None; ERead boot_datagram; ESend; ETake 0; EParse 0; EGet (Some 0); ERead next_datagram; ESend; ECancel].
Definition receiver_end : list revent := [EGet None; EReadErr (ErrNew "closed") true; EClose; ETake 0; EParse 0; EEnd 0; EWaited; EDefer].

Abbreviation demo_json := (λ _ : list ascii, false).
Abbreviation receiver_run es := (rsteps demo_json demo_quote es (StartReceiver 1)).

Definition ran (P : Receiver → bool) (o : option Receiver) : bool := match o with Some s => P s | None => false end.

Lemma demo_logged : ran (λ s, bool_decide (rc_done s = true ∧ (rc_logged s).*1 = [boot_datagram; next_datagram])) (receiver_run (receiver_events ++ receiver_end)) = true.
Proof. vm_compute. reflexivity. Qed.
Lemma demo_cancelled :
  ran (λ s, rc_cancelled s && ran (λ _, true) (rsteps demo_json demo_quote receiver_end s)) (receiver_run receiver_events) = true.
Proof. vm_compute. reflexivity. Qed.

Lemma receiver_complete_witness :
  ∃ s, receiver_run (receiver_events ++ receiver_end) = Some s ∧ rc_done s = true ∧ (rc_logged s).*1 = [boot_datagram; next_datagram] ∧
    rc_sent s = (rc_logged s).*1 ∧ NoDup (claims s).*1.
Proof.
  pose proof demo_logged as H. destruct (receiver_run (receiver_events ++ receiver_end)) as [s|] eqn:E; [|discriminate H].
  apply bool_decide_eq_true_1 in H as [H3 H4]. exists s. split; [reflexivity|]. split; [exact H3|]. split; [exact H4|].
  destruct (receiver_complete demo_json demo_quote 1 s (rsteps_reach demo_json demo_quote 1 _ _ _ (rreach_start demo_json demo_quote 1) E)) as (H1 & _ & _ & _ & _ & H2).
  split; [|exact H1]. apply H2; [exact H3|reflexivity].
Defined.

