(* ===== verification/WitnessesIso.v ===== *)
(** * ISO images applied

    A URL as the struct it is, a source with one image, and the Hardware of
    [DemoNet] in a file. *)
From S2P Require Import Prelude GoStrings GoNet GoNetip BmcTypes Api Dhcp DhcpConv DhcpHandler Server Backends DhcpStore GoPath StaticRoute Tootles IpxeScript BootChain GoHttp HttpCommon ReverseProxy Iso IsoServe Demo DemoNet WitnessesNet.

(** Of a URL with a scheme: host, path and query. *)
Definition parse_parts (scheme rest : string) : UrlParts :=
  let '(addr, q, _) := Cut rest "?"%char in
  let '(host, path, slashed) := Cut addr "/"%char in
  mkUrlParts scheme host (if (slashed : bool) then "/" +:+ path else "") "" q.

Definition parse_url (s : string) : UrlParts :=
  if HasPrefix s "http://" then parse_parts "http" (of_bytes (drop 7 (bytes_of s)))
  else mkUrlParts "" "" s "" "".

Definition parts_url : GoUrl := {|
  URL := UrlParts;
  url_Parse s := inr (parse_url s);
  url_ParseRequestURI s := inr (parse_url s);
  url_make s h := mkUrlParts s h "" "" "";
  URL_String u := up_Scheme u +:+ "://" +:+ up_Host u +:+ up_Path u +:+ (if decide (up_RawQuery u = "") then "" else "?" +:+ up_RawQuery u);
  URL_Hostname u := up_Host u;
  URL_JoinPath u l := set_parts_Path (foldl (λ acc p, acc +:+ "/" +:+ p) (up_Path u) l) u;
|}.
#[export] Existing Instance parts_url | 0.

#[export] Instance parts_struct : UrlStruct := {|
  url_parts u := u;
  with_parts p _ := p;
  url_parts_with _ _ := eq_refl;
  url_parts_make _ _ := eq_refl;
|}.

Definition demo_image : Reader := ReadMore (bytes_of "image with ") (ReadEnd (bytes_of "MAGIC string") None).

#[export] Instance demo_http : IsoHttp Watcher := {|
  URL_IsAbs u := bool_decide (up_Scheme u ≠ "");
  URL_ResolveReference base r := r;
  api_IsNotFound e := match e with ErrNotFound _ => true | _ => false end;
  ht_RoundTrip req w :=
    ([], inr (mkResponse 200 {["Content-Length" := ["23"]; "Connection" := ["close"]]} 23 demo_image [] [] None false), w);
|}.

Definition demo_iso : iso_Patch :=
  mkiso_Patch (mkKernelParams [] "192.168.1.1" false "192.168.1.1:42113") "MAGIC" "http://source/images/hook.iso?key=1" false.
Definition demo_source : UrlParts := mkUrlParts "http" "source" "/images/hook.iso" "" "key=1".

(** A request for the image of machine a, through another proxy. *)
Definition demo_request : Request :=
  mkRequest "GET" (mkUrlParts "" "" "/iso/00:01:02:03:04:05/hook.iso" "" "") "tinkerbell" "192.168.1.10:4000" false
    {["Range" := ["bytes=0-"]; "X-Forwarded-For" := ["10.0.0.9"]; "Connection" := ["keep-alive"]]} 0 false false false (mkContext None true).

Definition no_tokens (l : list string) (t : string) : bool := bool_decide (t ∈ l).

#[local] Instance demo_backend : BackendReader (Watcher * list (Request * res Response) * Client) := client_backend file_Reader.
#[local] Instance demo_client_http : IsoHttp (Watcher * list (Request * res Response) * Client) := client_http demo_http.
#[local] Instance demo_env : ProxyEnv (Watcher * list (Request * res Response) * Client) := client_env no_tokens id (λ _, false).

Definition demo_serve : http_outcome * Header * (Watcher * list (Request * res Response) * Client) :=
  ServeHTTP (iso_proxy demo_iso demo_source) demo_request ∅ ((demo_watcher, []), fresh_client).

Example demo_source_eq : iso_source demo_iso = inr demo_source.
Proof. vm_compute. reflexivity. Qed.

(** What happened, as one test: the outcome, the exchanges with the source and the body. *)
Definition served_as (x : http_outcome * Header * (Watcher * list (Request * res Response) * Client)) : bool :=
  let '(o, _, ((_, us), c)) := x in
  match o with Returned => true | _ => false end && (length us =? 1)%nat &&
  forallb (λ sr, match sr.2 with inr r => negb (rs_StatusCode r =? 101)%Z | inl _ => true end) us && (length (cl_body c) =? 23)%nat.

Lemma demo_served : served_as demo_serve = true.
Proof. vm_compute. reflexivity. Qed.

(** The image machine a receives: one request was sent, without the headers that
    end at the proxy, and the image has its length. *)
Lemma iso_served_witness :
  ∃ o h' w' us c, demo_serve = (o, h', ((w', us), c)) ∧ length us = 1 ∧ length us ≤ 11 ∧
    ∃ patch w1, iso_machine file_Reader demo_iso "/iso/00:01:02:03:04:05/hook.iso" demo_watcher patch w1 ∧
      Forall (λ s, rq_Header s !! "X-Forwarded-For" = None ∧ rq_Header s !! "Range" = Some ["bytes=0-"]) us.*1 ∧
      length (cl_body c) = 23 ∧ o = Returned.
Proof.
  pose proof demo_served as Hd. destruct demo_serve as [[o h'] [[w' us] c]] eqn:E. exists o, h', w', us, c. split; [reflexivity|].
  unfold served_as in Hd. apply andb_true_iff in Hd as [[[Ho Hl%Nat.eqb_eq]%andb_true_iff H101]%andb_true_iff Hb%Nat.eqb_eq].
  destruct (iso_served file_Reader demo_http no_tokens id (λ _, false) demo_iso demo_source ["images"; "hook.iso"] ["iso"] mac_a "hook.iso" demo_request ∅ demo_watcher o h' w' us c)
    as (Hle & _ & Hs).
  1-4: vm_compute; reflexivity.
  - apply (bool_decide_unpack _). vm_compute. exact I.
  - exact octets_a.
  - left. reflexivity.
  - vm_compute. reflexivity.
  - exact E.
  - intros s r Hin E0. rewrite forallb_forall in H101. apply list_elem_of_In, H101 in Hin. simpl in Hin. rewrite E0 in Hin. discriminate Hin.
  - split; [exact Hl|]. split; [exact Hle|]. destruct Hs as (patch & w1 & Hm & HF & _); [intros E0; rewrite E0 in Hl; discriminate Hl|].
    exists patch, w1. split; [exact Hm|]. split.
    + eapply Forall_impl; [exact HF|]. intros s [_ Hh]. rewrite !Hh by (apply (bool_decide_unpack _); vm_compute; exact I).
      split; vm_compute; reflexivity.
    + split; [exact Hb|]. destruct o; [reflexivity|discriminate Ho].
Defined.

(** The parameters of the source of the configuration go to whatever source is
    asked: those of the source of a Hardware are not sent. *)
Example hardware_query_lost :
  retarget (mkUrlParts "http" "source" "/images/hook.iso/iso/00:01:02:03:04:05/hook.iso" "" "key=1") (parse_url "http://other/special.iso?token=2")
  = mkUrlParts "http" "other" "/special.iso" "" "key=1".
Proof. vm_compute. reflexivity. Qed.

(** A magic string read in two chunks is not found, and a long patch runs over
    the image. *)
Definition patched (src : Reader) (patch : string) : string := of_bytes (iso_Copy accept demo_iso (bytes_of patch) src []).2.

Example iso_magic_split :
  patched (ReadMore (bytes_of "..MAG") (ReadEnd (bytes_of "IC..") None)) "a=b" = "..MAGIC.." ∧
  patched (ReadEnd (bytes_of "..MAGIC..") None) "a=b" = "..a=b  .." ∧
  patched (ReadEnd (bytes_of "..MAGIC..data") None) "long=patch" = "..long=patcha".
Proof. vm_compute. done. Qed.

(** A source that breaks off within the image, without a length: the client is
    given the beginning as the whole. *)
#[local] Instance broken_http : IsoHttp Watcher := {|
  URL_IsAbs u := bool_decide (up_Scheme u ≠ "");
  URL_ResolveReference base r := r;
  api_IsNotFound e := match e with ErrNotFound _ => true | _ => false end;
  ht_RoundTrip req w := ([], inr (mkResponse 200 ∅ (-1) (ReadEnd (bytes_of "half an im") (Some (ErrNew "unexpected EOF"))) [] [] None false), w);
|}.
#[local] Instance broken_client_http : IsoHttp (Watcher * list (Request * res Response) * Client) := client_http broken_http.

Example truncated_image_returned :
  let '(o, _, (_, c)) := Recovery (ServeHTTP (iso_proxy (H2 := broken_client_http) demo_iso demo_source) demo_request) ∅ ((demo_watcher, []), fresh_client) in
  o = Returned ∧ of_bytes (cl_body c) = "half an im" ∧ (cl_status c).*1 = [200; 500]%Z.
Proof. vm_compute. done. Qed.
