(* ===== verification/WitnessesBmc.v ===== *)
(** * The theorems of the Machine reconciler applied

    One machine with its BMC and its Hardware in a small cluster, and the
    theorems of [MachineCtl] and [BmcClient] applied to it. *)
From S2P Require Import Prelude GoStrings BmcTypes InventoryTypes Api BmcApi WorkflowJob Rufio BmcJobs Float64 Inventory MachineCtl BmcClient Demo.

(** ** A cluster of one machine *)

Record MCluster := mkMCluster {
  mc_machine : Machine;
  mc_hardware : Hardware;
  mc_device : option c_Device;
  mc_power : string;
  mc_clock : Z;
}.

Definition no_such {A} (w : MCluster) : res A * MCluster := (inl (ErrNotFound "not found"), w).

#[export] Instance demo_rufio : RufioClient MCluster := {|
  rc_GetJob _ _ := no_such;
  rc_PatchJobStatus _ _ w := (None, w);
  rc_GetMachine _ _ w := (inr (mc_machine w), w);
  rc_ListTasks _ _ w := (inr [], w);
  rc_CreateTask _ w := (None, w);
  rc_GetTask _ _ := no_such;
  rc_PatchTaskStatus _ _ w := (None, w);
  rc_GetSecret _ _ w := (inr (<["username" := "admin"]> {[ "password" := "secret" ]}), w);
  rc_Now w := (mc_clock w, w);
  rc_Open _ _ _ _ w := (None, w);
  rc_Close w := w;
  rc_Command _ w := (true, None, w);
  rc_GetPowerState w := (inr (mc_power w), w);
|}.

(** A retry without waits. *)
Fixpoint retry_now {S} (op : S → option error * S) (n : nat) (s : S) : option error * S :=
  match n with
  | 0 => (Some (ErrNew "no attempts left"), s)
  | Datatypes.S n => match op s with (None, s) => (None, s) | (Some _, s) => retry_now op n s end
  end.

(** A patch of the Machine leaves its status, a patch of the status all else. *)
#[export] Instance demo_inventory : InventoryClient MCluster := {|
  ic_ListHardware _ _ w := (inr [mc_hardware w], w);
  ic_ApplyOutOfBand _ _ a w :=
    (None, mkMCluster (mc_machine w) (set_OutOfBand a (mc_hardware w)) (mc_device w) (mc_power w) (mc_clock w));
  ic_PatchMachine _ u w :=
    let m := mkMachine (m_Meta u) (m_Connection u) (m_Status (mc_machine w)) in
    (inr m, mkMCluster m (mc_hardware w) (mc_device w) (mc_power w) (mc_clock w));
  ic_PatchMachineStatus _ u w :=
    (None, mkMCluster (mkMachine (m_Meta (mc_machine w)) (m_Connection (mc_machine w)) (m_Status u)) (mc_hardware w)
       (mc_device w) (mc_power w) (mc_clock w));
  ic_Inventory w := (inr (mc_device w), w);
  ic_SuccessfulProvider w := ("redfish", w);
  ic_Eventf _ _ _ w := w;
  ic_Retry S n op s := retry_now op n s;
|}.

#[export] Instance demo_retry : RetryLaw MCluster.
Proof.
  intros S n op. induction n as [|n IH]; intros s e s'; simpl; [intros [= <- <-]; constructor|].
  destruct (op s) as [[err|] s1] eqn:E.
  - intros Hr. eapply upto_again; [exact E|by apply IH].
  - intros [= <- <-]. by apply upto_ok.
Qed.

#[export] Instance demo_safecast : Safecast := {|
  Convert_uint32 z := if decide (0 ≤ z < 2 ^ 32)%Z then (z, None) else (0%Z, Some (ErrNew "range"));
  Convert_int32 z := if decide (- 2 ^ 31 ≤ z < 2 ^ 31)%Z then (z, None) else (0%Z, Some (ErrNew "range"));
|}.

Definition zero_c_Common : c_Common := mkc_Common "" "" "" "" "" None None.
Definition demo_cpu (id : string) : c_CPU := mkc_CPU zero_c_Common id "" 8 16 3000000000 ("&{" +:+ id +:+ "}").
Definition device_of (cpus : list (option c_CPU)) : c_Device :=
  mkc_Device zero_c_Common None None None cpus [] [] [] [] [] [] [].
Definition demo_device : c_Device := device_of [Some (demo_cpu "CPU.2"); Some (demo_cpu "CPU.1")].
Definition demo_device' : c_Device := device_of [Some (demo_cpu "CPU.1"); Some (demo_cpu "CPU.2")].

(** Attributes collected at the instant 0. *)
Definition demo_attributes : inv_Attributes :=
  default (bare_Attributes None "") (attributesFromDevice (sortDevice (Some demo_device')) "redfish" (Some 0%Z)).

Definition collected_hw : Hardware := set_OutOfBand demo_attributes demo_hw.

(** Off at the last reconciliation, which is in the status; now on. *)
Definition demo_off (annotations : gmap string string) : Machine :=
  mkMachine (mkObjectMeta "" "" "bmc" "tink" "" ∅ annotations [] None) zero_Connection
    (mkMachineStatus Off [mkMachineCondition Contactable ConditionTrue 0 ""]).

Definition demo_now : Z := (30 * time_Hour)%Z.
Definition mcluster (annotations : gmap string string) : MCluster :=
  mkMCluster (demo_off annotations) collected_hw (Some demo_device) "on" demo_now.

Definition demo_mr : MachineReconciler := NewMachineReconciler 0 0 true.

(** ** The theorems *)


Abbreviation reconcile_machine := (Machine_Reconcile (W := MCluster * list mach_event) (H := mlogged_rufio demo_rufio)
  (H0 := mlogged demo_inventory) demo_mr "bmc" "tink").

Lemma Machine_Reconcile_events_witness :
  ∃ u, mst_Power (m_Status u) = On ∧ Machine_HasCondition u Contactable ConditionTrue = true ∧
    (reconcile_machine (mcluster ∅, [])).2.2 =
      [MOpen None; MPower (inr "on"); MInventory (inr (Some demo_device)); MPatchStatus (demo_off ∅) u None; MClose].
Proof.
  destruct (reconcile_machine (mcluster ∅, [])) as [[res e] [w' l']] eqn:E.
  destruct (Machine_Reconcile_events demo_rufio demo_inventory demo_mr "bmc" "tink" (mcluster ∅) [] res e w' l' E)
    as (es & El & [->|[(m & u & err & pe & -> & _)|(m & p & m1 & inv & u & pe & -> & _ & _ & Hr & _)]]).
  - vm_compute in E. injection E as _ _ _ <-. discriminate.
  - vm_compute in E. injection E as _ _ _ <-. discriminate.
  - simpl in El. vm_compute in E. injection E as _ _ _ <-.
    destruct inv as [|i [|i2 inv]]; [discriminate El| |apply (f_equal length) in El; simpl in El; rewrite length_app in El; simpl in El; lia].
    injection El as <- <- <- Eu <-.
    exists u. destruct Hr as [H1 H2]; [discriminate|]. split; [exact H1|]. split; [exact H2|].
    rewrite <-Eu. reflexivity.
Defined.

(** With the refresh annotation the power read is lost: the status patched still
    says off, although the BMC answered on. *)
Example refresh_loses_power :
  mst_Power (m_Status (mc_machine (Machine_Reconcile demo_mr "bmc" "tink" (mcluster {[ refreshInventoryAnnotation := "true" ]})).2)) = Off
  ∧ mst_Power (m_Status (mc_machine (Machine_Reconcile demo_mr "bmc" "tink" (mcluster ∅)).2)) = On.
Proof. split; vm_compute; reflexivity. Qed.

Lemma demo_same_device : same_device demo_device demo_device'.
Proof.
  split; try reflexivity; try (split; [intros x y; by rewrite elem_of_nil|by exists []]).
  split.
  - unfold demo_device, device_of; cbn [dev_CPUs]. intros x y Hx Hy. rewrite !elem_of_cons, elem_of_nil in Hx, Hy.
    destruct Hx as [->|[->|[]]], Hy as [->|[->|[]]]; done.
  - exists (dev_CPUs demo_device'). split; [apply Permutation_swap|repeat constructor].
Qed.


(** ** Options *)

Definition override_provider (d s : p_Provider) : p_Provider :=
  mkp_Provider (override "" (pp_ConsumerURL d) (pp_ConsumerURL s)) (override "" (pp_Host d) (pp_Host s))
    (mkp_Opts (merged_Request (po_Request (pp_Opts d)) (po_Request (pp_Opts s)))
       (merged_Signature (po_Signature (pp_Opts d)) (po_Signature (pp_Opts s)))
       (mkp_HMACOpts
          (override false (phm_PrefixSigDisabled (po_HMAC (pp_Opts d))) (phm_PrefixSigDisabled (po_HMAC (pp_Opts s))))
          (phm_Secrets (po_HMAC (pp_Opts s)) ∪ phm_Secrets (po_HMAC (pp_Opts d))))
       (po_Experimental (pp_Opts d))).

#[export] Instance demo_mergo : Mergo := {| mergo_Merge := override_provider |}.
#[export] Instance demo_mergo_laws : MergoLaws.
Proof. split; reflexivity. Qed.

(** A Machine that asks for its own timestamp header does not get it. *)
Definition demo_rpc : RPCOptions :=
  mkRPCOptions "http://rpc.example.org" false (Some (mkRequestOpts "" "POST" ∅ "" "X-My-Timestamp")) None None None.

Lemma translateRPC_headers_witness :
  prq_HTTPMethod (po_Request (pp_Opts (translateRPC None demo_rpc "10.0.0.1"))) = "POST" ∧
  prq_TimestampHeader (po_Request (pp_Opts (translateRPC None demo_rpc "10.0.0.1"))) = "X-Rufio-Timestamp".
Proof.
  destruct (translateRPC_headers None demo_rpc "10.0.0.1") as (_ & _ & H1 & _ & _ & H2 & _).
  split; [|exact H2]. apply (H1 (mkRequestOpts "" "POST" ∅ "" "X-My-Timestamp")). reflexivity.
Defined.
