(* ===== verification/WitnessesRt.v ===== *)
(** * The runtimes, the log and the consoles applied

    Hosts, engines and clusters that answer every call, and the theorems about
    the agent's runtimes and the serial consoles at concrete runs. *)
From S2P Require Import Prelude GoStrings GoPath GoNet GoNetip Base64 BmcTypes Attributes ServerNames Server Agent JsonLog ContainerdFiles Containerd DockerRt KubeRt Runtimes GoStrconv HttpCommon Backends Secondstar Demo.

(** ** Runtimes *)

(** A host with a resolver file. *)
#[export] Instance toy_os : HostOs nat := {|
  os_ReadFile p n := if decide (p = "/etc/resolv.conf") then (inr ("nameserver 10.0.0.53" +:+ nl), S n) else (inl (ErrNew "no such file"), S n);
  os_WriteFile _ _ n := (None, S n);
  os_MkdirAll _ n := (None, S n);
  os_MkdirTemp _ n := (inr "/tmp/dns-1", S n);
  os_RemoveAll _ n := (None, S n);
  os_Stat _ n := (None, S n);
  os_Hostname n := (inr "host", S n);
  filepath_Abs p n := (inr p, S n);
  EvalSymlinks p n := (inr p, S n);
  sha256_Sum256 _ := replicate 32 171%Z;
|}.

(** A containerd whose tasks end with the status the world starts from. *)
#[export] Instance toy_containerd : ContainerdClient nat := {|
  cd_New _ n := (None, n);
  cni_New _ n := (None, n);
  shortnames_Resolve s := Some s;
  cd_GetImage i n := (inl (ErrNew "not found"), n);
  cd_Pull _ i n := (inr i, n);
  rand_Read n := (inr (replicate 4 7%Z), n);
  cd_NewContainer _ n := (None, n);
  cd_Delete _ n := (None, n);
  log_Open _ n := (None, n);
  log_Close n := (None, n);
  task_New _ n := (inr 42%Z, n);
  task_Wait _ n := (None, n);
  task_Start _ n := (None, n);
  task_Select _ n := (TaskExited 0 None, n);
  task_Kill _ n := (None, n);
  task_Drain _ n := (tt, n);
  task_Delete _ n := (None, n);
  cni_Setup _ _ n := (None, n);
  cni_Remove _ _ n := (None, n);
|}.

Definition demo_containerd : ContainerdConfig := mkContainerdConfig defaultNamespace true defaultSocketPath defaultRegistryConfigPath true "/var/lib/nerdctl".

#[local] Instance rec_os : HostOs (nat * list cevent) := recorded_os toy_os.
#[local] Instance rec_cd : ContainerdClient (nat * list cevent) := recorded_cd toy_containerd.

Definition containerd_run : option error * (nat * list cevent) := containerd_Execute demo_containerd demo_action (0, []).

(** The run succeeds, so the container is released too. *)
Lemma containerd_lifecycle_witness :
  containerd_run.1 = None ∧
  ∃ es, containerd_run.2.2 = [] ++ es ∧ (containerd_run.1 = None ↔ exited_zero es) ∧
    ∀ x, holds x es false = true → containerd_run.1 ≠ None ∧ ∃ id, x = RContainer id.
Proof.
  split; [vm_compute; reflexivity|].
  apply (containerd_lifecycle toy_os toy_containerd) with (c := demo_containerd) (a := demo_action) (w := 0) (w' := containerd_run.2.1).
  - intros p w d w' [= <- _]. discriminate.
  - unfold containerd_run. destruct (containerd_Execute _ _ _) as [r [w' l']]. reflexivity.
Defined.

(** An engine with an image that must be pulled. *)
#[export] Instance toy_docker : DockerClient nat := {|
  ref_Domain _ := Some "quay.io";
  norm_NFC s := s;
  auth_Marshal au := inr (ac_Username au);
  dk_ImagePull _ _ n := (if decide (n = 0) then Some (ErrNew "toomanyrequests") else None, S n);
  dk_CopyPull n := (None, n);
  dk_ClosePull n := (tt, n);
  dk_ImageInspect _ n := (Some (ErrNew "no such image"), n);
  dk_Create _ n := (inr "c1", n);
  dk_Wait _ n := (tt, n);
  dk_Start _ n := (None, n);
  dk_Attach _ n := (None, n);
  dk_AttachClose _ n := (tt, n);
  dk_Select _ n := (DExited 1, n);
  dk_Stop _ n := (None, n);
  dk_Remove _ n := (None, n);
|}.

#[local] Instance rec_docker : DockerClient (nat * list devent) := recorded_docker toy_docker.
Definition demo_auth : option AuthConfig := Some (mkAuthConfig "user" "secret" "quay.io").
Definition docker_result : option error * (nat * list devent) := docker_Execute demo_auth demo_action (0, []).

(** The first pull fails, the container ends with status 1. *)
Lemma docker_lifecycle_witness :
  docker_result.1 ≠ None ∧ length docker_result.2.2 = 6 ∧
  ∃ pulls es, docker_result.2.2 = [] ++ pulls ++ es ∧ length pulls ≤ 5 ∧
    Forall (λ e, ∃ x, e = DPull (sa_Image demo_action) x ∧
      (x ≠ None → ∃ au host, demo_auth = Some au ∧ ref_Domain (sa_Image demo_action) = Some host ∧ norm_NFC host = norm_NFC (ac_ServerAddress au))) pulls ∧
    ((docker_result.1 ≠ None ∧ (es = [] ∨ ∃ e, es = [DCreate (docker_container demo_action) (inl e)])) ∨
     ∃ id run, es = DCreate (docker_container demo_action) (inr id) :: run ++ [DRemove id] ∧ docker_run_trace id docker_result.1 run ∧
       (docker_result.1 = None ↔ DEnd id (DExited 0) ∈ run)).
Proof.
  split; [vm_compute; discriminate|]. split; [vm_compute; reflexivity|].
  apply (docker_lifecycle toy_docker) with (w := 0) (w' := docker_result.2.1).
  unfold docker_result. destruct (docker_Execute _ _ _) as [r [w' l']]. reflexivity.
Defined.

(** A cluster in which the action's container ends before its sidecar. *)
Definition demo_pod : Pod := mkPod "p" "Running" [mkContainerStatus "proxy" None; mkContainerStatus actionContainerName (Some (mkTerminated 0 "Completed"))].
#[export] Instance toy_jobs : KubeJobs nat := {|
  j_Create j n := (inr j, n);
  j_Get _ n := (inl (ErrNotFound "jobs"), n);
  j_Delete _ n := (None, n);
  j_Tick n := (true, n);
  p_List _ n := (inr ([], "7"), n);
  p_Watch _ _ n := (None, n);
  p_Next n := (if decide (n = 0) then WOther else WPod demo_pod, S n);
  p_Stop n := (tt, n);
  p_Backoff n := (None, n);
  p_Logs _ n := (tt, n);
|}.

#[local] Instance rec_jobs : KubeJobs (nat * list kevent) := recorded_kube toy_jobs.
Definition demo_kube : KubeConfig := mkKubeConfig "tink" "default".
Definition kube_result : option (option error) * (nat * list kevent) := kube_Execute 3 3 demo_kube demo_action (0, []).


(** A cluster whose pod never ends, and a deadline of five events. *)
Definition slow_jobs : KubeJobs nat := {|
  j_Create j n := (inr j, n);
  j_Get _ n := (inl (ErrNotFound "jobs"), n);
  j_Delete _ n := (None, n);
  j_Tick n := (true, n);
  p_List _ n := (inr ([], "7"), n);
  p_Watch _ _ n := (None, n);
  p_Next n := match n with 0 => (WCtxDone DeadlineExceeded, 0) | S n => (if decide (n = 2) then WClosed else WPod (mkPod "p" "Running" []), n) end;
  p_Stop n := (tt, n);
  p_Backoff n := match n with 0 => (Some DeadlineExceeded, 0) | S n => (None, n) end;
  p_Logs _ n := (tt, n);
|}.

Lemma kube_returns_witness : ∃ r w', kube_Execute (H := slow_jobs) 6 6 demo_kube demo_action 5 = (Some r, w').
Proof.
  apply (kube_returns (H := slow_jobs) (λ n, n)).
  - intros ? ? ? ? [= <- <-]. lia.
  - intros ? ? ? ? [= <- <-]. lia.
  - intros ? ? ? ? [= <- <-]. lia.
  - intros ? ? ? ? ? [= <- <-]. lia.
  - intros [|n] e w'; simpl; [intros [= <- <-]; lia|]. case_decide; intros [= <- <-]; lia.
  - intros ? ? ? [= <- <-]. lia.
  - intros [|n] r w'; simpl; intros [= <- <-]; [left; discriminate|right; lia].
  - lia.
  - lia.
Defined.

(** An image with an entrypoint and a command of its own; the documented rules as functions. *)
Definition image_entrypoint : list string := ["/init"].
Definition image_cmd : list string := ["serve"].
Definition engine_args (e c : list string) : list string :=
  match e, c with [], [] => image_entrypoint ++ image_cmd | [], _ => image_entrypoint ++ c | _, _ => e ++ c end.
Definition oci_args (o : SpecOpt) (args : list string) : list string :=
  match o with
  | WithImageConfig _ => image_entrypoint ++ image_cmd
  | WithProcessArgs l => l
  | WithImageConfigArgs _ l => image_entrypoint ++ l
  | EntrypointOverride _ c => c :: image_cmd
  | _ => args
  end.
Definition cmd_action : spec_Action :=
  mkspec_Action "agent-1" "t1" "tink/wf" "a1" "stream" "image" "/bin/sh" [] [] [] (mkNamespaces "" "") 0 60 0 0 "".

Definition demo_dns : dnsFiles := mkdnsFiles "/tmp/dns-1" "/tmp/dns-1/resolv.conf" "/tmp/dns-1/hosts" "/tmp/dns-1/hostname".


(** ** The log of a container *)

Definition demo_pieces : list (stream * list ascii) :=
  [(Stdout, bytes_of ("one" +:+ nl +:+ "tw")); (Stderr, bytes_of "oops"); (Stdout, bytes_of ("o" +:+ nl)); (Stdout, bytes_of "end")].
Definition keep (e : jsonLogEntry) (es : list jsonLogEntry) : option error * list jsonLogEntry := (None, es ++ [e]).
Definition shut (es : list jsonLogEntry) : option error * list jsonLogEntry := (None, es).
Definition demo_writes : list (nat * option error) * jsonLogPair * list jsonLogEntry := pair_writes keep demo_pieces newJSONLogPair [].
Definition demo_closed : option error * jsonLogPair * list jsonLogEntry := pair_Close keep shut demo_writes.1.2 demo_writes.2.


(** ** Serial consoles *)

Definition demo_bmc : BMCMachine := mkBMCMachine "10.0.0.9" "admin" "secret" 623 "17" ["k"].
(** The first session of a machine and another one that joins it. *)
Definition two_sessions : list event :=
  let connect := Connect "node1" "xterm" (Some demo_bmc) in
  [connect; Step 0; Step 0; Step 0; connect; Step 1; Step 1; Step 1; Step 1].
Definition demo_sys : Sys := default init (srun "ipmitool" two_sessions init).

Lemma srun_reachable path es y y' : reachable path y → srun path es y = Some y' → reachable path y'.
Proof.
  revert y. induction es as [|e es IH]; intros y Hy; cbn [srun]; [by intros [= <-]|].
  destruct (sstep path e y) as [y1|] eqn:E; [|done]. apply IH. by eapply reachable_step.
Qed.

Lemma demo_sys_reachable : reachable "ipmitool" demo_sys.
Proof. eapply (srun_reachable _ two_sessions); [apply reachable_init|vm_compute; reflexivity]. Qed.

Definition first_session : Session := mkSession "node1" "xterm" (Some demo_bmc) Running.
Definition other_session : Session := mkSession "node1" "xterm" (Some demo_bmc) (Attached 0).
Definition demo_console : State := mkState 1 1 (NewMultiWriter [1]) 0.


Lemma session_counts_witness :
  st_wg demo_console = count (in_wg 0) (y_sessions demo_sys) ∧
  st_additionalSessions demo_console = wrap32 (count (in_count 0) (y_sessions demo_sys)) ∧
  NoDup (mw_writers (st_multiwriter demo_console)) ∧
  ∀ i, i ∈ mw_writers (st_multiwriter demo_console) ↔
    ∃ s, y_sessions demo_sys !! i = Some s ∧ (s_pc s = Attached 0 ∨ s_pc s = Ending 0).
Proof. apply (session_counts "ipmitool" demo_sys 0 demo_console); [apply demo_sys_reachable|vm_compute; reflexivity]. Defined.


(** ** Addresses behind proxies *)

Definition demo_xff : Xff := mkXff false (default [] (match toMasks ["10.0.0.0/8"] with inr l => Some l | inl _ => None end)).

(** A client that writes an address of its own into the header. *)
Lemma xff_spoof_resistant_witness :
  SplitHostPort (Xff_Handler demo_xff "192.168.7.7, 203.0.113.5, 10.0.0.2" "10.0.0.1:5555") = Some (TrimSpace " 203.0.113.5", "5555").
Proof.
  apply (xff_spoof_resistant demo_xff "192.168.7.7, 203.0.113.5, 10.0.0.2" "10.0.0.1:5555" "10.0.0.1" "5555" ["192.168.7.7"] " 203.0.113.5" [" 10.0.0.2"]);
    [vm_compute; reflexivity|discriminate|vm_compute; reflexivity|vm_compute; reflexivity|vm_compute; discriminate|vm_compute; reflexivity|].
  constructor; [|constructor]. split; [vm_compute; discriminate|vm_compute; reflexivity].
Defined.
