(* ===== verification/WitnessesUi.v ===== *)
(** * The web UI applied

    An API server with five workflows and one token, and the theorems about
    sessions and pages at requests to it. *)
From S2P Require Import Prelude GoStrings GoStrconv GoPath Base64 InventoryTypes Api BmcTypes BmcApi UiPages UiTypes UiKube UiLists UiSearch UiAuth UiCrd UiRoutes UiSession Demo.

Definition demo_workflows : list (Listed KWorkflow) :=
  (λ n, @mkListed KWorkflow (mkWorkflow (meta n) (spec_with netboot None) (wf_Status demo_fresh)) 1700000000) <$> ["a"; "b"; "c"; "d"; "e"].

(** It grants the token [t.e.st] everything in any namespace and lists workflows. *)
#[export] Instance toy_api : UiKube nat := {|
  k_New _ n := (None, S n);
  k_ListNamespaces _ n := (inr ["tink"], n);
  k_List k _ _ n := (match k return res (list (Listed k)) with KWorkflow => inr demo_workflows | _ => inr [] end, n);
  k_Get _ _ _ name n := (inl (ErrNotFound name), n);
  k_AccessReview cl _ _ _ _ n := (inr (bool_decide (cl = TokenClient "t.e.st" "https://10.0.0.1:6443" false)), n);
  yaml_Marshal _ := inr "";
  json_AgentAttributes _ := None;
  local_time _ := "";
|}.

#[export] Instance toy_tokens : TokenEnv := {|
  url_Parse s := if HasPrefix s "https://" then inr ("https", "10.0.0.1") else inl (ErrNew "parse");
  json_exp _ := None;
  json_namespace _ := None;
|}.

Definition request (query post cookies : gmap string string) (cl : option KubeClient) : GinContext :=
  mkGinContext "/" true ∅ query ∅ post cookies None None cl.

(** ** Login *)

Definition login_request : GinContext := request ∅ (<["token" := " t.e.st "]> {["apiServer" := "https://10.0.0.1:6443"]}) ∅ None.
Definition login_answer : list op := (HandleLoginValidate login_request 0).1.
Definition session_request : GinContext := request ∅ ∅ (jar_after login_answer ∅) None.

Lemma login_eq : HandleLoginValidate login_request 0 = (login_answer, 1).
Proof. vm_compute. reflexivity. Defined.

Lemma login_roundtrip_witness : GetTokenAndAPIServerFromRequest session_request = ("t.e.st", "https://10.0.0.1:6443", false).
Proof.
  apply (login_roundtrip login_request 0 login_answer 1 ∅ session_request login_eq); [|reflexivity].
  vm_compute. repeat (first [left|right]).
Defined.


(** ** Requests of a session *)

(** An API server that refuses everything. *)
Definition deaf_api : UiKube nat := {|
  k_New _ n := (Some (ErrNew "no"), n);
  k_ListNamespaces _ n := (inl (ErrNew "no"), n);
  k_List _ _ _ n := (inl (ErrNew "no"), n);
  k_Get _ _ _ _ n := (inl (ErrNew "no"), n);
  k_AccessReview _ _ _ _ _ n := (inl (ErrNew "no"), n);
  yaml_Marshal _ := inr "";
  json_AgentAttributes _ := None;
  local_time _ := "";
|}.

Definition demo_ui : UiConfig := NewConfig [].

(** The list of workflows, of the client of the session. *)
Lemma session_confined_witness :
  let K1 := others toy_api (TokenClient "t.e.st" "https://10.0.0.1:6443" false) deaf_api in
  serve_protected (H := K1) demo_ui (@HandleWorkflowList nat K1 0) session_request 0 =
  serve_protected (H := toy_api) demo_ui (@HandleWorkflowList nat toy_api 0) session_request 0.
Proof.
  replace (TokenClient "t.e.st" "https://10.0.0.1:6443" false) with (client_of demo_ui session_request) by (vm_compute; reflexivity).
  apply (session_confined toy_api deaf_api 0 ∅ demo_ui 5 "/workflows"); reflexivity.
Defined.

Definition pages_request : GinContext := request {["per_page" := "2"]} ∅ ∅ (Some AutoClient).

(** Three pages, of two, two and one. *)
Lemma workflow_pages_complete_witness :
  let n := pages (Z.of_nat (length demo_workflows)) (per_page_query pages_request) in
  let shown i := GetPaginatedWorkflows 0 (workflow_row <$> demo_workflows) (Z.of_nat i + 1) (per_page_query pages_request) in
  n = 3%Z ∧
  (∀ i, i < Z.to_nat n → HandleWorkflowList 0 (set_page (Z.of_nat i + 1) pages_request) 0 =
     (if IsHTMXRequest pages_request then html (WorkflowTableContent (shown i)) else html (WorkflowPage (cfg_of pages_request ["tink"]) (shown i)), 0)) ∧
  concat ((λ i, pg_Items (shown i)) <$> seq 0 (Z.to_nat n)) = workflow_row <$> demo_workflows ∧
  (∀ i, (Z.of_nat (length (pg_Items (shown i))) ≤ per_page_query pages_request ≤ MaxItemsPerPage)%Z).
Proof.
  pose proof (workflow_pages_complete 0%Z 0 AutoClient ["tink"] eq_refl pages_request demo_workflows eq_refl eq_refl eq_refl) as E.
  intros n shown. split; [vm_compute; reflexivity|exact E].
Defined.
