(* ===== verification/WitnessesCmd.v ===== *)
(** * The command applied

    The default flags of a host with a public address, on the network of
    [DemoNet] and an API server that accepts everything. *)
From S2P Require Import Prelude GoStrings GoPath GoNet GoNetip BmcTypes InventoryTypes Api Attributes ServerNames Server Dhcp DhcpConv DhcpHandler Backends DhcpStore Tootles IpxeScript BootChain GoHttp ReverseProxy Iso IpxeBinary HttpCommon Flags SmeeConfig Command Startup Demo DemoNet WitnessesNet WitnessesIso.

(** ** The configuration of the defaults *)

Definition demo_ip : Addr := Addr4 [192; 168; 1; 1]%Z.
Definition demo_globals (cert key : string) : GlobalConfig :=
  mkGlobalConfig 0 "kube" "tink" [] demo_ip demo_ip 7080 7443 true true true true true true true true false false cert key false false.
Definition demo_flags : SmeeConfig := mkSmeeConfig smee_defaults (mkURLBuilder "" 0) (mkURLBuilder "" 0) 0.
Definition demo_config : smee_Config := sf_Config (smee_Convert [] demo_ip demo_ip 7080 demo_flags).

Definition demo_dhcp : dhcp_server := match dhcpHandler demo_config with inr h => h | inl _ => ProxyServer (mkProxyHandler AddrNone (netboot_of (ProxyServer (mkProxyHandler AddrNone (mkNetbootConfig (mkAddrPort AddrNone 0) None None false "" "" ∅) false))) false) end.
Definition demo_server (tls : bool) : http_server :=
  match startHTTPServer (demo_globals "c" "k") demo_config tls true (inr true) "/" with
  | inr sv => sv
  | inl _ => mkhttp_server [] None ([], None) (server_NewConfig [])
  end.

Lemma demo_dhcp_eq : dhcpHandler demo_config = inr demo_dhcp.
Proof. reflexivity. Qed.
Lemma demo_server_eq tls : startHTTPServer (demo_globals "c" "k") demo_config tls true (inr true) "/" = inr (demo_server tls).
Proof. destruct tls; reflexivity. Qed.

(** The URL of the answer to machine a, and the handler it reaches. *)
Lemma netboot_chain_witness :
  ∃ f u h resp, nc_IPXEScriptURL (netboot_of demo_dhcp) = Some f ∧ f (pxe_packet MessageTypeDiscover) = Some u ∧
    uf_Host u = "192.168.1.1:7080" ∧
    mux_lookup (hv_http (demo_server true)) (uf_Path u) = Some (IPXEScriptURI, Serve (ScriptH h)) ∧
    script_Handle uf_Scheme h "" (uf_Path u) "10.9.9.9:1" demo_watcher = (resp, demo_watcher) ∧ hr_Code resp = 200%Z.
Proof.
  destruct (netboot_chain (demo_globals "c" "k") demo_flags true true (inr true) "/" (demo_server true) demo_dhcp []
    (mkUrlParts "http" "" "/ipxe/script/auto.ipxe" "" "") (pxe_packet MessageTypeDiscover) "" "10.9.9.9:1" demo_watcher) as (f & u & h & resp & H1 & H2 & H3 & H4 & H5 & H6).
  1-5: first [reflexivity | constructor].
  - reflexivity.
  - reflexivity.
  - vm_compute. reflexivity.
  - exact demo_dhcp_eq.
  - exact (demo_server_eq true).
  - exact demo_file_ok.
  - exact octets_a.
  - left. reflexivity.
  - exists f, u, h, resp. split; [exact H1|]. split; [exact H2|]. split; [apply H3; reflexivity|]. split; [exact H4|]. split; [exact H5|].
    destruct (boot_info (hl_objects demo_watcher) (pk_ClientHWAddr (pxe_packet MessageTypeDiscover))) as [i|] eqn:Ei; [|vm_compute in Ei; discriminate].
    destruct H6 as [H6 _]. destruct H6 as [[H6 _]|[_ H6]].
    + vm_compute in Ei. injection Ei as <-. reflexivity.
    + exact H6.
    + exfalso. destruct H6 as [H6|H6]; apply H6; vm_compute in Ei; injection Ei as <-; reflexivity.
Defined.


(** ** Starting up *)

#[export] Instance toy_env : CmdEnv nat := {|
  e_LoadX509KeyPair _ _ n := (None, S n);
  e_NewServerTLSFromFile _ _ n := (None, S n);
  e_inCluster n := (false, n);
  e_HostKey n := (None, n);
  e_otelInit n := (None, n);
  e_newKubeBackend _ n := (None, S n);
  e_WaitForAPIServer n := (None, S n);
  e_NewTinkerbell n := (None, n);
  e_MigrateAndReady n := (None, S n);
  e_newFileBackend n := (Some (ErrNew "no file"), n);
|}.

#[local] Instance rec_env : CmdEnv (nat * list sevent) := recorded_env toy_env.
Definition demo_cmd : CmdFlags := mkCmdFlags AddrNone 42113 false "" false "" false.
Definition demo_run : res plan * (nat * list sevent) := configure (demo_globals "c" "k") demo_flags demo_cmd (mksmee_OTEL "" false) (0, []).
Definition demo_plan : plan :=
  match demo_run.1 with inr p => p | inl _ => mkplan demo_config false (mkAddrPort AddrNone 0) false "" "" AddrNone (mkwiring false false false false false None) end.


(** A file backend leaves every service but Smee without one. *)
Example file_backend_wiring :
  (select_backend (H2 := Build_CmdEnv _ (λ _ _ n, (None, n)) (λ _ _ n, (None, n)) (λ n, (false, n)) (λ n, (None, n)) (λ n, (None, n))
      (λ _ n, (None, n)) (λ n, (None, n)) (λ n, (None, n)) (λ n, (None, n)) (λ n, (None, n)))
     (mkGlobalConfig 0 "file" "" [] demo_ip demo_ip 7080 7443 true true true true true true true true false false "" "" false false) demo_cmd 0).1
  = inr (mkwiring true false false false false None).
Proof. reflexivity. Qed.
